(* ===== verification/_CoqProject ===== *)
-Q . S2P
Prelude.v
CString.v
Traps.v
Locks.v
ProcDefs.v
Queue.v
Sched.v
Proc.v
Pipe.v
Kalloc.v
Vm.v
Uvm.v
Umem.v
FsDefs.v
Bio.v
Log.v
Fs.v
FileDefs.v
File.v
Syscall.v
Mount.v
Exec.v
Sysfile.v
Inodes.v
Reboot.v
Crash.v
Grep.v
Shell.v
Runcmd.v
Umalloc.v
Printf.v
Console.v
Sync.v
Ide.v
Kbd.v
Mkfs.v
Login.v
Coreutils.v
Trap.v
Sbrk.v
Boot.v
Mp.v
Uart.v
Smp.v
