(* ===== verification/Prelude.v ===== *)
(** * xv6 rework: a verification library

    A model of the i386 xv6 rework in src/ (kernel, boot loader and user programs)
    and the theorems that make it correct.  Pure functions are functions; code with
    effects is in the monad [M S A := S -> outcome (A * S)] below, where [S] is the
    state of the component.  Integers are [Z] with their 32-, 16- or 8-bit wrap-around
    written out ([u32], [s32], [u8], ...), memory is a map from addresses to bytes,
    pointers to array elements are indices, null is [None] or 0.  An outcome says
    whether the code returned ([Done]), called panic ([Panicked]), followed a bad
    pointer ([Faulted]) or waits for ever or for another thread ([Hung]).

    ** The program and its files

    Base.  [CString]: kernel/mm/string.c, the strings of user/ulib.c, [stosb]/[stosl]
    of x86.h, words in memory.  [Traps]: the numbers of arch/x86_32/traps.h.

    Locks.  [Locks]: lock/spinlock.c, with the module [Mutex] for several processors
    interleaved.  [Sync]: lock/sleeplock.c and lock/semaphore.c as a step relation of
    many processes.  [Mount] has lock/nonblockinglock.c.

    Processes.  [ProcDefs]: the structures of sched/proc.h, sched/signals.h and
    data/queue.h, and the lock and queue names.  [Queue]: data/queue.c.  [Sched]:
    sched/sched.c and sched/signals.c.  [Proc]: sched/proc.c over the class [ProcEnv]
    of the memory, file and log services it calls.  [Trap]: trap/trap.c and
    syscall/sysproc.c over the class [TrapEnv] of the other handlers.  [Pipe]:
    ipc/pipe.c.

    Memory.  [Kalloc]: mm/kalloc.c, the free list inside the free pages.  [Vm]: the
    page tables of arch/x86_32/mem/vm.c.  [Uvm] and [Umem]: what the same functions do
    to an address space and to the memory of a process as a whole.  [Sbrk]: the
    instance of [ProcEnv] with the real page tables, and sbrk through all layers.

    Files.  [FsDefs]: the state of cache, log and inodes.  [Bio]: fs/bio.c.  [Log]:
    fs/log.c.  [Fs]: fs/fs.c.  [Inodes]: files as arrays of bytes.  [Reboot]: the
    start of the file system in forkret.  [Crash]: filewrite with crashes among its disk
    writes.  [FileDefs] and [File]: fs/file.c.  [Mount]: fs/mount.c.  [Ide]: drivers/ide.c over the class [Ata]
    of the controllers.  [Mkfs]: user/mkfs.c, which makes the image.

    System calls.  [Syscall]: syscall/syscall.c.  [Sysfile]: syscall/sysfile.c.
    [Exec]: exec.c.

    Devices and start.  [Console]: dev/console.c.  [Kbd]: drivers/kbd.c and kbd.h.
    [Uart]: drivers/uart.c, cpu/ioapic.c and cpu/picirq.c.  [Boot]: boot/bootmain.c.
    [Mp]: mp/mp.c.  [Smp]: cpu/lapic.c and startothers of main.c.

    User programs.  [Shell] and [Runcmd]: user/sh.c, the parser and the execution.
    [Umalloc]: user/umalloc.c.  [Printf]: user/printf.c.  [Grep]: user/grep.c.
    [Login]: user/login.c.  [Coreutils]: user/wc.c, cat.c and fmtname of ls.c.

    Operations carry the names of their C functions.  A function that can sleep in the
    middle is cut there: the definition is the run from one sleep to the next, and the
    step relations of [Pipe], [Sync] and [Console] put other processes in between.

    ** What the theorems show

    - Storage.  A crash at any point of commit leaves all of a transaction or none
      ([Log]); from filewrite down to the disk and back up through the next start of
      the kernel, a file shows a prefix of a write in whole transactions ([Crash]);
      writei refines the update of a range of bytes and its transaction fits the log
      ([Inodes]); paths are resolved in finite time ([Fs]); the driver with its
      interrupts implements the disk the cache is proved against ([Ide]); the kernel
      reads back from an image what mkfs put there ([Mkfs]).
    - Memory.  Pages are handed out once and none is lost ([Kalloc]); address spaces
      stay well formed under every sequence of operations, growth is all or nothing and
      freevm gives everything back ([Uvm], [Umem]); fork copies ([Vm]); exec builds the
      stack ([Exec]); sbrk resizes ([Sbrk]); malloc and free never overlap blocks
      ([Umalloc]).
    - Processes.  The linked queues refine lists ([Queue]); dispatch, preemption, sleep,
      wakeup, exit and wait move a process between queues and states with exactly the
      right locks held ([Sched], [Proc], [Trap]); spin locks and sleeping locks exclude
      each other under every interleaving ([Locks], [Sync]); pipes are first in, first
      out ([Pipe]).
    - System calls.  Accepted pointers lie in the memory of the process ([Syscall]);
      reference counts of open files are exact on every path ([Sysfile]).
    - Devices.  Keys, serial bytes and editing reach the line discipline ([Kbd], [Uart],
      [Console]); the loader, the tables and the start of processors ([Boot], [Mp],
      [Smp]).
    - Programs.  The shell's parser decides its grammar and runs what a line means
      ([Shell], [Runcmd]); printf prints what its format means ([Printf]); grep's
      matcher decides its language ([Grep]); which passwords login accepts ([Login]).

    Some theorems describe what the code does where that is not what it means to do:
    [wakeup_wakes_first], [semaphore_never_wakes], [commit_skips_other_device],
    [exceptions_handled], [mount_error_leaks_op], [kill_wedges_sleeper],
    [ideintr_two_panics] and others; their comments say so.

    ** Fuel, bounds and parameters

    Loops that are not structural take fuel, and [OutOfFuel] is an outcome of its own,
    so that a theorem with [Done] excludes it.  Walks over process queues have fuel
    [NPROC + 1], more than a queue can hold; loops over pages have one step for every
    page; string loops take the length of the string; the file loops take the count of
    bytes; the retries of cmostime and of the serial interrupt take any number above an
    explicit bound stated in the theorem.  Constants ([NPROC], [LOGSIZE], [NDIRECT],
    [KERNBASE], ...) have the values of the headers.

    What lies outside of src/ or in assembly is a parameter: the context switch
    [swtch] (any behaviour), the symbols of the linker, the answers of ports, what
    system calls return to a user program.  Hypotheses on devices are the laws of the
    classes [Ata], [Pio] and [Serial], each with an instance that satisfies it.

    ** Not modelled

    The assembly files and seginit (registers of the processor); the composition of the
    initialisation calls in main and mpmain; the contents of kernel stacks; the text of
    diagnostics and procdump.  arch/x86_64, drivers/memide.c and ipc/fifo.c do not compile
    or are not built; algorithms/hash.c is not called and overflows signed integers.
    usertests, forktest and stressfs are tests; the remaining small user programs
    (init, echo, kill, ln, mkdir, rm, mountfs, umountfs, sig, zombie, freemem, the
    listing of ls) make a few system calls and print messages. *)
From stdpp Require Import base decidable option list fin_maps numbers strings.
From Stdlib Require Import ZArith Lia.

Local Open Scope Z_scope.

(** ** Machine integers

    A w-bit integer is a [Z]; [u8 .. u32] reduce into the unsigned range,
    [s8 .. s32] into the signed one.  The sources use [uint8], [uint16],
    [uint32], [char], [short] and [int] of the 32-bit x86 ABI. *)

Definition u8 (z : Z) : Z := z mod 2 ^ 8.
Definition u16 (z : Z) : Z := z mod 2 ^ 16.
Definition u32 (z : Z) : Z := z mod 2 ^ 32.
Definition s8 (z : Z) : Z := (z + 2 ^ 7) mod 2 ^ 8 - 2 ^ 7.
Definition s16 (z : Z) : Z := (z + 2 ^ 15) mod 2 ^ 16 - 2 ^ 15.
Definition s32 (z : Z) : Z := (z + 2 ^ 31) mod 2 ^ 32 - 2 ^ 31.

(** C truth values. *)
Definition c_true (z : Z) : bool := negb (z =? 0).
Definition of_bool (b : bool) : Z := if b then 1 else 0.

(** ** Outcomes of kernel code

    A call returns, stops the machine through [panic], follows a pointer
    that is null or outside every object, or never returns control
    ([Hung]: a spin on a lock that this very thread would have to free, or a
    sleep until another thread acts, where the model has only this one). *)

Inductive outcome (A : Type) : Type :=
| Done (a : A)
| Panicked (msg : string)
| Faulted
| Hung
| OutOfFuel.

Arguments Done {_} a.
Arguments Panicked {_} msg.
Arguments Faulted {_}.
Arguments Hung {_}.
Arguments OutOfFuel {_}.

(** Stateful code: a function from the state to an outcome. *)
Definition M (S A : Type) : Type := S → outcome (A * S).

#[export] Instance M_ret {S} : MRet (M S) := λ A a s, Done (a, s).
#[export] Instance M_bind {S} : MBind (M S) := λ A B k m s,
  match m s with
  | Done (a, s') => k a s'
  | Panicked msg => Panicked msg
  | Faulted => Faulted
  | Hung => Hung
  | OutOfFuel => OutOfFuel
  end.

Section monad_ops.
Context {S : Type}.

Definition getS : M S S := λ s, Done (s, s).
Definition putS (s : S) : M S () := λ _, Done ((), s).
Definition modS (f : S → S) : M S () := λ s, Done ((), f s).
Definition gets {A} (f : S → A) : M S A := λ s, Done (f s, s).
Definition panic {A} (msg : string) : M S A := λ _, Panicked msg.
Definition fault {A} : M S A := λ _, Faulted.
Definition hang {A} : M S A := λ _, Hung.
Definition no_fuel {A} : M S A := λ _, OutOfFuel.

(** [if (b) m;] *)
Definition mwhen (b : bool) (m : M S ()) : M S () := if b then m else mret ().

(** A pointer that must not be null to be followed. *)
Definition deref {A} (p : option A) : M S A :=
  match p with Some a => mret a | None => fault end.

(** [for] over a fixed index list. *)
Fixpoint mfor {A} (l : list A) (body : A → M S ()) : M S () :=
  match l with
  | [] => mret ()
  | x :: l => body x ≫= λ _, mfor l body
  end.
End monad_ops.

(** An operation on a part [T] of the state. *)
Definition zoom {S T A} (get : S → T) (put : T → S → S) (m : M T A) : M S A := λ s,
  match m (get s) with
  | Done (a, t) => Done (a, put t s)
  | Panicked msg => Panicked msg
  | Faulted => Faulted
  | Hung => Hung
  | OutOfFuel => OutOfFuel
  end.

(** ** The development's automation *)

Create HintDb xv6.
Create Rewrite HintDb xv6.

Lemma run_bind {S A B} (m : M S A) (k : A → M S B) s :
  (m ≫= k) s =
  match m s with
  | Done (a, s') => k a s'
  | Panicked msg => Panicked msg
  | Faulted => Faulted
  | Hung => Hung
  | OutOfFuel => OutOfFuel
  end.
Proof. reflexivity. Qed.

Lemma bind_done {S A B} (m : M S A) (k : A → M S B) s a s' :
  m s = Done (a, s') → (m ≫= k) s = k a s'.
Proof. intros H. by rewrite run_bind, H. Qed.

Lemma run_gets {S A B} (f : S → A) (k : A → M S B) s : (gets f ≫= k) s = k (f s) s.
Proof. reflexivity. Qed.

Lemma run_getS {S B} (k : S → M S B) s : (getS ≫= k) s = k s s.
Proof. reflexivity. Qed.

Lemma run_modS {S B} (f : S → S) (k : () → M S B) s : (modS f ≫= k) s = k () (f s).
Proof. reflexivity. Qed.

Lemma run_ret {S A B} (a : A) (k : A → M S B) (s : S) : (mret a ≫= k) s = k a s.
Proof. reflexivity. Qed.

Lemma run_deref {S A B} (a : A) (k : A → M S B) (s : S) : (deref (Some a) ≫= k) s = k a s.
Proof. reflexivity. Qed.

Lemma bind_panicked {S A B} (m : M S A) (k : A → M S B) s msg :
  m s = Panicked msg → (m ≫= k) s = Panicked msg.
Proof. intros H. by rewrite run_bind, H. Qed.

Lemma bind_inv {S A B} (m : M S A) (k : A → M S B) s b s'' :
  (m ≫= k) s = Done (b, s'') →
  ∃ a s', m s = Done (a, s') ∧ k a s' = Done (b, s'').
Proof.
  rewrite run_bind. destruct (m s) as [[a s']| | | |]; try discriminate. eauto.
Qed.

(** ** Termination

    [terminates m]: [m] returns, panics, faults or waits from every state, so
    the fuel its definition was given is enough.  The database [term] has one
    lemma per operation. *)
Definition terminates {S A} (m : M S A) : Prop := ∀ s, m s ≠ OutOfFuel.

Create HintDb term.

Section termination.
Context {S : Type}.

Lemma term_ret {A} (a : A) : terminates (S := S) (mret a).
Proof. done. Qed.
Lemma term_bind {A B} (m : M S A) (k : A → M S B) :
  terminates m → (∀ a, terminates (k a)) → terminates (m ≫= k).
Proof. intros Hm Hk s. rewrite run_bind. specialize (Hm s). destruct (m s) as [[a s']| | | |]; try done. apply Hk. Qed.
Lemma term_getS : terminates (getS (S := S)).
Proof. done. Qed.
Lemma term_gets {A} (f : S → A) : terminates (gets f).
Proof. done. Qed.
Lemma term_modS (f : S → S) : terminates (modS f).
Proof. done. Qed.
Lemma term_panic {A} msg : terminates (panic (S := S) (A := A) msg).
Proof. done. Qed.
Lemma term_fault {A} : terminates (fault (S := S) (A := A)).
Proof. done. Qed.
Lemma term_hang {A} : terminates (hang (S := S) (A := A)).
Proof. done. Qed.
Lemma term_deref {A} (p : option A) : terminates (deref (S := S) p).
Proof. by destruct p. Qed.
Lemma term_zoom {T A} (get : S → T) (put : T → S → S) (m : M T A) :
  terminates m → terminates (zoom get put m).
Proof. intros Hm s. unfold zoom. specialize (Hm (get s)). by destruct (m (get s)) as [[a t]| | | |]. Qed.
Lemma term_mfor {A} (l : list A) (body : A → M S ()) :
  (∀ x, terminates (body x)) → terminates (mfor l body).
Proof. intros Hb. induction l as [|x l IH]; [done|]. cbn [mfor]. by apply term_bind. Qed.
End termination.

#[export] Hint Resolve term_ret term_getS term_gets term_modS term_panic term_fault term_hang
  term_deref : term.

(** Follow the binds and branches of a definition. *)
Ltac terminate :=
  repeat first
    [ progress intros
    | solve [auto with term nocore]
    | match goal with
      | |- terminates (_ ≫= _) => apply term_bind
      | |- terminates (mfor _ _) => apply term_mfor
      | |- terminates (zoom _ _ _) => apply term_zoom
      | |- terminates (let _ := _ in _) => cbv zeta
      | |- terminates (if ?b then _ else _) => destruct b
      | |- terminates (match ?x with _ => _ end) => destruct x
      end ].

(** ** Triples

    [triple P m Q]: from a state with [P], if [m] returns [a] in a state [s'],
    then [Q a s'].  [keeps P m]: [m] preserves [P]. *)
Definition triple {S A} (P : S → Prop) (m : M S A) (Q : A → S → Prop) : Prop :=
  ∀ s a s', P s → m s = Done (a, s') → Q a s'.
Definition keeps {S A} (P : S → Prop) (m : M S A) : Prop := triple P m (λ _, P).

Create HintDb keeps.

Section triples.
Context {S : Type}.

Lemma triple_ret {A} (a : A) (Q : A → S → Prop) : triple (Q a) (mret a) Q.
Proof. by intros s b s' HP [= <- <-]. Qed.
Lemma triple_bind {A B} P R Q (m : M S A) (k : A → M S B) :
  triple P m R → (∀ a, triple (R a) (k a) Q) → triple P (m ≫= k) Q.
Proof. intros Hm Hk s b s'' HP (a & s' & H1 & H2)%bind_inv. exact (Hk a s' b s'' (Hm _ _ _ HP H1) H2). Qed.
Lemma triple_getS {B} P Q (k : S → M S B) :
  (∀ s, triple (λ s', s' = s ∧ P s') (k s) Q) → triple P (getS ≫= k) Q.
Proof. intros Hk s b s' HP H. rewrite run_getS in H. by apply (Hk s s b s'). Qed.
Lemma triple_modS (f : S → S) P (Q : () → S → Prop) : (∀ s, P s → Q () (f s)) → triple P (modS f) Q.
Proof. intros Hf s [] s' HP [= <-]. by apply Hf. Qed.
Lemma triple_pre {A} (P P' : S → Prop) (m : M S A) Q :
  (∀ s, P s → P' s) → triple P' m Q → triple P m Q.
Proof. intros HP Hm s a s' H. apply Hm. by apply HP. Qed.
Lemma triple_pure {A} (φ : Prop) (P : S → Prop) (m : M S A) Q :
  (φ → triple P m Q) → triple (λ s, φ ∧ P s) m Q.
Proof. intros Hm s a s' [Hφ HP]. by apply Hm. Qed.
Lemma keeps_zoom {T A} (get : S → T) (put : T → S → S) (m : M T A) P :
  (∀ s t, P s → P (put t s)) → keeps P (zoom get put m).
Proof.
  intros Hput s a s' HP. unfold zoom. destruct (m (get s)) as [[b t]| | | |]; try done.
  intros [= _ <-]. by apply Hput.
Qed.
Lemma keeps_ret {A} (a : A) P : keeps P (mret (M := M S) a).
Proof. by intros s b s' HP [= _ <-]. Qed.
Lemma keeps_bind {A B} P (m : M S A) (k : A → M S B) :
  keeps P m → (∀ a, keeps P (k a)) → keeps P (m ≫= k).
Proof. apply triple_bind. Qed.
Lemma keeps_gets {A} (f : S → A) P : keeps P (gets f).
Proof. by intros s b s' HP [= _ <-]. Qed.
Lemma keeps_stop {A} (m : M S A) P : (∀ s a s', m s ≠ Done (a, s')) → keeps P m.
Proof. intros Hm s a s' _ H. by apply Hm in H. Qed.
Lemma keeps_deref {A} (p : option A) P : keeps P (deref (S := S) p).
Proof. destruct p; [apply keeps_ret | by apply keeps_stop]. Qed.
Lemma keeps_modS (f : S → S) P : (∀ s, P s → P (f s)) → keeps P (modS f).
Proof. intros H. by apply triple_modS. Qed.
End triples.

#[export] Hint Resolve keeps_ret keeps_gets keeps_deref : keeps.

(** Follow the binds and branches of a definition; the updates of the state
    are left. *)
Ltac keep :=
  repeat first
    [ progress intros
    | solve [auto with keeps nocore]
    | match goal with
      | |- keeps _ (_ ≫= _) => apply keeps_bind
      | |- keeps _ (modS _) => apply keeps_modS
      | |- keeps _ getS => apply (keeps_gets id)
      | |- keeps _ (panic _) => by apply keeps_stop
      | |- keeps _ fault => by apply keeps_stop
      | |- keeps _ hang => by apply keeps_stop
      | |- keeps _ no_fuel => by apply keeps_stop
      | |- keeps _ (let _ := _ in _) => cbv zeta
      | |- keeps _ (if ?b then _ else _) => destruct b
      | |- keeps _ (match ?x with _ => _ end) => destruct x
      end ].

(** ** Lists *)

Section filters.
Context {A : Type} (P Q : A → Prop) `{!∀ x, Decision (P x), !∀ x, Decision (Q x)}.

Lemma filter_same (l : list A) : (∀ x, x ∈ l → P x ↔ Q x) → filter P l = filter Q l.
Proof.
  induction l as [|x l IH]; intros Hiff; [done|]. rewrite !filter_cons.
  rewrite IH by (intros y Hy; apply Hiff; by constructor).
  specialize (Hiff x ltac:(by constructor)). destruct (decide (P x)), (decide (Q x)); tauto.
Qed.

(** One element fewer satisfies the predicate. *)
Lemma filter_flip (l : list A) d :
  NoDup l → d ∈ l → P d → ¬ Q d → (∀ x, x ∈ l → x ≠ d → P x ↔ Q x) →
  length (filter P l) = S (length (filter Q l)).
Proof.
  intros Hnd Hin HP HQ Hiff. induction l as [|x l IH]; [by apply elem_of_nil in Hin|].
  apply NoDup_cons in Hnd as [Hx Hnd]. rewrite !filter_cons. apply elem_of_cons in Hin as [->|Hin].
  - rewrite decide_True, decide_False by done. cbn. do 2 f_equal. apply filter_same.
    intros y Hy. apply Hiff; [by constructor|]. by intros ->.
  - pose proof (Hiff x ltac:(by constructor) ltac:(congruence)) as Hx'.
    specialize (IH Hnd Hin).
    destruct (decide (P x)), (decide (Q x)); try tauto; cbn; rewrite IH; try done;
      intros y Hy; apply Hiff; by constructor.
Qed.
End filters.

(** Integer lemmas shared by the components. *)

Lemma u32_range z : 0 ≤ u32 z < 2 ^ 32.
Proof. apply Z.mod_pos_bound. lia. Qed.

Lemma u32_small z : 0 ≤ z < 2 ^ 32 → u32 z = z.
Proof. apply Z.mod_small. Qed.

Lemma u32_u32 z : u32 (u32 z) = u32 z.
Proof. apply u32_small, u32_range. Qed.

Lemma u32_add_l a b : u32 (u32 a + b) = u32 (a + b).
Proof. apply Zplus_mod_idemp_l. Qed.

Lemma u32_add_r a b : u32 (a + u32 b) = u32 (a + b).
Proof. apply Zplus_mod_idemp_r. Qed.

Lemma u32_sub_l a b : u32 (u32 a - b) = u32 (a - b).
Proof. apply Zminus_mod_idemp_l. Qed.

Lemma u32_sub_r a b : u32 (a - u32 b) = u32 (a - b).
Proof. apply Zminus_mod_idemp_r. Qed.

Lemma u8_range z : 0 ≤ u8 z < 2 ^ 8.
Proof. apply Z.mod_pos_bound. lia. Qed.

Lemma u8_small z : 0 ≤ z < 2 ^ 8 → u8 z = z.
Proof. apply Z.mod_small. Qed.

Lemma u16_range z : 0 ≤ u16 z < 2 ^ 16.
Proof. apply Z.mod_pos_bound. lia. Qed.

Lemma s32_range z : - 2 ^ 31 ≤ s32 z < 2 ^ 31.
Proof. unfold s32. pose proof (Z.mod_pos_bound (z + 2 ^ 31) (2 ^ 32)). lia. Qed.

Lemma s32_small z : - 2 ^ 31 ≤ z < 2 ^ 31 → s32 z = z.
Proof. intros. unfold s32. rewrite Z.mod_small; lia. Qed.

Lemma s8_range z : - 2 ^ 7 ≤ s8 z < 2 ^ 7.
Proof. unfold s8. pose proof (Z.mod_pos_bound (z + 2 ^ 7) (2 ^ 8)). lia. Qed.

Lemma s8_small z : - 2 ^ 7 ≤ z < 2 ^ 7 → s8 z = z.
Proof. intros. unfold s8. rewrite Z.mod_small; lia. Qed.

#[export] Hint Rewrite u32_u32 u32_add_l u32_add_r u32_sub_l u32_sub_r : xv6.
#[export] Hint Resolve u32_range u8_range u16_range s32_range s8_range : xv6.
