(* ===== verification/CString.v ===== *)
(** * Byte memory and the string routines

    [kernel/mm/string.c] and the string half of [user/ulib.c] over a byte
    memory.  A memory maps every address to a byte in [0, 255]; a pointer is
    an address; [stosb]/[stosl] are the [rep stos] instructions that
    [kernel/arch/x86_32/x86.h] wraps.  Loops that count down an integer
    recurse on that count; the loops that stop only at a NUL byte
    ([strlen], [strcpy], [strcmp], [strchr], [atoi]) take fuel, and the
    theorems show that the length of the string is enough. *)
From stdpp Require Import base decidable option list functions numbers strings.
From Stdlib Require Import ZArith Lia.
From S2P Require Import Prelude.

Local Open Scope Z_scope.

Abbreviation mem := (Z → Z).

(** ** Stores *)

Definition store8 (m : mem) (a v : Z) : mem := <[a := u8 v]> m.

(** A 32-bit little-endian store. *)
Definition store32 (m : mem) (a w : Z) : mem :=
  store8 (store8 (store8 (store8 m a w) (a + 1) (w ≫ 8)) (a + 2) (w ≫ 16))
    (a + 3) (w ≫ 24).

(** The 32-bit little-endian load. *)
Definition load32 (m : mem) (a : Z) : Z :=
  m a + m (a + 1) ≪ 8 + m (a + 2) ≪ 16 + m (a + 3) ≪ 24.

(** [rep stosb] and [rep stosl]. *)
Fixpoint stosb (m : mem) (a v : Z) (cnt : nat) : mem :=
  match cnt with
  | O => m
  | S cnt => stosb (store8 m a v) (a + 1) v cnt
  end.

Fixpoint stosl (m : mem) (a w : Z) (cnt : nat) : mem :=
  match cnt with
  | O => m
  | S cnt => stosl (store32 m a w) (a + 4) w cnt
  end.

(** The kernel's [memset]: word stores when everything is aligned. *)
Definition memset (m : mem) (dst c n : Z) : mem :=
  if (Z.rem (s32 dst) 4 =? 0) && (n mod 4 =? 0) then
    let c := Z.land c 0xFF in
    stosl m dst (Z.lor (Z.lor (Z.lor (c ≪ 24) (c ≪ 16)) (c ≪ 8)) c)
      (Z.to_nat (n / 4))
  else stosb m dst c (Z.to_nat n).

(** ** Comparing and copying *)

Fixpoint memcmp (m : mem) (s1 s2 : Z) (n : nat) : Z :=
  match n with
  | O => 0
  | S n =>
      if negb (m s1 =? m s2) then m s1 - m s2
      else memcmp m (s1 + 1) (s2 + 1) n
  end.

(** [while (n-- > 0) *d++ = *s++;] *)
Fixpoint copy_fwd (m : mem) (d s : Z) (n : nat) : mem :=
  match n with
  | O => m
  | S n => copy_fwd (<[d := m s]> m) (d + 1) (s + 1) n
  end.

(** [while (n-- > 0) *--d = *--s;] *)
Fixpoint copy_bwd (m : mem) (d s : Z) (n : nat) : mem :=
  match n with
  | O => m
  | S n => copy_bwd (<[d - 1 := m (s - 1)]> m) (d - 1) (s - 1) n
  end.

Definition memmove (m : mem) (dst src : Z) (n : nat) : mem :=
  if (src <? dst) && (dst <? src + Z.of_nat n) then
    copy_bwd m (dst + Z.of_nat n) (src + Z.of_nat n) n
  else copy_fwd m dst src n.

Definition memcpy (m : mem) (dst src : Z) (n : nat) : mem :=
  memmove m dst src n.

(** ** Bounded strings *)

Fixpoint strncmp (m : mem) (p q : Z) (n : nat) : Z :=
  match n with
  | O => 0
  | S n' =>
      if c_true (m p) && (m p =? m q) then strncmp m (p + 1) (q + 1) n'
      else u8 (m p) - u8 (m q)
  end.

(** [while (n-- > 0) *s++ = 0;] *)
Fixpoint pad_zero (m : mem) (s : Z) (n : nat) : mem :=
  match n with
  | O => m
  | S n => pad_zero (<[s := 0]> m) (s + 1) n
  end.

Fixpoint strncpy_nat (m : mem) (s t : Z) (n : nat) : mem :=
  match n with
  | O => m
  | S n =>
      let c := m t in
      let m := <[s := c]> m in
      if c_true c then strncpy_nat m (s + 1) (t + 1) n
      else pad_zero m (s + 1) n
  end.

Definition strncpy (m : mem) (s t n : Z) : mem := strncpy_nat m s t (Z.to_nat n).

(** The loop of [safestrcpy] with [k] more bytes allowed, then [*s = 0]. *)
Fixpoint safestrcpy_loop (m : mem) (s t : Z) (k : nat) : mem :=
  match k with
  | O => <[s := 0]> m
  | S k =>
      let c := m t in
      let m := <[s := c]> m in
      if c_true c then safestrcpy_loop m (s + 1) (t + 1) k
      else <[s + 1 := 0]> m
  end.

Definition safestrcpy (m : mem) (s t n : Z) : mem :=
  if n <=? 0 then m else safestrcpy_loop m s t (Z.to_nat (n - 1)).

(** ** NUL-terminated strings *)

Fixpoint strlen_from (fuel : nat) (m : mem) (s n : Z) : option Z :=
  match fuel with
  | O => None
  | S fuel => if c_true (m (s + n)) then strlen_from fuel m s (n + 1) else Some n
  end.

Definition strlen (fuel : nat) (m : mem) (s : Z) : option Z :=
  strlen_from fuel m s 0.

(** ** user/ulib.c *)

Module Ulib.

Fixpoint strcpy (fuel : nat) (m : mem) (s t : Z) : option mem :=
  match fuel with
  | O => None
  | S fuel =>
      let c := m t in
      let m := <[s := c]> m in
      if c_true c then strcpy fuel m (s + 1) (t + 1) else Some m
  end.

Fixpoint strcmp (fuel : nat) (m : mem) (p q : Z) : option Z :=
  match fuel with
  | O => None
  | S fuel =>
      if c_true (m p) && (m p =? m q) then strcmp fuel m (p + 1) (q + 1)
      else Some (u8 (m p) - u8 (m q))
  end.

Definition umemset (m : mem) (dst c : Z) (n : nat) : mem := stosb m dst c n.

(** [Some None] is the null pointer, [Some (Some a)] the address found. *)
Fixpoint strchr (fuel : nat) (m : mem) (s c : Z) : option (option Z) :=
  match fuel with
  | O => None
  | S fuel =>
      if c_true (m s) then
        if m s =? c then Some (Some s) else strchr fuel m (s + 1) c
      else Some None
  end.

(** [n = n*10 + *s++ - '0'] while the byte is a decimal digit. *)
Fixpoint atoi_from (fuel : nat) (m : mem) (s n : Z) : option Z :=
  match fuel with
  | O => None
  | S fuel =>
      if (48 <=? m s) && (m s <=? 57) then
        atoi_from fuel m (s + 1) (s32 (n * 10 + m s - 48))
      else Some n
  end.

Definition atoi (fuel : nat) (m : mem) (s : Z) : option Z := atoi_from fuel m s 0.

(** The user library's [memmove] always copies upwards. *)
Definition umemmove (m : mem) (dst src : Z) (n : nat) : mem :=
  copy_fwd m dst src n.

End Ulib.

(** ** Proofs *)

Lemma upd_get (m : mem) (a v x : Z) :
  (<[a := v]> m) x = if decide (a = x) then v else m x.
Proof.
  case_decide as Hx; [subst; apply fn_lookup_insert | by apply fn_lookup_insert_ne].
Qed.

(** Case analysis on the memory updates and the integer tests of a goal. *)
Ltac mem_cases :=
  repeat first
    [ rewrite upd_get
    | case_decide
    | match goal with
      | |- context [bool_decide ?P] => case_bool_decide
      end ];
  subst; try lia; try done.

Lemma stosb_spec cnt m a v x :
  stosb m a v cnt x = if decide (a ≤ x < a + Z.of_nat cnt) then u8 v else m x.
Proof.
  revert m a. induction cnt as [|cnt IH]; intros m a; cbn [stosb].
  - mem_cases.
  - rewrite IH. unfold store8. mem_cases.
Qed.

Lemma store32_out m a w x : ¬ (a ≤ x < a + 4) → store32 m a w x = m x.
Proof. intros Hx. unfold store32, store8. mem_cases. Qed.

Lemma load32_ext m m' a :
  (∀ x, a ≤ x < a + 4 → m' x = m x) → load32 m' a = load32 m a.
Proof. intros Hx. unfold load32. by rewrite !Hx by lia. Qed.

(** A store followed by the load of the same word. *)
Lemma load32_store32 m a w : load32 (store32 m a w) a = u32 w.
Proof.
  unfold load32, store32, store8. rewrite !upd_get.
  repeat (case_decide; try lia). clear. unfold u8, u32.
  rewrite !Z.shiftl_mul_pow2, !Z.shiftr_div_pow2 by lia.
  change (2 ^ 24) with (2 ^ 16 * 2 ^ 8). change (2 ^ 16) with (2 ^ 8 * 2 ^ 8).
  rewrite <- !Z.div_div by lia.
  assert (Hm : ∀ z k, 0 ≤ k → z mod 2 ^ (8 + k) = z mod 2 ^ 8 + 2 ^ 8 * ((z / 2 ^ 8) mod 2 ^ k)).
  { intros z k Hk. rewrite Z.pow_add_r by lia. apply Z.rem_mul_r; lia. }
  change (2 ^ 32) with (2 ^ (8 + 24)). rewrite (Hm w 24) by lia.
  change (2 ^ 24) with (2 ^ (8 + 16)). rewrite (Hm (w / 2 ^ 8) 16) by lia.
  change (2 ^ 16) with (2 ^ (8 + 8)). rewrite (Hm (w / 2 ^ 8 / 2 ^ 8) 8) by lia. ring.
Qed.

Lemma store32_rep m a c x :
  0 ≤ c < 2 ^ 8 →
  store32 m a (Z.lor (Z.lor (Z.lor (c ≪ 24) (c ≪ 16)) (c ≪ 8)) c) x =
  if decide (a ≤ x < a + 4) then c else m x.
Proof.
  intros Hc.
  assert (Hb : ∀ k, k = 0 ∨ k = 8 ∨ k = 16 ∨ k = 24 →
    u8 (Z.lor (Z.lor (Z.lor (c ≪ 24) (c ≪ 16)) (c ≪ 8)) c ≫ k) = c).
  { intros k Hk. unfold u8. apply Z.bits_inj'. intros n Hn.
    destruct (decide (n < 8)).
    - rewrite Z.mod_pow2_bits_low by lia.
      rewrite Z.shiftr_spec, !Z.lor_spec by lia.
      rewrite !Z.shiftl_spec by lia.
      assert (Hhi : ∀ j, 8 ≤ j → Z.testbit c j = false).
      { intros j Hj. rewrite <- (Z.mod_small c (2 ^ 8)) by lia.
        by apply Z.mod_pow2_bits_high. }
      assert (Hlo : ∀ j, j < 0 → Z.testbit c j = false)
        by (intros; by apply Z.testbit_neg_r).
      destruct Hk as [-> | [-> | [-> | ->]]].
      + rewrite (Hlo (n + 0 - 24)), (Hlo (n + 0 - 16)), (Hlo (n + 0 - 8)) by lia.
        by rewrite Z.add_0_r.
      + rewrite (Hlo (n + 8 - 24)), (Hlo (n + 8 - 16)), (Hhi (n + 8)) by lia.
        rewrite orb_false_r. simpl. f_equal. lia.
      + rewrite (Hlo (n + 16 - 24)), (Hhi (n + 16 - 8)), (Hhi (n + 16)) by lia.
        rewrite !orb_false_r. simpl. f_equal. lia.
      + rewrite (Hhi (n + 24 - 16)), (Hhi (n + 24 - 8)), (Hhi (n + 24)) by lia.
        rewrite !orb_false_r. f_equal. lia.
    - rewrite Z.mod_pow2_bits_high by lia.
      rewrite <- (Z.mod_small c (2 ^ 8)) by lia.
      by rewrite Z.mod_pow2_bits_high by lia. }
  unfold store32, store8.
  rewrite !Hb by lia. rewrite <- (Z.shiftr_0_r (Z.lor _ _)), Hb by lia.
  mem_cases.
Qed.

Lemma stosl_rep cnt m a c x :
  0 ≤ c < 2 ^ 8 →
  stosl m a (Z.lor (Z.lor (Z.lor (c ≪ 24) (c ≪ 16)) (c ≪ 8)) c) cnt x =
  if decide (a ≤ x < a + 4 * Z.of_nat cnt) then c else m x.
Proof.
  intros Hc. revert m a. induction cnt as [|cnt IH]; intros m a; cbn [stosl].
  - mem_cases.
  - rewrite IH, store32_rep by done. mem_cases.
Qed.

Lemma memset_at m dst c n x :
  0 ≤ n →
  memset m dst c n x = if decide (dst ≤ x < dst + n) then u8 c else m x.
Proof.
  intros Hn. unfold memset.
  destruct ((Z.rem (s32 dst) 4 =? 0) && (n mod 4 =? 0)) eqn:Hal; cbn [andb].
  - apply andb_true_iff in Hal as [_ Hal%Z.eqb_eq].
    assert (Hc : Z.land c 0xFF = u8 c).
    { change 0xFF with (Z.ones 8). by rewrite Z.land_ones. }
    rewrite Hc, stosl_rep by apply u8_range.
    rewrite Z2Nat.id by (apply Z.div_pos; lia).
    replace (4 * (n / 4)) with n by (pose proof (Z.div_mod n 4); lia). done.
  - rewrite stosb_spec, Z2Nat.id by done. done.
Qed.

(** the kernel's [memset] fills exactly the [n] bytes at [dst] with the low
    byte of [c], whether it takes the word path or the byte path. *)
Theorem memset_spec m dst c n x :
  0 ≤ n →
  memset m dst c n x = if decide (dst ≤ x < dst + n) then u8 c else m x.
Proof. apply memset_at. Qed.

Lemma copy_fwd_spec n m d s x :
  (d ≤ s ∨ s + Z.of_nat n ≤ d) →
  copy_fwd m d s n x = if decide (d ≤ x < d + Z.of_nat n) then m (s + (x - d)) else m x.
Proof.
  revert m d s. induction n as [|n IH]; intros m d s Hov; cbn [copy_fwd].
  - mem_cases.
  - rewrite IH by lia. mem_cases; f_equal; lia.
Qed.

Lemma copy_bwd_spec n m d s x :
  s ≤ d →
  copy_bwd m d s n x =
  if decide (d - Z.of_nat n ≤ x < d) then m (s + (x - d)) else m x.
Proof.
  revert m d s. induction n as [|n IH]; intros m d s Hov; cbn [copy_bwd].
  - mem_cases.
  - rewrite IH by lia. mem_cases; f_equal; lia.
Qed.

Lemma memmove_at m dst src n x :
  memmove m dst src n x =
  if decide (dst ≤ x < dst + Z.of_nat n) then m (src + (x - dst)) else m x.
Proof.
  unfold memmove.
  destruct ((src <? dst) && (dst <? src + Z.of_nat n)) eqn:Hov.
  - apply andb_true_iff in Hov as [H1%Z.ltb_lt H2%Z.ltb_lt].
    rewrite copy_bwd_spec by lia. mem_cases. f_equal; lia.
  - apply andb_false_iff in Hov.
    apply copy_fwd_spec. rewrite !Z.ltb_ge in Hov. lia.
Qed.

(** the kernel's [memmove] copies as if through a temporary: every byte of
    the destination gets the byte the source held before the call, overlapping
    or not, and nothing else changes. *)
Theorem memmove_spec m dst src n x :
  memmove m dst src n x =
  if decide (dst ≤ x < dst + Z.of_nat n) then m (src + (x - dst)) else m x.
Proof. apply memmove_at. Qed.

(** The bytes [l], none of them NUL, then a NUL byte, at address [p]. *)
Fixpoint cstr (m : mem) (p : Z) (l : list Z) : Prop :=
  match l with
  | [] => m p = 0
  | c :: l => m p = c ∧ 0 < c < 2 ^ 8 ∧ cstr m (p + 1) l
  end.

Lemma cstr_ext m m' p l :
  (∀ x, p ≤ x ≤ p + Z.of_nat (length l) → m' x = m x) →
  cstr m p l → cstr m' p l.
Proof.
  revert p. induction l as [|c l IH]; intros p Hext; cbn.
  - intros H. rewrite Hext; [done | simpl; lia].
  - intros (H & Hc & Hl). rewrite Hext by (simpl; lia). split; [done|]. split; [done|].
    apply IH; [|done]. intros x Hx. apply Hext. simpl; lia.
Qed.

(** A C string by its bytes. *)
Lemma cstr_at m p l : cstr m p l ↔
  Forall (λ c, 0 < c < 2 ^ 8) l ∧ (∀ i c, l !! i = Some c → m (p + Z.of_nat i) = c) ∧ m (p + Z.of_nat (length l)) = 0.
Proof.
  revert p. induction l as [|c l IH]; intros p; cbn [cstr length].
  - rewrite Z.add_0_r. split; [intros H; split_and!; [constructor|by intros i c Hi|done]|naive_solver].
  - rewrite IH, Forall_cons. replace (p + Z.of_nat (S (length l))) with (p + 1 + Z.of_nat (length l)) by lia. split.
    + intros (Hc & Hr & Hf & Hi & He). split; [by split|]. split; [|done].
      intros [|i] d Hd; [injection Hd as <-; by rewrite Z.add_0_r|].
      rewrite <- (Hi i d Hd). f_equal. lia.
    + intros ((Hr & Hf) & Hi & He). split; [rewrite <- (Hi O c eq_refl); f_equal; lia|].
      split; [done|]. split; [done|]. split; [|done]. intros i d Hd. rewrite <- (Hi (S i) d Hd). f_equal. lia.
Qed.

Lemma strlen_from_cstr l fuel m s n :
  cstr m (s + n) l → (length l < fuel)%nat →
  strlen_from fuel m s n = Some (n + Z.of_nat (length l)).
Proof.
  revert fuel n. induction l as [|c l IH]; intros [|fuel] n Hl Hf; cbn in Hl |- *;
    try (simpl in Hf; lia).
  - rewrite Hl. cbn. f_equal; lia.
  - destruct Hl as (-> & Hc & Hl). unfold c_true.
    rewrite (proj2 (Z.eqb_neq c 0)) by lia. cbn [negb].
    rewrite IH; [f_equal; lia | by rewrite Z.add_assoc | simpl in Hf; lia].
Qed.

(** on a NUL-terminated string [strlen] terminates and returns its length. *)
Theorem strlen_spec m s l fuel :
  cstr m s l → (length l < fuel)%nat → strlen fuel m s = Some (Z.of_nat (length l)).
Proof.
  intros Hl Hf. unfold strlen.
  rewrite (strlen_from_cstr l); [done | by rewrite Z.add_0_r | done].
Qed.

(** [strncmp] of two NUL-terminated strings is zero exactly when their first
    [n] bytes agree. *)
Theorem strncmp_spec m p q l1 l2 n :
  cstr m p l1 → cstr m q l2 → strncmp m p q n = 0 ↔ take n l1 = take n l2.
Proof.
  revert p q l1 l2. induction n as [|n IH]; intros p q l1 l2 H1 H2; [done|].
  cbn [strncmp].
  destruct l1 as [|c1 l1], l2 as [|c2 l2]; cbn in H1, H2; cbn [take];
    unfold c_true.
  - by rewrite H1, H2.
  - destruct H2 as (H2 & Hc & _). rewrite H1, H2. cbn [negb Z.eqb andb].
    rewrite (u8_small c2) by lia. change (u8 0) with 0. split; [lia|done].
  - destruct H1 as (H1 & Hc & _). rewrite H1, H2.
    rewrite (proj2 (Z.eqb_neq c1 0)) by lia. cbn [negb andb].
    rewrite (u8_small c1) by lia. change (u8 0) with 0. split; [lia|done].
  - destruct H1 as (-> & Hc1 & H1), H2 as (-> & Hc2 & H2).
    rewrite (proj2 (Z.eqb_neq c1 0)) by lia. cbn [negb andb].
    destruct (Z.eqb_spec c1 c2) as [->|Hne].
    + rewrite (IH _ _ _ _ H1 H2). split; congruence.
    + rewrite !u8_small by lia. split; [lia | congruence].
Qed.

Lemma pad_zero_spec n m s x :
  pad_zero m s n x = if decide (s ≤ x < s + Z.of_nat n) then 0 else m x.
Proof.
  revert m s. induction n as [|n IH]; intros m s; cbn [pad_zero].
  - mem_cases.
  - rewrite IH. mem_cases.
Qed.

(** [strncpy] writes exactly [n] bytes: the string, cut to [n] bytes, then
    zeroes; the destination is not NUL-terminated when the string is longer. *)
Theorem strncpy_spec m s t l n x :
  cstr m t l → (s + n ≤ t ∨ t + Z.of_nat (length l) < s) →
  strncpy m s t n x =
  if decide (s ≤ x < s + n) then nth (Z.to_nat (x - s)) l 0 else m x.
Proof.
  intros Hl Hdis. unfold strncpy. destruct (decide (n ≤ 0)) as [Hn|Hn].
  { replace (Z.to_nat n) with O by lia. cbn. mem_cases. }
  rewrite <- (Z2Nat.id n) in Hdis |- * by lia. rewrite Nat2Z.id.
  clear Hn. revert Hl Hdis. generalize (Z.to_nat n) as k. clear n.
  intros k. revert m s t l.
  induction k as [|k IH]; intros m s t l Hl Hdis; cbn [strncpy_nat]; [mem_cases|].
  destruct l as [|c l]; cbn in Hl.
  - rewrite Hl. cbn [c_true negb Z.eqb]. rewrite pad_zero_spec. mem_cases.
    all: by destruct (Z.to_nat _).
  - destruct Hl as (-> & Hc & Hl). unfold c_true.
    rewrite (proj2 (Z.eqb_neq c 0)) by lia. cbn [negb].
    simpl length in Hdis. rewrite (IH _ _ _ l).
    + mem_cases.
      * replace (Z.to_nat (x - s)) with (S (Z.to_nat (x - (s + 1)))) by lia. done.
      * by rewrite Z.sub_diag.
    + apply (cstr_ext m); [|done]. intros y Hy. rewrite upd_get. mem_cases.
    + lia.
Qed.

Lemma safestrcpy_loop_spec k m s t l :
  cstr m t l → (s + Z.of_nat k < t ∨ t + Z.of_nat (length l) < s) →
  cstr (safestrcpy_loop m s t k) s (take k l) ∧
  ∀ x, ¬ (s ≤ x ≤ s + Z.of_nat k) → safestrcpy_loop m s t k x = m x.
Proof.
  revert m s t l. induction k as [|k IH]; intros m s t l Hl Hdis;
    cbn [safestrcpy_loop].
  { split; [rewrite take_0; cbn [cstr]; by rewrite upd_get, decide_True|]. intros x Hx. mem_cases. }
  destruct l as [|c l]; cbn in Hl.
  - rewrite Hl. cbn [c_true negb Z.eqb]. split.
    + rewrite take_nil. cbn [cstr]. rewrite !upd_get. rewrite decide_False by lia. by rewrite decide_True.
    + intros x Hx. mem_cases.
  - destruct Hl as (-> & Hc & Hl). unfold c_true.
    rewrite (proj2 (Z.eqb_neq c 0)) by lia. cbn [negb].
    simpl length in Hdis.
    destruct (IH (<[s := c]> m) (s + 1) (t + 1) l) as [Hs Hout]; [|lia|].
    { apply (cstr_ext m); [|done]. intros y Hy. mem_cases. }
    split.
    + change (take (S k) (c :: l)) with (c :: take k l). cbn [cstr]. rewrite Hout by lia. rewrite upd_get, decide_True by done. done.
    + intros x Hx. rewrite Hout by lia. mem_cases.
Qed.

(** [safestrcpy] always leaves a NUL-terminated string, the source cut to
    [n - 1] bytes, and writes nothing outside the [n] bytes of [s]. *)
Theorem safestrcpy_spec m s t l n :
  0 < n → cstr m t l → (s + n ≤ t ∨ t + Z.of_nat (length l) < s) →
  cstr (safestrcpy m s t n) s (take (Z.to_nat (n - 1)) l) ∧
  ∀ x, ¬ (s ≤ x < s + n) → safestrcpy m s t n x = m x.
Proof.
  intros Hn Hl Hdis. unfold safestrcpy. rewrite (proj2 (Z.leb_gt n 0)) by lia.
  destruct (safestrcpy_loop_spec (Z.to_nat (n - 1)) m s t l) as [H1 H2]; [done|lia|].
  split; [done|]. intros x Hx. apply H2. lia.
Qed.

(** ** Witnesses *)

Lemma memset_spec_witness : memset (λ _, 7) 4096 1 8 4100 = 1.
Proof. rewrite (memset_spec (λ _, 7) 4096 1 8 4100); [reflexivity|lia]. Defined.

(** "ab" at address 10. *)
Definition ab_at_10 : mem := <[10 := 97]> (<[11 := 98]> (λ _, 0)).

Lemma ab_at_10_cstr : cstr ab_at_10 10 [97; 98].
Proof. cbn. split; [reflexivity|]. split; [lia|]. split; [reflexivity|]. by split; [lia|]. Qed.

Lemma strlen_spec_witness : strlen 5 ab_at_10 10 = Some 2.
Proof. apply (strlen_spec ab_at_10 10 [97; 98] 5); [apply ab_at_10_cstr|cbn; lia]. Defined.

Lemma strncmp_spec_witness : strncmp ab_at_10 10 10 3 = 0.
Proof.
  apply (strncmp_spec ab_at_10 10 10 [97; 98] [97; 98] 3);
    [apply ab_at_10_cstr|apply ab_at_10_cstr|reflexivity].
Defined.

Lemma strncpy_spec_witness : strncpy ab_at_10 50 10 4 51 = 98.
Proof.
  rewrite (strncpy_spec ab_at_10 50 10 [97; 98] 4 51);
    [reflexivity|apply ab_at_10_cstr|right; cbn; lia].
Defined.

Lemma safestrcpy_spec_witness : cstr (safestrcpy ab_at_10 50 10 2) 50 [97].
Proof.
  apply (safestrcpy_spec ab_at_10 50 10 [97; 98] 2);
    [lia|apply ab_at_10_cstr|right; cbn; lia].
Defined.
