(* ===== verification/Traps.v ===== *)
(** * Trap and interrupt numbers: kernel/arch/x86_32/traps.h *)
From Stdlib Require Import ZArith.

Local Open Scope Z_scope.

Definition T_DIVIDE : Z := 0.
Definition T_DBLFLT : Z := 8.
Definition T_GPFLT : Z := 13.
Definition T_PGFLT : Z := 14.
Definition T_FPERR : Z := 16.
Definition T_SYSCALL : Z := 64.
Definition T_IRQ0 : Z := 32.
Definition IRQ_TIMER : Z := 0.
Definition IRQ_KBD : Z := 1.
Definition IRQ_COM1 : Z := 4.
Definition IRQ_IDE : Z := 14.
Definition IRQ_IDE2 : Z := 15.
Definition IRQ_ERROR : Z := 19.
Definition IRQ_SPURIOUS : Z := 31.
