(* ===== verification/Locks.v ===== *)
(** * Spin locks and interrupt nesting

    [kernel/lock/spinlock.c] and [mycpu] of [kernel/sched/proc.c].  The state
    of a kernel thread is a [kst]: the processors ([struct cpu]: local APIC
    id, [ncli], [intena]), the identity and the interrupt flag of the
    processor that executes, the lock words, and the data [C] of the component
    that uses the locks.  [acquire] on a lock that another processor holds
    spins: in a sequential run nothing else moves, so its outcome is [Hung].
    The call-stack snapshot [pcs] and the lock's name are debugging output and
    are left out.

    Module [Mutex] runs [acquire] and [release] of several processors
    interleaved at the granularity of the memory accesses. *)
From stdpp Require Import base decidable option list functions numbers strings.
From Stdlib Require Import ZArith Lia.
From S2P Require Import Prelude.

Local Open Scope Z_scope.

(** [struct cpu], the fields the lock code uses. *)
Record cpu := Cpu { apicid : Z; ncli : Z; intena : bool }.

(** [struct spinlock]: [locked] and the holder. *)
Record spinlock := SpinLock { locked : bool; lk_cpu : option nat }.

Record mach := Mach {
  cpus : nat → cpu;
  ncpu : nat;
  lapicid : Z;        (* local APIC id of the executing processor *)
  flags_if : bool     (* FL_IF of its eflags *)
}.

Record kst (L C : Type) := Kst {
  kmach : mach;
  klocks : L → spinlock;
  kcore : C
}.
Arguments Kst {_ _} kmach klocks kcore.
Arguments kmach {_ _} _.
Arguments klocks {_ _} _ _.
Arguments kcore {_ _} _.

Definition lock_free : spinlock := SpinLock false None.
Definition lock_held (i : nat) : spinlock := SpinLock true (Some i).

Section locks.
Context {L : Type} `{!EqDecision L} {C : Type}.
Implicit Types (s : kst L C) (l : L).

Definition set_mach (m : mach) s : kst L C := Kst m (klocks s) (kcore s).
Definition set_lock l (k : spinlock) s : kst L C :=
  Kst (kmach s) (<[l := k]> (klocks s)) (kcore s).
Definition set_core (c : C) s : kst L C := Kst (kmach s) (klocks s) c.

Definition set_if (b : bool) (m : mach) : mach :=
  Mach (cpus m) (ncpu m) (lapicid m) b.
Definition set_cpu (i : nat) (c : cpu) (m : mach) : mach :=
  Mach (<[i := c]> (cpus m)) (ncpu m) (lapicid m) (flags_if m).

Definition initlock l : M (kst L C) () := modS (set_lock l lock_free).

(** The search loop of [mycpu]. *)
Fixpoint find_cpu (m : mach) (i n : nat) : option nat :=
  match n with
  | O => None
  | S n => if apicid (cpus m i) =? lapicid m then Some i else find_cpu m (S i) n
  end.

Definition mycpu : M (kst L C) nat :=
  m ← gets kmach;
  if flags_if m then panic "mycpu called with trap enabled\n"
  else match find_cpu m 0 (ncpu m) with
       | Some i => mret i
       | None => panic "unknown apicid\n"
       end.

Definition cli : M (kst L C) () := modS (λ s, set_mach (set_if false (kmach s)) s).
Definition sti : M (kst L C) () := modS (λ s, set_mach (set_if true (kmach s)) s).

Definition pushcli : M (kst L C) () :=
  eflags ← gets (λ s, flags_if (kmach s));
  _ ← cli;
  i ← mycpu;
  _ ← modS (λ s, let m := kmach s in let c := cpus m i in
        set_mach (set_cpu i
          (Cpu (apicid c) (s32 (ncli c + 1))
             (if ncli c =? 0 then eflags else intena c)) m) s);
  mret ().

Definition popcli : M (kst L C) () :=
  eflags ← gets (λ s, flags_if (kmach s));
  if (eflags : bool) then panic "popcli - interruptible"
  else
    i ← mycpu;
    _ ← modS (λ s, let m := kmach s in let c := cpus m i in
          set_mach (set_cpu i (Cpu (apicid c) (s32 (ncli c - 1)) (intena c)) m) s);
    c ← gets (λ s, cpus (kmach s) i);
    if ncli c <? 0 then panic "popcli"
    else if (ncli c =? 0) && intena c then sti else mret ().

Definition holding l : M (kst L C) bool :=
  _ ← pushcli;
  k ← gets (λ s, klocks s l);
  i ← mycpu;
  _ ← popcli;
  mret (locked k && bool_decide (lk_cpu k = Some i)).

Definition acquire l : M (kst L C) () :=
  _ ← pushcli;
  h ← holding l;
  if (h : bool) then panic "acquire"
  else
    k ← gets (λ s, klocks s l);
    if locked k then hang
    else
      i ← mycpu;
      modS (set_lock l (lock_held i)).

Definition release l : M (kst L C) () :=
  h ← holding l;
  if negb h then panic "release"
  else
    _ ← modS (set_lock l lock_free);
    popcli.

(** ** Exact effects

    On a processor whose APIC id is known, the code above always finds
    itself; the rest is bookkeeping of [ncli] and [intena]. *)

Definition on_cpu (i : nat) (m : mach) : Prop :=
  find_cpu m 0 (ncpu m) = Some i.

Definition push_mach (i : nat) (m : mach) : mach :=
  let c := cpus m i in
  set_cpu i (Cpu (apicid c) (s32 (ncli c + 1))
    (if ncli c =? 0 then flags_if m else intena c)) (set_if false m).

Definition pop_mach (i : nat) (m : mach) : mach :=
  let c := cpus m i in
  let c' := Cpu (apicid c) (s32 (ncli c - 1)) (intena c) in
  set_if ((ncli c' =? 0) && intena c) (set_cpu i c' m).

Lemma find_cpu_ext m m' i n :
  (∀ j, apicid (cpus m' j) = apicid (cpus m j)) → lapicid m' = lapicid m →
  find_cpu m' i n = find_cpu m i n.
Proof.
  intros Ha Hl. revert i. induction n as [|n IH]; intros i; cbn; [done|].
  by rewrite Ha, Hl, IH.
Qed.

Lemma set_cpu_apicid i c m j :
  apicid c = apicid (cpus m i) →
  apicid (cpus (set_cpu i c m) j) = apicid (cpus m j).
Proof.
  intros Hc. cbn. destruct (decide (i = j)) as [->|Hij].
  - by rewrite fn_lookup_insert.
  - by rewrite fn_lookup_insert_ne.
Qed.

Lemma on_cpu_push i j m : on_cpu i (push_mach j m) ↔ on_cpu i m.
Proof.
  unfold on_cpu. rewrite (find_cpu_ext m); [done| |done].
  intros k. unfold push_mach. by rewrite set_cpu_apicid.
Qed.

Lemma on_cpu_pop i j m : on_cpu i (pop_mach j m) ↔ on_cpu i m.
Proof.
  unfold on_cpu. rewrite (find_cpu_ext m); [done| |done].
  intros k. unfold pop_mach, set_if. cbn -[set_cpu].
  by rewrite set_cpu_apicid.
Qed.

Lemma mycpu_ok i s :
  on_cpu i (kmach s) → flags_if (kmach s) = false → mycpu s = Done (i, s).
Proof.
  intros Hi Hf. unfold mycpu, gets. rewrite run_bind, Hf. unfold on_cpu in Hi.
  by rewrite Hi.
Qed.

Lemma pushcli_ok i s :
  on_cpu i (kmach s) → pushcli s = Done ((), set_mach (push_mach i (kmach s)) s).
Proof.
  intros Hi. unfold pushcli, gets, cli, modS. rewrite !run_bind. cbn.
  rewrite (mycpu_ok i); [done | | done].
  unfold on_cpu in *. cbn. by rewrite (find_cpu_ext (kmach s)).
Qed.

Lemma popcli_ok i s :
  on_cpu i (kmach s) → flags_if (kmach s) = false →
  1 ≤ ncli (cpus (kmach s) i) < 2 ^ 31 →
  popcli s = Done ((), set_mach (pop_mach i (kmach s)) s).
Proof.
  intros Hi Hf Hn. unfold popcli, gets. rewrite run_bind, Hf. cbn match.
  rewrite (bind_done _ _ _ _ _ (mycpu_ok i s Hi Hf)).
  rewrite run_bind. cbn. rewrite run_bind. cbn.
  rewrite fn_lookup_insert. cbn [ncli intena].
  rewrite s32_small by lia.
  rewrite (proj2 (Z.ltb_ge _ _)) by lia.
  unfold pop_mach, sti, modS, set_mach, set_if, set_cpu. cbn.
  rewrite s32_small by lia. rewrite Hf.
  by destruct ((_ =? 0) && _).
Qed.

(** What a client needs to know of the machine: which processor runs, how
    deep its [pushcli]s are nested, whether interrupts are on, and what the
    outermost [pushcli] saved. *)
Definition mach_at (i : nat) (n : Z) (b e : bool) (m : mach) : Prop :=
  on_cpu i m ∧ ncli (cpus m i) = n ∧ flags_if m = b ∧ intena (cpus m i) = e.

(** Interrupts are off while [ncli] is positive. *)
Definition cli_ok (n : Z) (b : bool) : Prop :=
  0 ≤ n < 2 ^ 31 - 2 ∧ (0 < n → b = false).

Lemma push_at i n b e m :
  mach_at i n b e m → 0 ≤ n < 2 ^ 31 - 1 →
  mach_at i (n + 1) false (if n =? 0 then b else e) (push_mach i m).
Proof.
  intros (Hi & Hn & Hb & He) Hr. unfold mach_at. rewrite on_cpu_push.
  unfold push_mach; cbn. rewrite fn_lookup_insert. cbn.
  rewrite Hn, Hb, He, s32_small by lia. done.
Qed.

Lemma pop_at i n e m :
  mach_at i (n + 1) false e m → 0 ≤ n < 2 ^ 31 - 1 →
  mach_at i n ((n =? 0) && e) e (pop_mach i m).
Proof.
  intros (Hi & Hn & Hb & He) Hr. unfold mach_at. rewrite on_cpu_pop.
  unfold pop_mach; cbn. rewrite fn_lookup_insert. cbn.
  rewrite Hn, He, s32_small by lia.
  by replace (n + 1 - 1) with n by lia.
Qed.

Lemma pushcli_at i n b e s :
  mach_at i n b e (kmach s) → 0 ≤ n < 2 ^ 31 - 1 →
  ∃ m', pushcli s = Done ((), set_mach m' s) ∧
        mach_at i (n + 1) false (if n =? 0 then b else e) m'.
Proof.
  intros Hm Hr. eexists. split; [apply pushcli_ok, Hm|]. by apply push_at.
Qed.

Lemma popcli_at i n e s :
  mach_at i (n + 1) false e (kmach s) → 0 ≤ n < 2 ^ 31 - 1 →
  ∃ m', popcli s = Done ((), set_mach m' s) ∧ mach_at i n ((n =? 0) && e) e m'.
Proof.
  intros Hm Hr. eexists. split; [|by apply pop_at].
  destruct Hm as (Hi & Hn & Hb & He). apply popcli_ok; [done..|lia].
Qed.

(** [holding] balances its [pushcli]: it disturbs nothing but the saved flag
    of an outermost nesting. *)
Lemma holding_at i n b e l s :
  mach_at i n b e (kmach s) → 0 ≤ n < 2 ^ 31 - 1 → (0 < n → b = false) →
  ∃ m', holding l s =
          Done (locked (klocks s l) && bool_decide (lk_cpu (klocks s l) = Some i),
                set_mach m' s) ∧
        mach_at i n b (if n =? 0 then b else e) m'.
Proof.
  intros Hm Hr Hb.
  destruct (pushcli_at i n b e s Hm) as (m1 & Hpush & Hm1); [lia|].
  destruct (popcli_at i n (if n =? 0 then b else e) (set_mach m1 s))
    as (m2 & Hpop & Hm2); [done|lia|].
  exists m2. split.
  - unfold holding. rewrite (bind_done _ _ _ _ _ Hpush). unfold gets.
    rewrite run_bind. rewrite (bind_done _ _ _ i (set_mach m1 s)).
    + rewrite (bind_done _ _ _ _ _ Hpop). done.
    + destruct Hm1 as (Hi & _ & Hf & _). by apply mycpu_ok.
  - replace b with ((n =? 0) && (if n =? 0 then b else e)) at 1; [done|].
    destruct (Z.eqb_spec n 0); [done|]. symmetry. apply Hb. lia.
Qed.

(** [acquire] of a free lock: one [pushcli] more, the lock held by us. *)
Lemma acquire_at i n b e l s :
  mach_at i n b e (kmach s) → cli_ok n b → klocks s l = lock_free →
  ∃ m', acquire l s = Done ((), Kst m' (<[l := lock_held i]> (klocks s)) (kcore s)) ∧
        mach_at i (n + 1) false (if n =? 0 then b else e) m'.
Proof.
  intros Hm [Hr Hb] Hfree.
  destruct (pushcli_at i n b e s Hm) as (m1 & Hpush & Hm1); [lia|].
  destruct (holding_at i (n + 1) false _ l (set_mach m1 s) Hm1)
    as (m2 & Hhold & Hm2); [lia|done|].
  rewrite (proj2 (Z.eqb_neq (n + 1) 0)) in Hm2 by lia.
  exists m2. split; [|done].
  unfold acquire. rewrite (bind_done _ _ _ _ _ Hpush).
  rewrite (bind_done _ _ _ _ _ Hhold). cbn [set_mach klocks].
  rewrite Hfree. cbn. unfold gets. rewrite run_bind. cbn. rewrite Hfree. cbn.
  rewrite (bind_done _ _ _ i (set_mach m2 s)); [done|].
  destruct Hm2 as (Hi & _ & Hf & _). by apply mycpu_ok.
Qed.

(** [acquire] of a lock this processor already holds stops the machine. *)
Lemma acquire_held i n b e l s :
  mach_at i n b e (kmach s) → cli_ok n b → klocks s l = lock_held i →
  acquire l s = Panicked "acquire".
Proof.
  intros Hm [Hr Hb] Hheld.
  destruct (pushcli_at i n b e s Hm) as (m1 & Hpush & Hm1); [lia|].
  destruct (holding_at i (n + 1) false _ l (set_mach m1 s) Hm1)
    as (m2 & Hhold & Hm2); [lia|done|].
  unfold acquire. rewrite (bind_done _ _ _ _ _ Hpush).
  rewrite (bind_done _ _ _ _ _ Hhold). cbn [set_mach klocks].
  rewrite Hheld. cbn. by rewrite bool_decide_eq_true_2.
Qed.

(** [release] of a lock this processor holds undoes [acquire]. *)
Lemma release_at i n e l s :
  mach_at i (n + 1) false e (kmach s) → 0 ≤ n < 2 ^ 31 - 3 →
  klocks s l = lock_held i →
  ∃ m', release l s = Done ((), Kst m' (<[l := lock_free]> (klocks s)) (kcore s)) ∧
        mach_at i n ((n =? 0) && e) e m'.
Proof.
  intros Hm Hr Hheld.
  destruct (holding_at i (n + 1) false e l s Hm) as (m1 & Hhold & Hm1);
    [lia|done|].
  rewrite (proj2 (Z.eqb_neq (n + 1) 0)) in Hm1 by lia.
  destruct (popcli_at i n e (set_lock l lock_free (set_mach m1 s)) Hm1)
    as (m2 & Hpop & Hm2); [lia|].
  exists m2. split; [|done].
  unfold release. rewrite (bind_done _ _ _ _ _ Hhold).
  rewrite Hheld. cbn [locked lk_cpu lock_held].
  rewrite bool_decide_eq_true_2 by done. cbn [andb negb].
  unfold modS. rewrite run_bind. exact Hpop.
Qed.

(** [release] of a lock this processor does not hold stops the machine. *)
Lemma release_not_held i n b e l s :
  mach_at i n b e (kmach s) → cli_ok n b → klocks s l = lock_free →
  release l s = Panicked "release".
Proof.
  intros Hm Hok Hfree.
  destruct (holding_at i n b e l s Hm) as (m1 & Hhold & _);
    [unfold cli_ok in Hok; lia | apply Hok |].
  unfold release. by rewrite (bind_done _ _ _ _ _ Hhold), Hfree.
Qed.

(** [n] nested calls. *)
Fixpoint times (k : nat) (m : M (kst L C) ()) : M (kst L C) () :=
  match k with O => mret () | S k => _ ← m; times k m end.

Lemma pushes_at k i n b e s :
  mach_at i n b e (kmach s) → 0 ≤ n → n + Z.of_nat k < 2 ^ 31 - 1 →
  (0 < n → b = false) →
  ∃ m', times k pushcli s = Done ((), set_mach m' s) ∧
        mach_at i (n + Z.of_nat k) (bool_decide (k = O) && b)
          (if bool_decide (k = O) then e else if n =? 0 then b else e) m'.
Proof.
  revert n b e s. induction k as [|k IH]; intros n b e s Hm Hn Hr Hb.
  { exists (kmach s). cbn. rewrite Z.add_0_r. split; [by destruct s|done]. }
  destruct (pushcli_at i n b e s Hm) as (m1 & Hpush & Hm1); [lia|].
  destruct (IH (n + 1) false _ (set_mach m1 s) Hm1) as (m2 & Hrest & Hm2); [lia..|done|].
  exists m2. split.
  - cbn [times]. by rewrite (bind_done _ _ _ _ _ Hpush).
  - rewrite (proj2 (Z.eqb_neq (n + 1) 0)) in Hm2 by lia.
    rewrite andb_false_r in Hm2. cbn.
    replace (n + Z.of_nat (S k)) with (n + 1 + Z.of_nat k) by lia.
    by destruct (bool_decide (k = O)).
Qed.

Lemma pops_at k i n e s :
  mach_at i (n + Z.of_nat (S k)) false e (kmach s) → 0 ≤ n →
  n + Z.of_nat (S k) < 2 ^ 31 - 1 →
  ∃ m', times (S k) popcli s = Done ((), set_mach m' s) ∧
        mach_at i n ((n =? 0) && e) e m'.
Proof.
  revert n s. induction k as [|k IH]; intros n s Hm Hn Hr.
  - destruct (popcli_at i n e s) as (m1 & Hpop & Hm1); [done|lia|].
    exists m1. split; [|done]. cbn [times]. by rewrite (bind_done _ _ _ _ _ Hpop).
  - destruct (popcli_at i (n + Z.of_nat (S k)) e s) as (m1 & Hpop & Hm1);
      [by replace (n + Z.of_nat (S k) + 1) with (n + Z.of_nat (S (S k))) by lia|lia|].
    rewrite (proj2 (Z.eqb_neq _ 0)) in Hm1 by lia.
    destruct (IH n (set_mach m1 s)) as (m2 & Hrest & Hm2); [done|lia..|].
    exists m2. split; [|done].
    cbn [times] in Hrest |- *. by rewrite (bind_done _ _ _ _ _ Hpop).
Qed.

(** [pushcli] and [popcli] are matched: [k] of the one undo [k] of the
    other, nesting depth and interrupt flag included, and if interrupts were
    off they stay off. *)
Theorem pushcli_popcli_matched k i n b e s :
  mach_at i n b e (kmach s) → 0 ≤ n → n + Z.of_nat (S k) < 2 ^ 31 - 1 →
  (0 < n → b = false) →
  ∃ s1 s2 e', times (S k) pushcli s = Done ((), s1) ∧ flags_if (kmach s1) = false ∧
    times (S k) popcli s1 = Done ((), s2) ∧ mach_at i n b e' (kmach s2) ∧
    klocks s2 = klocks s ∧ kcore s2 = kcore s.
Proof.
  intros Hm Hn Hr Hb.
  destruct (pushes_at (S k) i n b e s Hm Hn Hr Hb) as (m1 & Hpush & Hm1).
  cbn [bool_decide decide_rel andb] in Hm1.
  destruct (pops_at k i n (if n =? 0 then b else e) (set_mach m1 s) Hm1 Hn Hr)
    as (m2 & Hpop & Hm2).
  exists (set_mach m1 s), (set_mach m2 s), (if n =? 0 then b else e).
  split; [done|]. split; [apply Hm1|]. split; [done|]. split; [|done].
  cbn [set_mach kmach].
  replace b with ((n =? 0) && (if n =? 0 then b else e)) at 1; [done|].
  destruct (Z.eqb_spec n 0); [done|]. symmetry. apply Hb. lia.
Qed.
End locks.

Lemma pushcli_popcli_matched_witness :
  ∃ s1 s2 : kst nat (), times 3 pushcli (Kst (Mach (λ _, Cpu 0 0 false) 1 0 true) (λ _, lock_free) ())
      = Done ((), s1) ∧ times 3 popcli s1 = Done ((), s2).
Proof.
  destruct (pushcli_popcli_matched 2 0 0 true false
    (Kst (Mach (λ _, Cpu 0 0 false) 1 0 true) (λ _ : nat, lock_free) ()))
    as (s1 & s2 & e' & H1 & _ & H2 & _); [by split|lia|lia|lia|].
  exists s1, s2. split; [exact H1|exact H2].
Defined.

(** ** Interleaved processors

    One lock word shared by all processors.  Each rule is one shared-memory
    access of [acquire] or [release]: the two reads of [holding], the [xchg],
    the store of [lk->cpu], the store that clears it, and the [movl $0]. *)
Module Mutex.

Inductive pc :=
| Idle        (* outside acquire/release *)
| AcqRead1    (* acquire: holding reads lock->locked *)
| AcqRead2    (* acquire: holding reads lock->cpu *)
| Spin        (* while (xchg(&lk->locked, 1) != 0) *)
| SetCpu      (* lk->cpu = mycpu() *)
| Crit        (* acquire has returned *)
| RelRead1    (* release: holding reads lock->locked *)
| RelRead2    (* release: holding reads lock->cpu *)
| RelClear    (* lk->cpu = 0 *)
| RelUnlock   (* movl $0, lk->locked *)
| Dead (msg : string).

Record st := St { word : spinlock; pcs : nat → pc }.

Definition init : st := St lock_free (λ _, Idle).

Inductive step : st → st → Prop :=
| step_acquire w p i : p i = Idle → step (St w p) (St w (<[i := AcqRead1]> p))
| step_acq1_free w p i : p i = AcqRead1 → locked w = false →
    step (St w p) (St w (<[i := Spin]> p))
| step_acq1_held w p i : p i = AcqRead1 → locked w = true →
    step (St w p) (St w (<[i := AcqRead2]> p))
| step_acq2_panic w p i : p i = AcqRead2 → lk_cpu w = Some i →
    step (St w p) (St w (<[i := Dead "acquire"]> p))
| step_acq2_other w p i : p i = AcqRead2 → lk_cpu w ≠ Some i →
    step (St w p) (St w (<[i := Spin]> p))
| step_xchg_fail w p i : p i = Spin → locked w = true → step (St w p) (St w p)
| step_xchg_ok w p i : p i = Spin → locked w = false →
    step (St w p) (St (SpinLock true (lk_cpu w)) (<[i := SetCpu]> p))
| step_setcpu w p i : p i = SetCpu →
    step (St w p) (St (SpinLock (locked w) (Some i)) (<[i := Crit]> p))
| step_release w p i : p i = Crit → step (St w p) (St w (<[i := RelRead1]> p))
| step_rel1_panic w p i : p i = RelRead1 → locked w = false →
    step (St w p) (St w (<[i := Dead "release"]> p))
| step_rel1_ok w p i : p i = RelRead1 → locked w = true →
    step (St w p) (St w (<[i := RelRead2]> p))
| step_rel2_panic w p i : p i = RelRead2 → lk_cpu w ≠ Some i →
    step (St w p) (St w (<[i := Dead "release"]> p))
| step_rel2_ok w p i : p i = RelRead2 → lk_cpu w = Some i →
    step (St w p) (St w (<[i := RelClear]> p))
| step_clear w p i : p i = RelClear →
    step (St w p) (St (SpinLock (locked w) None) (<[i := RelUnlock]> p))
| step_unlock w p i : p i = RelUnlock →
    step (St w p) (St (SpinLock false (lk_cpu w)) (<[i := Idle]> p)).

Inductive reachable : st → Prop :=
| reach_init : reachable init
| reach_step s s' : reachable s → step s s' → reachable s'.

(** Owns the lock word. *)
Definition owns (c : pc) : bool :=
  match c with
  | SetCpu | Crit | RelRead1 | RelRead2 | RelClear | RelUnlock => true
  | _ => false
  end.

(** Owns it and has its name in [lk->cpu]. *)
Definition named (c : pc) : bool :=
  match c with Crit | RelRead1 | RelRead2 | RelClear => true | _ => false end.

Definition dead (c : pc) : bool := match c with Dead _ => true | _ => false end.

Record inv (s : st) : Prop := Inv {
  inv_excl : ∀ i j, owns (pcs s i) = true → owns (pcs s j) = true → i = j;
  inv_word : ∀ i, owns (pcs s i) = true → locked (word s) = true;
  inv_owner : locked (word s) = true → ∃ i, owns (pcs s i) = true;
  inv_cpu : ∀ i, named (pcs s i) = true ↔ lk_cpu (word s) = Some i;
  inv_dead : ∀ i, dead (pcs s i) = false
}.

Lemma pcs_upd (p : nat → pc) i c j :
  (<[i := c]> p) j = if decide (i = j) then c else p j.
Proof.
  case_decide as Hx; [subst; apply fn_lookup_insert | by apply fn_lookup_insert_ne].
Qed.

(** A step that only moves [i]'s program counter, keeping what it owns. *)
Lemma inv_move w p i c :
  inv (St w p) → owns c = owns (p i) → named c = named (p i) → dead c = false →
  inv (St w (<[i := c]> p)).
Proof.
  intros [He Hw Ho Hc Hd] Hown Hnam Hdead; split; cbn in *.
  - intros a b. rewrite !pcs_upd. repeat case_decide; subst; rewrite ?Hown; eauto.
  - intros a. rewrite pcs_upd. case_decide; subst; rewrite ?Hown; eauto.
  - intros Hl. destruct (Ho Hl) as [a Ha]. exists a. rewrite pcs_upd.
    case_decide; subst; by rewrite ?Hown.
  - intros a. rewrite pcs_upd, <- Hc. case_decide; subst; by rewrite ?Hnam.
  - intros a. rewrite pcs_upd. by case_decide.
Qed.

Lemma named_owns c : named c = true → owns c = true.
Proof. by destruct c. Qed.

(** A step of the owner that writes [lk->cpu]. *)
Lemma inv_recpu w p i c :
  inv (St w p) → owns (p i) = true → owns c = true → dead c = false →
  inv (St (SpinLock (locked w) (if named c then Some i else None)) (<[i := c]> p)).
Proof.
  intros [He Hw Ho Hc Hd] Hi Hown Hdead; split; cbn in *.
  - intros a b. rewrite !pcs_upd. repeat case_decide; subst; eauto.
  - intros a _. by apply (Hw i).
  - intros _. exists i. by rewrite pcs_upd, decide_True.
  - intros a. rewrite pcs_upd. case_decide as Hia; subst; [by destruct (named c)|].
    split.
    + intros Ha%named_owns. exfalso. by apply Hia, He.
    + by destruct (named c); [intros [=] | ].
  - intros a. rewrite pcs_upd. by case_decide.
Qed.

Lemma inv_step s s' : inv s → step s s' → inv s'.
Proof.
  intros HI Hst. destruct Hst as
    [w p i Hp|w p i Hp Hl|w p i Hp Hl|w p i Hp Hl|w p i Hp Hl|w p i Hp Hl|w p i Hp Hl
    |w p i Hp|w p i Hp|w p i Hp Hl|w p i Hp Hl|w p i Hp Hl|w p i Hp Hl|w p i Hp|w p i Hp].
  all: try (apply inv_move; rewrite ?Hp; done).
  - exfalso. pose proof (proj2 (inv_cpu _ HI i) Hl) as Hn. cbn in Hn. by rewrite Hp in Hn.
  - done.
  - assert (Hno : ∀ j, owns (p j) = false).
    { intros j. destruct (owns (p j)) eqn:Hj; [|done].
      apply (inv_word _ HI) in Hj. cbn in Hj. congruence. }
    assert (Hnn : ∀ j, named (p j) = false).
    { intros j. destruct (named (p j)) eqn:Hj; [|done].
      apply named_owns in Hj. by rewrite Hno in Hj. }
    destruct HI as [He Hw Ho Hc Hd]; split; cbn in *; try done.
    + intros a b. rewrite !pcs_upd. repeat case_decide; subst; rewrite ?Hno; done.
    + exists i. by rewrite pcs_upd, decide_True.
    + intros a. rewrite pcs_upd, <- Hc. case_decide; subst; [by rewrite Hnn|done].
    + intros a. rewrite pcs_upd. by case_decide.
  - by apply (inv_recpu w p i Crit); rewrite ?Hp.
  - exfalso. pose proof (inv_word _ HI i) as Hn. cbn in Hn. rewrite Hp in Hn.
    rewrite Hn in Hl; done.
  - exfalso. apply Hl. apply (inv_cpu _ HI i). cbn. by rewrite Hp.
  - by apply (inv_recpu w p i RelUnlock); rewrite ?Hp.
  - pose proof (inv_excl _ HI) as He. destruct HI as [_ Hw Ho Hc Hd].
    cbn in *.
    assert (Hno : ∀ j, j ≠ i → owns (p j) = false).
    { intros j Hj. destruct (owns (p j)) eqn:Hoj; [|done].
      exfalso. apply Hj. apply He; [done|by rewrite Hp]. }
    split; cbn in *; try done.
    + intros a b. rewrite !pcs_upd. repeat case_decide; subst; try done.
      intros Ha. by rewrite Hno in Ha.
    + intros a. rewrite pcs_upd. case_decide; [done|]. by rewrite Hno.
    + intros a. rewrite pcs_upd. case_decide; subst; [|apply Hc].
      rewrite <- Hc. by rewrite Hp.
    + intros a. rewrite pcs_upd. by case_decide.
Qed.

Lemma inv_reachable s : reachable s → inv s.
Proof.
  induction 1 as [|s s' _ IH Hst]; [|by eapply inv_step].
  by split.
Qed.

(** C39: whatever the interleaving, two processors are never both between the
    winning [xchg] and the unlocking store, no [acquire] or [release] ever
    panics, and a free lock word always lets a spinning processor in. *)
Theorem mutual_exclusion s :
  reachable s →
  (∀ i j, owns (pcs s i) = true → owns (pcs s j) = true → i = j) ∧
  (∀ i, dead (pcs s i) = false) ∧
  (∀ i, pcs s i = Spin → (∀ j, owns (pcs s j) = false) →
     ∃ s', step s s' ∧ pcs s' i = SetCpu).
Proof.
  intros Hr. pose proof (inv_reachable s Hr) as HI. split; [apply HI|].
  split; [apply HI|]. intros i Hi Hno. destruct s as [w p]; cbn in *.
  destruct (locked w) eqn:Hl.
  - destruct (inv_owner _ HI Hl) as [j Hj]. cbn in Hj. by rewrite Hno in Hj.
  - eexists. split; [by apply (step_xchg_ok w p i)|]. cbn. by rewrite pcs_upd, decide_True.
Qed.


(** Processor 0 is in its critical section, processor 1 spins. *)
Definition contended : st :=
  St (lock_held 0) (<[1%nat := Spin]> (<[1%nat := AcqRead2]> (<[1%nat := AcqRead1]>
    (<[0%nat := Crit]> (<[0%nat := SetCpu]> (<[0%nat := Spin]> (<[0%nat := AcqRead1]>
    (λ _, Idle)))))))).

Lemma contended_reachable : reachable contended.
Proof.
  unfold contended.
  eapply reach_step; [|by apply step_acq2_other].
  eapply reach_step; [|by apply step_acq1_held].
  eapply reach_step; [|by apply step_acquire].
  eapply reach_step; [|by apply (step_setcpu (SpinLock true None) _ 0)].
  eapply reach_step; [|by apply (step_xchg_ok lock_free _ 0)].
  eapply reach_step; [|by apply (step_acq1_free lock_free _ 0)].
  eapply reach_step; [|by apply (step_acquire lock_free _ 0)].
  apply reach_init.
Qed.

Lemma mutual_exclusion_witness : dead (pcs contended 1) = false.
Proof. apply (mutual_exclusion contended). apply contended_reachable. Defined.
End Mutex.
