(* ===== verification/ProcDefs.v ===== *)
(** * Processes and process queues: the data

    [struct proc], [struct pqueue] and the constants of
    [kernel/sched/proc.h], [kernel/sched/signals.h], [kernel/data/queue.h] and
    [kernel/defs/param.h].  A [struct proc *] is the index of the process in
    [ptable.proc], a [struct pqueue *] names one of the queues declared in
    [kernel/sched/sched.c]; null is [None].  The spinlock embedded in a queue
    and the lock of the process table are entries of the lock table
    ([lockid]). *)
From stdpp Require Import base decidable option list functions numbers strings.
From Stdlib Require Import ZArith Lia.
From S2P Require Import Prelude Locks.

Local Open Scope Z_scope.

Definition NPROC : nat := 64.
Definition NCPU : nat := 8.
Definition NOFILE : nat := 16.
Definition NOCPU : Z := 777.
Definition KSTACKSIZE : Z := 4096.
Definition PGSIZE : Z := 4096.
Definition KERNBASE : Z := 2147483648.

Inductive procstate :=
  UNUSED | EMBRYO | SLEEPING | RUNNABLE | RUNNING | ZOMBIE | WAIT | PREEMPTED.

#[export] Instance procstate_eq_dec : EqDecision procstate.
Proof. solve_decision. Defined.

Definition TOP_PRIORITY : Z := 10.
Definition MED_USER_PRIORITY : Z := 3.
Definition LOW_USER_PRIORITY : Z := 1.
Definition DEFAULT_USER_TIME_QUANTUM : Z := 45.
Definition URGENT : Z := 1.
Definition KERNEL_PROC : Z := 1.
Definition USER_PROC : Z := 2.
Definition CHILD_SAME_PRI : Z := 0.
Definition ESIG : Z := 1000000000.
Definition ENOPROC : Z := 1000000001.
Definition IN_QUEUE : Z := 1.

Definition SIGHUP : Z := 1.
Definition SIGINT : Z := 2.
Definition SIGSEG : Z := 4.
Definition SIGKILL : Z := 8.
Definition SIGPIPE : Z := 16.
Definition SIGSYS : Z := 32.
Definition SIGCPU : Z := 64.

(** The queues of [sched.c]. *)
Inductive qid := RunQ (cpu : nat) | SleepQ | ReadyQ.

#[export] Instance qid_eq_dec : EqDecision qid.
Proof. solve_decision. Defined.

(** The locks the process code takes. *)
Inductive lockid := PtableLock | CheckLock | QLock (q : qid) | OtherLock (a : Z).

#[export] Instance lockid_eq_dec : EqDecision lockid.
Proof. solve_decision. Defined.

(** What a process sleeps on: nothing, a process, or another kernel object. *)
Inductive wchan := NoChan | ProcChan (i : nat) | AddrChan (a : Z).

#[export] Instance wchan_eq_dec : EqDecision wchan.
Proof. solve_decision. Defined.

(** The registers of the trap frame that kernel code reads or writes. *)
Record trapframe := Tf {
  tf_eax : Z; tf_trapno : Z; tf_eip : Z; tf_cs : Z; tf_ds : Z; tf_es : Z;
  tf_eflags : Z; tf_esp : Z; tf_ss : Z
}.

Definition set_eax (v : Z) (t : trapframe) : trapframe :=
  Tf v (tf_trapno t) (tf_eip t) (tf_cs t) (tf_ds t) (tf_es t) (tf_eflags t)
    (tf_esp t) (tf_ss t).

Record proc := Proc {
  sz : Z; (* size of process memory (bytes) *)
  stack_base : Z; (* stack base *)
  p_sig : Z; (* pending signals *)
  signal_handler : Z; (* handler address, 0 for none *)
  p_ign : Z; (* ignored signals *)
  p_pri : Z; (* priority, a char *)
  p_time_quantum : Z; (* ticks allowed *)
  p_cpu_usage : Z; (* ticks used *)
  p_flag : Z; (* URGENT or LOW for this round, a char *)
  queue_mask : Z; (* IN_QUEUE when claimed *)
  space_flag : Z; (* KERNEL_PROC or USER_PROC *)
  child_pri : Z; (* CHILD_SAME_PRI or CHILD_DIFF_PRI *)
  pgdir : Z; (* page directory, 0 for none *)
  kstack : Z; (* kernel stack, 0 for none *)
  state : procstate;
  pid : Z;
  parent : option nat;
  tf : trapframe;
  chan : wchan;
  killed : Z;
  ofile : list (option nat); (* NOFILE file-table slots *)
  cwd : option nat; (* inode of the current directory *)
  pname : list Z;
  next : option nat;
  prev : option nat;
  curr_cpu : Z; (* NOCPU or a processor *)
  curr : option qid (* queue it is linked in *)
}.

(** Assignments to one field. *)
Definition set_sz (v : Z) (p : proc) : proc :=
  Proc v (stack_base p) (p_sig p) (signal_handler p) (p_ign p) (p_pri p)
    (p_time_quantum p) (p_cpu_usage p) (p_flag p) (queue_mask p) (space_flag p)
    (child_pri p) (pgdir p) (kstack p) (state p) (pid p) (parent p) (tf p) (chan p)
    (killed p) (ofile p) (cwd p) (pname p) (next p) (prev p) (curr_cpu p) (curr p).
Definition set_stack_base (v : Z) (p : proc) : proc :=
  Proc (sz p) v (p_sig p) (signal_handler p) (p_ign p) (p_pri p) (p_time_quantum p)
    (p_cpu_usage p) (p_flag p) (queue_mask p) (space_flag p) (child_pri p) (pgdir p)
    (kstack p) (state p) (pid p) (parent p) (tf p) (chan p) (killed p) (ofile p)
    (cwd p) (pname p) (next p) (prev p) (curr_cpu p) (curr p).
Definition set_p_sig (v : Z) (p : proc) : proc :=
  Proc (sz p) (stack_base p) v (signal_handler p) (p_ign p) (p_pri p)
    (p_time_quantum p) (p_cpu_usage p) (p_flag p) (queue_mask p) (space_flag p)
    (child_pri p) (pgdir p) (kstack p) (state p) (pid p) (parent p) (tf p) (chan p)
    (killed p) (ofile p) (cwd p) (pname p) (next p) (prev p) (curr_cpu p) (curr p).
Definition set_signal_handler (v : Z) (p : proc) : proc :=
  Proc (sz p) (stack_base p) (p_sig p) v (p_ign p) (p_pri p) (p_time_quantum p)
    (p_cpu_usage p) (p_flag p) (queue_mask p) (space_flag p) (child_pri p) (pgdir p)
    (kstack p) (state p) (pid p) (parent p) (tf p) (chan p) (killed p) (ofile p)
    (cwd p) (pname p) (next p) (prev p) (curr_cpu p) (curr p).
Definition set_p_ign (v : Z) (p : proc) : proc :=
  Proc (sz p) (stack_base p) (p_sig p) (signal_handler p) v (p_pri p)
    (p_time_quantum p) (p_cpu_usage p) (p_flag p) (queue_mask p) (space_flag p)
    (child_pri p) (pgdir p) (kstack p) (state p) (pid p) (parent p) (tf p) (chan p)
    (killed p) (ofile p) (cwd p) (pname p) (next p) (prev p) (curr_cpu p) (curr p).
Definition set_p_pri (v : Z) (p : proc) : proc :=
  Proc (sz p) (stack_base p) (p_sig p) (signal_handler p) (p_ign p) v
    (p_time_quantum p) (p_cpu_usage p) (p_flag p) (queue_mask p) (space_flag p)
    (child_pri p) (pgdir p) (kstack p) (state p) (pid p) (parent p) (tf p) (chan p)
    (killed p) (ofile p) (cwd p) (pname p) (next p) (prev p) (curr_cpu p) (curr p).
Definition set_p_time_quantum (v : Z) (p : proc) : proc :=
  Proc (sz p) (stack_base p) (p_sig p) (signal_handler p) (p_ign p) (p_pri p) v
    (p_cpu_usage p) (p_flag p) (queue_mask p) (space_flag p) (child_pri p) (pgdir p)
    (kstack p) (state p) (pid p) (parent p) (tf p) (chan p) (killed p) (ofile p)
    (cwd p) (pname p) (next p) (prev p) (curr_cpu p) (curr p).
Definition set_p_cpu_usage (v : Z) (p : proc) : proc :=
  Proc (sz p) (stack_base p) (p_sig p) (signal_handler p) (p_ign p) (p_pri p)
    (p_time_quantum p) v (p_flag p) (queue_mask p) (space_flag p) (child_pri p)
    (pgdir p) (kstack p) (state p) (pid p) (parent p) (tf p) (chan p) (killed p)
    (ofile p) (cwd p) (pname p) (next p) (prev p) (curr_cpu p) (curr p).
Definition set_p_flag (v : Z) (p : proc) : proc :=
  Proc (sz p) (stack_base p) (p_sig p) (signal_handler p) (p_ign p) (p_pri p)
    (p_time_quantum p) (p_cpu_usage p) v (queue_mask p) (space_flag p) (child_pri p)
    (pgdir p) (kstack p) (state p) (pid p) (parent p) (tf p) (chan p) (killed p)
    (ofile p) (cwd p) (pname p) (next p) (prev p) (curr_cpu p) (curr p).
Definition set_queue_mask (v : Z) (p : proc) : proc :=
  Proc (sz p) (stack_base p) (p_sig p) (signal_handler p) (p_ign p) (p_pri p)
    (p_time_quantum p) (p_cpu_usage p) (p_flag p) v (space_flag p) (child_pri p)
    (pgdir p) (kstack p) (state p) (pid p) (parent p) (tf p) (chan p) (killed p)
    (ofile p) (cwd p) (pname p) (next p) (prev p) (curr_cpu p) (curr p).
Definition set_space_flag (v : Z) (p : proc) : proc :=
  Proc (sz p) (stack_base p) (p_sig p) (signal_handler p) (p_ign p) (p_pri p)
    (p_time_quantum p) (p_cpu_usage p) (p_flag p) (queue_mask p) v (child_pri p)
    (pgdir p) (kstack p) (state p) (pid p) (parent p) (tf p) (chan p) (killed p)
    (ofile p) (cwd p) (pname p) (next p) (prev p) (curr_cpu p) (curr p).
Definition set_child_pri (v : Z) (p : proc) : proc :=
  Proc (sz p) (stack_base p) (p_sig p) (signal_handler p) (p_ign p) (p_pri p)
    (p_time_quantum p) (p_cpu_usage p) (p_flag p) (queue_mask p) (space_flag p) v
    (pgdir p) (kstack p) (state p) (pid p) (parent p) (tf p) (chan p) (killed p)
    (ofile p) (cwd p) (pname p) (next p) (prev p) (curr_cpu p) (curr p).
Definition set_pgdir (v : Z) (p : proc) : proc :=
  Proc (sz p) (stack_base p) (p_sig p) (signal_handler p) (p_ign p) (p_pri p)
    (p_time_quantum p) (p_cpu_usage p) (p_flag p) (queue_mask p) (space_flag p)
    (child_pri p) v (kstack p) (state p) (pid p) (parent p) (tf p) (chan p) (killed
    p) (ofile p) (cwd p) (pname p) (next p) (prev p) (curr_cpu p) (curr p).
Definition set_kstack (v : Z) (p : proc) : proc :=
  Proc (sz p) (stack_base p) (p_sig p) (signal_handler p) (p_ign p) (p_pri p)
    (p_time_quantum p) (p_cpu_usage p) (p_flag p) (queue_mask p) (space_flag p)
    (child_pri p) (pgdir p) v (state p) (pid p) (parent p) (tf p) (chan p) (killed
    p) (ofile p) (cwd p) (pname p) (next p) (prev p) (curr_cpu p) (curr p).
Definition set_state (v : procstate) (p : proc) : proc :=
  Proc (sz p) (stack_base p) (p_sig p) (signal_handler p) (p_ign p) (p_pri p)
    (p_time_quantum p) (p_cpu_usage p) (p_flag p) (queue_mask p) (space_flag p)
    (child_pri p) (pgdir p) (kstack p) v (pid p) (parent p) (tf p) (chan p) (killed
    p) (ofile p) (cwd p) (pname p) (next p) (prev p) (curr_cpu p) (curr p).
Definition set_pid (v : Z) (p : proc) : proc :=
  Proc (sz p) (stack_base p) (p_sig p) (signal_handler p) (p_ign p) (p_pri p)
    (p_time_quantum p) (p_cpu_usage p) (p_flag p) (queue_mask p) (space_flag p)
    (child_pri p) (pgdir p) (kstack p) (state p) v (parent p) (tf p) (chan p)
    (killed p) (ofile p) (cwd p) (pname p) (next p) (prev p) (curr_cpu p) (curr p).
Definition set_parent (v : option nat) (p : proc) : proc :=
  Proc (sz p) (stack_base p) (p_sig p) (signal_handler p) (p_ign p) (p_pri p)
    (p_time_quantum p) (p_cpu_usage p) (p_flag p) (queue_mask p) (space_flag p)
    (child_pri p) (pgdir p) (kstack p) (state p) (pid p) v (tf p) (chan p) (killed
    p) (ofile p) (cwd p) (pname p) (next p) (prev p) (curr_cpu p) (curr p).
Definition set_tf (v : trapframe) (p : proc) : proc :=
  Proc (sz p) (stack_base p) (p_sig p) (signal_handler p) (p_ign p) (p_pri p)
    (p_time_quantum p) (p_cpu_usage p) (p_flag p) (queue_mask p) (space_flag p)
    (child_pri p) (pgdir p) (kstack p) (state p) (pid p) (parent p) v (chan p)
    (killed p) (ofile p) (cwd p) (pname p) (next p) (prev p) (curr_cpu p) (curr p).
Definition set_chan (v : wchan) (p : proc) : proc :=
  Proc (sz p) (stack_base p) (p_sig p) (signal_handler p) (p_ign p) (p_pri p)
    (p_time_quantum p) (p_cpu_usage p) (p_flag p) (queue_mask p) (space_flag p)
    (child_pri p) (pgdir p) (kstack p) (state p) (pid p) (parent p) (tf p) v (killed
    p) (ofile p) (cwd p) (pname p) (next p) (prev p) (curr_cpu p) (curr p).
Definition set_killed (v : Z) (p : proc) : proc :=
  Proc (sz p) (stack_base p) (p_sig p) (signal_handler p) (p_ign p) (p_pri p)
    (p_time_quantum p) (p_cpu_usage p) (p_flag p) (queue_mask p) (space_flag p)
    (child_pri p) (pgdir p) (kstack p) (state p) (pid p) (parent p) (tf p) (chan p)
    v (ofile p) (cwd p) (pname p) (next p) (prev p) (curr_cpu p) (curr p).
Definition set_ofile (v : list (option nat)) (p : proc) : proc :=
  Proc (sz p) (stack_base p) (p_sig p) (signal_handler p) (p_ign p) (p_pri p)
    (p_time_quantum p) (p_cpu_usage p) (p_flag p) (queue_mask p) (space_flag p)
    (child_pri p) (pgdir p) (kstack p) (state p) (pid p) (parent p) (tf p) (chan p)
    (killed p) v (cwd p) (pname p) (next p) (prev p) (curr_cpu p) (curr p).
Definition set_cwd (v : option nat) (p : proc) : proc :=
  Proc (sz p) (stack_base p) (p_sig p) (signal_handler p) (p_ign p) (p_pri p)
    (p_time_quantum p) (p_cpu_usage p) (p_flag p) (queue_mask p) (space_flag p)
    (child_pri p) (pgdir p) (kstack p) (state p) (pid p) (parent p) (tf p) (chan p)
    (killed p) (ofile p) v (pname p) (next p) (prev p) (curr_cpu p) (curr p).
Definition set_pname (v : list Z) (p : proc) : proc :=
  Proc (sz p) (stack_base p) (p_sig p) (signal_handler p) (p_ign p) (p_pri p)
    (p_time_quantum p) (p_cpu_usage p) (p_flag p) (queue_mask p) (space_flag p)
    (child_pri p) (pgdir p) (kstack p) (state p) (pid p) (parent p) (tf p) (chan p)
    (killed p) (ofile p) (cwd p) v (next p) (prev p) (curr_cpu p) (curr p).
Definition set_next (v : option nat) (p : proc) : proc :=
  Proc (sz p) (stack_base p) (p_sig p) (signal_handler p) (p_ign p) (p_pri p)
    (p_time_quantum p) (p_cpu_usage p) (p_flag p) (queue_mask p) (space_flag p)
    (child_pri p) (pgdir p) (kstack p) (state p) (pid p) (parent p) (tf p) (chan p)
    (killed p) (ofile p) (cwd p) (pname p) v (prev p) (curr_cpu p) (curr p).
Definition set_prev (v : option nat) (p : proc) : proc :=
  Proc (sz p) (stack_base p) (p_sig p) (signal_handler p) (p_ign p) (p_pri p)
    (p_time_quantum p) (p_cpu_usage p) (p_flag p) (queue_mask p) (space_flag p)
    (child_pri p) (pgdir p) (kstack p) (state p) (pid p) (parent p) (tf p) (chan p)
    (killed p) (ofile p) (cwd p) (pname p) (next p) v (curr_cpu p) (curr p).
Definition set_curr_cpu (v : Z) (p : proc) : proc :=
  Proc (sz p) (stack_base p) (p_sig p) (signal_handler p) (p_ign p) (p_pri p)
    (p_time_quantum p) (p_cpu_usage p) (p_flag p) (queue_mask p) (space_flag p)
    (child_pri p) (pgdir p) (kstack p) (state p) (pid p) (parent p) (tf p) (chan p)
    (killed p) (ofile p) (cwd p) (pname p) (next p) (prev p) v (curr p).
Definition set_curr (v : option qid) (p : proc) : proc :=
  Proc (sz p) (stack_base p) (p_sig p) (signal_handler p) (p_ign p) (p_pri p)
    (p_time_quantum p) (p_cpu_usage p) (p_flag p) (queue_mask p) (space_flag p)
    (child_pri p) (pgdir p) (kstack p) (state p) (pid p) (parent p) (tf p) (chan p)
    (killed p) (ofile p) (cwd p) (pname p) (next p) (prev p) (curr_cpu p) v.

(** [struct pqueue], its lock kept in the lock table. *)
Record pqueue := PQ { head : option nat; tail : option nat; len : Z }.

Definition set_head (v : option nat) (q : pqueue) : pqueue := PQ v (tail q) (len q).
Definition set_tail (v : option nat) (q : pqueue) : pqueue := PQ (head q) v (len q).
Definition set_len (v : Z) (q : pqueue) : pqueue := PQ (head q) (tail q) v.

(** [struct cpu_avg]. *)
Record cpu_avg := CpuAvg { total_cpu_time : Z; n_procs : Z; avg : Z }.

(** The process table, the queues and the scheduler's globals. *)
Record sys := Sys {
  procs : nat → proc;           (* ptable.proc[NPROC] *)
  queues : qid → pqueue;        (* runqueue[], sleepqueue, readyqueue *)
  nextpid : Z;
  initproc : option nat;
  c_avg : cpu_avg;
  cpu_proc : nat → option nat;  (* cpus[i].proc *)
  ticks : Z                     (* trap.c *)
}.

Definition with_procs (f : nat → proc) (c : sys) : sys :=
  Sys f (queues c) (nextpid c) (initproc c) (c_avg c) (cpu_proc c) (ticks c).
Definition with_queues (f : qid → pqueue) (c : sys) : sys :=
  Sys (procs c) f (nextpid c) (initproc c) (c_avg c) (cpu_proc c) (ticks c).
Definition with_nextpid (v : Z) (c : sys) : sys :=
  Sys (procs c) (queues c) v (initproc c) (c_avg c) (cpu_proc c) (ticks c).
Definition with_initproc (v : option nat) (c : sys) : sys :=
  Sys (procs c) (queues c) (nextpid c) v (c_avg c) (cpu_proc c) (ticks c).
Definition with_avg (v : cpu_avg) (c : sys) : sys :=
  Sys (procs c) (queues c) (nextpid c) (initproc c) v (cpu_proc c) (ticks c).
Definition with_cpu_proc (i : nat) (v : option nat) (c : sys) : sys :=
  Sys (procs c) (queues c) (nextpid c) (initproc c) (c_avg c)
    (<[i := v]> (cpu_proc c)) (ticks c).
Definition with_ticks (v : Z) (c : sys) : sys :=
  Sys (procs c) (queues c) (nextpid c) (initproc c) (c_avg c) (cpu_proc c) v.

(** [p->f = v] and [q->f = v]. *)
Definition updp (i : nat) (f : proc → proc) (c : sys) : sys :=
  with_procs (<[i := f (procs c i)]> (procs c)) c.
Definition updq (q : qid) (f : pqueue → pqueue) (c : sys) : sys :=
  with_queues (<[q := f (queues c q)]> (queues c)) c.

(** The state of a kernel thread in the process code. *)
Abbreviation ks := (kst lockid sys).

Definition liftc {A} (m : M sys A) : M ks A := λ s,
  match m (kcore s) with
  | Done (a, c) => Done (a, set_core c s)
  | Panicked msg => Panicked msg
  | Faulted => Faulted
  | Hung => Hung
  | OutOfFuel => OutOfFuel
  end.

Lemma procs_updp i f c j :
  procs (updp i f c) j = if decide (i = j) then f (procs c i) else procs c j.
Proof.
  cbn. case_decide; [subst; apply fn_lookup_insert | by apply fn_lookup_insert_ne].
Qed.

Lemma queues_updq q f c q' :
  queues (updq q f c) q' = if decide (q = q') then f (queues c q) else queues c q'.
Proof.
  cbn. case_decide; [subst; apply fn_lookup_insert | by apply fn_lookup_insert_ne].
Qed.

Lemma queues_updp i f c : queues (updp i f c) = queues c.
Proof. done. Qed.

Lemma procs_updq q f c : procs (updq q f c) = procs c.
Proof. done. Qed.

#[export] Hint Rewrite procs_updp queues_updq queues_updp procs_updq : xv6.
#[global] Arguments updp : simpl never.
#[global] Arguments updq : simpl never.
