(* ===== verification/Queue.v ===== *)
(** * The process queues: kernel/data/queue.c

    The doubly linked lists that thread processes through [next]/[prev].
    Every function keeps the order of the source's stores and its lock calls.
    [_core] definitions are the bodies run between [acquire] and [release];
    a walk over a list takes fuel [NPROC + 1], which the theorems show to be
    enough for every well-formed queue. *)
From stdpp Require Import base decidable option list functions numbers strings sets.
From Stdlib Require Import ZArith Lia.
From S2P Require Import Prelude Locks ProcDefs.

Local Open Scope Z_scope.

Definition FUEL : nat := S NPROC.

(** ** Tests *)

Definition is_queue_empty (q : qid) (c : sys) : bool :=
  bool_decide (head (queues c q) = None).

(** [procqueue->head == p && procqueue->head->next == 0] *)
Definition is_proc_alone_in_queue (p : nat) (q : qid) (c : sys) : bool :=
  match head (queues c q) with
  | Some h => bool_decide (h = p) && bool_decide (next (procs c h) = None)
  | None => false
  end.

Definition is_proc_queued (p : nat) (q : qid) (c : sys) : bool :=
  bool_decide (curr (procs c p) = Some q).

(** ** initprocqueue

    [lock_init] is never set, so the claim lock is initialised every time. *)

Definition initprocqueue (q : qid) : M ks () :=
  _ ← initlock CheckLock;
  _ ← initlock (QLock q);
  liftc (modS (updq q (λ _, PQ None None 0))).

(** ** insert_proc_into_queue *)

Definition incr_len (q : pqueue) : pqueue := set_len (s32 (len q + 1)) q.
Definition decr_len (q : pqueue) : pqueue := set_len (s32 (len q - 1)) q.

(** The test of the insertion loop on the element [this]. *)
Definition goes_before (c : sys) (new this : nat) : bool :=
  bool_decide (state (procs c this) = RUNNABLE) &&
  ((p_pri (procs c this) <? p_pri (procs c new)) || (p_flag (procs c new) =? URGENT)).

(** The loop from [this] on, then the append at the tail. *)
Fixpoint insert_walk (fuel : nat) (new : nat) (q : qid) (this : option nat) : M sys () :=
  match fuel with
  | O => no_fuel
  | S fuel =>
      match this with
      | Some t =>
          c ← getS;
          if goes_before c new t then
            _ ← modS (updp new (set_prev (prev (procs c t))));
            _ ← modS (updp new (set_next (Some t)));
            tp ← gets (λ c, prev (procs c t));
            _ ← match tp with
                | Some pr => modS (updp pr (set_next (Some new)))
                | None => modS (updq q (set_head (Some new)))
                end;
            _ ← modS (updp t (set_prev (Some new)));
            _ ← modS (updq q incr_len);
            modS (updp new (set_curr (Some q)))
          else insert_walk fuel new q (next (procs c t))
      | None =>
          tl ← gets (λ c, tail (queues c q));
          tl ← deref tl;
          _ ← modS (updp tl (set_next (Some new)));
          _ ← modS (updp new (set_prev (Some tl)));
          _ ← modS (updp new (set_next None));
          _ ← modS (updq q (set_tail (Some new)));
          _ ← modS (updq q incr_len);
          modS (updp new (set_curr (Some q)))
      end
  end.

Definition insert_core (new : nat) (q : qid) : M sys () :=
  c ← getS;
  match head (queues c q) with
  | None =>
      _ ← modS (updq q (set_head (Some new)));
      _ ← modS (updp new (set_next None));
      _ ← modS (updp new (set_prev None));
      _ ← modS (updq q incr_len);
      modS (updp new (set_curr (Some q)))
  | Some h =>
      match next (procs c h) with
      | None =>
          _ ← modS (updq q (set_tail (Some new)));
          _ ← modS (updp new (set_next None));
          _ ← modS (updp new (set_prev (Some h)));
          _ ← modS (updp h (set_next (Some new)));
          _ ← modS (updq q incr_len);
          modS (updp new (set_curr (Some q)))
      | Some t => insert_walk FUEL new q (Some t)
      end
  end.

Definition insert_proc_into_queue (new : nat) (pq : option qid) : M ks () :=
  match pq with
  | None => mret ()
  | Some q =>
      c ← gets kcore;
      if bool_decide (state (procs c new) = RUNNING) then panic "Inserting running proc"
      else if is_proc_queued new q c then mret ()
      else
        _ ← acquire (QLock q);
        _ ← liftc (insert_core new q);
        release (QLock q)
  end.

(** ** claim_proc and unclaim_proc *)

Definition claim_proc (p : nat) (this_cpu : Z) : M ks Z :=
  _ ← acquire CheckLock;
  c ← gets kcore;
  r ← (if Z.land (queue_mask (procs c p)) IN_QUEUE =? 0 then
         _ ← liftc (modS (updp p (λ x, set_queue_mask (Z.lor (queue_mask x) IN_QUEUE) x)));
         _ ← liftc (modS (updp p (set_curr_cpu this_cpu)));
         mret 1
       else mret 0);
  _ ← release CheckLock;
  mret r.

Definition unclaim_proc (p : nat) : M ks Z :=
  _ ← acquire CheckLock;
  c ← gets kcore;
  r ← (if c_true (Z.land (queue_mask (procs c p)) IN_QUEUE) then
         _ ← liftc (modS (updp p (λ x, set_queue_mask (Z.land (queue_mask x) (Z.lnot IN_QUEUE)) x)));
         _ ← liftc (modS (updp p (set_curr_cpu NOCPU)));
         _ ← liftc (modS (updp p (set_curr None)));
         mret 1
       else mret 0);
  _ ← release CheckLock;
  mret r.

(** ** remove_proc_from_queue *)

Definition remove_head (old : nat) (q : qid) : M sys () :=
  nx ← gets (λ c, next (procs c old));
  _ ← modS (updq q (set_head nx));
  _ ← match nx with
      | Some h => modS (updp h (set_prev None))
      | None => modS (updq q (set_tail None))
      end;
  _ ← modS (updq q decr_len);
  _ ← modS (updp old (set_next None));
  modS (updp old (set_prev None)).

Definition unlink_this (this : nat) (q : qid) : M sys () :=
  c ← getS;
  _ ← match prev (procs c this) with
      | Some pr => modS (updp pr (set_next (next (procs c this))))
      | None => mret ()
      end;
  c ← getS;
  _ ← match next (procs c this) with
      | Some nx => modS (updp nx (set_prev (prev (procs c this))))
      | None => modS (updq q (set_tail (prev (procs c this))))
      end;
  _ ← modS (updq q decr_len);
  _ ← modS (updp this (set_next None));
  modS (updp this (set_prev None)).

(** The search loop; it says whether [old] was found and unlinked. *)
Fixpoint remove_walk (fuel : nat) (old : nat) (q : qid) (this : option nat) : M sys bool :=
  match fuel with
  | O => no_fuel
  | S fuel =>
      match this with
      | None => mret false
      | Some t =>
          if bool_decide (t = old) then
            _ ← unlink_this t q;
            mret true
          else
            nx ← gets (λ c, next (procs c t));
            remove_walk fuel old q nx
      end
  end.

(** When the loop ends without finding [old] the function returns with the
    queue's lock still held. *)
Definition remove_proc_from_queue (old : nat) (pq : option qid) : M ks () :=
  match pq with
  | None => mret ()
  | Some q =>
      c ← gets kcore;
      if bool_decide (head (queues c q) = None) then panic "proc not in queue"
      else if bool_decide (state (procs c old) = RUNNING) then panic "Removing running proc"
      else
        _ ← acquire (QLock q);
        if bool_decide (head (queues c q) = Some old) then
          _ ← liftc (remove_head old q);
          _ ← unclaim_proc old;
          release (QLock q)
        else
          found ← liftc (remove_walk FUEL old q (head (queues c q)));
          if (found : bool) then
            _ ← unclaim_proc old;
            release (QLock q)
          else mret ()
  end.

(** ** purge_queue *)

Fixpoint purge_walk (fuel : nat) (q : qid) (pointer : option nat) : M ks () :=
  match fuel with
  | O => no_fuel
  | S fuel =>
      match pointer with
      | None => release (QLock q)
      | Some p =>
          c ← gets kcore;
          _ ← (if bool_decide (state (procs c p) ≠ RUNNABLE) then
                 _ ← release (QLock q);
                 _ ← remove_proc_from_queue p (Some q);
                 acquire (QLock q)
               else mret ());
          nx ← gets (λ s, next (procs (kcore s) p));
          purge_walk fuel q nx
      end
  end.

Definition purge_queue (q : qid) : M ks () :=
  _ ← acquire (QLock q);
  pointer ← gets (λ s, head (queues (kcore s) q));
  purge_walk FUEL q pointer.

(** ** shift_queue *)

(** [procqueue->head && procqueue->head->state == RUNNING] *)
Definition head_running (q : qid) (c : sys) : bool :=
  match head (queues c q) with
  | Some h => bool_decide (state (procs c h) = RUNNING)
  | None => false
  end.

Definition shift_queue (q : qid) : M ks () :=
  c ← gets kcore;
  if head_running q c then panic "Removing running proc"
  else
    _ ← acquire (QLock q);
    match head (queues c q) with
    | None => release (QLock q)
    | Some old_head =>
        match next (procs c old_head) with
        | None =>
            _ ← unclaim_proc old_head;
            _ ← remove_proc_from_queue old_head (Some q);
            release (QLock q)
        | Some new_head =>
            _ ← (if bool_decide (state (procs c old_head) = RUNNABLE)
                 then insert_proc_into_queue old_head (Some ReadyQ) else mret ());
            _ ← liftc (modS (updp new_head (set_prev None)));
            _ ← liftc (modS (updq q (set_head (Some new_head))));
            _ ← liftc (modS (updp old_head (set_next None)));
            _ ← unclaim_proc old_head;
            _ ← release (QLock q);
            c ← gets kcore;
            _ ← (if bool_decide (state (procs c old_head) = RUNNABLE)
                 then insert_proc_into_queue old_head (Some ReadyQ) else mret ());
            c ← gets kcore;
            if negb (bool_decide (head (queues c q) = None)) &&
               bool_decide (head (queues c q) = tail (queues c q))
            then panic "head eq tail"
            else mret ()
        end
    end.

(** ** Load balancing *)

(** [runqueue[i].len] for each processor. *)
Definition rq_lens (n : nat) (c : sys) : list Z := map (λ i, len (queues c (RunQ i))) (seq 0 n).

(** The bit mask of run queues longer than 1.25 times the mean; the division
    by [num_cpus()] traps when there is no processor. *)
Definition queues_need_balance : M ks Z :=
  n ← gets (λ s, ncpu (kmach s));
  c ← gets kcore;
  if bool_decide (n = O) then fault
  else
    let ideal_queue_len := Z.quot (s32 (foldr Z.add 0 (rq_lens n c))) (Z.of_nat n) in
    let padded_ideal := Z.quot (s32 (ideal_queue_len * 125)) 100 in
    mret (foldl (λ mask i,
                   if padded_ideal <? len (queues c (RunQ i))
                   then u8 (Z.lor mask (1 ≪ Z.of_nat i)) else mask)
            0 (seq 0 n)).

Definition do_balance (rq_mask : Z) : M ks () :=
  n ← gets (λ s, ncpu (kmach s));
  mfor (seq 0 n) (λ i,
    if c_true (Z.land rq_mask (1 ≪ Z.of_nat i)) then
      c ← gets kcore;
      match tail (queues c (RunQ i)) with
      | Some p2migrate =>
          _ ← remove_proc_from_queue p2migrate (curr (procs c p2migrate));
          insert_proc_into_queue p2migrate (Some ReadyQ)
      | None => mret ()
      end
    else mret ()).

(** ** Representation of a queue by a list of processes *)

Definition hd_or (nx : option nat) (l : list nat) : option nat :=
  match l with [] => nx | y :: _ => Some y end.

Fixpoint last_or (pr : option nat) (l : list nat) : option nat :=
  match l with [] => pr | y :: l => last_or (Some y) l end.

(** [l] is doubly linked, entered from [pr] and left to [nx]. *)
Fixpoint dlseg (c : sys) (pr : option nat) (l : list nat) (nx : option nat) : Prop :=
  match l with
  | [] => True
  | x :: l => prev (procs c x) = pr ∧ next (procs c x) = hd_or nx l ∧ dlseg c (Some x) l nx
  end.

(** The tail pointer of a queue with one element may still be null. *)
Definition tail_ok (l : list nat) (t : option nat) : Prop :=
  match l with
  | [] => t = None
  | [x] => t = None ∨ t = Some x
  | _ => t = last_or None l
  end.

Record qrepr (c : sys) (q : qid) (l : list nat) : Prop := QRepr {
  qr_head : head (queues c q) = hd_or None l;
  qr_tail : tail_ok l (tail (queues c q));
  qr_len : len (queues c q) = Z.of_nat (length l);
  qr_nodup : NoDup l;
  qr_links : dlseg c None l None;
  qr_member : ∀ p, p ∈ l → (p < NPROC)%nat ∧ curr (procs c p) = Some q
}.

(** The abstract operations.  A new process overtakes a RUNNABLE one of lower
    priority, and any RUNNABLE one when it is URGENT. *)
Definition overtakes (c : sys) (new t : nat) : Prop :=
  state (procs c t) = RUNNABLE ∧
  (p_pri (procs c t) < p_pri (procs c new) ∨ p_flag (procs c new) = URGENT).

#[export] Instance overtakes_dec c new t : Decision (overtakes c new t).
Proof. unfold overtakes. apply _. Defined.

Fixpoint ins_before (c : sys) (new : nat) (l : list nat) : list nat :=
  match l with
  | [] => [new]
  | t :: l' => if decide (overtakes c new t) then new :: l else t :: ins_before c new l'
  end.

Definition spec_insert (c : sys) (new : nat) (l : list nat) : list nat :=
  match l with
  | h :: x :: l' => h :: ins_before c new (x :: l')
  | _ => l ++ [new]
  end.

Definition spec_remove (old : nat) (l : list nat) : list nat :=
  filter (λ x, x ≠ old) l.

(** Everything but the links of the processes. *)
Definition unlinked (p : proc) : proc := set_next None (set_prev None (set_curr None p)).

(** ** Lemmas on linked segments *)

Lemma last_or_app pr l1 l2 : last_or pr (l1 ++ l2) = last_or (last_or pr l1) l2.
Proof. revert pr. induction l1 as [|x l1 IH]; intros pr; cbn; auto. Qed.

Lemma hd_or_app nx l1 l2 : hd_or nx (l1 ++ l2) = hd_or (hd_or nx l2) l1.
Proof. by destruct l1. Qed.

Lemma dlseg_app c pr l1 l2 nx :
  dlseg c pr (l1 ++ l2) nx ↔
  dlseg c pr l1 (hd_or nx l2) ∧ dlseg c (last_or pr l1) l2 nx.
Proof.
  revert pr. induction l1 as [|x l1 IH]; intros pr; cbn; [tauto|].
  rewrite IH, hd_or_app. tauto.
Qed.

Lemma dlseg_ext c c' pr l nx :
  (∀ x, x ∈ l → next (procs c' x) = next (procs c x) ∧ prev (procs c' x) = prev (procs c x)) →
  dlseg c pr l nx → dlseg c' pr l nx.
Proof.
  revert pr. induction l as [|x l IH]; intros pr Hext; cbn; [done|].
  intros (Hp & Hn & Hl). destruct (Hext x) as [-> ->]; [by constructor|].
  split; [done|]. split; [done|]. apply IH; [|done].
  intros y Hy. apply Hext. by constructor.
Qed.

Lemma last_or_snoc l : l ≠ [] → ∃ l0 y, l = l0 ++ [y] ∧ last_or None l = Some y.
Proof.
  intros Hl. destruct (exists_last Hl) as (l0 & y & ->).
  exists l0, y. split; [done|]. by rewrite last_or_app.
Qed.

Lemma nodup_le_nproc l : NoDup l → (∀ p, p ∈ l → (p < NPROC)%nat) → (length l ≤ NPROC)%nat.
Proof.
  intros Hnd Hlt.
  assert (Hsub : l ⊆ seq 0 NPROC) by (intros p Hp%Hlt; apply elem_of_seq; lia).
  pose proof (NoDup_submseteq l (seq 0 NPROC) Hnd Hsub) as Hsm%submseteq_length.
  by rewrite length_seq in Hsm.
Qed.

(** Reading one field back out of updated states. *)
Ltac qsimp := repeat first
  [ rewrite procs_updp | rewrite queues_updq | rewrite queues_updp | rewrite procs_updq
  | rewrite decide_True by done | rewrite decide_False by done ];
  cbn [next prev curr set_next set_prev set_curr head tail len set_head set_tail set_len
       incr_len decr_len].

(** What an operation on queue [q] leaves alone: every process outside [l],
    every field but the links, every other queue and the globals. *)
Record qframe (c c' : sys) (q : qid) (l : list nat) : Prop := QFrame {
  fr_procs : ∀ p, p ∉ l → procs c' p = procs c p;
  fr_fields : ∀ p, unlinked (procs c' p) = unlinked (procs c p);
  fr_queues : ∀ q', q' ≠ q → queues c' q' = queues c q';
  fr_nextpid : nextpid c' = nextpid c;
  fr_initproc : initproc c' = initproc c;
  fr_avg : c_avg c' = c_avg c;
  fr_cpu : cpu_proc c' = cpu_proc c;
  fr_ticks : ticks c' = ticks c
}.

Lemma qrepr_frame c c' q l q' l' :
  qframe c c' q l → q' ≠ q → (∀ p, p ∈ l' → p ∉ l) → qrepr c q' l' → qrepr c' q' l'.
Proof.
  intros HF Hq Hdis [Hh Ht Hl Hnd Hd Hm].
  assert (Hp : ∀ p, p ∈ l' → procs c' p = procs c p) by (intros; apply HF; auto).
  split; rewrite ?(fr_queues _ _ _ _ HF _ Hq); try done.
  - apply (dlseg_ext c); [|done]. intros x Hx. by rewrite Hp.
  - intros p Hin. rewrite Hp by done. by apply Hm.
Qed.

Lemma len_incr c q (l : list nat) :
  len (queues c q) = Z.of_nat (length l) → (length l ≤ NPROC)%nat →
  s32 (len (queues c q) + 1) = Z.of_nat (S (length l)).
Proof. intros -> Hl. rewrite s32_small; [lia|]. unfold NPROC in Hl. lia. Qed.

Lemma unlinked_set_next v p : unlinked (set_next v p) = unlinked p.
Proof. done. Qed.
Lemma unlinked_set_prev v p : unlinked (set_prev v p) = unlinked p.
Proof. done. Qed.
Lemma unlinked_set_curr v p : unlinked (set_curr v p) = unlinked p.
Proof. done. Qed.

Lemma unlinked_updp i f c p :
  (∀ x, unlinked (f x) = unlinked x) →
  unlinked (procs (updp i f c) p) = unlinked (procs c p).
Proof. intros Hf. rewrite procs_updp. case_decide; subst; [apply Hf|done]. Qed.

Lemma procs_updp_ne i f c p : p ≠ i → procs (updp i f c) p = procs c p.
Proof. intros Hp. rewrite procs_updp, decide_False; congruence. Qed.

Lemma procs_updp_eq i f c : procs (updp i f c) i = f (procs c i).
Proof. by rewrite procs_updp, decide_True. Qed.

(** Prove a [qframe] between a state and explicit updates of it. *)
Ltac frame_tac :=
  split; [ let p := fresh "p" in let Hp := fresh "Hp" in
           intros p Hp;
           repeat first [rewrite not_elem_of_app in Hp | rewrite not_elem_of_cons in Hp];
           destruct_and?;
           repeat first [rewrite procs_updp_ne by congruence | rewrite procs_updq];
           reflexivity
         | intros ?;
           repeat first [ rewrite unlinked_updp by
                            (intros; first [apply unlinked_set_next | apply unlinked_set_prev
                                           | apply unlinked_set_curr])
                        | rewrite procs_updq ];
           reflexivity
         | intros ? ?;
           repeat first [ rewrite queues_updp
                        | rewrite queues_updq, decide_False by congruence ];
           reflexivity
         | reflexivity .. ].

(** Decide every remaining comparison of process indices. *)
Ltac qcrush :=
  qsimp; repeat (case_decide; subst; try congruence; try done); qsimp; try done.

Section insert.
Context (new : nat) (q : qid).

Lemma goes_before_overtakes c t : goes_before c new t = bool_decide (overtakes c new t).
Proof.
  unfold goes_before, overtakes. apply eq_true_iff_eq.
  rewrite andb_true_iff, orb_true_iff, !bool_decide_eq_true, Z.ltb_lt, Z.eqb_eq. done.
Qed.

Lemma ins_before_length c l : length (ins_before c new l) = S (length l).
Proof. induction l as [|t l IH]; cbn; [done|]. case_decide; cbn; lia. Qed.

Lemma ins_before_elem c l x : x ∈ ins_before c new l ↔ x = new ∨ x ∈ l.
Proof.
  induction l as [|t l IH]; cbn; [set_solver|].
  case_decide; [set_solver|]. rewrite !elem_of_cons, IH. tauto.
Qed.

Lemma ins_before_nodup c l : new ∉ l → NoDup l → NoDup (ins_before c new l).
Proof.
  induction l as [|t l IH]; intros Hn Hnd; cbn; [apply NoDup_singleton|].
  case_decide; [by constructor|].
  apply NoDup_cons in Hnd as [Ht Hnd]. constructor.
  - rewrite ins_before_elem. set_solver.
  - apply IH; set_solver.
Qed.

(** The append branch. *)
Lemma insert_append fuel c pre y :
  tail (queues c q) = Some y → new ∉ pre ++ [y] → NoDup (pre ++ [y]) →
  dlseg c None (pre ++ [y]) None →
  ∃ c', insert_walk (S fuel) new q None c = Done ((), c') ∧
    dlseg c' None (pre ++ [y; new]) None ∧ curr (procs c' new) = Some q ∧
    (∀ p, p ≠ new → curr (procs c' p) = curr (procs c p)) ∧
    queues c' q = incr_len (set_tail (Some new) (queues c q)) ∧
    qframe c c' q (new :: pre ++ [y]).
Proof.
  intros Htl Hnew Hnd Hd. eexists. split.
  { cbn [insert_walk]. unfold gets. rewrite run_bind. rewrite Htl. cbn. reflexivity. }
  assert (Hy : y ≠ new) by set_solver.
  assert (Hny : new ≠ y) by done.
  split; [|split; [by qsimp|split; [|split; [by qsimp|]]]].
  - rewrite dlseg_app in Hd |- *. destruct Hd as [Hd1 [Hp [Hn _]]]. split.
    + cbn [hd_or]. apply (dlseg_ext c); [|done]. intros x Hx.
      apply NoDup_app in Hnd as (_ & Hnd & _).
      assert (x ≠ y) by set_solver. assert (x ≠ new) by set_solver.
      qcrush.
    + cbn [dlseg hd_or last_or app]. qcrush.
  - intros p Hp. qcrush.
  - frame_tac.
Qed.

(** The branch that links [new] in front of [x]. *)
Lemma insert_here fuel c p0 pr x l :
  goes_before c new x = true → new ∉ p0 ++ pr :: x :: l → NoDup (p0 ++ pr :: x :: l) →
  dlseg c None (p0 ++ pr :: x :: l) None →
  ∃ c', insert_walk (S fuel) new q (Some x) c = Done ((), c') ∧
    dlseg c' None (p0 ++ pr :: new :: x :: l) None ∧ curr (procs c' new) = Some q ∧
    (∀ p, p ≠ new → curr (procs c' p) = curr (procs c p)) ∧
    queues c' q = incr_len (queues c q) ∧
    qframe c c' q (new :: p0 ++ pr :: x :: l).
Proof.
  intros Hgo Hnew Hnd Hd.
  rewrite dlseg_app in Hd. destruct Hd as (Hd0 & Hppr & Hnpr & Hpx & Hnx & Hdl).
  apply NoDup_app in Hnd as (Hnd0 & Hdis & Hnd).
  apply NoDup_cons in Hnd as [Hpr Hnd]. apply NoDup_cons in Hnd as [Hx Hnd].
  assert (Hne : new ≠ pr ∧ new ≠ x ∧ pr ≠ x ∧ new ∉ p0 ∧ new ∉ l ∧ pr ∉ l ∧ x ∉ l ∧
                pr ∉ p0 ∧ x ∉ p0) by set_solver.
  destruct Hne as (H1 & H2 & H3 & H4 & H5 & H6 & H7 & H8 & H9).
  eexists. split.
  { cbn [insert_walk]. unfold getS. rewrite run_bind, Hgo.
    unfold modS, gets. rewrite !run_bind.
    replace (prev (procs _ x)) with (Some pr) by (symmetry; qcrush).
    cbn. reflexivity. }
  split; [|split; [by qsimp|split; [|split; [by qsimp|]]]].
  - rewrite dlseg_app. split.
    + cbn [hd_or]. apply (dlseg_ext c); [|done]. intros y Hy.
      assert (y ≠ new ∧ y ≠ pr ∧ y ≠ x) as (? & ? & ?) by set_solver. qcrush.
    + cbn [dlseg hd_or]. split; [qcrush|]. split; [qcrush|].
      split; [qcrush|]. split; [qcrush|]. split; [qcrush|]. split; [qcrush|].
      apply (dlseg_ext c); [|done]. intros y Hy.
      assert (y ≠ new ∧ y ≠ pr ∧ y ≠ x) as (? & ? & ?) by set_solver. qcrush.
  - intros p Hp. qcrush.
  - frame_tac.
Qed.

(** The whole loop, from any point of the list on. *)
Lemma insert_walk_spec suf fuel c p0 pr :
  (length suf < fuel)%nat → new ∉ p0 ++ pr :: suf → NoDup (p0 ++ pr :: suf) →
  dlseg c None (p0 ++ pr :: suf) None →
  tail (queues c q) = last_or None (p0 ++ pr :: suf) →
  ∃ c', insert_walk fuel new q (hd_or None suf) c = Done ((), c') ∧
    dlseg c' None (p0 ++ pr :: ins_before c new suf) None ∧
    curr (procs c' new) = Some q ∧
    (∀ p, p ≠ new → curr (procs c' p) = curr (procs c p)) ∧
    head (queues c' q) = head (queues c q) ∧
    tail (queues c' q) = last_or None (p0 ++ pr :: ins_before c new suf) ∧
    len (queues c' q) = s32 (len (queues c q) + 1) ∧
    qframe c c' q (new :: p0 ++ pr :: suf).
Proof.
  revert fuel p0 pr. induction suf as [|x suf IH]; intros fuel p0 pr Hf Hnew Hnd Hd Htl.
  - destruct fuel as [|fuel]; [simpl in Hf; lia|].
    rewrite last_or_app in Htl. cbn in Htl.
    destruct (insert_append fuel c p0 pr Htl Hnew Hnd Hd)
      as (c' & Hrun & Hd' & Hc & Hco & Hq & Hfr).
    exists c'. cbn [hd_or ins_before].
    split; [done|]. split; [done|]. split; [done|]. split; [done|].
    rewrite Hq, last_or_app. done.
  - destruct fuel as [|fuel]; [simpl in Hf; lia|]. cbn [hd_or ins_before].
    pose proof (goes_before_overtakes c x) as Hgo.
    case_decide as Hov; [rewrite bool_decide_true in Hgo by done|rewrite bool_decide_false in Hgo by done].
    + destruct (insert_here fuel c p0 pr x suf Hgo Hnew Hnd Hd)
        as (c' & Hrun & Hd' & Hc & Hco & Hq & Hfr).
      exists c'. split; [done|]. split; [done|]. split; [done|]. split; [done|].
      rewrite Hq. split; [done|]. split; [|done].
      cbn [tail incr_len set_len]. rewrite Htl, !last_or_app. done.
    + destruct (IH fuel (p0 ++ [pr]) x) as (c' & Hrun & Hrest);
        rewrite <- ?app_assoc; try done; [simpl in Hf; lia|].
      exists c'. rewrite <- !app_assoc in Hrest. split; [|done].
      cbn [insert_walk]. unfold getS. rewrite run_bind, Hgo.
      rewrite dlseg_app in Hd. destruct Hd as (_ & _ & _ & _ & Hnx & _).
      by rewrite Hnx.
Qed.

(** [insert_core] refines [spec_insert]. *)
Lemma insert_core_spec c l :
  qrepr c q l → new ∉ l → (new < NPROC)%nat →
  ∃ c', insert_core new q c = Done ((), c') ∧ qrepr c' q (spec_insert c new l) ∧
        qframe c c' q (new :: l).
Proof.
  intros [Hh Ht Hl Hnd Hd Hm] Hnew Hlt.
  assert (Hlen : (length l ≤ NPROC)%nat)
    by (apply nodup_le_nproc; [done | intros p Hp; by apply Hm]).
  unfold insert_core, getS. rewrite run_bind, Hh.
  destruct l as [|h [|x l]]; cbn [hd_or].
  - eexists. split; [cbn; reflexivity|]. split; [|frame_tac].
    split; cbn [spec_insert app hd_or tail_ok length dlseg].
    + by qsimp.
    + left. by qsimp.
    + qsimp. by rewrite Hl.
    + apply NoDup_singleton.
    + by qsimp.
    + intros p ->%list_elem_of_singleton. by qsimp.
  - destruct Hd as (Hp & Hn & _). rewrite Hn. cbn [hd_or].
    assert (h ≠ new) by set_solver.
    eexists. split; [cbn; reflexivity|]. split; [|frame_tac].
    split; cbn [spec_insert app hd_or tail_ok length dlseg last_or].
    + by qsimp.
    + by qsimp.
    + qsimp. by rewrite Hl.
    + apply NoDup_cons. split; [set_solver|apply NoDup_singleton].
    + qcrush.
    + intros p Hp'. destruct (Hm h) as [Hh1 Hh2]; [by constructor|].
      assert (p = h ∨ p = new) as [-> | ->] by (clear - Hp'; set_solver); qcrush.
  - destruct Hd as (Hp & Hn & Hd'). rewrite Hn. cbn [hd_or].
    destruct (insert_walk_spec (x :: l) FUEL c [] h)
      as (c' & Hrun & Hd2 & Hc & Hco & Hh2 & Ht2 & Hl2 & Hfr); try done.
    { unfold FUEL. simpl in Hlen |- *. lia. }
    exists c'. split; [done|]. split; [|done].
    cbn [spec_insert]. split; try done.
    + by rewrite Hh2, Hh.
    + rewrite Ht2. cbn [app tail_ok].
      destruct (ins_before c new (x :: l)) eqn:Hi; [|done].
      apply (f_equal length) in Hi. by rewrite ins_before_length in Hi.
    + rewrite Hl2. rewrite (len_incr c q (h :: x :: l)); [|done..].
      cbn [length]. rewrite ins_before_length. cbn [length]. lia.
    + apply NoDup_cons in Hnd as [Hnh Hnd]. constructor.
      * rewrite ins_before_elem. clear - Hnew Hnh. set_solver.
      * apply ins_before_nodup; [|done]. clear - Hnew. set_solver.
    + intros p. rewrite elem_of_cons, ins_before_elem. intros Hp'.
      destruct (decide (p = new)) as [->|Hpn]; [done|].
      rewrite Hco by done. apply Hm. clear - Hp' Hpn. set_solver.
Qed.
End insert.

(** ** Operations with their locks *)

(** The [intena] that one balanced [pushcli]/[popcli] pair leaves behind. *)
Definition sav (n : Z) (b e : bool) : bool := if n =? 0 then b else e.

(** A nesting depth the kernel really reaches. *)
Definition shallow (n : Z) (b : bool) : Prop := 0 ≤ n < 1000 ∧ (0 < n → b = false).

(** Every lock and the nesting are as before. *)
Definition balanced (i : nat) (n : Z) (b e : bool) (s s' : ks) : Prop :=
  mach_at i n b (sav n b e) (kmach s') ∧ ∀ k, klocks s' k = klocks s k.

Lemma sav_sav n b e : sav n b (sav n b e) = sav n b e.
Proof. unfold sav. by destruct (n =? 0). Qed.

Lemma balanced_trans i n b e s s1 s2 :
  balanced i n b e s s1 → balanced i n b (sav n b e) s1 s2 → balanced i n b e s s2.
Proof.
  intros [_ H1] [Hm H2]. split; [by rewrite sav_sav in Hm|]. intros k. by rewrite H2.
Qed.

Lemma acquire_run i n b e l (s : ks) :
  mach_at i n b e (kmach s) → shallow n b → klocks s l = lock_free →
  ∃ s', acquire l s = Done ((), s') ∧ kcore s' = kcore s ∧
        mach_at i (n + 1) false (sav n b e) (kmach s') ∧
        (∀ k, klocks s' k = if decide (l = k) then lock_held i else klocks s k).
Proof.
  intros Hm [Hn Hb] Hf.
  destruct (acquire_at i n b e l s Hm) as (m' & Hrun & Hm'); [split; [lia|done]|done|].
  eexists. split; [exact Hrun|]. split; [done|]. split; [done|]. intros k. cbn.
  case_decide; [subst; apply fn_lookup_insert | by apply fn_lookup_insert_ne].
Qed.

Lemma release_run i n b e l (s s0 : ks) :
  mach_at i (n + 1) false (sav n b e) (kmach s) → shallow n b →
  klocks s l = lock_held i → klocks s0 l = lock_free →
  (∀ k, k ≠ l → klocks s k = klocks s0 k) →
  ∃ s', release l s = Done ((), s') ∧ kcore s' = kcore s ∧ balanced i n b e s0 s'.
Proof.
  intros Hm [Hn Hb] Hh H0 Hk.
  destruct (release_at i n (sav n b e) l s Hm) as (m' & Hrun & Hm'); [lia|done|].
  eexists. split; [exact Hrun|]. split; [done|]. split.
  - cbn. replace b with ((n =? 0) && sav n b e) at 1; [done|].
    unfold sav. destruct (Z.eqb_spec n 0); [done|]. symmetry. apply Hb. lia.
  - intros k. cbn. destruct (decide (l = k)) as [->|Hne].
    + by rewrite fn_lookup_insert.
    + rewrite fn_lookup_insert_ne by done. by apply Hk.
Qed.

Lemma liftc_done {A} (m : M sys A) (s : ks) a c :
  m (kcore s) = Done (a, c) → liftc m s = Done (a, set_core c s).
Proof. intros H. unfold liftc. by rewrite H. Qed.

Lemma run_assign {B} (f : sys → sys) (k : () → M ks B) (s : ks) :
  (liftc (modS f) ≫= k) s = k () (set_core (f (kcore s)) s).
Proof. reflexivity. Qed.

Lemma set_core_set_core c c' (s : ks) : set_core c (set_core c' s) = set_core c s.
Proof. reflexivity. Qed.

(** [acquire(l); body; release(l);] *)
Lemma locked_section {A} i n b e l (m : M sys A) (s : ks) a c :
  mach_at i n b e (kmach s) → shallow n b → klocks s l = lock_free →
  m (kcore s) = Done (a, c) →
  ∃ s', (_ ← acquire l; _ ← liftc m; release l) s = Done ((), s') ∧
        kcore s' = c ∧ balanced i n b e s s'.
Proof.
  intros Hm Hsh Hf Hrun.
  destruct (acquire_run i n b e l s Hm Hsh Hf) as (s1 & Ha & Hc1 & Hm1 & Hk1).
  rewrite <- Hc1 in Hrun.
  destruct (release_run i n b e l (set_core c s1) s) as (s2 & Hr & Hc2 & Hb2); try done.
  - cbn. by rewrite Hk1, decide_True.
  - intros k Hk. cbn. rewrite Hk1, decide_False; congruence.
  - exists s2. split; [|done].
    rewrite (bind_done _ _ _ _ _ Ha).
    by rewrite (bind_done _ _ _ _ _ (liftc_done m s1 a c Hrun)).
Qed.

Lemma insert_run i n b e s new q l :
  mach_at i n b e (kmach s) → shallow n b → klocks s (QLock q) = lock_free →
  qrepr (kcore s) q l → new ∉ l → (new < NPROC)%nat →
  state (procs (kcore s) new) ≠ RUNNING → curr (procs (kcore s) new) ≠ Some q →
  ∃ s', insert_proc_into_queue new (Some q) s = Done ((), s') ∧
        qrepr (kcore s') q (spec_insert (kcore s) new l) ∧
        qframe (kcore s) (kcore s') q (new :: l) ∧ balanced i n b e s s'.
Proof.
  intros Hm Hsh Hf Hq Hnew Hlt Hst Hcu.
  destruct (insert_core_spec new q (kcore s) l Hq Hnew Hlt) as (c & Hrun & Hq' & Hfr).
  destruct (locked_section i n b e (QLock q) _ s () c Hm Hsh Hf Hrun) as (s' & Hs & Hc & Hb).
  exists s'. subst c. split; [|done].
  unfold insert_proc_into_queue, gets. rewrite run_bind.
  rewrite bool_decide_eq_false_2 by done.
  unfold is_proc_queued. by rewrite bool_decide_eq_false_2.
Qed.

(** C18: inserting a process that is not running and not on the queue refines
    the list insertion [spec_insert]: the first process stays first, the new
    one goes in front of the first later RUNNABLE process of lower priority (of
    any RUNNABLE one when it is URGENT), else last.  The queue stays a
    well-formed doubly linked list with the right length, nothing else changes,
    and every lock is released. *)
Theorem insert_refines i n b e s new q l :
  mach_at i n b e (kmach s) → shallow n b → klocks s (QLock q) = lock_free →
  qrepr (kcore s) q l → new ∉ l → (new < NPROC)%nat →
  state (procs (kcore s) new) ≠ RUNNING → curr (procs (kcore s) new) ≠ Some q →
  ∃ s', insert_proc_into_queue new (Some q) s = Done ((), s') ∧
        qrepr (kcore s') q (spec_insert (kcore s) new l) ∧
        qframe (kcore s) (kcore s') q (new :: l) ∧ balanced i n b e s s'.
Proof. apply insert_run. Qed.

(** ** Removal *)

Lemma spec_remove_split old l1 l2 :
  NoDup (l1 ++ old :: l2) → spec_remove old (l1 ++ old :: l2) = l1 ++ l2.
Proof.
  intros Hnd. unfold spec_remove. rewrite filter_app, filter_cons, decide_False by tauto.
  apply NoDup_app in Hnd as (_ & Hdis & [Ho _]%NoDup_cons).
  assert (Hid : ∀ l : list nat, old ∉ l → filter (λ x, x ≠ old) l = l).
  { induction l as [|x l IH]; intros Hx; [done|].
    apply not_elem_of_cons in Hx as [Hx1 Hx2].
    rewrite filter_cons, decide_True by congruence. by rewrite IH. }
  rewrite !Hid; [done..|]. intros Hin. apply (Hdis old Hin). by left.
Qed.

(** The links after unlinking [old] from between [l1] and [l2]. *)
Record unlinked_ok (c c' : sys) (q : qid) (l1 : list nat) (old : nat) (l2 : list nat) :
    Prop := UnlinkedOk {
  ul_head : head (queues c' q) = hd_or None (l1 ++ l2);
  ul_tail : tail_ok (l1 ++ l2) (tail (queues c' q));
  ul_len : len (queues c' q) = Z.of_nat (length (l1 ++ l2));
  ul_links : dlseg c' None (l1 ++ l2) None;
  ul_old : next (procs c' old) = None ∧ prev (procs c' old) = None;
  ul_curr : ∀ p, curr (procs c' p) = curr (procs c p);
  ul_frame : qframe c c' q (l1 ++ old :: l2)
}.

Lemma len_decr c q (l : list nat) (k : nat) :
  len (queues c q) = Z.of_nat (length l) → (length l ≤ NPROC)%nat → length l = S k →
  s32 (len (queues c q) - 1) = Z.of_nat k.
Proof. intros -> Hl Hk. unfold NPROC in Hl. rewrite s32_small; lia. Qed.

Section remove.
Context (old : nat) (q : qid).

Lemma remove_head_spec c l :
  qrepr c q (old :: l) →
  ∃ c', remove_head old q c = Done ((), c') ∧ unlinked_ok c c' q [] old l.
Proof.
  intros [Hh Ht Hl Hnd Hd Hm].
  assert (Hlen : (length (old :: l) ≤ NPROC)%nat)
    by (apply nodup_le_nproc; [done | intros p Hp; by apply Hm]).
  apply NoDup_cons in Hnd as [Ho Hnd]. destruct Hd as (Hp & Hn & Hd).
  unfold remove_head, gets. rewrite run_bind, Hn.
  pose proof (len_decr c q (old :: l) (length l) Hl Hlen eq_refl) as Hdec.
  destruct l as [|x l]; cbn [hd_or].
  - eexists. split; [cbn; reflexivity|]. split; cbn [app hd_or tail_ok dlseg]; try done.
    + by qsimp.
    + by qsimp.
    + by qsimp.
    + split; by qsimp.
    + intros p. qcrush.
    + frame_tac.
  - assert (old ≠ x ∧ old ∉ l) as [Hox Hol] by set_solver.
    apply NoDup_cons in Hnd as [Hx Hnd]. destruct Hd as (Hpx & Hnx & Hd).
    eexists. split; [cbn; reflexivity|]. split; cbn [app hd_or].
    + by qsimp.
    + destruct l as [|y l]; [right|]; qsimp; by rewrite Ht.
    + by qsimp.
    + cbn [dlseg]. split; [qcrush|]. split; [qcrush|].
      apply (dlseg_ext c); [|done]. intros y Hy.
      assert (y ≠ old ∧ y ≠ x) as [? ?] by set_solver. qcrush.
    + split; qcrush.
    + intros p. qcrush.
    + frame_tac.
Qed.

Lemma unlink_this_spec c l0 pr l2 :
  qrepr c q (l0 ++ pr :: old :: l2) →
  ∃ c', unlink_this old q c = Done ((), c') ∧ unlinked_ok c c' q (l0 ++ [pr]) old l2.
Proof.
  intros [Hh Ht Hl Hnd Hd Hm].
  assert (Hlen : (length (l0 ++ pr :: old :: l2) ≤ NPROC)%nat)
    by (apply nodup_le_nproc; [done | intros p Hp; by apply Hm]).
  assert (Hdec : s32 (len (queues c q) - 1) = Z.of_nat (length ((l0 ++ [pr]) ++ l2))).
  { apply (len_decr c q _ _ Hl Hlen). rewrite !length_app. cbn [length]. lia. }
  assert (Ht' : tail (queues c q) = last_or (Some old) l2).
  { destruct l0 as [|z l0]; [done|].
    assert (Ht2 : tail (queues c q) = last_or None ((z :: l0) ++ pr :: old :: l2)).
    { cbn in Ht |- *. by destruct (l0 ++ pr :: old :: l2) eqn:Hx; [destruct l0|]. }
    by rewrite Ht2, last_or_app. }
  clear Ht. rewrite dlseg_app in Hd. destruct Hd as (Hd0 & Hppr & Hnpr & Hpo & Hno & Hd2).
  apply NoDup_app in Hnd as (Hnd0 & Hdis & Hnd).
  apply NoDup_cons in Hnd as [Hpr Hnd]. apply NoDup_cons in Hnd as [Ho Hnd].
  assert (Hne : pr ≠ old ∧ pr ∉ l0 ∧ old ∉ l0 ∧ pr ∉ l2 ∧ old ∉ l2) by set_solver.
  destruct Hne as (H1 & H2 & H3 & H4 & H5).
  unfold unlink_this, getS. rewrite run_bind, Hpo. unfold modS. rewrite !run_bind.
  replace (next (procs (updp pr _ c) old)) with (hd_or None l2) by (symmetry; qcrush).
  replace (prev (procs (updp pr _ c) old)) with (Some pr) by (symmetry; qcrush).
  rewrite Hno.
  assert (Hseg : ∀ c' nx, (∀ y, y ∈ l0 → procs c' y = procs c y) →
    prev (procs c' pr) = prev (procs c pr) → next (procs c' pr) = nx →
    dlseg c' None (l0 ++ [pr]) nx).
  { intros c' nx Hy Hp' Hn'. rewrite dlseg_app. split; [|by cbn; rewrite Hp', Hn'].
    apply (dlseg_ext c); [|done]. intros x Hx. by rewrite Hy. }
  destruct l2 as [|x l2]; cbn [hd_or].
  - eexists. split; [cbn; reflexivity|]. split; rewrite ?app_nil_r.
    + qsimp. rewrite Hh. by destruct l0.
    + qsimp. destruct l0 as [|z [|z' l0]]; cbn [app tail_ok]; [by right|done|].
      by rewrite !app_comm_cons, last_or_app.
    + by rewrite app_nil_r in Hdec; qsimp.
    + apply Hseg; [intros y Hy| |];
        [assert (y ≠ old ∧ y ≠ pr) as [? ?] by set_solver|..]; qcrush.
    + split; qcrush.
    + intros p. qcrush.
    + rewrite <- app_assoc. frame_tac.
  - assert (x ≠ old ∧ x ≠ pr ∧ x ∉ l0) as (H6 & H7 & H8) by set_solver.
    apply NoDup_cons in Hnd as [Hx Hnd]. destruct Hd2 as (Hpx & Hnx & Hd2).
    eexists. split; [cbn; reflexivity|]. split.
    + qsimp. rewrite Hh. by destruct l0.
    + qsimp. rewrite Ht'. destruct l0 as [|z [|z' l0]]; cbn [app tail_ok]; try done.
      by rewrite !app_comm_cons, <- app_assoc, last_or_app.
    + by qsimp.
    + rewrite dlseg_app. split.
      * apply Hseg; [intros y Hy| |];
          [assert (y ≠ old ∧ y ≠ pr ∧ y ≠ x) as (? & ? & ?) by set_solver|..]; qcrush.
      * rewrite last_or_app. cbn [last_or dlseg]. split; [qcrush|]. split; [qcrush|].
        apply (dlseg_ext c); [|done]. intros y Hy.
        assert (y ≠ old ∧ y ≠ pr ∧ y ≠ x) as (? & ? & ?) by set_solver. qcrush.
    + split; qcrush.
    + intros p. qcrush.
    + rewrite <- app_assoc. frame_tac.
Qed.

Lemma remove_walk_spec c l0 pr l2 :
  qrepr c q (l0 ++ pr :: old :: l2) →
  ∃ c', remove_walk FUEL old q (hd_or None (l0 ++ pr :: old :: l2)) c = Done (true, c') ∧
        unlinked_ok c c' q (l0 ++ [pr]) old l2.
Proof.
  intros Hq. destruct (unlink_this_spec c l0 pr l2 Hq) as (c' & Hrun & Hok).
  exists c'. split; [|done].
  assert (Hwalk : ∀ fuel a z, l0 ++ [pr] = a ++ z → (length z < fuel)%nat →
    remove_walk fuel old q (hd_or None (z ++ old :: l2)) c = Done (true, c')).
  { intros fuel. induction fuel as [|fuel IH]; intros a z Haz Hf; [lia|].
    destruct z as [|y z]; cbn [app hd_or remove_walk].
    - rewrite bool_decide_eq_true_2 by done. by rewrite (bind_done _ _ _ _ _ Hrun).
    - destruct Hq as [_ _ _ Hnd Hd _].
      replace (l0 ++ pr :: old :: l2) with (a ++ y :: z ++ old :: l2) in Hnd, Hd
        by (rewrite app_comm_cons, app_assoc, <- Haz, <- app_assoc; done).
      rewrite bool_decide_eq_false_2.
      2:{ intros ->. apply NoDup_app in Hnd as (_ & _ & [Hy _]%NoDup_cons). set_solver. }
      rewrite dlseg_app in Hd. destruct Hd as (_ & _ & Hnx & _).
      unfold gets. rewrite run_bind, Hnx.
      apply (IH (a ++ [y]) z); [by rewrite <- app_assoc | simpl in Hf; lia]. }
  replace (l0 ++ pr :: old :: l2) with ((l0 ++ [pr]) ++ old :: l2)
    by (by rewrite <- app_assoc).
  apply (Hwalk _ []); [done|].
  pose proof (nodup_le_nproc _ (qr_nodup _ _ _ Hq)) as Hlen.
  rewrite length_app in Hlen |- *. cbn [length] in Hlen |- *. unfold FUEL.
  enough (length l0 + S (S (length l2)) ≤ NPROC)%nat by lia.
  apply Hlen. intros p Hp. by apply (qr_member _ _ _ Hq).
Qed.
End remove.

(** What [unclaim_proc] does to the process it is given. *)
Definition is_claimed (p : proc) : bool := c_true (Z.land (queue_mask p) IN_QUEUE).

Definition unclaimed (p : proc) : proc :=
  if is_claimed p then
    set_curr None (set_curr_cpu NOCPU
      (set_queue_mask (Z.land (queue_mask p) (Z.lnot IN_QUEUE)) p))
  else p.

Lemma unclaim_run i n b e p (s : ks) :
  mach_at i n b e (kmach s) → shallow n b → klocks s CheckLock = lock_free →
  ∃ s', unclaim_proc p s = Done (of_bool (is_claimed (procs (kcore s) p)), s') ∧
        (∀ x, procs (kcore s') x =
              if decide (p = x) then unclaimed (procs (kcore s) p) else procs (kcore s) x) ∧
        queues (kcore s') = queues (kcore s) ∧ nextpid (kcore s') = nextpid (kcore s) ∧
        initproc (kcore s') = initproc (kcore s) ∧ c_avg (kcore s') = c_avg (kcore s) ∧
        cpu_proc (kcore s') = cpu_proc (kcore s) ∧ ticks (kcore s') = ticks (kcore s) ∧
        balanced i n b e s s'.
Proof.
  intros Hm Hsh Hf.
  destruct (acquire_run i n b e CheckLock s Hm Hsh Hf) as (s1 & Ha & Hc1 & Hm1 & Hk1).
  set (c' := if is_claimed (procs (kcore s) p) then
               updp p (set_curr None) (updp p (set_curr_cpu NOCPU)
                 (updp p (λ x, set_queue_mask (Z.land (queue_mask x) (Z.lnot IN_QUEUE)) x)
                    (kcore s)))
             else kcore s).
  destruct (release_run i n b e CheckLock (set_core c' s1) s) as (s2 & Hr & Hc2 & Hb2); try done.
  - cbn. by rewrite Hk1, decide_True.
  - intros k Hk. cbn. rewrite Hk1, decide_False; congruence.
  - exists s2. split.
    + unfold unclaim_proc. rewrite (bind_done _ _ _ _ _ Ha).
      unfold gets. rewrite run_bind, Hc1.
      fold (is_claimed (procs (kcore s) p)). subst c'.
      destruct (is_claimed (procs (kcore s) p)).
      * unfold liftc, modS, mret, M_ret, mbind, M_bind. cbn [kcore set_core].
        by rewrite Hc1, !set_core_set_core, Hr.
      * replace (set_core (kcore s) s1) with s1 in Hr
          by (destruct s1; cbn in Hc1; by subst).
        unfold mret, M_ret, mbind, M_bind. by rewrite Hr.
    + rewrite Hc2. cbn [kcore set_core]. subst c'. unfold unclaimed.
      split; [|by destruct (is_claimed _)].
      intros x. destruct (is_claimed (procs (kcore s) p)); [|by case_decide; subst].
      rewrite !procs_updp. by case_decide; [rewrite !decide_True|].
Qed.

(** A queue is unaffected by changes to a process that is not on it. *)
Lemma qrepr_other c c' q l p :
  (∀ x, x ≠ p → procs c' x = procs c x) → queues c' q = queues c q → p ∉ l →
  qrepr c q l → qrepr c' q l.
Proof.
  intros Hp Hq Hnp [Hh Ht Hl Hnd Hd Hm].
  assert (Hx : ∀ x, x ∈ l → procs c' x = procs c x)
    by (intros x Hx; apply Hp; intros ->; done).
  split; rewrite ?Hq; try done.
  - apply (dlseg_ext c); [|done]. intros x Hin. by rewrite Hx.
  - intros x Hin. rewrite Hx by done. by apply Hm.
Qed.

(** The state after [old] has left queue [q], which held [l]. *)
Record removed (c c' : sys) (q : qid) (old : nat) (l : list nat) : Prop := Removed {
  rm_queue : qrepr c' q (spec_remove old l);
  rm_old : procs c' old = unclaimed (set_prev None (set_next None (procs c old)));
  rm_procs : ∀ p, p ∉ l → procs c' p = procs c p;
  rm_fields : ∀ p, p ≠ old → unlinked (procs c' p) = unlinked (procs c p) ∧
                             curr (procs c' p) = curr (procs c p);
  rm_queues : ∀ q', q' ≠ q → queues c' q' = queues c q';
  rm_globals : nextpid c' = nextpid c ∧ initproc c' = initproc c ∧
               c_avg c' = c_avg c ∧ cpu_proc c' = cpu_proc c ∧ ticks c' = ticks c
}.

Lemma proc_eta_links p x :
  unlinked p = unlinked x → curr p = curr x → next p = None → prev p = None →
  p = set_prev None (set_next None x).
Proof. destruct p, x. unfold unlinked. cbn. intros [=]. intros. by subst. Qed.

(** Both paths of [remove_proc_from_queue] end in [unclaim_proc; release]. *)
Lemma unlinked_removed i n b e s s1 q old l1 l2 c' :
  mach_at i (n + 1) false (sav n b e) (kmach s1) → shallow n b → shallow (n + 1) false →
  (∀ k, klocks s1 k = if decide (QLock q = k) then lock_held i else klocks s k) →
  klocks s (QLock q) = lock_free → klocks s CheckLock = lock_free →
  qrepr (kcore s) q (l1 ++ old :: l2) → unlinked_ok (kcore s) c' q l1 old l2 →
  ∃ s', (_ ← unclaim_proc old; release (QLock q)) (set_core c' s1) = Done ((), s') ∧
        removed (kcore s) (kcore s') q old (l1 ++ old :: l2) ∧ balanced i n b e s s'.
Proof.
  intros Hm1 Hsh Hsh1 Hk1 Hfq Hfc Hq [Hh Ht Hl Hd Hold Hcu Hfr].
  destruct (unclaim_run i (n + 1) false (sav n b e) old (set_core c' s1))
    as (s2 & Hu & Hp2 & Hq2 & Hn2 & Hi2 & Ha2 & Hcp2 & Htk2 & Hm2 & Hk2); try done.
  { cbn. by rewrite Hk1, decide_False. }
  cbn [kcore set_core klocks] in *.
  replace (sav (n + 1) false (sav n b e)) with (sav n b e) in Hm2
    by (unfold sav at 2; destruct Hsh as [Hn _]; by rewrite (proj2 (Z.eqb_neq (n + 1) 0)) by lia).
  destruct (release_run i n b e (QLock q) s2 s) as (s3 & Hr & Hc3 & Hb3); try done.
  - by rewrite Hk2, Hk1, decide_True.
  - intros k Hk. rewrite Hk2, Hk1, decide_False; congruence.
  - exists s3. split; [by rewrite (bind_done _ _ _ _ _ Hu)|]. split; [|done].
    rewrite Hc3. pose proof (qr_nodup _ _ _ Hq) as Hnd.
    assert (Ho : old ∉ l1 ++ l2).
    { apply NoDup_app in Hnd as (_ & Hdis & [Hol _]%NoDup_cons). set_solver. }
    split.
    + rewrite spec_remove_split by done.
      apply (qrepr_other c' _ _ _ old); [|by rewrite Hq2|done|].
      { intros x Hx. rewrite Hp2, decide_False; congruence. }
      split; try done.
      * apply NoDup_app in Hnd as (H1 & H2 & [H3 H4]%NoDup_cons).
        apply NoDup_app. set_solver.
      * intros p Hp. rewrite Hcu. apply (qr_member _ _ _ Hq). set_solver.
    + rewrite Hp2, decide_True by done. f_equal. destruct Hold as [Hon Hop].
      apply proc_eta_links; [apply (fr_fields _ _ _ _ Hfr)|apply Hcu|done..].
    + intros p Hp. rewrite Hp2, decide_False by set_solver. by apply Hfr.
    + intros p Hp. rewrite Hp2, decide_False by congruence.
      split; [apply (fr_fields _ _ _ _ Hfr) | apply Hcu].
    + intros q' Hq'. rewrite Hq2. by apply Hfr.
    + rewrite Hn2, Hi2, Ha2, Hcp2, Htk2. split_and!; apply Hfr.
Qed.

Lemma remove_run i n b e s old q l :
  mach_at i n b e (kmach s) → shallow n b → shallow (n + 1) false →
  klocks s (QLock q) = lock_free → klocks s CheckLock = lock_free →
  qrepr (kcore s) q l → old ∈ l → state (procs (kcore s) old) ≠ RUNNING →
  ∃ s', remove_proc_from_queue old (Some q) s = Done ((), s') ∧
        removed (kcore s) (kcore s') q old l ∧ balanced i n b e s s'.
Proof.
  intros Hm Hsh Hsh1 Hfq Hfc Hq Hin Hst.
  apply list_elem_of_split in Hin as (l1 & l2 & ->).
  destruct (acquire_run i n b e (QLock q) s Hm Hsh Hfq) as (s1 & Ha & Hc1 & Hm1 & Hk1).
  unfold remove_proc_from_queue, gets. rewrite run_bind. rewrite (qr_head _ _ _ Hq).
  rewrite bool_decide_eq_false_2 by (by destruct l1).
  rewrite bool_decide_eq_false_2 by done.
  rewrite (bind_done _ _ _ _ _ Ha).
  destruct (decide (l1 = [])) as [->|Hl1].
  - cbn [app hd_or]. rewrite bool_decide_eq_true_2 by done.
    destruct (remove_head_spec old q (kcore s) l2 Hq) as (c' & Hrun & Hok).
    rewrite <- Hc1 in Hrun. rewrite (bind_done _ _ _ _ _ (liftc_done _ _ _ _ Hrun)).
    by eapply (unlinked_removed i n b e s s1 q old [] l2 c').
  - destruct (last_or_snoc l1 Hl1) as (l0 & pr & -> & _).
    rewrite <- app_assoc in Hq |- *. cbn [app] in Hq |- *.
    rewrite bool_decide_eq_false_2.
    2:{ pose proof (qr_nodup _ _ _ Hq) as Hnd. destruct l0 as [|z l0]; cbn; intros [=];
        subst; apply NoDup_cons in Hnd as [Hnd _]; set_solver. }
    destruct (remove_walk_spec old q (kcore s) l0 pr l2 Hq) as (c' & Hrun & Hok).
    rewrite <- Hc1 in Hrun.
    rewrite (bind_done _ _ _ _ _ (liftc_done _ _ _ _ Hrun)).
    replace (l0 ++ pr :: old :: l2) with ((l0 ++ [pr]) ++ old :: l2) in Hq |- *
      by (by rewrite <- app_assoc).
    by eapply (unlinked_removed i n b e s s1 q old (l0 ++ [pr]) l2 c').
Qed.

(** C19: removing a process that is on the queue and not running refines list
    removal: the rest keeps its order and its links, [len] drops by one, the
    process comes out unlinked (and unclaimed, if it was claimed), nothing
    else changes and every lock is released. *)
Theorem remove_refines i n b e s old q l :
  mach_at i n b e (kmach s) → shallow n b → shallow (n + 1) false →
  klocks s (QLock q) = lock_free → klocks s CheckLock = lock_free →
  qrepr (kcore s) q l → old ∈ l → state (procs (kcore s) old) ≠ RUNNING →
  ∃ s', remove_proc_from_queue old (Some q) s = Done ((), s') ∧
        removed (kcore s) (kcore s') q old l ∧ balanced i n b e s s'.
Proof. apply remove_run. Qed.

(** ** Paths that stop the machine or keep a lock *)

Lemma acquire_again i n b e l (s : ks) :
  mach_at i n b e (kmach s) → shallow n b → klocks s l = lock_held i →
  acquire l s = Panicked "acquire".
Proof. intros Hm [Hn Hb] Hl. apply (acquire_held i n b e); [done|split; [lia|done]|done]. Qed.

(** rotating a run queue that holds one process that is not running never
    succeeds: [remove_proc_from_queue] takes the lock that [shift_queue]
    already holds. *)
Theorem shift_single_panics i n b e s q p :
  mach_at i n b e (kmach s) → shallow n b → shallow (n + 1) false →
  klocks s (QLock q) = lock_free → klocks s CheckLock = lock_free →
  qrepr (kcore s) q [p] → state (procs (kcore s) p) ≠ RUNNING →
  shift_queue q s = Panicked "acquire".
Proof.
  intros Hm Hsh Hsh1 Hfq Hfc Hq Hst.
  destruct (acquire_run i n b e (QLock q) s Hm Hsh Hfq) as (s1 & Ha & Hc1 & Hm1 & Hk1).
  destruct (unclaim_run i (n + 1) false (sav n b e) p s1 Hm1 Hsh1)
    as (s2 & Hu & Hp2 & Hq2 & _ & _ & _ & _ & _ & Hm2 & Hk2).
  { by rewrite Hk1, decide_False. }
  destruct (qr_links _ _ _ Hq) as (_ & Hn & _). cbn [hd_or] in Hn.
  unfold shift_queue, head_running, gets. rewrite run_bind. cbv beta.
  rewrite (qr_head _ _ _ Hq). cbn [hd_or]. rewrite bool_decide_eq_false_2 by done.
  rewrite (bind_done _ _ _ _ _ Ha), Hn. rewrite (bind_done _ _ _ _ _ Hu).
  apply bind_panicked. unfold remove_proc_from_queue, gets. rewrite run_bind.
  rewrite Hq2, Hc1, (qr_head _ _ _ Hq). rewrite bool_decide_eq_false_2 by done.
  rewrite bool_decide_eq_false_2.
  2:{ rewrite Hp2, decide_True, Hc1 by done. unfold unclaimed. by case_match. }
  apply bind_panicked. eapply acquire_again; [exact Hm2|done|].
  by rewrite Hk2, Hk1, decide_True.
Qed.

(** The search loop does not change the queue when it finds nothing. *)
Lemma remove_walk_absent c old q pr l fuel :
  dlseg c pr l None → old ∉ l → (length l < fuel)%nat →
  remove_walk fuel old q (hd_or None l) c = Done (false, c).
Proof.
  revert pr fuel. induction l as [|x l IH]; intros pr [|fuel] Hd Ho Hf;
    try (cbn in Hf; lia); [done|].
  destruct Hd as (_ & Hn & Hd). cbn [hd_or remove_walk].
  rewrite bool_decide_eq_false_2 by set_solver. unfold gets. rewrite run_bind, Hn.
  apply (IH (Some x)); [done|set_solver|cbn in Hf; lia].
Qed.

(** asked to remove a process that is not on a non-empty queue, the
    function returns with the queue unchanged but its lock still held and
    interrupts off, so the next [acquire] of that lock here panics. *)
Theorem remove_absent_keeps_lock i n b e s old q l :
  mach_at i n b e (kmach s) → shallow n b → shallow (n + 1) false →
  klocks s (QLock q) = lock_free →
  qrepr (kcore s) q l → l ≠ [] → old ∉ l → state (procs (kcore s) old) ≠ RUNNING →
  ∃ s', remove_proc_from_queue old (Some q) s = Done ((), s') ∧
        kcore s' = kcore s ∧ klocks s' (QLock q) = lock_held i ∧
        mach_at i (n + 1) false (sav n b e) (kmach s') ∧
        acquire (QLock q) s' = Panicked "acquire".
Proof.
  intros Hm Hsh Hsh1 Hfq Hq Hl Ho Hst.
  destruct (acquire_run i n b e (QLock q) s Hm Hsh Hfq) as (s1 & Ha & Hc1 & Hm1 & Hk1).
  assert (Hlk : klocks s1 (QLock q) = lock_held i) by by rewrite Hk1, decide_True.
  assert (Hlen : (length l ≤ NPROC)%nat)
    by (apply nodup_le_nproc; [apply Hq | intros p Hp; by apply (qr_member _ _ _ Hq)]).
  pose proof (remove_walk_absent (kcore s) old q None l FUEL (qr_links _ _ _ Hq) Ho) as Hw.
  rewrite <- Hc1 in Hw.
  exists s1. split; [|split_and!; [done..|by eapply acquire_again]].
  unfold remove_proc_from_queue, gets. rewrite run_bind, (qr_head _ _ _ Hq).
  rewrite bool_decide_eq_false_2 by (by destruct l).
  rewrite bool_decide_eq_false_2 by done.
  rewrite (bind_done _ _ _ _ _ Ha). rewrite bool_decide_eq_false_2.
  2:{ destruct l; cbn; [done|]. intros [=]. set_solver. }
  rewrite (bind_done _ _ _ _ _ (liftc_done _ _ _ _ (Hw ltac:(unfold FUEL; lia)))).
  by destruct s1.
Qed.

(** ** All the queues at once

    [L q] lists the processes on queue [q], for every queue of the system; a
    thread on processor [i] holds exactly the locks in [hs]. *)

Definition qrep (c : sys) (L : qid → list nat) : Prop := ∀ q, qrepr c q (L q).

Definition thread (i : nat) (n : Z) (b e : bool) (hs : list lockid) (s : ks) : Prop :=
  mach_at i n b e (kmach s) ∧
  ∀ k, klocks s k = if decide (k ∈ hs) then lock_held i else lock_free.

Lemma thread_balanced i n b e hs s s' :
  thread i n b e hs s → balanced i n b e s s' → thread i n b (sav n b e) hs s'.
Proof. intros [Hm Hk] [Hm' Hk']. split; [done|]. intros k. by rewrite Hk'. Qed.

Lemma thread_free i n b e hs s k :
  thread i n b e hs s → k ∉ hs → klocks s k = lock_free.
Proof. intros [_ Hk] Hnot. by rewrite Hk, decide_False. Qed.

Lemma thread_core i n b e hs s c : thread i n b e hs s → thread i n b e hs (set_core c s).
Proof. done. Qed.

(** A lock that is not among the listed ones. *)
Ltac notin :=
  let H := fresh in
  intros H; repeat (apply elem_of_cons in H as [H|H]; [discriminate H|]);
  by apply elem_of_nil in H.

(** A process on one queue is on no other. *)
Lemma qrep_other c L q q' p : qrep c L → p ∈ L q → q' ≠ q → p ∉ L q'.
Proof.
  intros HL Hp Hq Hp'. destruct (qr_member _ _ _ (HL q) p Hp) as [_ H1].
  destruct (qr_member _ _ _ (HL q') p Hp') as [_ H2]. congruence.
Qed.

Lemma qrep_lt c L q p : qrep c L → p ∈ L q → (p < NPROC)%nat.
Proof. intros HL Hp. by apply (qr_member _ _ _ (HL q)). Qed.

(** Changing fields other than the links keeps every queue. *)
Lemma qrep_ext c c' L :
  (∀ p, next (procs c' p) = next (procs c p) ∧ prev (procs c' p) = prev (procs c p) ∧
        curr (procs c' p) = curr (procs c p)) →
  queues c' = queues c → qrep c L → qrep c' L.
Proof.
  intros Hp Hq HL q. destruct (HL q) as [Hh Ht Hl Hnd Hd Hm].
  split; rewrite ?Hq; try done.
  - apply (dlseg_ext c); [|done]. intros x _. by destruct (Hp x) as (? & ? & _).
  - intros p Hin. destruct (Hp p) as (_ & _ & ->). by apply Hm.
Qed.

(** Lists are compared queue by queue. *)
Lemma qrep_lists c L L' : (∀ q, L q = L' q) → qrep c L → qrep c L'.
Proof. intros HLL HL q. rewrite <- HLL. apply HL. Qed.

Lemma upd_list (L : qid → list nat) q l q' :
  (<[q := l]> L) q' = if decide (q = q') then l else L q'.
Proof. case_decide; [subst; apply fn_lookup_insert | by apply fn_lookup_insert_ne]. Qed.

Lemma remove_qrep c c' L q old :
  qrep c L → removed c c' q old (L q) → qrep c' (<[q := spec_remove old (L q)]> L).
Proof.
  intros HL HR q'. rewrite upd_list. case_decide as Hq; [subst; apply HR|].
  destruct (HL q') as [Hh Ht Hl Hnd Hd Hm].
  assert (Hx : ∀ p, p ∈ L q' → procs c' p = procs c p).
  { intros p Hp. apply HR. by eapply (qrep_other _ _ q' q). }
  split; rewrite ?(rm_queues _ _ _ _ _ HR) by done; try done.
  - apply (dlseg_ext c); [|done]. intros x Hin. by rewrite Hx.
  - intros p Hin. rewrite Hx by done. by apply Hm.
Qed.

Lemma insert_qrep c c' L q new :
  qrep c L → (∀ q', new ∉ L q') → qrepr c' q (spec_insert c new (L q)) →
  qframe c c' q (new :: L q) → qrep c' (<[q := spec_insert c new (L q)]> L).
Proof.
  intros HL Hnew Hq Hfr q'. rewrite upd_list. case_decide as Hqq; [by subst|].
  eapply (qrepr_frame _ _ _ _ q' (L q') Hfr); [done| |done].
  intros p Hp [->|Hp']%elem_of_cons; [by apply (Hnew q')|].
  by eapply (qrep_other _ _ q' q).
Qed.

(** The calls, on all queues. *)
Lemma remove_all i n b e hs s L q old :
  thread i n b e hs s → shallow n b → shallow (n + 1) false →
  QLock q ∉ hs → CheckLock ∉ hs → qrep (kcore s) L → old ∈ L q →
  state (procs (kcore s) old) ≠ RUNNING →
  ∃ s', remove_proc_from_queue old (Some q) s = Done ((), s') ∧
        thread i n b (sav n b e) hs s' ∧
        qrep (kcore s') (<[q := spec_remove old (L q)]> L) ∧
        removed (kcore s) (kcore s') q old (L q).
Proof.
  intros Ht Hsh Hsh1 Hq Hc HL Ho Hst.
  destruct (remove_run i n b e s old q (L q)) as (s' & Hrun & HR & HB); try done.
  - apply Ht.
  - by eapply thread_free.
  - by eapply thread_free.
  - exists s'. split; [done|]. split; [by eapply thread_balanced|].
    split; [by eapply remove_qrep|done].
Qed.

Lemma insert_all i n b e hs s L q new :
  thread i n b e hs s → shallow n b → QLock q ∉ hs → qrep (kcore s) L →
  (∀ q', new ∉ L q') → (new < NPROC)%nat →
  state (procs (kcore s) new) ≠ RUNNING → curr (procs (kcore s) new) ≠ Some q →
  ∃ s', insert_proc_into_queue new (Some q) s = Done ((), s') ∧
        thread i n b (sav n b e) hs s' ∧
        qrep (kcore s') (<[q := spec_insert (kcore s) new (L q)]> L) ∧
        qframe (kcore s) (kcore s') q (new :: L q).
Proof.
  intros Ht Hsh Hq HL Hnew Hlt Hst Hcu.
  destruct (insert_run i n b e s new q (L q)) as (s' & Hrun & HQ & HF & HB); try done.
  - apply Ht.
  - by eapply thread_free.
  - exists s'. split; [done|]. split; [by eapply thread_balanced|].
    split; [by eapply insert_qrep|done].
Qed.

(** The primitives, on the thread view. *)
Lemma acquire_thread i n b e hs l s :
  thread i n b e hs s → shallow n b → l ∉ hs →
  ∃ s', acquire l s = Done ((), s') ∧ kcore s' = kcore s ∧
        thread i (n + 1) false (sav n b e) (l :: hs) s'.
Proof.
  intros Ht Hsh Hl.
  destruct (acquire_run i n b e l s) as (s' & Hrun & Hc & Hm & Hk);
    [apply Ht|done|by eapply thread_free|].
  exists s'. split; [done|]. split; [done|]. split; [done|]. intros k. rewrite Hk.
  destruct (decide (l = k)) as [->|Hne]; [by rewrite decide_True by set_solver|].
  destruct Ht as [_ Ht]. rewrite Ht. apply decide_ext. set_solver.
Qed.

Lemma release_thread i n e hs l s :
  thread i (n + 1) false e (l :: hs) s → 0 ≤ n < 1000 → l ∉ hs →
  ∃ s', release l s = Done ((), s') ∧ kcore s' = kcore s ∧
        thread i n ((n =? 0) && e) e hs s'.
Proof.
  intros [Hm Hk] Hn Hl.
  destruct (release_at i n e l s Hm) as (m' & Hrun & Hm'); [lia| |].
  { rewrite Hk, decide_True; [done|set_solver]. }
  eexists. split; [exact Hrun|]. split; [done|]. split; [done|]. intros k. cbn.
  destruct (decide (l = k)) as [->|Hne].
  - by rewrite fn_lookup_insert, decide_False.
  - rewrite fn_lookup_insert_ne by done. rewrite Hk. apply decide_ext. set_solver.
Qed.

Lemma mycpu_thread i n e hs s : thread i n false e hs s → mycpu s = Done (i, s).
Proof. intros [(Hi & _ & Hf & _) _]. by apply mycpu_ok. Qed.

Definition claimed (k : Z) (p : proc) : proc :=
  set_curr_cpu k (set_queue_mask (Z.lor (queue_mask p) IN_QUEUE) p).

Lemma claim_thread i n b e hs p k s :
  thread i n b e hs s → shallow n b → CheckLock ∉ hs →
  is_claimed (procs (kcore s) p) = false →
  ∃ s', claim_proc p k s = Done (1, s') ∧ thread i n b (sav n b e) hs s' ∧
        kcore s' = updp p (set_curr_cpu k)
                     (updp p (λ x, set_queue_mask (Z.lor (queue_mask x) IN_QUEUE) x) (kcore s)).
Proof.
  intros Ht Hsh Hc Hcl.
  destruct (acquire_thread i n b e hs CheckLock s Ht Hsh Hc) as (s1 & Ha & Hc1 & Ht1).
  set (c' := updp p _ (updp p _ (kcore s))).
  destruct (release_thread i n (sav n b e) hs CheckLock (set_core c' s1))
    as (s2 & Hr & Hc2 & Ht2); [done|apply Hsh|done|].
  exists s2. split; [|split; [|done]].
  - unfold claim_proc. rewrite (bind_done _ _ _ _ _ Ha). unfold gets.
    rewrite run_bind, Hc1. unfold is_claimed, c_true in Hcl. apply negb_false_iff in Hcl.
    rewrite Hcl. unfold liftc, modS, mret, M_ret, mbind, M_bind. cbn [kcore set_core].
    rewrite Hc1, set_core_set_core. fold c'. by rewrite Hr.
  - replace b with ((n =? 0) && sav n b e) at 1; [done|]. unfold sav.
    destruct Hsh as [Hn Hb], (Z.eqb_spec n 0); [done|]. symmetry. apply Hb. lia.
Qed.

(** ** Concrete states

    The zeroed process slot and processor of a kernel image, and a system with
    one process on one queue; the witnesses below evaluate on them. *)

Definition zero_tf : trapframe := Tf 0 0 0 0 0 0 0 0 0.

Definition zero_proc : proc :=
  Proc 0 0 0 0 0 0 0 0 0 0 0 0 0 0 UNUSED 0 None zero_tf NoChan 0 (replicate NOFILE None)
    None (replicate 16 0) None None 0 None.

Definition boot_sys : sys :=
  Sys (λ _, zero_proc) (λ _, PQ None None 0) 1 None (CpuAvg 0 0 0) (λ _, None) 0.

Definition boot_mach (b : bool) : mach := Mach (λ _, Cpu 0 0 b) 1 0 b.

Definition idle_thread (b : bool) (c : sys) : ks := Kst (boot_mach b) (λ _, lock_free) c.

Definition one_queued (q : qid) (p : nat) (x : proc) : sys :=
  Sys (<[p := x]> (λ _, zero_proc)) (<[q := PQ (Some p) None 1]> (λ _, PQ None None 0))
    1 None (CpuAvg 0 0 25) (<[0%nat := Some p]> (λ _, None)) 0.

Lemma idle_thread_ok b c : thread 0 0 b b [] (idle_thread b c).
Proof. split; [done|]. intros k. by rewrite decide_False by set_solver. Qed.

Lemma boot_qrep : qrep boot_sys (λ _, []).
Proof. intros q. split; try done; [constructor|intros p Hp; by apply elem_of_nil in Hp]. Qed.

Lemma one_queued_qrep q p x :
  (p < NPROC)%nat → next x = None → prev x = None → curr x = Some q →
  qrep (one_queued q p x) (<[q := [p]]> (λ _, [])).
Proof.
  intros Hp Hn Hpr Hcu q'. rewrite upd_list. case_decide as Hq.
  - subst q'. split; cbn; rewrite ?fn_lookup_insert; cbn; auto.
    + apply NoDup_singleton.
    + intros y ->%list_elem_of_singleton. by rewrite fn_lookup_insert.
  - split; cbn; rewrite ?fn_lookup_insert_ne by done; try done.
    + constructor.
    + intros y Hy. by apply elem_of_nil in Hy.
Qed.

Definition ready_proc (q : qid) : proc :=
  set_curr (Some q) (set_curr_cpu NOCPU (set_state RUNNABLE (set_kstack 4096 (set_pgdir 8192
    (set_p_pri MED_USER_PRIORITY zero_proc))))).

Definition one_ready : ks := idle_thread true (one_queued ReadyQ 3 (ready_proc ReadyQ)).

Lemma one_ready_qrep : qrepr (kcore one_ready) ReadyQ [3%nat].
Proof. apply (one_queued_qrep ReadyQ 3 (ready_proc ReadyQ)); [unfold NPROC; lia|done..]. Qed.

Lemma insert_refines_witness :
  ∃ s', insert_proc_into_queue 5 (Some ReadyQ) one_ready = Done ((), s') ∧
        qrepr (kcore s') ReadyQ [3%nat; 5%nat].
Proof.
  destruct (insert_refines 0 0 true true one_ready 5 ReadyQ [3%nat])
    as (s' & Hrun & Hq & _); try done.
  - apply one_ready_qrep.
  - set_solver.
  - unfold NPROC. lia.
  - by exists s'.
Defined.

Lemma remove_refines_witness :
  ∃ s', remove_proc_from_queue 3 (Some ReadyQ) one_ready = Done ((), s') ∧
        qrepr (kcore s') ReadyQ [].
Proof.
  destruct (remove_refines 0 0 true true one_ready 3 ReadyQ [3%nat])
    as (s' & Hrun & HR & _); try done.
  - apply one_ready_qrep.
  - by constructor.
  - exists s'. split; [done|]. exact (rm_queue _ _ _ _ _ HR).
Defined.

Lemma shift_single_panics_witness : shift_queue ReadyQ one_ready = Panicked "acquire".
Proof.
  apply (shift_single_panics 0 0 true true one_ready ReadyQ 3); try done.
  - apply one_ready_qrep.
Defined.

Lemma remove_absent_keeps_lock_witness :
  ∃ s', remove_proc_from_queue 5 (Some ReadyQ) one_ready = Done ((), s') ∧
        klocks s' (QLock ReadyQ) = lock_held 0.
Proof.
  destruct (remove_absent_keeps_lock 0 0 true true one_ready 5 ReadyQ [3%nat])
    as (s' & Hrun & _ & Hl & _); try done.
  - apply one_ready_qrep.
  - set_solver.
  - by exists s'.
Defined.
