(* ===== verification/Sched.v ===== *)
(** * Scheduling: kernel/sched/sched.c and kernel/sched/signals.c

    The CPU usage average, signal delivery, the per-processor scheduler loop
    and the calls that give the processor up.  [swtch] is the context switch of
    swtch.S: [swtch (Some p)] leaves the scheduler for the kernel context of
    [p], [swtch None] leaves a process for the scheduler, and its run is what
    the other side does until control comes back.  Every definition takes it as
    an argument, so the theorems hold for any behaviour of the rest of the
    system.  Diagnostics printed with [cprintf] and the stores to the GDT, the
    TSS and CR3 are not part of the state. *)
From stdpp Require Import base decidable option list functions numbers strings sets.
From Stdlib Require Import ZArith Lia.
From Stdlib Require Import FunctionalExtensionality.
From S2P Require Import Prelude Locks ProcDefs Queue.

Local Open Scope Z_scope.

(** ** The CPU usage average *)

Definition init_cpu_avg_counter : M sys () := modS (with_avg (CpuAvg 0 0 25)).

(** The division traps when [n_procs] has wrapped to zero. *)
Definition update_cpu_avg (ticks : Z) : M sys () :=
  a ← gets c_avg;
  let total := u32 (total_cpu_time a + u32 ticks) in
  let n := u32 (n_procs a + 1) in
  if n =? 0 then fault
  else modS (with_avg (CpuAvg total n (Z.quot total n))).

Definition get_cpu_avg (c : sys) : Z := avg (c_avg c).

(** ** The current process *)

Definition cpuid : M ks nat := mycpu.

Definition myproc : M ks (option nat) :=
  _ ← pushcli;
  i ← mycpu;
  p ← gets (λ s, cpu_proc (kcore s) i);
  _ ← popcli;
  mret p.

(** [myproc()->...]: a null result is not followed. *)
Definition curproc : M ks nat := p ← myproc; deref p.

(** The guards of [switchuvm] and its [pushcli]/[popcli]. *)
Definition switchuvm (p : option nat) : M ks () :=
  match p with
  | None => panic "switchuvm: no process"
  | Some p =>
      c ← gets kcore;
      if kstack (procs c p) =? 0 then panic "switchuvm: no kstack"
      else if pgdir (procs c p) =? 0 then panic "switchuvm: no pgdir"
      else
        _ ← pushcli;
        popcli
  end.

(** [&runqueue[i]]; an index outside the array names no queue. *)
Definition runqueue (i : Z) : M ks qid :=
  if (0 <=? i) && (i <? Z.of_nat NCPU) then mret (RunQ (Z.to_nat i)) else fault.

Section sched.
Context (swtch : option nat → M ks ()).

(** ** sched, yield and preempt *)

(** [mycpu()->intena = intena], on whichever processor resumed us. *)
Definition restore_intena (ie : bool) : M ks () :=
  i ← mycpu;
  modS (λ s, let m := kmach s in let k := cpus m i in
         set_mach (set_cpu i (Cpu (apicid k) (ncli k) ie) m) s).

(** The requeueing done by [sched] before it leaves for the scheduler. *)
Definition sched_requeue (p : nat) : M ks () :=
  c ← gets kcore;
  _ ← (if negb (curr_cpu (procs c p) =? NOCPU) then
         _ ← unclaim_proc p;
         k ← gets (λ s, curr_cpu (procs (kcore s) p));
         q ← runqueue k;
         remove_proc_from_queue p (Some q)
       else mret ());
  c ← gets kcore;
  if bool_decide (state (procs c p) = PREEMPTED) then
    _ ← liftc (modS (updp p (set_p_pri LOW_USER_PRIORITY)));
    _ ← liftc (modS (updp p (set_state RUNNABLE)));
    _ ← liftc (modS (updp p (set_curr None)));
    insert_proc_into_queue p (Some ReadyQ)
  else if bool_decide (state (procs c p) = RUNNABLE) &&
          negb (bool_decide (curr (procs c p) = None)) then
    _ ← remove_proc_from_queue p (curr (procs c p));
    insert_proc_into_queue p (Some ReadyQ)
  else if bool_decide (state (procs c p) = RUNNABLE) then
    insert_proc_into_queue p (Some ReadyQ)
  else mret ().

Definition sched : M ks () :=
  p ← myproc;
  _ ← cpuid;
  h ← holding PtableLock;
  if negb h then panic "sched ptable.lock"
  else
    i ← mycpu;
    m ← gets kmach;
    if negb (ncli (cpus m i) =? 1) then panic "sched locks"
    else
      p ← deref p;
      c ← gets kcore;
      if bool_decide (state (procs c p) = RUNNING) then panic "sched running"
      else if flags_if m then panic "sched interruptible"
      else
        i ← mycpu;
        ie ← gets (λ s, intena (cpus (kmach s) i));
        _ ← sched_requeue p;
        _ ← mycpu;
        _ ← swtch None;
        restore_intena ie.

Definition yield : M ks () :=
  _ ← acquire PtableLock;
  this_cpu ← cpuid;
  p ← curproc;
  _ ← liftc (modS (updp p (set_state RUNNABLE)));
  q ← runqueue (Z.of_nat this_cpu);
  _ ← purge_queue q;
  _ ← sched;
  release PtableLock.

Definition preempt : M ks () :=
  _ ← acquire PtableLock;
  p ← myproc;
  this_cpu ← cpuid;
  p ← deref p;
  _ ← liftc (modS (updp p (set_state PREEMPTED)));
  q ← runqueue (Z.of_nat this_cpu);
  _ ← purge_queue q;
  _ ← sched;
  release PtableLock.

(** ** Signals *)

Definition signals_pending (p : nat) (c : sys) : bool := c_true (p_sig (procs c p)).

Definition fatal_pending (x : proc) : bool :=
  c_true (Z.land (p_sig x) SIGKILL) || c_true (Z.land (p_sig x) SIGSEG) ||
  c_true (Z.land (p_sig x) SIGPIPE).

Definition handle_signals (p : nat) : M ks () :=
  c ← gets kcore;
  _ ← (if fatal_pending (procs c p)
       then liftc (modS (updp p (set_killed 1))) else mret ());
  c ← gets kcore;
  _ ← (if c_true (Z.land (p_sig (procs c p)) SIGCPU) then
         _ ← liftc (modS (updp p (λ x, set_p_sig (Z.land (p_sig x) (Z.lnot SIGCPU)) x)));
         _ ← release PtableLock;
         yield
       else mret ());
  c ← gets kcore;
  if p_ign (procs c p) =? 0 then liftc (modS (updp p (set_killed 1)))
  else if c_true (Z.land (p_ign (procs c p)) (p_sig (procs c p)))
  then liftc (modS (updp p (set_p_sig 0)))
  else liftc (modS (updp p (set_killed 1))).

(** ** The scheduler loop *)

(** The head of the ready queue, after its signals, is moved to this
    processor's run queue when this processor claims it. *)
Definition take_ready (this_cpu p : nat) : M ks () :=
  c ← gets kcore;
  _ ← (if signals_pending p c then handle_signals p else mret ());
  c ← gets kcore;
  if bool_decide (curr (procs c p) = Some ReadyQ) then
    claimed ← claim_proc p (Z.of_nat this_cpu);
    if c_true claimed then
      _ ← remove_proc_from_queue p (Some ReadyQ);
      insert_proc_into_queue p (Some (RunQ this_cpu))
    else mret ()
  else mret ().

(** What is left of the loop body when the process has come back. *)
Definition after_swtch (this_cpu : nat) : M ks bool :=
  _ ← shift_queue (RunQ this_cpu);
  _ ← liftc (modS (with_cpu_proc this_cpu None));
  _ ← release PtableLock;
  mret true.

(** From the label [sched] to the end of the loop body; [false] is the
    [goto main] of an empty run queue. *)
Definition dispatch (this_cpu : nat) : M ks bool :=
  c ← gets kcore;
  if is_queue_empty (RunQ this_cpu) c then mret false
  else
    let h := head (queues c (RunQ this_cpu)) in
    _ ← liftc (modS (with_cpu_proc this_cpu h));
    _ ← switchuvm h;
    _ ← acquire PtableLock;
    p ← deref h;
    _ ← liftc (modS (updp p (set_state RUNNING)));
    _ ← swtch (Some p);
    after_swtch this_cpu.

(** One pass from the label [main]; [false] goes back to it. *)
Definition main_pass (this_cpu : nat) : M ks bool :=
  c ← gets kcore;
  if is_queue_empty ReadyQ c && is_queue_empty (RunQ this_cpu) c then
    qmask ← queues_need_balance;
    _ ← (if 0 <? qmask then do_balance qmask else mret ());
    mret false
  else
    _ ← match head (queues c ReadyQ) with
        | Some p => take_ready this_cpu p
        | None => mret ()
        end;
    dispatch this_cpu.

(** [n] passes of the endless loop; [top] is true at the start of a [for]
    iteration, where interrupts are enabled. *)
Fixpoint scheduler_loop (n : nat) (top : bool) (this_cpu : nat) : M ks () :=
  match n with
  | O => mret ()
  | S n =>
      _ ← (if top then sti else mret ());
      done ← main_pass this_cpu;
      scheduler_loop n done this_cpu
  end.

Definition scheduler (n : nat) : M ks () :=
  i ← mycpu;
  _ ← liftc (modS (with_cpu_proc i None));
  this_cpu ← cpuid;
  scheduler_loop n true this_cpu.

(** ** What queue moves leave alone

    [same c c']: no process differs outside its links, and the globals are
    equal. *)

Record same (c c' : sys) : Prop := Same {
  sm_procs : ∀ p, unlinked (procs c' p) = unlinked (procs c p);
  sm_globals : nextpid c' = nextpid c ∧ initproc c' = initproc c ∧
               c_avg c' = c_avg c ∧ cpu_proc c' = cpu_proc c ∧ ticks c' = ticks c
}.

Lemma same_refl c : same c c.
Proof. done. Qed.

Lemma same_trans c1 c2 c3 : same c1 c2 → same c2 c3 → same c1 c3.
Proof.
  intros [Hp (H1 & H2 & H3 & H4 & H5)] [Hp' (H1' & H2' & H3' & H4' & H5')]. split.
  - intros p. by rewrite Hp'.
  - split_and!; congruence.
Qed.

Lemma same_field {A} (f : proc → A) c c' p :
  (∀ x, f (unlinked x) = f x) → same c c' → f (procs c' p) = f (procs c p).
Proof. intros Hf [Hp _]. rewrite <- (Hf (procs c' p)), Hp. apply Hf. Qed.

(** An assignment that commutes with forgetting the links. *)
Lemma same_updp c c' p f :
  (∀ x, unlinked (f x) = f (unlinked x)) → same c c' → same (updp p f c) (updp p f c').
Proof.
  intros Hf [Hp Hg]. split; [|done]. intros x. rewrite !procs_updp.
  case_decide; [|done]. by rewrite !Hf, Hp.
Qed.

(** Assigning a link changes nothing else. *)
Lemma same_link c p f : (∀ x, unlinked (f x) = unlinked x) → same c (updp p f c).
Proof.
  intros Hf. split; [|done]. intros x. rewrite procs_updp.
  case_decide; [subst; apply Hf|done].
Qed.

Lemma same_framed c c' q l : qframe c c' q l → same c c'.
Proof. intros HF. split; [apply HF|]. split_and!; apply HF. Qed.

Lemma same_removed c c' q old l :
  removed c c' q old l → is_claimed (procs c old) = false → same c c'.
Proof.
  intros HR Hcl. split; [|apply HR]. intros p. destruct (decide (p = old)) as [->|Hne].
  - rewrite (rm_old _ _ _ _ _ HR). unfold unclaimed.
    change (is_claimed (set_prev None (set_next None (procs c old))))
      with (is_claimed (procs c old)).
    by rewrite Hcl.
  - by apply HR.
Qed.

(** ** Threads and the current process *)

Lemma sav_pos n b e : 0 < n → sav n b e = e.
Proof. intros Hn. unfold sav. by rewrite (proj2 (Z.eqb_neq n 0)) by lia. Qed.

Lemma pushpop_thread i n b e hs s :
  thread i n b e hs s → shallow n b →
  ∃ s1 s2, pushcli s = Done ((), s1) ∧ popcli s1 = Done ((), s2) ∧
    thread i (n + 1) false (sav n b e) hs s1 ∧ thread i n b (sav n b e) hs s2 ∧
    kcore s1 = kcore s ∧ kcore s2 = kcore s.
Proof.
  intros [Hm Hk] [Hn Hb].
  destruct (pushcli_at i n b e s Hm) as (m1 & Hp & Hm1); [lia|].
  destruct (popcli_at i n (sav n b e) (set_mach m1 s)) as (m2 & Hq & Hm2); [done|lia|].
  exists (set_mach m1 s), (set_mach m2 (set_mach m1 s)). split_and!; try done.
  split; [|done]. cbn. replace b with ((n =? 0) && sav n b e) at 1; [done|].
  unfold sav. destruct (Z.eqb_spec n 0); [done|]. symmetry. apply Hb. lia.
Qed.

Lemma myproc_thread i n b e hs s :
  thread i n b e hs s → shallow n b →
  ∃ s', myproc s = Done (cpu_proc (kcore s) i, s') ∧ kcore s' = kcore s ∧
        thread i n b (sav n b e) hs s'.
Proof.
  intros Ht Hsh.
  destruct (pushpop_thread i n b e hs s Ht Hsh) as (s1 & s2 & Hp & Hq & Ht1 & Ht2 & Hc1 & Hc2).
  exists s2. split; [|done]. unfold myproc.
  rewrite (bind_done _ _ _ _ _ Hp), (bind_done _ _ _ _ _ (mycpu_thread _ _ _ _ _ Ht1)).
  unfold gets. rewrite run_bind, Hc1. by rewrite (bind_done _ _ _ _ _ Hq).
Qed.

Lemma holding_thread i n b e hs l s :
  thread i n b e hs s → shallow n b → l ∈ hs →
  ∃ s', holding l s = Done (true, s') ∧ kcore s' = kcore s ∧
        thread i n b (sav n b e) hs s'.
Proof.
  intros [Hm Hk] [Hn Hb] Hl.
  destruct (holding_at i n b e l s Hm) as (m' & Hr & Hm'); [lia|done|].
  exists (set_mach m' s). split; [|done]. rewrite Hr, Hk, decide_True by done. cbn.
  by rewrite bool_decide_eq_true_2.
Qed.

(** ** Giving up the processor *)

Lemma sh0 b : shallow 0 b. Proof. split; lia. Qed.
Lemma sh1 : shallow 1 false. Proof. by split; [lia|]. Qed.
Lemma sh2 : shallow 2 false. Proof. by split; [lia|]. Qed.
Lemma sh3 : shallow 3 false. Proof. by split; [lia|]. Qed.
Hint Resolve sh0 sh1 sh2 sh3 : core.

(** [sched] reaches the switch once the requeueing succeeds. *)
Lemma sched_run i e s p (P : sys → Prop) :
  thread i 1 false e [PtableLock] s → cpu_proc (kcore s) i = Some p →
  state (procs (kcore s) p) ≠ RUNNING →
  (∀ s0, thread i 1 false e [PtableLock] s0 → kcore s0 = kcore s →
     ∃ s1, sched_requeue p s0 = Done ((), s1) ∧
           thread i 1 false e [PtableLock] s1 ∧ P (kcore s1)) →
  ∃ s1, sched s = (_ ← swtch None; restore_intena e) s1 ∧
        thread i 1 false e [PtableLock] s1 ∧ P (kcore s1).
Proof.
  intros Ht Hp Hst Hreq.
  destruct (myproc_thread i 1 false e _ s Ht sh1) as (s1 & Hmp & Hc1 & Ht1).
  rewrite sav_pos in Ht1 by lia.
  destruct (holding_thread i 1 false e _ PtableLock s1 Ht1 sh1) as (s2 & Hh & Hc2 & Ht2);
    [by constructor|]. rewrite sav_pos in Ht2 by lia.
  destruct (Hreq s2) as (s3 & Hr & Ht3 & HP); [done|congruence|].
  exists s3. split; [|done]. unfold sched, cpuid.
  rewrite (bind_done _ _ _ _ _ Hmp), (bind_done _ _ _ _ _ (mycpu_thread _ _ _ _ _ Ht1)).
  rewrite (bind_done _ _ _ _ _ Hh). cbn [negb].
  rewrite (bind_done _ _ _ _ _ (mycpu_thread _ _ _ _ _ Ht2)), run_gets.
  pose proof Ht2 as [(_ & Hn & Hf & He) _]. rewrite Hn, Hp, Z.eqb_refl. cbn [negb].
  rewrite run_deref, run_gets.
  rewrite Hc2, Hc1. rewrite bool_decide_eq_false_2 by done. rewrite Hf.
  rewrite (bind_done _ _ _ _ _ (mycpu_thread _ _ _ _ _ Ht2)), run_gets.
  rewrite He, (bind_done _ _ _ _ _ Hr).
  by rewrite (bind_done _ _ _ _ _ (mycpu_thread _ _ _ _ _ Ht3)).
Qed.

(** [purge_queue] on the run queue of a lone process that stays runnable. *)
Lemma purge_keeps i e hs s L q p :
  thread i 1 false e hs s → QLock q ∉ hs → qrep (kcore s) L → L q = [p] →
  state (procs (kcore s) p) = RUNNABLE →
  ∃ s', purge_queue q s = Done ((), s') ∧ thread i 1 false e hs s' ∧ kcore s' = kcore s.
Proof.
  intros Ht Hq HL Hl Hst.
  destruct (acquire_thread i 1 false e hs (QLock q) s Ht sh1 Hq) as (s1 & Ha & Hc1 & Ht1).
  rewrite sav_pos in Ht1 by lia.
  destruct (release_thread i 1 e hs (QLock q) s1 Ht1) as (s2 & Hr & Hc2 & Ht2); [lia|done|].
  pose proof (HL q) as Hr1. rewrite Hl in Hr1. destruct (qr_links _ _ _ Hr1) as (_ & Hn & _).
  exists s2. split; [|split; [done|congruence]].
  unfold purge_queue. rewrite (bind_done _ _ _ _ _ Ha), run_gets, Hc1, (qr_head _ _ _ Hr1).
  unfold FUEL. cbn [hd_or purge_walk]. rewrite run_gets, Hc1.
  rewrite bool_decide_eq_false_2 by (rewrite Hst; tauto).
  rewrite run_ret, run_gets, Hc1, Hn. cbn [hd_or NPROC purge_walk]. exact Hr.
Qed.

(** ... and on that of a lone process that stopped running. *)
Lemma purge_removes i e hs s L q p :
  thread i 1 false e hs s → QLock q ∉ hs → CheckLock ∉ hs → qrep (kcore s) L → L q = [p] →
  state (procs (kcore s) p) ≠ RUNNABLE → state (procs (kcore s) p) ≠ RUNNING →
  ∃ s', purge_queue q s = Done ((), s') ∧ thread i 1 false e hs s' ∧
        qrep (kcore s') (<[q := []]> L) ∧ removed (kcore s) (kcore s') q p [p].
Proof.
  intros Ht Hq Hc HL Hl Hst Hst'.
  destruct (acquire_thread i 1 false e hs (QLock q) s Ht sh1 Hq) as (s1 & Ha & Hc1 & Ht1).
  rewrite sav_pos in Ht1 by lia.
  destruct (release_thread i 1 e hs (QLock q) s1 Ht1) as (s2 & Hr & Hc2 & Ht2); [lia|done|].
  cbn [Z.eqb andb] in Ht2.
  destruct (remove_all i 1 false e hs s2 L q p) as (s3 & Hrm & Ht3 & HL3 & HR);
    [done|apply sh1|apply sh2|done|done|by rewrite Hc2, Hc1|rewrite Hl; by constructor
    |by rewrite Hc2, Hc1|].
  rewrite sav_pos in Ht3 by lia.
  destruct (acquire_thread i 1 false e hs (QLock q) s3 Ht3 sh1 Hq) as (s4 & Ha4 & Hc4 & Ht4).
  rewrite sav_pos in Ht4 by lia.
  destruct (release_thread i 1 e hs (QLock q) s4 Ht4) as (s5 & Hr5 & Hc5 & Ht5); [lia|done|].
  assert (Hsp : spec_remove p (L q) = []).
  { rewrite Hl. unfold spec_remove. by rewrite filter_cons, decide_False by tauto. }
  assert (Hn : next (procs (kcore s4) p) = None).
  { rewrite Hc4, (rm_old _ _ _ _ _ HR). unfold unclaimed. by case_match. }
  pose proof (HL q) as Hr1. rewrite Hl in Hr1.
  exists s5. split; [|split; [done|]].
  - unfold purge_queue. rewrite (bind_done _ _ _ _ _ Ha), run_gets, Hc1, (qr_head _ _ _ Hr1).
    unfold FUEL. cbn [hd_or purge_walk]. rewrite run_gets, Hc1.
    rewrite bool_decide_eq_true_2 by done.
    rewrite run_bind, (bind_done _ _ _ _ _ Hr), (bind_done _ _ _ _ _ Hrm), Ha4.
    rewrite run_gets, Hn. cbn [NPROC purge_walk]. exact Hr5.
  - rewrite Hc5, Hc4. rewrite Hsp in HL3. split; [done|].
    rewrite <- Hl. by rewrite <- Hc1, <- Hc2.
Qed.

Lemma spec_insert_same c c' new l : same c c' → spec_insert c' new l = spec_insert c new l.
Proof.
  intros HS.
  assert (Hgo : ∀ t, overtakes c' new t ↔ overtakes c new t).
  { intros t. unfold overtakes.
    by rewrite (same_field state c c' t), (same_field p_pri c c' t),
      (same_field p_pri c c' new), (same_field p_flag c c' new). }
  assert (Hin : ∀ l, ins_before c' new l = ins_before c new l).
  { induction l0 as [|t l0 IH]; cbn; [done|]. specialize (Hgo t).
    repeat case_decide; try tauto. by rewrite IH. }
  destruct l as [|h [|x l]]; cbn [spec_insert]; [done..|]. by rewrite Hin.
Qed.

Lemma spec_remove_single p : spec_remove p [p] = [].
Proof. unfold spec_remove. by rewrite filter_cons, decide_False by tauto. Qed.

Lemma requeue_runnable i e s L q p :
  thread i 1 false e [PtableLock] s → qrep (kcore s) L → L q = [p] → q ≠ ReadyQ →
  curr_cpu (procs (kcore s) p) = NOCPU → is_claimed (procs (kcore s) p) = false →
  state (procs (kcore s) p) = RUNNABLE →
  ∃ s', sched_requeue p s = Done ((), s') ∧ thread i 1 false e [PtableLock] s' ∧
    qrep (kcore s')
      (<[ReadyQ := spec_insert (kcore s) p (L ReadyQ)]> (<[q := []]> L)) ∧
    same (kcore s) (kcore s').
Proof.
  intros Ht HL Hl Hq Hcpu Hcl Hst.
  assert (Hin : p ∈ L q) by (rewrite Hl; by constructor).
  destruct (qr_member _ _ _ (HL q) p Hin) as [Hlt Hcu].
  destruct (remove_all i 1 false e [PtableLock] s L q p) as (s1 & Hrm & Ht1 & HL1 & HR);
    [done|apply sh1|apply sh2|notin|notin|done|done|congruence|].
  rewrite sav_pos in Ht1 by lia.
  pose proof (same_removed _ _ _ _ _ HR Hcl) as HS1.
  rewrite Hl, spec_remove_single in HL1.
  destruct (insert_all i 1 false e [PtableLock] s1 (<[q := []]> L) ReadyQ p)
    as (s2 & Hins & Ht2 & HL2 & HF); [done|apply sh1|notin|done| |done| | |].
  { intros q'. rewrite upd_list. case_decide; [apply not_elem_of_nil|].
    eapply qrep_other; eauto. }
  { by rewrite (same_field state _ _ p (λ _, eq_refl) HS1), Hst. }
  { rewrite (rm_old _ _ _ _ _ HR). unfold unclaimed. case_match; cbn; congruence. }
  rewrite sav_pos in Ht2 by lia.
  exists s2. split; [|split; [done|split]].
  - unfold sched_requeue. rewrite run_gets, Hcpu. cbn [NOCPU Z.eqb Pos.eqb negb].
    rewrite run_ret, run_gets. rewrite bool_decide_eq_false_2 by (by rewrite Hst).
    rewrite Hst, Hcu, (bool_decide_eq_true_2 (RUNNABLE = RUNNABLE)),
      (bool_decide_eq_false_2 (Some q = None)) by done. cbn [andb negb].
    by rewrite (bind_done _ _ _ _ _ Hrm).
  - rewrite (spec_insert_same _ _ _ _ HS1) in HL2.
    rewrite upd_list, decide_False in HL2 by done. done.
  - eapply same_trans; [done|]. by eapply same_framed.
Qed.

Lemma requeue_preempted i e s L p :
  thread i 1 false e [PtableLock] s → qrep (kcore s) L → (∀ q, p ∉ L q) →
  (p < NPROC)%nat → curr_cpu (procs (kcore s) p) = NOCPU →
  state (procs (kcore s) p) = PREEMPTED →
  let c1 := updp p (set_curr None) (updp p (set_state RUNNABLE)
              (updp p (set_p_pri LOW_USER_PRIORITY) (kcore s))) in
  ∃ s', sched_requeue p s = Done ((), s') ∧ thread i 1 false e [PtableLock] s' ∧
    qrep (kcore s') (<[ReadyQ := spec_insert c1 p (L ReadyQ)]> L) ∧ same c1 (kcore s').
Proof.
  intros Ht HL Hno Hlt Hcpu Hst c1.
  assert (HL1 : qrep c1 L).
  { intros q. eapply (qrepr_other (kcore s)); [|done|by apply Hno|apply HL].
    intros x Hx. subst c1. by rewrite !procs_updp_ne by done. }
  destruct (insert_all i 1 false e [PtableLock] (set_core c1 s) L ReadyQ p)
    as (s2 & Hins & Ht2 & HL2 & HF); [done|apply sh1|notin|done|done|done| | |].
  { subst c1. cbn [kcore set_core]. by rewrite !procs_updp_eq. }
  { subst c1. cbn [kcore set_core]. by rewrite !procs_updp_eq. }
  rewrite sav_pos in Ht2 by lia.
  exists s2. split; [|split; [done|split; [done|by eapply same_framed]]].
  unfold sched_requeue. rewrite run_gets, Hcpu. cbn [NOCPU Z.eqb Pos.eqb negb].
  rewrite run_ret, run_gets, bool_decide_eq_true_2 by done. exact Hins.
Qed.

Lemma runqueue_ok i (s : ks) : (i < NCPU)%nat → runqueue (Z.of_nat i) s = Done (RunQ i, s).
Proof.
  intros Hi. unfold runqueue. rewrite (proj2 (Z.leb_le _ _)), (proj2 (Z.ltb_lt _ _)) by lia.
  cbn [andb]. by rewrite Nat2Z.id.
Qed.

Lemma curproc_thread i n b e hs s p :
  thread i n b e hs s → shallow n b → cpu_proc (kcore s) i = Some p →
  ∃ s', curproc s = Done (p, s') ∧ kcore s' = kcore s ∧ thread i n b (sav n b e) hs s'.
Proof.
  intros Ht Hsh Hp. destruct (myproc_thread i n b e hs s Ht Hsh) as (s' & Hr & Hc & Ht').
  exists s'. split; [|done]. unfold curproc. by rewrite (bind_done _ _ _ _ _ Hr), Hp.
Qed.

(** A change of [state] (or of any field but the links) keeps every queue. *)
Lemma qrep_updp c L p f :
  (∀ x, next (f x) = next x ∧ prev (f x) = prev x ∧ curr (f x) = curr x) →
  qrep c L → qrep (updp p f c) L.
Proof.
  intros Hf. apply qrep_ext; [|done]. intros x. rewrite procs_updp.
  case_decide; [subst; apply Hf|done].
Qed.

(** a process that yields leaves its processor's run queue and is queued
    again on the ready queue by [spec_insert]; it is RUNNABLE, no other field
    of any process changes, and control passes to the scheduler with exactly
    [ptable.lock] held, interrupts off and one [pushcli] outstanding.  What is
    left to run afterwards is to restore [intena] and release the lock. *)
Theorem yield_refines i e s L p :
  thread i 0 true e [] s → (i < NCPU)%nat → qrep (kcore s) L → L (RunQ i) = [p] →
  cpu_proc (kcore s) i = Some p → curr_cpu (procs (kcore s) p) = NOCPU →
  is_claimed (procs (kcore s) p) = false →
  let c1 := updp p (set_state RUNNABLE) (kcore s) in
  ∃ s', yield s = (_ ← (_ ← swtch None; restore_intena true); release PtableLock) s' ∧
    thread i 1 false true [PtableLock] s' ∧
    qrep (kcore s')
      (<[ReadyQ := spec_insert c1 p (L ReadyQ)]> (<[RunQ i := []]> L)) ∧
    same c1 (kcore s').
Proof.
  intros Ht Hi HL Hl Hp Hcpu Hcl c1.
  destruct (acquire_thread i 0 true e [] PtableLock s Ht (sh0 _)) as (s1 & Ha & Hc1 & Ht1);
    [notin|].
  destruct (curproc_thread i 1 false true [PtableLock] s1 p Ht1 sh1)
    as (s2 & Hcp & Hc2 & Ht2); [by rewrite Hc1|]. rewrite sav_pos in Ht2 by lia.
  assert (HL1 : qrep c1 L) by (by apply qrep_updp).
  assert (Hst1 : state (procs c1 p) = RUNNABLE)
    by (subst c1; by rewrite procs_updp_eq).
  destruct (purge_keeps i true [PtableLock] (set_core c1 s2) L (RunQ i) p)
    as (s3 & Hpu & Ht3 & Hc3); [done|notin|done..|]. cbn [kcore set_core] in Hc3.
  destruct (sched_run i true s3 p
    (λ c, qrep c (<[ReadyQ := spec_insert c1 p (L ReadyQ)]> (<[RunQ i := []]> L)) ∧
          same c1 c)) as (s4 & Hs & Ht4 & HP); try done.
  { by rewrite Hc3. }
  { rewrite Hc3, Hst1. done. }
  { intros s0 Ht0 Hc0. rewrite Hc3 in Hc0. rewrite <- Hc0.
    apply requeue_runnable; rewrite ?Hc0; try done;
      subst c1; by rewrite procs_updp_eq. }
  exists s4. split; [|done]. unfold yield.
  rewrite (bind_done _ _ _ _ _ Ha). unfold cpuid.
  rewrite (bind_done _ _ _ _ _ (mycpu_thread _ _ _ _ _ Ht1)), (bind_done _ _ _ _ _ Hcp).
  rewrite run_assign, Hc2, Hc1. fold c1.
  rewrite (bind_done _ _ _ _ _ (runqueue_ok i _ Hi)), (bind_done _ _ _ _ _ Hpu).
  rewrite run_bind, Hs. done.
Qed.

(** Preempting and requeueing differs from demoting in place by links only. *)
Lemma same_demoted c c' p :
  same (updp p (set_state PREEMPTED) c) c' →
  same (updp p (set_p_pri LOW_USER_PRIORITY) (updp p (set_state RUNNABLE) c))
       (updp p (set_curr None) (updp p (set_state RUNNABLE)
          (updp p (set_p_pri LOW_USER_PRIORITY) c'))).
Proof.
  intros [Hp Hg]. split; [|done]. intros x. specialize (Hp x).
  destruct (decide (x = p)) as [->|Hne].
  - rewrite procs_updp_eq in Hp. rewrite !procs_updp_eq.
    exact (f_equal (λ z, set_state RUNNABLE (set_p_pri LOW_USER_PRIORITY z)) Hp).
  - rewrite procs_updp_ne in Hp by done. by rewrite !procs_updp_ne by done.
Qed.

(** a preempted process drops to the lowest user priority, leaves its run
    queue and is queued again as RUNNABLE; control passes to the scheduler as
    in [yield]. *)
Theorem preempt_refines i b e s L p :
  thread i 0 b e [] s → (i < NCPU)%nat → qrep (kcore s) L → L (RunQ i) = [p] →
  cpu_proc (kcore s) i = Some p → curr_cpu (procs (kcore s) p) = NOCPU →
  is_claimed (procs (kcore s) p) = false →
  let c1 := updp p (set_p_pri LOW_USER_PRIORITY) (updp p (set_state RUNNABLE) (kcore s)) in
  ∃ s', preempt s = (_ ← (_ ← swtch None; restore_intena b); release PtableLock) s' ∧
    thread i 1 false b [PtableLock] s' ∧
    qrep (kcore s')
      (<[ReadyQ := spec_insert c1 p (L ReadyQ)]> (<[RunQ i := []]> L)) ∧
    same c1 (kcore s').
Proof.
  intros Ht Hi HL Hl Hp Hcpu Hcl c1.
  destruct (acquire_thread i 0 b e [] PtableLock s Ht (sh0 _)) as (s1 & Ha & Hc1 & Ht1);
    [notin|].
  destruct (myproc_thread i 1 false b [PtableLock] s1 Ht1 sh1) as (s2 & Hmp & Hc2 & Ht2).
  rewrite sav_pos in Ht2 by lia. set (c0 := updp p (set_state PREEMPTED) (kcore s)).
  destruct (purge_removes i b [PtableLock] (set_core c0 s2) L (RunQ i) p)
    as (s3 & Hpu & Ht3 & HL3 & HR);
    [done|notin|notin|by apply qrep_updp|done
    |subst c0; cbn [kcore set_core]; by rewrite procs_updp_eq..|].
  cbn [kcore set_core] in HR.
  assert (HS : same c0 (kcore s3))
    by (eapply same_removed; [done|]; subst c0; by rewrite procs_updp_eq).
  destruct (sched_run i b s3 p
    (λ c, qrep c (<[ReadyQ := spec_insert c1 p (L ReadyQ)]> (<[RunQ i := []]> L)) ∧
          same c1 c)) as (s4 & Hs & Ht4 & HP); try done.
  { by rewrite (proj1 (proj2 (proj2 (proj2 (sm_globals _ _ HS))))). }
  { rewrite (same_field state _ _ p (λ _, eq_refl) HS). subst c0. by rewrite procs_updp_eq. }
  { intros s0 Ht0 Hc0.
    destruct (requeue_preempted i b s0 (<[RunQ i := []]> L) p) as (s5 & Hr & Ht5 & HL5 & HS5);
      rewrite ?Hc0; try done.
    - intros q. rewrite upd_list. case_decide; [apply not_elem_of_nil|].
      eapply (qrep_other _ _ (RunQ i)); [done|rewrite Hl; by constructor|done].
    - eapply (qrep_lt _ L (RunQ i)); [done|rewrite Hl; by constructor].
    - rewrite (same_field curr_cpu _ _ p (λ _, eq_refl) HS). subst c0. by rewrite procs_updp_eq.
    - rewrite (same_field state _ _ p (λ _, eq_refl) HS). subst c0. by rewrite procs_updp_eq.
    - exists s5. split; [done|]. split; [done|].
      pose proof (same_demoted _ _ _ HS) as HD. rewrite Hc0 in HL5, HS5.
      rewrite (spec_insert_same _ _ _ _ HD), upd_list, decide_False in HL5 by done.
      split; [done|by eapply same_trans]. }
  exists s4. split; [|done]. unfold preempt.
  rewrite (bind_done _ _ _ _ _ Ha), (bind_done _ _ _ _ _ Hmp), Hc1, Hp. unfold cpuid.
  rewrite (bind_done _ _ _ _ _ (mycpu_thread _ _ _ _ _ Ht2)), run_deref.
  rewrite run_assign, Hc2, Hc1. fold c0.
  rewrite (bind_done _ _ _ _ _ (runqueue_ok i _ Hi)), (bind_done _ _ _ _ _ Hpu).
  rewrite run_bind, Hs. done.
Qed.

(** ** Dispatching *)

(** Claiming a free process and unclaiming it on removal cancel out. *)
Lemma unclaimed_claimed k x :
  is_claimed x = false → curr_cpu x = NOCPU → unlinked (unclaimed (claimed k x)) = unlinked x.
Proof.
  unfold is_claimed, c_true. intros Hcl Hcpu.
  apply negb_false_iff, Z.eqb_eq in Hcl. unfold unclaimed, is_claimed, claimed, IN_QUEUE in *.
  cbn [queue_mask set_curr_cpu set_queue_mask].
  assert (H1 : Z.land (Z.lor (queue_mask x) 1) 1 = 1)
    by (rewrite Z.land_lor_distr_l, Hcl; done).
  assert (H2 : Z.land (Z.lor (queue_mask x) 1) (Z.lnot 1) = queue_mask x).
  { rewrite Z.land_lor_distr_l. change (Z.land 1 (Z.lnot 1)) with 0. rewrite Z.lor_0_r.
    rewrite <- Z.ldiff_land.
    apply Z.bits_inj'. intros n Hn. rewrite Z.ldiff_spec.
    apply (f_equal (λ z, Z.testbit z n)) in Hcl. rewrite Z.land_spec, Z.bits_0 in Hcl.
    by destruct (Z.testbit (queue_mask x) n), (Z.testbit 1 n). }
  rewrite H1. cbn [c_true Z.eqb negb]. rewrite H2. destruct x. cbn in Hcpu. by subst.
Qed.

Lemma spec_remove_head c q p l : qrepr c q (p :: l) → spec_remove p (p :: l) = l.
Proof. intros H. apply (spec_remove_split p [] l). apply H. Qed.

Lemma take_ready_run i e s L p rest :
  thread i 0 true e [] s → qrep (kcore s) L → L ReadyQ = p :: rest → L (RunQ i) = [] →
  p_sig (procs (kcore s) p) = 0 → state (procs (kcore s) p) ≠ RUNNING →
  curr_cpu (procs (kcore s) p) = NOCPU → is_claimed (procs (kcore s) p) = false →
  ∃ s', take_ready i p s = Done ((), s') ∧ thread i 0 true true [] s' ∧
    qrep (kcore s') (<[RunQ i := [p]]> (<[ReadyQ := rest]> L)) ∧ same (kcore s) (kcore s').
Proof.
  intros Ht HL Hl Hrun Hsig Hst Hcpu Hcl.
  assert (Hin : p ∈ L ReadyQ) by (rewrite Hl; by constructor).
  destruct (qr_member _ _ _ (HL ReadyQ) p Hin) as [Hlt Hcu].
  destruct (claim_thread i 0 true e [] p (Z.of_nat i) s Ht (sh0 _)) as (s1 & Hcla & Ht1 & Hc1);
    [set_solver|done|]. cbn [sav Z.eqb] in Ht1.
  assert (HL1 : qrep (kcore s1) L) by (rewrite Hc1; apply qrep_updp; [done|by apply qrep_updp]).
  destruct (remove_all i 0 true true [] s1 L ReadyQ p) as (s2 & Hrm & Ht2 & HL2 & HR);
    [done|apply sh0|apply sh1|notin|notin|done|done
    |by rewrite Hc1, !procs_updp_eq|].
  assert (HS2 : same (kcore s) (kcore s2)).
  { split.
    - intros x. destruct (decide (x = p)) as [->|Hne].
      + rewrite (rm_old _ _ _ _ _ HR), Hc1, !procs_updp_eq.
        by apply (unclaimed_claimed (Z.of_nat i) (set_prev None (set_next None (procs (kcore s) p)))).
      + destruct (rm_fields _ _ _ _ _ HR x Hne) as [-> _].
        by rewrite Hc1, !procs_updp_ne.
    - destruct (rm_globals _ _ _ _ _ HR) as (-> & -> & -> & -> & ->). by rewrite Hc1. }
  rewrite Hl, (spec_remove_head (kcore s) ReadyQ) in HL2 by (rewrite <- Hl; apply HL).
  destruct (insert_all i 0 true true [] s2 (<[ReadyQ := rest]> L) (RunQ i) p)
    as (s3 & Hins & Ht3 & HL3 & HF); [done|apply sh0|notin|done| |done| | |].
  { intros q'. rewrite upd_list. case_decide as Hq.
    - pose proof (qr_nodup _ _ _ (HL ReadyQ)) as Hnd. rewrite Hl in Hnd.
      by apply NoDup_cons in Hnd as [? _].
    - by eapply (qrep_other _ _ ReadyQ). }
  { by rewrite (same_field state _ _ p (λ _, eq_refl) HS2). }
  { rewrite (rm_old _ _ _ _ _ HR). unfold unclaimed.
    case_match; [done|]. cbn. rewrite Hc1, !procs_updp_eq. cbn. congruence. }
  exists s3. split; [|split; [done|split]].
  - unfold take_ready, signals_pending. rewrite run_gets, Hsig. cbn [c_true Z.eqb negb].
    rewrite run_ret, run_gets, bool_decide_eq_true_2 by done.
    rewrite (bind_done _ _ _ _ _ Hcla). cbn [c_true Z.eqb negb].
    by rewrite (bind_done _ _ _ _ _ Hrm).
  - rewrite upd_list, decide_False, Hrun in HL3 by done. exact HL3.
  - eapply same_trans; [done|]. by eapply same_framed.
Qed.

Lemma switchuvm_run i n b e hs p s :
  thread i n b e hs s → shallow n b →
  kstack (procs (kcore s) p) ≠ 0 → pgdir (procs (kcore s) p) ≠ 0 →
  ∃ s', switchuvm (Some p) s = Done ((), s') ∧ kcore s' = kcore s ∧
        thread i n b (sav n b e) hs s'.
Proof.
  intros Ht Hsh Hk Hpg.
  destruct (pushpop_thread i n b e hs s Ht Hsh) as (s1 & s2 & Hp & Hq & _ & Ht2 & _ & Hc2).
  exists s2. split; [|done]. unfold switchuvm. rewrite run_gets.
  rewrite (proj2 (Z.eqb_neq _ _) Hk), (proj2 (Z.eqb_neq _ _) Hpg).
  by rewrite (bind_done _ _ _ _ _ Hp).
Qed.

Lemma dispatch_run i e s L p :
  thread i 0 true e [] s → qrep (kcore s) L → L (RunQ i) = [p] →
  kstack (procs (kcore s) p) ≠ 0 → pgdir (procs (kcore s) p) ≠ 0 →
  let c1 := updp p (set_state RUNNING) (with_cpu_proc i (Some p) (kcore s)) in
  ∃ s', dispatch i s = (_ ← swtch (Some p); after_swtch i) s' ∧
    thread i 1 false true [PtableLock] s' ∧ kcore s' = c1.
Proof.
  intros Ht HL Hl Hk Hpg c1.
  destruct (switchuvm_run i 0 true e [] p (set_core (with_cpu_proc i (Some p) (kcore s)) s))
    as (s1 & Hsw & Hc1 & Ht1); [done|apply sh0|done..|]. cbn [sav Z.eqb] in Ht1.
  destruct (acquire_thread i 0 true true [] PtableLock s1 Ht1 (sh0 _)) as (s2 & Ha & Hc2 & Ht2);
    [notin|].
  exists (set_core c1 s2). split; [|done].
  pose proof (qr_head _ _ _ (HL (RunQ i))) as Hh. rewrite Hl in Hh. cbn [hd_or] in Hh.
  unfold dispatch, is_queue_empty. rewrite run_gets, Hh, bool_decide_eq_false_2 by done.
  rewrite run_assign.
  rewrite (bind_done _ _ _ _ _ Hsw), (bind_done _ _ _ _ _ Ha), run_deref.
  by rewrite run_assign, Hc2, Hc1.
Qed.

(** C21: when a process is ready and nothing is on this processor's run queue,
    one pass of the scheduler takes the head of the ready queue, whatever its
    priority, and switches to it: it is RUNNING, the only process on this
    processor's run queue and the processor's current process, and the switch
    happens with exactly [ptable.lock] held. *)
Theorem main_pass_dispatches i e s L p rest :
  thread i 0 true e [] s → qrep (kcore s) L → L ReadyQ = p :: rest → L (RunQ i) = [] →
  p_sig (procs (kcore s) p) = 0 → state (procs (kcore s) p) ≠ RUNNING →
  curr_cpu (procs (kcore s) p) = NOCPU → is_claimed (procs (kcore s) p) = false →
  kstack (procs (kcore s) p) ≠ 0 → pgdir (procs (kcore s) p) ≠ 0 →
  let c1 := updp p (set_state RUNNING) (with_cpu_proc i (Some p) (kcore s)) in
  ∃ s', main_pass i s = (_ ← swtch (Some p); after_swtch i) s' ∧
    thread i 1 false true [PtableLock] s' ∧
    qrep (kcore s') (<[RunQ i := [p]]> (<[ReadyQ := rest]> L)) ∧
    same c1 (kcore s') ∧ cpu_proc (kcore s') i = Some p.
Proof.
  intros Ht HL Hl Hrun Hsig Hst Hcpu Hcl Hk Hpg c1.
  destruct (take_ready_run i e s L p rest) as (s1 & Htk & Ht1 & HL1 & HS1); try done.
  destruct (dispatch_run i true s1 _ p Ht1 HL1) as (s2 & Hd & Ht2 & Hc2).
  { by rewrite upd_list, decide_True. }
  { by rewrite (same_field kstack _ _ p (λ _, eq_refl) HS1). }
  { by rewrite (same_field pgdir _ _ p (λ _, eq_refl) HS1). }
  exists s2. split_and!.
  - pose proof (qr_head _ _ _ (HL ReadyQ)) as Hh. rewrite Hl in Hh. cbn [hd_or] in Hh.
    unfold main_pass. rewrite run_gets. unfold is_queue_empty at 1.
    rewrite Hh, bool_decide_eq_false_2 by done. cbn [andb].
    rewrite (bind_done _ _ _ _ _ Htk). exact Hd.
  - done.
  - rewrite Hc2. apply qrep_updp; [done|]. by apply (qrep_ext (kcore s1)).
  - rewrite Hc2. apply same_updp; [done|]. destruct HS1 as [Hp (H1 & H2 & H3 & H4 & H5)].
    split; [done|]. cbn. by rewrite H4.
  - rewrite Hc2. cbn. apply fn_lookup_insert.
Qed.

(** when the process that ran has left the run queue empty, the scheduler
    takes back the processor: no current process, every lock released,
    interrupts as the process had them. *)
Theorem after_swtch_idle i e s L :
  thread i 1 false e [PtableLock] s → qrep (kcore s) L → L (RunQ i) = [] →
  ∃ s', after_swtch i s = Done (true, s') ∧ thread i 0 e e [] s' ∧
        kcore s' = with_cpu_proc i None (kcore s).
Proof.
  intros Ht HL Hl.
  destruct (acquire_thread i 1 false e [PtableLock] (QLock (RunQ i)) s Ht sh1)
    as (s1 & Ha & Hc1 & Ht1); [notin|]. rewrite sav_pos in Ht1 by lia.
  destruct (release_thread i 1 e [PtableLock] (QLock (RunQ i)) s1 Ht1)
    as (s2 & Hr & Hc2 & Ht2); [lia|notin|].
  destruct (release_thread i 0 e [] PtableLock (set_core (with_cpu_proc i None (kcore s)) s2))
    as (s3 & Hr3 & Hc3 & Ht3); [done|lia|notin|].
  pose proof (qr_head _ _ _ (HL (RunQ i))) as Hh. rewrite Hl in Hh.
  exists s3. split; [|done].
  unfold after_swtch. rewrite (bind_done _ _ _ () s2).
  - rewrite run_assign, Hc2, Hc1. by rewrite (bind_done _ _ _ _ _ Hr3).
  - unfold shift_queue, head_running. rewrite run_gets, Hh. cbn [hd_or].
    by rewrite (bind_done _ _ _ _ _ Ha).
Qed.

(** ** Signal delivery *)

(** The process after delivery of its pending signals, SIGCPU not among
    them. *)
Definition deliver (x : proc) : proc :=
  let ignored := c_true (p_ign x) && c_true (Z.land (p_ign x) (p_sig x)) in
  let x := if fatal_pending x then set_killed 1 x else x in
  if ignored then set_p_sig 0 x else set_killed 1 x.

Lemma updp_twice p f g c : updp p f (updp p g c) = updp p (λ x, f (g x)) c.
Proof.
  unfold updp, with_procs. cbn. f_equal. rewrite fn_lookup_insert.
  apply functional_extensionality. intros x. destruct (decide (p = x)) as [->|Hne].
  - by rewrite !fn_lookup_insert.
  - by rewrite !fn_lookup_insert_ne.
Qed.

(** delivery of the signals pending for a process, SIGCPU not among them:
    a fatal signal (SIGKILL, SIGSEG, SIGPIPE) kills whatever is ignored; any
    other one kills unless it meets the ignore mask, in which case all pending
    signals are dropped.  Nothing else changes. *)
Theorem handle_signals_delivers p s :
  Z.land (p_sig (procs (kcore s) p)) SIGCPU = 0 →
  ∃ s', handle_signals p s = Done ((), s') ∧
    klocks s' = klocks s ∧ kmach s' = kmach s ∧ queues (kcore s') = queues (kcore s) ∧
    (∀ x, procs (kcore s') x =
          if decide (x = p) then deliver (procs (kcore s) p) else procs (kcore s) x) ∧
    (fatal_pending (procs (kcore s) p) = true → killed (procs (kcore s') p) = 1).
Proof.
  intros Hcpu.
  exists (set_core (updp p deliver (kcore s)) s). split.
  - unfold handle_signals. rewrite run_gets.
    set (c1 := if fatal_pending (procs (kcore s) p) then updp p (set_killed 1) (kcore s)
               else kcore s).
    rewrite (bind_done _ _ s () (set_core c1 s)).
    2:{ subst c1. destruct (fatal_pending _); [done|]. by destruct s. }
    assert (H1 : p_sig (procs c1 p) = p_sig (procs (kcore s) p))
      by (subst c1; destruct (fatal_pending _); by rewrite ?procs_updp_eq).
    assert (H2 : p_ign (procs c1 p) = p_ign (procs (kcore s) p))
      by (subst c1; destruct (fatal_pending _); by rewrite ?procs_updp_eq).
    rewrite run_gets. cbn [kcore set_core]. rewrite H1, Hcpu. cbn [c_true Z.eqb negb].
    rewrite run_ret, run_gets. cbn [kcore set_core]. rewrite H1, H2.
    assert (HU : ∀ f, (if fatal_pending (procs (kcore s) p) then f (set_killed 1 (procs (kcore s) p))
                       else f (procs (kcore s) p)) = deliver (procs (kcore s) p) →
                 liftc (modS (updp p f)) (set_core c1 s) =
                 Done ((), set_core (updp p deliver (kcore s)) s)).
    { intros f Hf. unfold liftc, modS. cbn [kcore set_core]. rewrite set_core_set_core.
      do 3 f_equal. subst c1. destruct (fatal_pending _).
      - rewrite updp_twice. unfold updp. by rewrite Hf.
      - unfold updp. by rewrite Hf. }
    unfold c_true. destruct (p_ign (procs (kcore s) p) =? 0) eqn:Hi; cbn [negb];
      [|destruct (negb (Z.land _ _ =? 0)) eqn:Hl];
      apply HU; unfold deliver, c_true; rewrite ?Hi, ?Hl; cbn [negb andb];
      by destruct (fatal_pending _).
  - split_and!; try done.
    + intros x. cbn [kcore set_core]. rewrite procs_updp.
      case_decide; case_decide; congruence.
    + intros Hf. cbn [kcore set_core]. rewrite procs_updp_eq. unfold deliver. rewrite Hf.
      by destruct (_ && _).
Qed.

(** the scheduler cannot deliver SIGCPU: it calls [handle_signals] without
    [ptable.lock], which [handle_signals] releases. *)
Theorem sigcpu_stops_scheduler i e s p :
  thread i 0 true e [] s → signals_pending p (kcore s) = true →
  Z.land (p_sig (procs (kcore s) p)) SIGCPU ≠ 0 →
  take_ready i p s = Panicked "release".
Proof.
  intros Ht Hsig Hcpu. unfold take_ready. rewrite run_gets, Hsig. apply bind_panicked.
  unfold handle_signals. rewrite run_gets.
  set (c1 := if fatal_pending (procs (kcore s) p) then updp p (set_killed 1) (kcore s)
             else kcore s).
  rewrite (bind_done _ _ s () (set_core c1 s)).
  2:{ subst c1. destruct (fatal_pending _); [done|]. by destruct s. }
  rewrite run_gets. cbn [kcore set_core].
  assert (H1 : p_sig (procs c1 p) = p_sig (procs (kcore s) p))
    by (subst c1; destruct (fatal_pending _); by rewrite ?procs_updp_eq).
  unfold c_true. rewrite H1, (proj2 (Z.eqb_neq _ _) Hcpu). cbn [negb].
  apply bind_panicked. rewrite run_assign. apply bind_panicked.
  destruct Ht as [Hm Hk].
  apply (release_not_held i 0 true e); [done|split; lia|]. by cbn; rewrite Hk, decide_False by set_solver.
Qed.
End sched.

(** ** The CPU average *)

Fixpoint record_exits (l : list Z) : M sys () :=
  match l with
  | [] => mret ()
  | t :: l => _ ← update_cpu_avg t; record_exits l
  end.

Definition sumz (l : list Z) : Z := foldr Z.add 0 l.

Lemma record_exits_run l c n tot :
  c_avg c = CpuAvg tot n (avg (c_avg c)) → 0 ≤ tot → 0 ≤ n → Forall (λ t, 0 ≤ t) l →
  tot + sumz l < 2 ^ 32 → n + Z.of_nat (length l) < 2 ^ 32 →
  ∃ c', record_exits l c = Done ((), c') ∧
        total_cpu_time (c_avg c') = tot + sumz l ∧ n_procs (c_avg c') = n + Z.of_nat (length l) ∧
        (l ≠ [] → avg (c_avg c') = (tot + sumz l) / (n + Z.of_nat (length l))).
Proof.
  revert c n tot. induction l as [|t l IH]; intros c n tot Hc Htot Hn Hl Hs Hlen; cbn in *.
  - exists c. rewrite Hc. cbn. split_and!; [done|lia|lia|done].
  - change (foldr Z.add 0 l) with (sumz l) in *. apply Forall_cons in Hl as [Ht Hl].
    assert (0 ≤ sumz l) by (clear - Hl; induction Hl; cbn; unfold sumz in *; lia).
    set (c1 := with_avg (CpuAvg (tot + t) (n + 1) ((tot + t) / (n + 1))) c).
    destruct (IH c1 (n + 1) (tot + t)) as (c' & Hrun & H1 & H2 & H3); try done; try lia.
    exists c'. split_and!; try lia.
    + rewrite (bind_done _ _ _ () c1); [done|].
      unfold update_cpu_avg. rewrite run_gets, Hc. cbn [total_cpu_time n_procs].
      rewrite (u32_small t), (u32_small (tot + t)), (u32_small (n + 1)) by lia.
      rewrite (proj2 (Z.eqb_neq _ _)) by lia. unfold modS. subst c1.
      by rewrite Z.quot_div_nonneg by lia.
    + intros _. destruct l as [|t' l']; [|rewrite H3 by done; f_equal; lia].
      cbn in Hrun. injection Hrun as <-. subst c1. cbn. f_equal; lia.
Qed.

(** after processes with tick counts [l] have exited, and as long as
    neither the sum nor the count wraps, the average is the mean of [l]. *)
Theorem cpu_avg_is_mean l c :
  l ≠ [] → Forall (λ t, 0 ≤ t) l → sumz l < 2 ^ 32 → Z.of_nat (length l) < 2 ^ 32 →
  ∃ c0 c', init_cpu_avg_counter c = Done ((), c0) ∧ record_exits l c0 = Done ((), c') ∧
           get_cpu_avg c' = sumz l / Z.of_nat (length l).
Proof.
  intros Hne Hl Hs Hlen. exists (with_avg (CpuAvg 0 0 25) c).
  destruct (record_exits_run l (with_avg (CpuAvg 0 0 25) c) 0 0)
    as (c' & Hrun & _ & _ & Havg); [done|lia|lia|done|lia|lia|].
  exists c'. split; [done|]. split; [done|]. unfold get_cpu_avg. by rewrite Havg.
Qed.

(** ** Witnesses *)

Definition running_proc : proc := set_state RUNNING (ready_proc (RunQ 0)).

Definition one_running : ks := idle_thread true (one_queued (RunQ 0) 3 running_proc).

Lemma yield_refines_witness :
  ∃ s', yield (λ _, mret ()) one_running =
          (_ ← (_ ← mret (); restore_intena true); release PtableLock) s' ∧
        qrepr (kcore s') ReadyQ [3%nat].
Proof.
  destruct (yield_refines (λ _, mret ()) 0 true one_running (<[RunQ 0 := [3%nat]]> (λ _, [])) 3)
    as (s' & Hrun & _ & HL & _);
    [apply idle_thread_ok|unfold NCPU; lia
    |apply one_queued_qrep; [unfold NPROC; lia|done..]|reflexivity..|].
  exists s'. split; [exact Hrun|]. exact (HL ReadyQ).
Defined.

Lemma preempt_refines_witness :
  ∃ s', preempt (λ _, mret ()) one_running =
          (_ ← (_ ← mret (); restore_intena true); release PtableLock) s' ∧
        qrepr (kcore s') ReadyQ [3%nat].
Proof.
  destruct (preempt_refines (λ _, mret ()) 0 true true one_running (<[RunQ 0 := [3%nat]]> (λ _, [])) 3)
    as (s' & Hrun & _ & HL & _);
    [apply idle_thread_ok|unfold NCPU; lia
    |apply one_queued_qrep; [unfold NPROC; lia|done..]|reflexivity..|].
  exists s'. split; [exact Hrun|]. exact (HL ReadyQ).
Defined.

Lemma main_pass_dispatches_witness :
  ∃ s', main_pass (λ _, mret ()) 0 one_ready = (_ ← mret (); after_swtch 0) s' ∧
        qrepr (kcore s') (RunQ 0) [3%nat].
Proof.
  destruct (main_pass_dispatches (λ _, mret ()) 0 true one_ready
    (<[ReadyQ := [3%nat]]> (λ _, [])) 3 []) as (s' & Hrun & _ & HL & _);
    [apply idle_thread_ok|apply one_queued_qrep; [unfold NPROC; lia|done..]
    |reflexivity|reflexivity|reflexivity|discriminate|reflexivity|reflexivity
    |discriminate|discriminate|].
  exists s'. split; [exact Hrun|]. exact (HL (RunQ 0)).
Defined.

(** The scheduler's side of a switch: [ptable.lock] held, nothing queued. *)
Definition switched_back : ks :=
  Kst (Mach (λ _, Cpu 0 1 true) 1 0 false)
    (<[PtableLock := lock_held 0]> (λ _, lock_free)) boot_sys.

Lemma after_swtch_idle_witness : ∃ s', after_swtch 0 switched_back = Done (true, s').
Proof.
  destruct (after_swtch_idle 0 true switched_back (λ _, [])) as (s' & Hrun & _); try done.
  - split; [done|]. intros k. cbn. destruct (decide (PtableLock = k)) as [<-|Hne].
    + by rewrite fn_lookup_insert.
    + rewrite fn_lookup_insert_ne by done. by rewrite decide_False by set_solver.
  - apply boot_qrep.
  - by exists s'.
Defined.

Definition signalled (m : Z) : ks :=
  idle_thread true (one_queued ReadyQ 3 (set_p_sig m (set_p_ign SIGINT (ready_proc ReadyQ)))).

Lemma handle_signals_delivers_witness :
  ∃ s', handle_signals (λ _, mret ()) 3 (signalled SIGKILL) = Done ((), s') ∧
        killed (procs (kcore s') 3) = 1.
Proof.
  destruct (handle_signals_delivers (λ _, mret ()) 3 (signalled SIGKILL))
    as (s' & Hrun & _ & _ & _ & _ & Hk); [done|].
  exists s'. split; [done|]. by apply Hk.
Defined.

Lemma sigcpu_stops_scheduler_witness :
  take_ready (λ _, mret ()) 0 3 (signalled SIGCPU) = Panicked "release".
Proof. by apply (sigcpu_stops_scheduler (λ _, mret ()) 0 true). Defined.

Lemma cpu_avg_is_mean_witness :
  ∃ c0 c', init_cpu_avg_counter boot_sys = Done ((), c0) ∧
           record_exits [10; 20; 33] c0 = Done ((), c') ∧ get_cpu_avg c' = 21.
Proof. apply (cpu_avg_is_mean [10; 20; 33] boot_sys); try done. by repeat constructor. Defined.
