(* ===== verification/Proc.v ===== *)
(** * Processes: kernel/sched/proc.c

    Allocation, fork, exit, wait, sleep and wakeup, kill and signals.  The
    memory, file and log services these functions call are the operations of
    the class [ProcEnv], over a state [W] of their own; a call is [onw].  The
    calls into the scheduler take the context switch [swtch] of Sched.v.  The
    saved kernel context of a process ([p->context]) and its stack contents
    outside the trap frame are not part of the state, nor is the listing printed
    by [procdump]. *)
From stdpp Require Import base decidable option list functions numbers strings sets.
From Stdlib Require Import ZArith Lia.
From S2P Require Import Prelude CString Locks ProcDefs Queue Sched.

Local Open Scope Z_scope.

Definition SEG_UCODE : Z := 3.
Definition SEG_UDATA : Z := 4.
Definition DPL_USER : Z := 3.
Definition FL_IF : Z := 512.
Definition ROOTDEV : Z := 1.
Definition SECONDARYDEV : Z := 2.

(** ** Services of the other components *)

Class ProcEnv (W : Type) := {
  kalloc : M W Z;
  kfree : Z → M W ();
  setupkvm : M W Z;
  inituvm : Z → M W ();                    (* pgdir; the image is initcode *)
  copyuvm : Z → Z → M W Z;                 (* pgdir, sz *)
  allocuvm : Z → Z → Z → Z → M W Z;        (* pgdir, oldsz, newsz, flag *)
  deallocuvm : Z → Z → Z → M W Z;
  freevm : Z → M W ();
  tally_page_directory : Z → M W Z;
  filedup : nat → M W nat;
  fileclose : nat → M W ();
  namei_root : M W (option nat);           (* namei(1, "/") *)
  idup : option nat → M W (option nat);
  iput : option nat → M W ();
  begin_op : M W ();
  end_op : M W ();
  iinit : Z → Z → M W ();
  initlog : Z → M W ()
}.

(** The kernel thread, the services, and [forkret]'s static flag. *)
Record pst (W : Type) := Pst { pk : ks; pw : W; pfirst : bool }.
Arguments Pst {_} pk pw pfirst.
Arguments pk {_} _.
Arguments pw {_} _.
Arguments pfirst {_} _.

(** ** Operations on the kernel thread alone *)

Definition pinit : M ks () :=
  _ ← initlock PtableLock;
  liftc init_cpu_avg_counter.

(** The first UNUSED slot. *)
Definition find_unused (c : sys) : option nat :=
  List.find (λ i, bool_decide (state (procs c i) = UNUSED)) (seq 0 NPROC).

(** The locked part of [allocproc]. *)
Definition claim_slot : M ks (option nat) :=
  _ ← acquire PtableLock;
  c ← gets kcore;
  match find_unused c with
  | None => _ ← release PtableLock; mret None
  | Some p =>
      _ ← liftc (modS (updp p (set_state EMBRYO)));
      _ ← liftc (modS (updp p (set_pid (nextpid c))));
      _ ← liftc (modS (with_nextpid (s32 (nextpid c + 1))));
      _ ← release PtableLock;
      mret (Some p)
  end.

(** [p_pri] is a [char]. *)
Definition raise_pri (x : proc) : proc := set_p_pri (s8 (p_pri x + 1)) x.

(** [safestrcpy(dst, src, n)] on the bytes of two [name] arrays: the copy
    stops after a NUL or [n - 1] bytes, and one more NUL is stored. *)
Fixpoint copy_name (n : nat) (dst src : list Z) : list Z :=
  match n, dst, src with
  | S (S _ as n), _ :: dst, c :: src =>
      if c =? 0 then 0 :: <[0%nat := 0]> dst else c :: copy_name n dst src
  | S O, _ :: dst, _ => 0 :: dst
  | _, _, _ => dst
  end.

Section proc.
Context (swtch : option nat → M ks ()).

(** The loop of [wakeup1]; it follows [p->next] after [p] was moved. *)
Fixpoint wakeup_walk (fuel : nat) (ch : wchan) (this : option nat) : M ks () :=
  match fuel with
  | O => no_fuel
  | S fuel =>
      match this with
      | None => mret ()
      | Some p =>
          c ← gets kcore;
          _ ← (if bool_decide (state (procs c p) = SLEEPING) &&
                  bool_decide (chan (procs c p) = ch) then
                 _ ← remove_proc_from_queue p (Some SleepQ);
                 _ ← liftc (modS (updp p (set_state RUNNABLE)));
                 _ ← insert_proc_into_queue p (Some ReadyQ);
                 _ ← liftc (modS (updp p (set_p_flag URGENT)));
                 liftc (modS (updp p raise_pri))
               else if bool_decide (chan (procs c p) = ch) then panic "stuck proc"
               else mret ());
          nx ← gets (λ s, next (procs (kcore s) p));
          wakeup_walk fuel ch nx
      end
  end.

Definition wakeup1 (ch : wchan) : M ks () :=
  h ← gets (λ s, head (queues (kcore s) SleepQ));
  wakeup_walk FUEL ch h.

Definition wakeup (ch : wchan) : M ks () :=
  _ ← acquire PtableLock;
  _ ← wakeup1 ch;
  release PtableLock.

(** Take the current process off whatever queue it is on. *)
Definition leave_queue (p : nat) : M ks () :=
  c ← gets kcore;
  if negb (curr_cpu (procs c p) =? NOCPU) then
    q ← runqueue (curr_cpu (procs c p));
    _ ← remove_proc_from_queue p (Some q);
    liftc (modS (updp p (set_curr_cpu NOCPU)))
  else if negb (bool_decide (curr (procs c p) = None)) then
    remove_proc_from_queue p (curr (procs c p))
  else mret ().

(** [lk != &ptable.lock] *)
Definition other_lock (lk : lockid) : bool := negb (bool_decide (lk = PtableLock)).

(** What [sleep] does when it runs again. *)
Definition after_sleep (p : nat) (lk : lockid) : M ks () :=
  _ ← liftc (modS (updp p (set_chan NoChan)));
  if other_lock lk then _ ← release PtableLock; acquire lk else mret ().

Definition sleep (ch : wchan) (lk : option lockid) : M ks () :=
  p ← myproc;
  match p with
  | None => panic "sleep"
  | Some p =>
      match lk with
      | None => panic "sleep without lk"
      | Some lk =>
          _ ← (if other_lock lk then _ ← acquire PtableLock; release lk else mret ());
          _ ← liftc (modS (updp p (set_chan ch)));
          _ ← liftc (modS (updp p (set_state SLEEPING)));
          _ ← leave_queue p;
          _ ← insert_proc_into_queue p (Some SleepQ);
          _ ← sched swtch;
          after_sleep p lk
      end
  end.

(** The first slot with this pid, UNUSED or not. *)
Definition find_pid (k : Z) (c : sys) : option nat :=
  List.find (λ i, pid (procs c i) =? k) (seq 0 NPROC).

Definition kill (k : Z) : M ks Z :=
  _ ← acquire PtableLock;
  c ← gets kcore;
  match find_pid k c with
  | Some p =>
      _ ← liftc (modS (updp p (set_killed 1)));
      _ ← (if bool_decide (state (procs c p) = SLEEPING)
           then liftc (modS (updp p (set_state RUNNABLE))) else mret ());
      _ ← release PtableLock;
      mret 0
  | None => _ ← release PtableLock; mret (-1)
  end.

(** The bound [SIGKILL & SIGSEG & ...] of [sig]'s validity test. *)
Definition all_signals : Z :=
  Z.land (Z.land (Z.land (Z.land (Z.land (Z.land SIGKILL SIGSEG) SIGINT) SIGPIPE) SIGHUP)
    SIGSYS) SIGCPU.

Definition sig (sigmask k : Z) : M ks Z :=
  if all_signals <? sigmask then mret ESIG
  else
    _ ← acquire PtableLock;
    c ← gets kcore;
    match List.find (λ i, (pid (procs c i) =? k) &&
                          negb (bool_decide (state (procs c i) = UNUSED))) (seq 0 NPROC) with
    | Some p =>
        _ ← liftc (modS (updp p (λ x, set_p_sig (Z.lor (p_sig x) sigmask) x)));
        _ ← (if negb (bool_decide (state (procs c p) = RUNNING))
             then liftc (modS (updp p (set_state RUNNABLE))) else mret ());
        _ ← liftc (modS (updp p (set_p_pri TOP_PRIORITY)));
        _ ← release PtableLock;
        mret 0
    | None => _ ← release PtableLock; mret ENOPROC
    end.

(** [V2P] of the handler. *)
Definition sighandler (func : Z) : M ks () :=
  _ ← acquire PtableLock;
  p ← curproc;
  _ ← liftc (modS (updp p (set_signal_handler (u32 (func - KERNBASE)))));
  release PtableLock.

Definition sigignore (sigmask action : Z) : M ks () :=
  p ← myproc;
  _ ← acquire PtableLock;
  p ← deref p;
  _ ← (if action =? 0 then
         liftc (modS (updp p (λ x, set_p_ign (Z.land (p_ign x) sigmask) x)))
       else liftc (modS (updp p (λ x, set_p_ign (Z.lor (p_ign x) sigmask) x))));
  release PtableLock.

Definition change_process_space (state_flag : Z) : M ks () :=
  p ← curproc;
  liftc (modS (updp p (set_space_flag (if state_flag =? 1 then KERNEL_PROC else USER_PROC)))).
End proc.

(** ** Operations that use the services *)

Section proc_env.
Context {W : Type} `{ENV : !ProcEnv W} (swtch : option nat → M ks ()).

Definition onk {A} (m : M ks A) : M (pst W) A := λ s,
  match m (pk s) with
  | Done (a, k) => Done (a, Pst k (pw s) (pfirst s))
  | Panicked msg => Panicked msg
  | Faulted => Faulted
  | Hung => Hung
  | OutOfFuel => OutOfFuel
  end.

Definition onw {A} (m : M W A) : M (pst W) A := λ s,
  match m (pw s) with
  | Done (a, w) => Done (a, Pst (pk s) w (pfirst s))
  | Panicked msg => Panicked msg
  | Faulted => Faulted
  | Hung => Hung
  | OutOfFuel => OutOfFuel
  end.

(** [p->f = v] *)
Definition assign (p : nat) (f : proc → proc) : M (pst W) () := onk (liftc (modS (updp p f))).
Definition field {A} (p : nat) (f : proc → A) : M (pst W) A :=
  onk (gets (λ s, f (procs (kcore s) p))).

Definition allocproc : M (pst W) (option nat) :=
  slot ← onk claim_slot;
  match slot with
  | None => mret None
  | Some p =>
      k ← onw kalloc;
      _ ← assign p (set_kstack k);
      if k =? 0 then _ ← assign p (set_state UNUSED); mret None
      else mret (Some p)
  end.

Definition init_tf : trapframe :=
  let ds := Z.lor (SEG_UDATA ≪ 3) DPL_USER in
  Tf 0 0 0 (Z.lor (SEG_UCODE ≪ 3) DPL_USER) ds ds FL_IF PGSIZE ds.

(** initcode, NUL-terminated. *)
Definition initcode_name : list Z := [105; 110; 105; 116; 99; 111; 100; 101; 0].

Definition init_queues : M (pst W) () :=
  n ← onk (gets (λ s, ncpu (kmach s)));
  _ ← (if bool_decide (n = O) then onk (initprocqueue (RunQ 0))
       else mfor (seq 0 n) (λ i, onk (initprocqueue (RunQ i))));
  _ ← onk (initprocqueue SleepQ);
  onk (initprocqueue ReadyQ).

Definition userinit : M (pst W) () :=
  _ ← init_queues;
  p ← allocproc;
  _ ← onk (liftc (modS (with_initproc p)));
  p ← deref p;
  d ← onw setupkvm;
  _ ← assign p (set_pgdir d);
  if d =? 0 then panic "userinit: out of memory?"
  else
    _ ← onw (inituvm d);
    _ ← assign p (set_sz PGSIZE);
    _ ← assign p (set_tf init_tf);
    _ ← assign p (set_space_flag USER_PROC);
    _ ← assign p (set_p_time_quantum DEFAULT_USER_TIME_QUANTUM);
    _ ← assign p (set_child_pri CHILD_SAME_PRI);
    _ ← assign p (set_p_pri MED_USER_PRIORITY);
    _ ← assign p (set_space_flag USER_PROC);
    _ ← assign p (set_signal_handler 0);
    _ ← assign p (set_p_ign 0);
    _ ← assign p (set_p_sig 0);
    _ ← assign p (λ x, set_pname (copy_name 16 (pname x) initcode_name) x);
    ip ← onw namei_root;
    _ ← assign p (set_cwd ip);
    _ ← onk (acquire PtableLock);
    _ ← assign p (set_state RUNNABLE);
    _ ← assign p (set_next None);
    _ ← assign p (set_prev None);
    _ ← assign p (set_queue_mask 0);
    _ ← assign p (set_curr_cpu NOCPU);
    _ ← onk (insert_proc_into_queue p (Some ReadyQ));
    onk (release PtableLock).

Definition growproc (n : Z) : M (pst W) Z :=
  p ← onk curproc;
  x ← onk (gets (λ s, procs (kcore s) p));
  r ← (if 0 <? n then onw (allocuvm (pgdir x) (sz x) (u32 (sz x + n)) 0)
       else if n <? 0 then onw (deallocuvm (pgdir x) (sz x) (u32 (sz x + n)))
       else mret (sz x));
  if negb (n =? 0) && (r =? 0) then mret (-1)
  else
    _ ← assign p (set_sz r);
    _ ← onk (switchuvm (Some p));
    mret 0.

(** [if (curproc->ofile[i]) np->ofile[i] = filedup(curproc->ofile[i])] for
    each slot [i]; a slot that is closed in the parent is left alone. *)
Definition dup_files (np cur : nat) : M (pst W) () :=
  mfor (seq 0 NOFILE) (λ i,
    files ← field cur ofile;
    match files !! i with
    | Some (Some f) =>
        f' ← onw (filedup f);
        assign np (λ x, set_ofile (<[i := Some f']> (ofile x)) x)
    | _ => mret ()
    end).

(** The priority of a child. *)
Definition child_priority (x : proc) : Z :=
  if child_pri x =? CHILD_SAME_PRI then p_pri x
  else if p_pri x =? 0 then LOW_USER_PRIORITY else s8 (p_pri x - 1).

Definition fork : M (pst W) Z :=
  cur ← onk myproc;
  np ← allocproc;
  match np with
  | None => mret (-1)
  | Some np =>
      cur ← deref cur;
      x ← onk (gets (λ s, procs (kcore s) cur));
      d ← onw (copyuvm (pgdir x) (sz x));
      _ ← assign np (set_pgdir d);
      if d =? 0 then
        k ← field np kstack;
        _ ← onw (kfree k);
        _ ← assign np (set_kstack 0);
        _ ← assign np (set_state UNUSED);
        mret (-1)
      else
        _ ← assign np (set_sz (sz x));
        _ ← assign np (set_parent (Some cur));
        _ ← assign np (set_tf (tf x));
        _ ← assign np (set_p_flag 0);
        _ ← assign np (set_queue_mask 0);
        _ ← assign np (set_p_pri (child_priority x));
        _ ← assign np (set_p_cpu_usage 0);
        let half := Z.quot (p_cpu_usage x) 2 in
        _ ← assign np (set_p_time_quantum half);
        _ ← assign cur (λ y, set_p_time_quantum (s32 (p_time_quantum y - half)) y);
        _ ← assign np (set_signal_handler 0);
        _ ← assign np (set_p_ign 0);
        _ ← assign np (set_p_sig 0);
        _ ← dup_files np cur;
        dir ← field cur cwd;
        ip ← onw (idup dir);
        _ ← assign np (set_cwd ip);
        nm ← field cur pname;
        _ ← assign np (λ y, set_pname (copy_name 16 (pname y) nm) y);
        _ ← assign np (λ y, set_tf (set_eax 0 (tf y)) y);
        k ← field np pid;
        _ ← assign np (set_next None);
        _ ← assign np (set_prev None);
        _ ← assign np (set_curr_cpu NOCPU);
        _ ← assign np (set_curr None);
        _ ← onk (acquire PtableLock);
        _ ← assign np (set_state RUNNABLE);
        _ ← onk (release PtableLock);
        _ ← onk (insert_proc_into_queue np (Some ReadyQ));
        mret k
  end.

Definition close_files (cur : nat) : M (pst W) () :=
  mfor (seq 0 NOFILE) (λ i,
    files ← field cur ofile;
    match files !! i with
    | Some (Some f) =>
        _ ← onw (fileclose f);
        assign cur (λ x, set_ofile (<[i := None]> (ofile x)) x)
    | _ => mret ()
    end).

(** [wakeup1(0)] matches processes whose channel is null. *)
Definition proc_chan (p : option nat) : wchan :=
  match p with Some p => ProcChan p | None => NoChan end.

(** Pass abandoned children to init. *)
Definition reparent (cur : nat) : M ks () :=
  mfor (seq 0 NPROC) (λ p,
    c ← gets kcore;
    if bool_decide (parent (procs c p) = Some cur) then
      _ ← liftc (modS (updp p (set_parent (initproc c))));
      wakeup1 (proc_chan (initproc c))
    else mret ()).

(** The end of [exit], from [curproc->state = ZOMBIE] on. *)
Definition exit_park (cur : nat) : M ks () :=
  _ ← liftc (modS (updp cur (set_state ZOMBIE)));
  _ ← liftc (modS (updp cur (set_killed 1)));
  c ← gets kcore;
  _ ← liftc (modS (with_nextpid (pid (procs c cur))));
  _ ← liftc (update_cpu_avg (p_cpu_usage (procs c cur)));
  _ ← leave_queue cur;
  _ ← sched swtch;
  panic "zombie exit".

(** From the second [acquire] of [exit] on. *)
Definition exit_core (cur : nat) : M ks () :=
  _ ← acquire PtableLock;
  c ← gets kcore;
  _ ← wakeup1 (proc_chan (parent (procs c cur)));
  _ ← reparent cur;
  exit_park cur.

Definition exit : M (pst W) () :=
  cur ← onk myproc;
  c ← onk (gets kcore);
  if bool_decide (cur = initproc c) then panic "initproc exiting"
  else
    cur ← deref cur;
    _ ← close_files cur;
    _ ← onw begin_op;
    dir ← field cur cwd;
    _ ← onw (iput dir);
    _ ← onw end_op;
    _ ← assign cur (set_cwd None);
    onk (exit_core cur).

(** The table scan of [wait]. *)
Definition children (cur : nat) (c : sys) : list nat :=
  filter (λ i, parent (procs c i) = Some cur) (seq 0 NPROC).

Definition zombie_child (cur : nat) (c : sys) : option nat :=
  List.find (λ i, bool_decide (state (procs c i) = ZOMBIE)) (children cur c).

Definition reap (p : nat) : M (pst W) Z :=
  k ← field p pid;
  st ← field p kstack;
  _ ← onw (kfree st);
  _ ← assign p (set_kstack 0);
  d ← field p pgdir;
  _ ← onw (freevm d);
  _ ← assign p (set_pid 0);
  _ ← assign p (set_parent None);
  _ ← assign p (λ x, set_pname (<[0%nat := 0]> (pname x)) x);
  _ ← assign p (set_killed 0);
  _ ← assign p (set_state UNUSED);
  _ ← onk (release PtableLock);
  mret k.

(** [fuel] bounds the number of scans. *)
Fixpoint wait_loop (fuel : nat) (cur : nat) : M (pst W) Z :=
  match fuel with
  | O => no_fuel
  | S fuel =>
      c ← onk (gets kcore);
      match zombie_child cur c with
      | Some p => reap p
      | None =>
          if bool_decide (children cur c = []) || c_true (killed (procs c cur)) then
            _ ← onk (release PtableLock);
            mret (-1)
          else
            _ ← onk (sleep swtch (ProcChan cur) (Some PtableLock));
            wait_loop fuel cur
      end
  end.

Definition wait (fuel : nat) : M (pst W) Z :=
  cur ← onk curproc;
  _ ← onk (acquire PtableLock);
  wait_loop fuel cur.

Definition forkret : M (pst W) () :=
  _ ← onk (release PtableLock);
  first ← gets pfirst;
  if (first : bool) then
    _ ← modS (λ s, Pst (pk s) (pw s) false);
    _ ← onw (iinit ROOTDEV 1);
    _ ← onw (iinit SECONDARYDEV 2);
    _ ← onw (initlog ROOTDEV);
    _ ← onw (initlog SECONDARYDEV);
    onk (liftc init_cpu_avg_counter)
  else mret ().

Definition freemem : M (pst W) Z :=
  _ ← onk (acquire PtableLock);
  total ← (fix tally (l : list nat) (total : Z) : M (pst W) Z :=
             match l with
             | [] => mret total
             | p :: l =>
                 x ← onk (gets (λ s, procs (kcore s) p));
                 if bool_decide (state x = UNUSED) then tally l total
                 else
                   n ← onw (tally_page_directory (pgdir x));
                   tally l (u32 (total + n))
             end) (seq 0 NPROC) 0;
  _ ← onk (release PtableLock);
  mret (s32 total).
End proc_env.

(** ** Wakeup *)

Lemma wakeup_skip ch l fuel s pr nx :
  dlseg (kcore s) pr l nx → (∀ x, x ∈ l → chan (procs (kcore s) x) ≠ ch) →
  wakeup_walk (length l + fuel) ch (hd_or nx l) s = wakeup_walk fuel ch nx s.
Proof.
  revert pr. induction l as [|x l IH]; intros pr Hd Hch; [done|].
  destruct Hd as (_ & Hn & Hd). cbn [length Nat.add hd_or wakeup_walk].
  rewrite run_gets. rewrite (bool_decide_eq_false_2 (chan _ = _)) by (apply Hch; by constructor).
  rewrite andb_false_r, run_ret, run_gets, Hn. apply (IH (Some x)); [done|].
  intros y Hy. apply Hch. by constructor.
Qed.

(** The process [wakeup1] leaves behind. *)
Definition woken (c : sys) (p : nat) : sys :=
  updp p raise_pri (updp p (set_p_flag URGENT) (updp p (set_state RUNNABLE) c)).

Lemma spec_insert_split c new l :
  ∃ a b, spec_insert c new l = a ++ new :: b ∧ a ++ b = l.
Proof.
  assert (Hin : ∀ l, ∃ a b, ins_before c new l = a ++ new :: b ∧ a ++ b = l).
  { induction l0 as [|t l0 (a & b & Ha & Hb)]; cbn; [by exists [], []|].
    case_decide; [by exists [], (t :: l0)|].
    exists (t :: a), b. by rewrite Ha, <- Hb. }
  destruct l as [|h [|x l]]; cbn [spec_insert]; [by exists [], []|by exists [h], []|].
  destruct (Hin (x :: l)) as (a & b & -> & Hb). exists (h :: a), b. by rewrite <- Hb.
Qed.

Lemma nodup_queues c L q q' a p a' b b' :
  qrep c L → q ≠ q' → L q = a ++ p :: a' → L q' = b ++ b' →
  (length (a ++ p :: b') ≤ NPROC)%nat.
Proof.
  intros HL Hq Ha Hb. apply nodup_le_nproc.
  - pose proof (qr_nodup _ _ _ (HL q)) as N1. pose proof (qr_nodup _ _ _ (HL q')) as N2.
    rewrite Ha in N1. rewrite Hb in N2.
    assert (Hdis : ∀ x, x ∈ a ++ [p] → x ∉ b').
    { intros x Hx Hx'. eapply (qrep_other c L q q' x HL); [rewrite Ha| |rewrite Hb].
      - clear - Hx. set_solver.
      - done.
      - clear - Hx'. set_solver. }
    replace (a ++ p :: b') with ((a ++ [p]) ++ b') by (by rewrite <- app_assoc).
    replace (a ++ p :: a') with ((a ++ [p]) ++ a') in N1 by (by rewrite <- app_assoc).
    apply NoDup_app in N1 as (N1 & _ & _). apply NoDup_app in N2 as (_ & _ & N2).
    by apply NoDup_app.
  - intros x Hx. apply elem_of_app in Hx as [Hx|[->|Hx]%elem_of_cons].
    + apply (qrep_lt c L q); [done|]. rewrite Ha. clear - Hx. set_solver.
    + apply (qrep_lt c L q); [done|]. rewrite Ha. clear. set_solver.
    + apply (qrep_lt c L q'); [done|]. rewrite Hb. clear - Hx. set_solver.
Qed.

(** No queue lock is held: the queue operations can take theirs. *)
Definition queues_unlocked (hs : list lockid) : Prop :=
  CheckLock ∉ hs ∧ ∀ q, QLock q ∉ hs.

Lemma shallow_pos n : 0 ≤ n < 990 → shallow n false ∧ shallow (n + 1) false.
Proof. intros Hn. split; split; try done; lia. Qed.

(** Moving the first sleeper on the channel to the ready queue. *)
Lemma wakeup_move i n e hs s L p :
  thread i n false e hs s → 1 ≤ n < 900 → queues_unlocked hs →
  qrep (kcore s) L → p ∈ L SleepQ → state (procs (kcore s) p) = SLEEPING →
  is_claimed (procs (kcore s) p) = false →
  ∃ s', (_ ← remove_proc_from_queue p (Some SleepQ);
         _ ← liftc (modS (updp p (set_state RUNNABLE)));
         _ ← insert_proc_into_queue p (Some ReadyQ);
         _ ← liftc (modS (updp p (set_p_flag URGENT)));
         liftc (modS (updp p raise_pri))) s = Done ((), s') ∧
    thread i n false e hs s' ∧ same (woken (kcore s) p) (kcore s') ∧
    qrep (kcore s') (<[ReadyQ := spec_insert (updp p (set_state RUNNABLE) (kcore s)) p (L ReadyQ)]>
                      (<[SleepQ := spec_remove p (L SleepQ)]> L)).
Proof.
  intros Ht Hn [Hc Hq] HL Hin Hst Hcl. destruct (shallow_pos n ltac:(lia)) as [Hs1 Hs2].
  destruct (qr_member _ _ _ (HL SleepQ) p Hin) as [Hlt Hcu].
  destruct (remove_all i n false e hs s L SleepQ p) as (s1 & Hrm & Ht1 & HL1 & HR);
    [done|done|done|apply Hq|done|done|done|by rewrite Hst|]. rewrite sav_pos in Ht1 by lia.
  pose proof (same_removed _ _ _ _ _ HR Hcl) as HS1.
  set (c1 := updp p (set_state RUNNABLE) (kcore s1)).
  assert (HS1' : same (updp p (set_state RUNNABLE) (kcore s)) c1) by (by apply same_updp).
  destruct (insert_all i n false e hs (set_core c1 s1) (<[SleepQ := spec_remove p (L SleepQ)]> L)
    ReadyQ p) as (s2 & Hins & Ht2 & HL2 & HF); [done|done|apply Hq|by apply qrep_updp| |done| | |].
  { intros q'. rewrite upd_list. case_decide as Hqq.
    - unfold spec_remove. rewrite list_elem_of_filter. tauto.
    - by eapply (qrep_other _ _ SleepQ). }
  { subst c1. cbn [kcore set_core]. by rewrite procs_updp_eq. }
  { subst c1. cbn [kcore set_core]. rewrite procs_updp_eq, (rm_old _ _ _ _ _ HR).
    unfold unclaimed. case_match; cbn; congruence. }
  rewrite sav_pos in Ht2 by lia.
  exists (set_core (updp p raise_pri (updp p (set_p_flag URGENT) (kcore s2))) s2).
  split; [|split; [done|split]].
  - rewrite (bind_done _ _ _ _ _ Hrm), run_assign. fold c1.
    by rewrite (bind_done _ _ _ _ _ Hins).
  - cbn [kcore set_core]. unfold woken. do 2 (apply same_updp; [done|]).
    eapply same_trans; [done|]. by eapply same_framed.
  - cbn [kcore set_core] in HL2 |- *.
    rewrite (spec_insert_same _ _ _ _ HS1'), upd_list, decide_False in HL2 by done.
    apply qrep_updp; [done|]. by apply qrep_updp.
Qed.

Lemma wakeup1_run i n e hs s L ch l1 p l2 :
  thread i n false e hs s → 1 ≤ n < 900 → queues_unlocked hs → qrep (kcore s) L →
  L SleepQ = l1 ++ p :: l2 → (∀ x, x ∈ l1 → chan (procs (kcore s) x) ≠ ch) →
  (∀ x, x ∈ L ReadyQ → chan (procs (kcore s) x) ≠ ch) →
  state (procs (kcore s) p) = SLEEPING → chan (procs (kcore s) p) = ch →
  is_claimed (procs (kcore s) p) = false →
  ∃ s', wakeup1 ch s = Done ((), s') ∧
    thread i n false e hs s' ∧ same (woken (kcore s) p) (kcore s') ∧
    qrep (kcore s') (<[ReadyQ := spec_insert (updp p (set_state RUNNABLE) (kcore s)) p (L ReadyQ)]>
                      (<[SleepQ := l1 ++ l2]> L)).
Proof.
  intros Ht Hn Hq HL Hl Hl1 Hrd Hst Hch Hcl.
  pose proof (HL SleepQ) as HQ. rewrite Hl in HQ.
  assert (Hin : p ∈ L SleepQ) by (rewrite Hl; clear; set_solver).
  destruct (wakeup_move i n e hs s L p) as (s' & Hrun & Ht' & HS & HL'); try done.
  rewrite Hl, spec_remove_split in HL' by apply HQ.
  exists s'. split; [|done].
  destruct (spec_insert_split (updp p (set_state RUNNABLE) (kcore s)) p (L ReadyQ))
    as (a & b & Hab & Hab').
  pose proof (nodup_queues (kcore s) L SleepQ ReadyQ l1 p l2 a b HL ltac:(done) Hl (eq_sym Hab'))
    as Hlen. rewrite length_app in Hlen. cbn [length] in Hlen.
  set (r := (NPROC - (length l1 + S (length b)))%nat).
  unfold wakeup1. rewrite run_gets, (qr_head _ _ _ HQ), hd_or_app. cbn [hd_or].
  replace FUEL with (length l1 + S (length b + S r))%nat
    by (unfold FUEL, r, NPROC in *; lia).
  pose proof (qr_links _ _ _ HQ) as Hd. rewrite dlseg_app in Hd. destruct Hd as [Hd1 _].
  rewrite (wakeup_skip ch l1 _ s None (Some p)) by done.
  cbn [wakeup_walk]. rewrite run_gets, Hst, Hch, !bool_decide_eq_true_2 by done.
  cbn [andb]. rewrite (bind_done _ _ _ _ _ Hrun), run_gets.
  pose proof (HL' ReadyQ) as HQ'. rewrite upd_list, decide_True, Hab in HQ' by done.
  pose proof (qr_links _ _ _ HQ') as Hd'. rewrite dlseg_app in Hd'.
  destruct Hd' as (_ & _ & Hnx & Hdb). rewrite Hnx.
  rewrite (wakeup_skip ch b (S r) s' (Some p) None); [done|done|].
  intros x Hx. rewrite (same_field chan _ _ x (λ _, eq_refl) HS). unfold woken.
  assert (x ∈ L ReadyQ) by (rewrite <- Hab'; clear - Hx; set_solver).
  assert (x ≠ p) by (intros ->; by apply (qrep_other (kcore s) L SleepQ ReadyQ p HL Hin)).
  rewrite !procs_updp_ne by done. by apply Hrd.
Qed.

Lemma wakeup_run i n b e hs s L ch l1 p l2 :
  thread i n b e hs s → 0 ≤ n < 800 → (0 < n → b = false) → PtableLock ∉ hs →
  queues_unlocked hs → qrep (kcore s) L →
  L SleepQ = l1 ++ p :: l2 → (∀ x, x ∈ l1 → chan (procs (kcore s) x) ≠ ch) →
  (∀ x, x ∈ L ReadyQ → chan (procs (kcore s) x) ≠ ch) →
  state (procs (kcore s) p) = SLEEPING → chan (procs (kcore s) p) = ch →
  is_claimed (procs (kcore s) p) = false →
  ∃ s', wakeup ch s = Done ((), s') ∧
    same (woken (kcore s) p) (kcore s') ∧
    qrep (kcore s') (<[ReadyQ := spec_insert (updp p (set_state RUNNABLE) (kcore s)) p (L ReadyQ)]>
                      (<[SleepQ := l1 ++ l2]> L)) ∧
    thread i n b (sav n b e) hs s'.
Proof.
  intros Ht Hn Hb Hp Hq HL Hl Hl1 Hrd Hst Hch Hcl.
  destruct (acquire_thread i n b e hs PtableLock s) as (s1 & Ha & Hc1 & Ht1); [done|split; [lia|done]|done|].
  destruct (wakeup1_run i (n + 1) (sav n b e) (PtableLock :: hs) s1 L ch l1 p l2)
    as (s2 & Hw & Ht2 & HS & HL2); rewrite ?Hc1; try done; [lia| |].
  { destruct Hq as [H1 H2]. split; [|intros q]; rewrite not_elem_of_cons; by split. }
  destruct (release_thread i n (sav n b e) hs PtableLock s2) as (s3 & Hr & Hc3 & Ht3); [done|lia|done|].
  exists s3. rewrite Hc3, Hc1 in *. split; [|split; [done|split; [done|]]].
  - unfold wakeup. rewrite (bind_done _ _ _ _ _ Ha). by rewrite (bind_done _ _ _ _ _ Hw).
  - replace b with ((n =? 0) && sav n b e) at 1; [done|]. unfold sav.
    destruct (Z.eqb_spec n 0); [done|]. symmetry. apply Hb. lia.
Qed.

(** C25: [wakeup] wakes only the first sleeper on the channel: it becomes
    RUNNABLE and URGENT with its priority raised by one, moves to the ready
    queue, and every other process, even one sleeping on the same channel
    further down ([l2]), stays where it is. *)
Theorem wakeup_wakes_first i n b e hs s L ch l1 p l2 :
  thread i n b e hs s → 0 ≤ n < 800 → (0 < n → b = false) → PtableLock ∉ hs →
  queues_unlocked hs → qrep (kcore s) L →
  L SleepQ = l1 ++ p :: l2 → (∀ x, x ∈ l1 → chan (procs (kcore s) x) ≠ ch) →
  (∀ x, x ∈ L ReadyQ → chan (procs (kcore s) x) ≠ ch) →
  state (procs (kcore s) p) = SLEEPING → chan (procs (kcore s) p) = ch →
  is_claimed (procs (kcore s) p) = false →
  ∃ s', wakeup ch s = Done ((), s') ∧
    same (woken (kcore s) p) (kcore s') ∧
    qrep (kcore s') (<[ReadyQ := spec_insert (updp p (set_state RUNNABLE) (kcore s)) p (L ReadyQ)]>
                      (<[SleepQ := l1 ++ l2]> L)) ∧
    thread i n b (sav n b e) hs s'.
Proof. apply wakeup_run. Qed.

(** ** Sleep *)

Lemma thread_ext i n b e hs hs' s :
  (∀ k, k ∈ hs ↔ k ∈ hs') → thread i n b e hs s → thread i n b e hs' s.
Proof. intros Hh [Hm Hk]. split; [done|]. intros k. rewrite Hk. by apply decide_ext. Qed.

Lemma requeue_none p s :
  curr_cpu (procs (kcore s) p) = NOCPU → state (procs (kcore s) p) ≠ PREEMPTED →
  state (procs (kcore s) p) ≠ RUNNABLE → sched_requeue p s = Done ((), s).
Proof.
  intros Hcpu H1 H2. unfold sched_requeue. rewrite run_gets, Hcpu, Z.eqb_refl. cbn [negb].
  rewrite run_ret, run_gets. by rewrite (bool_decide_eq_false_2 (_ = PREEMPTED)), (bool_decide_eq_false_2 (_ = RUNNABLE)) by done.
Qed.

(** A process that stopped running leaves its run queue. *)
Lemma leave_queue_run i e hs s L q p :
  thread i 1 false e hs s → queues_unlocked hs → qrep (kcore s) L → L q = [p] →
  curr_cpu (procs (kcore s) p) = NOCPU → is_claimed (procs (kcore s) p) = false →
  state (procs (kcore s) p) ≠ RUNNING →
  ∃ s', leave_queue p s = Done ((), s') ∧ thread i 1 false e hs s' ∧
        qrep (kcore s') (<[q := []]> L) ∧ same (kcore s) (kcore s') ∧
        curr (procs (kcore s') p) = Some q.
Proof.
  intros Ht [Hc Hq] HL Hl Hcpu Hcl Hst.
  assert (Hin : p ∈ L q) by (rewrite Hl; by constructor).
  destruct (qr_member _ _ _ (HL q) p Hin) as [Hlt Hcu].
  destruct (remove_all i 1 false e hs s L q p) as (s1 & Hrm & Ht1 & HL1 & HR);
    [done|apply sh1|apply sh2|apply Hq|done|done|done|done|].
  rewrite sav_pos in Ht1 by lia. rewrite Hl, spec_remove_single in HL1.
  exists s1. split; [|split_and!; [done|done|by eapply same_removed|]].
  - unfold leave_queue. rewrite run_gets, Hcpu, Z.eqb_refl. cbn [negb].
    rewrite bool_decide_eq_false_2 by (by rewrite Hcu). cbn [negb]. by rewrite Hcu.
  - rewrite (rm_old _ _ _ _ _ HR). unfold unclaimed.
    change (is_claimed (set_prev None (set_next None (procs (kcore s) p))))
      with (is_claimed (procs (kcore s) p)). by rewrite Hcl.
Qed.

(** Swap [lk] for [ptable.lock], as [sleep] does. *)
Lemma swap_locks i e lk s :
  thread i 1 false e [lk] s → other_lock lk = true →
  ∃ s', (_ ← acquire PtableLock; release lk) s = Done ((), s') ∧ kcore s' = kcore s ∧
        thread i 1 false e [PtableLock] s'.
Proof.
  intros Ht Hlk. unfold other_lock in Hlk. apply negb_true_iff, bool_decide_eq_false in Hlk.
  destruct (acquire_thread i 1 false e [lk] PtableLock s Ht sh1) as (s1 & Ha & Hc1 & Ht1).
  { rewrite list_elem_of_singleton. congruence. }
  rewrite sav_pos in Ht1 by lia.
  apply (thread_ext _ _ _ _ _ [lk; PtableLock]) in Ht1; [|clear; set_solver].
  destruct (release_thread i 1 e [PtableLock] lk s1 Ht1) as (s2 & Hr & Hc2 & Ht2); [lia| |].
  { by rewrite list_elem_of_singleton. }
  exists s2. split; [by rewrite (bind_done _ _ _ _ _ Ha)|]. split; [congruence|done].
Qed.

Lemma sleep_run swtch i e s L p ch lk :
  thread i 1 false e [lk] s → other_lock lk = true → (∀ q, lk ≠ QLock q) → lk ≠ CheckLock →
  qrep (kcore s) L → L (RunQ i) = [p] → cpu_proc (kcore s) i = Some p →
  curr_cpu (procs (kcore s) p) = NOCPU → is_claimed (procs (kcore s) p) = false →
  let c1 := updp p (set_state SLEEPING) (updp p (set_chan ch) (kcore s)) in
  ∃ s', sleep swtch ch (Some lk) s =
          (_ ← (_ ← swtch None; restore_intena e); after_sleep p lk) s' ∧
    thread i 1 false e [PtableLock] s' ∧
    qrep (kcore s') (<[SleepQ := spec_insert c1 p (L SleepQ)]> (<[RunQ i := []]> L)) ∧
    same c1 (kcore s').
Proof.
  intros Ht Hlk Hq Hck HL Hl Hp Hcpu Hcl c1.
  destruct (myproc_thread i 1 false e [lk] s Ht sh1) as (s0 & Hmp & Hc0 & Ht0).
  rewrite sav_pos in Ht0 by lia.
  destruct (swap_locks i e lk s0 Ht0 Hlk) as (s1 & Hsw & Hc1 & Ht1).
  assert (HL1 : qrep c1 L) by (apply qrep_updp; [done|by apply qrep_updp]).
  assert (Hx : procs c1 p = set_state SLEEPING (set_chan ch (procs (kcore s) p)))
    by (subst c1; by rewrite !procs_updp_eq).
  assert (HU : queues_unlocked [PtableLock]) by (split; [notin|intros; notin]).
  destruct (leave_queue_run i e [PtableLock] (set_core c1 s1) L (RunQ i) p)
    as (s2 & Hlv & Ht2 & HL2 & HS2 & Hcu2); cbn [kcore set_core]; rewrite ?Hx; try done.
  assert (Hin : p ∈ L (RunQ i)) by (rewrite Hl; by constructor).
  destruct (insert_all i 1 false e [PtableLock] s2 (<[RunQ i := []]> L) SleepQ p)
    as (s3 & Hins & Ht3 & HL3 & HF); [done|apply sh1|notin|done| |exact (qrep_lt _ _ _ _ HL Hin)| | |].
  { intros q'. rewrite upd_list. case_decide; [apply not_elem_of_nil|].
    by eapply (qrep_other _ _ (RunQ i)). }
  { by rewrite (same_field state _ _ p (λ _, eq_refl) HS2); cbn [kcore set_core]; rewrite Hx. }
  { by rewrite Hcu2. }
  rewrite sav_pos in Ht3 by lia. cbn [kcore set_core] in HS2.
  rewrite (spec_insert_same _ _ _ _ HS2), upd_list, decide_False in HL3 by done.
  assert (HS3 : same c1 (kcore s3)) by (eapply same_trans; [done|by eapply same_framed]).
  assert (Hst3 : state (procs (kcore s3) p) = SLEEPING)
    by (rewrite (same_field state _ _ p (λ _, eq_refl) HS3); by rewrite Hx).
  destruct (sched_run swtch i e s3 p (λ c, c = kcore s3)) as (s4 & Hs & Ht4 & Hc4); try done.
  { by rewrite (proj1 (proj2 (proj2 (proj2 (sm_globals _ _ HS3))))). }
  { by rewrite Hst3. }
  { intros sx Htx Hcx. exists sx. split; [|done]. apply requeue_none; rewrite Hcx, ?Hst3; [|done..].
    rewrite (same_field curr_cpu _ _ p (λ _, eq_refl) HS3). by rewrite Hx. }
  exists s4. rewrite Hc4. split; [|done].
  unfold sleep. rewrite (bind_done _ _ _ _ _ Hmp), Hp, Hlk, (bind_done _ _ _ _ _ Hsw).
  rewrite !run_assign. cbn [kcore set_core]. rewrite !set_core_set_core, Hc1, Hc0. fold c1.
  rewrite (bind_done _ _ _ _ _ Hlv), (bind_done _ _ _ _ _ Hins).
  rewrite !run_bind, Hs, run_bind. done.
Qed.

(** C22: a process that sleeps on a channel is SLEEPING with that channel and on
    the sleep queue, off its run queue, before the caller's lock can be taken by
    anyone who also holds [ptable.lock]: it reaches the switch with exactly
    [ptable.lock] held and no other field changed. *)
Theorem sleep_refines swtch i e s L p ch lk :
  thread i 1 false e [lk] s → other_lock lk = true → (∀ q, lk ≠ QLock q) → lk ≠ CheckLock →
  qrep (kcore s) L → L (RunQ i) = [p] → cpu_proc (kcore s) i = Some p →
  curr_cpu (procs (kcore s) p) = NOCPU → is_claimed (procs (kcore s) p) = false →
  let c1 := updp p (set_state SLEEPING) (updp p (set_chan ch) (kcore s)) in
  ∃ s', sleep swtch ch (Some lk) s =
          (_ ← (_ ← swtch None; restore_intena e); after_sleep p lk) s' ∧
    thread i 1 false e [PtableLock] s' ∧
    qrep (kcore s') (<[SleepQ := spec_insert c1 p (L SleepQ)]> (<[RunQ i := []]> L)) ∧
    same c1 (kcore s').
Proof. apply sleep_run. Qed.

(** ** kill and signals *)

(** [acquire(&ptable.lock); m; release(&ptable.lock);] for assignments. *)
Lemma ptable_section {A} i n b e hs (m : M sys A) s a c :
  thread i n b e hs s → shallow n b → PtableLock ∉ hs → m (kcore s) = Done (a, c) →
  ∃ s1 s2, acquire PtableLock s = Done ((), s1) ∧ kcore s1 = kcore s ∧
    thread i (n + 1) false (sav n b e) (PtableLock :: hs) s1 ∧
    release PtableLock (set_core c s1) = Done ((), s2) ∧
    kcore s2 = c ∧ thread i n b (sav n b e) hs s2.
Proof.
  intros Ht Hsh Hp Hm.
  destruct (acquire_thread i n b e hs PtableLock s Ht Hsh Hp) as (s1 & Ha & Hc1 & Ht1).
  destruct (release_thread i n (sav n b e) hs PtableLock (set_core c s1))
    as (s2 & Hr & Hc2 & Ht2); [done|apply Hsh|done|].
  exists s1, s2. split_and!; try done.
  replace b with ((n =? 0) && sav n b e) at 1; [done|]. unfold sav.
  destruct Hsh as [Hn Hb], (Z.eqb_spec n 0); [done|]. symmetry. apply Hb. lia.
Qed.

Lemma kill_run i n b e hs s k p :
  thread i n b e hs s → shallow n b → PtableLock ∉ hs → find_pid k (kcore s) = Some p →
  ∃ s', kill k s = Done (0, s') ∧ thread i n b (sav n b e) hs s' ∧
    kcore s' = (if bool_decide (state (procs (kcore s) p) = SLEEPING)
                then updp p (set_state RUNNABLE) (updp p (set_killed 1) (kcore s))
                else updp p (set_killed 1) (kcore s)).
Proof.
  intros Ht Hsh Hp Hf.
  set (c := if bool_decide _ then _ else _).
  destruct (ptable_section i n b e hs (λ _, Done ((), c)) s () c)
    as (s1 & s2 & Ha & Hc1 & Ht1 & Hr & Hc2 & Ht2); try done.
  exists s2. split; [|done]. unfold kill.
  rewrite (bind_done _ _ _ _ _ Ha), run_gets, Hc1, Hf, run_assign.
  subst c. case_bool_decide as Hst.
  - rewrite run_assign. cbn [kcore set_core]. rewrite set_core_set_core, Hc1.
    by rewrite (bind_done _ _ _ _ _ Hr).
  - rewrite run_ret, Hc1. by rewrite (bind_done _ _ _ _ _ Hr).
Qed.

(** killing a sleeping process marks it RUNNABLE but leaves it on the sleep
    queue, where no scheduler looks; the next [wakeup] on its channel stops the
    machine. *)
Theorem kill_wedges_sleeper i b e s L k p ch l1 l2 :
  thread i 0 b e [] s → qrep (kcore s) L → find_pid k (kcore s) = Some p →
  L SleepQ = l1 ++ p :: l2 → (∀ x, x ∈ l1 → chan (procs (kcore s) x) ≠ ch) →
  state (procs (kcore s) p) = SLEEPING → chan (procs (kcore s) p) = ch →
  ∃ s', kill k s = Done (0, s') ∧ thread i 0 b b [] s' ∧ qrep (kcore s') L ∧
        state (procs (kcore s') p) = RUNNABLE ∧ killed (procs (kcore s') p) = 1 ∧
        wakeup ch s' = Panicked "stuck proc".
Proof.
  intros Ht HL Hf Hl Hl1 Hst Hch.
  destruct (kill_run i 0 b e [] s k p) as (s' & Hrun & Ht' & Hc'); [done|apply sh0|notin|done|].
  rewrite bool_decide_eq_true_2 in Hc' by done.
  assert (HL' : qrep (kcore s') L)
    by (rewrite Hc'; apply qrep_updp; [done|by apply qrep_updp]).
  assert (Hx : procs (kcore s') p = set_state RUNNABLE (set_killed 1 (procs (kcore s) p)))
    by (by rewrite Hc', !procs_updp_eq).
  exists s'. rewrite Hx. split_and!; try done.
  destruct (acquire_thread i 0 b b [] PtableLock s' Ht' (sh0 _)) as (s1 & Ha & Hc1 & Ht1); [notin|].
  unfold wakeup. rewrite (bind_done _ _ _ _ _ Ha). apply bind_panicked.
  pose proof (HL' SleepQ) as HQ. rewrite Hl in HQ.
  assert (Hlen : (length (l1 ++ p :: l2) ≤ NPROC)%nat).
  { apply nodup_le_nproc; [apply HQ|]. intros x Hx'. by apply (qr_member _ _ _ HQ). }
  rewrite length_app in Hlen. cbn [length] in Hlen.
  unfold wakeup1. rewrite run_gets, Hc1, (qr_head _ _ _ HQ), hd_or_app. cbn [hd_or].
  replace FUEL with (length l1 + S (NPROC - length l1))%nat by (unfold FUEL in *; lia).
  pose proof (qr_links _ _ _ HQ) as Hd. rewrite dlseg_app in Hd. destruct Hd as [Hd1 _].
  rewrite (wakeup_skip ch l1 _ s1 None (Some p)).
  - cbn [wakeup_walk]. rewrite run_gets, Hc1, Hx. cbn [state set_state chan set_killed].
    rewrite Hch, (bool_decide_eq_true_2 (ch = ch)) by done. done.
  - by rewrite Hc1.
  - intros x Hx1. rewrite Hc1, Hc'.
    assert (x ≠ p).
    { intros ->. pose proof (qr_nodup _ _ _ HQ) as Hnd.
      apply NoDup_app in Hnd as (_ & Hnd & _). apply (Hnd p Hx1). by constructor. }
    rewrite !procs_updp_ne by done. by apply Hl1.
Qed.

(** [sig] refuses every signal: its validity bound is the bitwise and of
    seven distinct single-bit signals, which is 0. *)
Theorem sig_rejects_every_signal m k s : 0 < m → sig m k s = Done (ESIG, s).
Proof. intros Hm. unfold sig. change all_signals with 0. by rewrite (proj2 (Z.ltb_lt 0 m)). Qed.

(** [sigignore] with action 0, meant to unmask the signals in its argument,
    keeps ignoring exactly those and unmasks all the others. *)
Theorem sigignore_unmask_inverted i b e s p m :
  thread i 0 b e [] s → cpu_proc (kcore s) i = Some p →
  ∃ s', sigignore m 0 s = Done ((), s') ∧ thread i 0 b b [] s' ∧
    (∀ n, 0 ≤ n → Z.testbit m n = true →
       Z.testbit (p_ign (procs (kcore s') p)) n = Z.testbit (p_ign (procs (kcore s) p)) n) ∧
    (∀ n, 0 ≤ n → Z.testbit m n = false → Z.testbit (p_ign (procs (kcore s') p)) n = false).
Proof.
  intros Ht Hp.
  destruct (myproc_thread i 0 b e [] s Ht (sh0 _)) as (s0 & Hmp & Hc0 & Ht0).
  cbn [sav Z.eqb] in Ht0.
  set (c := updp p (λ x, set_p_ign (Z.land (p_ign x) m) x) (kcore s0)).
  destruct (ptable_section i 0 b b [] (λ _, Done ((), c)) s0 () c)
    as (s1 & s2 & Ha & Hc1 & Ht1 & Hr & Hc2 & Ht2); [done|apply sh0|notin|done|].
  exists s2. split; [|split; [done|]].
  - unfold sigignore. rewrite (bind_done _ _ _ _ _ Hmp), (bind_done _ _ _ _ _ Ha), Hp.
    rewrite run_deref. cbn [Z.eqb]. rewrite run_assign, Hc1. exact Hr.
  - rewrite Hc2. subst c. rewrite procs_updp_eq, Hc0. cbn [p_ign set_p_ign].
    split; intros n Hn Hm; rewrite Z.land_spec, Hm; [apply andb_true_r|apply andb_false_r].
Qed.

(** ** pids *)

Lemma find_unused_ok c p :
  find_unused c = Some p → state (procs c p) = UNUSED ∧ (p < NPROC)%nat.
Proof.
  intros [Hin Hst]%find_some. apply bool_decide_eq_true in Hst. apply in_seq in Hin.
  split; [done|lia].
Qed.

(** [exit] resets [nextpid] to the exiting process's own pid; the next
    process that is allocated while the zombie is not yet waited for gets the
    same pid. *)
Theorem exited_pid_reused i b e s z p :
  thread i 0 b e [] s → state (procs (kcore s) z) = ZOMBIE →
  nextpid (kcore s) = pid (procs (kcore s) z) → find_unused (kcore s) = Some p →
  ∃ s', claim_slot s = Done (Some p, s') ∧ thread i 0 b b [] s' ∧ p ≠ z ∧
    state (procs (kcore s') z) = ZOMBIE ∧ state (procs (kcore s') p) = EMBRYO ∧
    pid (procs (kcore s') p) = pid (procs (kcore s') z).
Proof.
  intros Ht Hz Hn Hf. destruct (find_unused_ok _ _ Hf) as [Hp _].
  assert (Hne : p ≠ z) by (intros ->; congruence).
  set (c := with_nextpid (s32 (nextpid (kcore s) + 1))
              (updp p (set_pid (nextpid (kcore s))) (updp p (set_state EMBRYO) (kcore s)))).
  destruct (ptable_section i 0 b e [] (λ _, Done ((), c)) s () c)
    as (s1 & s2 & Ha & Hc1 & Ht1 & Hr & Hc2 & Ht2); [done|apply sh0|notin|done|].
  exists s2. split; [|split; [done|split; [done|]]].
  - unfold claim_slot. rewrite (bind_done _ _ _ _ _ Ha), run_gets, Hc1, Hf, !run_assign.
    cbn [kcore set_core]. rewrite !set_core_set_core, Hc1. fold c.
    by rewrite (bind_done _ _ _ _ _ Hr).
  - rewrite Hc2. subst c. cbn [procs with_nextpid with_procs].
    change (procs (with_nextpid _ ?c)) with (procs c).
    rewrite !procs_updp_eq, !procs_updp_ne by done. cbn [state pid set_pid set_state]. by rewrite Hn.
Qed.

(** ** exit *)

Lemma reparent_none cur s :
  (∀ p, parent (procs (kcore s) p) ≠ Some cur) → reparent cur s = Done ((), s).
Proof.
  intros Hno. unfold reparent. generalize (seq 0 NPROC). induction l as [|p l IH]; [done|].
  cbn [mfor]. rewrite run_bind, run_gets, bool_decide_eq_false_2 by apply Hno. exact IH.
Qed.

Lemma update_cpu_avg_run t c :
  u32 (n_procs (c_avg c) + 1) ≠ 0 → ∃ a, update_cpu_avg t c = Done ((), with_avg a c).
Proof.
  intros Hn. eexists. unfold update_cpu_avg. rewrite run_gets.
  rewrite (proj2 (Z.eqb_neq _ _) Hn). reflexivity.
Qed.

(** The fields [exit_park] sets, and the queues it leaves. *)
Definition parked (cur : nat) (c : sys) : sys :=
  with_nextpid (pid (procs c cur)) (updp cur (set_killed 1) (updp cur (set_state ZOMBIE) c)).

Lemma exit_park_run swtch i e s L cur :
  thread i 1 false e [PtableLock] s → qrep (kcore s) L → L (RunQ i) = [cur] →
  cpu_proc (kcore s) i = Some cur → curr_cpu (procs (kcore s) cur) = NOCPU →
  is_claimed (procs (kcore s) cur) = false → u32 (n_procs (c_avg (kcore s)) + 1) ≠ 0 →
  ∃ s' a, exit_park swtch cur s =
            (_ ← (_ ← swtch None; restore_intena e); panic "zombie exit") s' ∧
    thread i 1 false e [PtableLock] s' ∧ qrep (kcore s') (<[RunQ i := []]> L) ∧
    same (with_avg a (parked cur (kcore s))) (kcore s').
Proof.
  intros Ht HL Hl Hp Hcpu Hcl Havg.
  assert (HU : queues_unlocked [PtableLock]) by (split; [notin|intros; notin]).
  set (c3 := updp cur (set_killed 1) (updp cur (set_state ZOMBIE) (kcore s))).
  assert (Hx3 : procs c3 cur = set_killed 1 (set_state ZOMBIE (procs (kcore s) cur)))
    by (subst c3; by rewrite !procs_updp_eq).
  assert (Hc3 : with_nextpid (pid (procs c3 cur)) c3 = parked cur (kcore s))
    by (by rewrite Hx3).
  destruct (update_cpu_avg_run (p_cpu_usage (procs c3 cur)) (parked cur (kcore s))) as (a & Hup);
    [done|].
  set (c4 := with_avg a (parked cur (kcore s))) in Hup.
  assert (HL4 : qrep c4 L).
  { apply (qrep_ext c3); [done|done|]. apply qrep_updp; [done|by apply qrep_updp]. }
  destruct (leave_queue_run i e [PtableLock] (set_core c4 s) L (RunQ i) cur)
    as (s5 & Hlv & Ht5 & HL5 & HS5 & _); cbn [kcore set_core];
    change (procs c4 cur) with (procs c3 cur); rewrite ?Hx3; try done.
  cbn [kcore set_core] in HS5.
  assert (Hf5 : ∀ {A} (f : proc → A), (∀ x, f (unlinked x) = f x) →
            f (procs (kcore s5) cur) = f (set_killed 1 (set_state ZOMBIE (procs (kcore s) cur)))).
  { intros A f Hf. by rewrite (same_field f _ _ cur Hf HS5), <- Hx3. }
  destruct (sched_run swtch i e s5 cur (λ c, c = kcore s5)) as (s6 & Hs & Ht6 & Hc6); try done.
  { by rewrite (proj1 (proj2 (proj2 (proj2 (sm_globals _ _ HS5))))). }
  { by rewrite (Hf5 _ state (λ _, eq_refl)). }
  { intros sx Htx Hcx. exists sx. split; [|done].
    by apply requeue_none; rewrite Hcx, ?(Hf5 _ state (λ _, eq_refl)), ?(Hf5 _ curr_cpu (λ _, eq_refl)). }
  exists s6, a. rewrite Hc6. split_and!; try done.
  unfold exit_park. rewrite !run_assign, run_gets, run_assign. cbn [kcore set_core].
  rewrite !set_core_set_core. fold c3. rewrite Hc3.
  rewrite (bind_done _ _ _ _ _ (liftc_done _ (set_core (parked cur (kcore s)) s) _ _ Hup)), set_core_set_core.
  rewrite (bind_done _ _ _ _ _ Hlv). rewrite !run_bind, Hs, run_bind. done.
Qed.

(** C24: a childless process that exits wakes its parent sleeping in [wait],
    becomes a ZOMBIE off every queue and reaches the scheduler with exactly
    [ptable.lock] held; coming back would be a panic.  [nextpid] is now its own
    pid. *)
Theorem exit_wakes_parent swtch i e s L cur par l1 l2 :
  thread i 0 true e [] s → qrep (kcore s) L → L (RunQ i) = [cur] →
  cpu_proc (kcore s) i = Some cur → curr_cpu (procs (kcore s) cur) = NOCPU →
  is_claimed (procs (kcore s) cur) = false → parent (procs (kcore s) cur) = Some par →
  L SleepQ = l1 ++ par :: l2 →
  (∀ x, x ∈ l1 ++ L ReadyQ → chan (procs (kcore s) x) ≠ ProcChan par) →
  state (procs (kcore s) par) = SLEEPING → chan (procs (kcore s) par) = ProcChan par →
  is_claimed (procs (kcore s) par) = false →
  (∀ p, parent (procs (kcore s) p) ≠ Some cur) →
  u32 (n_procs (c_avg (kcore s)) + 1) ≠ 0 →
  ∃ s' L', exit_core swtch cur s =
            (_ ← (_ ← swtch None; restore_intena true); panic "zombie exit") s' ∧
    thread i 1 false true [PtableLock] s' ∧ qrep (kcore s') L' ∧
    par ∈ L' ReadyQ ∧ L' SleepQ = l1 ++ l2 ∧ (∀ q, cur ∉ L' q) ∧
    state (procs (kcore s') cur) = ZOMBIE ∧ killed (procs (kcore s') cur) = 1 ∧
    state (procs (kcore s') par) = RUNNABLE ∧
    nextpid (kcore s') = pid (procs (kcore s') cur).
Proof.
  intros Ht HL Hl Hp Hcpu Hcl Hpar HlS Hch Hst Hchp Hclp Hno Havg.
  assert (Hinc : cur ∈ L (RunQ i)) by (rewrite Hl; by constructor).
  assert (Hinp : par ∈ L SleepQ) by (rewrite HlS; clear; set_solver).
  assert (Hne : cur ≠ par) by (intros ->; by apply (qrep_other _ _ _ SleepQ _ HL Hinc)).
  destruct (acquire_thread i 0 true e [] PtableLock s Ht (sh0 _)) as (s1 & Ha & Hc1 & Ht1); [notin|].
  destruct (wakeup1_run i 1 true [PtableLock] s1 L (ProcChan par) l1 par l2)
    as (s2 & Hw & Ht2 & HS2 & HL2); rewrite ?Hc1; try done.
  { split; [notin|intros; notin]. }
  { intros x Hx. apply Hch, elem_of_app. by left. }
  { intros x Hx. apply Hch, elem_of_app. by right. }
  rewrite Hc1 in *. set (L2 := <[ReadyQ := _]> _) in HL2.
  assert (Hf2 : ∀ {A} (f : proc → A), (∀ x, f (unlinked x) = f x) →
            f (procs (kcore s2) cur) = f (procs (kcore s) cur)).
  { intros A f Hf. rewrite (same_field f _ _ cur Hf HS2). unfold woken. by rewrite !procs_updp_ne. }
  assert (HN2 : ∀ p, parent (procs (kcore s2) p) ≠ Some cur).
  { intros p. rewrite (same_field parent _ _ p (λ _, eq_refl) HS2). unfold woken.
    rewrite !procs_updp. repeat case_decide; subst; apply Hno. }
  destruct (sm_globals _ _ HS2) as (_ & _ & Hg3 & Hg4 & _). cbn in Hg3, Hg4.
  destruct (exit_park_run swtch i true s2 L2 cur) as (s6 & a & Hrun & Ht6 & HL6 & HS6);
    rewrite ?Hg3, ?Hg4, ?(Hf2 _ curr_cpu (λ _, eq_refl)), ?(Hf2 _ is_claimed (λ _, eq_refl)); try done.
  exists s6, (<[RunQ i := []]> L2). split_and!; try done.
  - unfold exit_core. rewrite (bind_done _ _ _ _ _ Ha), run_gets, Hc1, Hpar.
    by rewrite (bind_done _ _ _ _ _ Hw), (bind_done _ _ _ _ _ (reparent_none cur s2 HN2)).
  - rewrite upd_list, decide_False by done. subst L2. rewrite upd_list, decide_True by done.
    destruct (spec_insert_split (updp par (set_state RUNNABLE) (kcore s)) par (L ReadyQ))
      as (x & y & -> & _). clear. set_solver.
  - intros q. rewrite upd_list. case_decide as Hq; [apply not_elem_of_nil|].
    by apply (qrep_other _ L2 (RunQ i) q cur HL2).
  - rewrite (same_field state _ _ cur (λ _, eq_refl) HS6). cbn. by rewrite !procs_updp_eq.
  - rewrite (same_field killed _ _ cur (λ _, eq_refl) HS6). cbn. by rewrite !procs_updp_eq.
  - rewrite (same_field state _ _ par (λ _, eq_refl) HS6). cbn. rewrite !procs_updp_ne by done.
    rewrite (same_field state _ _ par (λ _, eq_refl) HS2). unfold woken. by rewrite !procs_updp_eq.
  - rewrite (proj1 (sm_globals _ _ HS6)), (same_field pid _ _ cur (λ _, eq_refl) HS6).
    cbn. by rewrite !procs_updp_eq.
Qed.

(** ** wait *)

Section wait_proofs.
Context {W : Type} `{ENV : !ProcEnv W} (swtch : option nat → M ks ()).

Lemma run_onk {A B} (m : M ks A) (K : A → M (pst W) B) s a k :
  m (pk s) = Done (a, k) → (onk m ≫= K) s = K a (Pst k (pw s) (pfirst s)).
Proof. intros H. rewrite run_bind. unfold onk. by rewrite H. Qed.

Lemma run_onw {A B} (m : M W A) (K : A → M (pst W) B) s a w :
  m (pw s) = Done (a, w) → (onw m ≫= K) s = K a (Pst (pk s) w (pfirst s)).
Proof. intros H. rewrite run_bind. unfold onw. by rewrite H. Qed.

Lemma run_set {B} p f (K : () → M (pst W) B) s :
  (assign p f ≫= K) s =
  K () (Pst (set_core (updp p f (kcore (pk s))) (pk s)) (pw s) (pfirst s)).
Proof. reflexivity. Qed.

Lemma run_field {A B} p (f : proc → A) (K : A → M (pst W) B) s :
  (field p f ≫= K) s = K (f (procs (kcore (pk s)) p)) s.
Proof. by destruct s. Qed.

Definition reaped (x : proc) : proc :=
  set_state UNUSED (set_killed 0 (set_pname (<[0%nat := 0]> (pname x))
    (set_parent None (set_pid 0 (set_kstack 0 x))))).

Lemma reap_run i e k w b z w1 w2 :
  thread i 1 false e [PtableLock] k →
  kfree (kstack (procs (kcore k) z)) w = Done ((), w1) →
  freevm (pgdir (procs (kcore k) z)) w1 = Done ((), w2) →
  ∃ k', reap z (Pst k w b) = Done (pid (procs (kcore k) z), Pst k' w2 b) ∧
    thread i 0 e e [] k' ∧ queues (kcore k') = queues (kcore k) ∧
    ∀ x, procs (kcore k') x =
         if decide (x = z) then reaped (procs (kcore k) z) else procs (kcore k) x.
Proof.
  intros Ht Hk Hf.
  set (c' := updp z (set_state UNUSED) (updp z (set_killed 0)
    (updp z (λ x, set_pname (<[0%nat := 0]> (pname x)) x) (updp z (set_parent None)
    (updp z (set_pid 0) (updp z (set_kstack 0) (kcore k))))))).
  destruct (release_thread i 0 e [] PtableLock (set_core c' k)) as (k' & Hr & Hc & Ht');
    [done|lia|notin|].
  exists k'. split; [|split; [done|split; [by rewrite Hc|]]].
  - unfold reap. rewrite !run_field. cbn [pk]. rewrite (run_onw (kfree _) _ (Pst k w b) () w1 Hk), run_set.
    cbn [pk pw pfirst kcore set_core]. rewrite run_field. cbn [pk kcore set_core].
    rewrite procs_updp_eq. cbn [pgdir set_kstack].
    rewrite (run_onw (freevm _) _ (Pst _ w1 b) () w2 Hf). rewrite !run_set.
    cbn [pk pw pfirst kcore set_core]. rewrite !set_core_set_core. fold c'.
    by rewrite (run_onk (release PtableLock) _ (Pst (set_core c' k) w2 b) () k' Hr).
  - intros x. rewrite Hc. cbn [kcore set_core]. subst c'.
    destruct (decide (x = z)) as [->|Hne]; [by rewrite !procs_updp_eq|].
    by rewrite !procs_updp_ne.
Qed.

End wait_proofs.

(** ** Witnesses *)

Definition sleeper : proc :=
  set_pid 7 (set_chan (AddrChan 64) (set_state SLEEPING (ready_proc SleepQ))).

Definition one_sleeping : ks := idle_thread true (one_queued SleepQ 3 sleeper).

Lemma one_sleeping_qrep : qrep (kcore one_sleeping) (<[SleepQ := [3%nat]]> (λ _, [])).
Proof. apply one_queued_qrep; [unfold NPROC; lia|done..]. Qed.

Lemma wakeup_wakes_first_witness :
  ∃ s', wakeup (AddrChan 64) one_sleeping = Done ((), s') ∧ qrepr (kcore s') ReadyQ [3%nat].
Proof.
  destruct (wakeup_wakes_first 0 0 true true [] one_sleeping (<[SleepQ := [3%nat]]> (λ _, []))
    (AddrChan 64) [] 3 []) as (s' & Hrun & _ & HL & _);
    [apply idle_thread_ok|lia|lia|notin|split; [notin|intros; notin]|apply one_sleeping_qrep
    |reflexivity|intros x Hx; by apply elem_of_nil in Hx|intros x Hx; by apply elem_of_nil in Hx
    |reflexivity|reflexivity|reflexivity|].
  exists s'. split; [exact Hrun|]. exact (HL ReadyQ).
Defined.

Lemma kill_wedges_sleeper_witness :
  ∃ s', kill 7 one_sleeping = Done (0, s') ∧ wakeup (AddrChan 64) s' = Panicked "stuck proc".
Proof.
  destruct (kill_wedges_sleeper 0 true true one_sleeping (<[SleepQ := [3%nat]]> (λ _, []))
    7 3 (AddrChan 64) [] []) as (s' & Hrun & _ & _ & _ & _ & Hw);
    [apply idle_thread_ok|apply one_sleeping_qrep|reflexivity|reflexivity
    |intros x Hx; by apply elem_of_nil in Hx|reflexivity|reflexivity|].
  exists s'. split; [exact Hrun|exact Hw].
Defined.

Lemma sig_rejects_every_signal_witness :
  sig SIGKILL 7 one_sleeping = Done (ESIG, one_sleeping).
Proof. apply (sig_rejects_every_signal SIGKILL 7 one_sleeping). reflexivity. Defined.

(** A process about to sleep, holding a device lock. *)
Definition about_to_sleep : ks :=
  Kst (Mach (λ _, Cpu 0 1 true) 1 0 false)
    (<[OtherLock 9 := lock_held 0]> (λ _, lock_free)) (one_queued (RunQ 0) 3 running_proc).

Lemma about_to_sleep_thread : thread 0 1 false true [OtherLock 9] about_to_sleep.
Proof.
  split; [done|]. intros k. cbn. destruct (decide (OtherLock 9 = k)) as [<-|Hne].
  - by rewrite fn_lookup_insert.
  - rewrite fn_lookup_insert_ne, decide_False; [done| |done].
    intros ->%list_elem_of_singleton. done.
Qed.

Lemma sleep_refines_witness :
  ∃ s', sleep (λ _, mret ()) (AddrChan 64) (Some (OtherLock 9)) about_to_sleep =
          (_ ← (_ ← mret (); restore_intena true); after_sleep 3 (OtherLock 9)) s' ∧
        qrepr (kcore s') SleepQ [3%nat].
Proof.
  destruct (sleep_refines (λ _, mret ()) 0 true about_to_sleep (<[RunQ 0 := [3%nat]]> (λ _, []))
    3 (AddrChan 64) (OtherLock 9)) as (s' & Hrun & _ & HL & _);
    [apply about_to_sleep_thread|reflexivity|discriminate|discriminate
    |apply one_queued_qrep; [unfold NPROC; lia|done..]|reflexivity..|].
  exists s'. split; [exact Hrun|]. exact (HL SleepQ).
Defined.

Lemma sigignore_unmask_inverted_witness :
  ∃ s', sigignore SIGINT 0 one_running = Done ((), s').
Proof.
  destruct (sigignore_unmask_inverted 0 true true one_running 3 SIGINT) as (s' & Hrun & _);
    [apply idle_thread_ok|reflexivity|]. exists s'. exact Hrun.
Defined.

Definition zombie : proc := set_pid 1 (set_state ZOMBIE zero_proc).

Lemma exited_pid_reused_witness :
  ∃ s', claim_slot (idle_thread true (one_queued ReadyQ 3 zombie)) = Done (Some 0%nat, s') ∧
        pid (procs (kcore s') 0) = pid (procs (kcore s') 3).
Proof.
  destruct (exited_pid_reused 0 true true (idle_thread true (one_queued ReadyQ 3 zombie)) 3 0)
    as (s' & Hrun & _ & _ & _ & _ & Hpid); [apply idle_thread_ok|reflexivity..|].
  exists s'. split; [exact Hrun|exact Hpid].
Defined.

(** A parent asleep in [wait] and its running child. *)
Definition family : sys :=
  let parent_p := set_chan (ProcChan 2) (set_state SLEEPING (ready_proc SleepQ)) in
  let child_p := set_pid 7 (set_parent (Some 2%nat) running_proc) in
  Sys (<[2%nat := parent_p]> (<[3%nat := child_p]> (λ _, zero_proc)))
    (<[SleepQ := PQ (Some 2%nat) None 1]> (<[RunQ 0 := PQ (Some 3%nat) None 1]> (λ _, PQ None None 0)))
    8 None (CpuAvg 0 0 25) (<[0%nat := Some 3%nat]> (λ _, None)) 0.

Definition family_lists : qid → list nat :=
  <[SleepQ := [2%nat]]> (<[RunQ 0 := [3%nat]]> (λ _, [])).

Lemma family_qrep : qrep family family_lists.
Proof.
  intros q. unfold family_lists. rewrite upd_list. case_decide as H1; [subst q|].
  - split; cbn; auto; [apply NoDup_singleton|].
    intros y ->%list_elem_of_singleton. split; [unfold NPROC; lia|done].
  - rewrite upd_list. case_decide as H2; [subst q|].
    + split; cbn; auto; [apply NoDup_singleton|].
      intros y ->%list_elem_of_singleton. split; [unfold NPROC; lia|done].
    + split; cbn; rewrite ?fn_lookup_insert_ne by done; try done; [constructor|].
      intros y Hy. by apply elem_of_nil in Hy.
Qed.

Lemma exit_wakes_parent_witness :
  ∃ s' L', exit_core (λ _, mret ()) 3 (idle_thread true family) =
             (_ ← (_ ← mret (); restore_intena true); panic "zombie exit") s' ∧
           qrep (kcore s') L' ∧ 2%nat ∈ L' ReadyQ ∧ L' SleepQ = [].
Proof.
  destruct (exit_wakes_parent (λ _, mret ()) 0 true (idle_thread true family) family_lists 3 2 [] [])
    as (s' & L' & Hrun & _ & HL & H1 & H2 & _);
    [apply idle_thread_ok|apply family_qrep|reflexivity|reflexivity|reflexivity|reflexivity
    |reflexivity|reflexivity|intros x Hx; by apply elem_of_nil in Hx|reflexivity|reflexivity
    |reflexivity| |discriminate|].
  - intros p. cbn. destruct (decide (2%nat = p)) as [<-|H2]; [by rewrite fn_lookup_insert|].
    rewrite fn_lookup_insert_ne by done.
    destruct (decide (3%nat = p)) as [<-|H3]; [by rewrite fn_lookup_insert|].
    by rewrite fn_lookup_insert_ne.
  - exists s', L'. exact (conj Hrun (conj HL (conj H1 H2))).
Defined.

(** Services that always succeed, on the empty state. *)
#[local] Instance unit_env : ProcEnv () := {|
  kalloc := mret 4096; kfree := λ _, mret (); setupkvm := mret 8192; inituvm := λ _, mret ();
  copyuvm := λ _ _, mret 8192; allocuvm := λ _ _ n _, mret n; deallocuvm := λ _ _ n, mret n;
  freevm := λ _, mret (); tally_page_directory := λ _, mret 0; filedup := λ f, mret f;
  fileclose := λ _, mret (); namei_root := mret (Some 1%nat); idup := λ i, mret i;
  iput := λ _, mret (); begin_op := mret (); end_op := mret (); iinit := λ _ _, mret ();
  initlog := λ _, mret ()
|}.

(** The parent of [family] running, its child a zombie. *)
Definition waiting : pst () :=
  Pst (idle_thread true (with_cpu_proc 0 (Some 2%nat) (updp 3 (set_state ZOMBIE) family))) () false.

