(* ===== verification/Pipe.v ===== *)
(** * Pipes: kernel/ipc/pipe.c

    The ring buffer and the three operations on it.  Each definition is one
    critical section, from [acquire(&p->lock)] (or from the point where [sleep]
    returns with the lock again) to [release] or [sleep]; a call is a sequence
    of such sections, and other processes run between them.  The channels
    passed to [wakeup] are returned in the order of the calls. *)
From stdpp Require Import base decidable option list functions numbers.
From Stdlib Require Import ZArith Lia.
From S2P Require Import Prelude.

Local Open Scope Z_scope.

Definition PIPESIZE : Z := 512.

Record pipe := Pipe {
  data : Z → Z;       (* char data[PIPESIZE] *)
  nread : Z;          (* uint32 *)
  nwrite : Z;         (* uint32 *)
  readopen : Z;
  writeopen : Z
}.

(** [&p->nread] and [&p->nwrite] *)
Inductive pchan := ChNread | ChNwrite.

(** How a critical section ends: the call returns, or sleeps on a channel. *)
Inductive section_end := Returns (v : Z) | Sleeps (ch : pchan).

Definition pipe_full (p : pipe) : bool := nwrite p =? u32 (nread p + PIPESIZE).
Definition pipe_empty (p : pipe) : bool := nread p =? nwrite p.

(** [p->data[p->nwrite++ % PIPESIZE] = b] *)
Definition pipe_put (p : pipe) (b : Z) : pipe :=
  Pipe (<[nwrite p mod PIPESIZE := b]> (data p)) (nread p) (u32 (nwrite p + 1))
    (readopen p) (writeopen p).

(** [p->data[p->nread++ % PIPESIZE]] *)
Definition pipe_get (p : pipe) : Z * pipe :=
  (data p (nread p mod PIPESIZE),
   Pipe (data p) (u32 (nread p + 1)) (nwrite p) (readopen p) (writeopen p)).

(** The fields [pipealloc] sets. *)
Definition pipe_init (junk : Z → Z) : pipe := Pipe junk 0 0 1 1.

(** [pipeclose]: the pipe, the channel woken, and whether its page is freed. *)
Definition pipeclose (p : pipe) (writable : Z) : pipe * pchan * bool :=
  let '(p', ch) :=
    if c_true writable then (Pipe (data p) (nread p) (nwrite p) (readopen p) 0, ChNread)
    else (Pipe (data p) (nread p) (nwrite p) 0 (writeopen p), ChNwrite) in
  (p', ch, (readopen p' =? 0) && (writeopen p' =? 0)).

(** The write loop, with [n] the argument of the call and [todo] the bytes
    still to write: the bytes left over, the channels woken and the end. *)
Fixpoint pipewrite_run (n : Z) (p : pipe) (killed : bool) (todo : list Z) :
    pipe * list Z * list pchan * section_end :=
  match todo with
  | [] => (p, [], [ChNread], Returns n)
  | b :: rest =>
      if pipe_full p then
        if (readopen p =? 0) || killed then (p, todo, [], Returns (-1))
        else (p, todo, [ChNread], Sleeps ChNwrite)
      else pipewrite_run n (pipe_put p b) killed rest
  end.

(** The copy loop of [piperead]. *)
Fixpoint read_copy (p : pipe) (n : nat) : list Z * pipe :=
  match n with
  | O => ([], p)
  | S n =>
      if pipe_empty p then ([], p)
      else
        let '(b, p1) := pipe_get p in
        let '(bs, p2) := read_copy p1 n in
        (b :: bs, p2)
  end.

Definition piperead_run (p : pipe) (killed : bool) (n : Z) :
    pipe * list Z * list pchan * section_end :=
  if pipe_empty p && c_true (writeopen p) then
    if killed then (p, [], [], Returns (-1)) else (p, [], [], Sleeps ChNread)
  else
    let '(bs, p') := read_copy p (Z.to_nat n) in
    (p', bs, [ChNwrite], Returns (Z.of_nat (length bs))).

(** ** The queue of bytes a pipe holds *)

Record holds (p : pipe) (l : list Z) : Prop := Holds {
  h_len : Z.of_nat (length l) ≤ PIPESIZE;
  h_nread : 0 ≤ nread p < 2 ^ 32;
  h_nwrite : nwrite p = u32 (nread p + Z.of_nat (length l));
  h_data : ∀ k b, l !! k = Some b → data p ((nread p + Z.of_nat k) mod PIPESIZE) = b
}.

(** The ring index survives the 32-bit wrap of the counters. *)
Lemma ring_index a : u32 a mod PIPESIZE = a mod PIPESIZE.
Proof.
  unfold u32, PIPESIZE. rewrite <- Znumtheory.Zmod_div_mod; [done|lia|lia|].
  exists (2 ^ 23). reflexivity.
Qed.

Lemma u32_inj a b : u32 a = u32 b → - 2 ^ 32 < a - b < 2 ^ 32 → a = b.
Proof.
  unfold u32. intros H Hr. pose proof (Z.div_mod a (2 ^ 32)). pose proof (Z.div_mod b (2 ^ 32)).
  assert (a / 2 ^ 32 = b / 2 ^ 32); nia.
Qed.

Lemma holds_full p l : holds p l → pipe_full p = true ↔ Z.of_nat (length l) = PIPESIZE.
Proof.
  intros [Hl Hr Hw _]. unfold pipe_full, PIPESIZE in *. rewrite Hw, Z.eqb_eq. split.
  - intros H%u32_inj; lia.
  - by intros ->.
Qed.

Lemma holds_empty p l : holds p l → pipe_empty p = true ↔ l = [].
Proof.
  intros [Hl Hr Hw _]. unfold pipe_empty, PIPESIZE in *. rewrite Hw, Z.eqb_eq. split.
  - intros H. rewrite <- (u32_small (nread p)) in H at 1 by done.
    apply u32_inj in H; [|lia]. destruct l; [done|]. cbn in H. lia.
  - intros ->. cbn. by rewrite Z.add_0_r, u32_small.
Qed.

Lemma mod_distinct a k j :
  0 ≤ k < PIPESIZE → 0 ≤ j < PIPESIZE → k ≠ j → (a + k) mod PIPESIZE ≠ (a + j) mod PIPESIZE.
Proof.
  unfold PIPESIZE. intros Hk Hj Hne H. apply Hne.
  pose proof (Z.div_mod (a + k) 512). pose proof (Z.div_mod (a + j) 512). nia.
Qed.

Lemma holds_put p l b : holds p l → pipe_full p = false → holds (pipe_put p b) (l ++ [b]).
Proof.
  intros HH Hf. pose proof HH as [Hl Hr Hw Hd].
  assert (Hlt : Z.of_nat (length l) < PIPESIZE).
  { destruct (decide (Z.of_nat (length l) = PIPESIZE)) as [He|He]; [|lia].
    apply (holds_full p l HH) in He. congruence. }
  split; cbn [data nread nwrite pipe_put]; rewrite ?length_app; cbn [length].
  - lia.
  - done.
  - rewrite Hw, u32_add_l. f_equal. lia.
  - intros k c Hk. rewrite Hw, ring_index. apply lookup_app_Some in Hk as [Hk|[Hk Hc]].
    + pose proof (lookup_lt_Some _ _ _ Hk). rewrite fn_lookup_insert_ne; [by apply Hd|].
      apply mod_distinct; unfold PIPESIZE in *; lia.
    + apply list_lookup_singleton_Some in Hc as [Hk0 ->].
      replace k with (length l) by lia. by rewrite fn_lookup_insert.
Qed.

Lemma holds_get p b l : holds p (b :: l) → ∃ p', pipe_get p = (b, p') ∧ holds p' l.
Proof.
  intros [Hl Hr Hw Hd]. eexists. split.
  - unfold pipe_get. rewrite <- (Hd 0%nat b eq_refl), Z.add_0_r. reflexivity.
  - split; cbn [data nread nwrite] in *.
    + cbn in Hl. lia.
    + apply u32_range.
    + rewrite Hw, u32_add_l. f_equal. cbn. lia.
    + intros k c Hk. rewrite <- (Hd (S k) c Hk).
      rewrite <- ring_index, u32_add_l, ring_index. do 2 f_equal. lia.
Qed.

(** ** The critical sections refine operations on the byte queue *)

Lemma write_run_spec n killed todo p l p' rest chs en :
  holds p l → pipewrite_run n p killed todo = (p', rest, chs, en) →
  ∃ done, todo = done ++ rest ∧ holds p' (l ++ done) ∧
    readopen p' = readopen p ∧ writeopen p' = writeopen p ∧
    match en with
    | Returns v => (rest = [] ∧ v = n ∧ chs = [ChNread]) ∨
                   (v = -1 ∧ (readopen p = 0 ∨ killed = true))
    | Sleeps ch => ch = ChNwrite ∧ chs = [ChNread] ∧ rest ≠ [] ∧
                   Z.of_nat (length (l ++ done)) = PIPESIZE ∧ readopen p ≠ 0 ∧ killed = false
    end.
Proof.
  revert p l. induction todo as [|b todo IH]; intros p l HH; cbn [pipewrite_run].
  - intros [= <- <- <- <-]. exists []. cbn [app]. rewrite app_nil_r. split_and!; try done. by left.
  - destruct (pipe_full p) eqn:Hf.
    + pose proof (proj1 (holds_full p l HH) Hf) as Hlen.
      destruct ((readopen p =? 0) || killed) eqn:Hor; intros [= <- <- <- <-];
        exists []; rewrite app_nil_r; split_and!; try done.
      * right. split; [done|]. apply orb_true_iff in Hor as [H%Z.eqb_eq|H]; auto.
      * apply orb_false_iff in Hor as [H%Z.eqb_neq ?]. done.
      * apply orb_false_iff in Hor as [_ H]. exact H.
    + intros Hrun. destruct (IH (pipe_put p b) (l ++ [b])) as (dn & -> & Hh & H1 & H2 & H3);
        [by apply holds_put|done|].
      exists (b :: dn). rewrite <- app_assoc in *. split_and!; try done.
Qed.

Lemma read_copy_spec n p l :
  holds p l → ∃ p', read_copy p n = (take n l, p') ∧ holds p' (drop n l) ∧
    readopen p' = readopen p ∧ writeopen p' = writeopen p.
Proof.
  revert p l. induction n as [|n IH]; intros p l HH; cbn [read_copy].
  - exists p. by rewrite take_0, drop_0.
  - destruct (pipe_empty p) eqn:He.
    + apply (holds_empty p l HH) in He as ->. exists p. by rewrite take_nil, drop_nil.
    + destruct l as [|b l]; [by rewrite (proj2 (holds_empty p [] HH) eq_refl) in He|].
      destruct (holds_get p b l HH) as (p1 & Hg & H1).
      rewrite Hg. destruct (IH p1 l H1) as (p2 & -> & H2 & Ho & Hw).
      exists p2. split; [done|]. split; [done|]. rewrite Ho, Hw.
      unfold pipe_get in Hg. injection Hg as _ <-. done.
Qed.

(** ** Any number of readers and writers

    [sent] and [got] are the bytes written and read so far, in order. *)

Record pipe_hist := SysPipe { sp_pipe : pipe; sent : list Z; got : list Z }.

Inductive pstep : pipe_hist → pipe_hist → Prop :=
| ps_write n p w r killed todo p' done rest chs en :
    pipewrite_run n p killed todo = (p', rest, chs, en) → todo = done ++ rest →
    pstep (SysPipe p w r) (SysPipe p' (w ++ done) r)
| ps_read p w r killed n p' bs chs en :
    piperead_run p killed n = (p', bs, chs, en) →
    pstep (SysPipe p w r) (SysPipe p' w (r ++ bs))
| ps_close p w r writable p' ch freed :
    pipeclose p writable = (p', ch, freed) → pstep (SysPipe p w r) (SysPipe p' w r).

Inductive preach (junk : Z → Z) : pipe_hist → Prop :=
| pr_init : preach junk (SysPipe (pipe_init junk) [] [])
| pr_step s s' : preach junk s → pstep s s' → preach junk s'.

Lemma piperead_spec p l killed n p' bs chs en :
  holds p l → piperead_run p killed n = (p', bs, chs, en) →
  l = bs ++ drop (length bs) l ∧ holds p' (drop (length bs) l) ∧
  match en with
  | Sleeps ch => ch = ChNread ∧ l = [] ∧ bs = [] ∧ writeopen p ≠ 0 ∧ killed = false
  | Returns v => (v = -1 ∧ l = [] ∧ bs = [] ∧ killed = true) ∨
                 (bs = take (Z.to_nat n) l ∧ v = Z.of_nat (length bs) ∧ chs = [ChNwrite])
  end.
Proof.
  intros HH. unfold piperead_run. destruct (pipe_empty p && c_true (writeopen p)) eqn:He.
  - apply andb_true_iff in He as [He Hw]. apply (holds_empty p l HH) in He as ->.
    unfold c_true in Hw. apply negb_true_iff, Z.eqb_neq in Hw.
    destruct killed; intros [= <- <- <- <-]; cbn; split_and!; try done. by left.
  - destruct (read_copy_spec (Z.to_nat n) p l HH) as (p2 & -> & H2 & _ & _).
    intros [= <- <- <- <-].
    assert (Hlen : drop (length (take (Z.to_nat n) l)) l = drop (Z.to_nat n) l).
    { rewrite length_take. destruct (decide (Z.to_nat n ≤ length l)%nat).
      - by rewrite Nat.min_l.
      - rewrite Nat.min_r, !drop_ge by lia. done. }
    rewrite Hlen, take_drop. split_and!; try done. by right.
Qed.

Lemma preach_inv junk s :
  preach junk s → ∃ l, holds (sp_pipe s) l ∧ sent s = got s ++ l.
Proof.
  induction 1 as [|s s' _ (l & HH & Hs) Hst].
  - exists []. split; [|done]. by split.
  - destruct Hst as [n p w r killed todo p' dn rest chs en Hrun Htd
                    |p w r killed n p' bs chs en Hrun|p w r wr p' ch freed Hrun]; cbn in *; subst w.
    + destruct (write_run_spec _ _ _ _ _ _ _ _ _ HH Hrun) as (dn' & Htd' & HH' & _).
      rewrite Htd in Htd'. apply app_inv_tail in Htd' as <-.
      exists (l ++ dn). split; [done|]. by rewrite app_assoc.
    + destruct (piperead_spec _ _ _ _ _ _ _ _ HH Hrun) as (Hl & HH' & _).
      exists (drop (length bs) l). split; [done|]. by rewrite <- app_assoc, <- Hl.
    + exists l. split; [|done]. unfold pipeclose in Hrun. destruct HH as [H1 H2 H3 H4].
      destruct (c_true wr); injection Hrun as <- _ _; by split.
Qed.

(** C29: through any interleaving of the critical sections of any number of
    readers, writers and closers, and any number of wraps of the 32-bit
    counters, what has been read is a prefix of what has been written, and the
    difference, at most 512 bytes, is what the pipe holds. *)
Theorem pipe_fifo junk s :
  preach junk s →
  ∃ l, sent s = got s ++ l ∧ holds (sp_pipe s) l ∧ Z.of_nat (length l) ≤ PIPESIZE.
Proof.
  intros Hr. destruct (preach_inv junk s Hr) as (l & HH & Hs).
  exists l. split; [done|]. split; [done|]. apply HH.
Qed.

(** a reader of a reachable pipe returns end of file (0 bytes for a positive
    request) only when the pipe is empty and no writer has it open; it sleeps
    only when the pipe is empty and a writer is left; otherwise it returns as
    many bytes as asked for, or as there are. *)
Theorem pipe_read_eof junk s killed n p' bs chs en :
  preach junk s → 0 < n → piperead_run (sp_pipe s) killed n = (p', bs, chs, en) →
  ∃ l, sent s = got s ++ l ∧
    (en = Returns 0 ↔ l = [] ∧ writeopen (sp_pipe s) = 0) ∧
    (en = Sleeps ChNread ↔ l = [] ∧ writeopen (sp_pipe s) ≠ 0 ∧ killed = false) ∧
    (l ≠ [] → bs = take (Z.to_nat n) l ∧
              en = Returns (Z.of_nat (Nat.min (Z.to_nat n) (length l)))).
Proof.
  intros Hr Hn Hrun. destruct (preach_inv junk s Hr) as (l & HH & Hs).
  exists l. split; [done|]. pose proof (holds_empty _ _ HH) as Hemp.
  unfold piperead_run, c_true in Hrun.
  destruct (read_copy_spec (Z.to_nat n) (sp_pipe s) l HH) as (p2 & Hc & _ & _ & _).
  rewrite Hc in Hrun. destruct l as [|b l].
  - rewrite (proj2 Hemp eq_refl) in Hrun. rewrite take_nil in Hrun. cbn [andb length] in Hrun.
    destruct (Z.eqb_spec (writeopen (sp_pipe s)) 0) as [Hw|Hw]; cbn [negb] in Hrun.
    + injection Hrun as <- <- <- <-. split_and!; try done. split; [done|]. by intros (_ & ? & _).
    + destruct killed; injection Hrun as <- <- <- <-; repeat split; intros; destruct_and?; done.
  - destruct (pipe_empty (sp_pipe s)) eqn:He; [discriminate (proj1 Hemp eq_refl)|]. cbn [andb] in Hrun.
    injection Hrun as <- <- <- <-. rewrite length_take.
    split_and!; try done; split; try (by intros [? _]); try done.
    intros [= H]. cbn [length] in H. lia.
Qed.

(** ** Witnesses *)

Definition after_abc : pipe_hist :=
  SysPipe (pipe_put (pipe_put (pipe_put (pipe_init (λ _, 0)) 97) 98) 99) [97; 98; 99] [].

Lemma after_abc_reach : preach (λ _, 0) after_abc.
Proof.
  eapply pr_step; [apply pr_init|].
  apply (ps_write 3 (pipe_init (λ _, 0)) [] [] false [97; 98; 99] _ [97; 98; 99] [] [ChNread] (Returns 3));
    reflexivity.
Qed.

Lemma pipe_fifo_witness : ∃ l, sent after_abc = got after_abc ++ l ∧ holds (sp_pipe after_abc) l.
Proof.
  destruct (pipe_fifo (λ _, 0) after_abc after_abc_reach) as (l & H1 & H2 & _).
  exists l. split; [exact H1|exact H2].
Defined.

Lemma pipe_read_eof_witness :
  ∃ l, sent after_abc = got after_abc ++ l ∧
       (l ≠ [] → Returns 2 = Returns (Z.of_nat (Nat.min 2 (length l)))).
Proof.
  destruct (pipe_read_eof (λ _, 0) after_abc false 2
    (snd (read_copy (sp_pipe after_abc) 2)) [97; 98] [ChNwrite] (Returns 2) after_abc_reach)
    as (l & Hs & _ & _ & Hl); [lia|reflexivity|].
  exists l. split; [exact Hs|]. intros H. exact (proj2 (Hl H)).
Defined.
