(* ===== verification/Kalloc.v ===== *)
(** * The physical page allocator: kernel/mm/kalloc.c

    The free list is threaded through the first word of every free page, in
    the byte memory of CString.v.  [end_] is the address of the kernel's [end]
    symbol, fixed by the linker.  With [use_lock] set each operation is one
    critical section of [kmem.lock]; without it only one processor runs. *)
From stdpp Require Import base decidable option list functions numbers strings sets.
From Stdlib Require Import ZArith Lia.
From S2P Require Import Prelude CString ProcDefs.

Local Open Scope Z_scope.

Definition PHYSTOP : Z := 0xE000000.

Record kmem := Kmem { use_lock : bool; freelist : Z; pmem : mem }.

(** [(sz + PGSIZE - 1) & ~(PGSIZE - 1)] *)
Definition PGROUNDUP (a : Z) : Z := Z.land (a + PGSIZE - 1) (Z.lnot (PGSIZE - 1)).
Definition PGROUNDDOWN (a : Z) : Z := Z.land a (Z.lnot (PGSIZE - 1)).

Lemma page_mask x : Z.land x (Z.lnot (PGSIZE - 1)) = PGSIZE * (x / PGSIZE).
Proof.
  change (PGSIZE - 1) with (Z.ones 12). rewrite <- Z.ldiff_land, Z.ldiff_ones_r by lia.
  rewrite Z.shiftl_mul_pow2, Z.shiftr_div_pow2 by lia. change (2 ^ 12) with PGSIZE. lia.
Qed.

Lemma pgroundup_spec a :
  PGROUNDUP a mod PGSIZE = 0 ∧ a ≤ PGROUNDUP a < a + PGSIZE.
Proof.
  unfold PGROUNDUP. rewrite page_mask. unfold PGSIZE. split.
  - by rewrite Z.mul_comm, Z.mod_mul.
  - pose proof (Z.div_mod (a + 4096 - 1) 4096). pose proof (Z.mod_pos_bound (a + 4096 - 1) 4096). lia.
Qed.

Lemma pgrounddown_spec a :
  PGROUNDDOWN a mod PGSIZE = 0 ∧ PGROUNDDOWN a ≤ a < PGROUNDDOWN a + PGSIZE.
Proof.
  unfold PGROUNDDOWN. rewrite page_mask. unfold PGSIZE. split.
  - by rewrite Z.mul_comm, Z.mod_mul.
  - pose proof (Z.div_mod a 4096). pose proof (Z.mod_pos_bound a 4096). lia.
Qed.

Section kalloc.
Context (end_ : Z).

Definition kfree (v : Z) : M kmem () :=
  if negb (v mod PGSIZE =? 0) || (v <? end_) || (PHYSTOP <=? u32 (v - KERNBASE))
  then panic "kfree"
  else
    _ ← modS (λ k, Kmem (use_lock k) (freelist k) (memset (pmem k) v 1 PGSIZE));
    _ ← modS (λ k, Kmem (use_lock k) (freelist k) (store32 (pmem k) v (freelist k)));
    modS (λ k, Kmem (use_lock k) v (pmem k)).

Definition kalloc : M kmem Z :=
  k ← getS;
  let r := freelist k in
  _ ← (if c_true r then modS (λ k, Kmem (use_lock k) (load32 (pmem k) r) (pmem k)) else mret ());
  mret r.

(** The loop from [p]; one page per step. *)
Fixpoint freerange_loop (fuel : nat) (p vend : Z) : M kmem () :=
  match fuel with
  | O => no_fuel
  | S fuel =>
      if p + PGSIZE <=? vend then
        _ ← kfree p;
        freerange_loop fuel (p + PGSIZE) vend
      else mret ()
  end.

Definition freerange (fuel : nat) (vstart vend : Z) : M kmem () :=
  freerange_loop fuel (PGROUNDUP vstart) vend.

Definition kinit1 (fuel : nat) (vstart vend : Z) : M kmem () :=
  _ ← modS (λ k, Kmem false (freelist k) (pmem k));
  freerange fuel vstart vend.

Definition kinit2 (fuel : nat) (vstart vend : Z) : M kmem () :=
  _ ← freerange fuel vstart vend;
  modS (λ k, Kmem true (freelist k) (pmem k)).

(** ** The list of free pages *)

(** A page [kfree] accepts. *)
Definition page_ok (v : Z) : Prop :=
  v mod PGSIZE = 0 ∧ end_ ≤ v ∧ KERNBASE ≤ v < KERNBASE + PHYSTOP.

(** The chain of [next] words from [a] through the pages [l]. *)
Fixpoint chain (m : mem) (a : Z) (l : list Z) : Prop :=
  match l with
  | [] => a = 0
  | p :: l => a = p ∧ chain m (load32 m p) l
  end.

Record free_pages (k : kmem) (l : list Z) : Prop := FreePages {
  fp_chain : chain (pmem k) (freelist k) l;
  fp_nodup : NoDup l;
  fp_ok : ∀ p, p ∈ l → page_ok p
}.

Lemma pages_apart p q :
  p mod PGSIZE = 0 → q mod PGSIZE = 0 → p ≠ q → p + PGSIZE ≤ q ∨ q + PGSIZE ≤ p.
Proof.
  unfold PGSIZE. intros Hp Hq Hne.
  pose proof (Z.div_mod p 4096). pose proof (Z.div_mod q 4096). nia.
Qed.

(** Writes inside a page that is not on the list do not break the chain. *)
Lemma chain_ext m m' a l v :
  page_ok v → v ∉ l → (∀ p, p ∈ l → page_ok p) →
  (∀ x, ¬ (v ≤ x < v + PGSIZE) → m' x = m x) → chain m a l → chain m' a l.
Proof.
  intros Hv Hnot Hok Hout. revert a.
  induction l as [|p l IH]; intros a; cbn [chain]; [done|]. intros [-> Hc].
  split; [done|]. apply IH; [set_solver|set_solver|].
  rewrite (load32_ext m m' p); [done|]. intros x Hx. apply Hout.
  assert (Hp : page_ok p) by (apply Hok; by constructor).
  destruct (pages_apart p v) as [H|H]; [apply Hp|apply Hv|set_solver| |];
    unfold PGSIZE in *; lia.
Qed.

Lemma kfree_run k l v :
  free_pages k l → page_ok v → v ∉ l →
  ∃ k', kfree v k = Done ((), k') ∧ free_pages k' (v :: l) ∧ use_lock k' = use_lock k ∧
        ∀ x, ¬ (v ≤ x < v + PGSIZE) → pmem k' x = pmem k x.
Proof.
  intros [Hc Hnd Hok] Hv Hnot. pose proof Hv as (Ha & He & Hr).
  assert (Hout : ∀ x, ¬ (v ≤ x < v + PGSIZE) →
    store32 (memset (pmem k) v 1 PGSIZE) v (freelist k) x = pmem k x).
  { intros x Hx. rewrite store32_out by (unfold PGSIZE in *; lia).
    rewrite memset_at by (unfold PGSIZE; lia). by rewrite decide_False. }
  exists (Kmem (use_lock k) v (store32 (memset (pmem k) v 1 PGSIZE) v (freelist k))).
  split; [|split; [|split; [done|exact Hout]]].
  - unfold kfree. rewrite Ha. cbn [Z.eqb negb].
    rewrite (proj2 (Z.ltb_ge v end_)) by lia.
    rewrite u32_small by (unfold KERNBASE, PHYSTOP in *; lia).
    rewrite (proj2 (Z.leb_gt PHYSTOP _)) by lia. reflexivity.
  - split; cbn [pmem freelist].
    + split; [done|]. rewrite load32_store32.
      assert (Hu : u32 (freelist k) = freelist k).
      { destruct l as [|p l]; cbn in Hc; [by rewrite Hc|]. destruct Hc as [-> _].
        destruct (Hok p) as (_ & _ & Hp); [by constructor|].
        apply u32_small. unfold KERNBASE, PHYSTOP in Hp. lia. }
      rewrite Hu. eapply (chain_ext (pmem k)); done.
    + by constructor.
    + intros p [->|Hp]%elem_of_cons; [done|]. by apply Hok.
Qed.

Lemma kalloc_run k l :
  free_pages k l →
  ∃ k', kalloc k = Done (match l with [] => 0 | p :: _ => p end, k') ∧
        free_pages k' (drop 1 l) ∧ use_lock k' = use_lock k ∧ pmem k' = pmem k.
Proof.
  intros [Hc Hnd Hok]. unfold kalloc. rewrite run_getS.
  destruct l as [|p l]; cbn [chain] in Hc.
  - rewrite Hc. exists k. by split_and!.
  - destruct Hc as [Hp Hc].
    assert (Hnz : p ≠ 0) by (destruct (Hok p) as (_ & _ & ?); [by constructor|];
                              unfold KERNBASE in *; lia).
    unfold c_true. rewrite Hp, (proj2 (Z.eqb_neq p 0) Hnz). cbn [negb].
    rewrite run_modS. eexists. split; [reflexivity|]. split; [|done].
    apply NoDup_cons in Hnd as [_ Hnd]. split; cbn [pmem freelist drop]; [done|done|].
    intros q Hq. apply Hok. by constructor.
Qed.

(** ** Use of the allocator

    [owned] are the pages handed out and not yet freed; clients free only pages
    they own, and may write to them in between. *)

Inductive kstep : kmem * list Z → kmem * list Z → Prop :=
| k_alloc k owned v k' : kalloc k = Done (v, k') → v ≠ 0 → kstep (k, owned) (k', v :: owned)
| k_alloc_none k owned k' : kalloc k = Done (0, k') → kstep (k, owned) (k', owned)
| k_free k a v b k' : kfree v k = Done ((), k') → kstep (k, a ++ v :: b) (k', a ++ b)
| k_write k a v b m' : (∀ x, ¬ (v ≤ x < v + PGSIZE) → m' x = pmem k x) →
    kstep (k, a ++ v :: b) (Kmem (use_lock k) (freelist k) m', a ++ v :: b).

Inductive kreach (k0 : kmem) : kmem * list Z → Prop :=
| kr_init : kreach k0 (k0, [])
| kr_step s s' : kreach k0 s → kstep s s' → kreach k0 s'.

(** The pages of the list and those handed out, together. *)
Definition kinv (pages : list Z) (s : kmem * list Z) : Prop :=
  ∃ l, free_pages (fst s) l ∧ (l ++ snd s) ≡ₚ pages.

Lemma kstep_inv pages s s' :
  NoDup pages → (∀ p, p ∈ pages → page_ok p) → kinv pages s → kstep s s' → kinv pages s'.
Proof.
  intros Hnd Hok (l & Hl & Hp) Hst.
  assert (Hnd' : NoDup (l ++ snd s)) by (by rewrite Hp).
  assert (Hok' : ∀ p, p ∈ l ++ snd s → page_ok p) by (intros p Hin; apply Hok; by rewrite <- Hp).
  destruct Hst as [k o v k' Hrun Hv|k o k' Hrun|k a v b k' Hrun|k a v b m' Hout]; cbn [fst snd] in *.
  - destruct (kalloc_run k l Hl) as (k2 & Hrun2 & Hl2 & _). rewrite Hrun in Hrun2.
    destruct l as [|p l]; injection Hrun2 as -> <-; [done|].
    exists l. split; [done|]. cbn [fst snd]. rewrite <- Hp. cbn. by rewrite Permutation_middle.
  - destruct (kalloc_run k l Hl) as (k2 & Hrun2 & Hl2 & _). rewrite Hrun in Hrun2.
    destruct l as [|p l]; [injection Hrun2 as <-; by exists []|injection Hrun2 as Hv <-].
    destruct (fp_ok _ _ Hl p) as (_ & _ & H); [by constructor|]. unfold KERNBASE in H. lia.
  - assert (Hvl : v ∉ l).
    { apply NoDup_app in Hnd' as (_ & Hdis & _). intros Hin. apply (Hdis v Hin). set_solver. }
    assert (Hvo : page_ok v) by (apply Hok'; set_solver).
    destruct (kfree_run k l v Hl Hvo Hvl) as (k2 & Hrun2 & Hl2 & _). rewrite Hrun in Hrun2.
    injection Hrun2 as <-. exists (v :: l). split; [done|]. cbn [fst snd]. rewrite <- Hp.
    cbn [app]. by rewrite <- !Permutation_middle.
  - exists l. split; [|done]. destruct Hl as [Hc Hn Ho]. split; cbn [fst pmem freelist]; try done.
    eapply (chain_ext (pmem k) _ _ _ v); try done; [apply Hok'; set_solver|].
    apply NoDup_app in Hnd' as (_ & Hdis & _). intros Hin. apply (Hdis v Hin). set_solver.
Qed.


(** ** Initialisation *)

(** The [n] pages from [p] up. *)
Definition page_range (p : Z) (n : nat) : list Z := map (λ i, p + PGSIZE * Z.of_nat i) (seq 0 n).

Lemma page_range_S p n : page_range p (S n) = p :: page_range (p + PGSIZE) n.
Proof.
  unfold page_range. cbn [seq map]. f_equal; [lia|]. rewrite <- seq_shift, map_map.
  apply map_ext. intros i. unfold PGSIZE. lia.
Qed.

Lemma freerange_loop_run n k l p vend fuel :
  free_pages k l → p mod PGSIZE = 0 → end_ ≤ p → KERNBASE ≤ p → vend ≤ KERNBASE + PHYSTOP →
  p + PGSIZE * Z.of_nat n ≤ vend < p + PGSIZE * Z.of_nat n + PGSIZE →
  (∀ q, q ∈ l → q < p) → (n < fuel)%nat →
  ∃ k', freerange_loop fuel p vend k = Done ((), k') ∧
        free_pages k' (rev (page_range p n) ++ l) ∧ use_lock k' = use_lock k.
Proof.
  revert k l p fuel. induction n as [|n IH]; intros k l p [|fuel] Hl Ha He Hk Hv Hn Hlt Hf;
    try lia; cbn [freerange_loop].
  - rewrite (proj2 (Z.leb_gt _ _)) by lia. by exists k.
  - assert (Hp1 : (p + PGSIZE) mod PGSIZE = 0) by (unfold PGSIZE in *; rewrite Z.add_mod, Ha; done).
    unfold PGSIZE in Hn. rewrite (proj2 (Z.leb_le _ _)) by (unfold PGSIZE; lia).
    destruct (kfree_run k l p Hl) as (k1 & Hrun & Hl1 & Hu & _).
    { split_and!; [done|done|done|unfold PGSIZE in *; lia]. }
    { intros Hin. specialize (Hlt p Hin). lia. }
    destruct (IH k1 (p :: l) (p + PGSIZE) fuel) as (k2 & Hrun2 & Hl2 & Hu2); try done;
      try (unfold PGSIZE in *; lia).
    { intros q [->|Hq]%elem_of_cons; [unfold PGSIZE; lia|]. specialize (Hlt q Hq). unfold PGSIZE. lia. }
    exists k2. rewrite (bind_done _ _ _ _ _ Hrun). split; [done|]. split; [|congruence].
    rewrite page_range_S. cbn [rev]. by rewrite <- app_assoc.
Qed.

(** [kinit1] on memory above the kernel terminates without a panic and puts
    exactly the whole pages between [vstart] and [vend] on the free list, each
    once; one step of fuel per page is enough. *)
Theorem kinit1_frees_range u m vstart vend :
  end_ ≤ vstart → KERNBASE ≤ vstart → PGROUNDUP vstart ≤ vend → vend ≤ KERNBASE + PHYSTOP →
  let n := Z.to_nat ((vend - PGROUNDUP vstart) / PGSIZE) in
  ∃ k', kinit1 (S n) vstart vend (Kmem u 0 m) = Done ((), k') ∧
        free_pages k' (rev (page_range (PGROUNDUP vstart) n)) ∧
        ∀ q, q ∈ page_range (PGROUNDUP vstart) n ↔
             q mod PGSIZE = 0 ∧ vstart ≤ q ∧ q + PGSIZE ≤ vend.
Proof.
  intros He Hk Hle Hv n. destruct (pgroundup_spec vstart) as [Ha Hb].
  assert (Hn : Z.of_nat n = (vend - PGROUNDUP vstart) / PGSIZE)
    by (apply Z2Nat.id, Z.div_pos; unfold PGSIZE; lia).
  pose proof (Z.div_mod (vend - PGROUNDUP vstart) PGSIZE ltac:(done)) as Hd.
  pose proof (Z.mod_pos_bound (vend - PGROUNDUP vstart) PGSIZE ltac:(done)) as Hm.
  destruct (freerange_loop_run n (Kmem false 0 m) [] (PGROUNDUP vstart) vend (S n))
    as (k' & Hrun & Hl & _); try done; try (unfold PGSIZE in *; lia).
  { split; [done|constructor|]. intros p Hp. by apply elem_of_nil in Hp. }
  { intros q Hq. by apply elem_of_nil in Hq. }
  exists k'. split; [done|]. rewrite app_nil_r in Hl. split; [done|].
  intros q. unfold page_range. rewrite list_elem_of_fmap. split.
  - intros (i & -> & Hi%elem_of_seq). split; [|unfold PGSIZE in *; lia].
    rewrite (Z.mul_comm PGSIZE), Z.add_mod, Z.mod_mul, Ha by done. done.
  - intros (Hq & H1 & H2). exists (Z.to_nat (q / PGSIZE - PGROUNDUP vstart / PGSIZE)).
    pose proof (Z.div_mod q PGSIZE ltac:(done)) as Hdq.
    pose proof (Z.div_mod (PGROUNDUP vstart) PGSIZE ltac:(done)) as Hdp.
    assert (Hge : PGROUNDUP vstart ≤ q) by (unfold PGSIZE in *; lia).
    assert (0 ≤ q / PGSIZE - PGROUNDUP vstart / PGSIZE) by (unfold PGSIZE in *; lia).
    rewrite Z2Nat.id by done. split; [lia|]. apply elem_of_seq. unfold PGSIZE in *. lia.
Qed.
End kalloc.

(** ** Witnesses *)

Definition two_pages : kmem :=
  Kmem false (KERNBASE + 8192) (store32 (λ _, 0) (KERNBASE + 8192) (KERNBASE + 4096)).

Lemma two_pages_free : free_pages KERNBASE two_pages [KERNBASE + 8192; KERNBASE + 4096].
Proof.
  split; [done| |].
  - apply NoDup_cons. split; [|apply NoDup_singleton].
    intros H%list_elem_of_singleton. unfold KERNBASE in H. lia.
  - intros p [-> | ->%list_elem_of_singleton]%elem_of_cons; (split; [done|]);
      unfold KERNBASE, PHYSTOP; lia.
Qed.


Lemma kinit1_frees_range_witness :
  ∃ k', kinit1 KERNBASE 3 (KERNBASE + 5) (KERNBASE + 12288) (Kmem false 0 (λ _, 0)) = Done ((), k').
Proof.
  destruct (kinit1_frees_range KERNBASE false (λ _, 0) (KERNBASE + 5) (KERNBASE + 12288))
    as (k' & Hrun & _); [unfold KERNBASE; lia|unfold KERNBASE; lia|done|done|].
  exists k'. exact Hrun.
Defined.
