(* ===== verification/Vm.v ===== *)
(** * Page tables: kernel/arch/x86_32/mem/vm.c

    A page directory is the kernel address of a page of 1024 words in the
    memory of Kalloc.v, each word naming a page table by physical address.  The
    kernel sees physical address [a] at [a + KERNBASE].  [end_] and [data_] are
    the linker symbols [end] and [data]. *)
From stdpp Require Import base decidable option list functions numbers strings sets.
From Stdlib Require Import ZArith Lia.
From S2P Require Import Prelude CString ProcDefs Kalloc.

Local Open Scope Z_scope.

(** ** mmu.h and memlayout.h *)

Definition PDX (va : Z) : Z := Z.land (va ≫ 22) 0x3FF.
Definition PTX (va : Z) : Z := Z.land (va ≫ 12) 0x3FF.
Definition PGADDR (d t o : Z) : Z := u32 (Z.lor (Z.lor (d ≪ 22) (t ≪ 12)) o).
Definition NPDENTRIES : nat := 1024.
Definition NPTENTRIES : nat := 1024.
Definition PTE_P : Z := 1.
Definition PTE_W : Z := 2.
Definition PTE_U : Z := 4.
Definition PTE_ADDR (pte : Z) : Z := Z.land pte (Z.lnot 0xFFF).
Definition PTE_FLAGS (pte : Z) : Z := Z.land pte 0xFFF.
Definition V2P (a : Z) : Z := u32 (a - KERNBASE).
Definition P2V (a : Z) : Z := u32 (a + KERNBASE).
Definition EXTMEM : Z := 0x100000.
Definition DEVSPACE : Z := 0xFE000000.
Definition KERNLINK : Z := KERNBASE + EXTMEM.

Definition has_bit (pte bit : Z) : bool := c_true (Z.land pte bit).

Definition word_at (a : Z) (k : kmem) : Z := load32 (pmem k) a.
Definition put_word (a w : Z) (k : kmem) : kmem := Kmem (use_lock k) (freelist k) (store32 (pmem k) a w).
Definition put_mem (f : mem → mem) (k : kmem) : kmem := Kmem (use_lock k) (freelist k) (f (pmem k)).

Section vm.
Context (end_ data_ : Z).

(** ** Walking and mapping *)

(** The address of the entry for [va], or 0. *)
Definition walkpgdir (pgdir va : Z) (alloc : bool) : M kmem Z :=
  let pde := pgdir + 4 * PDX va in
  e ← gets (word_at pde);
  if has_bit e PTE_P then mret (P2V (PTE_ADDR e) + 4 * PTX va)
  else if negb alloc then mret 0
  else
    pgtab ← kalloc;
    if pgtab =? 0 then mret 0
    else
      _ ← modS (put_mem (λ m, memset m pgtab 0 PGSIZE));
      _ ← modS (put_word pde (Z.lor (Z.lor (Z.lor (V2P pgtab) PTE_P) PTE_W) PTE_U));
      mret (pgtab + 4 * PTX va).

(** The loop of [mappages] at [a]; [fuel] pages follow before [last]. *)
Fixpoint mappages_loop (fuel : nat) (pgdir a last pa perm : Z) : M kmem Z :=
  pte ← walkpgdir pgdir a true;
  if pte =? 0 then mret (-1)
  else
    e ← gets (word_at pte);
    if has_bit e PTE_P then panic "remap"
    else
      _ ← modS (put_word pte (Z.lor (Z.lor pa perm) PTE_P));
      if a =? last then mret 0
      else
        match fuel with
        | O => no_fuel
        | S fuel => mappages_loop fuel pgdir (u32 (a + PGSIZE)) last (u32 (pa + PGSIZE)) perm
        end.

Definition mappages (pgdir va size pa perm : Z) : M kmem Z :=
  let a := PGROUNDDOWN va in
  let last := PGROUNDDOWN (u32 (va + size - 1)) in
  mappages_loop (Z.to_nat (u32 (last - a) / PGSIZE)) pgdir a last pa perm.

(** The number of entries with [bit] in the present tables of [pgdir]. *)
Definition tally (bit : Z) (pgdir : Z) (k : kmem) : Z :=
  Z.of_nat (length (filter (λ ij,
    has_bit (word_at (pgdir + 4 * ij.1) k) PTE_P = true ∧
    has_bit (word_at (P2V (PTE_ADDR (word_at (pgdir + 4 * ij.1) k)) + 4 * ij.2) k) bit = true)
    (i ← map Z.of_nat (seq 0 NPDENTRIES); j ← map Z.of_nat (seq 0 NPTENTRIES); [(i, j)]))).
Definition tally_page_directory (pgdir : Z) (k : kmem) : Z := tally PTE_U pgdir k.
Definition tally_kernel_page_directory (kpgdir : Z) (k : kmem) : Z := tally PTE_P kpgdir k.

(** ** Freeing *)

Fixpoint deallocuvm_loop (fuel : nat) (pgdir a oldsz : Z) : M kmem () :=
  if oldsz <=? a then mret ()
  else
    match fuel with
    | O => no_fuel
    | S fuel =>
        pte ← walkpgdir pgdir a false;
        if pte =? 0 then
          deallocuvm_loop fuel pgdir (u32 (PGADDR (PDX a + 1) 0 0 - PGSIZE + PGSIZE)) oldsz
        else
          e ← gets (word_at pte);
          _ ← (if has_bit e PTE_P then
                 let pa := PTE_ADDR e in
                 if pa =? 0 then panic "kfree"
                 else
                   _ ← kfree end_ (P2V pa);
                   modS (put_word pte 0)
               else mret ());
          deallocuvm_loop fuel pgdir (u32 (a + PGSIZE)) oldsz
    end.

Definition deallocuvm (pgdir oldsz newsz : Z) : M kmem Z :=
  if oldsz <=? newsz then mret oldsz
  else
    _ ← deallocuvm_loop (Z.to_nat (oldsz / PGSIZE + 1)) pgdir (u32 (PGROUNDUP newsz)) oldsz;
    mret newsz.

Definition freevm (pgdir : Z) : M kmem () :=
  if pgdir =? 0 then panic "freevm: no pgdir"
  else
    _ ← deallocuvm pgdir KERNBASE 0;
    _ ← mfor (seq 0 NPDENTRIES) (λ i,
      e ← gets (word_at (pgdir + 4 * Z.of_nat i));
      if has_bit e PTE_P then kfree end_ (P2V (PTE_ADDR e)) else mret ());
    kfree end_ pgdir.

(** ** Address spaces *)

Record kmap_entry := Kmap { virt : Z; phys_start : Z; phys_end : Z; kperm : Z }.

Definition kmap : list kmap_entry :=
  [ Kmap KERNBASE 0 EXTMEM PTE_W;
    Kmap KERNLINK (V2P KERNLINK) (V2P data_) 0;
    Kmap data_ (V2P data_) PHYSTOP PTE_W;
    Kmap DEVSPACE DEVSPACE 0 PTE_W ].

Fixpoint setupkvm_loop (pgdir : Z) (ks : list kmap_entry) : M kmem Z :=
  match ks with
  | [] => mret pgdir
  | k :: ks =>
      r ← mappages pgdir (virt k) (u32 (phys_end k - phys_start k)) (phys_start k) (kperm k);
      if r <? 0 then _ ← freevm pgdir; mret 0
      else setupkvm_loop pgdir ks
  end.

Definition setupkvm : M kmem Z :=
  pgdir ← kalloc;
  if pgdir =? 0 then mret 0
  else
    _ ← modS (put_mem (λ m, memset m pgdir 0 PGSIZE));
    if DEVSPACE <? P2V PHYSTOP then panic "PHYSTOP too high"
    else setupkvm_loop pgdir kmap.

(** [kvmalloc]: the new [kpgdir], and the value [switchkvm] loads into CR3. *)
Definition switchkvm (kpgdir : Z) : Z := V2P kpgdir.
Definition kvmalloc : M kmem (Z * Z) :=
  kpgdir ← setupkvm;
  mret (kpgdir, switchkvm kpgdir).

(** [init] is the [sz] bytes of the first program. *)
Definition inituvm (pgdir : Z) (init : mem) (sz : Z) : M kmem () :=
  if PGSIZE <=? sz then panic "inituvm: more than a page"
  else
    mem ← kalloc;
    _ ← modS (put_mem (λ m, memset m mem 0 PGSIZE));
    _ ← mappages pgdir 0 PGSIZE (V2P mem) (Z.lor PTE_W PTE_U);
    modS (put_mem (λ m a, if (mem <=? a) && (a <? mem + sz) then init (a - mem) else m a)).

(** The loops of [allocuvm]: [undo] is its [deallocuvm] on failure. *)
Definition alloc_page (pgdir a : Z) (undo : M kmem Z) : M kmem bool :=
  mem ← kalloc;
  if mem =? 0 then _ ← undo; mret false
  else
    _ ← modS (put_mem (λ m, memset m mem 0 PGSIZE));
    r ← mappages pgdir a PGSIZE (V2P mem) (Z.lor PTE_W PTE_U);
    if r <? 0 then
      _ ← undo;
      _ ← kfree end_ mem;
      mret false
    else mret true.

Fixpoint alloc_down (fuel : nat) (pgdir a oldsz newsz : Z) : M kmem bool :=
  if a <? newsz then mret true
  else
    ok ← alloc_page pgdir a (deallocuvm pgdir oldsz newsz);
    if negb ok then mret false
    else if a =? 0 then mret true
    else
      match fuel with
      | O => no_fuel
      | S fuel => alloc_down fuel pgdir (u32 (a - PGSIZE)) oldsz newsz
      end.

Fixpoint alloc_up (fuel : nat) (pgdir a oldsz newsz : Z) : M kmem bool :=
  if newsz <=? a then mret true
  else
    match fuel with
    | O => no_fuel
    | S fuel =>
        ok ← alloc_page pgdir a (deallocuvm pgdir newsz oldsz);
        if negb ok then mret false
        else alloc_up fuel pgdir (u32 (a + PGSIZE)) oldsz newsz
    end.

Definition allocuvm (pgdir oldsz newsz : Z) (grow_down : bool) : M kmem Z :=
  if KERNBASE <=? newsz then mret 0
  else if newsz <? oldsz then mret oldsz
  else
    ok ← (if grow_down
          then let a := PGROUNDDOWN (u32 (oldsz - 1)) in
               alloc_down (Z.to_nat (a / PGSIZE)) pgdir a oldsz newsz
          else mret true);
    if negb ok then mret 0
    else
      ok ← alloc_up (Z.to_nat (newsz / PGSIZE + 1)) pgdir (u32 (PGROUNDUP oldsz)) oldsz newsz;
      mret (if (ok : bool) then newsz else 0).

Definition clearpteu (pgdir uva : Z) : M kmem () :=
  pte ← walkpgdir pgdir uva false;
  if pte =? 0 then panic "clearpteu"
  else modS (λ k, put_word pte (Z.land (word_at pte k) (Z.lnot PTE_U)) k).

Definition copy_page (m : mem) (dst src : Z) : mem := memmove m dst src (Z.to_nat PGSIZE).

(** The loop of [copyuvm] from page [i]; [false] is [goto bad]. *)
Fixpoint copyuvm_loop (fuel : nat) (pgdir d i sz : Z) : M kmem bool :=
  if sz <=? i then mret true
  else
    match fuel with
    | O => no_fuel
    | S fuel =>
        pte ← walkpgdir pgdir i false;
        if pte =? 0 then panic "copyuvm: pte should exist"
        else
          e ← gets (word_at pte);
          if negb (has_bit e PTE_P) then panic "copyuvm: page not present"
          else
            mem ← kalloc;
            if mem =? 0 then mret false
            else
              _ ← modS (put_mem (λ m, copy_page m mem (P2V (PTE_ADDR e))));
              r ← mappages d i PGSIZE (V2P mem) (PTE_FLAGS e);
              if r <? 0 then _ ← kfree end_ mem; mret false
              else copyuvm_loop fuel pgdir d (u32 (i + PGSIZE)) sz
    end.

Definition copyuvm (pgdir sz : Z) : M kmem Z :=
  d ← setupkvm;
  if d =? 0 then mret 0
  else
    ok ← copyuvm_loop (Z.to_nat (sz / PGSIZE + 1)) pgdir d 0 sz;
    if (ok : bool) then mret d
    else _ ← freevm d; mret 0.

(** [walkpgdir]'s null result is followed. *)
Definition uva2ka (pgdir uva : Z) : M kmem Z :=
  pte ← walkpgdir pgdir uva false;
  if pte =? 0 then fault
  else
    e ← gets (word_at pte);
    if negb (has_bit e PTE_P) then mret 0
    else if negb (has_bit e PTE_U) then mret 0
    else mret (P2V (PTE_ADDR e)).

(** [buf] is the memory at [p], from address [b]. *)
Fixpoint copyout_loop (fuel : nat) (pgdir va : Z) (buf : mem) (b len : Z) : M kmem Z :=
  if len <=? 0 then mret 0
  else
    match fuel with
    | O => no_fuel
    | S fuel =>
        let va0 := PGROUNDDOWN va in
        pa0 ← uva2ka pgdir va0;
        if pa0 =? 0 then mret (-1)
        else
          let n := (PGSIZE - (va - va0)) `min` len in
          let dst := pa0 + (va - va0) in
          _ ← modS (put_mem (λ m a, if (dst <=? a) && (a <? dst + n) then buf (b + (a - dst)) else m a));
          copyout_loop fuel pgdir (u32 (va0 + PGSIZE)) buf (b + n) (len - n)
    end.

Definition copyout (pgdir va : Z) (p : mem) (len : Z) : M kmem Z :=
  copyout_loop (Z.to_nat len) pgdir va p 0 len.

(** ** Entries *)

Lemma pte_addr_spec x : PTE_ADDR x = PGSIZE * (x / PGSIZE).
Proof. exact (page_mask x). Qed.

Lemma pte_flags_spec x : PTE_FLAGS x = x mod PGSIZE.
Proof. unfold PTE_FLAGS. change 0xFFF with (Z.ones 12). by rewrite Z.land_ones by lia. Qed.

(** [pa | flags] for an aligned address. *)
Lemma pte_make pa fl :
  0 ≤ pa < 2 ^ 32 → pa mod PGSIZE = 0 → 0 ≤ fl < PGSIZE →
  Z.lor pa fl = pa + fl ∧ PTE_ADDR (Z.lor pa fl) = pa ∧ PTE_FLAGS (Z.lor pa fl) = fl ∧
  0 ≤ Z.lor pa fl < 2 ^ 32.
Proof.
  intros Hpa Ha Hfl.
  assert (H0 : Z.land pa fl = 0).
  { apply Z.bits_inj'. intros n Hn. rewrite Z.land_spec, Z.bits_0.
    destruct (decide (n < 12)) as [H|H].
    - rewrite (Z.div_mod pa PGSIZE), Ha, Z.add_0_r by (unfold PGSIZE; lia).
      change PGSIZE with (2 ^ 12). rewrite Z.mul_comm, Z.mul_pow2_bits_low by lia. done.
    - rewrite <- (Z.mod_small fl (2 ^ 12)) by (unfold PGSIZE in *; lia).
      rewrite (Z.mod_pow2_bits_high fl) by lia. apply andb_false_r. }
  assert (Hs : Z.lor pa fl = pa + fl) by (pose proof (Z.add_lor_land pa fl); lia).
  rewrite pte_addr_spec, pte_flags_spec, Hs. split; [done|]. unfold PGSIZE in *.
  pose proof (Z.div_mod pa 4096). pose proof (Z.div_mod (pa + fl) 4096).
  pose proof (Z.mod_pos_bound (pa + fl) 4096). lia.
Qed.

Lemma has_P_lor x : has_bit (Z.lor x PTE_P) PTE_P = true.
Proof.
  unfold has_bit. replace (Z.land (Z.lor x PTE_P) PTE_P) with 1; [done|].
  apply Z.bits_inj'. intros n Hn. rewrite Z.land_spec, Z.lor_spec. unfold PTE_P.
  destruct (Z.testbit 1 n); by rewrite ?orb_true_r, ?andb_false_r.
Qed.

(** The two indices of an address. *)
Lemma index_spec va :
  0 ≤ va < 2 ^ 32 →
  0 ≤ PDX va < 1024 ∧ 0 ≤ PTX va < 1024 ∧ va / PGSIZE = 1024 * PDX va + PTX va.
Proof.
  intros Hva. unfold PDX, PTX. change 0x3FF with (Z.ones 10). rewrite !Z.land_ones by lia.
  rewrite !Z.shiftr_div_pow2 by lia. unfold PGSIZE.
  pose proof (Z.mod_pos_bound (va / 2 ^ 22) (2 ^ 10)). pose proof (Z.mod_pos_bound (va / 2 ^ 12) (2 ^ 10)).
  split; [lia|]. split; [lia|]. change 4096 with (2 ^ 12).
  rewrite (Z.div_mod (va / 2 ^ 12) (2 ^ 10)) at 1 by lia. rewrite Z.div_div by lia.
  change (2 ^ 12 * 2 ^ 10) with (2 ^ 22). rewrite (Z.mod_small (va / 2 ^ 22)); [lia|].
  split; [apply Z.div_pos; lia|apply Z.div_lt_upper_bound; lia].
Qed.

Lemma PDX_range va : 0 ≤ va < 2 ^ 32 → 0 ≤ PDX va < 1024.
Proof. intros Hva. by destruct (index_spec va Hva) as (H & _). Qed.

(** Aligned words do not overlap. *)
Lemma word_put a b w k :
  a mod 4 = 0 → b mod 4 = 0 →
  word_at a (put_word b w k) = if decide (a = b) then u32 w else word_at a k.
Proof.
  intros Ha Hb. unfold word_at, put_word. cbn [pmem]. case_decide as He.
  - subst. apply load32_store32.
  - apply load32_ext. intros x Hx. apply store32_out.
    pose proof (Z.div_mod a 4). pose proof (Z.div_mod b 4). lia.
Qed.

Lemma page_word p i : p mod PGSIZE = 0 → (p + 4 * i) mod 4 = 0.
Proof.
  intros Hp. rewrite Z.mul_comm, Z.mod_add by lia. unfold PGSIZE in Hp.
  rewrite (Z.div_mod p 4096), Hp by lia.
  replace (4096 * (p / 4096) + 0) with (1024 * (p / 4096) * 4) by lia. by apply Z.mod_mul.
Qed.

Lemma V2P_P2V t : page_ok end_ t → P2V (V2P t) = t ∧ 0 ≤ V2P t < 2 ^ 32 ∧ V2P t mod PGSIZE = 0 ∧ V2P t < PHYSTOP.
Proof.
  intros (Ha & _ & Hr). unfold P2V, V2P, KERNBASE, PHYSTOP, PGSIZE in *.
  rewrite (u32_small (t - _)) by lia. rewrite u32_small by lia. split; [lia|]. split; [lia|].
  split; [|lia]. rewrite Zminus_mod, Ha. done.
Qed.

(** ** Page tables as maps *)

Definition pde (k : kmem) (pgdir i : Z) : Z := word_at (pgdir + 4 * i) k.
Definition tab (k : kmem) (pgdir i : Z) : Z := P2V (PTE_ADDR (pde k pgdir i)).
Definition present (e : Z) : bool := has_bit e PTE_P.

(** The entry for [va], if it is present. *)
Definition xlate (k : kmem) (pgdir va : Z) : option Z :=
  if present (pde k pgdir (PDX va)) then
    let e := word_at (tab k pgdir (PDX va) + 4 * PTX va) k in
    if present e then Some e else None
  else None.

(** The tables of [pgdir] are pages of their own, none of them on the free list [l]. *)
Record pt_ok (k : kmem) (pgdir : Z) (l : list Z) : Prop := PtOk {
  po_dir : page_ok end_ pgdir ∧ pgdir ∉ l;
  po_tab : ∀ i, 0 ≤ i < 1024 → present (pde k pgdir i) = true →
    page_ok end_ (tab k pgdir i) ∧ tab k pgdir i ∉ l ∧ tab k pgdir i ≠ pgdir;
  po_inj : ∀ i j, 0 ≤ i < 1024 → 0 ≤ j < 1024 → present (pde k pgdir i) = true →
    present (pde k pgdir j) = true → tab k pgdir i = tab k pgdir j → i = j
}.

Definition inpage (p a : Z) : Prop := p ≤ a < p + PGSIZE.

(** The pages of the directory and its tables. *)
Definition istab (k : kmem) (pgdir p : Z) : Prop :=
  p = pgdir ∨ ∃ i, 0 ≤ i < 1024 ∧ present (pde k pgdir i) = true ∧ p = tab k pgdir i.

(** The number of entries without a table. *)
Definition absent (k : kmem) (pgdir : Z) : nat :=
  length (filter (λ i, present (pde k pgdir (Z.of_nat i)) = false) (seq 0 NPDENTRIES)).

#[global] Arguments absent : simpl never.

(** From [k] to [k'] pages of the free list [l] were taken, leaving [l']: the
    frames [fs], and tables.  Only pages of [l] and tables were written. *)
Record vm_step (pgdir : Z) (k : kmem) (l : list Z) (k' : kmem) (l' fs : list Z) : Prop := VmStep {
  vs_free : free_pages end_ k' l';
  vs_ok : pt_ok k' pgdir l';
  vs_used : ∃ u, l = u ++ l';
  vs_frame : ∀ a, (∀ p, istab k pgdir p ∨ p ∈ l → ¬ inpage p a) → pmem k' a = pmem k a;
  vs_tabs : ∀ p, istab k' pgdir p → istab k pgdir p ∨ p ∈ l;
  vs_count : (length l' + absent k pgdir + length fs = length l + absent k' pgdir)%nat;
  vs_nodup : NoDup fs;
  vs_frames : ∀ p, p ∈ fs → p ∈ l ∧ p ∉ l' ∧ ¬ istab k' pgdir p
}.

Lemma word_frame k k' p i :
  0 ≤ i < 1024 → (∀ a, inpage p a → pmem k' a = pmem k a) →
  word_at (p + 4 * i) k' = word_at (p + 4 * i) k.
Proof.
  intros Hi Hm. apply load32_ext. intros x Hx. apply Hm. unfold inpage, PGSIZE. lia.
Qed.

Lemma inpage_apart p q a : page_ok end_ p → page_ok end_ q → p ≠ q → inpage p a → ¬ inpage q a.
Proof.
  intros (Hp & _) (Hq & _) Hne Ha Hb. unfold inpage in *.
  destruct (pages_apart p q Hp Hq Hne); lia.
Qed.

Lemma free_pages_put k l p a w :
  free_pages end_ k l → page_ok end_ p → p ∉ l → inpage p a → inpage p (a + 3) →
  free_pages end_ (put_word a w k) l.
Proof.
  intros [Hc Hnd Hok] Hp Hn Ha Ha3. split; [|done|done]. cbn [put_word pmem freelist].
  eapply (chain_ext end_ (pmem k)); [done..| |done].
  intros x Hx. apply store32_out. unfold inpage in *. lia.
Qed.

Lemma vm_step_refl pgdir k l :
  free_pages end_ k l → pt_ok k pgdir l → vm_step pgdir k l k l [].
Proof.
  intros Hf Ho. split; [done|done|by exists []|done|by left|cbn; lia|constructor|].
  by intros p Hp%elem_of_nil.
Qed.

Lemma vm_step_trans pgdir k1 l1 k2 l2 k3 l3 fs1 fs2 :
  vm_step pgdir k1 l1 k2 l2 fs1 → vm_step pgdir k2 l2 k3 l3 fs2 →
  vm_step pgdir k1 l1 k3 l3 (fs1 ++ fs2).
Proof.
  intros [A1 A2 [u1 A3] A4 A5 A6 A7 A8] [B1 B2 [u2 B3] B4 B5 B6 B7 B8].
  assert (Hl : ∀ p, p ∈ l2 → p ∈ l1) by (intros p Hp; rewrite A3; apply elem_of_app; by right).
  assert (Hl' : ∀ p, p ∈ l3 → p ∈ l2) by (intros p Hp; rewrite B3; apply elem_of_app; by right).
  split; [done|done| | | | | |].
  - exists (u1 ++ u2). by rewrite A3, B3, app_assoc.
  - intros a Ha. rewrite B4, A4; [done|done|]. intros p [Hp|Hp]; apply Ha; auto.
  - intros p Hp. destruct (B5 p Hp) as [Ht|Ht]; [by apply A5|by right; apply Hl].
  - rewrite length_app. lia.
  - apply NoDup_app. split; [done|]. split; [|done]. intros p Hp Hp'.
    destruct (A8 p Hp) as (_ & H & _), (B8 p Hp') as (H' & _). done.
  - intros p [Hp|Hp]%elem_of_app.
    + destruct (A8 p Hp) as (H1 & H2 & H3). split; [done|]. split; [by auto|].
      intros Ht. by destruct (B5 p Ht).
    + destruct (B8 p Hp) as (H1 & H2 & H3). by auto.
Qed.

(** A step leaves the other pages alone. *)
Lemma vm_step_keep pgdir k l k' l' fs p :
  free_pages end_ k l → pt_ok k pgdir l → vm_step pgdir k l k' l' fs →
  page_ok end_ p → ¬ istab k pgdir p → p ∉ l →
  ¬ istab k' pgdir p ∧ p ∉ l' ∧ ∀ a, inpage p a → pmem k' a = pmem k a.
Proof.
  intros Hf Ho HS Hp Hnt Hnl. split; [|split].
  - intros Ht. by destruct (vs_tabs _ _ _ _ _ _ HS p Ht).
  - destruct (vs_used _ _ _ _ _ _ HS) as [u ->]. intros Hx. apply Hnl, elem_of_app. by right.
  - intros a Ha. apply (vs_frame _ _ _ _ _ _ HS). intros q Hq.
    apply (inpage_apart p); [done| |by intros ->; destruct Hq|done].
    destruct Hq as [[->|(i & Hi & Hpi & ->)]|Hq]; [apply Ho|by apply (po_tab _ _ _ Ho)|].
    by apply (fp_ok _ _ _ Hf).
Qed.

Lemma page_ok_nonzero p : page_ok end_ p → p ≠ 0.
Proof. intros (_ & _ & H). unfold KERNBASE in H. lia. Qed.

Lemma present_zero : present 0 = false.
Proof. done. Qed.

(** ** [walkpgdir] *)

Lemma walk_present k pgdir va alloc :
  present (pde k pgdir (PDX va)) = true →
  walkpgdir pgdir va alloc k = Done (tab k pgdir (PDX va) + 4 * PTX va, k).
Proof. intros Hp. unfold walkpgdir. rewrite run_gets. unfold present, pde in Hp. by rewrite Hp. Qed.

(** A new page [t] becomes the table of entry [d]. *)
Section new_table.
Context (k : kmem) (pgdir : Z) (t : Z) (l : list Z) (k' : kmem) (d : Z).
Hypothesis Hok : pt_ok k pgdir (t :: l).
Hypothesis Hfree : free_pages end_ k (t :: l).
Hypothesis Hd : 0 ≤ d < 1024.
Hypothesis Hlist : chain (pmem k) (freelist k') l.
Hypothesis Hmem : pmem k' = store32 (memset (pmem k) t 0 PGSIZE) (pgdir + 4 * d)
  (Z.lor (Z.lor (Z.lor (V2P t) PTE_P) PTE_W) PTE_U).

Lemma nt_page : page_ok end_ t.
Proof. apply (fp_ok _ _ _ Hfree). by constructor. Qed.

Lemma nt_dir : page_ok end_ pgdir ∧ pgdir ≠ t.
Proof.
  destruct (po_dir _ _ _ Hok) as [H1 H2]. split; [done|]. intros ->. apply H2. by constructor.
Qed.

Lemma nt_out a : ¬ inpage t a → ¬ (pgdir + 4 * d ≤ a < pgdir + 4 * d + 4) → pmem k' a = pmem k a.
Proof.
  intros Ht Ha. rewrite Hmem, store32_out by done. rewrite memset_at by (unfold PGSIZE; lia).
  rewrite decide_False; [done|]. done.
Qed.

Lemma nt_pde i : 0 ≤ i < 1024 → i ≠ d → pde k' pgdir i = pde k pgdir i.
Proof.
  intros Hi Hne. destruct nt_dir as [Hp Hpt]. apply load32_ext. intros x Hx. apply nt_out; [|lia].
  apply (inpage_apart pgdir); [done|apply nt_page|done|]. unfold inpage, PGSIZE. lia.
Qed.

Lemma nt_entry : pde k' pgdir d = V2P t + 7 ∧ present (pde k' pgdir d) = true ∧ tab k' pgdir d = t.
Proof.
  destruct (V2P_P2V t nt_page) as (H1 & H2 & H3 & _).
  destruct (pte_make (V2P t) 7 H2 H3 ltac:(unfold PGSIZE; lia)) as (Hs & Ha & _ & Hr).
  assert (He : pde k' pgdir d = V2P t + 7).
  { unfold pde, word_at. rewrite Hmem, load32_store32, <- !Z.lor_assoc.
    change (Z.lor PTE_P (Z.lor PTE_W PTE_U)) with 7. by rewrite u32_small. }
  split; [done|]. split.
  - rewrite He, <- Hs. change 7 with (Z.lor 6 PTE_P). rewrite Z.lor_assoc. apply has_P_lor.
  - unfold tab. by rewrite He, <- Hs, Ha.
Qed.

Lemma nt_zero j : 0 ≤ j < 1024 → word_at (t + 4 * j) k' = 0.
Proof.
  intros Hj. destruct nt_dir as [Hp Hpt]. unfold word_at.
  assert (Hz : ∀ x, t + 4 * j ≤ x < t + 4 * j + 4 → pmem k' x = 0).
  { intros x Hx. rewrite Hmem, store32_out.
    - rewrite memset_at by (unfold PGSIZE; lia). rewrite decide_True by (unfold PGSIZE; lia). done.
    - intros Hy. apply (inpage_apart t pgdir x); [apply nt_page|done|done| |]; unfold inpage, PGSIZE; lia. }
  unfold load32. rewrite !Hz by lia. done.
Qed.
(** The other tables keep their place and contents. *)
Lemma nt_tab i j :
  0 ≤ i < 1024 → i ≠ d → 0 ≤ j < 1024 → present (pde k pgdir i) = true →
  tab k' pgdir i = tab k pgdir i ∧
  word_at (tab k pgdir i + 4 * j) k' = word_at (tab k pgdir i + 4 * j) k.
Proof.
  intros Hi Hne Hj Hp. split; [unfold tab; by rewrite nt_pde|].
  destruct (po_tab _ _ _ Hok i Hi Hp) as (Ho & Hn & Hne').
  apply word_frame; [done|]. intros a Ha. apply nt_out.
  - apply (inpage_apart (tab k pgdir i)); [done|apply nt_page| |done].
    intros He. apply Hn. rewrite He. by constructor.
  - intros Hx. apply (inpage_apart (tab k pgdir i) pgdir a); [done|apply nt_dir|done|done|].
    unfold inpage, PGSIZE. lia.
Qed.

Lemma nt_xlate va : present (pde k pgdir d) = false → 0 ≤ va < 2 ^ 32 → xlate k' pgdir va = xlate k pgdir va.
Proof.
  intros Habs Hva. destruct (index_spec va Hva) as (H1 & H2 & _). unfold xlate.
  destruct (decide (PDX va = d)) as [He|Hne].
  - rewrite He, Habs. destruct nt_entry as (_ & -> & ->). by rewrite nt_zero.
  - rewrite nt_pde by done. destruct (present (pde k pgdir (PDX va))) eqn:Hp; [|done].
    destruct (nt_tab (PDX va) (PTX va) H1 Hne H2 Hp) as [-> ->]. done.
Qed.

Lemma nt_step : present (pde k pgdir d) = false → vm_step pgdir k (t :: l) k' l [].
Proof.
  intros Habs. pose proof Hfree as [Hc Hnd Hpg]. apply NoDup_cons in Hnd as [Ht Hnd].
  destruct nt_dir as [Hdir Hdt]. destruct nt_entry as (_ & Hp & Htab).
  assert (Hin : ∀ p, p ∈ l → p ∈ t :: l) by (intros; by constructor).
  assert (Hpd : ∀ i, 0 ≤ i < 1024 → i ≠ d → present (pde k' pgdir i) = true →
            present (pde k pgdir i) = true ∧ tab k' pgdir i = tab k pgdir i).
  { intros i Hi Hne Hpi. rewrite nt_pde in Hpi by done. split; [done|]. by apply (nt_tab i 0). }
  split.
  - split; [|done|by auto]. rewrite Hmem.
    apply (chain_ext end_ (memset (pmem k) t 0 PGSIZE) _ _ _ pgdir); [done| |by auto| |].
    { intros Hx. by apply (proj2 (po_dir _ _ _ Hok)), Hin. }
    { intros x Hx. apply store32_out. unfold PGSIZE in Hx. lia. }
    apply (chain_ext end_ (pmem k) _ _ _ t); [apply nt_page|done|by auto| |done].
    intros x Hx. rewrite memset_at by (unfold PGSIZE; lia). by rewrite decide_False.
  - split.
    + split; [done|]. intros Hx. by apply (proj2 (po_dir _ _ _ Hok)), Hin.
    + intros i Hi Hpi. destruct (decide (i = d)) as [->|Hne].
      { rewrite Htab. split; [apply nt_page|]. split; [done|congruence]. }
      destruct (Hpd i Hi Hne Hpi) as [Hpk ->]. destruct (po_tab _ _ _ Hok i Hi Hpk) as (A & B & C).
      split; [done|]. split; [|done]. intros Hx. by apply B, Hin.
    + intros i j Hi Hj Hpi Hpj He.
      destruct (decide (i = d)) as [->|Hid], (decide (j = d)) as [->|Hjd]; [done| | |].
      * destruct (Hpd j Hj Hjd Hpj) as [Hpk Hte]. rewrite Htab, Hte in He. exfalso.
        destruct (po_tab _ _ _ Hok j Hj Hpk) as (_ & B & _). apply B. rewrite <- He. by constructor.
      * destruct (Hpd i Hi Hid Hpi) as [Hpk Hte]. rewrite Htab, Hte in He. exfalso.
        destruct (po_tab _ _ _ Hok i Hi Hpk) as (_ & B & _). apply B. rewrite He. by constructor.
      * destruct (Hpd i Hi Hid Hpi) as [Hpi' Hti], (Hpd j Hj Hjd Hpj) as [Hpj' Htj].
        apply (po_inj _ _ _ Hok); [done..|congruence].
  - by exists [t].
  - intros a Ha. apply nt_out.
    + apply Ha. right. by constructor.
    + intros Hx. apply (Ha pgdir); [left; by left|]. unfold inpage, PGSIZE. lia.
  - intros p [->|(i & Hi & Hpi & ->)]; [left; by left|]. destruct (decide (i = d)) as [->|Hne].
    + right. rewrite Htab. by constructor.
    + destruct (Hpd i Hi Hne Hpi) as [Hpk ->]. left. right. by exists i.
  - unfold absent. rewrite (filter_flip (λ i, present (pde k pgdir (Z.of_nat i)) = false)
      (λ i, present (pde k' pgdir (Z.of_nat i)) = false) _ (Z.to_nat d)); [cbn [length]; lia|apply NoDup_seq|..].
    + apply elem_of_seq. unfold NPDENTRIES. lia.
    + by rewrite Z2Nat.id by lia.
    + rewrite Z2Nat.id by lia. by rewrite Hp.
    + intros i Hi%elem_of_seq Hne. unfold NPDENTRIES in Hi. by rewrite nt_pde by lia.
  - constructor.
  - by intros p Hq%elem_of_nil.
Qed.
End new_table.

Lemma walk_alloc_run k pgdir l va :
  free_pages end_ k l → pt_ok k pgdir l → 0 ≤ va < 2 ^ 32 →
  (l = [] ∧ walkpgdir pgdir va true k = Done (0, k)) ∨
  ∃ k' l', walkpgdir pgdir va true k = Done (tab k' pgdir (PDX va) + 4 * PTX va, k') ∧
    vm_step pgdir k l k' l' [] ∧ present (pde k' pgdir (PDX va)) = true ∧
    (∀ va', 0 ≤ va' < 2 ^ 32 → xlate k' pgdir va' = xlate k pgdir va').
Proof.
  intros Hf Ho Hva. destruct (index_spec va Hva) as (Hd & _ & _).
  destruct (present (pde k pgdir (PDX va))) eqn:Hp.
  { right. exists k, l. split; [by apply walk_present|]. split; [by apply vm_step_refl|]. by auto. }
  unfold walkpgdir. rewrite run_gets. unfold present, pde in Hp. rewrite Hp. cbn [negb].
  unfold kalloc. rewrite run_bind, run_getS.
  destruct l as [|t l]; pose proof (fp_chain _ _ _ Hf) as Hc; cbn [chain] in Hc.
  { left. rewrite Hc. done. }
  destruct Hc as [Hft Hc]. right.
  assert (Ht : t ≠ 0) by (apply page_ok_nonzero, (fp_ok _ _ _ Hf); by constructor).
  unfold c_true at 1. rewrite Hft, (proj2 (Z.eqb_neq t 0) Ht). cbn [negb].
  rewrite run_modS. cbn [mret M_ret]. rewrite (proj2 (Z.eqb_neq t 0) Ht), !run_modS.
  eexists _, l. split; [|split; [|split]].
  - assert (He := nt_entry k pgdir t l (put_word (pgdir + 4 * PDX va)
      (Z.lor (Z.lor (Z.lor (V2P t) PTE_P) PTE_W) PTE_U)
      (put_mem (λ m, memset m t 0 PGSIZE) (Kmem (use_lock k) (load32 (pmem k) t) (pmem k)))) (PDX va) Hf eq_refl).
    destruct He as (_ & _ & He). unfold mret, M_ret. do 3 f_equal. symmetry. exact He.
  - eapply (nt_step k pgdir t l _ (PDX va)); done.
  - eapply (nt_entry k pgdir t l _ (PDX va)); done.
  - intros va' Hva'. eapply (nt_xlate k pgdir t l _ (PDX va)); done.
Qed.

(** ** Writing an entry *)

Section set_pte.
Context (k : kmem) (pgdir : Z) (l : list Z) (va w : Z).
Hypothesis Hf : free_pages end_ k l.
Hypothesis Ho : pt_ok k pgdir l.
Hypothesis Hva : 0 ≤ va < 2 ^ 32.
Hypothesis Hp : present (pde k pgdir (PDX va)) = true.
Let t := tab k pgdir (PDX va).
Let k' := put_word (t + 4 * PTX va) w k.

Lemma sp_tab : page_ok end_ t ∧ t ∉ l ∧ t ≠ pgdir.
Proof. apply (po_tab _ _ _ Ho); [by apply PDX_range|done]. Qed.

Lemma sp_in a : t + 4 * PTX va ≤ a < t + 4 * PTX va + 4 → inpage t a.
Proof. destruct (index_spec va Hva) as (_ & H & _). unfold inpage, PGSIZE. lia. Qed.

Lemma sp_out a : ¬ inpage t a → pmem k' a = pmem k a.
Proof. intros Ha. apply store32_out. intros Hx. by apply Ha, sp_in. Qed.

Lemma sp_pde i : 0 ≤ i < 1024 → pde k' pgdir i = pde k pgdir i.
Proof.
  intros Hi. apply word_frame; [done|]. intros a Ha. apply sp_out.
  destruct sp_tab as (H1 & _ & H2). apply (inpage_apart pgdir); [apply Ho|done|congruence|done].
Qed.

Lemma sp_tab_same i : 0 ≤ i < 1024 → tab k' pgdir i = tab k pgdir i.
Proof. intros Hi. unfold tab. by rewrite sp_pde. Qed.

Lemma sp_step : vm_step pgdir k l k' l [].
Proof.
  destruct sp_tab as (H1 & H2 & H3). destruct (index_spec va Hva) as (_ & Hx & _). split.
  - apply (free_pages_put k l t); [done..| |]; unfold inpage, PGSIZE; lia.
  - destruct Ho as [A B C]. split; [done| |].
    + intros i Hi Hpi. rewrite sp_pde in Hpi by done. rewrite sp_tab_same by done. by apply B.
    + intros i j Hi Hj. rewrite !sp_pde, !sp_tab_same by done. by apply C.
  - by exists [].
  - intros a Ha. apply sp_out, Ha. left. right. exists (PDX va).
    split; [by apply PDX_range|done].
  - intros p [->|(i & Hi & Hpi & ->)]; left; [by left|]. right. exists i.
    rewrite sp_pde in Hpi by done. rewrite sp_tab_same by done. done.
  - unfold absent. rewrite Nat.add_0_r. do 2 f_equal. apply filter_same. intros i Hi%elem_of_seq.
    unfold NPDENTRIES in Hi. by rewrite sp_pde by lia.
  - constructor.
  - by intros p Hq%elem_of_nil.
Qed.

Lemma sp_xlate va' :
  0 ≤ va' < 2 ^ 32 →
  xlate k' pgdir va' =
    if decide (va' / PGSIZE = va / PGSIZE) then (if present (u32 w) then Some (u32 w) else None)
    else xlate k pgdir va'.
Proof.
  intros Hva'. destruct (index_spec va Hva) as (A1 & A2 & A3), (index_spec va' Hva') as (B1 & B2 & B3).
  unfold xlate. rewrite sp_pde, sp_tab_same by done. case_decide as He.
  - assert (PDX va' = PDX va ∧ PTX va' = PTX va) as [-> ->] by lia. rewrite Hp. fold t.
    unfold k'. rewrite word_put by (apply page_word; apply sp_tab). by rewrite decide_True.
  - destruct (present (pde k pgdir (PDX va'))) eqn:Hp'; [|done].
    destruct (po_tab _ _ _ Ho _ B1 Hp') as (C1 & C2 & C3).
    unfold k'. rewrite word_put by (apply page_word; (apply C1 || apply sp_tab)).
    rewrite decide_False; [done|]. intros Hw. unfold t in Hw.
    destruct (decide (PDX va' = PDX va)) as [E|E]; [rewrite E in Hw; lia|].
    destruct (pages_apart (tab k pgdir (PDX va')) (tab k pgdir (PDX va))) as [H|H];
      [apply C1|apply sp_tab| | |]; unfold PGSIZE in *; try lia.
    intros Ht. apply E. by apply (po_inj _ _ _ Ho).
Qed.
End set_pte.

(** ** [mappages] *)

Definition new_pte (pa perm : Z) : Z := Z.lor (Z.lor pa perm) PTE_P.

Lemma new_pte_spec pa perm :
  0 ≤ pa < 2 ^ 32 → pa mod PGSIZE = 0 → 0 ≤ perm < PGSIZE →
  u32 (new_pte pa perm) = new_pte pa perm ∧ present (new_pte pa perm) = true ∧
  PTE_ADDR (new_pte pa perm) = pa ∧ PTE_FLAGS (new_pte pa perm) = Z.lor perm PTE_P.
Proof.
  intros H1 H2 H3.
  assert (H4 : 0 ≤ Z.lor perm PTE_P < PGSIZE).
  { split; [apply Z.lor_nonneg; unfold PTE_P; lia|].
    apply Z.log2_lt_cancel. rewrite Z.log2_lor by (unfold PTE_P; lia).
    change (Z.log2 PGSIZE) with 12. change (Z.log2 PTE_P) with 0.
    destruct (decide (perm = 0)) as [->|]; [done|].
    assert (Z.log2 perm < 12); [|lia]. apply Z.log2_lt_pow2; [lia|]. change (2 ^ 12) with PGSIZE. lia. }
  unfold new_pte. split.
  - rewrite <- Z.lor_assoc. destruct (pte_make pa _ H1 H2 H4) as (_ & _ & _ & Hr). by apply u32_small.
  - split; [apply has_P_lor|]. rewrite <- Z.lor_assoc.
    by destruct (pte_make pa _ H1 H2 H4) as (_ & -> & -> & _).
Qed.

Lemma tab_nonzero k pgdir l i j :
  pt_ok k pgdir l → 0 ≤ i < 1024 → 0 ≤ j → present (pde k pgdir i) = true →
  tab k pgdir i + 4 * j ≠ 0.
Proof.
  intros Ho Hi Hj Hp. destruct (po_tab _ _ _ Ho i Hi Hp) as ((_ & _ & H) & _).
  unfold KERNBASE in H. lia.
Qed.

(** Present tables and absent mappings: the entry itself is not present. *)
Lemma xlate_none k pgdir va :
  present (pde k pgdir (PDX va)) = true → xlate k pgdir va = None →
  present (word_at (tab k pgdir (PDX va) + 4 * PTX va) k) = false.
Proof.
  unfold xlate. intros -> Hx. by destruct (present (word_at _ k)).
Qed.

Lemma absent_pos k pgdir i :
  0 ≤ i < 1024 → present (pde k pgdir i) = false → (1 ≤ absent k pgdir)%nat.
Proof.
  intros Hi Hp. unfold absent.
  assert (Hin : Z.to_nat i ∈ filter (λ i, present (pde k pgdir (Z.of_nat i)) = false) (seq 0 NPDENTRIES)).
  { apply list_elem_of_filter. rewrite Z2Nat.id by lia. split; [done|].
    apply elem_of_seq. unfold NPDENTRIES. lia. }
  destruct (filter _ (seq 0 NPDENTRIES)); [by apply elem_of_nil in Hin|cbn [length]; lia].
Qed.

(** One page: there is no page left for its table, or it is mapped. *)
Lemma map_one_cases k pgdir l va pa perm :
  free_pages end_ k l → pt_ok k pgdir l →
  0 ≤ va < 2 ^ 32 → 0 ≤ pa < 2 ^ 32 → pa mod PGSIZE = 0 → 0 ≤ perm < PGSIZE →
  xlate k pgdir va = None →
  (l = [] ∧ present (pde k pgdir (PDX va)) = false ∧ walkpgdir pgdir va true k = Done (0, k)) ∨
  ∃ pte k1 k2 l', walkpgdir pgdir va true k = Done (pte, k1) ∧ pte ≠ 0 ∧
    has_bit (word_at pte k1) PTE_P = false ∧ k2 = put_word pte (new_pte pa perm) k1 ∧
    vm_step pgdir k l k2 l' [] ∧
    (∀ va', 0 ≤ va' < 2 ^ 32 → xlate k2 pgdir va' =
       if decide (va' / PGSIZE = va / PGSIZE) then Some (new_pte pa perm) else xlate k pgdir va').
Proof.
  intros Hf Ho Hva Hpa Hal Hperm Hx. pose proof (PDX_range va Hva) as Hd.
  destruct (index_spec va Hva) as (_ & Ht & _).
  destruct (walk_alloc_run k pgdir l va Hf Ho Hva) as [[-> Hw]|(k1 & l' & Hw & Hs & Hp & Hxs)].
  { left. split; [done|]. split; [|done]. destruct (present (pde k pgdir (PDX va))) eqn:Hp; [|done].
    rewrite (walk_present _ _ _ _ Hp) in Hw. injection Hw as Hw.
    exfalso. apply (tab_nonzero k pgdir [] (PDX va) (PTX va)); [done|done|lia|done|done]. }
  right. destruct (new_pte_spec pa perm Hpa Hal Hperm) as (Hu & Hpr & _).
  eexists _, k1, _, l'. split; [done|].
  split; [eapply tab_nonzero; [apply Hs|done|lia|done]|].
  split; [apply xlate_none; [done|by rewrite Hxs]|]. split; [done|]. split.
  - apply (vm_step_trans _ _ _ _ _ _ _ [] [] Hs). apply sp_step; [apply Hs|apply Hs|done|done].
  - intros va' Hva'. rewrite (sp_xlate k1 pgdir l') by (done || apply Hs).
    rewrite Hu, Hpr. by case_decide; [|apply Hxs].
Qed.

Lemma map_one k pgdir l va pa perm :
  free_pages end_ k l → pt_ok k pgdir l → (absent k pgdir ≤ length l)%nat →
  0 ≤ va < 2 ^ 32 → 0 ≤ pa < 2 ^ 32 → pa mod PGSIZE = 0 → 0 ≤ perm < PGSIZE →
  xlate k pgdir va = None →
  ∃ pte k1 k2 l', walkpgdir pgdir va true k = Done (pte, k1) ∧ pte ≠ 0 ∧
    has_bit (word_at pte k1) PTE_P = false ∧ k2 = put_word pte (new_pte pa perm) k1 ∧
    vm_step pgdir k l k2 l' [] ∧
    (∀ va', 0 ≤ va' < 2 ^ 32 → xlate k2 pgdir va' =
       if decide (va' / PGSIZE = va / PGSIZE) then Some (new_pte pa perm) else xlate k pgdir va').
Proof.
  intros Hf Ho Hn Hva Hpa Hal Hperm Hx.
  destruct (map_one_cases k pgdir l va pa perm) as [(-> & Hp & _)|H]; try done.
  apply absent_pos in Hp; [cbn [length] in Hn; lia|by apply PDX_range].
Qed.

(** [mappages] of one page, whatever is left of memory. *)
Lemma mappages_one k pgdir l va pa perm :
  free_pages end_ k l → pt_ok k pgdir l →
  0 ≤ va → va + PGSIZE ≤ 2 ^ 32 → va mod PGSIZE = 0 → 0 ≤ pa < 2 ^ 32 → pa mod PGSIZE = 0 → 0 ≤ perm < PGSIZE →
  xlate k pgdir va = None →
  (l = [] ∧ mappages pgdir va PGSIZE pa perm k = Done (-1, k)) ∨
  ∃ k' l', mappages pgdir va PGSIZE pa perm k = Done (0, k') ∧ vm_step pgdir k l k' l' [] ∧
    (∀ va', 0 ≤ va' < 2 ^ 32 → xlate k' pgdir va' =
       if decide (va' / PGSIZE = va / PGSIZE) then Some (new_pte pa perm) else xlate k pgdir va').
Proof.
  intros Hf Ho Hva Hva2 Hal Hpa Hpal Hperm Hx.
  assert (E : mappages pgdir va PGSIZE pa perm = mappages_loop 0 pgdir va va pa perm).
  { unfold mappages, PGROUNDDOWN. rewrite !page_mask, (u32_small (va + _ - 1)) by (unfold PGSIZE in *; lia).
    assert (E1 : PGSIZE * (va / PGSIZE) = va) by (rewrite (Z.div_mod va PGSIZE) at 2 by done; lia).
    assert (E2 : (va + PGSIZE - 1) / PGSIZE = va / PGSIZE).
    { replace (va + PGSIZE - 1) with (PGSIZE - 1 + va / PGSIZE * PGSIZE) by lia.
      rewrite Z.div_add by done. by rewrite Z.div_small by (unfold PGSIZE; lia). }
    by rewrite E2, E1, Z.sub_diag. }
  rewrite E. cbn [mappages_loop].
  destruct (map_one_cases k pgdir l va pa perm) as [(-> & _ & Hw)|(pte & k1 & k2 & l' & Hw & Hnz & Hnp & -> & Hs & Hxl)];
    [done|done|unfold PGSIZE in *; lia|done..| |]; rewrite (bind_done _ _ _ _ _ Hw).
  - by left.
  - right. rewrite (proj2 (Z.eqb_neq _ _) Hnz), run_gets, Hnp, run_modS, Z.eqb_refl. eexists _, l'. by split_and!.
Qed.

(** [n] pages from [va] to [pa] on. *)
Definition mapped_range (k : kmem) (pgdir va pa perm : Z) (n : nat) (k' : kmem) : Prop :=
  ∀ va', 0 ≤ va' < 2 ^ 32 → xlate k' pgdir va' =
    if decide (va / PGSIZE ≤ va' / PGSIZE < va / PGSIZE + Z.of_nat n)
    then Some (new_pte (pa + PGSIZE * (va' / PGSIZE - va / PGSIZE)) perm) else xlate k pgdir va'.

Lemma page_succ a : (a + PGSIZE) / PGSIZE = a / PGSIZE + 1.
Proof. unfold PGSIZE. replace (a + 4096) with (a + 1 * 4096) by lia. by rewrite Z.div_add. Qed.

Lemma mappages_loop_run n : ∀ k l pgdir a pa perm,
  free_pages end_ k l → pt_ok k pgdir l → (absent k pgdir ≤ length l)%nat →
  0 ≤ a → a + PGSIZE * Z.of_nat n < 2 ^ 32 → 0 ≤ pa → pa + PGSIZE * Z.of_nat n < 2 ^ 32 →
  pa mod PGSIZE = 0 → 0 ≤ perm < PGSIZE →
  (∀ i, (i ≤ n)%nat → xlate k pgdir (a + PGSIZE * Z.of_nat i) = None) →
  ∃ k' l', mappages_loop n pgdir a (a + PGSIZE * Z.of_nat n) pa perm k = Done (0, k') ∧
    vm_step pgdir k l k' l' [] ∧ mapped_range k pgdir a pa perm (S n) k'.
Proof.
  induction n as [|n IH]; intros k l pgdir a pa perm Hf Ho Hn Ha Ha2 Hpa Hpa2 Hal Hperm Hx.
  all: destruct (map_one k pgdir l a pa perm) as (pte & k1 & k2 & l2 & Hw & Hnz & Hnp & -> & Hs & Hxl);
    [done|done|done|unfold PGSIZE in *; lia|unfold PGSIZE in *; lia|done|done|by rewrite <- (Z.add_0_r a); apply (Hx 0%nat); lia|].
  all: cbn [mappages_loop]; rewrite (bind_done _ _ _ _ _ Hw), (proj2 (Z.eqb_neq _ _) Hnz);
    rewrite run_gets, Hnp, run_modS; fold (new_pte pa perm).
  - rewrite (proj2 (Z.eqb_eq _ _)) by (unfold PGSIZE; lia). eexists _, l2. split; [done|]. split; [done|].
    intros va' Hva'. rewrite Hxl by done. case_decide as H1; case_decide as H2; try lia; [|done].
    do 2 f_equal. rewrite H1. lia.
  - rewrite (proj2 (Z.eqb_neq _ _)) by (unfold PGSIZE; lia).
    rewrite !u32_small by (unfold PGSIZE in *; lia).
    destruct (IH _ l2 pgdir (a + PGSIZE) (pa + PGSIZE) perm (vs_free _ _ _ _ _ _ Hs) (vs_ok _ _ _ _ _ _ Hs))
      as (k' & l' & Hr & Hs' & Hm).
    + pose proof (vs_count _ _ _ _ _ _ Hs) as Hc. cbn [length] in Hc. lia.
    + unfold PGSIZE; lia.
    + unfold PGSIZE in *; lia.
    + unfold PGSIZE; lia.
    + unfold PGSIZE in *; lia.
    + rewrite Zplus_mod, Hal. done.
    + done.
    + intros i Hi. rewrite Hxl.
      * rewrite decide_False; [|].
        { replace (a + PGSIZE + PGSIZE * Z.of_nat i) with (a + PGSIZE * Z.of_nat (S i)) by (unfold PGSIZE; lia). apply Hx. lia. }
        replace (a + PGSIZE + PGSIZE * Z.of_nat i) with (a + (1 + Z.of_nat i) * PGSIZE) by (unfold PGSIZE; lia).
        rewrite Z.div_add by (unfold PGSIZE; lia). lia.
      * unfold PGSIZE in *. lia.
    + exists k', l'. split; [|split; [exact (vm_step_trans _ _ _ _ _ _ _ [] [] Hs Hs')|]].
      * rewrite <- Hr. f_equal. unfold PGSIZE; lia.
      * intros va' Hva'. rewrite Hm, Hxl by done. rewrite page_succ.
        repeat case_decide; try lia; try done; do 2 f_equal; lia.
Qed.

Lemma mappages_run n k l pgdir va size pa perm :
  free_pages end_ k l → pt_ok k pgdir l → (absent k pgdir ≤ length l)%nat →
  0 ≤ va → va mod PGSIZE = 0 → size = PGSIZE * Z.of_nat (S n) → va + size ≤ 2 ^ 32 →
  0 ≤ pa → pa + size ≤ 2 ^ 32 → pa mod PGSIZE = 0 → 0 ≤ perm < PGSIZE →
  (∀ i, (i ≤ n)%nat → xlate k pgdir (va + PGSIZE * Z.of_nat i) = None) →
  ∃ k' l', mappages pgdir va size pa perm k = Done (0, k') ∧
    vm_step pgdir k l k' l' [] ∧ mapped_range k pgdir va pa perm (S n) k'.
Proof.
  intros Hf Ho Hn Hva Hal -> Hr Hpa Hpr Hpal Hperm Hx. unfold mappages, PGROUNDDOWN.
  rewrite !page_mask, (u32_small (va + _ - 1)) by (unfold PGSIZE in *; lia).
  assert (E1 : PGSIZE * (va / PGSIZE) = va).
  { rewrite (Z.div_mod va PGSIZE) at 2 by (unfold PGSIZE; lia). lia. }
  assert (E2 : (va + PGSIZE * Z.of_nat (S n) - 1) / PGSIZE = va / PGSIZE + Z.of_nat n).
  { replace (va + PGSIZE * Z.of_nat (S n) - 1) with (PGSIZE - 1 + (va / PGSIZE + Z.of_nat n) * PGSIZE) by lia.
    rewrite Z.div_add by (unfold PGSIZE; lia). by rewrite Z.div_small by (unfold PGSIZE; lia). }
  rewrite E2, Z.mul_add_distr_l, E1.
  rewrite u32_small by (unfold PGSIZE in *; lia).
  replace (Z.to_nat ((va + PGSIZE * Z.of_nat n - va) / PGSIZE)) with n.
  - apply mappages_loop_run; try done; lia || (unfold PGSIZE in *; lia).
  - replace (va + PGSIZE * Z.of_nat n - va) with (Z.of_nat n * PGSIZE) by lia.
    rewrite Z.div_mul by (unfold PGSIZE; lia). lia.
Qed.

(** ** Frames *)

(** A page taken from the free list and filled by [g]. *)
Lemma take_page k pgdir p l g :
  free_pages end_ k (p :: l) → pt_ok k pgdir (p :: l) →
  (∀ m a, ¬ inpage p a → g m a = m a) →
  ∃ k1, kalloc k = Done (p, k1) ∧ pmem k1 = pmem k ∧
    vm_step pgdir k (p :: l) (put_mem g k1) l [p] ∧
    ∀ va, 0 ≤ va < 2 ^ 32 → xlate (put_mem g k1) pgdir va = xlate k pgdir va.
Proof.
  intros Hf Ho Hg. destruct (kalloc_run end_ k (p :: l) Hf) as (k1 & Hr & Hf1 & _ & Hm).
  cbn [drop] in Hf1. exists k1. split; [done|]. split; [done|].
  assert (Hp : page_ok end_ p) by (apply (fp_ok _ _ _ Hf); by constructor).
  pose proof (fp_nodup _ _ _ Hf) as [Hpl Hnd]%NoDup_cons.
  assert (Hout : ∀ a, ¬ inpage p a → pmem (put_mem g k1) a = pmem k a).
  { intros a Ha. cbn. rewrite Hg by done. by rewrite Hm. }
  assert (Hdir : ∀ i, 0 ≤ i < 1024 → pde (put_mem g k1) pgdir i = pde k pgdir i).
  { intros i Hi. apply word_frame; [done|]. intros a Ha. apply Hout.
    destruct (po_dir _ _ _ Ho) as [H1 H2].
    apply (inpage_apart pgdir); [done|done|intros ->; apply H2; by constructor|done]. }
  assert (Htab : ∀ i, 0 ≤ i < 1024 → tab (put_mem g k1) pgdir i = tab k pgdir i).
  { intros i Hi. unfold tab. by rewrite Hdir. }
  assert (Hnt : ¬ istab k pgdir p).
  { intros [->|(i & Hi & Hpi & He)].
    - apply (proj2 (po_dir _ _ _ Ho)). by constructor.
    - destruct (po_tab _ _ _ Ho i Hi Hpi) as (_ & Hn & _). apply Hn. rewrite <- He. by constructor. }
  assert (Hist : ∀ q, istab (put_mem g k1) pgdir q → istab k pgdir q).
  { intros q [->|(i & Hi & Hpi & ->)]; [by left|]. rewrite Hdir in Hpi by done. rewrite Htab by done.
    right. by exists i. }
  split.
  - split.
    + destruct Hf1 as [Hc Hnd1 Hpg]. split; [|done|done]. cbn.
      apply (chain_ext end_ (pmem k1) _ _ _ p); [done..| |done]. intros x Hx. by apply Hg.
    + destruct Ho as [[A1 A1'] B C]. split.
      * split; [done|]. intros Hx. apply A1'. by constructor.
      * intros i Hi Hpi. rewrite Hdir in Hpi by done. rewrite Htab by done.
        destruct (B i Hi Hpi) as (B1 & B2 & B3). split; [done|]. split; [|done].
        intros Hx. apply B2. by constructor.
      * intros i j Hi Hj. rewrite !Hdir, !Htab by done. by apply C.
    + by exists [p].
    + intros a Ha. apply Hout, Ha. right. by constructor.
    + intros q Hq. left. by apply Hist.
    + unfold absent. cbn [length].
      rewrite (filter_same (λ i, present (pde (put_mem g k1) pgdir (Z.of_nat i)) = false)
        (λ i, present (pde k pgdir (Z.of_nat i)) = false)); [lia|].
      intros i Hi%elem_of_seq. unfold NPDENTRIES in Hi. by rewrite Hdir by lia.
    + by apply NoDup_singleton.
    + intros q ->%list_elem_of_singleton. split; [by constructor|]. split; [done|]. by intros H%Hist.
  - intros va Hva. destruct (index_spec va Hva) as (H1 & H2 & _). unfold xlate.
    rewrite Hdir, Htab by done. destruct (present (pde k pgdir (PDX va))) eqn:Hpp; [|done].
    rewrite (word_frame k); [done|done|]. intros a Ha. apply Hout.
    destruct (po_tab _ _ _ Ho _ H1 Hpp) as (B1 & B2 & _).
    apply (inpage_apart (tab k pgdir (PDX va))); [done|done| |done].
    intros He. apply B2. rewrite He. by constructor.
Qed.

(** A frame mapped at [va]. *)
Lemma map_frame k pgdir p l g va perm :
  free_pages end_ k (p :: l) → pt_ok k pgdir (p :: l) → (absent k pgdir ≤ length l)%nat →
  (∀ m a, ¬ inpage p a → g m a = m a) →
  0 ≤ va → va + PGSIZE ≤ 2 ^ 32 → va mod PGSIZE = 0 → 0 ≤ perm < PGSIZE → xlate k pgdir va = None →
  ∃ k1 k2 l', kalloc k = Done (p, k1) ∧
    mappages pgdir va PGSIZE (V2P p) perm (put_mem g k1) = Done (0, k2) ∧
    vm_step pgdir k (p :: l) k2 l' [p] ∧
    (∀ va', 0 ≤ va' < 2 ^ 32 → xlate k2 pgdir va' =
       if decide (va' / PGSIZE = va / PGSIZE) then Some (new_pte (V2P p) perm) else xlate k pgdir va') ∧
    (∀ a, inpage p a → pmem k2 a = g (pmem k) a).
Proof.
  intros Hf Ho Hn Hg Hva Hva2 Hal Hperm Hx.
  destruct (take_page k pgdir p l g Hf Ho Hg) as (k1 & Hr & Hm & Hs & Hxs).
  assert (Hp : page_ok end_ p) by (apply (fp_ok _ _ _ Hf); by constructor).
  destruct (V2P_P2V p Hp) as (_ & Hv & Hva' & Hlt).
  pose proof (vs_count _ _ _ _ _ _ Hs) as Hc. cbn [length] in Hc.
  destruct (mappages_run 0 (put_mem g k1) l pgdir va PGSIZE (V2P p) perm) as (k2 & l' & Hr2 & Hs2 & Hm2);
    [apply Hs|apply Hs|lia|done|done|unfold PGSIZE; lia|done|lia|unfold PGSIZE, PHYSTOP in *; lia|done|done| |].
  { intros i Hi. replace i with O by lia. rewrite Z.mul_0_r, Z.add_0_r.
    rewrite Hxs by (unfold PGSIZE in *; lia). done. }
  exists k1, k2, l'. split; [done|]. split; [done|].
  split; [exact (vm_step_trans _ _ _ _ _ _ _ [p] [] Hs Hs2)|]. split.
  - intros va' Hb. rewrite Hm2, Hxs by done. repeat case_decide; try lia; [|done].
    do 2 f_equal. lia.
  - intros a Ha. destruct (vs_frames _ _ _ _ _ _ Hs p) as (_ & Hpl & Hpt); [by constructor|].
    destruct (vm_step_keep _ _ _ _ _ _ p (vs_free _ _ _ _ _ _ Hs) (vs_ok _ _ _ _ _ _ Hs) Hs2 Hp Hpt Hpl)
      as (_ & _ & Hk). rewrite Hk by done. cbn. by rewrite Hm.
Qed.

(** The pages from [a] on are mapped to the frames [fs] with permissions [perm],
    and nothing else changed. *)
Definition mapped_frames (k : kmem) (pgdir a : Z) (fs : list Z) (perm : Z → Z) (k' : kmem) : Prop :=
  ∀ va', 0 ≤ va' < 2 ^ 32 → xlate k' pgdir va' =
    if decide (a / PGSIZE ≤ va' / PGSIZE < a / PGSIZE + Z.of_nat (length fs))
    then Some (new_pte (V2P (nth (Z.to_nat (va' / PGSIZE - a / PGSIZE)) fs 0)) (perm (va' / PGSIZE)))
    else xlate k pgdir va'.

Lemma mapped_frames_cons k pgdir a p fs perm k1 k2 :
  (∀ va', 0 ≤ va' < 2 ^ 32 → xlate k1 pgdir va' =
     if decide (va' / PGSIZE = a / PGSIZE) then Some (new_pte (V2P p) (perm (a / PGSIZE)))
     else xlate k pgdir va') →
  mapped_frames k1 pgdir (a + PGSIZE) fs perm k2 → mapped_frames k pgdir a (p :: fs) perm k2.
Proof.
  intros H1 H2 va' Hva'. rewrite H2, H1 by done. rewrite page_succ. cbn [length].
  repeat case_decide; try lia.
  - replace (Z.to_nat (va' / PGSIZE - a / PGSIZE))
      with (S (Z.to_nat (va' / PGSIZE - (a / PGSIZE + 1)))) by lia. done.
  - replace (va' / PGSIZE - a / PGSIZE) with 0 by lia. cbn. by rewrite <- H0.
  - done.
Qed.

(** [allocuvm]'s loop upwards over [n] pages. *)
Lemma alloc_up_run n : ∀ fuel k l pgdir a oldsz newsz,
  free_pages end_ k l → pt_ok k pgdir l → (absent k pgdir + n ≤ length l)%nat → (n ≤ fuel)%nat →
  0 ≤ a → a mod PGSIZE = 0 → newsz ≤ KERNBASE →
  (∀ i, (i < n)%nat ↔ a + PGSIZE * Z.of_nat i < newsz) →
  (∀ i, (i < n)%nat → xlate k pgdir (a + PGSIZE * Z.of_nat i) = None) →
  ∃ k' l' fs, alloc_up fuel pgdir a oldsz newsz k = Done (true, k') ∧
    vm_step pgdir k l k' l' fs ∧ length fs = n ∧
    mapped_frames k pgdir a fs (λ _, Z.lor PTE_W PTE_U) k' ∧
    (∀ f x, f ∈ fs → inpage f x → pmem k' x = 0).
Proof.
  induction n as [|n IH]; intros fuel k l pgdir a oldsz newsz Hf Ho Hl Hfu Ha Hal Hnew Hn Hx.
  - exists k, l, []. split.
    { destruct fuel; cbn [alloc_up]; rewrite (proj2 (Z.leb_le newsz a)); try done;
        specialize (Hn O); lia. }
    split; [by apply vm_step_refl|]. split; [done|]. split; [|by intros f x Hf'%elem_of_nil].
    intros va' _. cbn [length]. by rewrite decide_False by lia.
  - destruct fuel as [|fuel]; [lia|]. destruct l as [|p l]; [cbn [length] in Hl; lia|].
    assert (Ha1 : a < newsz) by (specialize (Hn O); lia).
    assert (Hlast : a + PGSIZE * Z.of_nat n < newsz) by (apply Hn; lia).
    destruct (map_frame k pgdir p l (λ m, memset m p 0 PGSIZE) a (Z.lor PTE_W PTE_U))
      as (k1 & k2 & l' & Hr1 & Hr2 & Hs & Hxs & Hz); [done|done|cbn [length] in Hl; lia| |done| |done|done| |].
    { intros m x Hp. rewrite memset_at by (unfold PGSIZE; lia). by rewrite decide_False. }
    { unfold KERNBASE, PGSIZE in *. lia. }
    { rewrite <- (Z.add_0_r a). apply (Hx O). lia. }
    assert (Hp : page_ok end_ p) by (apply (fp_ok _ _ _ Hf); by constructor).
    pose proof (vs_count _ _ _ _ _ _ Hs) as Hc. cbn [length] in Hc, Hl.
    destruct (IH fuel k2 l' pgdir (a + PGSIZE) oldsz newsz (vs_free _ _ _ _ _ _ Hs) (vs_ok _ _ _ _ _ _ Hs))
      as (k' & lf & fs & Hr & Hs' & Hlen & Hm & Hzs); [lia|lia|unfold PGSIZE; lia| |done| | |].
    { rewrite Zplus_mod, Hal. done. }
    { intros i. specialize (Hn (S i)). unfold PGSIZE in *. lia. }
    { intros i Hi. assert (a + PGSIZE * Z.of_nat (S i) < newsz) by (apply Hn; lia).
      rewrite Hxs by (unfold PGSIZE, KERNBASE in *; lia). rewrite decide_False.
      - replace (a + PGSIZE + PGSIZE * Z.of_nat i) with (a + PGSIZE * Z.of_nat (S i))
          by (unfold PGSIZE; lia). apply Hx. lia.
      - replace (a + PGSIZE + PGSIZE * Z.of_nat i) with (a + (1 + Z.of_nat i) * PGSIZE)
          by (unfold PGSIZE; lia). rewrite Z.div_add by (unfold PGSIZE; lia). lia. }
    exists k', lf, (p :: fs). split.
    { cbn [alloc_up]. rewrite (proj2 (Z.leb_gt newsz a)) by done. unfold alloc_page.
      rewrite run_bind. rewrite (bind_done _ _ _ _ _ Hr1), (proj2 (Z.eqb_neq p 0) (page_ok_nonzero p Hp)).
      rewrite run_modS, (bind_done _ _ _ _ _ Hr2). cbn [Z.ltb Z.compare mret M_ret negb].
      rewrite u32_small by (unfold PGSIZE, KERNBASE in *; lia). exact Hr. }
    split; [exact (vm_step_trans _ _ _ _ _ _ _ [p] fs Hs Hs')|]. split; [cbn; lia|].
    split; [by eapply mapped_frames_cons|].
    intros f x [->|Hfs]%elem_of_cons Hin; [|by eapply Hzs].
    destruct (vs_frames _ _ _ _ _ _ Hs p) as (_ & H1 & H2); [by constructor|].
    destruct (vm_step_keep _ _ _ _ _ _ p (vs_free _ _ _ _ _ _ Hs) (vs_ok _ _ _ _ _ _ Hs) Hs' Hp H2 H1)
      as (_ & _ & Hk). rewrite Hk, Hz by done. rewrite memset_at by (unfold PGSIZE; lia).
    by rewrite decide_True.
Qed.

Lemma allocuvm_run k l pgdir oldsz newsz n :
  free_pages end_ k l → pt_ok k pgdir l → 0 ≤ oldsz ≤ newsz → newsz < KERNBASE →
  n = Z.to_nat ((PGROUNDUP newsz - PGROUNDUP oldsz) / PGSIZE) → (absent k pgdir + n ≤ length l)%nat →
  (∀ va, PGROUNDUP oldsz ≤ va < newsz → xlate k pgdir va = None) →
  ∃ k' l' fs, allocuvm pgdir oldsz newsz false k = Done (newsz, k') ∧
    vm_step pgdir k l k' l' fs ∧ length fs = n ∧
    mapped_frames k pgdir (PGROUNDUP oldsz) fs (λ _, Z.lor PTE_W PTE_U) k' ∧
    (∀ f x, f ∈ fs → inpage f x → pmem k' x = 0).
Proof.
  intros Hf Ho Hsz Hk -> Hl Hx.
  destruct (pgroundup_spec oldsz) as [H1 H2], (pgroundup_spec newsz) as [H3 H4].
  assert (Hu : u32 (PGROUNDUP oldsz) = PGROUNDUP oldsz)
    by (apply u32_small; unfold KERNBASE, PGSIZE in *; lia).
  set (n := Z.to_nat ((PGROUNDUP newsz - PGROUNDUP oldsz) / PGSIZE)) in *.
  assert (Hn : PGROUNDUP oldsz + PGSIZE * Z.of_nat n = PGROUNDUP newsz ∨ n = O ∧ newsz ≤ PGROUNDUP oldsz).
  { subst n. unfold PGSIZE in *. pose proof (Z.div_mod (PGROUNDUP newsz) 4096).
    pose proof (Z.div_mod (PGROUNDUP oldsz) 4096).
    destruct (Z.le_gt_cases (PGROUNDUP oldsz) (PGROUNDUP newsz)); [left|right].
    - replace (PGROUNDUP newsz - PGROUNDUP oldsz) with
        ((PGROUNDUP newsz / 4096 - PGROUNDUP oldsz / 4096) * 4096) by lia.
      rewrite Z.div_mul by lia. lia.
    - split; [|lia].
      assert ((PGROUNDUP newsz - PGROUNDUP oldsz) / 4096 < 0) by (apply Z.div_lt_upper_bound; lia). lia. }
  destruct (alloc_up_run n (Z.to_nat (newsz / PGSIZE + 1)) k l pgdir (PGROUNDUP oldsz) oldsz newsz)
    as (k' & l' & fs & Hr & Hs & Hlen & Hm & Hz); [done|done|done| |lia|done|lia| | |].
  - pose proof (Z.div_mod newsz PGSIZE). pose proof (Z.mod_pos_bound newsz PGSIZE).
    unfold PGSIZE in *. lia.
  - intros i. unfold PGSIZE in *. lia.
  - intros i Hi. apply Hx. unfold PGSIZE in *. lia.
  - exists k', l', fs. split; [|done]. unfold allocuvm.
    rewrite (proj2 (Z.leb_gt KERNBASE newsz)), (proj2 (Z.ltb_ge newsz oldsz)) by lia.
    rewrite run_ret. cbn [negb]. rewrite Hu, (bind_done _ _ _ _ _ Hr). done.
Qed.

(** ** [setupkvm] *)

(** kernel.ld puts [data] on a page boundary after the kernel's text. *)
Hypothesis Hdata : data_ mod PGSIZE = 0 ∧ KERNLINK < data_ < KERNBASE + PHYSTOP.

(** What every address space has above [KERNBASE]. *)
Definition kernel_pte (va : Z) : option Z :=
  let pg := PGSIZE * (va / PGSIZE) in
  if decide (KERNBASE ≤ va < KERNBASE + PHYSTOP)
  then Some (new_pte (pg - KERNBASE) (if decide (KERNLINK ≤ va < data_) then 0 else PTE_W))
  else if decide (DEVSPACE ≤ va) then Some (new_pte pg PTE_W) else None.

(** A new, empty directory. *)
Lemma empty_dir k l d :
  free_pages end_ k (d :: l) →
  ∃ k1, kalloc k = Done (d, k1) ∧
    let k2 := put_mem (λ m, memset m d 0 PGSIZE) k1 in
    free_pages end_ k2 l ∧ pt_ok k2 d l ∧ (absent k2 d ≤ NPDENTRIES)%nat ∧
    (∀ p, istab k2 d p → p = d) ∧ (∀ va, 0 ≤ va < 2 ^ 32 → xlate k2 d va = None) ∧
    (∀ a, ¬ inpage d a → pmem k2 a = pmem k a).
Proof.
  intros Hf. destruct (kalloc_run end_ k (d :: l) Hf) as (k1 & Hr & Hf1 & _ & Hm). cbn [drop] in Hf1.
  exists k1. split; [done|]. intros k2.
  assert (Hp : page_ok end_ d) by (apply (fp_ok _ _ _ Hf); by constructor).
  pose proof (fp_nodup _ _ _ Hf) as [Hd Hnd]%NoDup_cons.
  assert (Hout : ∀ a, ¬ inpage d a → pmem k2 a = pmem k a).
  { intros a Ha. subst k2. cbn. rewrite memset_at by (unfold PGSIZE; lia).
    rewrite decide_False by done. by rewrite Hm. }
  assert (Hz : ∀ i, 0 ≤ i < 1024 → present (pde k2 d i) = false).
  { intros i Hi. replace (pde k2 d i) with 0; [done|]. symmetry. unfold pde, word_at, load32.
    assert (Hzx : ∀ x, d ≤ x < d + PGSIZE → pmem k2 x = 0).
    { intros x Hx. subst k2. cbn. rewrite memset_at by (unfold PGSIZE; lia). by rewrite decide_True. }
    unfold PGSIZE in Hzx. rewrite !Hzx by lia. done. }
  split; [|split; [|split; [|split; [|split; [|done]]]]].
  - destruct Hf1 as [Hc Hnd1 Hok]. split; [|done|done].
    apply (chain_ext end_ (pmem k1) _ _ _ d); [done..| |done].
    intros x Hx. rewrite Hout by done. by rewrite Hm.
  - split; [done| |]; intros i; intros; by rewrite Hz in * by done.
  - unfold absent. etrans; [apply length_filter|]. by rewrite length_seq.
  - intros p [->|(i & Hi & Hpi & _)]; [done|]. by rewrite Hz in Hpi.
  - intros va Hva. unfold xlate. rewrite Hz; [done|]. by apply PDX_range.
Qed.

(** One entry of [kmap], in page numbers. *)
Lemma kmap_step k l d ks va n pa perm :
  free_pages end_ k l → pt_ok k d l → (absent k d ≤ length l)%nat →
  0 < va → (0 < n)%nat → PGSIZE * va + PGSIZE * Z.of_nat n ≤ 2 ^ 32 →
  0 ≤ pa → PGSIZE * pa + PGSIZE * Z.of_nat n ≤ 2 ^ 32 → 0 ≤ perm < PGSIZE →
  (∀ q, va ≤ q < va + Z.of_nat n → xlate k d (PGSIZE * q) = None) →
  ∃ k' l', setupkvm_loop d (Kmap (PGSIZE * va) (PGSIZE * pa) (u32 (PGSIZE * pa + PGSIZE * Z.of_nat n)) perm :: ks) k =
      setupkvm_loop d ks k' ∧
    vm_step d k l k' l' [] ∧
    ∀ va', 0 ≤ va' < 2 ^ 32 → xlate k' d va' =
      if decide (va ≤ va' / PGSIZE < va + Z.of_nat n)
      then Some (new_pte (PGSIZE * (pa + (va' / PGSIZE - va))) perm) else xlate k d va'.
Proof.
  intros Hf Ho Hl Hva Hn Hv Hpa Hp Hperm Hx.
  assert (Hsz : u32 (u32 (PGSIZE * pa + PGSIZE * Z.of_nat n) - PGSIZE * pa) = PGSIZE * Z.of_nat n).
  { rewrite u32_sub_l. rewrite u32_small by (unfold PGSIZE in *; lia). lia. }
  destruct (mappages_run (pred n) k l d (PGSIZE * va) (PGSIZE * Z.of_nat n) (PGSIZE * pa) perm)
    as (k' & l' & Hr & Hs & Hm); [done|done|done|unfold PGSIZE; lia| | |done|unfold PGSIZE; lia|done| |done| |].
  { rewrite Z.mul_comm. by apply Z.mod_mul. } { f_equal. lia. } { rewrite Z.mul_comm. by apply Z.mod_mul. }
  { intros i Hi. rewrite <- Z.mul_add_distr_l. apply Hx. lia. }
  exists k', l'. split; [|split; [done|]].
  - cbn [setupkvm_loop virt phys_start phys_end kperm]. rewrite Hsz, (bind_done _ _ _ _ _ Hr). done.
  - intros va' Hva'. rewrite Hm by done.
    rewrite (Z.mul_comm PGSIZE va), Z.div_mul by (unfold PGSIZE; lia).
    replace (Z.of_nat (S (pred n))) with (Z.of_nat n) by lia. case_decide; [|done].
    do 2 f_equal. lia.
Qed.

(** [kmap] in page numbers; [D] is the page of [data]. *)
Lemma kmap_pages : ∃ D, data_ = PGSIZE * D ∧ 524544 < D < 581632 ∧ kmap =
  [Kmap (PGSIZE * 524288) (PGSIZE * 0) (u32 (PGSIZE * 0 + PGSIZE * Z.of_nat 256)) PTE_W;
   Kmap (PGSIZE * 524544) (PGSIZE * 256) (u32 (PGSIZE * 256 + PGSIZE * Z.of_nat (Z.to_nat (D - 524544)))) 0;
   Kmap (PGSIZE * D) (PGSIZE * (D - 524288)) (u32 (PGSIZE * (D - 524288) + PGSIZE * Z.of_nat (Z.to_nat (581632 - D)))) PTE_W;
   Kmap (PGSIZE * 1040384) (PGSIZE * 1040384) (u32 (PGSIZE * 1040384 + PGSIZE * Z.of_nat (Z.to_nat 8192))) PTE_W].
Proof.
  destruct Hdata as [Hd1 Hd2]. exists (data_ / PGSIZE). set (D := data_ / PGSIZE).
  assert (HD : data_ = PGSIZE * D).
  { subst D. rewrite (Z.div_mod data_ PGSIZE) at 1 by (unfold PGSIZE; lia). lia. }
  assert (HD2 : 524544 < D < 581632) by (unfold KERNLINK, KERNBASE, EXTMEM, PHYSTOP, PGSIZE in *; lia).
  split; [done|]. split; [done|]. unfold kmap. rewrite !Z2Nat.id by lia. unfold V2P. rewrite HD.
  rewrite (u32_small (PGSIZE * D - KERNBASE)) by (unfold PGSIZE, KERNBASE; lia).
  replace (PGSIZE * 256 + PGSIZE * (D - 524544)) with (PGSIZE * D - KERNBASE) by (unfold PGSIZE, KERNBASE; lia).
  replace (PGSIZE * (D - 524288) + PGSIZE * (581632 - D)) with PHYSTOP by (unfold PGSIZE, PHYSTOP; lia).
  rewrite (u32_small (PGSIZE * D - KERNBASE)) by (unfold PGSIZE, KERNBASE; lia).
  replace (PGSIZE * (D - 524288)) with (PGSIZE * D - KERNBASE) by (unfold PGSIZE, KERNBASE; lia).
  reflexivity.
Qed.

Lemma setupkvm_run k d l :
  free_pages end_ k (d :: l) → (NPDENTRIES ≤ length l)%nat →
  ∃ k' l', setupkvm k = Done (d, k') ∧ free_pages end_ k' l' ∧ pt_ok k' d l' ∧
    (∃ u, l = u ++ l') ∧ (absent k' d + length l ≤ length l' + NPDENTRIES)%nat ∧
    (∀ va, 0 ≤ va < 2 ^ 32 → xlate k' d va = kernel_pte va) ∧
    (∀ p, istab k' d p → p ∈ d :: l) ∧
    (∀ a, (∀ p, p ∈ d :: l → ¬ inpage p a) → pmem k' a = pmem k a).
Proof.
  intros Hf Hlen.
  assert (Hp : page_ok end_ d) by (apply (fp_ok _ _ _ Hf); by constructor).
  destruct (empty_dir k l d Hf) as (k1 & Hr & Hf1 & Ho1 & Ha1 & Ht1 & Hx1 & Hm1).
  set (k2 := put_mem (λ m, memset m d 0 PGSIZE) k1) in *.
  destruct kmap_pages as (D & HD & HD2 & Hkm).
  assert (Hq : ∀ q, 0 ≤ q → PGSIZE * q / PGSIZE = q)
    by (intros q Hq0; rewrite Z.mul_comm; by apply Z.div_mul).
  assert (Hb : ∀ q, 0 ≤ q < 1048576 → 0 ≤ PGSIZE * q < 2 ^ 32) by (unfold PGSIZE; lia).
  destruct (kmap_step k2 l d (drop 1 kmap) 524288 256 0 PTE_W) as (k3 & l3 & R3 & S3 & X3);
    [done|done|lia|lia|lia|done|done|done|done| |].
  { intros q Hq1. apply Hx1. apply Hb. lia. }
  pose proof (vs_count _ _ _ _ _ _ S3) as C3. cbn [length] in C3.
  destruct (kmap_step k3 l3 d (drop 2 kmap) 524544 (Z.to_nat (D - 524544)) 256 0) as (k4 & l4 & R4 & S4 & X4);
    [apply S3|apply S3|lia|lia|lia|unfold PGSIZE; lia|lia|unfold PGSIZE; lia|done| |].
  { intros q Hq1. rewrite X3, Hq by (lia || (apply Hb; lia)). rewrite decide_False by lia. apply Hx1, Hb. lia. }
  pose proof (vs_count _ _ _ _ _ _ S4) as C4. cbn [length] in C4.
  destruct (kmap_step k4 l4 d (drop 3 kmap) D (Z.to_nat (581632 - D)) (D - 524288) PTE_W) as (k5 & l5 & R5 & S5 & X5);
    [apply S4|apply S4|lia|lia|lia|unfold PGSIZE; lia|lia|unfold PGSIZE; lia|done| |].
  { intros q Hq1. rewrite X4, X3, Hq by (lia || (apply Hb; lia)). rewrite !decide_False by lia. apply Hx1, Hb. lia. }
  pose proof (vs_count _ _ _ _ _ _ S5) as C5. cbn [length] in C5.
  destruct (kmap_step k5 l5 d [] 1040384 (Z.to_nat 8192) 1040384 PTE_W) as (k6 & l6 & R6 & S6 & X6);
    [apply S5|apply S5|lia|lia|lia|done|lia|done|done| |].
  { intros q Hq1. rewrite X5, X4, X3, Hq by (lia || (apply Hb; lia)). rewrite !decide_False by lia. apply Hx1, Hb. lia. }
  pose proof (vs_count _ _ _ _ _ _ S6) as C6. cbn [length] in C6.
  pose proof (vm_step_trans _ _ _ _ _ _ _ _ _ S3 (vm_step_trans _ _ _ _ _ _ _ _ _ S4
    (vm_step_trans _ _ _ _ _ _ _ _ _ S5 S6))) as SS.
  exists k6, l6. split; [|split; [apply SS|split; [apply SS|split; [apply SS|split; [lia|split; [|split]]]]]].
  - unfold setupkvm. rewrite (bind_done _ _ _ _ _ Hr), (proj2 (Z.eqb_neq d 0) (page_ok_nonzero d Hp)).
    rewrite run_modS. change (DEVSPACE <? P2V PHYSTOP) with false. cbv iota. fold k2.
    rewrite Hkm in *. cbn [drop] in *. rewrite R3, R4, R5, R6. done.
  - intros va Hva. rewrite X6, X5, X4, X3, Hx1 by done. unfold kernel_pte.
    assert (HQ : PGSIZE * (va / PGSIZE) ≤ va < PGSIZE * (va / PGSIZE) + PGSIZE).
    { pose proof (Z.div_mod va PGSIZE). pose proof (Z.mod_pos_bound va PGSIZE). unfold PGSIZE in *. lia. }
    set (q := va / PGSIZE) in *. rewrite HD. unfold KERNBASE, KERNLINK, EXTMEM, PHYSTOP, DEVSPACE, PGSIZE in *.
    rewrite !Z2Nat.id by lia. clear - HQ HD2 Hva.
    repeat case_decide; try lia; try done; f_equal; f_equal; unfold KERNBASE in *; lia.
  - intros p Hpt. destruct (vs_tabs _ _ _ _ _ _ SS p Hpt) as [Ht|Ht]; [|by constructor].
    apply Ht1 in Ht as ->. by constructor.
  - intros a Ha. rewrite (vs_frame _ _ _ _ _ _ SS).
    + apply Hm1. apply Ha. by constructor.
    + intros p [Ht|Ht]; apply Ha; [apply Ht1 in Ht as ->; by constructor|by constructor].
Qed.

(** ** [copyuvm] *)

(** Pages of others: neither free nor tables of [d]. *)
Definition foreign (k : kmem) (d : Z) (l : list Z) (p : Z) : Prop :=
  page_ok end_ p ∧ ¬ istab k d p ∧ p ∉ l.

(** The address space [pgdir] has the page [va] in frame [f] with entry [e], in
    pages that an operation on [d] does not touch. *)
Record user_page (k : kmem) (d : Z) (l : list Z) (pgdir va e f : Z) : Prop := UserPage {
  up_xlate : xlate k pgdir va = Some e;
  up_frame : f = P2V (PTE_ADDR e);
  up_foreign : foreign k d l pgdir ∧ foreign k d l (tab k pgdir (PDX va)) ∧ foreign k d l f
}.

Lemma foreign_step d k l k' l' fs p :
  free_pages end_ k l → pt_ok k d l → vm_step d k l k' l' fs → foreign k d l p →
  foreign k' d l' p ∧ ∀ a, inpage p a → pmem k' a = pmem k a.
Proof.
  intros Hf Ho Hs (H1 & H2 & H3).
  destruct (vm_step_keep _ _ _ _ _ _ p Hf Ho Hs H1 H2 H3) as (A & B & C). by split.
Qed.

Lemma user_page_walk k d l pgdir va e f :
  0 ≤ va < 2 ^ 32 → user_page k d l pgdir va e f →
  ∃ pte, walkpgdir pgdir va false k = Done (pte, k) ∧ pte ≠ 0 ∧ word_at pte k = e ∧ present e = true.
Proof.
  intros Hva [Hx Hfr (_ & (Ht & _) & _)]. unfold xlate in Hx.
  destruct (present (pde k pgdir (PDX va))) eqn:Hp; [|done].
  destruct (present (word_at _ k)) eqn:Hpe; [|done]. injection Hx as Hx.
  eexists. split; [by apply walk_present|]. split; [|split; [done|by rewrite <- Hx]].
  destruct (index_spec va Hva) as (_ & Hr & _). destruct Ht as (_ & _ & Ht). unfold KERNBASE in Ht. lia.
Qed.

Lemma user_page_step k d l k' l' fs pgdir va e f :
  0 ≤ va < 2 ^ 32 → free_pages end_ k l → pt_ok k d l → vm_step d k l k' l' fs →
  user_page k d l pgdir va e f →
  user_page k' d l' pgdir va e f ∧ ∀ a, inpage f a → pmem k' a = pmem k a.
Proof.
  intros Hva Hf Ho Hs [Hx Hfr (H1 & H2 & H3)].
  destruct (index_spec va Hva) as (I1 & I2 & _).
  destruct (foreign_step _ _ _ _ _ _ _ Hf Ho Hs H1) as [F1 M1],
    (foreign_step _ _ _ _ _ _ _ Hf Ho Hs H2) as [F2 M2], (foreign_step _ _ _ _ _ _ _ Hf Ho Hs H3) as [F3 M3].
  assert (Hpd : pde k' pgdir (PDX va) = pde k pgdir (PDX va)) by (by apply word_frame).
  assert (Htb : tab k' pgdir (PDX va) = tab k pgdir (PDX va)) by (unfold tab; by rewrite Hpd).
  split; [|done]. split; [|done|by rewrite Htb].
  rewrite <- Hx. unfold xlate. rewrite Hpd, Htb. by rewrite (word_frame k k').
Qed.

Lemma copy_page_at m dst src a :
  copy_page m dst src a = if decide (inpage dst a) then m (src + (a - dst)) else m a.
Proof. unfold copy_page. rewrite memmove_at. unfold PGSIZE, inpage. done. Qed.

Lemma pte_flags_range e : 0 ≤ PTE_FLAGS e < PGSIZE.
Proof. rewrite pte_flags_spec. apply Z.mod_pos_bound. unfold PGSIZE. lia. Qed.

Section copyuvm.
Context (pgdir d sz : Z) (E F : Z → Z).
Hypothesis Hsz : sz ≤ KERNBASE.

Lemma copyuvm_loop_run n : ∀ fuel k l q,
  free_pages end_ k l → pt_ok k d l → (absent k d + n ≤ length l)%nat → (n ≤ fuel)%nat → 0 ≤ q →
  (∀ i, (i < n)%nat ↔ PGSIZE * (q + Z.of_nat i) < sz) →
  (∀ i, (i < n)%nat → xlate k d (PGSIZE * (q + Z.of_nat i)) = None) →
  (∀ i, (i < n)%nat → user_page k d l pgdir (PGSIZE * (q + Z.of_nat i)) (E (q + Z.of_nat i)) (F (q + Z.of_nat i))) →
  ∃ k' l' fs, copyuvm_loop fuel pgdir d (PGSIZE * q) sz k = Done (true, k') ∧
    vm_step d k l k' l' fs ∧ length fs = n ∧
    mapped_frames k d (PGSIZE * q) fs (λ q, PTE_FLAGS (E q)) k' ∧
    (∀ i o, (i < n)%nat → 0 ≤ o < PGSIZE → pmem k' (nth i fs 0 + o) = pmem k (F (q + Z.of_nat i) + o)).
Proof.
  induction n as [|n IH]; intros fuel k l q Hf Ho Hl Hfu Hq Hn Hx Hu.
  - exists k, l, []. split.
    { destruct fuel; cbn [copyuvm_loop]; rewrite (proj2 (Z.leb_le sz (PGSIZE * q))); try done;
        specialize (Hn O); rewrite Z.add_0_r in Hn; lia. }
    split; [by apply vm_step_refl|]. split; [done|]. split; [|lia].
    intros va' _. cbn [length]. by rewrite decide_False by lia.
  - destruct fuel as [|fuel]; [lia|]. destruct l as [|p l]; [cbn [length] in Hl; lia|].
    assert (Hlast : PGSIZE * (q + Z.of_nat n) < sz) by (apply Hn; lia).
    assert (Hva : 0 ≤ PGSIZE * q < 2 ^ 32) by (unfold PGSIZE, KERNBASE in *; lia).
    pose proof (Hu O ltac:(lia)) as Hu0. pose proof (Hx O ltac:(lia)) as Hx0.
    rewrite Z.add_0_r in Hu0, Hx0.
    destruct (user_page_walk _ _ _ _ _ _ _ Hva Hu0) as (pte & Hw & Hnz & He & Hpr).
    assert (Hdiv : ∀ q, PGSIZE * q / PGSIZE = q) by (intros z; rewrite Z.mul_comm; by apply Z.div_mul).
    destruct (map_frame k d p l (λ m, copy_page m p (F q)) (PGSIZE * q) (PTE_FLAGS (E q)))
      as (k1 & k2 & l' & Hr1 & Hr2 & Hs & Hxs & Hz);
      [done|done|cbn [length] in Hl; lia| |lia|unfold PGSIZE, KERNBASE in *; lia| |apply pte_flags_range|done|].
    { intros m x Hp. rewrite copy_page_at. by rewrite decide_False. }
    { rewrite Z.mul_comm. by apply Z.mod_mul. }
    assert (Hp : page_ok end_ p) by (apply (fp_ok _ _ _ Hf); by constructor).
    pose proof (vs_count _ _ _ _ _ _ Hs) as Hc. cbn [length] in Hc, Hl.
    assert (Hup : ∀ i, (i < n)%nat → user_page k2 d l' pgdir (PGSIZE * (q + 1 + Z.of_nat i))
        (E (q + 1 + Z.of_nat i)) (F (q + 1 + Z.of_nat i)) ∧
      ∀ a, inpage (F (q + 1 + Z.of_nat i)) a → pmem k2 a = pmem k a).
    { intros i Hi. assert (PGSIZE * (q + Z.of_nat (S i)) < sz) by (apply Hn; lia).
      replace (q + 1 + Z.of_nat i) with (q + Z.of_nat (S i)) by lia.
      eapply user_page_step; [unfold PGSIZE, KERNBASE in *; lia|exact Hf|done|done|]. apply Hu. lia. }
    destruct (IH fuel k2 l' (q + 1) (vs_free _ _ _ _ _ _ Hs) (vs_ok _ _ _ _ _ _ Hs))
      as (k' & lf & fs & Hr & Hs' & Hlen & Hm & Hzs); [lia|lia|lia| | |by intros; apply Hup|].
    { intros i. specialize (Hn (S i)). rewrite <- Z.add_assoc.
      replace (1 + Z.of_nat i) with (Z.of_nat (S i)) by lia. lia. }
    { intros i Hi. assert (PGSIZE * (q + Z.of_nat (S i)) < sz) by (apply Hn; lia).
      replace (q + 1 + Z.of_nat i) with (q + Z.of_nat (S i)) by lia.
      rewrite Hxs, !Hdiv by (unfold PGSIZE, KERNBASE in *; lia). rewrite decide_False by lia. apply Hx. lia. }
    exists k', lf, (p :: fs). split; [|split; [exact (vm_step_trans _ _ _ _ _ _ _ [p] fs Hs Hs')|split; [cbn; lia|split]]].
    + cbn [copyuvm_loop]. rewrite (proj2 (Z.leb_gt sz (PGSIZE * q))) by (unfold PGSIZE in *; lia).
      rewrite (bind_done _ _ _ _ _ Hw), (proj2 (Z.eqb_neq pte 0) Hnz), run_gets, He.
      unfold present in Hpr. rewrite Hpr. cbn [negb]. rewrite (bind_done _ _ _ _ _ Hr1).
      rewrite (proj2 (Z.eqb_neq p 0) (page_ok_nonzero p Hp)), run_modS.
      rewrite <- (up_frame _ _ _ _ _ _ _ Hu0), (bind_done _ _ _ _ _ Hr2). cbn [Z.ltb Z.compare].
      rewrite u32_small by (unfold PGSIZE, KERNBASE in *; lia).
      replace (PGSIZE * q + PGSIZE) with (PGSIZE * (q + 1)) by (unfold PGSIZE; lia). exact Hr.
    + apply (mapped_frames_cons _ _ _ _ _ _ k2); [by rewrite Hdiv in *|].
      by replace (PGSIZE * q + PGSIZE) with (PGSIZE * (q + 1)) by (unfold PGSIZE; lia).
    + intros [|i] o Hi Ho'; cbn [nth].
      * destruct (vs_frames _ _ _ _ _ _ Hs p) as (_ & H1 & H2); [by constructor|].
        destruct (vm_step_keep _ _ _ _ _ _ p (vs_free _ _ _ _ _ _ Hs) (vs_ok _ _ _ _ _ _ Hs) Hs' Hp H2 H1)
          as (_ & _ & Hk). rewrite Hk, Hz by (unfold inpage; lia). rewrite copy_page_at.
        rewrite decide_True by (unfold inpage; lia). rewrite Z.add_0_r. f_equal. lia.
      * rewrite Hzs by (done || lia). replace (q + 1 + Z.of_nat i) with (q + Z.of_nat (S i)) by lia.
        destruct (Hup i ltac:(lia)) as [_ Hk]. replace (q + 1 + Z.of_nat i) with (q + Z.of_nat (S i)) in Hk by lia.
        apply Hk. unfold inpage. lia.
Qed.
End copyuvm.

Lemma present_flags e : present e = true → Z.lor (PTE_FLAGS e) PTE_P = PTE_FLAGS e.
Proof.
  intros Hp. unfold present, has_bit, PTE_P in Hp. change 1 with (Z.ones 1) in Hp.
  rewrite Z.land_ones in Hp by lia.
  assert (H0 : Z.testbit e 0 = true).
  { rewrite Z.bit0_odd, Zodd_mod. change (2 ^ 1) with 2 in Hp. unfold c_true in Hp.
    pose proof (Z.mod_pos_bound e 2). destruct (Z.eqb_spec (e mod 2) 0); [done|].
    apply Z.eqb_eq. lia. }
  apply Z.bits_inj'. intros n Hn. unfold PTE_FLAGS, PTE_P. rewrite Z.lor_spec, Z.land_spec.
  destruct (decide (n = 0)) as [->|Hne]; [by rewrite H0|].
  replace (Z.testbit 1 n) with false; [by rewrite orb_false_r|]. symmetry. by apply Z.bits_above_log2; cbn; lia.
Qed.

(** The pages of an address space, seen from one built later out of free pages. *)
Lemma parent_page k d l k1 l1 pgdir q e :
  free_pages end_ k (d :: l) → pt_ok k pgdir (d :: l) →
  (∀ p, p ∈ l1 → p ∈ d :: l) → (∀ p, istab k1 d p → p ∈ d :: l) →
  (∀ a, (∀ p, p ∈ d :: l → ¬ inpage p a) → pmem k1 a = pmem k a) →
  0 ≤ PGSIZE * q < 2 ^ 32 → xlate k pgdir (PGSIZE * q) = Some e →
  page_ok end_ (P2V (PTE_ADDR e)) → P2V (PTE_ADDR e) ∉ d :: l →
  user_page k1 d l1 pgdir (PGSIZE * q) e (P2V (PTE_ADDR e)) ∧
  ∀ a, inpage (P2V (PTE_ADDR e)) a → pmem k1 a = pmem k a.
Proof.
  intros Hf Ho Hsub Ht1 Hm1 Hva He Hpo Hpl.
  assert (Hfor : ∀ p, page_ok end_ p → p ∉ d :: l → foreign k1 d l1 p ∧ ∀ a, inpage p a → pmem k1 a = pmem k a).
  { intros p Hp Hn. split; [split; [done|split; [by intros Hi%Ht1|by intros Hi%Hsub]]|].
    intros a Ha. apply Hm1. intros r Hr. apply (inpage_apart p); [done|by apply (fp_ok _ _ _ Hf)|by intros ->|done]. }
  pose proof He as Hx. unfold xlate in Hx. destruct (present (pde k pgdir (PDX (PGSIZE * q)))) eqn:Hp; [|done].
  destruct (index_spec _ Hva) as (I1 & I2 & _).
  destruct (po_dir _ _ _ Ho) as [D1 D2], (po_tab _ _ _ Ho _ I1 Hp) as (T1 & T2 & _).
  destruct (Hfor _ D1 D2) as [FD MD], (Hfor _ T1 T2) as [FT MT], (Hfor _ Hpo Hpl) as [FF MF].
  assert (Hpd : pde k1 pgdir (PDX (PGSIZE * q)) = pde k pgdir (PDX (PGSIZE * q))) by (by apply word_frame).
  assert (Htb : tab k1 pgdir (PDX (PGSIZE * q)) = tab k pgdir (PDX (PGSIZE * q))) by (unfold tab; by rewrite Hpd).
  split; [|done]. split; [|done|by rewrite Htb]. rewrite <- He. unfold xlate. rewrite Hpd, Htb.
  by rewrite (word_frame k k1).
Qed.

(** C14: [copyuvm] with enough free pages gives the child a page directory with
    the kernel's mappings and, for every page of the parent below [sz], a page
    of its own with the same contents and permissions; no page of the parent
    is shared or written. *)
Theorem copyuvm_copies k d l pgdir sz E :
  free_pages end_ k (d :: l) → pt_ok k pgdir (d :: l) → 0 ≤ sz ≤ KERNBASE →
  (NPDENTRIES + Z.to_nat ((sz + PGSIZE - 1) / PGSIZE) ≤ length l)%nat →
  (∀ q, 0 ≤ q → PGSIZE * q < sz → xlate k pgdir (PGSIZE * q) = Some (E q) ∧
     page_ok end_ (P2V (PTE_ADDR (E q))) ∧ P2V (PTE_ADDR (E q)) ∉ d :: l) →
  ∃ k', copyuvm pgdir sz k = Done (d, k') ∧
    (∀ q, 0 ≤ q → PGSIZE * q < sz → ∃ e, xlate k' d (PGSIZE * q) = Some e ∧
       PTE_FLAGS e = PTE_FLAGS (E q) ∧ P2V (PTE_ADDR e) ∈ l ∧
       ∀ o, 0 ≤ o < PGSIZE → pmem k' (P2V (PTE_ADDR e) + o) = pmem k (P2V (PTE_ADDR (E q)) + o)) ∧
    (∀ va, KERNBASE ≤ va < 2 ^ 32 → xlate k' d va = kernel_pte va) ∧
    (∀ a, (∀ p, p ∈ d :: l → ¬ inpage p a) → pmem k' a = pmem k a).
Proof.
  intros Hf Ho Hsz Hlen HE.
  destruct (setupkvm_run k d l Hf ltac:(lia)) as (k1 & l1 & Hr1 & Hf1 & Ho1 & [u Hu] & Hab & Hx1 & Ht1 & Hm1).
  set (n := Z.to_nat ((sz + PGSIZE - 1) / PGSIZE)) in *.
  assert (Hn : ∀ q, 0 ≤ q → PGSIZE * q < sz ↔ q < Z.of_nat n).
  { intros q Hq. subst n. unfold PGSIZE in *. pose proof (Z.div_mod (sz + 4096 - 1) 4096).
    pose proof (Z.mod_pos_bound (sz + 4096 - 1) 4096). lia. }
  assert (Hsub : ∀ p, p ∈ l1 → p ∈ d :: l) by (intros p Hp; constructor; rewrite Hu; apply elem_of_app; by right).
  assert (Hup : ∀ q, 0 ≤ q → PGSIZE * q < sz →
    user_page k1 d l1 pgdir (PGSIZE * q) (E q) (P2V (PTE_ADDR (E q))) ∧
    ∀ a, inpage (P2V (PTE_ADDR (E q))) a → pmem k1 a = pmem k a).
  { intros q Hq Hqs. destruct (HE q Hq Hqs) as (He & Hpo & Hpl).
    eapply parent_page; try done. unfold PGSIZE, KERNBASE in *. lia. }
  destruct (copyuvm_loop_run pgdir d sz E (λ q, P2V (PTE_ADDR (E q))) ltac:(lia) n
    (Z.to_nat (sz / PGSIZE + 1)) k1 l1 0) as (k' & l' & fs & Hr & Hs & Hlf & Hm & Hcp); try done.
  { lia. }
  { subst n. unfold PGSIZE in *. pose proof (Z.div_mod (sz + 4096 - 1) 4096). pose proof (Z.div_mod sz 4096).
    pose proof (Z.mod_pos_bound (sz + 4096 - 1) 4096). pose proof (Z.mod_pos_bound sz 4096). lia. }
  { intros i. rewrite Hn by lia. lia. }
  { intros i Hi. rewrite Z.add_0_l. assert (PGSIZE * Z.of_nat i < sz) by (apply Hn; lia).
    rewrite Hx1 by (unfold PGSIZE, KERNBASE in *; lia). unfold kernel_pte.
    rewrite !decide_False by (unfold DEVSPACE, PGSIZE, KERNBASE in *; lia). done. }
  { intros i Hi. rewrite Z.add_0_l. apply Hup; [lia|]. apply Hn; lia. }
  assert (Hdiv : ∀ q, PGSIZE * q / PGSIZE = q) by (intros z; rewrite Z.mul_comm; by apply Z.div_mul).
  exists k'. split; [|split; [|split]].
  - unfold copyuvm. rewrite (bind_done _ _ _ _ _ Hr1). rewrite (proj2 (Z.eqb_neq d 0)).
    + change (PGSIZE * 0) with 0 in Hr. by rewrite (bind_done _ _ _ _ _ Hr).
    + apply page_ok_nonzero, (fp_ok _ _ _ Hf). by constructor.
  - intros q Hq Hqs. assert (Hqn : q < Z.of_nat n) by (by apply Hn).
    set (f := nth (Z.to_nat q) fs 0).
    assert (Hff : f ∈ fs) by (apply list_elem_of_In, nth_In; lia).
    destruct (vs_frames _ _ _ _ _ _ Hs f Hff) as (Hfl & _).
    assert (Hpf : page_ok end_ f) by (by apply (fp_ok _ _ _ Hf1)).
    destruct (V2P_P2V f Hpf) as (V1 & V2 & V3 & _).
    destruct (new_pte_spec (V2P f) (PTE_FLAGS (E q)) V2 V3 (pte_flags_range _)) as (_ & _ & P1 & P2).
    exists (new_pte (V2P f) (PTE_FLAGS (E q))). split; [|split; [|split]].
    + rewrite Hm by (unfold PGSIZE, KERNBASE in *; lia). rewrite !Hdiv, Hlf, decide_True by lia.
      by rewrite Z.sub_0_r.
    + rewrite P2. apply present_flags. destruct (Hup q Hq Hqs) as [Hu' _].
      assert (Hva : 0 ≤ PGSIZE * q < 2 ^ 32) by (unfold PGSIZE, KERNBASE in *; lia).
      by destruct (user_page_walk _ _ _ _ _ _ _ Hva Hu') as (? & _ & _ & _ & ?).
    + rewrite P1, V1. rewrite Hu. apply elem_of_app. by right.
    + intros o Hoo. rewrite P1, V1. subst f. rewrite (Hcp (Z.to_nat q) o) by lia.
      rewrite Z2Nat.id, Z.add_0_l by lia. apply (Hup q Hq Hqs). unfold inpage. lia.
  - intros va Hva. rewrite Hm by lia. rewrite Hdiv, decide_False; [apply Hx1; lia|].
    intros Hr'. assert (PGSIZE * (va / PGSIZE) < sz) by (apply Hn; lia).
    pose proof (Z.mul_div_le va PGSIZE). unfold PGSIZE, KERNBASE in *.
    pose proof (Z.div_mod va 4096). pose proof (Z.mod_pos_bound va 4096). lia.
  - intros a Ha. rewrite (vs_frame _ _ _ _ _ _ Hs); [by apply Hm1|].
    intros p [Hp|Hp]; apply Ha; [by apply Ht1|by apply Hsub].
Qed.

(** [allocuvm] with enough free pages grows an address space: it returns the
    new size, every page from the old size up to the new one is mapped
    writable for the user to a zeroed page of its own taken from the free
    list, and no other mapping changes. *)
Theorem allocuvm_maps k l pgdir oldsz newsz n :
  free_pages end_ k l → pt_ok k pgdir l → 0 ≤ oldsz ≤ newsz → newsz < KERNBASE →
  n = Z.to_nat ((PGROUNDUP newsz - PGROUNDUP oldsz) / PGSIZE) → (absent k pgdir + n ≤ length l)%nat →
  (∀ va, PGROUNDUP oldsz ≤ va < newsz → xlate k pgdir va = None) →
  ∃ k' l' fs, allocuvm pgdir oldsz newsz false k = Done (newsz, k') ∧
    vm_step pgdir k l k' l' fs ∧ length fs = n ∧
    mapped_frames k pgdir (PGROUNDUP oldsz) fs (λ _, Z.lor PTE_W PTE_U) k' ∧
    (∀ f x, f ∈ fs → inpage f x → pmem k' x = 0).
Proof. apply allocuvm_run. Qed.
End vm.

(** ** Concrete address spaces *)

Definition end0 : Z := KERNBASE + 0x200000.
Definition data0 : Z := KERNBASE + 0x180000.

Lemma data0_ok : data0 mod PGSIZE = 0 ∧ KERNLINK < data0 < KERNBASE + PHYSTOP.
Proof. split; [done|]. unfold KERNLINK, data0, KERNBASE, EXTMEM, PHYSTOP. lia. Qed.

(** A machine with [n] free pages. *)
Lemma free_machine n :
  Z.of_nat n ≤ 8000 → ∃ k l, free_pages end0 k l ∧ length l = n.
Proof.
  intros Hn.
  destruct (freerange_loop_run end0 n (Kmem false 0 (λ _, 0)) [] (KERNBASE + 0x400000)
    (KERNBASE + 0x400000 + PGSIZE * Z.of_nat n) (S n)) as (k & _ & Hl & _).
  - split; [done|constructor|by intros p Hp%elem_of_nil].
  - done.
  - unfold end0, KERNBASE. lia.
  - unfold KERNBASE. lia.
  - unfold KERNBASE, PHYSTOP, PGSIZE. lia.
  - unfold PGSIZE. lia.
  - by intros q Hq%elem_of_nil.
  - lia.
  - exists k, (rev (page_range (KERNBASE + 0x400000) n) ++ []). split; [done|].
    rewrite app_nil_r, length_rev. unfold page_range. by rewrite length_map, length_seq.
Qed.

(** A new address space of one page, with [n] pages left. *)
Lemma one_page_space n :
  (NPDENTRIES + n ≤ 4000)%nat →
  ∃ k pgdir k' l' f, allocuvm end0 pgdir 0 PGSIZE false k = Done (PGSIZE, k') ∧
    free_pages end0 k' l' ∧ pt_ok end0 k' pgdir l' ∧ (n ≤ length l')%nat ∧
    page_ok end0 f ∧ f ∉ l' ∧ xlate k' pgdir 0 = Some (new_pte (V2P f) (Z.lor PTE_W PTE_U)).
Proof.
  intros Hn. unfold NPDENTRIES in Hn.
  destruct (free_machine (S (1024 + S n))) as (k & l & Hf & Hl); [lia|].
  destruct l as [|pgdir l]; [cbn [length] in Hl; lia|]. cbn [length] in Hl.
  destruct (empty_dir end0 k l pgdir Hf) as (k1 & _ & Hf2 & Ho2 & Ha2 & _ & Hx2 & _).
  set (k2 := put_mem _ k1) in *. unfold NPDENTRIES in Ha2.
  destruct (allocuvm_run end0 k2 l pgdir 0 PGSIZE 1) as (k3 & l3 & fs & Hr & Hs & Hlf & Hm & _);
    [done|done|done|done|done|lia| |].
  { intros va [H1 H2]. apply Hx2. change (PGROUNDUP 0) with 0 in H1. unfold PGSIZE in H2. lia. }
  destruct fs as [|f [|]]; [done| |done]. pose proof (vs_count _ _ _ _ _ _ _ Hs) as Hc. cbn [length] in Hc.
  destruct (vs_frames _ _ _ _ _ _ _ Hs f) as (Hfl & Hfl' & _); [by constructor|].
  exists k2, pgdir, k3, l3, f. split; [done|]. split; [apply Hs|]. split; [apply Hs|]. split; [lia|].
  split; [by apply (fp_ok _ _ _ Hf2)|]. split; [done|].
  rewrite (Hm 0) by lia. change (PGROUNDUP 0 / PGSIZE) with 0. change (0 / PGSIZE) with 0.
  rewrite decide_True by (cbn [length]; lia). done.
Qed.

Lemma allocuvm_maps_witness :
  ∃ k pgdir k' l' fs, allocuvm end0 pgdir 0 PGSIZE false k = Done (PGSIZE, k') ∧
    length fs = 1%nat ∧ mapped_frames k pgdir 0 fs (λ _, Z.lor PTE_W PTE_U) k' ∧
    free_pages end0 k' l'.
Proof.
  destruct (free_machine 1100) as (k & l & Hf & Hl); [lia|].
  destruct l as [|pgdir l]; [discriminate|]. cbn [length] in Hl.
  destruct (empty_dir end0 k l pgdir Hf) as (k1 & _ & Hf2 & Ho2 & Ha2 & _ & Hx2 & _).
  exists (put_mem (λ m, memset m pgdir 0 PGSIZE) k1), pgdir.
  destruct (allocuvm_maps end0 (put_mem (λ m, memset m pgdir 0 PGSIZE) k1) l pgdir 0 PGSIZE 1)
    as (k3 & l3 & fs & Hr & Hs & Hlf & Hm & _).
  - exact Hf2.
  - exact Ho2.
  - unfold PGSIZE; lia.
  - unfold PGSIZE, KERNBASE; lia.
  - reflexivity.
  - unfold NPDENTRIES in Ha2. lia.
  - intros va [H1 H2]. apply Hx2. change (PGROUNDUP 0) with 0 in H1. unfold PGSIZE in H2. lia.
  - exists k3, l3, fs. split; [exact Hr|]. split; [exact Hlf|]. split; [exact Hm|]. exact (vs_free _ _ _ _ _ _ _ Hs).
Defined.

Lemma copyuvm_copies_witness :
  ∃ k pgdir d k' e, copyuvm end0 data0 pgdir PGSIZE k = Done (d, k') ∧ xlate k' d 0 = Some e ∧
    PTE_FLAGS e = 7.
Proof.
  destruct (one_page_space 2000) as (_ & pgdir & k & l & f & _ & Hf & Ho & Hl & Hpf & Hfl & Hx);
    [unfold NPDENTRIES; lia|].
  destruct l as [|d l]; [cbn [length] in Hl; lia|]. cbn [length] in Hl.
  destruct (V2P_P2V end0 f Hpf) as (V1 & V2 & V3 & _).
  destruct (new_pte_spec (V2P f) (Z.lor PTE_W PTE_U) V2 V3 ltac:(done)) as (_ & _ & P1 & P2).
  destruct (copyuvm_copies end0 data0 data0_ok k d l pgdir PGSIZE
    (λ _, new_pte (V2P f) (Z.lor PTE_W PTE_U))) as (k' & Hr & Hc & _).
  - exact Hf.
  - exact Ho.
  - unfold PGSIZE, KERNBASE; lia.
  - unfold NPDENTRIES. change (Z.to_nat ((PGSIZE + PGSIZE - 1) / PGSIZE)) with 1%nat. lia.
  - intros q Hq Hqs. assert (q = 0) as -> by (unfold PGSIZE in Hqs; lia).
    rewrite P1, V1. split; [exact Hx|]. split; [exact Hpf|exact Hfl].
  - destruct (Hc 0 ltac:(lia) ltac:(done)) as (e & He & Hfe & _).
    exists k, pgdir, d, k', e. split; [exact Hr|]. split; [exact He|]. rewrite Hfe. exact P2.
Defined.
