(* ===== verification/Uvm.v ===== *)
(** * User address spaces: what vm.c does to one, as a whole

    An address space is a page directory whose user pages lie in frames of their
    own, none of them free or a page table.  The operations of Vm.v on such a
    space, seen through the memory the process sees: [copyout], [clearpteu],
    growth, and [freevm], which gives every page back. *)
From stdpp Require Import base decidable option list functions numbers strings sets.
From Stdlib Require Import ZArith Lia.
From S2P Require Import Prelude CString ProcDefs Kalloc Vm.

Local Open Scope Z_scope.

(** The page an entry points to. *)
Definition frame_of (e : Z) : Z := P2V (PTE_ADDR e).

(** The memory the process sees through [pgdir]. *)
Definition user_view (k : kmem) (pgdir : Z) : mem := λ a,
  match xlate k pgdir a with
  | Some e => pmem k (frame_of e + a mod PGSIZE)
  | None => 0
  end.

(** The number of user pages. *)
Definition NUPAGES : Z := 524288.

Section uvm.
Context (end_ : Z).
Hypothesis Hend : KERNBASE < end_.

(** The user pages from page [q] on lie in frames of their own. *)
Record uspace (k : kmem) (pgdir : Z) (l : list Z) (q : Z) : Prop := USpace {
  us_from : 0 ≤ q;
  us_free : free_pages end_ k l;
  us_pt : pt_ok end_ k pgdir l;
  us_frame : ∀ r e, q ≤ r < NUPAGES → xlate k pgdir (PGSIZE * r) = Some e →
    page_ok end_ (frame_of e) ∧ frame_of e ∉ l ∧ ¬ istab k pgdir (frame_of e);
  us_inj : ∀ r r' e e', q ≤ r < NUPAGES → q ≤ r' < NUPAGES → xlate k pgdir (PGSIZE * r) = Some e →
    xlate k pgdir (PGSIZE * r') = Some e' → frame_of e = frame_of e' → r = r'
}.

Lemma page_index r : 0 ≤ r < 1048576 → 0 ≤ PGSIZE * r < 2 ^ 32 ∧ PGSIZE * r / PGSIZE = r.
Proof. intros Hr. unfold PGSIZE. split; [lia|]. rewrite Z.mul_comm. by apply Z.div_mul. Qed.

Lemma xlate_page k pgdir a : 0 ≤ a < 2 ^ 32 → xlate k pgdir a = xlate k pgdir (PGSIZE * (a / PGSIZE)).
Proof.
  intros Ha. assert (Hr : 0 ≤ a / PGSIZE < 1048576).
  { unfold PGSIZE. split; [apply Z.div_pos; lia|apply Z.div_lt_upper_bound; lia]. }
  destruct (page_index _ Hr) as [Hp Hd], (index_spec a Ha) as (A1 & A2 & A3), (index_spec _ Hp) as (B1 & B2 & B3).
  rewrite Hd in B3. assert (PDX a = PDX (PGSIZE * (a / PGSIZE)) ∧ PTX a = PTX (PGSIZE * (a / PGSIZE))) as [E1 E2] by lia.
  unfold xlate. by rewrite E1, E2.
Qed.

(** ** Writes outside the tables *)

Section outside.
Context (k k' : kmem) (pgdir : Z).
Hypothesis Hm : ∀ p a, istab k pgdir p → inpage p a → pmem k' a = pmem k a.

Lemma ext_pde i : 0 ≤ i < 1024 → pde k' pgdir i = pde k pgdir i.
Proof. intros Hi. apply word_frame; [done|]. intros a Ha. apply (Hm pgdir); [by left|done]. Qed.

Lemma ext_tab i : 0 ≤ i < 1024 → tab k' pgdir i = tab k pgdir i.
Proof. intros Hi. unfold tab. by rewrite ext_pde. Qed.

Lemma ext_istab p : istab k' pgdir p ↔ istab k pgdir p.
Proof.
  unfold istab. split; (intros [->|(i & Hi & Hp & ->)]; [by left|]; right; exists i).
  - rewrite ext_pde in Hp by done. by rewrite ext_tab by done.
  - rewrite ext_pde by done. by rewrite ext_tab by done.
Qed.

Lemma ext_xlate va : 0 ≤ va < 2 ^ 32 → xlate k' pgdir va = xlate k pgdir va.
Proof.
  intros Hva. destruct (index_spec va Hva) as (H1 & H2 & _). unfold xlate. rewrite ext_pde, ext_tab by done.
  destruct (present (pde k pgdir (PDX va))) eqn:Hp; [|done].
  rewrite (word_frame k k'); [done|done|]. intros a Ha. apply (Hm (tab k pgdir (PDX va))); [|done].
  right. by exists (PDX va).
Qed.

Lemma ext_pt_ok l l' : pt_ok end_ k pgdir l → (∀ p, p ∈ l' → p ∈ l ∨ ¬ istab k pgdir p) → pt_ok end_ k' pgdir l'.
Proof.
  intros [[A1 A2] B C] Hl. split.
  - split; [done|]. intros Hin. destruct (Hl _ Hin) as [?|Hn]; [done|]. apply Hn. by left.
  - intros i Hi Hp. rewrite ext_pde in Hp by done. rewrite ext_tab by done.
    destruct (B i Hi Hp) as (B1 & B2 & B3). split_and!; [done| |done].
    intros Hin. destruct (Hl _ Hin) as [?|Hn]; [done|]. apply Hn. right. by exists i.
  - intros i j Hi Hj. rewrite !ext_pde, !ext_tab by done. by apply C.
Qed.
End outside.

Lemma istab_page_ok k pgdir l p : pt_ok end_ k pgdir l → istab k pgdir p → page_ok end_ p ∧ p ∉ l.
Proof.
  intros Ho [->|(i & Hi & Hp & ->)]; [apply Ho|]. destruct (po_tab _ _ _ _ Ho i Hi Hp) as (H1 & H2 & _). done.
Qed.

(** The same space, seen with other contents and another free list. *)
Lemma uspace_ext k k' pgdir l l' q q' :
  uspace k pgdir l q → q ≤ q' → free_pages end_ k' l' →
  (∀ p a, istab k pgdir p → inpage p a → pmem k' a = pmem k a) →
  (∀ p, p ∈ l' → p ∈ l ∨ ¬ istab k pgdir p ∧ ∀ r e, q' ≤ r < NUPAGES → xlate k pgdir (PGSIZE * r) = Some e → frame_of e ≠ p) →
  uspace k' pgdir l' q'.
Proof.
  intros [H0 _ Ho Hfr Hin] Hq Hf He Hl. pose proof (ext_xlate k k' pgdir He) as Hx.
  assert (Hxp : ∀ r e, q' ≤ r < NUPAGES → xlate k' pgdir (PGSIZE * r) = Some e → xlate k pgdir (PGSIZE * r) = Some e).
  { intros r e Hr E. rewrite <- Hx; [done|]. apply page_index. unfold NUPAGES in Hr. lia. }
  split; [lia|done| | |].
  - apply (ext_pt_ok k k' pgdir He l); [done|]. intros p Hp. destruct (Hl p Hp) as [?|[? _]]; by auto.
  - intros r e Hr E. apply Hxp in E; [|done]. destruct (Hfr r e ltac:(lia) E) as (F1 & F2 & F3).
    split_and!; [done| |by rewrite (ext_istab k k' pgdir He)].
    intros Hp. destruct (Hl _ Hp) as [?|[_ Hn]]; [done|]. by apply (Hn r e).
  - intros r r' e e' Hr Hr' E E'. apply Hxp in E, E'; [|done..]. apply (Hin r r'); done || lia.
Qed.

(** A write inside a page that is neither a table nor free. *)
Lemma uspace_write k k' pgdir l q f :
  uspace k pgdir l q → freelist k' = freelist k → page_ok end_ f → ¬ istab k pgdir f → f ∉ l →
  (∀ a, ¬ inpage f a → pmem k' a = pmem k a) →
  uspace k' pgdir l q ∧ ∀ va, 0 ≤ va < 2 ^ 32 → xlate k' pgdir va = xlate k pgdir va.
Proof.
  intros HU Hfl Hf Hnt Hnl Hm.
  assert (He : ∀ p a, istab k pgdir p → inpage p a → pmem k' a = pmem k a).
  { intros p a Hp Ha. apply Hm. destruct (istab_page_ok _ _ _ _ (us_pt _ _ _ _ HU) Hp) as [Hpo _].
    apply (inpage_apart end_ p); [done|done|by intros ->|done]. }
  split; [|by apply ext_xlate]. apply (uspace_ext k k' pgdir l l q q); [done|lia| |done|by left].
  destruct (us_free _ _ _ _ HU) as [Hc Hnd Hok]. split; [|done|done]. rewrite Hfl.
  by apply (chain_ext end_ (pmem k) _ _ _ f).
Qed.

(** ** [freevm] *)

(** The frames of the user pages from page [q] on. *)
Definition frames (k : kmem) (pgdir q : Z) : list Z :=
  omap (λ r, frame_of <$> xlate k pgdir (PGSIZE * r)) (seqZ q (NUPAGES - q)).

Lemma frames_end k pgdir : frames k pgdir NUPAGES = [].
Proof. done. Qed.

Lemma frames_cons k pgdir q : q < NUPAGES →
  frames k pgdir q = (if xlate k pgdir (PGSIZE * q) is Some e then [frame_of e] else []) ++ frames k pgdir (q + 1).
Proof.
  intros Hq. unfold frames. rewrite (seqZ_cons q) by lia. cbn [omap list_omap].
  replace (Z.pred (NUPAGES - q)) with (NUPAGES - (q + 1)) by lia. unfold Z.succ.
  by destruct (xlate k pgdir (PGSIZE * q)).
Qed.

Lemma frames_skip k pgdir q n : q + Z.of_nat n ≤ NUPAGES →
  (∀ r, q ≤ r < q + Z.of_nat n → xlate k pgdir (PGSIZE * r) = None) →
  frames k pgdir q = frames k pgdir (q + Z.of_nat n).
Proof.
  revert q. induction n as [|n IH]; intros q Hn Hx; [by rewrite Z.add_0_r|].
  rewrite frames_cons, Hx by lia. cbn [app]. rewrite IH; [f_equal; lia|lia|]. intros r Hr. apply Hx. lia.
Qed.

Lemma frames_ext k k' pgdir q : (∀ r, q ≤ r < NUPAGES → xlate k' pgdir (PGSIZE * r) = xlate k pgdir (PGSIZE * r)) →
  frames k' pgdir q = frames k pgdir q.
Proof.
  intros H. unfold frames.
  assert (G : ∀ l : list Z, (∀ r, r ∈ l → q ≤ r < NUPAGES) → omap (λ r, frame_of <$> xlate k' pgdir (PGSIZE * r)) l =
    omap (λ r, frame_of <$> xlate k pgdir (PGSIZE * r)) l).
  { induction l as [|r l IH]; intros Hl; [done|]. cbn. rewrite H by (apply Hl; by constructor).
    rewrite IH by (intros x Hx; apply Hl; by constructor). done. }
  apply G. intros r Hr%elem_of_seqZ. lia.
Qed.

Lemma elem_of_frames k pgdir q f : f ∈ frames k pgdir q ↔
  ∃ r e, q ≤ r < NUPAGES ∧ xlate k pgdir (PGSIZE * r) = Some e ∧ f = frame_of e.
Proof.
  unfold frames. rewrite list_elem_of_omap. split.
  - intros (r & Hr%elem_of_seqZ & E). destruct (xlate k pgdir (PGSIZE * r)) as [e|] eqn:Ex; [|done].
    injection E as <-. exists r, e. split; [lia|done].
  - intros (r & e & Hr & E & ->). exists r. split; [apply elem_of_seqZ; lia|by rewrite E].
Qed.

(** One user page given back: its frame is freed and its entry cleared. *)
Lemma free_one k pgdir l q e :
  uspace k pgdir l 0 → 0 ≤ q < NUPAGES → xlate k pgdir (PGSIZE * q) = Some e →
  ∃ k1, kfree end_ (frame_of e) k = Done ((), k1) ∧
    let k2 := put_word (tab k pgdir (PDX (PGSIZE * q)) + 4 * PTX (PGSIZE * q)) 0 k1 in
    uspace k2 pgdir (frame_of e :: l) 0 ∧
    (∀ i, 0 ≤ i < 1024 → pde k2 pgdir i = pde k pgdir i) ∧
    (∀ r, 0 ≤ r < NUPAGES → xlate k2 pgdir (PGSIZE * r) = if decide (r = q) then None else xlate k pgdir (PGSIZE * r)) ∧
    (∀ a, (∀ p, istab k pgdir p ∨ p = frame_of e → ¬ inpage p a) → pmem k2 a = pmem k a).
Proof.
  intros HU Hq E. pose proof HU as [H0 Hf Ho Hfr Hin].
  destruct (page_index q ltac:(unfold NUPAGES in Hq; lia)) as [Hva Hdv].
  destruct (Hfr q e ltac:(lia) E) as (F1 & F2 & F3).
  destruct (kfree_run end_ k l (frame_of e) Hf F1 F2) as (k1 & R & Hf1 & _ & Hm1).
  assert (He : ∀ p a, istab k pgdir p → inpage p a → pmem k1 a = pmem k a).
  { intros p a Hp Ha. apply Hm1. destruct (istab_page_ok _ _ _ _ Ho Hp) as [Hpo _].
    apply (inpage_apart end_ p); [done|done|by intros ->|done]. }
  assert (Ho1 : pt_ok end_ k1 pgdir (frame_of e :: l)).
  { apply (ext_pt_ok k k1 pgdir He l); [done|]. intros p [->|Hp]%elem_of_cons; [by right|by left]. }
  assert (Hpd : present (pde k1 pgdir (PDX (PGSIZE * q))) = true).
  { rewrite (ext_pde k k1 pgdir He) by (by apply PDX_range). unfold xlate in E. by destruct (present (pde k pgdir _)). }
  exists k1. split; [done|]. rewrite <- (ext_tab k k1 pgdir He) by (by apply PDX_range).
  pose proof (sp_step end_ k1 pgdir (frame_of e :: l) (PGSIZE * q) 0 Hf1 Ho1 Hva Hpd) as HS.
  pose proof (sp_xlate end_ k1 pgdir (frame_of e :: l) (PGSIZE * q) 0 Ho1 Hva Hpd) as HX.
  pose proof (sp_pde end_ k1 pgdir (frame_of e :: l) (PGSIZE * q) 0 Ho1 Hva Hpd) as HP.
  set (k2 := put_word _ 0 k1) in *.
  assert (HXr : ∀ r, 0 ≤ r < NUPAGES → xlate k2 pgdir (PGSIZE * r) = if decide (r = q) then None else xlate k pgdir (PGSIZE * r)).
  { intros r Hr. destruct (page_index r ltac:(unfold NUPAGES in *; lia)) as [Hr1 Hr2].
    rewrite HX, Hr2, Hdv by done. case_decide; [done|]. by apply (ext_xlate k k1 pgdir He). }
  split_and!; [|..].
  - split; [lia|apply HS|apply HS| |].
    + intros r e' Hr E'. rewrite HXr in E' by done. case_decide as Hrq; [done|].
      destruct (Hfr r e' Hr E') as (G1 & G2 & G3). split_and!; [done| |].
      * intros [Heq|?]%elem_of_cons; [|done]. by apply Hrq, (Hin r q e' e).
      * intros Ht. destruct (vs_tabs _ _ _ _ _ _ _ HS _ Ht) as [Ht'|Ht'].
        -- by apply G3, (ext_istab k k1 pgdir He).
        -- apply elem_of_cons in Ht' as [Heq|?]; [by apply Hrq, (Hin r q e' e)|done].
    + intros r r' e1 e2 Hr Hr'. rewrite !HXr by done. repeat case_decide; try done. by apply Hin.
  - intros i Hi. rewrite HP by done. by apply (ext_pde k k1 pgdir He).
  - exact HXr.
  - intros a Ha. unfold k2. rewrite (sp_out k1 pgdir (PGSIZE * q) 0 Hva).
    + apply Hm1. apply Ha. by right.
    + apply Ha. left. rewrite (ext_tab k k1 pgdir He) by (by apply PDX_range). right. exists (PDX (PGSIZE * q)).
      split; [by apply PDX_range|]. split; [|done]. by rewrite <- (ext_pde k k1 pgdir He) by (by apply PDX_range).
Qed.

(** Where [deallocuvm] goes on when a table is missing. *)
Lemma next_table q : 0 ≤ q < NUPAGES →
  u32 (PGADDR (PDX (PGSIZE * q) + 1) 0 0 - PGSIZE + PGSIZE) = PGSIZE * (1024 * (PDX (PGSIZE * q) + 1)) ∧
  q < 1024 * (PDX (PGSIZE * q) + 1) ≤ NUPAGES ∧
  ∀ r, q ≤ r < 1024 * (PDX (PGSIZE * q) + 1) → PDX (PGSIZE * r) = PDX (PGSIZE * q).
Proof.
  intros Hq. unfold NUPAGES in *. destruct (page_index q ltac:(lia)) as [Hva Hdv].
  destruct (index_spec _ Hva) as (I1 & I2 & I3). rewrite Hdv in I3.
  assert (Hd : PDX (PGSIZE * q) < 512) by lia. set (d := PDX (PGSIZE * q)) in *. split_and!; [|lia|lia|].
  - unfold PGADDR. rewrite Z.shiftl_0_l, !Z.lor_0_r, Z.shiftl_mul_pow2 by lia.
    unfold PGSIZE in *. clearbody d. rewrite (u32_small (_ * _)), u32_small by lia. lia.
  - intros r Hr. destruct (page_index r ltac:(lia)) as [Hvr Hdr].
    destruct (index_spec _ Hvr) as (J1 & J2 & J3). rewrite Hdr in J3. lia.
Qed.

(** No user page is mapped from page [q] on. *)
Definition bare (k : kmem) (pgdir q : Z) : Prop := ∀ r, q ≤ r < NUPAGES → xlate k pgdir (PGSIZE * r) = None.

Lemma frames_bare k pgdir q : q ≤ NUPAGES → bare k pgdir q → frames k pgdir q = [].
Proof.
  intros Hq Hb. rewrite (frames_skip k pgdir q (Z.to_nat (NUPAGES - q))); [|lia|intros r Hr; apply Hb; lia].
  by replace (q + Z.of_nat (Z.to_nat (NUPAGES - q))) with NUPAGES by lia.
Qed.

(** [deallocuvm]'s loop from page [q], when nothing is mapped from page [q2] on. *)
Lemma dealloc_loop_run fuel : ∀ k pgdir l q q2 top,
  uspace k pgdir l 0 → 0 ≤ q ≤ NUPAGES → q2 ≤ NUPAGES → PGSIZE * q2 - PGSIZE < top ≤ PGSIZE * q2 →
  bare k pgdir q2 → q2 - q ≤ Z.of_nat fuel →
  ∃ k', deallocuvm_loop end_ fuel pgdir (PGSIZE * q) top k = Done ((), k') ∧
    uspace k' pgdir (rev (frames k pgdir q) ++ l) 0 ∧
    (∀ i, 0 ≤ i < 1024 → pde k' pgdir i = pde k pgdir i) ∧
    (∀ r, 0 ≤ r < NUPAGES → xlate k' pgdir (PGSIZE * r) = if decide (q ≤ r) then None else xlate k pgdir (PGSIZE * r)) ∧
    (∀ a, (∀ p, istab k pgdir p ∨ p ∈ frames k pgdir q → ¬ inpage p a) → pmem k' a = pmem k a).
Proof.
  induction fuel as [|fuel IH]; intros k pgdir l q q2 top HU Hq Hq2 Ht Hb Hfu; cbn [deallocuvm_loop].
  all: destruct (decide (q2 ≤ q)) as [Hge|Hlt]; [|try lia].
  1, 2: rewrite (proj2 (Z.leb_le top _)) by (unfold PGSIZE in *; lia); exists k.
  1, 2: assert (Hb' : bare k pgdir q) by (intros r Hr; apply Hb; lia); rewrite frames_bare by (done || lia);
    split_and!; [done|done|done| |done]; intros r Hr; case_decide; [apply Hb; lia|done].
  rewrite (proj2 (Z.leb_gt top _)) by (unfold PGSIZE in *; lia).
  destruct (next_table q ltac:(lia)) as (N1 & N2 & N3).
  destruct (page_index q ltac:(unfold NUPAGES in *; lia)) as [Hva Hdv].
  destruct (present (pde k pgdir (PDX (PGSIZE * q)))) eqn:Hp.
  2: { unfold walkpgdir. rewrite run_bind, run_gets. unfold present, pde in Hp. rewrite Hp. cbn [negb].
       unfold mret, M_ret. cbn [Z.eqb]. rewrite N1. set (q' := 1024 * (PDX (PGSIZE * q) + 1)) in *.
       assert (Hno : ∀ r, q ≤ r < q' → xlate k pgdir (PGSIZE * r) = None).
       { intros r Hr. unfold xlate. rewrite N3 by lia. unfold present, pde. by rewrite Hp. }
       rewrite (frames_skip k pgdir q (Z.to_nat (q' - q))) by (lia || intros r Hr; apply Hno; lia).
       replace (q + Z.of_nat (Z.to_nat (q' - q))) with q' by lia.
       destruct (IH k pgdir l q' q2 top HU ltac:(lia) Hq2 Ht Hb ltac:(lia)) as (k' & R & HU' & HP & HX & HM).
       exists k'. split_and!; try done. intros r Hr. rewrite HX by done. repeat case_decide; try done; [lia|].
       rewrite Hno; [done|lia]. }
  rewrite (bind_done _ _ _ _ _ (walk_present k pgdir _ false Hp)).
  destruct (index_spec _ Hva) as (I1 & I2 & _).
  rewrite (proj2 (Z.eqb_neq _ 0)) by (eapply tab_nonzero; [apply HU|done|lia|done]). rewrite run_gets.
  rewrite (frames_cons k pgdir q) by lia. set (e := word_at _ k).
  assert (Ex : xlate k pgdir (PGSIZE * q) = if present e then Some e else None) by (unfold xlate; by rewrite Hp).
  assert (Hnx : u32 (PGSIZE * q + PGSIZE) = PGSIZE * (q + 1)).
  { rewrite u32_small by (unfold PGSIZE, NUPAGES in *; lia). unfold PGSIZE. lia. }
  rewrite Ex. unfold present in *. destruct (has_bit e PTE_P) eqn:He.
  2: { rewrite run_ret, Hnx. cbn [app].
       destruct (IH k pgdir l (q + 1) q2 top HU ltac:(lia) Hq2 Ht Hb ltac:(lia)) as (k' & R & HU' & HP & HX & HM).
       exists k'. split_and!; try done. intros r Hr. rewrite HX by done. repeat case_decide; try done; [lia|].
       replace r with q by lia. done. }
  destruct (us_frame _ _ _ _ HU q e ltac:(lia) Ex) as (F1 & _).
  destruct (free_one k pgdir l q e HU ltac:(lia) Ex) as (k1 & R & HU2 & HP2 & HX2 & HM2).
  destruct (IH _ pgdir _ (q + 1) q2 top HU2 ltac:(lia) Hq2 Ht) as (k' & R' & HU' & HP' & HX' & HM'); [|lia|].
  { intros r Hr. rewrite HX2 by lia. case_decide; [done|]. by apply Hb. }
  rewrite (frames_ext k _ pgdir (q + 1)) in HU', HM'
    by (intros r Hr; rewrite HX2 by lia; by rewrite decide_False by lia).
  exists k'. cbn [app rev]. rewrite <- app_assoc. cbn [app]. split_and!; [|done|..].
  - rewrite (proj2 (Z.eqb_neq (PTE_ADDR e) 0)).
    + rewrite run_bind, run_bind. unfold frame_of in R. rewrite R. unfold modS at 1. rewrite Hnx. exact R'.
    + intros E0. destruct F1 as (_ & F1 & _). unfold frame_of in F1. rewrite E0 in F1. unfold P2V, KERNBASE in *.
      rewrite u32_small in F1 by lia. lia.
  - intros i Hi. rewrite HP', HP2 by done. done.
  - intros r Hr. rewrite HX', HX2 by done. repeat case_decide; try done; lia.
  - intros a Ha. rewrite HM', HM2; [done| |].
    + intros p [Hpt| ->]; apply Ha; [by left|right; by constructor].
    + intros p [Hpt|Hpf]; apply Ha; [|right; by constructor]. left.
      destruct Hpt as [->|(i & Hi & Hpi & ->)]; [by left|]. right. exists i.
      unfold tab in *. rewrite HP2 in * by done. done.
Qed.

(** The tables of the entries [ix]. *)
Definition tables (k : kmem) (pgdir : Z) (ix : list nat) : list Z :=
  omap (λ i, if present (pde k pgdir (Z.of_nat i)) then Some (tab k pgdir (Z.of_nat i)) else None) ix.

Lemma elem_of_tables k pgdir ix t : t ∈ tables k pgdir ix ↔
  ∃ i, i ∈ ix ∧ present (pde k pgdir (Z.of_nat i)) = true ∧ t = tab k pgdir (Z.of_nat i).
Proof.
  unfold tables. rewrite list_elem_of_omap. split.
  - intros (i & Hi & E). destruct (present _) eqn:Hp; [|done]. injection E as <-. by exists i.
  - intros (i & Hi & Hp & ->). exists i. by rewrite Hp.
Qed.

Lemma tables_cons k pgdir i ix : tables k pgdir (i :: ix) =
  (if present (pde k pgdir (Z.of_nat i)) then [tab k pgdir (Z.of_nat i)] else []) ++ tables k pgdir ix.
Proof. unfold tables. cbn. by destruct (present _). Qed.

Lemma tables_ext k k' pgdir ix :
  (∀ i, i ∈ ix → pde k' pgdir (Z.of_nat i) = pde k pgdir (Z.of_nat i)) → tables k' pgdir ix = tables k pgdir ix.
Proof.
  intros H. induction ix as [|i ix IH]; [done|]. rewrite !tables_cons. unfold tab. rewrite H by (by constructor).
  rewrite IH by (intros j Hj; apply H; by constructor). done.
Qed.

(** The loop of [freevm] over the directory. *)
Definition free_table (pgdir : Z) (i : nat) : M kmem () :=
  e ← gets (word_at (pgdir + 4 * Z.of_nat i));
  if has_bit e PTE_P then kfree end_ (P2V (PTE_ADDR e)) else mret ().

Lemma free_tables_run ix : ∀ k pgdir l,
  free_pages end_ k l → page_ok end_ pgdir → NoDup ix → (∀ i, i ∈ ix → (i < 1024)%nat) →
  (∀ i, i ∈ ix → present (pde k pgdir (Z.of_nat i)) = true →
     page_ok end_ (tab k pgdir (Z.of_nat i)) ∧ tab k pgdir (Z.of_nat i) ∉ l ∧ tab k pgdir (Z.of_nat i) ≠ pgdir) →
  (∀ i j, i ∈ ix → j ∈ ix → present (pde k pgdir (Z.of_nat i)) = true → present (pde k pgdir (Z.of_nat j)) = true →
     tab k pgdir (Z.of_nat i) = tab k pgdir (Z.of_nat j) → i = j) →
  ∃ k', mfor ix (free_table pgdir) k = Done ((), k') ∧ free_pages end_ k' (rev (tables k pgdir ix) ++ l) ∧
    (∀ a, (∀ p, p ∈ tables k pgdir ix → ¬ inpage p a) → pmem k' a = pmem k a).
Proof.
  induction ix as [|i ix IH]; intros k pgdir l Hf Hd Hnd Hlt Hok Hinj; [by exists k|].
  apply NoDup_cons in Hnd as [Hni Hnd]. cbn [mfor]. rewrite run_bind.
  assert (ES : free_table pgdir i k = if has_bit (pde k pgdir (Z.of_nat i)) PTE_P then kfree end_ (tab k pgdir (Z.of_nat i)) k else Done ((), k)).
  { unfold free_table. rewrite run_gets. fold (pde k pgdir (Z.of_nat i)). by destruct (has_bit _ _). }
  rewrite ES.
  rewrite tables_cons. unfold present in *. destruct (has_bit (pde k pgdir (Z.of_nat i)) PTE_P) eqn:Hp.
  2: { cbn [app]. apply IH; [done..| | |].
       - intros j Hj. apply Hlt. by constructor.
       - intros j Hj. apply Hok. by constructor.
       - intros j j' Hj Hj'. apply Hinj; by constructor. }
  destruct (Hok i ltac:(by constructor) Hp) as (T1 & T2 & T3).
  destruct (kfree_run end_ k l _ Hf T1 T2) as (k1 & R & Hf1 & _ & Hm1). rewrite R.
  assert (HP : ∀ j, (j < 1024)%nat → pde k1 pgdir (Z.of_nat j) = pde k pgdir (Z.of_nat j)).
  { intros j Hj. apply word_frame; [lia|]. intros a Ha. apply Hm1.
    apply (inpage_apart end_ pgdir); [done|done|congruence|done]. }
  assert (HT : ∀ j, (j < 1024)%nat → tab k1 pgdir (Z.of_nat j) = tab k pgdir (Z.of_nat j)) by (intros j Hj; unfold tab; by rewrite HP).
  destruct (IH k1 pgdir (tab k pgdir (Z.of_nat i) :: l)) as (k' & R' & Hf' & Hm'); [done..| | | |].
  { intros j Hj. apply Hlt. by constructor. }
  { intros j Hj. assert (j < 1024)%nat by (apply Hlt; by constructor). rewrite HP, HT by done. intros Hpj.
    destruct (Hok j ltac:(by constructor) Hpj) as (J1 & J2 & J3). split_and!; [done| |done].
    intros [He|?]%elem_of_cons; [|done]. apply Hni. rewrite (Hinj i j); try done; by constructor. }
  { intros j j' Hj Hj'. rewrite !HP, !HT by (apply Hlt; by constructor). apply Hinj; by constructor. }
  rewrite (tables_ext k) in Hf', Hm' by (intros j Hj; apply HP, Hlt; by constructor).
  exists k'. split; [exact R'|]. cbn [app rev]. rewrite <- app_assoc. split; [done|].
  intros a Ha. rewrite Hm', Hm1; [done| |].
  - apply (Ha (tab k pgdir (Z.of_nat i))). by constructor.
  - intros p Hpt. apply Ha. by constructor.
Qed.

Lemma freevm_run k pgdir l :
  uspace k pgdir l 0 →
  ∃ k', freevm end_ pgdir k = Done ((), k') ∧
    free_pages end_ k' (pgdir :: rev (tables k pgdir (seq 0 NPDENTRIES)) ++ rev (frames k pgdir 0) ++ l) ∧
    (∀ a, (∀ p, istab k pgdir p ∨ p ∈ frames k pgdir 0 → ¬ inpage p a) → pmem k' a = pmem k a).
Proof.
  intros HU. pose proof (us_pt _ _ _ _ HU) as [[D1 D2] _ _].
  destruct (dealloc_loop_run (Z.to_nat (KERNBASE / PGSIZE + 1)) k pgdir l 0 NUPAGES KERNBASE HU)
    as (k1 & R1 & [_ Hf1 Ho1 _ _] & HP1 & _ & HM1); [done|done|done|intros r Hr; lia| |].
  { rewrite Z2Nat.id; vm_compute; congruence. }
  assert (HT1 : tables k1 pgdir (seq 0 NPDENTRIES) = tables k pgdir (seq 0 NPDENTRIES)).
  { apply tables_ext. intros i Hi%elem_of_seq. apply HP1. unfold NPDENTRIES in Hi. lia. }
  destruct (free_tables_run (seq 0 NPDENTRIES) k1 pgdir _ Hf1 D1 (NoDup_seq _ _)) as (k2 & R2 & Hf2 & HM2).
  { intros i Hi%elem_of_seq. unfold NPDENTRIES in Hi. lia. }
  { intros i Hi%elem_of_seq. unfold NPDENTRIES in Hi. apply (po_tab _ _ _ _ Ho1). lia. }
  { intros i j Hi%elem_of_seq Hj%elem_of_seq Hpi Hpj E. unfold NPDENTRIES in *.
    apply Nat2Z.inj, (po_inj _ _ _ _ Ho1); done || lia. }
  rewrite HT1 in Hf2, HM2.
  assert (Htab : ∀ p, p ∈ tables k pgdir (seq 0 NPDENTRIES) → istab k pgdir p ∧ p ≠ pgdir).
  { intros p (i & Hi%elem_of_seq & Hp & ->)%elem_of_tables. unfold NPDENTRIES in Hi. split.
    - right. exists (Z.of_nat i). split; [lia|done].
    - apply (po_tab _ _ _ _ (us_pt _ _ _ _ HU)); [lia|done]. }
  destruct (kfree_run end_ k2 _ pgdir Hf2 D1) as (k3 & R3 & Hf3 & _ & HM3).
  { rewrite !elem_of_app. intros [Hin|[Hin|Hin]].
    - rewrite list_elem_of_In, <- in_rev, <- list_elem_of_In in Hin. by destruct (Htab _ Hin).
    - rewrite list_elem_of_In, <- in_rev, <- list_elem_of_In in Hin.
      apply elem_of_frames in Hin as (r & e & Hr & E & ->). destruct (us_frame _ _ _ _ HU r e Hr E) as (_ & _ & F).
      apply F. by left.
    - done. }
  exists k3. split_and!; [|done|].
  - unfold freevm. rewrite (proj2 (Z.eqb_neq pgdir 0)) by (by apply (page_ok_nonzero end_)).
    unfold deallocuvm. change (KERNBASE <=? 0) with false. change (u32 (PGROUNDUP 0)) with (PGSIZE * 0).
    rewrite run_bind, (bind_done _ _ _ _ _ R1). unfold mret at 1, M_ret at 1.
    rewrite (bind_done _ _ _ _ _ R2). exact R3.
  - intros a Ha. rewrite HM3, HM2, HM1; [done|done| |].
    + intros p Hp. apply Ha. left. by apply Htab.
    + apply (Ha pgdir). left. by left.
Qed.

(** C15: [freevm] gives back every page of an address space, each of them once: the
    frames of the user pages, the tables and the directory are all on the free
    list, and no other byte of memory has changed. *)
Theorem freevm_frees_all k pgdir l :
  uspace k pgdir l 0 →
  ∃ k', freevm end_ pgdir k = Done ((), k') ∧
    free_pages end_ k' (pgdir :: rev (tables k pgdir (seq 0 NPDENTRIES)) ++ rev (frames k pgdir 0) ++ l) ∧
    (∀ a, (∀ p, istab k pgdir p ∨ p ∈ frames k pgdir 0 → ¬ inpage p a) → pmem k' a = pmem k a).
Proof. exact (freevm_run k pgdir l). Qed.

(** ** [copyout] *)

Lemma in_frame e a : page_ok end_ (frame_of e) → inpage (frame_of e) (frame_of e + a mod PGSIZE).
Proof. intros _. unfold inpage. pose proof (Z.mod_pos_bound a PGSIZE ltac:(done)). lia. Qed.

Lemma user_page_number a : 0 ≤ a < KERNBASE → 0 ≤ a < 2 ^ 32 ∧ 0 ≤ a / PGSIZE < NUPAGES ∧ a = PGSIZE * (a / PGSIZE) + a mod PGSIZE.
Proof.
  intros Ha. unfold KERNBASE, NUPAGES, PGSIZE in *. pose proof (Z.div_mod a 4096). pose proof (Z.mod_pos_bound a 4096).
  split_and!; lia.
Qed.

(** Writing [n] bytes at offset [o] of user page [r]. *)
Lemma view_write k pgdir l r e o n g :
  uspace k pgdir l 0 → 0 ≤ r < NUPAGES → xlate k pgdir (PGSIZE * r) = Some e → 0 ≤ o → 0 ≤ n → o + n ≤ PGSIZE →
  let dst := frame_of e + o in
  let k' := put_mem (λ m a, if (dst <=? a) && (a <? dst + n) then g a else m a) k in
  uspace k' pgdir l 0 ∧ (∀ va, 0 ≤ va < 2 ^ 32 → xlate k' pgdir va = xlate k pgdir va) ∧
  (∀ a, 0 ≤ a < KERNBASE → user_view k' pgdir a =
     if decide (PGSIZE * r + o ≤ a < PGSIZE * r + o + n) then g (dst + (a - (PGSIZE * r + o))) else user_view k pgdir a) ∧
  (∀ x, ¬ inpage (frame_of e) x → pmem k' x = pmem k x).
Proof.
  intros HU Hr E Ho Hn Hon dst k'. destruct (us_frame _ _ _ _ HU r e ltac:(lia) E) as (F1 & F2 & F3).
  assert (Hout : ∀ x, ¬ inpage (frame_of e) x → pmem k' x = pmem k x).
  { intros x Hx. unfold k', put_mem. cbn [pmem]. unfold inpage in Hx. destruct (Z.leb_spec dst x), (Z.ltb_spec x (dst + n)); cbn [andb]; try done.
    exfalso. apply Hx. unfold dst in *. lia. }
  destruct (uspace_write k k' pgdir l 0 (frame_of e) HU eq_refl F1 F3 F2 Hout) as [HU' HX].
  split_and!; [done|done| |done]. intros a Ha. destruct (user_page_number a Ha) as (Ha1 & Ha2 & Ha3).
  unfold user_view. rewrite (xlate_page k' pgdir a), (xlate_page k pgdir a), HX by (done || apply page_index; unfold NUPAGES in *; lia).
  destruct (decide (a / PGSIZE = r)) as [Hra|Hra].
  - rewrite Hra, E. pose proof (Z.mod_pos_bound a PGSIZE ltac:(done)). unfold k', put_mem. cbn [pmem]. rewrite Hra in Ha3.
    case_decide.
    + rewrite (proj2 (Z.leb_le dst _)), (proj2 (Z.ltb_lt _ (dst + n))) by (unfold dst; lia). cbn [andb]. f_equal. unfold dst. lia.
    + destruct (Z.leb_spec dst (frame_of e + a mod PGSIZE)), (Z.ltb_spec (frame_of e + a mod PGSIZE) (dst + n)); cbn [andb]; try done.
      unfold dst in *. lia.
  - pose proof (Z.mod_pos_bound a PGSIZE ltac:(done)). rewrite decide_False by (unfold PGSIZE in *; lia).
    destruct (xlate k pgdir (PGSIZE * (a / PGSIZE))) as [e'|] eqn:E'; [|done].
    destruct (us_frame _ _ _ _ HU (a / PGSIZE) e' ltac:(lia) E') as (G1 & _). apply Hout.
    apply (inpage_apart end_ (frame_of e')); [done|done| |by apply in_frame].
    intros Heq. apply Hra. by apply (us_inj _ _ _ _ HU (a / PGSIZE) r e' e); try lia.
Qed.

(** The user may write the bytes from [va] to [va + len]. *)
Definition writable (k : kmem) (pgdir va len : Z) : Prop :=
  ∀ a, va ≤ a < va + len → ∃ e, xlate k pgdir a = Some e ∧ has_bit e PTE_U = true.

(** Where the frames of the user pages are. *)
Definition in_frames (k : kmem) (pgdir x : Z) : Prop := ∃ f, f ∈ frames k pgdir 0 ∧ inpage f x.

Lemma in_frames_ext k k' pgdir x : (∀ va, 0 ≤ va < 2 ^ 32 → xlate k' pgdir va = xlate k pgdir va) →
  in_frames k' pgdir x ↔ in_frames k pgdir x.
Proof.
  intros HX. unfold in_frames. rewrite (frames_ext k k'); [done|]. intros r Hr. apply HX, page_index. unfold NUPAGES in Hr. lia.
Qed.

Lemma copyout_loop_run fuel : ∀ k pgdir l va buf b len,
  uspace k pgdir l 0 → 0 ≤ va → 0 ≤ len → va + len ≤ KERNBASE → writable k pgdir va len → len ≤ Z.of_nat fuel →
  ∃ k', copyout_loop fuel pgdir va buf b len k = Done (0, k') ∧ uspace k' pgdir l 0 ∧
    (∀ va, 0 ≤ va < 2 ^ 32 → xlate k' pgdir va = xlate k pgdir va) ∧
    (∀ a, 0 ≤ a < KERNBASE → user_view k' pgdir a =
       if decide (va ≤ a < va + len) then buf (b + (a - va)) else user_view k pgdir a) ∧
    (∀ x, ¬ in_frames k pgdir x → pmem k' x = pmem k x).
Proof.
  induction fuel as [|fuel IH]; intros k pgdir l va buf b len HU Hva Hlen Hk Hw Hfu.
  { assert (len = 0) as -> by lia. exists k. cbn [copyout_loop Z.leb Z.compare]. split_and!; try done.
    intros a Ha. by rewrite decide_False by lia. }
  destruct (decide (len = 0)) as [->|Hl0].
  { exists k. cbn [copyout_loop Z.leb Z.compare]. split_and!; try done. intros a Ha. by rewrite decide_False by lia. }
  destruct (user_page_number va ltac:(lia)) as (Hv1 & Hv2 & Hv3).
  set (r := va / PGSIZE) in *. set (o := va mod PGSIZE) in *.
  assert (Ho : 0 ≤ o < PGSIZE) by (apply Z.mod_pos_bound; done).
  destruct (Hw va ltac:(lia)) as (e & E & HE). rewrite xlate_page in E by done. fold r in E.
  destruct (page_index r ltac:(unfold NUPAGES in *; lia)) as [Hp Hd].
  assert (Hpd : present (pde k pgdir (PDX (PGSIZE * r))) = true ∧ word_at (tab k pgdir (PDX (PGSIZE * r)) + 4 * PTX (PGSIZE * r)) k = e ∧ present e = true).
  { unfold xlate in E. destruct (present (pde k pgdir _)); [|done]. destruct (present (word_at _ k)) eqn:Hpe; [|done].
    injection E as <-. done. }
  destruct Hpd as (P1 & P2 & P3). destruct (index_spec _ Hp) as (I1 & I2 & _).
  destruct (us_frame _ _ _ _ HU r e ltac:(lia) E) as (F1 & _).
  set (n := (PGSIZE - o) `min` len).
  destruct (view_write k pgdir l r e o n (λ a, buf (b + (a - (frame_of e + o)))) HU Hv2 E ltac:(lia) ltac:(lia) ltac:(lia)) as (HU1 & HX1 & HV1 & HM1).
  set (k1 := put_mem _ k) in *.
  destruct (IH k1 pgdir l (PGSIZE * (r + 1)) buf (b + n) (len - n)) as (k' & R & HU' & HX' & HV' & HM'); [done|lia|lia| | |lia|].
  { subst n. unfold PGSIZE, NUPAGES, KERNBASE in *. lia. }
  { intros a Ha. destruct (Hw a) as (e' & E' & HE'); [subst n; unfold PGSIZE in *; lia|]. exists e'.
    rewrite HX1; [done|]. unfold KERNBASE in Hk. subst n; unfold PGSIZE in *; lia. }
  exists k'. split_and!.
  - cbn [copyout_loop]. rewrite (proj2 (Z.leb_gt len 0)) by lia. unfold PGROUNDDOWN. rewrite page_mask. fold r.
    unfold uva2ka. rewrite run_bind, (bind_done _ _ _ _ _ (walk_present k pgdir _ false P1)).
    rewrite (proj2 (Z.eqb_neq _ 0)) by (eapply tab_nonzero; [apply HU|done|lia|done]). rewrite run_gets, P2.
    unfold present in P3. rewrite P3, HE. cbn [negb]. unfold mret at 1, M_ret at 1. fold (frame_of e).
    rewrite (proj2 (Z.eqb_neq _ 0)) by (by apply (page_ok_nonzero end_)). rewrite run_modS.
    replace (va - PGSIZE * r) with o by lia. fold n.
    rewrite u32_small by (unfold PGSIZE, NUPAGES in *; lia). replace (PGSIZE * r + PGSIZE) with (PGSIZE * (r + 1)) by (unfold PGSIZE; lia).
    exact R.
  - done.
  - intros va' Hva'. rewrite HX', HX1 by done. done.
  - intros a Ha. rewrite HV', HV1 by done. assert (va + n = PGSIZE * (r + 1) ∨ n = len) by (subst n; unfold PGSIZE in *; lia).
    repeat case_decide; try lia; try done; f_equal; lia.
  - intros x Hx. rewrite HM', HM1; [done| |by rewrite (in_frames_ext k k1)].
    intros Hi. apply Hx. exists (frame_of e). split; [|done]. apply elem_of_frames. exists r, e. split; [lia|done].
Qed.

Lemma copyout_run k pgdir l va buf len :
  uspace k pgdir l 0 → 0 ≤ va → 0 ≤ len → va + len ≤ KERNBASE → writable k pgdir va len →
  ∃ k', copyout pgdir va buf len k = Done (0, k') ∧ uspace k' pgdir l 0 ∧
    (∀ va, 0 ≤ va < 2 ^ 32 → xlate k' pgdir va = xlate k pgdir va) ∧
    (∀ a, 0 ≤ a < KERNBASE → user_view k' pgdir a =
       if decide (va ≤ a < va + len) then buf (a - va) else user_view k pgdir a) ∧
    (∀ x, ¬ in_frames k pgdir x → pmem k' x = pmem k x).
Proof. intros HU Hva Hlen Hk Hw. apply copyout_loop_run; try done. lia. Qed.

(** ** [clearpteu] *)

Lemma clear_u e : present e = true → 0 ≤ e < 2 ^ 32 →
  let e' := Z.land e (Z.lnot PTE_U) in
  present e' = true ∧ frame_of e' = frame_of e ∧ has_bit e' PTE_U = false ∧ u32 e' = e'.
Proof.
  intros Hp He e'.
  assert (Hb : ∀ n, 0 ≤ n → Z.testbit e' n = Z.testbit e n && negb (Z.testbit PTE_U n)).
  { intros n Hn. unfold e'. by rewrite Z.land_spec, Z.lnot_spec by done. }
  assert (Hbit : ∀ z c, 0 ≤ c → c_true (Z.land z (2 ^ c)) = Z.testbit z c).
  { intros z c Hc. unfold c_true. destruct (Z.testbit z c) eqn:Ht.
    - apply negb_true_iff, Z.eqb_neq. intros E0. apply (f_equal (λ z, Z.testbit z c)) in E0.
      rewrite Z.land_spec, Ht, Z.pow2_bits_true, Z.bits_0 in E0 by done. done.
    - apply negb_false_iff, Z.eqb_eq, Z.bits_inj'. intros n Hn. rewrite Z.land_spec, Z.bits_0, Z.pow2_bits_eqb by done.
      destruct (Z.eqb_spec c n) as [<-|]; [by rewrite Ht|apply andb_false_r]. }
  split_and!.
  - unfold present, has_bit in *. change PTE_P with (2 ^ 0) in *. rewrite Hbit in * by lia. by rewrite Hb, Hp by lia.
  - unfold frame_of. f_equal. apply Z.bits_inj'. intros n Hn. unfold PTE_ADDR. rewrite !Z.land_spec, Hb by done.
    destruct (decide (n = 2)) as [->|Hne]; [change (Z.testbit (Z.lnot 0xFFF) 2) with false; by rewrite !andb_false_r|].
    change PTE_U with (2 ^ 2). rewrite Z.pow2_bits_eqb by lia. rewrite (proj2 (Z.eqb_neq 2 n)) by congruence.
    by rewrite andb_true_r.
  - unfold has_bit. change PTE_U with (2 ^ 2). rewrite Hbit, Hb by lia. by rewrite andb_false_r.
  - apply Z.bits_inj'. intros n Hn. unfold u32. destruct (decide (n < 32)); [by rewrite Z.mod_pow2_bits_low by lia|].
    rewrite Z.mod_pow2_bits_high, Hb by lia. rewrite <- (Z.mod_small e (2 ^ 32)) by done. by rewrite Z.mod_pow2_bits_high by lia.
Qed.

(** The page at [uva] is hidden from the user; the process sees the same memory
    otherwise. *)
Lemma clearpteu_run k pgdir l r e :
  uspace k pgdir l 0 → 0 ≤ r < NUPAGES → xlate k pgdir (PGSIZE * r) = Some e → 0 ≤ e < 2 ^ 32 →
  ∃ k', clearpteu pgdir (PGSIZE * r) k = Done ((), k') ∧ uspace k' pgdir l 0 ∧
    (∀ va, 0 ≤ va < 2 ^ 32 → xlate k' pgdir va =
       if decide (va / PGSIZE = r) then Some (Z.land e (Z.lnot PTE_U)) else xlate k pgdir va) ∧
    (∀ a, 0 ≤ a < KERNBASE → user_view k' pgdir a = user_view k pgdir a) ∧
    (∀ x, (∀ p, istab k pgdir p → ¬ inpage p x) → pmem k' x = pmem k x) ∧
    (∀ p, istab k' pgdir p → istab k pgdir p).
Proof.
  intros HU Hr E Hre. destruct (page_index r ltac:(unfold NUPAGES in *; lia)) as [Hp Hd].
  assert (Hpd : present (pde k pgdir (PDX (PGSIZE * r))) = true ∧ word_at (tab k pgdir (PDX (PGSIZE * r)) + 4 * PTX (PGSIZE * r)) k = e ∧ present e = true).
  { unfold xlate in E. destruct (present (pde k pgdir _)); [|done]. destruct (present (word_at _ k)) eqn:Hpe; [|done].
    injection E as <-. done. }
  destruct Hpd as (P1 & P2 & P3). destruct (index_spec _ Hp) as (I1 & I2 & _).
  destruct (clear_u e P3 Hre) as (C1 & C2 & C3 & C4). pose proof HU as [_ Hf Ho Hfr Hin].
  pose proof (sp_step end_ k pgdir l (PGSIZE * r) (Z.land e (Z.lnot PTE_U)) Hf Ho Hp P1) as HS.
  pose proof (sp_xlate end_ k pgdir l (PGSIZE * r) (Z.land e (Z.lnot PTE_U)) Ho Hp P1) as HX.
  rewrite C4, C1, Hd in HX. set (k' := put_word _ _ k) in *.
  assert (HF : ∀ q e', 0 ≤ q < NUPAGES → xlate k' pgdir (PGSIZE * q) = Some e' →
    ∃ e1, xlate k pgdir (PGSIZE * q) = Some e1 ∧ frame_of e' = frame_of e1).
  { intros q e' Hq E'. destruct (page_index q ltac:(unfold NUPAGES in *; lia)) as [Hq1 Hq2]. rewrite HX, Hq2 in E' by done.
    case_decide; [|by exists e']. subst q. injection E' as <-. by exists e. }
  exists k'. split_and!.
  - unfold clearpteu. rewrite (bind_done _ _ _ _ _ (walk_present k pgdir _ false P1)).
    rewrite (proj2 (Z.eqb_neq _ 0)) by (eapply tab_nonzero; [apply HU|done|lia|done]).
    unfold modS. by rewrite P2.
  - split; [lia|apply HS|apply HS| |].
    + intros q e' Hq E'. destruct (HF q e' Hq E') as (e1 & E1 & ->). destruct (Hfr q e1 Hq E1) as (G1 & G2 & G3).
      split_and!; [done..|]. intros Ht. by destruct (vs_tabs _ _ _ _ _ _ _ HS _ Ht).
    + intros q q' e1 e2 Hq Hq' E1 E2. destruct (HF q e1 Hq E1) as (f1 & G1 & ->), (HF q' e2 Hq' E2) as (f2 & G2 & ->). by apply (Hin q q').
  - done.
  - intros a Ha. destruct (user_page_number a Ha) as (Ha1 & Ha2 & Ha3). unfold user_view. rewrite HX by done.
    assert (Hk : ∀ e', xlate k pgdir (PGSIZE * (a / PGSIZE)) = Some e' → pmem k' (frame_of e' + a mod PGSIZE) = pmem k (frame_of e' + a mod PGSIZE)).
    { intros e' E'. destruct (Hfr (a / PGSIZE) e' ltac:(lia) E') as (G1 & G2 & G3). apply (vs_frame _ _ _ _ _ _ _ HS).
      intros p Hpp. apply (inpage_apart end_ (frame_of e')); [done| |by intros <-; destruct Hpp|by apply in_frame].
      destruct Hpp as [Hpp|Hpp]; [by apply (istab_page_ok _ _ _ _ Ho Hpp)|by apply (fp_ok _ _ _ Hf)]. }
    rewrite (xlate_page k pgdir a) by done. case_decide as Har.
    + rewrite Har, E, C2. apply Hk. by rewrite Har.
    + destruct (xlate k pgdir (PGSIZE * (a / PGSIZE))) eqn:E'; [|done]. by apply Hk.
  - intros x Hx. unfold k'. apply (sp_out k pgdir (PGSIZE * r) _ Hp). apply Hx. right. exists (PDX (PGSIZE * r)). done.
  - intros p [->|(i & Hi & Hpi & ->)]; [by left|]. right. exists i. unfold k' in *.
    rewrite (sp_pde end_ k pgdir l) in Hpi by done. by rewrite (sp_tab_same end_ k pgdir l) by done.
Qed.

(** ** Growing *)

Definition user_perm : Z := Z.lor PTE_W PTE_U.

Lemma new_pte_user f : page_ok end_ f →
  has_bit (new_pte (V2P f) user_perm) PTE_U = true ∧ 0 ≤ new_pte (V2P f) user_perm < 2 ^ 32.
Proof.
  intros Hf. destruct (V2P_P2V end_ f Hf) as (_ & W2 & W3 & _).
  destruct (new_pte_spec (V2P f) user_perm W2 W3 ltac:(done)) as (Hu & _ & _ & Hfl). split; [|rewrite <- Hu; apply u32_range].
  unfold has_bit. replace (Z.land (new_pte (V2P f) user_perm) PTE_U) with (Z.land (PTE_FLAGS (new_pte (V2P f) user_perm)) PTE_U).
  - by rewrite Hfl.
  - unfold PTE_FLAGS. by rewrite <- Z.land_assoc.
Qed.

(** Pages added at the end: zeroed, for the user, in frames of their own. *)
Lemma grow_run k pgdir l q n :
  uspace k pgdir l 0 → 0 ≤ q → q + Z.of_nat n < NUPAGES → (absent k pgdir + n ≤ length l)%nat →
  (∀ r, q ≤ r < q + Z.of_nat n → xlate k pgdir (PGSIZE * r) = None) →
  ∃ k' l', allocuvm end_ pgdir (PGSIZE * q) (PGSIZE * (q + Z.of_nat n)) false k = Done (PGSIZE * (q + Z.of_nat n), k') ∧
    uspace k' pgdir l' 0 ∧ (∃ u, l = u ++ l') ∧
    (∀ r, 0 ≤ r < NUPAGES → ¬ q ≤ r < q + Z.of_nat n → xlate k' pgdir (PGSIZE * r) = xlate k pgdir (PGSIZE * r)) ∧
    (∀ r, q ≤ r < q + Z.of_nat n → ∃ f, f ∈ l ∧ xlate k' pgdir (PGSIZE * r) = Some (new_pte (V2P f) user_perm)) ∧
    (∀ a, 0 ≤ a < KERNBASE → user_view k' pgdir a =
       if decide (PGSIZE * q ≤ a < PGSIZE * (q + Z.of_nat n)) then 0 else user_view k pgdir a) ∧
    (∀ x, (∀ p, istab k pgdir p ∨ p ∈ l → ¬ inpage p x) → pmem k' x = pmem k x) ∧
    (∀ p, istab k' pgdir p → istab k pgdir p ∨ p ∈ l).
Proof.
  intros HU Hq Hn Hl Hx. pose proof HU as [_ Hf Ho Hfr Hin].
  assert (Hup : ∀ z, 0 ≤ z → PGROUNDUP (PGSIZE * z) = PGSIZE * z).
  { intros z Hz. unfold PGROUNDUP. rewrite page_mask. f_equal. unfold PGSIZE.
    replace (4096 * z + 4096 - 1) with (4095 + z * 4096) by lia. rewrite Z.div_add by lia. done. }
  assert (Hpg : ∀ r, 0 ≤ r < NUPAGES → 0 ≤ PGSIZE * r < 2 ^ 32 ∧ PGSIZE * r / PGSIZE = r) by (intros r Hr; apply page_index; unfold NUPAGES in Hr; lia).
  destruct (allocuvm_run end_ k l pgdir (PGSIZE * q) (PGSIZE * (q + Z.of_nat n)) n) as (k' & l' & fs & R & HS & Hlf & HM & HZ); try done.
  { unfold PGSIZE. lia. } { unfold PGSIZE, KERNBASE, NUPAGES in *. lia. }
  { rewrite !Hup by lia. replace (PGSIZE * (q + Z.of_nat n) - PGSIZE * q) with (Z.of_nat n * PGSIZE) by lia.
    rewrite Z.div_mul by done. lia. }
  { intros va Hva. rewrite Hup in Hva by lia. destruct (user_page_number va) as (V1 & V2 & V3); [unfold PGSIZE, KERNBASE, NUPAGES in *; lia|].
    rewrite xlate_page by done. apply Hx. pose proof (Z.mod_pos_bound va PGSIZE ltac:(done)). unfold PGSIZE in *. lia. }
  rewrite Hup in HM by lia.
  assert (Hnew : ∀ r, q ≤ r < q + Z.of_nat n → nth (Z.to_nat (r - q)) fs 0 ∈ fs ∧
    xlate k' pgdir (PGSIZE * r) = Some (new_pte (V2P (nth (Z.to_nat (r - q)) fs 0)) user_perm)).
  { intros r Hr. destruct (Hpg r ltac:(lia)) as [R1 R2], (Hpg q ltac:(lia)) as [_ Q2].
    split; [apply list_elem_of_In, nth_In; lia|]. rewrite (HM _ R1), R2, Q2, Hlf, decide_True by lia. done. }
  assert (Hold : ∀ r, 0 ≤ r < NUPAGES → ¬ q ≤ r < q + Z.of_nat n → xlate k' pgdir (PGSIZE * r) = xlate k pgdir (PGSIZE * r)).
  { intros r Hr Hrq. destruct (Hpg r Hr) as [R1 R2], (Hpg q ltac:(lia)) as [_ Q2].
    rewrite (HM _ R1), R2, Q2, Hlf, decide_False by lia. done. }
  assert (Hfs : ∀ f, f ∈ fs → page_ok end_ f ∧ f ∈ l ∧ frame_of (new_pte (V2P f) user_perm) = f).
  { intros f Hff. destruct (vs_frames _ _ _ _ _ _ _ HS f Hff) as (F1 & _). pose proof (fp_ok _ _ _ Hf f F1) as Hok.
    destruct (V2P_P2V end_ f Hok) as (W1 & W2 & W3 & _). destruct (new_pte_spec (V2P f) user_perm W2 W3 ltac:(done)) as (_ & _ & A1 & _).
    split_and!; [done..|]. unfold frame_of. by rewrite A1. }
  destruct (vs_used _ _ _ _ _ _ _ HS) as [u Hu].
  assert (HU' : uspace k' pgdir l' 0).
  { split; [lia|apply HS|apply HS| |].
    - intros r e Hr E. destruct (decide (q ≤ r < q + Z.of_nat n)) as [Hrq|Hrq].
      + destruct (Hnew r Hrq) as [Hff E']. rewrite E' in E. injection E as <-. destruct (Hfs _ Hff) as (F1 & _ & ->).
        by destruct (vs_frames _ _ _ _ _ _ _ HS _ Hff) as (_ & ? & ?).
      + rewrite Hold in E by done. destruct (Hfr r e Hr E) as (F1 & F2 & F3). split_and!; [done| |].
        * intros Hi. apply F2. rewrite Hu. apply elem_of_app. by right.
        * intros Ht. by destruct (vs_tabs _ _ _ _ _ _ _ HS _ Ht).
    - intros r r' e e' Hr Hr' E E' Heq.
      destruct (decide (q ≤ r < q + Z.of_nat n)) as [Hrq|Hrq], (decide (q ≤ r' < q + Z.of_nat n)) as [Hrq'|Hrq'].
      + destruct (Hnew r Hrq) as [Hff E1], (Hnew r' Hrq') as [Hff' E2]. rewrite E1 in E. rewrite E2 in E'.
        injection E as <-. injection E' as <-. destruct (Hfs _ Hff) as (_ & _ & G), (Hfs _ Hff') as (_ & _ & G').
        rewrite G, G' in Heq. pose proof (proj1 (NoDup_nth fs 0) (proj1 (NoDup_ListNoDup _) (vs_nodup _ _ _ _ _ _ _ HS)) (Z.to_nat (r - q)) (Z.to_nat (r' - q)) ltac:(lia) ltac:(lia) Heq). lia.
      + destruct (Hnew r Hrq) as [Hff E1]. rewrite E1 in E. injection E as <-. destruct (Hfs _ Hff) as (_ & Gl & G). rewrite G in Heq.
        rewrite Hold in E' by done. destruct (Hfr r' e' Hr' E') as (_ & F2 & _). by rewrite <- Heq in F2.
      + destruct (Hnew r' Hrq') as [Hff E1]. rewrite E1 in E'. injection E' as <-. destruct (Hfs _ Hff) as (_ & Gl & G). rewrite G in Heq.
        rewrite Hold in E by done. destruct (Hfr r e Hr E) as (_ & F2 & _). by rewrite Heq in F2.
      + rewrite Hold in E, E' by done. by apply (Hin r r' e e'). }
  exists k', l'. split_and!; [done|done|by exists u|done| | |apply HS|apply HS].
  - intros r Hr. destruct (Hnew r Hr) as [Hff E]. destruct (Hfs _ Hff) as (_ & Hfl & _). by eexists.
  - intros a Ha. destruct (user_page_number a Ha) as (A1 & A2 & A3). pose proof (Z.mod_pos_bound a PGSIZE ltac:(done)) as A4.
    unfold user_view. rewrite (xlate_page k'), (xlate_page k) by done. case_decide as Hd.
    + destruct (Hnew (a / PGSIZE)) as [Hff ->]; [unfold PGSIZE in *; lia|]. destruct (Hfs _ Hff) as (_ & _ & ->).
      eapply HZ; [done|]. unfold inpage. lia.
    + rewrite Hold by (done || unfold PGSIZE in *; lia).
      destruct (xlate k pgdir (PGSIZE * (a / PGSIZE))) as [e|] eqn:E; [|done].
      destruct (Hfr (a / PGSIZE) e ltac:(lia) E) as (F1 & F2 & F3). apply (vs_frame _ _ _ _ _ _ _ HS).
      intros p Hpp. apply (inpage_apart end_ (frame_of e)); [done| |by intros <-; destruct Hpp|by apply in_frame].
      destruct Hpp as [Hpp|Hpp]; [by apply (istab_page_ok _ _ _ _ Ho Hpp)|by apply (fp_ok _ _ _ Hf)].
Qed.

(** [copyout] to pages the user may use writes exactly the bytes asked for, across
    page boundaries and wherever the frames lie: the process sees the new bytes
    from [va] on and nothing else changed, the mappings and the memory outside its
    own frames are as before. *)
Theorem copyout_writes k pgdir l va buf len :
  uspace k pgdir l 0 → 0 ≤ va → 0 ≤ len → va + len ≤ KERNBASE → writable k pgdir va len →
  ∃ k', copyout pgdir va buf len k = Done (0, k') ∧ uspace k' pgdir l 0 ∧
    (∀ va, 0 ≤ va < 2 ^ 32 → xlate k' pgdir va = xlate k pgdir va) ∧
    (∀ a, 0 ≤ a < KERNBASE → user_view k' pgdir a =
       if decide (va ≤ a < va + len) then buf (a - va) else user_view k pgdir a) ∧
    (∀ x, ¬ in_frames k pgdir x → pmem k' x = pmem k x).
Proof. exact (copyout_run k pgdir l va buf len). Qed.

(** A page directory of zeros is an empty address space. *)
Lemma empty_uspace k l d : free_pages end_ k (d :: l) →
  ∃ k', uspace k' d l 0 ∧ (absent k' d ≤ NPDENTRIES)%nat ∧ (∀ p, istab k' d p → p = d) ∧
    (∀ va, 0 ≤ va < 2 ^ 32 → xlate k' d va = None) ∧ (∀ a, ¬ inpage d a → pmem k' a = pmem k a).
Proof.
  intros Hf. destruct (empty_dir end_ k l d Hf) as (k1 & _ & Hf1 & Ho1 & Ha1 & Ht1 & Hx1 & Hm1).
  set (k' := put_mem _ k1) in *. exists k'. split_and!; try done.
  split; [lia|done|done| |]; intros r; [intros e Hr E|intros r' e e' Hr _ E];
    by rewrite Hx1 in E by (apply page_index; unfold NUPAGES in Hr; lia).
Qed.
End uvm.

(** ** Witnesses *)

(** A process of one page. *)
Lemma one_page_uspace : ∃ k pgdir l f, uspace end0 k pgdir l 0 ∧ xlate k pgdir 0 = Some (new_pte (V2P f) user_perm) ∧
  writable k pgdir 0 PGSIZE.
Proof.
  destruct (free_machine 1100) as (k & l & Hf & Hl); [lia|]. destruct l as [|d l]; [done|]. injection Hl as Hl.
  destruct (empty_uspace end0 k l d Hf) as (k1 & U1 & Ha1 & _ & Hx1 & _). unfold NPDENTRIES in Ha1.
  destruct (grow_run end0 k1 d l 0 1 U1) as (k2 & l2 & _ & U2 & _ & _ & HN & _); [done|done|lia| |].
  { intros r Hr. apply Hx1, page_index. lia. }
  destruct (HN 0 ltac:(lia)) as (f & Hfl & E). exists k2, d, l2, f. split_and!; [done|done|].
  intros a Ha. exists (new_pte (V2P f) user_perm). assert (Ha' : 0 ≤ a < KERNBASE) by (unfold KERNBASE, PGSIZE in *; lia).
  destruct (user_page_number a Ha') as (A1 & _). split; [rewrite xlate_page, Z.div_small by (done || lia); exact E|].
  apply new_pte_user with (end_ := end0). apply (fp_ok _ _ _ (us_free _ _ _ _ _ U1) _ Hfl).
Qed.

Lemma freevm_frees_all_witness : ∃ k pgdir k' l e, freevm end0 pgdir k = Done ((), k') ∧
  xlate k pgdir 0 = Some e ∧ free_pages end0 k' l ∧ pgdir ∈ l ∧ frame_of e ∈ l.
Proof.
  destruct one_page_uspace as (k & d & l & f & U & E & _).
  destruct (freevm_frees_all end0 ltac:(unfold end0; lia) k d l U) as (k' & R & Hf & _).
  eexists k, d, k', _, _. split; [exact R|]. split; [exact E|]. split; [exact Hf|]. split; [by constructor|].
  constructor. apply elem_of_app. right. apply elem_of_app. left.
  apply list_elem_of_In, in_rev. rewrite rev_involutive. apply list_elem_of_In, elem_of_frames.
  exists 0, (new_pte (V2P f) user_perm). split; [unfold NUPAGES; lia|done].
Defined.

Lemma copyout_writes_witness : ∃ k pgdir k', copyout pgdir 4090 (λ a, a + 65) 6 k = Done (0, k') ∧ user_view k' pgdir 4092 = 67.
Proof.
  destruct one_page_uspace as (k & d & l & f & U & E & Hw).
  destruct (copyout_writes end0 k d l 4090 (λ a, a + 65) 6 U) as (k' & R & _ & _ & HV & _); [lia|lia|unfold KERNBASE; lia| |].
  - intros a Ha. apply Hw. unfold PGSIZE. lia.
  - exists k, d, k'. split; [exact R|]. rewrite HV by (unfold KERNBASE; lia). done.
Defined.
