(* ===== verification/Umem.v ===== *)
(** * The memory of a process

    The memory of a process of [sz] bytes is its first [npages sz] pages.  [allocuvm]
    (kernel/arch/x86_32/mem/vm.c) adds zeroed pages or, out of memory, undoes what it
    did; [deallocuvm] drops pages; every page stays accounted for. *)
From stdpp Require Import base decidable option list functions numbers strings sets.
From Stdlib Require Import ZArith Lia.
From S2P Require Import Prelude CString ProcDefs Kalloc Vm Uvm.

Local Open Scope Z_scope.

(** The pages that hold [n] bytes. *)
Definition npages (n : Z) : Z := (n + PGSIZE - 1) / PGSIZE.

Lemma npages_round n : PGROUNDUP n = PGSIZE * npages n.
Proof. unfold PGROUNDUP. by rewrite page_mask. Qed.

Lemma npages_spec n : PGSIZE * npages n - PGSIZE < n ≤ PGSIZE * npages n.
Proof. unfold npages, PGSIZE. pose proof (Z.div_mod (n + 4096 - 1) 4096). pose proof (Z.mod_pos_bound (n + 4096 - 1) 4096). lia. Qed.

Lemma npages_mono m n : m ≤ n → npages m ≤ npages n.
Proof. intros H. apply Z.div_le_mono; [done|lia]. Qed.

Lemma npages_user n : 0 ≤ n < KERNBASE → 0 ≤ npages n ≤ NUPAGES.
Proof. intros H. pose proof (npages_spec n). unfold NUPAGES, KERNBASE, PGSIZE in *. lia. Qed.

Section umem.
Context (end_ : Z).
Hypothesis Hend : KERNBASE < end_.
Implicit Types (k : kmem) (l : list Z).

(** ** Giving pages back *)

Lemma dealloc_run k pgdir l oldsz newsz :
  uspace end_ k pgdir l 0 → 0 ≤ newsz ≤ oldsz → oldsz < KERNBASE → bare k pgdir (npages oldsz) →
  ∃ k', deallocuvm end_ pgdir oldsz newsz k = Done (newsz, k') ∧
    uspace end_ k' pgdir (rev (frames k pgdir (npages newsz)) ++ l) 0 ∧
    (∀ i, 0 ≤ i < 1024 → pde k' pgdir i = pde k pgdir i) ∧
    (∀ r, 0 ≤ r < NUPAGES → xlate k' pgdir (PGSIZE * r) =
       if decide (npages newsz ≤ r) then None else xlate k pgdir (PGSIZE * r)) ∧
    (∀ a, (∀ p, istab k pgdir p ∨ p ∈ frames k pgdir (npages newsz) → ¬ inpage p a) → pmem k' a = pmem k a).
Proof.
  intros HU Hn Ho Hb. pose proof (npages_user oldsz ltac:(lia)) as P1. pose proof (npages_user newsz ltac:(lia)) as P2.
  unfold deallocuvm. destruct (Z.leb_spec oldsz newsz) as [Hle|Hlt].
  - assert (newsz = oldsz) as -> by lia. exists k. rewrite (frames_bare k pgdir (npages oldsz) ltac:(lia) Hb).
    split_and!; [done..| |done]. intros r Hr. case_decide; [apply Hb; lia|done].
  - pose proof (npages_spec oldsz) as S1. pose proof (npages_spec newsz) as S2.
    destruct (dealloc_loop_run end_ Hend (Z.to_nat (oldsz / PGSIZE + 1)) k pgdir l (npages newsz) (npages oldsz) oldsz)
      as (k' & R & HU' & HP & HX & HM); [done|lia|lia|done|done| |].
    { pose proof (Z.div_mod oldsz PGSIZE ltac:(done)). pose proof (Z.mod_pos_bound oldsz PGSIZE ltac:(done)).
      unfold PGSIZE in *. lia. }
    exists k'. split_and!; try done. rewrite npages_round.
    rewrite u32_small by (unfold PGSIZE, KERNBASE, NUPAGES in *; lia). by rewrite (bind_done _ _ _ _ _ R).
Qed.

(** The view of a page whose entry and frame are untouched. *)
Lemma view_keep k k' pgdir a : 0 ≤ a < KERNBASE →
  xlate k' pgdir (PGSIZE * (a / PGSIZE)) = xlate k pgdir (PGSIZE * (a / PGSIZE)) →
  (∀ e, xlate k pgdir (PGSIZE * (a / PGSIZE)) = Some e → pmem k' (frame_of e + a mod PGSIZE) = pmem k (frame_of e + a mod PGSIZE)) →
  user_view k' pgdir a = user_view k pgdir a.
Proof.
  intros Ha Hx Hm. destruct (user_page_number a Ha) as (A1 & _). unfold user_view.
  rewrite (xlate_page k'), (xlate_page k), Hx by done.
  destruct (xlate k pgdir _) as [e|] eqn:E; [|done]. by apply Hm.
Qed.

(** A byte of a user frame is in no table, no free page and no other user frame. *)
Lemma frame_byte k pgdir l r e a p : uspace end_ k pgdir l 0 → 0 ≤ r < NUPAGES → xlate k pgdir (PGSIZE * r) = Some e →
  page_ok end_ p → p ≠ frame_of e → ¬ inpage p (frame_of e + a mod PGSIZE).
Proof.
  intros HU Hr E Hp Hne. destruct (us_frame _ _ _ _ _ HU r e Hr E) as (F1 & _).
  apply (inpage_apart end_ (frame_of e)); [done|done|by intros <-|by apply (in_frame end_)].
Qed.

(** ** Adding a page *)

(** From [k] to [k'], page [q] is mapped for the user to the zeroed page [f], taken from
    the free list, and nothing else of the address space changes. *)
Record added (k : kmem) (pgdir : Z) (l : list Z) (q : Z) (k' : kmem) (l' : list Z) : Prop := Added {
  ad_space : uspace end_ k' pgdir l' 0;
  ad_count : (length l' + absent k pgdir + 1 = length l + absent k' pgdir)%nat;
  ad_page : ∃ e, xlate k' pgdir (PGSIZE * q) = Some e ∧ has_bit e PTE_U = true;
  ad_other : ∀ r, 0 ≤ r < NUPAGES → r ≠ q → xlate k' pgdir (PGSIZE * r) = xlate k pgdir (PGSIZE * r);
  ad_view : ∀ a, 0 ≤ a < KERNBASE → user_view k' pgdir a = if decide (a / PGSIZE = q) then 0 else user_view k pgdir a
}.

Lemma added_step k pgdir l q f k' l' :
  uspace end_ k pgdir l 0 → 0 ≤ q < NUPAGES → vm_step end_ pgdir k l k' l' [f] →
  (∀ va, 0 ≤ va < 2 ^ 32 → xlate k' pgdir va =
     if decide (va / PGSIZE = PGSIZE * q / PGSIZE) then Some (new_pte (V2P f) user_perm) else xlate k pgdir va) →
  (∀ a, inpage f a → pmem k' a = 0) → added k pgdir l q k' l'.
Proof.
  intros HU Hq HS HX HZ. pose proof HU as [_ Hf Ho Hfr Hin].
  assert (Hpg : ∀ r, 0 ≤ r < NUPAGES → 0 ≤ PGSIZE * r < 2 ^ 32 ∧ PGSIZE * r / PGSIZE = r) by (intros r Hr; apply page_index; unfold NUPAGES in Hr; lia).
  destruct (vs_frames _ _ _ _ _ _ _ HS f ltac:(by constructor)) as (G1 & G2 & G3). pose proof (fp_ok _ _ _ Hf f G1) as Hok.
  assert (Hfo : frame_of (new_pte (V2P f) user_perm) = f).
  { destruct (V2P_P2V end_ f Hok) as (W1 & W2 & W3 & _). destruct (new_pte_spec (V2P f) user_perm W2 W3 ltac:(done)) as (_ & _ & A1 & _).
    unfold frame_of. by rewrite A1. }
  assert (HXr : ∀ r, 0 ≤ r < NUPAGES → xlate k' pgdir (PGSIZE * r) =
    if decide (r = q) then Some (new_pte (V2P f) user_perm) else xlate k pgdir (PGSIZE * r)).
  { intros r Hr. destruct (Hpg r Hr) as [R1 R2], (Hpg q Hq) as [_ Q2]. by rewrite (HX _ R1), R2, Q2. }
  assert (Hold : ∀ r e, 0 ≤ r < NUPAGES → xlate k pgdir (PGSIZE * r) = Some e → frame_of e ≠ f).
  { intros r e Hr E <-. by destruct (Hfr r e Hr E) as (_ & F & _). }
  split.
  - split; [lia|apply HS|apply HS| |].
    + intros r e Hr. rewrite HXr by done. case_decide as Hrq; [intros [= <-]; by rewrite Hfo|].
      intros E. destruct (Hfr r e Hr E) as (F1 & F2 & F3).
      destruct (vm_step_keep end_ _ _ _ _ _ _ (frame_of e) Hf Ho HS F1 F3 F2) as (K1 & K2 & _). done.
    + intros r r' e e' Hr Hr'. rewrite !HXr by done. repeat case_decide; intros E E' Heq; subst; try done.
      * injection E as <-. rewrite Hfo in Heq. by destruct (Hold r' e' Hr' E').
      * injection E' as <-. rewrite Hfo in Heq. by destruct (Hold r e Hr E).
      * by apply (Hin r r' e e').
  - pose proof (vs_count _ _ _ _ _ _ _ HS). cbn [length] in *. lia.
  - eexists. rewrite HXr, decide_True by done. split; [done|]. by apply (new_pte_user end_).
  - intros r Hr Hne. by rewrite HXr, decide_False.
  - intros a Ha. destruct (user_page_number a Ha) as (A1 & A2 & A3). case_decide as Haq.
    + unfold user_view. rewrite xlate_page, HXr, decide_True by done. rewrite Hfo. apply HZ.
      pose proof (Z.mod_pos_bound a PGSIZE ltac:(done)). unfold inpage. lia.
    + apply view_keep; [done|by rewrite HXr, decide_False|]. intros e E.
      destruct (Hfr _ e A2 E) as (F1 & F2 & F3).
      destruct (vm_step_keep end_ _ _ _ _ _ _ (frame_of e) Hf Ho HS F1 F3 F2) as (_ & _ & K3). apply K3. by apply (in_frame end_).
Qed.

(** A page held by nobody: neither free, nor a table, nor a user page. *)
Definition loose (k : kmem) (pgdir : Z) (l : list Z) (f : Z) : Prop :=
  page_ok end_ f ∧ f ∉ l ∧ ¬ istab k pgdir f ∧ ∀ r e, 0 ≤ r < NUPAGES → xlate k pgdir (PGSIZE * r) = Some e → frame_of e ≠ f.

(** The same address space, seen by the user and in its tables. *)
Record same_space (k k' : kmem) (pgdir : Z) : Prop := SameSpace {
  al_pde : ∀ i, 0 ≤ i < 1024 → pde k' pgdir i = pde k pgdir i;
  al_xlate : ∀ r, 0 ≤ r < NUPAGES → xlate k' pgdir (PGSIZE * r) = xlate k pgdir (PGSIZE * r);
  al_view : ∀ a, 0 ≤ a < KERNBASE → user_view k' pgdir a = user_view k pgdir a
}.

(** [alloc_page] adds a page or, out of memory, calls [undo] and gives back the page
    [rest] it could not map. *)
Lemma alloc_page_cases k pgdir l q undo :
  uspace end_ k pgdir l 0 → 0 ≤ q < NUPAGES → xlate k pgdir (PGSIZE * q) = None →
  (∃ k' l', alloc_page end_ pgdir (PGSIZE * q) undo k = Done (true, k') ∧ added k pgdir l q k' l') ∨
  (∃ k1 rest, alloc_page end_ pgdir (PGSIZE * q) undo k =
      (_ ← undo; _ ← mfor rest (kfree end_); mret false) k1 ∧
    uspace end_ k1 pgdir [] 0 ∧ same_space k k1 pgdir ∧ length l = length rest ∧
    (rest = [] ∨ ∃ f, rest = [f] ∧ loose k1 pgdir [] f)).
Proof.
  intros HU Hq Hx. pose proof HU as [_ Hf Ho Hfr Hin].
  destruct (page_index q ltac:(unfold NUPAGES in Hq; lia)) as [Hva Hdv].
  unfold alloc_page. destruct l as [|f l].
  - right. exists k, []. destruct (kalloc_run end_ k [] Hf) as (k1 & R & _).
    assert (k1 = k) as ->.
    { pose proof (fp_chain _ _ _ Hf) as Hc. cbn in Hc. unfold kalloc in R. rewrite run_getS, Hc in R. by injection R. }
    rewrite (bind_done _ _ _ _ _ R). split_and!; [done|done|by split|done|by left].
  - destruct (take_page end_ k pgdir f l (λ m, memset m f 0 PGSIZE) Hf Ho) as (k1 & R & Hm & HS1 & HX1).
    { intros m a Ha. rewrite memset_at by (unfold PGSIZE; lia). by rewrite decide_False. }
    pose proof (fp_ok _ _ _ Hf f ltac:(by constructor)) as Hok.
    rewrite (bind_done _ _ _ _ _ R), (proj2 (Z.eqb_neq f 0) (page_ok_nonzero end_ f Hok)), run_modS.
    set (k2 := put_mem (λ m, memset m f 0 PGSIZE) k1) in *.
    assert (HZ : ∀ a, inpage f a → pmem k2 a = 0).
    { intros a Ha. cbn. rewrite memset_at by (unfold PGSIZE; lia). by rewrite decide_True. }
    destruct (V2P_P2V end_ f Hok) as (_ & W2 & W3 & _).
    destruct (mappages_one end_ k2 pgdir l (PGSIZE * q) (V2P f) user_perm) as [(-> & R2)|(k' & l' & R2 & HS2 & HX2)];
      [apply HS1|apply HS1|lia|unfold PGSIZE, NUPAGES in *; lia| |done..|by rewrite HX1| |].
    { rewrite Z.mul_comm. by apply Z.mod_mul. }
    + right. rewrite (bind_done _ _ _ _ _ R2). cbn [Z.ltb Z.compare]. exists k2, [f].
      destruct (vs_frames _ _ _ _ _ _ _ HS1 f ltac:(by constructor)) as (_ & _ & G3).
      assert (Hm2 : ∀ a, ¬ inpage f a → pmem k2 a = pmem k a).
      { intros a Ha. cbn. rewrite memset_at by (unfold PGSIZE; lia). rewrite decide_False by done. by rewrite Hm. }
      assert (Hft : ¬ istab k pgdir f).
      { intros Ht. destruct (istab_page_ok end_ _ _ _ _ Ho Ht) as [_ Hn]. apply Hn. by constructor. }
      assert (He : ∀ p a, istab k pgdir p → inpage p a → pmem k2 a = pmem k a).
      { intros p a Hp Ha. apply Hm2. destruct (istab_page_ok end_ _ _ _ _ Ho Hp) as [Hpo _].
        apply (inpage_apart end_ p); [done|done|by intros ->|done]. }
      assert (Hnf : ∀ r e, 0 ≤ r < NUPAGES → xlate k pgdir (PGSIZE * r) = Some e → frame_of e ≠ f).
      { intros r e Hr E <-. destruct (Hfr r e Hr E) as (_ & F & _). apply F. by constructor. }
      split_and!; [| |split|done|right; exists f; split; [done|]].
      * cbn [mfor]. rewrite !run_bind. destruct (undo k2) as [[? s]| | | |]; try done.
        rewrite !run_bind. by destruct (kfree end_ f s) as [[? ?]| | | |].
      * apply (uspace_ext end_ k k2 pgdir [f] [] 0 0); [done|lia|apply HS1|done|by intros p ?%elem_of_nil].
      * intros i Hi. by apply (ext_pde k k2 pgdir He).
      * intros r Hr. apply (ext_xlate k k2 pgdir He), page_index. unfold NUPAGES in Hr. lia.
      * intros a Ha. destruct (user_page_number a Ha) as (A1 & A2 & _). apply view_keep; [done| |].
        -- by apply (ext_xlate k k2 pgdir He), page_index; unfold NUPAGES in A2; lia.
        -- intros e E. apply Hm2. apply (frame_byte k pgdir [f] (a / PGSIZE) e); [done..|].
           intros ->. by apply (Hnf _ e A2 E).
      * split_and!; [done|by intros ?%elem_of_nil|done|]. intros r e Hr E. apply (Hnf r e Hr).
        rewrite <- E. symmetry. apply (ext_xlate k k2 pgdir He), page_index. unfold NUPAGES in Hr. lia.
    + left. rewrite (bind_done _ _ _ _ _ R2). exists k', l'. split; [done|].
      apply (added_step k pgdir (f :: l) q f); [done|done|exact (vm_step_trans end_ _ _ _ _ _ _ _ [f] [] HS1 HS2)| |].
      * intros va Hv. by rewrite HX2, HX1.
      * intros a Ha. destruct (vs_frames _ _ _ _ _ _ _ HS1 f ltac:(by constructor)) as (_ & G2 & G3).
        destruct (vm_step_keep end_ _ _ _ _ _ _ f (vs_free _ _ _ _ _ _ _ HS1) (vs_ok _ _ _ _ _ _ _ HS1) HS2 Hok G3 G2) as (_ & _ & K).
        rewrite K by done. by apply HZ.
Qed.

(** ** Growing *)

Lemma absent_ext k k' pgdir : (∀ i, 0 ≤ i < 1024 → pde k' pgdir i = pde k pgdir i) → absent k' pgdir = absent k pgdir.
Proof.
  intros H. unfold absent. f_equal. apply filter_same. intros i Hi%elem_of_seq. unfold NPDENTRIES in Hi. by rewrite H by lia.
Qed.

Lemma frames_added k k' pgdir q0 q : q0 ≤ q < NUPAGES → xlate k pgdir (PGSIZE * q) = None →
  is_Some (xlate k' pgdir (PGSIZE * q)) →
  (∀ r, q0 ≤ r < NUPAGES → r ≠ q → xlate k' pgdir (PGSIZE * r) = xlate k pgdir (PGSIZE * r)) →
  length (frames k' pgdir q0) = S (length (frames k pgdir q0)).
Proof.
  intros Hq Hn [e He] Hr. replace q0 with (q - Z.of_nat (Z.to_nat (q - q0))) in * by lia.
  generalize dependent (Z.to_nat (q - q0)). intros n Hq Hr. induction n as [|n IH].
  - rewrite Z.sub_0_r in *. rewrite !(frames_cons _ _ q) by lia. rewrite Hn, He. cbn. f_equal.
    rewrite (frames_ext k k'); [done|]. intros r Hrr. apply Hr; lia.
  - rewrite !(frames_cons _ _ (q - Z.of_nat (S n))) by lia. rewrite Hr by lia. rewrite !length_app.
    replace (q - Z.of_nat (S n) + 1) with (q - Z.of_nat n) by lia.
    rewrite IH; [lia|lia|]. intros r Hrr. apply Hr. lia.
Qed.

(** From [k] to [k'] the pages from [q] on are gone, the others are as they were. *)
Record cut (k : kmem) (pgdir q : Z) (k' : kmem) : Prop := Cut {
  cu_xlate : ∀ r, 0 ≤ r < NUPAGES → xlate k' pgdir (PGSIZE * r) = if decide (q ≤ r) then None else xlate k pgdir (PGSIZE * r);
  cu_view : ∀ a, 0 ≤ a < KERNBASE → user_view k' pgdir a = if decide (q ≤ a / PGSIZE) then 0 else user_view k pgdir a
}.

Lemma cut_trans k k1 k2 pgdir q : cut k1 pgdir q k2 →
  (∀ r, 0 ≤ r < NUPAGES → r < q → xlate k1 pgdir (PGSIZE * r) = xlate k pgdir (PGSIZE * r)) →
  (∀ a, 0 ≤ a < KERNBASE → a / PGSIZE < q → user_view k1 pgdir a = user_view k pgdir a) → cut k pgdir q k2.
Proof.
  intros [X V] HX HV. split.
  - intros r Hr. rewrite X by done. case_decide; [done|]. apply HX; lia.
  - intros a Ha. rewrite V by done. case_decide; [done|]. apply HV; lia.
Qed.

Lemma dealloc_cut k pgdir l oldsz newsz :
  uspace end_ k pgdir l 0 → 0 ≤ newsz ≤ oldsz → oldsz < KERNBASE → bare k pgdir (npages oldsz) →
  ∃ k' l', deallocuvm end_ pgdir oldsz newsz k = Done (newsz, k') ∧ uspace end_ k' pgdir l' 0 ∧
    length l' = (length (frames k pgdir (npages newsz)) + length l)%nat ∧ absent k' pgdir = absent k pgdir ∧
    cut k pgdir (npages newsz) k' ∧ (∀ f, loose k pgdir l f → loose k' pgdir l' f).
Proof.
  intros HU Hn Ho Hb. destruct (dealloc_run k pgdir l oldsz newsz HU Hn Ho Hb) as (k' & R & HU' & HP & HX & HM).
  exists k', (rev (frames k pgdir (npages newsz)) ++ l). split_and!; [done|done| |by apply absent_ext| |].
  - by rewrite length_app, length_rev.
  - split; [done|]. intros a Ha. destruct (user_page_number a Ha) as (A1 & A2 & _). case_decide as Hd.
    + unfold user_view. by rewrite xlate_page, HX, decide_True.
    + apply view_keep; [done|by rewrite HX, decide_False|]. intros e E. apply HM. intros p Hp.
      destruct (us_frame _ _ _ _ _ HU _ e A2 E) as (_ & _ & F3).
      apply (frame_byte k pgdir l (a / PGSIZE) e); [done..| |].
      * destruct Hp as [Hp|(r & e' & Hr & E' & ->)%elem_of_frames]; [by apply (istab_page_ok end_ _ _ _ _ (us_pt _ _ _ _ _ HU) Hp)|].
        by apply (us_frame _ _ _ _ _ HU r e' ltac:(pose proof (npages_user newsz); lia) E').
      * destruct Hp as [Hp|(r & e' & Hr & E' & ->)%elem_of_frames]; [by intros ->|].
        intros Heq. pose proof (us_inj _ _ _ _ _ HU r (a / PGSIZE) e' e ltac:(pose proof (npages_user newsz); lia) A2 E' E Heq). lia.
  - intros f (F1 & F2 & F3 & F4). split_and!; [done| | |].
    + intros [Hin|Hin]%elem_of_app; [|done]. rewrite list_elem_of_In, <- in_rev, <- list_elem_of_In in Hin.
      apply elem_of_frames in Hin as (r & e & Hr & E & ->). apply (F4 r e); [pose proof (npages_user newsz); lia|done|done].
    + intros [->|(i & Hi & Hpi & ->)]; apply F3; [by left|]. right. exists i. rewrite HP in Hpi by done.
      split; [done|]. split; [done|]. unfold tab. by rewrite HP.
    + intros r e Hr. rewrite HX by done. case_decide; [done|]. by apply F4.
Qed.

(** A loose page given back. *)
Lemma free_loose k pgdir l f : uspace end_ k pgdir l 0 → loose k pgdir l f →
  ∃ k', kfree end_ f k = Done ((), k') ∧ uspace end_ k' pgdir (f :: l) 0 ∧ absent k' pgdir = absent k pgdir ∧ same_space k k' pgdir.
Proof.
  intros HU (F1 & F2 & F3 & F4). destruct (kfree_run end_ k l f (us_free _ _ _ _ _ HU) F1 F2) as (k' & R & Hf & _ & Hm).
  assert (He : ∀ p a, istab k pgdir p → inpage p a → pmem k' a = pmem k a).
  { intros p a Hp Ha. apply Hm. destruct (istab_page_ok end_ _ _ _ _ (us_pt _ _ _ _ _ HU) Hp) as [Hpo _].
    apply (inpage_apart end_ p); [done|done|by intros ->|done]. }
  assert (HX : ∀ r, 0 ≤ r < NUPAGES → xlate k' pgdir (PGSIZE * r) = xlate k pgdir (PGSIZE * r)).
  { intros r Hr. apply (ext_xlate k k' pgdir He), page_index. unfold NUPAGES in Hr. lia. }
  exists k'. split_and!; [done| | |split].
  - apply (uspace_ext end_ k k' pgdir l (f :: l) 0 0); [done|lia|done|done|].
    intros p [->|Hp]%elem_of_cons; [right|by left]. split; [done|]. intros r e Hr. by apply F4.
  - apply absent_ext. intros i Hi. by apply (ext_pde k k' pgdir He).
  - intros i Hi. by apply (ext_pde k k' pgdir He).
  - done.
  - intros a Ha. destruct (user_page_number a Ha) as (A1 & A2 & _). apply view_keep; [done|by apply HX|].
    intros e E. apply Hm. apply (frame_byte k pgdir l (a / PGSIZE) e); [done..|]. intros ->. by apply (F4 _ e A2 E).
Qed.

(** A failed page: what was added since page [q0] is taken away again. *)
Lemma undo_run k k1 pgdir l rest oldsz newsz :
  uspace end_ k1 pgdir [] 0 → same_space k k1 pgdir → length l = length rest → (rest = [] ∨ ∃ f, rest = [f] ∧ loose k1 pgdir [] f) →
  0 ≤ oldsz ≤ newsz → newsz < KERNBASE → bare k pgdir (npages newsz) →
  ∃ k' l', (_ ← deallocuvm end_ pgdir newsz oldsz; _ ← mfor rest (kfree end_); mret false) k1 = Done (false, k') ∧
    uspace end_ k' pgdir l' 0 ∧ absent k' pgdir = absent k pgdir ∧
    length l' = (length (frames k pgdir (npages oldsz)) + length l)%nat ∧ cut k pgdir (npages oldsz) k'.
Proof.
  intros HU [HP HX HV] Hl Hr Ho Hn Hb. pose proof (npages_user newsz ltac:(lia)) as P2. pose proof (npages_user oldsz ltac:(lia)) as P1.
  destruct (dealloc_cut k1 pgdir [] newsz oldsz HU) as (k2 & l2 & R & HU2 & Hl2 & Ha2 & C2 & HL); [lia|lia| |].
  { intros r Hr'. rewrite HX by lia. by apply Hb. }
  rewrite (frames_ext k k1) in Hl2 by (intros r Hr'; apply HX; lia). rewrite (absent_ext k k1 pgdir HP) in Ha2.
  assert (C : cut k pgdir (npages oldsz) k2) by (apply (cut_trans k k1); [done|by intros; apply HX|by intros; apply HV]).
  rewrite (bind_done _ _ _ _ _ R). destruct Hr as [->|(f & -> & Hlo)]; cbn [mfor length] in *.
  - exists k2, l2. split_and!; [done|done|done|lia|done].
  - destruct (free_loose k2 pgdir l2 f HU2 (HL f Hlo)) as (k3 & R3 & HU3 & Ha3 & [HP3 HX3 HV3]).
    exists k3, (f :: l2). split_and!; [|done|lia|cbn [length]; lia|].
    + rewrite run_bind, (bind_done _ _ _ _ _ R3). done.
    + destruct C as [CX CV]. split; [intros r Hr; rewrite HX3 by done; by apply CX|intros a Ha; rewrite HV3 by done; by apply CV].
Qed.

(** The outcome of the loop of [allocuvm] from page [q], [n] pages to go. *)
Definition grown (k : kmem) (pgdir : Z) (l : list Z) (q : Z) (n : nat) (k' : kmem) (l' : list Z) : Prop :=
  (length l' + absent k pgdir + n = length l + absent k' pgdir)%nat ∧
  (∀ r, q ≤ r < q + Z.of_nat n → ∃ e, xlate k' pgdir (PGSIZE * r) = Some e ∧ has_bit e PTE_U = true) ∧
  (∀ r, 0 ≤ r < NUPAGES → ¬ q ≤ r < q + Z.of_nat n → xlate k' pgdir (PGSIZE * r) = xlate k pgdir (PGSIZE * r)) ∧
  (∀ a, 0 ≤ a < KERNBASE → user_view k' pgdir a =
     if decide (q ≤ a / PGSIZE < q + Z.of_nat n) then 0 else user_view k pgdir a).

Lemma alloc_up_total pgdir oldsz newsz n : 0 ≤ oldsz ≤ newsz → newsz < KERNBASE → ∀ fuel k l q,
  uspace end_ k pgdir l 0 → npages oldsz ≤ q → q + Z.of_nat n = npages newsz → (n ≤ fuel)%nat → bare k pgdir q →
  ∃ ok k' l', alloc_up end_ fuel pgdir (PGSIZE * q) oldsz newsz k = Done (ok, k') ∧ uspace end_ k' pgdir l' 0 ∧
    if (ok : bool) then grown k pgdir l q n k' l'
    else (length l' + absent k pgdir = length l + absent k' pgdir + length (frames k pgdir (npages oldsz)))%nat ∧
      cut k pgdir (npages oldsz) k'.
Proof.
  intros Ho Hn. pose proof (npages_user newsz ltac:(lia)) as P2. pose proof (npages_user oldsz ltac:(lia)) as P1.
  pose proof (npages_spec newsz) as S2. induction n as [|n IH]; intros fuel k l q HU Hq Hqn Hf Hb.
  - exists true, k, l. unfold grown. split_and!; [|done|lia|intros; lia|done|].
    + destruct fuel; cbn [alloc_up]; by rewrite (proj2 (Z.leb_le newsz _)) by (unfold PGSIZE in *; lia).
    + intros a Ha. by rewrite decide_False by lia.
  - destruct fuel as [|fuel]; [lia|]. cbn [alloc_up].
    rewrite (proj2 (Z.leb_gt newsz _)) by (unfold PGSIZE in *; lia).
    destruct (alloc_page_cases k pgdir l q (deallocuvm end_ pgdir newsz oldsz) HU) as [(k1 & l1 & R & HA)|(k1 & rest & R & H1 & HAl & Hl & Hr)];
      [lia|apply Hb; lia| |].
    + rewrite (bind_done _ _ _ _ _ R). cbn [negb]. destruct HA as [A1 A2 (e & A3 & A3') A4 A5].
      rewrite u32_small by (unfold PGSIZE, KERNBASE in *; lia). replace (PGSIZE * q + PGSIZE) with (PGSIZE * (q + 1)) by lia.
      destruct (IH fuel k1 l1 (q + 1) A1) as (ok & k' & l' & R' & HU' & H'); [lia|lia|lia| |].
      { intros r Hr. rewrite A4 by lia. apply Hb. lia. }
      exists ok, k', l'. split; [done|]. split; [done|]. destruct ok.
      * destruct H' as (G1 & G2 & G3 & G4). split_and!; [lia| | |].
        -- intros r Hr. destruct (decide (r = q)) as [->|]; [|apply G2; lia]. exists e. rewrite G3 by lia. done.
        -- intros r Hr Hnr. rewrite G3, A4 by lia. done.
        -- intros a Ha. rewrite G4, A5 by done. repeat case_decide; try done; lia.
      * destruct H' as (G1 & C). split.
        -- rewrite (frames_added k k1 pgdir (npages oldsz) q) in G1; [lia|lia|apply Hb; lia|by rewrite A3|].
           intros r Hr Hne. apply A4; lia.
        -- apply (cut_trans k k1); [done|intros r Hr Hrq; apply A4; lia|].
           intros a Ha Haq. rewrite A5 by done. by rewrite decide_False by lia.
    + destruct (undo_run k k1 pgdir l rest oldsz newsz H1 HAl Hl Hr Ho Hn) as (k' & l' & R' & HU' & Ha & Hl' & C).
      { intros r Hr'. apply Hb. lia. }
      exists false, k', l'. split_and!; [|done|lia|done]. rewrite run_bind, R, R'. done.
Qed.

(** ** The memory of a process *)

(** The first [npages sz] pages, and no others, are mapped for the user; [f] is what
    they hold. *)
Record proc_mem (k : kmem) (pgdir : Z) (l : list Z) (sz : Z) (f : Z → Z) : Prop := ProcMem {
  pm_space : uspace end_ k pgdir l 0;
  pm_size : 0 ≤ sz < KERNBASE;
  pm_pages : ∀ r, 0 ≤ r < npages sz → ∃ e, xlate k pgdir (PGSIZE * r) = Some e ∧ has_bit e PTE_U = true;
  pm_bare : bare k pgdir (npages sz);
  pm_view : ∀ a, 0 ≤ a < PGSIZE * npages sz → user_view k pgdir a = f a
}.

(** No page was lost or made: what the free list lost, user pages and tables gained. *)
Definition accounted (k : kmem) (pgdir : Z) (l : list Z) (sz : Z) (k' : kmem) (l' : list Z) (sz' : Z) : Prop :=
  Z.of_nat (length l') + npages sz' - Z.of_nat (absent k' pgdir) = Z.of_nat (length l) + npages sz - Z.of_nat (absent k pgdir).

(** Pages that are added hold zeros. *)
Definition zero_from (b : Z) (f : Z → Z) (a : Z) : Z := if a <? b then f a else 0.

Lemma page_below a q : 0 ≤ a → a / PGSIZE < q ↔ a < PGSIZE * q.
Proof. unfold PGSIZE. intros Ha. pose proof (Z.div_mod a 4096). pose proof (Z.mod_pos_bound a 4096). lia. Qed.

Lemma cut_mem k pgdir l sz f k' l' newsz : proc_mem k pgdir l sz f → 0 ≤ newsz ≤ sz → uspace end_ k' pgdir l' 0 →
  cut k pgdir (npages newsz) k' → proc_mem k' pgdir l' newsz f.
Proof.
  intros [P1 P2 P3 P4 P5] Hn HU [CX CV]. pose proof (npages_user sz P2). pose proof (npages_user newsz ltac:(lia)).
  pose proof (npages_mono newsz sz ltac:(lia)). split; [done|lia| | |].
  - intros r Hr. rewrite CX, decide_False by lia. apply P3. lia.
  - intros r Hr. by rewrite CX, decide_True by lia.
  - intros a Ha. assert (Ha' : a / PGSIZE < npages newsz) by (apply page_below; lia).
    rewrite CV, decide_False by (unfold PGSIZE, NUPAGES, KERNBASE in *; lia). apply P5. unfold PGSIZE in *. lia.
Qed.

Lemma frames_full k pgdir l sz f newsz : proc_mem k pgdir l sz f → 0 ≤ newsz ≤ sz →
  Z.of_nat (length (frames k pgdir (npages newsz))) = npages sz - npages newsz.
Proof.
  intros [P1 P2 P3 P4 P5] Hn. pose proof (npages_user sz P2). pose proof (npages_user newsz ltac:(lia)) as Hu.
  pose proof (npages_mono newsz sz ltac:(lia)). generalize dependent (npages newsz). intros q Hq Hle.
  replace q with (npages sz - Z.of_nat (Z.to_nat (npages sz - q))) in * by lia.
  generalize dependent (Z.to_nat (npages sz - q)). intros n Hq Hle. clear Hle. induction n as [|n IH].
  - rewrite Z.sub_0_r, frames_bare by (done || lia). cbn. lia.
  - rewrite frames_cons by lia. destruct (P3 (npages sz - Z.of_nat (S n)) ltac:(lia)) as (e & -> & _).
    cbn [app length]. replace (npages sz - Z.of_nat (S n) + 1) with (npages sz - Z.of_nat n) by lia.
    rewrite Nat2Z.inj_succ, IH by lia. lia.
Qed.

Lemma allocuvm_total k pgdir l sz f newsz :
  proc_mem k pgdir l sz f → sz ≤ newsz < KERNBASE →
  ∃ r k' l', allocuvm end_ pgdir sz newsz false k = Done (r, k') ∧
    (r = newsz ∧ proc_mem k' pgdir l' newsz (zero_from (PGSIZE * npages sz) f) ∧ accounted k pgdir l sz k' l' newsz ∨
     r = 0 ∧ proc_mem k' pgdir l' sz f ∧ accounted k pgdir l sz k' l' sz).
Proof.
  intros HM Hn. pose proof HM as [P1 P2 P3 P4 P5].
  pose proof (npages_user sz P2) as N1. pose proof (npages_user newsz ltac:(lia)) as N2. pose proof (npages_mono sz newsz ltac:(lia)).
  unfold allocuvm. rewrite (proj2 (Z.leb_gt KERNBASE newsz)), (proj2 (Z.ltb_ge newsz sz)) by lia.
  rewrite run_ret. cbn [negb]. rewrite npages_round, u32_small by (unfold PGSIZE, NUPAGES in *; lia).
  destruct (alloc_up_total pgdir sz newsz (Z.to_nat (npages newsz - npages sz)) ltac:(lia) ltac:(lia)
    (Z.to_nat (newsz / PGSIZE + 1)) k l (npages sz) P1) as (ok & k' & l' & R & HU & H'); [lia|lia| |done|].
  { pose proof (npages_spec newsz). pose proof (Z.div_mod newsz PGSIZE ltac:(done)). pose proof (Z.mod_pos_bound newsz PGSIZE ltac:(done)).
    unfold PGSIZE in *. lia. }
  rewrite (bind_done _ _ _ _ _ R). destruct ok.
  - destruct H' as (G1 & G2 & G3 & G4). eexists _, k', l'. split; [done|]. left. split; [done|]. split; [split|unfold accounted; lia].
    + done.
    + lia.
    + intros r Hr. destruct (decide (r < npages sz)); [|apply G2; lia]. rewrite G3 by lia. apply P3. lia.
    + intros r Hr. rewrite G3 by lia. apply P4. lia.
    + intros a Ha. assert (Ha' : a / PGSIZE < npages newsz) by (apply page_below; lia).
      rewrite G4 by (unfold PGSIZE, NUPAGES, KERNBASE in *; lia). unfold zero_from.
      destruct (Z.ltb_spec a (PGSIZE * npages sz)) as [Hlt|Hge].
      * rewrite decide_False; [apply P5; lia|]. apply page_below in Hlt; lia.
      * rewrite decide_True; [done|]. destruct (decide (a / PGSIZE < npages sz)) as [Hc|]; [apply page_below in Hc; lia|lia].
  - destruct H' as (G1 & C). eexists _, k', l'. split; [done|]. right. split; [done|].
    split; [by apply (cut_mem k _ l sz f); [|lia| |]|]. pose proof (frames_full k pgdir l sz f sz HM ltac:(lia)). unfold accounted. lia.
Qed.

(** C9: [allocuvm] is all or nothing.  Growing the memory of a process, it either adds the
    pages up to the new size, zeroed and mapped for the user, or it is out of memory
    and returns 0 with the mappings and contents as they were: every page taken on the
    way, tables apart, is free again.  In both cases no page is lost. *)
Theorem allocuvm_all_or_nothing k pgdir l sz f newsz :
  proc_mem k pgdir l sz f → sz ≤ newsz < KERNBASE →
  ∃ r k' l', allocuvm end_ pgdir sz newsz false k = Done (r, k') ∧
    (r = newsz ∧ proc_mem k' pgdir l' newsz (zero_from (PGSIZE * npages sz) f) ∧ accounted k pgdir l sz k' l' newsz ∨
     r = 0 ∧ proc_mem k' pgdir l' sz f ∧ accounted k pgdir l sz k' l' sz).
Proof. exact (allocuvm_total k pgdir l sz f newsz). Qed.

Lemma deallocuvm_total k pgdir l sz f newsz : proc_mem k pgdir l sz f → 0 ≤ newsz ≤ sz →
  ∃ k' l', deallocuvm end_ pgdir sz newsz k = Done (newsz, k') ∧ proc_mem k' pgdir l' newsz f ∧ accounted k pgdir l sz k' l' newsz.
Proof.
  intros HM Hn. pose proof HM as [P1 P2 P3 P4 P5].
  destruct (dealloc_cut k pgdir l sz newsz P1 Hn ltac:(lia) P4) as (k' & l' & R & HU & Hl & Ha & C & _).
  exists k', l'. split_and!; [done|by apply (cut_mem k _ l sz f)|].
  pose proof (frames_full k pgdir l sz f newsz HM Hn). unfold accounted. lia.
Qed.

(** ** Any sequence of operations *)

Lemma copyout_mem k pgdir l sz f va buf len : proc_mem k pgdir l sz f → 0 ≤ va → 0 ≤ len → va + len ≤ PGSIZE * npages sz →
  ∃ k', copyout pgdir va buf len k = Done (0, k') ∧ accounted k pgdir l sz k' l sz ∧
    proc_mem k' pgdir l sz (λ a, if decide (va ≤ a < va + len) then buf (a - va) else f a).
Proof.
  intros [P1 P2 P3 P4 P5] Hva Hlen Hle. pose proof (npages_user sz P2) as N. assert (Hk : PGSIZE * npages sz ≤ KERNBASE) by (unfold PGSIZE, KERNBASE, NUPAGES in *; lia).
  destruct (copyout_run end_ k pgdir l va buf len P1 Hva Hlen ltac:(lia)) as (k' & R & HU & HX & HV & HM).
  { intros a Ha. destruct (user_page_number a ltac:(lia)) as (A1 & A2 & _). rewrite xlate_page by done. apply P3.
    split; [lia|]. apply page_below; lia. }
  assert (HXr : ∀ r, 0 ≤ r < NUPAGES → xlate k' pgdir (PGSIZE * r) = xlate k pgdir (PGSIZE * r))
    by (intros r Hr; apply HX, page_index; unfold NUPAGES in Hr; lia).
  exists k'. split; [exact R|]. split.
  - unfold accounted. rewrite (absent_ext k k' pgdir); [done|]. intros i Hi. apply word_frame; [done|]. intros a Ha. apply HM.
    intros (? & (r & e & Hr & E & ->)%elem_of_frames & Hin). destruct (us_frame _ _ _ _ _ P1 r e Hr E) as (F1 & _ & F3).
    apply (inpage_apart end_ (frame_of e) pgdir a); [done|apply (po_dir _ _ _ _ (us_pt _ _ _ _ _ P1))| |done|done].
    intros Heq. apply F3. by left.
  - split; [exact HU|exact P2| | |].
    + intros r Hr. rewrite HXr by lia. by apply P3.
    + intros r Hr. rewrite HXr by lia. by apply P4.
    + intros a Ha. rewrite HV by lia. case_decide; [done|]. apply P5. lia.
Qed.

(** The states of a process's memory that [allocuvm], [deallocuvm] and [copyout] lead to. *)
Inductive mreach (k0 : kmem) (pgdir sz0 : Z) : kmem → Z → Prop :=
| mr_start : mreach k0 pgdir sz0 k0 sz0
| mr_grow k sz newsz r k' : mreach k0 pgdir sz0 k sz → sz ≤ newsz →
    allocuvm end_ pgdir sz newsz false k = Done (r, k') → mreach k0 pgdir sz0 k' (if r =? 0 then sz else r)
| mr_shrink k sz newsz r k' : mreach k0 pgdir sz0 k sz → 0 ≤ newsz ≤ sz →
    deallocuvm end_ pgdir sz newsz k = Done (r, k') → mreach k0 pgdir sz0 k' r
| mr_copy k sz va buf len r k' : mreach k0 pgdir sz0 k sz → 0 ≤ va → 0 ≤ len → va + len ≤ PGSIZE * npages sz →
    copyout pgdir va buf len k = Done (r, k') → mreach k0 pgdir sz0 k' sz.

Lemma accounted_trans k1 k2 k3 pgdir l1 l2 l3 sz1 sz2 sz3 :
  accounted k1 pgdir l1 sz1 k2 l2 sz2 → accounted k2 pgdir l2 sz2 k3 l3 sz3 → accounted k1 pgdir l1 sz1 k3 l3 sz3.
Proof. unfold accounted. lia. Qed.

End umem.

(** ** Witnesses *)

(** A new process, and memory for two pages. *)
Lemma new_process : ∃ k pgdir l, proc_mem end0 k pgdir l 0 (λ _, 0) ∧
  ∃ k', allocuvm end0 pgdir 0 8192 false k = Done (8192, k').
Proof.
  destruct (free_machine 1100) as (k & l & Hf & Hl); [lia|]. destruct l as [|d l]; [done|]. injection Hl as Hl.
  destruct (empty_uspace end0 k l d Hf) as (k1 & U1 & Ha1 & _ & Hx1 & _). unfold NPDENTRIES in Ha1.
  assert (Hb : bare k1 d 0) by (intros r Hr; apply Hx1, page_index; unfold NUPAGES in Hr; lia).
  exists k1, d, l. split.
  - split; [done|done|intros r Hr; change (npages 0) with 0 in Hr; lia|done|intros a Ha; change (PGSIZE * npages 0) with 0 in Ha; lia].
  - destruct (grow_run end0 k1 d l 0 2 U1) as (k2 & _ & R & _); [done|done|lia|intros r Hr; apply Hb; unfold NUPAGES; lia|].
    by exists k2.
Qed.

Lemma allocuvm_all_or_nothing_witness : ∃ k pgdir k' l', allocuvm end0 pgdir 0 8192 false k = Done (8192, k') ∧
  proc_mem end0 k' pgdir l' 8192 (λ _, 0) ∧ user_view k' pgdir 5000 = 0.
Proof.
  destruct new_process as (k & d & l & HM & k2 & R).
  destruct (allocuvm_all_or_nothing end0 ltac:(unfold end0; lia) k d l 0 (λ _, 0) 8192 HM) as (r & k' & l' & R' & H); [unfold KERNBASE; lia|].
  rewrite R in R'. injection R' as <- <-. destruct H as [(_ & HM' & _)|(? & _)]; [|done].
  assert (HV : ∀ a, 0 ≤ a < 8192 → user_view k2 d a = 0).
  { intros a Ha. rewrite (pm_view _ _ _ _ _ _ HM') by (change (PGSIZE * npages 8192) with 8192; lia). unfold zero_from. by destruct (_ <? _). }
  exists k, d, k2, l'. split; [exact R|]. split; [|by apply HV]. destruct HM' as [Q1 Q2 Q3 Q4 _]. split; [exact Q1|exact Q2|exact Q3|exact Q4|].
  intros a Ha. apply HV. change (PGSIZE * npages 8192) with 8192 in Ha. lia.
Defined.

