(* ===== verification/FsDefs.v ===== *)
(** * File system data

    The in-memory state of the buffer cache, the log and the file system:
    [struct buf] (kernel/fs/buf.h), [struct log] (kernel/fs/log.c),
    [struct superblock] (kernel/fs/fs.h), [struct inode] (kernel/fs/file.h) and
    the mount table (kernel/fs/mount.h).  A [struct buf *] is an index into
    [bcache.buf]; a [struct inode *] is an index into the two inode caches laid
    end to end.  The doubly linked list of buffers is the list [lru] of indices
    from [head.next] to [head.prev].  The state is that of one kernel thread
    with process id [mypid]; [disk] is what the devices hold, and [writes] is
    the sequence of block writes that led there. *)
From stdpp Require Import base decidable option list functions numbers strings.
From Stdlib Require Import ZArith Lia.
From S2P Require Import Prelude CString.

Local Open Scope Z_scope.

Definition BSIZE : Z := 512.
Definition NBUF : nat := 30.
Definition LOGSIZE : Z := 30.
Definition MAXOPBLOCKS : Z := 10.
Definition FSSIZE : Z := 1000.
Definition NINODE : nat := 50.
Definition NDIRECT : Z := 12.
Definition NINDIRECT : Z := 128.
Definition MAXFILE : Z := NDIRECT + NINDIRECT.
Definition IPB : Z := 8.
Definition BPB : Z := 4096.
Definition DIRSIZ : Z := 14.
Definition ROOTINO : Z := 1.
Definition NDEV : Z := 10.
Definition T_DIR : Z := 1.
Definition T_FILE : Z := 2.
Definition T_DEV : Z := 3.
Definition B_VALID : Z := 2.
Definition B_DIRTY : Z := 4.

(** [struct buf] *)
Record buf := Buf {
  b_flags : Z;
  b_dev : Z;
  b_blockno : Z;
  b_locked : bool;  (* lock.locked *)
  b_pid : Z;  (* lock.pid *)
  b_refcnt : Z;
  b_data : mem  (* data[BSIZE] *)
}.

Definition set_b_flags (v : Z) (x : buf) : buf :=
    Buf v (b_dev x) (b_blockno x) (b_locked x) (b_pid x) (b_refcnt x) (b_data x).
Definition set_b_dev (v : Z) (x : buf) : buf :=
    Buf (b_flags x) v (b_blockno x) (b_locked x) (b_pid x) (b_refcnt x) (b_data x).
Definition set_b_blockno (v : Z) (x : buf) : buf :=
    Buf (b_flags x) (b_dev x) v (b_locked x) (b_pid x) (b_refcnt x) (b_data x).
Definition set_b_locked (v : bool) (x : buf) : buf :=
    Buf (b_flags x) (b_dev x) (b_blockno x) v (b_pid x) (b_refcnt x) (b_data x).
Definition set_b_pid (v : Z) (x : buf) : buf :=
    Buf (b_flags x) (b_dev x) (b_blockno x) (b_locked x) v (b_refcnt x) (b_data x).
Definition set_b_refcnt (v : Z) (x : buf) : buf :=
    Buf (b_flags x) (b_dev x) (b_blockno x) (b_locked x) (b_pid x) v (b_data x).
Definition set_b_data (v : mem) (x : buf) : buf :=
    Buf (b_flags x) (b_dev x) (b_blockno x) (b_locked x) (b_pid x) (b_refcnt x) v.

(** [struct log] and its header *)
Record logst := Log {
  l_start : Z;
  l_size : Z;
  outstanding : Z;  (* FS system calls executing *)
  committing : Z;
  l_dev : Z;
  lh_n : Z;  (* lh.n *)
  lh_block : list Z  (* lh.block[LOGSIZE] *)
}.

Definition set_l_start (v : Z) (x : logst) : logst :=
    Log v (l_size x) (outstanding x) (committing x) (l_dev x) (lh_n x) (lh_block x).
Definition set_l_size (v : Z) (x : logst) : logst :=
    Log (l_start x) v (outstanding x) (committing x) (l_dev x) (lh_n x) (lh_block x).
Definition set_outstanding (v : Z) (x : logst) : logst :=
    Log (l_start x) (l_size x) v (committing x) (l_dev x) (lh_n x) (lh_block x).
Definition set_committing (v : Z) (x : logst) : logst :=
    Log (l_start x) (l_size x) (outstanding x) v (l_dev x) (lh_n x) (lh_block x).
Definition set_l_dev (v : Z) (x : logst) : logst :=
    Log (l_start x) (l_size x) (outstanding x) (committing x) v (lh_n x) (lh_block x).
Definition set_lh_n (v : Z) (x : logst) : logst :=
    Log (l_start x) (l_size x) (outstanding x) (committing x) (l_dev x) v (lh_block
    x).
Definition set_lh_block (v : list Z) (x : logst) : logst :=
    Log (l_start x) (l_size x) (outstanding x) (committing x) (l_dev x) (lh_n x) v.

(** [struct superblock] *)
Record superblock := Sb {
  sb_size : Z; sb_nblocks : Z; sb_ninodes : Z; sb_nlog : Z; sb_logstart : Z;
  sb_inodestart : Z; sb_bmapstart : Z
}.

(** [struct inode] *)
Record inode := Inode {
  i_dev : Z;
  i_inum : Z;
  i_ref : Z;
  i_locked : bool;
  i_pid : Z;
  i_valid : Z;
  i_type : Z;
  i_major : Z;
  i_minor : Z;
  i_nlink : Z;
  i_size : Z;
  i_mount : Z;  (* is_mount_point *)
  i_addrs : list Z  (* addrs[NDIRECT+1] *)
}.

Definition set_i_dev (v : Z) (x : inode) : inode :=
    Inode v (i_inum x) (i_ref x) (i_locked x) (i_pid x) (i_valid x) (i_type x)
    (i_major x) (i_minor x) (i_nlink x) (i_size x) (i_mount x) (i_addrs x).
Definition set_i_inum (v : Z) (x : inode) : inode :=
    Inode (i_dev x) v (i_ref x) (i_locked x) (i_pid x) (i_valid x) (i_type x) (i_major
    x) (i_minor x) (i_nlink x) (i_size x) (i_mount x) (i_addrs x).
Definition set_i_ref (v : Z) (x : inode) : inode :=
    Inode (i_dev x) (i_inum x) v (i_locked x) (i_pid x) (i_valid x) (i_type x)
    (i_major x) (i_minor x) (i_nlink x) (i_size x) (i_mount x) (i_addrs x).
Definition set_i_locked (v : bool) (x : inode) : inode :=
    Inode (i_dev x) (i_inum x) (i_ref x) v (i_pid x) (i_valid x) (i_type x) (i_major
    x) (i_minor x) (i_nlink x) (i_size x) (i_mount x) (i_addrs x).
Definition set_i_pid (v : Z) (x : inode) : inode :=
    Inode (i_dev x) (i_inum x) (i_ref x) (i_locked x) v (i_valid x) (i_type x)
    (i_major x) (i_minor x) (i_nlink x) (i_size x) (i_mount x) (i_addrs x).
Definition set_i_valid (v : Z) (x : inode) : inode :=
    Inode (i_dev x) (i_inum x) (i_ref x) (i_locked x) (i_pid x) v (i_type x) (i_major
    x) (i_minor x) (i_nlink x) (i_size x) (i_mount x) (i_addrs x).
Definition set_i_type (v : Z) (x : inode) : inode :=
    Inode (i_dev x) (i_inum x) (i_ref x) (i_locked x) (i_pid x) (i_valid x) v (i_major
    x) (i_minor x) (i_nlink x) (i_size x) (i_mount x) (i_addrs x).
Definition set_i_major (v : Z) (x : inode) : inode :=
    Inode (i_dev x) (i_inum x) (i_ref x) (i_locked x) (i_pid x) (i_valid x) (i_type x)
    v (i_minor x) (i_nlink x) (i_size x) (i_mount x) (i_addrs x).
Definition set_i_minor (v : Z) (x : inode) : inode :=
    Inode (i_dev x) (i_inum x) (i_ref x) (i_locked x) (i_pid x) (i_valid x) (i_type x)
    (i_major x) v (i_nlink x) (i_size x) (i_mount x) (i_addrs x).
Definition set_i_nlink (v : Z) (x : inode) : inode :=
    Inode (i_dev x) (i_inum x) (i_ref x) (i_locked x) (i_pid x) (i_valid x) (i_type x)
    (i_major x) (i_minor x) v (i_size x) (i_mount x) (i_addrs x).
Definition set_i_size (v : Z) (x : inode) : inode :=
    Inode (i_dev x) (i_inum x) (i_ref x) (i_locked x) (i_pid x) (i_valid x) (i_type x)
    (i_major x) (i_minor x) (i_nlink x) v (i_mount x) (i_addrs x).
Definition set_i_mount (v : Z) (x : inode) : inode :=
    Inode (i_dev x) (i_inum x) (i_ref x) (i_locked x) (i_pid x) (i_valid x) (i_type x)
    (i_major x) (i_minor x) (i_nlink x) (i_size x) v (i_addrs x).
Definition set_i_addrs (v : list Z) (x : inode) : inode :=
    Inode (i_dev x) (i_inum x) (i_ref x) (i_locked x) (i_pid x) (i_valid x) (i_type x)
    (i_major x) (i_minor x) (i_nlink x) (i_size x) (i_mount x) v.

(** The file system of one thread. *)
Record fsys := Fsys {
  bufs : nat → buf;  (* bcache.buf[NBUF] *)
  lru : list nat;  (* bcache.head.next onwards *)
  disk : Z → Z → mem;  (* device, block number *)
  writes : list (Z * Z * mem);  (* blocks written, oldest first *)
  flog : logst;  (* log *)
  fsb : superblock;  (* sb *)
  fsb2 : superblock;  (* sb2 *)
  inodes : nat → inode;  (* icache, then icache2 *)
  mount_point : option nat;  (* mounttable *)
  mount_root : option nat;
  mypid : Z;  (* myproc()->pid *)
  mycwd : option nat  (* myproc()->cwd *)
}.

Definition set_bufs (v : nat → buf) (x : fsys) : fsys :=
    Fsys v (lru x) (disk x) (writes x) (flog x) (fsb x) (fsb2 x) (inodes x)
    (mount_point x) (mount_root x) (mypid x) (mycwd x).
Definition set_lru (v : list nat) (x : fsys) : fsys :=
    Fsys (bufs x) v (disk x) (writes x) (flog x) (fsb x) (fsb2 x) (inodes x)
    (mount_point x) (mount_root x) (mypid x) (mycwd x).
Definition set_disk (v : Z → Z → mem) (x : fsys) : fsys :=
    Fsys (bufs x) (lru x) v (writes x) (flog x) (fsb x) (fsb2 x) (inodes x)
    (mount_point x) (mount_root x) (mypid x) (mycwd x).
Definition set_writes (v : list (Z * Z * mem)) (x : fsys) : fsys :=
    Fsys (bufs x) (lru x) (disk x) v (flog x) (fsb x) (fsb2 x) (inodes x) (mount_point
    x) (mount_root x) (mypid x) (mycwd x).
Definition set_flog (v : logst) (x : fsys) : fsys :=
    Fsys (bufs x) (lru x) (disk x) (writes x) v (fsb x) (fsb2 x) (inodes x)
    (mount_point x) (mount_root x) (mypid x) (mycwd x).
Definition set_fsb (v : superblock) (x : fsys) : fsys :=
    Fsys (bufs x) (lru x) (disk x) (writes x) (flog x) v (fsb2 x) (inodes x)
    (mount_point x) (mount_root x) (mypid x) (mycwd x).
Definition set_fsb2 (v : superblock) (x : fsys) : fsys :=
    Fsys (bufs x) (lru x) (disk x) (writes x) (flog x) (fsb x) v (inodes x)
    (mount_point x) (mount_root x) (mypid x) (mycwd x).
Definition set_inodes (v : nat → inode) (x : fsys) : fsys :=
    Fsys (bufs x) (lru x) (disk x) (writes x) (flog x) (fsb x) (fsb2 x) v (mount_point
    x) (mount_root x) (mypid x) (mycwd x).
Definition set_mount_point (v : option nat) (x : fsys) : fsys :=
    Fsys (bufs x) (lru x) (disk x) (writes x) (flog x) (fsb x) (fsb2 x) (inodes x) v
    (mount_root x) (mypid x) (mycwd x).
Definition set_mount_root (v : option nat) (x : fsys) : fsys :=
    Fsys (bufs x) (lru x) (disk x) (writes x) (flog x) (fsb x) (fsb2 x) (inodes x)
    (mount_point x) v (mypid x) (mycwd x).
Definition set_mypid (v : Z) (x : fsys) : fsys :=
    Fsys (bufs x) (lru x) (disk x) (writes x) (flog x) (fsb x) (fsb2 x) (inodes x)
    (mount_point x) (mount_root x) v (mycwd x).
Definition set_mycwd (v : option nat) (x : fsys) : fsys :=
    Fsys (bufs x) (lru x) (disk x) (writes x) (flog x) (fsb x) (fsb2 x) (inodes x)
    (mount_point x) (mount_root x) (mypid x) v.

(** [b->f = v] and [ip->f = v] *)
Definition updb (i : nat) (f : buf → buf) (s : fsys) : fsys :=
  set_bufs (<[i := f (bufs s i)]> (bufs s)) s.
Definition updi (i : nat) (f : inode → inode) (s : fsys) : fsys :=
  set_inodes (<[i := f (inodes s i)]> (inodes s)) s.
Definition updl (f : logst → logst) (s : fsys) : fsys := set_flog (f (flog s)) s.

(** 16-bit little-endian fields. *)
Definition load16 (m : mem) (a : Z) : Z := m a + m (a + 1) ≪ 8.
Definition store16 (m : mem) (a v : Z) : mem := store8 (store8 m a v) (a + 1) (v ≫ 8).

Lemma store16_out m a v x : ¬ (a ≤ x < a + 2) → store16 m a v x = m x.
Proof. intros Hx. unfold store16, store8. mem_cases. Qed.

Lemma bufs_updb i f s j :
  bufs (updb i f s) j = if decide (i = j) then f (bufs s i) else bufs s j.
Proof.
  cbn. case_decide; [subst; apply fn_lookup_insert | by apply fn_lookup_insert_ne].
Qed.

Lemma inodes_updi i f s j :
  inodes (updi i f s) j = if decide (i = j) then f (inodes s i) else inodes s j.
Proof.
  cbn. case_decide; [subst; apply fn_lookup_insert | by apply fn_lookup_insert_ne].
Qed.

#[export] Hint Rewrite bufs_updb inodes_updi : xv6.
#[global] Arguments updb : simpl never.
#[global] Arguments updi : simpl never.
