(* ===== verification/Bio.v ===== *)
(** * The buffer cache: kernel/fs/bio.c

    Each function as run by one kernel thread; the spinlock of the cache makes
    its sections atomic, and waiting for a buffer that is locked is [Hung].
    [disk_rw] is what a completed call of the disk driver's [iderw] has done:
    a dirty buffer has been written, another one read. *)
From stdpp Require Import base decidable option list functions numbers strings sets.
From Stdlib Require Import ZArith Lia.
From S2P Require Import Prelude CString FsDefs.

Local Open Scope Z_scope.

Definition has (flags bit : Z) : bool := c_true (Z.land flags bit).

(** ** Sleep locks of buffers *)

Definition acquire_buf (i : nat) : M fsys () :=
  s ← getS;
  if b_locked (bufs s i) then hang
  else
    _ ← modS (updb i (set_b_locked true));
    modS (updb i (set_b_pid (mypid s))).

Definition holding_buf (i : nat) (s : fsys) : bool :=
  b_locked (bufs s i) && (b_pid (bufs s i) =? mypid s).

Definition release_buf (i : nat) : M fsys () :=
  _ ← modS (updb i (set_b_locked false));
  modS (updb i (set_b_pid 0)).

(** ** The device *)

Definition write_disk (d b : Z) (m : mem) (s : fsys) : fsys :=
  set_writes (writes s ++ [(d, b, m)])
    (set_disk (<[d := <[b := m]> (disk s d)]> (disk s)) s).

Definition disk_rw (i : nat) (dev : Z) : M fsys () :=
  s ← getS;
  let b := bufs s i in
  if negb (holding_buf i s) then panic "iderw: buf not locked"
  else if Z.land (b_flags b) (Z.lor B_VALID B_DIRTY) =? B_VALID
  then panic "iderw: nothing to do"
  else if (dev =? 1) || (dev =? 2) then
    if FSSIZE <=? b_blockno b then panic "incorrect blockno"
    else
      _ ← (if has (b_flags b) B_DIRTY
           then modS (write_disk (b_dev b) (b_blockno b) (b_data b))
           else modS (updb i (set_b_data (disk s (b_dev b) (b_blockno b)))));
      modS (updb i (λ b, set_b_flags (Z.land (Z.lor (b_flags b) B_VALID) (Z.lnot B_DIRTY)) b))
  else if (3 <=? dev) && (dev <=? 8) then hang
  else mret ().

(** ** The cache *)

(** [binit]: the buffers are linked in with the last one at the head. *)
Definition binit : M fsys () :=
  _ ← modS (set_lru []);
  mfor (seq 0 NBUF) (λ i,
    _ ← modS (updb i (set_b_locked false));
    _ ← modS (updb i (set_b_pid 0));
    modS (λ s, set_lru (i :: lru s) s)).

Definition cached (dev blockno : Z) (s : fsys) : option nat :=
  List.find (λ i, (b_dev (bufs s i) =? dev) && (b_blockno (bufs s i) =? blockno)) (lru s).

(** The least recently used buffer that is neither referenced nor dirty. *)
Definition recyclable (s : fsys) : option nat :=
  List.find (λ i, (b_refcnt (bufs s i) =? 0) && negb (has (b_flags (bufs s i)) B_DIRTY))
    (rev (lru s)).

Definition bget (dev blockno : Z) : M fsys nat :=
  s ← getS;
  match cached dev blockno s with
  | Some i =>
      _ ← modS (updb i (λ b, set_b_refcnt (u32 (b_refcnt b + 1)) b));
      _ ← acquire_buf i;
      mret i
  | None =>
      match recyclable s with
      | Some i =>
          _ ← modS (updb i (set_b_dev dev));
          _ ← modS (updb i (set_b_blockno blockno));
          _ ← modS (updb i (set_b_flags 0));
          _ ← modS (updb i (set_b_refcnt 1));
          _ ← acquire_buf i;
          mret i
      | None => panic "bget: no buffers"
      end
  end.

Definition bread (dev blockno : Z) : M fsys nat :=
  i ← bget dev blockno;
  s ← getS;
  _ ← (if has (b_flags (bufs s i)) B_VALID then mret () else disk_rw i dev);
  mret i.

(** [breada]: [-1] is returned as a pointer when too many blocks are asked for;
    [b[0]] is not set when none is. *)
Definition MAX_READA : Z := 4.

Fixpoint breada_loop (dev blockno : Z) (idx : list nat) : M fsys (list nat) :=
  match idx with
  | [] => mret []
  | k :: idx =>
      i ← bget dev (u32 (blockno + Z.of_nat k));
      s ← getS;
      _ ← (if has (b_flags (bufs s i)) B_VALID then mret () else disk_rw i dev);
      r ← breada_loop dev blockno idx;
      mret (i :: r)
  end.

Definition breada (dev blockno reada_len : Z) : M fsys (option nat) :=
  if MAX_READA <? reada_len then mret None
  else
    l ← breada_loop dev blockno (seq 0 (Z.to_nat reada_len));
    match l with
    | i :: _ => mret (Some i)
    | [] => fault
    end.

Definition bwrite (i : nat) : M fsys () :=
  s ← getS;
  if negb (holding_buf i s) then panic "bwrite"
  else
    _ ← modS (updb i (λ b, set_b_flags (Z.lor (b_flags b) B_DIRTY) b));
    disk_rw i (b_dev (bufs s i)).

(** Unlink [i] and put it at the head. *)
Definition to_front (i : nat) (l : list nat) : list nat := i :: filter (λ j, j ≠ i) l.

Definition brelse (i : nat) : M fsys () :=
  s ← getS;
  if negb (holding_buf i s) then panic "brelse"
  else
    _ ← release_buf i;
    _ ← modS (updb i (λ b, set_b_refcnt (u32 (b_refcnt b - 1)) b));
    s ← getS;
    if b_refcnt (bufs s i) =? 0 then modS (λ s, set_lru (to_front i (lru s)) s) else mret ().

(** ** Termination *)

Lemma term_disk_rw i dev : terminates (disk_rw i dev).
Proof. unfold disk_rw. terminate. Qed.

Lemma term_bread dev b : terminates (bread dev b).
Proof. pose proof term_disk_rw. unfold bread, bget, acquire_buf. terminate. Qed.

Lemma term_bwrite i : terminates (bwrite i).
Proof. pose proof term_disk_rw. unfold bwrite. terminate. Qed.

Lemma term_brelse i : terminates (brelse i).
Proof. unfold brelse, release_buf. terminate. Qed.

#[export] Hint Resolve term_disk_rw term_bread term_bwrite term_brelse : term.

(** ** The invariant of the cache *)

Record binv (s : fsys) : Prop := BInv {
  bi_lru : lru s ≡ₚ seq 0 NBUF;
  bi_unique : ∀ i j, (i < NBUF)%nat → (j < NBUF)%nat →
    b_dev (bufs s i) = b_dev (bufs s j) → b_blockno (bufs s i) = b_blockno (bufs s j) →
    b_dev (bufs s i) ≠ 0 → i = j;
  bi_flags : ∀ i, (i < NBUF)%nat →
    b_flags (bufs s i) = 0 ∨ b_flags (bufs s i) = B_VALID ∨
    b_flags (bufs s i) = Z.lor B_VALID B_DIRTY;
  bi_refcnt : ∀ i, (i < NBUF)%nat → 0 ≤ b_refcnt (bufs s i) < 2 ^ 31;
  bi_locked : ∀ i, (i < NBUF)%nat → b_locked (bufs s i) = true → 1 ≤ b_refcnt (bufs s i);
  bi_clean : ∀ i, (i < NBUF)%nat → b_locked (bufs s i) = false →
    b_flags (bufs s i) = B_VALID →
    b_data (bufs s i) = disk s (b_dev (bufs s i)) (b_blockno (bufs s i));
  bi_dirty : ∀ i, (i < NBUF)%nat → has (b_flags (bufs s i)) B_DIRTY = true → b_dev (bufs s i) ≠ 0
}.

(** What a reader of the block gets: the cached copy if there is one. *)
Definition content (s : fsys) (dev blockno : Z) : mem :=
  match cached dev blockno s with
  | Some i => if has (b_flags (bufs s i)) B_VALID then b_data (bufs s i)
              else disk s dev blockno
  | None => disk s dev blockno
  end.

(** Buffers that can be recycled. *)
Definition avail (s : fsys) : list nat :=
  filter (λ i, b_refcnt (bufs s i) = 0 ∧ has (b_flags (bufs s i)) B_DIRTY = false) (lru s).

(** The parts of the state the cache does not touch. *)
Definition rest_same (s s' : fsys) : Prop :=
  flog s' = flog s ∧ fsb s' = fsb s ∧ fsb2 s' = fsb2 s ∧ inodes s' = inodes s ∧
  mount_point s' = mount_point s ∧ mount_root s' = mount_root s ∧ mypid s' = mypid s ∧
  mycwd s' = mycwd s.

(** ** Finding blocks *)

Lemma bi_lt s i : binv s → i ∈ lru s ↔ (i < NBUF)%nat.
Proof. intros HI. rewrite (bi_lru s HI), elem_of_seq. lia. Qed.

Lemma cached_hit s i :
  binv s → (i < NBUF)%nat → b_dev (bufs s i) ≠ 0 →
  cached (b_dev (bufs s i)) (b_blockno (bufs s i)) s = Some i.
Proof.
  intros HI Hi Hd. unfold cached. set (P := λ j, _).
  destruct (List.find P (lru s)) as [j|] eqn:Hf.
  - apply find_some in Hf as [Hin HP]. unfold P in HP.
    apply andb_true_iff in HP as [H1%Z.eqb_eq H2%Z.eqb_eq]. f_equal. symmetry.
    apply list_elem_of_In, (bi_lt s j HI) in Hin. by apply (bi_unique s HI).
  - exfalso. eapply find_none in Hf; [|by apply list_elem_of_In, (bi_lt s i HI)].
    unfold P in Hf. by rewrite !Z.eqb_refl in Hf.
Qed.

Lemma cached_some s d b i :
  binv s → cached d b s = Some i →
  (i < NBUF)%nat ∧ b_dev (bufs s i) = d ∧ b_blockno (bufs s i) = b.
Proof.
  intros HI Hf. apply find_some in Hf as [Hin HP].
  apply andb_true_iff in HP as [H1%Z.eqb_eq H2%Z.eqb_eq].
  split; [by apply (bi_lt s i HI), list_elem_of_In|done].
Qed.

Lemma cached_none s d b i :
  binv s → cached d b s = None → (i < NBUF)%nat →
  ¬ (b_dev (bufs s i) = d ∧ b_blockno (bufs s i) = b).
Proof.
  intros HI Hf Hi [H1 H2]. eapply find_none in Hf; [|by apply list_elem_of_In, (bi_lt s i HI)].
  cbn in Hf. by rewrite H1, H2, !Z.eqb_refl in Hf.
Qed.

(** [cached] is determined by the tags of the buffers. *)
Lemma cached_eq s s' d b :
  binv s → binv s' → d ≠ 0 →
  (∀ i, (i < NBUF)%nat → b_dev (bufs s' i) = b_dev (bufs s i) ∧
                         b_blockno (bufs s' i) = b_blockno (bufs s i)) →
  cached d b s' = cached d b s.
Proof.
  intros HI HI' Hd Htag. destruct (cached d b s) as [i|] eqn:Hc.
  - destruct (cached_some _ _ _ _ HI Hc) as (Hi & Hdi & Hbi).
    destruct (Htag i Hi) as [H1 H2]. rewrite <- Hdi, <- Hbi, <- H1, <- H2.
    apply cached_hit; [done..|]. by rewrite H1, Hdi.
  - destruct (cached d b s') as [i|] eqn:Hc'; [|done].
    destruct (cached_some _ _ _ _ HI' Hc') as (Hi & Hdi & Hbi).
    destruct (Htag i Hi) as [H1 H2]. exfalso.
    apply (cached_none _ _ _ i HI Hc Hi). split; congruence.
Qed.

Definition isdirty (s : fsys) (d b : Z) : bool :=
  match cached d b s with Some i => has (b_flags (bufs s i)) B_DIRTY | None => false end.

(** ** One thread and the buffers it holds *)

(** The thread holds exactly the buffers [H]; no other one is in use. *)
Record bstate (s : fsys) (H : list nat) : Prop := BState {
  bs_inv : binv s;
  bs_held : ∀ i, i ∈ H → (i < NBUF)%nat ∧ b_locked (bufs s i) = true ∧
                         b_pid (bufs s i) = mypid s ∧ b_refcnt (bufs s i) = 1;
  bs_free : ∀ i, (i < NBUF)%nat → i ∉ H → b_locked (bufs s i) = false ∧ b_refcnt (bufs s i) = 0
}.

(** Buffer [i] is held and is the block [(d, b)] with contents [m]. *)
Record held (s : fsys) (i : nat) (d b : Z) (m : mem) : Prop := Held {
  hd_lt : (i < NBUF)%nat;
  hd_dev : b_dev (bufs s i) = d;
  hd_blockno : b_blockno (bufs s i) = b;
  hd_valid : has (b_flags (bufs s i)) B_VALID = true;
  hd_data : b_data (bufs s i) = m
}.

(** The dirty buffers. *)
Definition dirty_bufs (s : fsys) : list nat :=
  filter (λ i, has (b_flags (bufs s i)) B_DIRTY = true) (seq 0 NBUF).

(** Nothing but the bookkeeping of the cache changed. *)
Record bsame (s s' : fsys) : Prop := BSame {
  bm_content : ∀ d b, d ≠ 0 → content s' d b = content s d b;
  bm_dirty : ∀ d b, d ≠ 0 → isdirty s' d b = isdirty s d b;
  bm_ndirty : dirty_bufs s' = dirty_bufs s;
  bm_disk : disk s' = disk s;
  bm_writes : writes s' = writes s;
  bm_rest : rest_same s s'
}.

Lemma rest_same_refl s : rest_same s s.
Proof. by split_and!. Qed.

Lemma rest_same_trans s1 s2 s3 : rest_same s1 s2 → rest_same s2 s3 → rest_same s1 s3.
Proof. intros H1 H2. unfold rest_same in *. destruct_and?. split_and!; congruence. Qed.

Lemma bsame_trans s1 s2 s3 : bsame s1 s2 → bsame s2 s3 → bsame s1 s3.
Proof.
  intros [C1 D1 N1 K1 W1 R1] [C2 D2 N2 K2 W2 R2]. split; try congruence.
  - intros d b Hd. by rewrite C2, C1.
  - intros d b Hd. by rewrite D2, D1.
  - by eapply rest_same_trans.
Qed.

Lemma content_hit s i :
  binv s → (i < NBUF)%nat → b_dev (bufs s i) ≠ 0 →
  content s (b_dev (bufs s i)) (b_blockno (bufs s i)) =
  if has (b_flags (bufs s i)) B_VALID then b_data (bufs s i)
  else disk s (b_dev (bufs s i)) (b_blockno (bufs s i)).
Proof. intros HI Hi Hd. unfold content. by rewrite cached_hit. Qed.

(** A free buffer exists while some buffer is neither held nor dirty. *)
Lemma recyclable_ok s H :
  bstate s H → (length H + length (dirty_bufs s) < NBUF)%nat →
  ∃ i, recyclable s = Some i ∧ (i < NBUF)%nat ∧ i ∉ H ∧
       has (b_flags (bufs s i)) B_DIRTY = false ∧ b_locked (bufs s i) = false.
Proof.
  intros [HI Hh Hf] Hlen. unfold recyclable.
  destruct (List.find _ (rev (lru s))) as [i|] eqn:Hfi.
  - apply find_some in Hfi as [Hin HP].
    apply andb_true_iff in HP as [H1%Z.eqb_eq H2%negb_true_iff].
    assert (Hi : (i < NBUF)%nat).
    { apply (bi_lt s i HI), list_elem_of_In. by apply in_rev in Hin. }
    assert (Hni : i ∉ H) by (intros Hx; destruct (Hh i Hx) as (_ & _ & _ & ?); lia).
    exists i. split; [done|]. split; [done|]. split; [done|]. split; [done|]. by apply Hf.
  - exfalso.
    assert (Hsub : seq 0 NBUF ⊆ H ++ dirty_bufs s).
    { intros i Hi. assert (Hi' : (i < NBUF)%nat) by (apply elem_of_seq in Hi; lia).
      apply elem_of_app. destruct (decide (i ∈ H)) as [|Hni]; [by left|right].
      apply list_elem_of_filter. split; [|done].
      eapply find_none in Hfi; [|apply in_rev; rewrite rev_involutive; by apply list_elem_of_In, (bi_lt s i HI)].
      cbv beta in Hfi. destruct (Hf i Hi' Hni) as [_ Hr]. rewrite Hr in Hfi. cbn in Hfi.
      by apply negb_false_iff in Hfi. }
    pose proof (NoDup_submseteq (seq 0 NBUF) _ (NoDup_seq 0 NBUF) Hsub) as Hs%submseteq_length.
    rewrite length_seq, length_app in Hs. lia.
Qed.

Lemma updb_eq i f s : bufs (updb i f s) i = f (bufs s i).
Proof. by rewrite bufs_updb, decide_True. Qed.

Lemma updb_ne i f s j : j ≠ i → bufs (updb i f s) j = bufs s j.
Proof. intros Hj. rewrite bufs_updb, decide_False; congruence. Qed.

Lemma flag_cases F :
  F = 0 ∨ F = B_VALID ∨ F = Z.lor B_VALID B_DIRTY →
  (has F B_VALID = false → F = 0) ∧ (has F B_DIRTY = false → F = 0 ∨ F = B_VALID) ∧
  (has F B_VALID = true → F = B_VALID ∨ F = Z.lor B_VALID B_DIRTY) ∧
  (has F B_DIRTY = true → F = Z.lor B_VALID B_DIRTY).
Proof. intros [-> | [-> | ->]]; vm_compute; intuition congruence. Qed.

(** Buffer [i] becomes a held, valid copy of block [(dev, bn)]: it already had
    that tag, or it was a free one. *)
Record filled (s s' : fsys) (i : nat) (dev bn F : Z) : Prop := Filled {
  fl_buf : bufs s' i = Buf F dev bn true (mypid s) 1 (content s dev bn);
  fl_other : ∀ j, j ≠ i → bufs s' j = bufs s j;
  fl_lru : lru s' = lru s;
  fl_disk : disk s' = disk s;
  fl_writes : writes s' = writes s;
  fl_rest : rest_same s s';
  fl_case : (b_dev (bufs s i) = dev ∧ b_blockno (bufs s i) = bn ∧
             F = if has (b_flags (bufs s i)) B_VALID then b_flags (bufs s i) else B_VALID) ∨
            (cached dev bn s = None ∧ has (b_flags (bufs s i)) B_DIRTY = false ∧ F = B_VALID)
}.

Section filled.
Context (s s' : fsys) (H : list nat) (i : nat) (dev bn F : Z).
Hypothesis HS : bstate s H.
Hypothesis Hi : (i < NBUF)%nat.
Hypothesis Hni : i ∉ H.
Hypothesis Hdev : dev ≠ 0.
Hypothesis HF : filled s s' i dev bn F.

Lemma filled_flags :
  (F = B_VALID ∨ F = Z.lor B_VALID B_DIRTY) ∧
  has F B_DIRTY = has (b_flags (bufs s i)) B_DIRTY.
Proof using HS Hi HF.
  destruct HS as [HI _ _]. destruct (flag_cases _ (bi_flags s HI i Hi)) as (H0 & H1 & H2 & H3).
  destruct (fl_case _ _ _ _ _ _ HF) as [(_ & _ & ->)|(_ & Hd & ->)].
  - destruct (has (b_flags (bufs s i)) B_VALID) eqn:Hv; [by auto|].
    rewrite (H0 eq_refl). auto.
  - rewrite Hd. auto.
Qed.

Lemma filled_inv : binv s'.
Proof using HS Hi Hdev HF.
  destruct HS as [HI Hh Hf]. pose proof HF as [Hb Ho Hl Hd Hw Hr Hc].
  assert (Hu : ∀ j, (j < NBUF)%nat → j ≠ i →
    ¬ (b_dev (bufs s j) = dev ∧ b_blockno (bufs s j) = bn)).
  { intros j Hj Hne [H1 H2]. destruct Hc as [(Hx & Hy & _)|(Hx & _ & _)].
    - apply Hne. apply (bi_unique s HI); [done|done|congruence|congruence|by rewrite H1].
    - by apply (cached_none _ _ _ j HI Hx Hj). }
  split.
  - by rewrite Hl; apply HI.
  - intros j k Hj Hk. destruct (decide (j = i)) as [->|Hji], (decide (k = i)) as [->|Hki];
      rewrite ?Hb, ?(Ho j), ?(Ho k) by done; cbn; try done.
    + intros H1 H2. exfalso. by apply (Hu k).
    + intros H1 H2. exfalso. by apply (Hu j).
    + by apply (bi_unique s HI).
  - intros j Hj. destruct (decide (j = i)) as [->|Hji].
    + rewrite Hb. cbn. destruct filled_flags as [? _]. auto.
    + rewrite (Ho j) by done. by apply (bi_flags s HI).
  - intros j Hj. destruct (decide (j = i)) as [->|Hji].
    + rewrite Hb. cbn. lia.
    + rewrite (Ho j) by done. by apply (bi_refcnt s HI).
  - intros j Hj. destruct (decide (j = i)) as [->|Hji].
    + rewrite Hb. cbn. lia.
    + rewrite (Ho j) by done. by apply (bi_locked s HI).
  - intros j Hj. destruct (decide (j = i)) as [->|Hji].
    + by rewrite Hb.
    + rewrite (Ho j), Hd by done. by apply (bi_clean s HI).
  - intros j Hj. destruct (decide (j = i)) as [->|Hji]; [by rewrite Hb|].
    rewrite (Ho j) by done. by apply (bi_dirty s HI).
Qed.

Lemma filled_state : bstate s' (i :: H) ∧ held s' i dev bn (content s dev bn).
Proof using HS Hi Hni Hdev HF.
  destruct HS as [HI Hh Hf]. pose proof HF as [Hb Ho Hl Hd Hw Hr Hc].
  destruct filled_flags as [Hfl _].
  assert (Hpid : mypid s' = mypid s) by apply Hr.
  split; [split; [apply filled_inv| |]|].
  - intros j [->|Hj]%elem_of_cons; [by rewrite Hb, Hpid|].
    rewrite (Ho j), Hpid by (intros ->; done). by apply Hh.
  - intros j Hj [Hji Hjn]%not_elem_of_cons. rewrite (Ho j) by done. by apply Hf.
  - split; rewrite ?Hb; try done. cbn. by destruct Hfl as [-> | ->].
Qed.

Lemma filled_same : bsame s s'.
Proof using HS Hi Hni Hdev HF.
  pose proof filled_inv as HI'. destruct filled_flags as [Hfl Hdt].
  destruct HS as [HI Hh Hf]. pose proof HF as [Hb Ho Hl Hd Hw Hr Hc].
  assert (Hhit : cached dev bn s' = Some i).
  { pose proof (cached_hit s' i HI' Hi) as Hx. rewrite Hb in Hx. cbn in Hx. by apply Hx. }
  assert (Hother : ∀ d b, d ≠ 0 → ¬ (d = dev ∧ b = bn) →
    content s' d b = content s d b ∧ isdirty s' d b = isdirty s d b).
  { intros d b Hd0 Hne. unfold content, isdirty. destruct (cached d b s') as [j|] eqn:Hcj.
    - destruct (cached_some _ _ _ _ HI' Hcj) as (Hj & Hjd & Hjb).
      assert (Hji : j ≠ i) by (intros ->; rewrite Hb in Hjd, Hjb; cbn in Hjd, Hjb; apply Hne; by split).
      rewrite (Ho j Hji) in Hjd, Hjb. pose proof (cached_hit s j HI Hj) as Hx.
      rewrite Hjd, Hjb in Hx. rewrite Hx by done. by rewrite (Ho j Hji), Hd.
    - destruct (cached d b s) as [j|] eqn:Hcs; [|by rewrite Hd].
      destruct (cached_some _ _ _ _ HI Hcs) as (Hj & Hjd & Hjb).
      destruct (decide (j = i)) as [->|Hji].
      + (* the recycled buffer *)
        destruct Hc as [(Hx & Hy & _)|(_ & Hcl & _)]; [exfalso; apply Hne; split; congruence|].
        rewrite Hcl, Hd. split; [|done].
        destruct (flag_cases _ (bi_flags s HI i Hi)) as (_ & H1 & _).
        destruct (H1 Hcl) as [-> | Hv]; [done|]. rewrite Hv. cbn.
        rewrite (bi_clean s HI i Hi) by (done || by apply Hf). by rewrite Hjd, Hjb.
      + exfalso. apply (cached_none _ _ _ j HI' Hcj Hj). by rewrite (Ho j). }
  split; try done.
  - intros d b Hd0. destruct (decide (d = dev ∧ b = bn)) as [[-> ->]|Hne]; [|by apply Hother].
    unfold content at 1. rewrite Hhit, Hb. cbn. by destruct Hfl as [-> | ->].
  - intros d b Hd0. destruct (decide (d = dev ∧ b = bn)) as [[-> ->]|Hne]; [|by apply Hother].
    unfold isdirty. rewrite Hhit, Hb. cbn [b_flags]. rewrite Hdt.
    destruct Hc as [(Hx & Hy & _)|(Hx & Hcl & _)].
    + pose proof (cached_hit s i HI Hi) as Hz. rewrite Hx, Hy in Hz. by rewrite Hz.
    + by rewrite Hx.
  - unfold dirty_bufs. apply list_filter_iff. intros j.
    destruct (decide (j = i)) as [->|Hji]; [rewrite Hb; cbn [b_flags]; by rewrite Hdt|by rewrite (Ho j)].
Qed.
End filled.

(** Devices that have a driver queue with an interrupt handler. *)
Definition on_disk (dev bn : Z) : Prop := (dev = 1 ∨ dev = 2) ∧ 0 ≤ bn < FSSIZE.

(** The end of [bread] on a buffer just locked. *)
Lemma bread_finish s i dev bn :
  on_disk dev bn → b_dev (bufs s i) = dev → b_blockno (bufs s i) = bn →
  b_locked (bufs s i) = true → b_pid (bufs s i) = mypid s →
  b_flags (bufs s i) = 0 ∨ has (b_flags (bufs s i)) B_VALID = true →
  ∃ s', (if has (b_flags (bufs s i)) B_VALID then mret () else disk_rw i dev) s = Done ((), s') ∧
    bufs s' i = (if has (b_flags (bufs s i)) B_VALID then bufs s i
                 else set_b_flags B_VALID (set_b_data (disk s dev bn) (bufs s i))) ∧
    (∀ j, j ≠ i → bufs s' j = bufs s j) ∧ lru s' = lru s ∧ disk s' = disk s ∧
    writes s' = writes s ∧ rest_same s s'.
Proof.
  intros [Hdev Hbn] Hd Hb Hl Hp Hf.
  destruct (has (b_flags (bufs s i)) B_VALID) eqn:Hv.
  { exists s. split; [done|]. split_and!; try done. }
  destruct Hf as [Hf|Hf]; [|done].
  eexists. split; [|split; [|split; [|split; [|split; [|split]]]]].
  - unfold disk_rw. rewrite run_getS. unfold holding_buf. rewrite Hl, Hp, Z.eqb_refl. cbn [andb negb].
    rewrite Hf. change (Z.land 0 (Z.lor B_VALID B_DIRTY) =? B_VALID) with false.
    replace ((dev =? 1) || (dev =? 2)) with true
      by (destruct Hdev as [-> | ->]; done).
    rewrite (proj2 (Z.leb_gt FSSIZE _)) by lia. change (has 0 B_DIRTY) with false.
    cbv iota. rewrite run_modS. reflexivity.
  - rewrite !updb_eq. rewrite Hd, Hb. cbn. by rewrite Hf.
  - intros j Hj. by rewrite !updb_ne.
  - done.
  - done.
  - done.
  - by split_and!.
Qed.

Lemma acquire_buf_run i s :
  b_locked (bufs s i) = false →
  acquire_buf i s = Done ((), updb i (set_b_pid (mypid s)) (updb i (set_b_locked true) s)).
Proof. intros Hl. unfold acquire_buf. by rewrite run_getS, Hl. Qed.

Lemma bread_fills s H dev bn :
  bstate s H → on_disk dev bn → (∀ i, cached dev bn s = Some i → i ∉ H) →
  (length H + length (dirty_bufs s) < NBUF)%nat →
  ∃ i s' F, bread dev bn s = Done (i, s') ∧ (i < NBUF)%nat ∧ i ∉ H ∧ filled s s' i dev bn F.
Proof.
  intros HS Hon Hc Hlen. pose proof HS as [HI Hh Hf].
  assert (Hdev : dev ≠ 0) by (destruct Hon as [[-> | ->] _]; done).
  destruct (cached dev bn s) as [i|] eqn:Hca.
  - destruct (cached_some _ _ _ _ HI Hca) as (Hi & Hd & Hb).
    destruct (Hf i Hi (Hc i eq_refl)) as [Hl Hr].
    set (s1 := updb i (set_b_pid (mypid s)) (updb i (set_b_locked true)
                 (updb i (λ b, set_b_refcnt (u32 (b_refcnt b + 1)) b) s))).
    assert (Hx : bufs s1 i = set_b_pid (mypid s) (set_b_locked true (set_b_refcnt 1 (bufs s i))))
      by (subst s1; rewrite !updb_eq, Hr; done).
    destruct (bread_finish s1 i dev bn) as (s' & Hrun & Hbf & Ho & Hlr & Hdk & Hw & Hrs);
      rewrite ?Hx; try done.
    { destruct (flag_cases _ (bi_flags s HI i Hi)) as (H0 & _). cbn.
      destruct (has (b_flags (bufs s i)) B_VALID) eqn:Hv; auto. }
    exists i, s', (if has (b_flags (bufs s i)) B_VALID then b_flags (bufs s i) else B_VALID).
    split; [|split; [done|split; [by apply Hc|split]]].
    + unfold bread. rewrite (bind_done _ _ _ i s1).
      { rewrite run_getS. by rewrite (bind_done _ _ _ _ _ Hrun). }
      unfold bget. rewrite run_getS, Hca, run_modS.
      rewrite (bind_done _ _ _ () s1); [done|]. apply acquire_buf_run. by rewrite updb_eq.
    + rewrite Hbf, Hx. unfold content. rewrite Hca. change (disk s1) with (disk s).
      cbn [b_flags set_b_pid set_b_locked set_b_refcnt]. clear - Hd Hb.
      destruct (has (b_flags (bufs s i)) B_VALID); destruct (bufs s i); cbn in *; by subst.
    + intros j Hj. rewrite (Ho j Hj). subst s1. by rewrite !updb_ne.
    + done.
    + done.
    + done.
    + exact Hrs.
    + left. done.
  - destruct (recyclable_ok s H HS Hlen) as (i & Hre & Hi & Hni & Hcl & Hl).
    set (s1 := updb i (set_b_pid (mypid s)) (updb i (set_b_locked true)
                 (updb i (set_b_refcnt 1) (updb i (set_b_flags 0)
                 (updb i (set_b_blockno bn) (updb i (set_b_dev dev) s)))))).
    assert (Hx : bufs s1 i = set_b_pid (mypid s) (set_b_locked true (set_b_refcnt 1
                   (set_b_flags 0 (set_b_blockno bn (set_b_dev dev (bufs s i)))))))
      by (subst s1; rewrite !updb_eq; done).
    destruct (bread_finish s1 i dev bn) as (s' & Hrun & Hbf & Ho & Hlr & Hdk & Hw & Hrs);
      rewrite ?Hx; try done; [by left|].
    exists i, s', B_VALID. split; [|split; [done|split; [done|split]]].
    + unfold bread. rewrite (bind_done _ _ _ i s1).
      { rewrite run_getS. by rewrite (bind_done _ _ _ _ _ Hrun). }
      unfold bget. rewrite run_getS, Hca, Hre, !run_modS.
      rewrite (bind_done _ _ _ () s1); [done|]. apply acquire_buf_run. by rewrite !updb_eq.
    + rewrite Hbf, Hx. unfold content. by rewrite Hca.
    + intros j Hj. rewrite (Ho j Hj). subst s1. by rewrite !updb_ne.
    + done.
    + done.
    + done.
    + exact Hrs.
    + right. done.
Qed.

(** [bread]: the block's content in a buffer that is now held; nothing else
    changes. *)
Lemma bread_run s H dev bn :
  bstate s H → on_disk dev bn → (∀ i, cached dev bn s = Some i → i ∉ H) →
  (length H + length (dirty_bufs s) < NBUF)%nat →
  ∃ i s', bread dev bn s = Done (i, s') ∧ i ∉ H ∧ bstate s' (i :: H) ∧
    held s' i dev bn (content s dev bn) ∧ bsame s s' ∧ (∀ j, j ∈ H → bufs s' j = bufs s j).
Proof.
  intros HS Hon Hc Hlen.
  destruct (bread_fills s H dev bn HS Hon Hc Hlen) as (i & s' & F & Hrun & Hi & Hni & HF).
  assert (Hdev : dev ≠ 0) by (destruct Hon as [[-> | ->] _]; done).
  destruct (filled_state s s' H i dev bn F HS Hi Hni Hdev HF) as [HS' HH].
  exists i, s'. split; [done|]. split; [done|]. split; [done|]. split; [done|].
  split; [by eapply filled_same|]. intros j Hj. apply HF. by intros ->.
Qed.

(** ** Changing, writing and releasing a held buffer *)

(** A held buffer's data, flags or lock change; its tag does not. *)
Record retouched (s s' : fsys) (i : nat) (x : buf) : Prop := Retouched {
  rt_buf : bufs s' i = x;
  rt_tag : b_dev x = b_dev (bufs s i) ∧ b_blockno x = b_blockno (bufs s i);
  rt_flags : b_flags x = B_VALID ∨ b_flags x = Z.lor B_VALID B_DIRTY;
  rt_other : ∀ j, j ≠ i → bufs s' j = bufs s j;
  rt_lru : lru s' ≡ₚ lru s;
  rt_pid : mypid s' = mypid s;
  rt_disk : ∀ d b, ¬ (d = b_dev x ∧ b = b_blockno x) → disk s' d b = disk s d b
}.

Section retouched.
Context (s s' : fsys) (H H' : list nat) (i : nat) (x : buf).
Hypothesis HS : bstate s H.
Hypothesis Hin : i ∈ H.
Hypothesis HR : retouched s s' i x.
Hypothesis Hdev : b_dev x ≠ 0.

Lemma retouched_inv :
  0 ≤ b_refcnt x < 2 ^ 31 → (b_locked x = true → 1 ≤ b_refcnt x) →
  (b_locked x = false → b_flags x = B_VALID → b_data x = disk s' (b_dev x) (b_blockno x)) →
  binv s'.
Proof using HS Hin HR Hdev.
  intros Hrc Hlk Hcl. destruct HS as [HI Hh Hf]. destruct HR as [Hb [Ht1 Ht2] Hfl Ho Hl Hp Hd].
  destruct (Hh i Hin) as (Hi & _).
  assert (Hu : ∀ j, (j < NBUF)%nat → j ≠ i →
    ¬ (b_dev (bufs s j) = b_dev x ∧ b_blockno (bufs s j) = b_blockno x)).
  { intros j Hj Hne [H1 H2]. apply Hne.
    apply (bi_unique s HI); [done|done|congruence|congruence|by rewrite H1]. }
  split.
  - rewrite Hl. apply HI.
  - intros j k Hj Hk. destruct (decide (j = i)) as [->|Hji], (decide (k = i)) as [->|Hki];
      rewrite ?Hb, ?(Ho j), ?(Ho k) by done; try done.
    + intros H1 H2. exfalso. by apply (Hu k).
    + intros H1 H2. exfalso. by apply (Hu j).
    + by apply (bi_unique s HI).
  - intros j Hj. destruct (decide (j = i)) as [->|Hji]; [rewrite Hb; auto|].
    rewrite (Ho j) by done. by apply (bi_flags s HI).
  - intros j Hj. destruct (decide (j = i)) as [->|Hji]; [by rewrite Hb|].
    rewrite (Ho j) by done. by apply (bi_refcnt s HI).
  - intros j Hj. destruct (decide (j = i)) as [->|Hji]; [by rewrite Hb|].
    rewrite (Ho j) by done. by apply (bi_locked s HI).
  - intros j Hj. destruct (decide (j = i)) as [->|Hji]; [by rewrite Hb|].
    rewrite (Ho j) by done. intros H1 H2. rewrite (bi_clean s HI j Hj H1 H2).
    symmetry. apply Hd. by apply Hu.
  - intros j Hj. destruct (decide (j = i)) as [->|Hji]; [by rewrite Hb|].
    rewrite (Ho j) by done. by apply (bi_dirty s HI).
Qed.

Hypothesis HI' : binv s'.

Lemma retouched_content d b :
  d ≠ 0 →
  content s' d b = (if decide (d = b_dev x ∧ b = b_blockno x) then b_data x else content s d b) ∧
  isdirty s' d b = (if decide (d = b_dev x ∧ b = b_blockno x) then has (b_flags x) B_DIRTY
                    else isdirty s d b).
Proof using HS Hin HR Hdev HI'.
  intros Hd0. destruct HS as [HI Hh Hf]. destruct HR as [Hb [Ht1 Ht2] Hfl Ho Hl Hp Hd].
  destruct (Hh i Hin) as (Hi & _).
  assert (Hce : cached d b s' = cached d b s).
  { apply cached_eq; [done|done|done|]. intros j Hj.
    destruct (decide (j = i)) as [->|Hji]; [by rewrite Hb|by rewrite (Ho j)]. }
  unfold content, isdirty. rewrite Hce. case_decide as Hx.
  - destruct Hx as [-> ->]. rewrite Ht1, Ht2, cached_hit by (done || congruence).
    rewrite Hb. split; [|done]. by destruct Hfl as [-> | ->].
  - rewrite Hd by done. destruct (cached d b s) as [j|] eqn:Hc; [|done].
    destruct (cached_some _ _ _ _ HI Hc) as (Hj & Hjd & Hjb).
    rewrite (Ho j); [done|]. intros ->. apply Hx. split; congruence.
Qed.

Lemma retouched_dirty :
  dirty_bufs s' = if has (b_flags x) B_DIRTY then
                    filter (λ j, j = i ∨ has (b_flags (bufs s j)) B_DIRTY = true) (seq 0 NBUF)
                  else filter (λ j, j ≠ i) (dirty_bufs s).
Proof using HR.
  destruct HR as [Hb [Ht1 Ht2] Hfl Ho Hl Hp Hd]. unfold dirty_bufs.
  destruct (has (b_flags x) B_DIRTY) eqn:Hx.
  - apply list_filter_iff. intros j. destruct (decide (j = i)) as [->|Hji].
    + rewrite Hb, Hx. tauto.
    + rewrite (Ho j) by done. tauto.
  - rewrite list_filter_filter. apply list_filter_iff. intros j.
    destruct (decide (j = i)) as [->|Hji].
    + rewrite Hb, Hx. split; [done|tauto].
    + rewrite (Ho j) by done. tauto.
Qed.
End retouched.

(** The buffers other than [i] keep their state while [i] is retouched. *)
Lemma retouched_state s s' H i x :
  bstate s H → i ∈ H → retouched s s' i x → b_dev x ≠ 0 →
  b_locked x = true → b_pid x = mypid s → b_refcnt x = 1 → bstate s' H.
Proof.
  intros HS Hin HR Hdev Hl Hp Hr.
  assert (HI' : binv s').
  { eapply (retouched_inv s s' H i x); try done; rewrite ?Hl, ?Hr; try done; lia. }
  destruct HS as [HI Hh Hf], HR as [Hb Ht Hfl Ho Hlr Hpid Hd]. split; [done| |].
  - intros j Hj. rewrite Hpid. destruct (decide (j = i)) as [->|Hji]; [|by rewrite (Ho j); auto].
    rewrite Hb. split_and!; try done. by apply (Hh i).
  - intros j Hj Hnj. rewrite (Ho j) by (intros ->; done). by apply Hf.
Qed.

(** [b->data] of a held buffer is overwritten. *)
Lemma edit_run s H i d b m m' :
  bstate s H → i ∈ H → d ≠ 0 → held s i d b m →
  let s' := updb i (set_b_data m') s in
  bstate s' H ∧ held s' i d b m' ∧ dirty_bufs s' = dirty_bufs s ∧
  (∀ d' b', d' ≠ 0 → content s' d' b' = (if decide (d' = d ∧ b' = b) then m' else content s d' b')) ∧
  (∀ d' b', d' ≠ 0 → isdirty s' d' b' = isdirty s d' b').
Proof.
  intros HS Hin Hd [Hi Hdv Hbn Hv Hm] s'. pose proof HS as [HI Hh Hf].
  destruct (Hh i Hin) as (_ & Hl & Hp & Hr).
  destruct (flag_cases _ (bi_flags s HI i Hi)) as (_ & _ & Hfl & _). specialize (Hfl Hv).
  assert (HR : retouched s s' i (set_b_data m' (bufs s i))).
  { split; try done; [apply updb_eq|intros j Hj; by apply updb_ne]. }
  assert (HS' : bstate s' H) by (eapply (retouched_state s s' H i); try done; cbn; congruence).
  split; [done|]. split; [by split; subst s'; rewrite ?updb_eq|]. split.
  - unfold dirty_bufs. apply list_filter_iff. intros j. subst s'. rewrite bufs_updb.
    case_decide; by subst.
  - split; intros d' b' Hd'; destruct (retouched_content s s' H i _ HS Hin HR ltac:(cbn; congruence)
      (bs_inv _ _ HS') d' b' Hd') as [Hc Hx]; cbn in Hc, Hx; rewrite Hdv, Hbn in Hc, Hx.
    + exact Hc.
    + rewrite Hx. case_decide as Hy; [|done]. destruct Hy as [-> ->].
      unfold isdirty. pose proof (cached_hit s i HI Hi) as Hz. rewrite Hdv, Hbn in Hz. by rewrite Hz.
Qed.

(** [b->flags |= B_DIRTY] on a held buffer. *)
Lemma mark_run s H i d b m :
  bstate s H → i ∈ H → d ≠ 0 → held s i d b m →
  let s' := updb i (λ b, set_b_flags (Z.lor (b_flags b) B_DIRTY) b) s in
  bstate s' H ∧ held s' i d b m ∧ has (b_flags (bufs s' i)) B_DIRTY = true ∧
  (length (dirty_bufs s') ≤ S (length (dirty_bufs s)))%nat ∧
  (∀ d' b', d' ≠ 0 → content s' d' b' = content s d' b') ∧
  (∀ d' b', d' ≠ 0 →
     isdirty s' d' b' = if decide (d' = d ∧ b' = b) then true else isdirty s d' b').
Proof.
  intros HS Hin Hd [Hi Hdv Hbn Hv Hm] s'. pose proof HS as [HI Hh Hf].
  destruct (Hh i Hin) as (_ & Hl & Hp & Hr).
  destruct (flag_cases _ (bi_flags s HI i Hi)) as (_ & _ & Hfl & _). specialize (Hfl Hv).
  set (x := set_b_flags (Z.lor B_VALID B_DIRTY) (bufs s i)).
  assert (Hx : bufs s' i = x).
  { subst s'. rewrite updb_eq. subst x. by destruct Hfl as [-> | ->]. }
  assert (HR : retouched s s' i x).
  { split; try done; [by right|intros j Hj; by apply updb_ne]. }
  assert (HS' : bstate s' H) by (eapply (retouched_state s s' H i); try done; cbn; congruence).
  split; [done|]. split; [by split; rewrite ?Hx|]. split; [by rewrite Hx|]. split.
  - change (S (length (dirty_bufs s))) with (length (i :: dirty_bufs s)).
    apply submseteq_length, NoDup_submseteq; [apply NoDup_filter, NoDup_seq|].
    intros j [Hj Hs]%list_elem_of_filter. destruct (decide (j = i)) as [->|Hji]; [by constructor|].
    constructor. apply list_elem_of_filter. split; [|done].
    rewrite <- Hj. by rewrite (rt_other _ _ _ _ HR j Hji).
  - split; intros d' b' Hd'; destruct (retouched_content s s' H i _ HS Hin HR ltac:(cbn; congruence)
      (bs_inv _ _ HS') d' b' Hd') as [Hc Hy]; cbn in Hc, Hy; rewrite Hdv, Hbn in Hc, Hy.
    + rewrite Hc. case_decide as Hz; [|done]. destruct Hz as [-> ->].
      pose proof (content_hit s i HI Hi ltac:(congruence)) as Hw. rewrite Hv, Hdv, Hbn in Hw. done.
    + exact Hy.
Qed.

(** The effect of writing block [(d, b)]. *)
Record bwrote (s s' : fsys) (d b : Z) (m : mem) : Prop := BWrote {
  bw_content : ∀ d' b', d' ≠ 0 → content s' d' b' = content s d' b';
  bw_dirty : ∀ d' b', d' ≠ 0 →
    isdirty s' d' b' = if decide (d' = d ∧ b' = b) then false else isdirty s d' b';
  bw_ndirty : (length (dirty_bufs s') ≤ length (dirty_bufs s))%nat;
  bw_disk : disk s' = <[d := <[b := m]> (disk s d)]> (disk s);
  bw_writes : writes s' = writes s ++ [(d, b, m)];
  bw_rest : rest_same s s'
}.

Lemma bwrite_run s H i d b m :
  bstate s H → i ∈ H → on_disk d b → held s i d b m → content s d b = m →
  ∃ s', bwrite i s = Done ((), s') ∧ bstate s' H ∧ held s' i d b m ∧
    b_flags (bufs s' i) = B_VALID ∧ bwrote s s' d b m ∧ (∀ j, j ≠ i → bufs s' j = bufs s j).
Proof.
  intros HS Hin Hon [Hi Hdv Hbn Hv Hm] Hcm. pose proof HS as [HI Hh Hf].
  destruct (Hh i Hin) as (_ & Hl & Hp & Hr).
  assert (Hd0 : d ≠ 0) by (destruct Hon as [[-> | ->] _]; done).
  set (s1 := updb i (λ b, set_b_flags (Z.lor (b_flags b) B_DIRTY) b) s).
  set (s' := updb i (λ b, set_b_flags (Z.land (Z.lor (b_flags b) B_VALID) (Z.lnot B_DIRTY)) b)
               (write_disk d b m s1)).
  assert (Hx : bufs s' i = set_b_flags B_VALID (bufs s i)).
  { subst s'. rewrite updb_eq. change (bufs (write_disk d b m s1)) with (bufs s1). subst s1.
    rewrite updb_eq. destruct (flag_cases _ (bi_flags s HI i Hi)) as (_ & _ & Hfl & _).
    by destruct (Hfl Hv) as [Hz|Hz]; cbn; rewrite Hz. }
  assert (Ho : ∀ j, j ≠ i → bufs s' j = bufs s j).
  { intros j Hj. subst s'. rewrite updb_ne by done. subst s1. by apply updb_ne. }
  assert (HR : retouched s s' i (set_b_flags B_VALID (bufs s i))).
  { split; try done; [by left|]. intros d' b' Hne. cbn in Hne. rewrite Hdv, Hbn in Hne.
    change (disk s') with (<[d := <[b := m]> (disk s d)]> (disk s)).
    destruct (decide (d' = d)) as [->|Hd'].
    - rewrite fn_lookup_insert, fn_lookup_insert_ne; [done|]. intros ->. tauto.
    - by rewrite fn_lookup_insert_ne. }
  assert (HS' : bstate s' H) by (eapply (retouched_state s s' H i); try done; cbn; congruence).
  exists s'. split; [|split; [done|split; [|split; [by rewrite Hx|split; [|done]]]]].
  - unfold bwrite. rewrite run_getS. unfold holding_buf. rewrite Hl, Hp, Z.eqb_refl. cbn [andb negb].
    rewrite run_modS. unfold disk_rw. rewrite run_getS. unfold holding_buf. rewrite updb_eq.
    cbn [b_locked b_pid set_b_flags b_flags b_blockno b_dev b_data].
    change (mypid (updb i _ s)) with (mypid s). rewrite Hl, Hp, Z.eqb_refl. cbn [andb negb].
    destruct (flag_cases _ (bi_flags s HI i Hi)) as (_ & _ & Hfl & _).
    replace (Z.lor (b_flags (bufs s i)) B_DIRTY) with (Z.lor B_VALID B_DIRTY)
      by (by destruct (Hfl Hv) as [-> | ->]).
    change (Z.land (Z.lor B_VALID B_DIRTY) (Z.lor B_VALID B_DIRTY) =? B_VALID) with false. cbv iota.
    rewrite Hdv, Hbn, Hm. replace ((d =? 1) || (d =? 2)) with true
      by (destruct Hon as [[-> | ->] _]; done).
    rewrite (proj2 (Z.leb_gt FSSIZE b)) by (destruct Hon; lia). done.
  - by split; rewrite ?Hx.
  - split; try done.
    + intros d' b' Hd'. destruct (retouched_content s s' H i _ HS Hin HR ltac:(cbn; congruence)
        (bs_inv _ _ HS') d' b' Hd') as [Hc _]. cbn in Hc. rewrite Hdv, Hbn, Hm in Hc. rewrite Hc.
      case_decide as Hy; [|done]. destruct Hy as [-> ->]. done.
    + intros d' b' Hd'. destruct (retouched_content s s' H i _ HS Hin HR ltac:(cbn; congruence)
        (bs_inv _ _ HS') d' b' Hd') as [_ Hc]. cbn in Hc. by rewrite Hdv, Hbn in Hc.
    + rewrite (retouched_dirty s s' i _ HR). cbn [b_flags set_b_flags].
      change (has B_VALID B_DIRTY) with false. cbv iota.
      apply length_filter.
Qed.

Lemma to_front_perm i l : i ∈ l → NoDup l → to_front i l ≡ₚ l.
Proof.
  unfold to_front. induction l as [|x l IH]; intros Hin Hnd; [by apply elem_of_nil in Hin|].
  apply NoDup_cons in Hnd as [Hx Hnd]. destruct (decide (x = i)) as [->|Hne].
  - rewrite filter_cons, decide_False by tauto. f_equiv.
    clear - Hx. induction l as [|y l IH]; [done|]. apply not_elem_of_cons in Hx as [H1 H2].
    rewrite filter_cons, decide_True by congruence. by rewrite IH.
  - rewrite filter_cons, decide_True by done. rewrite Permutation_swap. f_equiv.
    apply IH; [|done]. by apply elem_of_cons in Hin as [->|].
Qed.

Lemma brelse_run s H i d b m :
  bstate s (i :: H) → i ∉ H → d ≠ 0 → held s i d b m →
  (has (b_flags (bufs s i)) B_DIRTY = true ∨ m = disk s d b) →
  ∃ s', brelse i s = Done ((), s') ∧ bstate s' H ∧ bsame s s' ∧ (∀ j, j ≠ i → bufs s' j = bufs s j).
Proof.
  intros HS Hni Hd0 [Hi Hdv Hbn Hv Hm] Hcl. pose proof HS as [HI Hh Hf].
  destruct (Hh i ltac:(by constructor)) as (_ & Hl & Hp & Hr).
  destruct (flag_cases _ (bi_flags s HI i Hi)) as (_ & _ & Hfl & _). specialize (Hfl Hv).
  set (x := set_b_refcnt 0 (set_b_pid 0 (set_b_locked false (bufs s i)))).
  set (s1 := updb i (λ b, set_b_refcnt (u32 (b_refcnt b - 1)) b)
              (updb i (set_b_pid 0) (updb i (set_b_locked false) s))).
  set (s' := set_lru (to_front i (lru s1)) s1).
  assert (Hx : bufs s' i = x).
  { change (bufs s') with (bufs s1). subst s1. rewrite !updb_eq. cbn. by rewrite Hr. }
  assert (Ho : ∀ j, j ≠ i → bufs s' j = bufs s j).
  { intros j Hj. change (bufs s') with (bufs s1). subst s1. by rewrite !updb_ne. }
  assert (Hnd : NoDup (lru s)) by (rewrite (bi_lru s HI); apply NoDup_seq).
  assert (HR : retouched s s' i x).
  { split; try done. apply to_front_perm; [by apply (bi_lt s i HI)|done]. }
  assert (HI' : binv s').
  { apply (retouched_inv s s' (i :: H) i x HS ltac:(by constructor) HR);
      cbn; [congruence|lia|done|]. intros _ Hfv. rewrite Hdv, Hbn, Hm.
    destruct Hcl as [Hcl|Hcl]; [by rewrite Hfv in Hcl|done]. }
  exists s'. split; [|split; [|split; [|done]]].
  - unfold brelse. rewrite run_getS. unfold holding_buf. rewrite Hl, Hp, Z.eqb_refl. cbn [andb negb].
    unfold release_buf. rewrite run_bind, !run_modS. unfold modS at 1. rewrite run_modS, run_getS.
    fold s1. change (bufs s1) with (bufs s'). by rewrite Hx.
  - split; [done| |].
    + intros j Hj. rewrite (Ho j) by (intros ->; done). apply Hh. by constructor.
    + intros j Hj Hnj. destruct (decide (j = i)) as [->|Hji]; [by rewrite Hx|].
      rewrite (Ho j) by done. apply Hf; [done|]. by apply not_elem_of_cons.
  - split; try done.
    + intros d' b' Hd'. destruct (retouched_content s s' (i :: H) i x HS ltac:(by constructor) HR
        ltac:(cbn; congruence) HI' d' b' Hd') as [Hc _]. rewrite Hc.
      case_decide as Hy; [|done]. destruct Hy as [-> ->]. cbn.
      pose proof (content_hit s i HI Hi ltac:(congruence)) as Hz. rewrite Hv in Hz. done.
    + intros d' b' Hd'. destruct (retouched_content s s' (i :: H) i x HS ltac:(by constructor) HR
        ltac:(cbn; congruence) HI' d' b' Hd') as [_ Hc]. rewrite Hc.
      case_decide as Hy; [|done]. destruct Hy as [-> ->]. cbn.
      unfold isdirty. rewrite cached_hit by (done || congruence). done.
    + unfold dirty_bufs. apply list_filter_iff. intros j.
      destruct (decide (j = i)) as [->|Hji]; [by rewrite Hx|by rewrite (Ho j)].
Qed.

(** ** A cold cache *)

Definition cold_buf : buf := Buf 0 0 0 false 0 0 (λ _, 0).

Definition cold_fs : fsys :=
  let l := Log 2 30 0 0 1 0 (repeat 0 30) in
  let sb := Sb 1000 941 200 30 2 32 58 in
  let ip := Inode 0 0 0 false 0 0 0 0 0 0 0 0 (repeat 0 13) in
  Fsys (λ _, cold_buf) (seq 0 NBUF) (λ _ _ _, 0) [] l sb sb (λ _, ip) None None 1 None.

Lemma cold_fs_state : bstate cold_fs [].
Proof. split; [split|by intros i Hi%elem_of_nil|]; try done; intros; by left. Qed.
