(* ===== verification/Log.v ===== *)
(** * The write-ahead log: kernel/fs/log.c

    The functions as run by one thread over the buffer cache of Bio.v; a
    [begin_op] that would sleep is [Hung].  The log header is the array of
    little-endian words the C structure is.  The last part gives the disk
    writes of [commit] in order and shows that a crash between any two of them
    leaves a disk from which recovery restores all of the transaction or none
    of it. *)
From stdpp Require Import base decidable option list functions numbers strings sets.
From Stdlib Require Import ZArith Lia.
From S2P Require Import Prelude CString FsDefs Bio.

Local Open Scope Z_scope.

(** ** The super block and the log header on disk *)

(** [memmove] of the block to the structure. *)
Definition get_sb (m : mem) : superblock :=
  Sb (load32 m 0) (load32 m 4) (load32 m 8) (load32 m 12) (load32 m 16) (load32 m 20) (load32 m 24).

Definition readsb (dev : Z) : M fsys superblock :=
  bp ← bread dev 1;
  m ← gets (λ s, b_data (bufs s bp));
  _ ← brelse bp;
  mret (get_sb m).

(** [lh->n] and [lh->block[i]]; the block numbers are kept as the unsigned words
    that [bread] and the comparison with [b->blockno] convert them to. *)
Definition head_n (m : mem) : Z := s32 (load32 m 0).
Definition head_block (m : mem) (i : nat) : Z := load32 m (4 + 4 * Z.of_nat i).

Fixpoint put_blocks (m : mem) (i : nat) (bs : list Z) : mem :=
  match bs with
  | [] => m
  | b :: bs => put_blocks (store32 m (4 + 4 * Z.of_nat i) b) (S i) bs
  end.

(** [hb->n = n; hb->block[i] = block[i]] for [i < n] *)
Definition put_head (m : mem) (n : Z) (bs : list Z) : mem := put_blocks (store32 m 0 n) 0 bs.

(** ** The log *)

(** The blocks of the current transaction. *)
Definition logged (l : logst) : list Z := take (Z.to_nat (lh_n l)) (lh_block l).

Definition install_trans : M fsys () :=
  l ← gets flog;
  mfor (seq 0 (Z.to_nat (lh_n l))) (λ tail,
    l ← gets flog;
    lbuf ← bread (l_dev l) (l_start l + Z.of_nat tail + 1);
    dbuf ← bread (l_dev l) (nth tail (lh_block l) 0);
    m ← gets (λ s, b_data (bufs s lbuf));
    _ ← modS (updb dbuf (set_b_data m));
    _ ← bwrite dbuf;
    _ ← brelse lbuf;
    brelse dbuf).

(** A header whose count exceeds [LOGSIZE] would overrun [log.lh.block]. *)
Definition read_head : M fsys () :=
  l ← gets flog;
  buf ← bread (l_dev l) (l_start l);
  m ← gets (λ s, b_data (bufs s buf));
  let n := head_n m in
  if LOGSIZE <? n then fault
  else
    _ ← modS (updl (set_lh_n n));
    _ ← modS (updl (λ l, set_lh_block
                 (map (head_block m) (seq 0 (Z.to_nat n)) ++ drop (Z.to_nat n) (lh_block l)) l));
    brelse buf.

Definition write_head : M fsys () :=
  l ← gets flog;
  buf ← bread (l_dev l) (l_start l);
  _ ← modS (λ s, updb buf (λ b, set_b_data (put_head (b_data b) (lh_n (flog s)) (logged (flog s))) b) s);
  _ ← bwrite buf;
  brelse buf.

Definition recover_from_log : M fsys () :=
  _ ← read_head;
  _ ← install_trans;
  _ ← modS (updl (set_lh_n 0));
  write_head.

Definition initlog (dev : Z) : M fsys () :=
  sb ← readsb dev;
  _ ← modS (updl (set_l_start (sb_logstart sb)));
  _ ← modS (updl (set_l_size (sb_nlog sb)));
  _ ← modS (updl (set_l_dev dev));
  recover_from_log.

Definition begin_op : M fsys () :=
  l ← gets flog;
  if c_true (committing l) then hang
  else if LOGSIZE <? lh_n l + (outstanding l + 1) * MAXOPBLOCKS then hang
  else modS (updl (λ l, set_outstanding (outstanding l + 1) l)).

Definition write_log : M fsys () :=
  l ← gets flog;
  mfor (seq 0 (Z.to_nat (lh_n l))) (λ tail,
    l ← gets flog;
    to ← bread (l_dev l) (l_start l + Z.of_nat tail + 1);
    from ← bread (l_dev l) (nth tail (lh_block l) 0);
    m ← gets (λ s, b_data (bufs s from));
    _ ← modS (updb to (set_b_data m));
    _ ← bwrite to;
    _ ← brelse from;
    brelse to).

Definition commit : M fsys () :=
  l ← gets flog;
  if 0 <? lh_n l then
    _ ← write_log;
    _ ← write_head;
    _ ← install_trans;
    _ ← modS (updl (set_lh_n 0));
    write_head
  else mret ().

Definition end_op : M fsys () :=
  _ ← modS (updl (λ l, set_outstanding (outstanding l - 1) l));
  l ← gets flog;
  if c_true (committing l) then panic "log.committing"
  else if outstanding l =? 0 then
    _ ← modS (updl (set_committing 1));
    _ ← commit;
    modS (updl (set_committing 0))
  else mret ().

(** The slot of block [b]: its own, or the first one after the last. *)
Fixpoint log_slot (b : Z) (bs : list Z) : nat :=
  match bs with
  | [] => O
  | x :: bs => if x =? b then O else S (log_slot b bs)
  end.

Definition log_write (i : nat) : M fsys () :=
  s ← getS;
  let l := flog s in
  if (LOGSIZE <=? lh_n l) || (l_size l - 1 <=? lh_n l) then panic "too big a transaction"
  else if outstanding l <? 1 then panic "log_write outside of trans"
  else
    let b := b_blockno (bufs s i) in
    let k := log_slot b (logged l) in
    _ ← modS (updl (λ l, set_lh_block (<[k := b]> (lh_block l)) l));
    _ ← (if Z.of_nat k =? lh_n l then modS (updl (λ l, set_lh_n (lh_n l + 1) l)) else mret ());
    modS (updb i (λ b, set_b_flags (Z.lor (b_flags b) B_DIRTY) b)).

(** ** Termination *)

Lemma term_log_write i : terminates (log_write i).
Proof. unfold log_write. terminate. Qed.

Lemma term_write_head : terminates write_head.
Proof. unfold write_head. terminate. Qed.

Lemma term_install_trans : terminates install_trans.
Proof. unfold install_trans. terminate. Qed.

Lemma term_readsb dev : terminates (readsb dev).
Proof. unfold readsb. terminate. Qed.

#[export] Hint Resolve term_log_write term_write_head term_install_trans term_readsb : term.

Lemma term_begin_op : terminates begin_op.
Proof. unfold begin_op. terminate. Qed.

Lemma term_end_op : terminates end_op.
Proof. unfold end_op, commit, write_log. terminate. Qed.

Lemma term_initlog dev : terminates (initlog dev).
Proof. unfold initlog, recover_from_log, read_head. terminate. Qed.

#[export] Hint Resolve term_begin_op term_end_op term_initlog : term.

(** ** Copying one block to another *)

Lemma bstate_perm s H H' : H ≡ₚ H' → bstate s H → bstate s H'.
Proof.
  intros HP [HI Hh Hf]. split; [done| |].
  - intros i Hi. apply Hh. by rewrite HP.
  - intros i Hi Hn. apply Hf; [done|]. by rewrite HP.
Qed.

(** A block that is not held is clean or dirty: its content is on disk, or
    pinned. *)
Lemma clean_or_dirty s H d b :
  bstate s H → d ≠ 0 → (∀ i, cached d b s = Some i → i ∉ H) →
  isdirty s d b = true ∨ content s d b = disk s d b.
Proof.
  intros [HI Hh Hf] Hd Hc. unfold isdirty, content. destruct (cached d b s) as [i|] eqn:Hca; [|auto].
  destruct (cached_some _ _ _ _ HI Hca) as (Hi & Hdi & Hbi).
  destruct (Hf i Hi (Hc i eq_refl)) as [Hl _].
  destruct (bi_flags s HI i Hi) as [Hz|[Hz|Hz]]; rewrite Hz; [by right| |by left].
  right. change (has B_VALID B_VALID) with true. cbv iota.
  rewrite (bi_clean s HI i Hi Hl Hz). by rewrite Hdi, Hbi.
Qed.

Lemma held_dirty s i d b m :
  binv s → d ≠ 0 → held s i d b m →
  has (b_flags (bufs s i)) B_DIRTY = isdirty s d b ∧ content s d b = m.
Proof.
  intros HI Hd [Hi Hdv Hbn Hv Hm]. unfold isdirty, content.
  pose proof (cached_hit s i HI Hi) as Hz. rewrite Hdv, Hbn in Hz. rewrite Hz by done.
  by rewrite Hv.
Qed.

Lemma held_cached s i d b m H :
  bstate s H → d ≠ 0 → held s i d b m → cached d b s = Some i.
Proof.
  intros [HI _ _] Hd [Hi Hdv Hbn _ _]. rewrite <- Hdv, <- Hbn. apply cached_hit; [done..|congruence].
Qed.

(** The effect of setting block [b] to [m] in the cache and on disk. *)
Record saved (s s' : fsys) (d b : Z) (m : mem) : Prop := Saved {
  cp_content : ∀ d' b', d' ≠ 0 →
    content s' d' b' = if decide (d' = d ∧ b' = b) then m else content s d' b';
  cp_dirty : ∀ d' b', d' ≠ 0 →
    isdirty s' d' b' = if decide (d' = d ∧ b' = b) then false else isdirty s d' b';
  cp_ndirty : (length (dirty_bufs s') ≤ length (dirty_bufs s))%nat;
  cp_disk : disk s' = <[d := <[b := m]> (disk s d)]> (disk s);
  cp_writes : writes s' = writes s ++ [(d, b, m)];
  cp_rest : rest_same s s'
}.

(** Both blocks are held: copy, write, and release the source and the target. *)
Lemma copy_tail s i j d a b m0 :
  bstate s [j; i] → i ≠ j → on_disk d a → on_disk d b → a ≠ b →
  held s i d a (content s d a) → held s j d b m0 →
  (isdirty s d a = true ∨ content s d a = disk s d a) →
  ∃ s', (m ← gets (λ s, b_data (bufs s i));
         _ ← modS (updb j (set_b_data m));
         _ ← bwrite j;
         _ ← brelse i;
         brelse j) s = Done ((), s') ∧ bstate s' [] ∧ saved s s' d b (content s d a).
Proof.
  intros HS Hij Ha Hb Hab Hi Hj Hcl.
  assert (Hd : d ≠ 0) by (destruct Ha as [[-> | ->] _]; done).
  set (m := content s d a) in *.
  destruct (edit_run s [j; i] j d b m0 m HS ltac:(by constructor) Hd Hj) as (HS1 & Hj1 & Hn1 & Hc1 & Hd1).
  set (s1 := updb j (set_b_data m) s) in *.
  assert (Hcb : content s1 d b = m) by (rewrite Hc1 by done; by rewrite decide_True).
  destruct (bwrite_run s1 [j; i] j d b m HS1 ltac:(by constructor) Hb Hj1 Hcb)
    as (s2 & Hw & HS2 & Hj2 & Hf2 & Hbw & Ho2).
  assert (Ei : bufs s2 i = bufs s i) by (rewrite Ho2 by done; by apply updb_ne).
  assert (Hi2 : held s2 i d a m) by (destruct Hi; split; by rewrite ?Ei).
  pose proof (bs_inv _ _ HS) as HI.
  destruct (held_dirty s i d a m HI Hd Hi) as [Hdf _].
  destruct (brelse_run s2 [j] i d a m) as (s3 & Hr3 & HS3 & Hs3 & Ho3).
  { by apply (bstate_perm _ [j; i]); [apply Permutation_swap|]. }
  { by intros ->%list_elem_of_singleton. } { done. } { done. }
  { destruct Hcl as [Hcl|Hcl]; [left; by rewrite Ei, Hdf|right].
    rewrite (bw_disk _ _ _ _ _ Hbw). rewrite fn_lookup_insert, fn_lookup_insert_ne by done.
    exact Hcl. }
  assert (Ej : bufs s3 j = bufs s2 j) by (by apply Ho3).
  destruct (brelse_run s3 [] j d b m HS3) as (s4 & Hr4 & HS4 & Hs4 & _).
  { apply not_elem_of_nil. } { done. } { destruct Hj2; split; by rewrite ?Ej. }
  { right. rewrite (bm_disk _ _ Hs3), (bw_disk _ _ _ _ _ Hbw). by rewrite !fn_lookup_insert. }
  exists s4. split; [|split; [done|]].
  - rewrite run_gets, (hd_data _ _ _ _ _ Hi), run_modS. fold s1.
    rewrite (bind_done _ _ _ _ _ Hw), (bind_done _ _ _ _ _ Hr3). exact Hr4.
  - pose proof (bsame_trans _ _ _ Hs3 Hs4) as [B1 B2 B3 B4 B5 B6].
    destruct Hbw as [W1 W2 W3 W4 W5 W6]. split.
    + intros d' b' Hd'. rewrite B1, W1 by done. by apply Hc1.
    + intros d' b' Hd'. rewrite B2, W2 by done. by rewrite Hd1.
    + rewrite B3. rewrite <- Hn1. exact W3.
    + rewrite B4. exact W4.
    + rewrite B5. exact W5.
    + eapply rest_same_trans; [|exact B6]. eapply rest_same_trans; [|exact W6].
      exact (rest_same_refl s).
Qed.

(** ** One step of [write_log] and of [install_trans] *)

Lemma saved_same s0 s s' d b m :
  bsame s0 s → saved s s' d b m → saved s0 s' d b m.
Proof.
  intros [B1 B2 B3 B4 B5 B6] [C1 C2 C3 C4 C5 C6]. split.
  - intros d' b' Hd'. rewrite C1, !B1 by done. done.
  - intros d' b' Hd'. rewrite C2, B2 by done. done.
  - by rewrite <- B3.
  - by rewrite C4, B4.
  - by rewrite C5, B5.
  - by eapply rest_same_trans.
Qed.

(** The two blocks read and then held, whatever the order. *)
Lemma read_two s d x y :
  bstate s [] → on_disk d x → on_disk d y → x ≠ y → (length (dirty_bufs s) < NBUF - 1)%nat →
  ∃ i j s1 s2, bread d x s = Done (i, s1) ∧ bread d y s1 = Done (j, s2) ∧ i ≠ j ∧
    bstate s2 [j; i] ∧ held s2 i d x (content s d x) ∧ held s2 j d y (content s d y) ∧ bsame s s2.
Proof.
  intros HS Hx Hy Hxy Hlen. assert (Hd : d ≠ 0) by (destruct Hx as [[-> | ->] _]; done).
  destruct (bread_run s [] d x HS Hx) as (i & s1 & Hr1 & _ & HS1 & Hi1 & Hs1 & _).
  { intros i _. apply not_elem_of_nil. } { cbn [length]. unfold NBUF in *. lia. }
  destruct (bread_run s1 [i] d y HS1 Hy) as (j & s2 & Hr2 & Hj & HS2 & Hj2 & Hs2 & Ho2).
  { intros k Hk ->%list_elem_of_singleton.
    destruct (cached_some _ _ _ _ (bs_inv _ _ HS1) Hk) as (_ & _ & Hb).
    destruct Hi1 as [_ _ Hb' _ _]. congruence. }
  { cbn [length]. rewrite (bm_ndirty _ _ Hs1). unfold NBUF in *. lia. }
  exists i, j, s1, s2. assert (Ei : bufs s2 i = bufs s1 i) by (apply Ho2; by constructor).
  split; [done|]. split; [done|]. split; [intros ->; apply Hj; by constructor|].
  split; [done|]. split; [destruct Hi1; split; by rewrite ?Ei|].
  split; [by rewrite (bm_content _ _ Hs1) in Hj2 by done|by eapply bsame_trans].
Qed.

Lemma log_step s d a b :
  bstate s [] → on_disk d a → on_disk d b → a ≠ b → (length (dirty_bufs s) < NBUF - 1)%nat →
  ∃ s', (to ← bread d a;
         from ← bread d b;
         m ← gets (λ s, b_data (bufs s from));
         _ ← modS (updb to (set_b_data m));
         _ ← bwrite to;
         _ ← brelse from;
         brelse to) s = Done ((), s') ∧ bstate s' [] ∧ saved s s' d a (content s d b).
Proof.
  intros HS Ha Hb Hab Hlen. assert (Hd : d ≠ 0) by (destruct Ha as [[-> | ->] _]; done).
  destruct (read_two s d a b HS Ha Hb Hab Hlen) as (i & j & s1 & s2 & R1 & R2 & Hij & HS2 & Hi & Hj & Hs).
  destruct (copy_tail s2 j i d b a (content s d a)) as (s' & Hr & HS' & HC); [|done..| |done| |].
  { by apply (bstate_perm _ [j; i]); [apply Permutation_swap|]. }
  { by rewrite (bm_content _ _ Hs). }
  { rewrite (bm_dirty _ _ Hs), (bm_content _ _ Hs), (bm_disk _ _ Hs) by done.
    eapply clean_or_dirty; [done..|]. intros k _. apply not_elem_of_nil. }
  exists s'. split; [|split; [done|]].
  2: { apply (saved_same _ s2); [done|]. by rewrite <- (bm_content _ _ Hs). }
  rewrite (bind_done _ _ _ _ _ R1), (bind_done _ _ _ _ _ R2). exact Hr.
Qed.

Lemma install_step s d a b :
  bstate s [] → on_disk d a → on_disk d b → a ≠ b → (length (dirty_bufs s) < NBUF - 1)%nat →
  ∃ s', (lbuf ← bread d a;
         dbuf ← bread d b;
         m ← gets (λ s, b_data (bufs s lbuf));
         _ ← modS (updb dbuf (set_b_data m));
         _ ← bwrite dbuf;
         _ ← brelse lbuf;
         brelse dbuf) s = Done ((), s') ∧ bstate s' [] ∧ saved s s' d b (content s d a).
Proof.
  intros HS Ha Hb Hab Hlen. assert (Hd : d ≠ 0) by (destruct Ha as [[-> | ->] _]; done).
  destruct (read_two s d a b HS Ha Hb Hab Hlen) as (i & j & s1 & s2 & R1 & R2 & Hij & HS2 & Hi & Hj & Hs).
  destruct (copy_tail s2 i j d a b (content s d b)) as (s' & Hr & HS' & HC); [done..| |done| |].
  { by rewrite (bm_content _ _ Hs). }
  { rewrite (bm_dirty _ _ Hs), (bm_content _ _ Hs), (bm_disk _ _ Hs) by done.
    eapply clean_or_dirty; [done..|]. intros k _. apply not_elem_of_nil. }
  exists s'. split; [|split; [done|]].
  2: { apply (saved_same _ s2); [done|]. by rewrite <- (bm_content _ _ Hs). }
  rewrite (bind_done _ _ _ _ _ R1), (bind_done _ _ _ _ _ R2). exact Hr.
Qed.

(** ** Sequences of writes *)

Definition apply_writes (D : Z → Z → mem) (W : list (Z * Z * mem)) : Z → Z → mem :=
  foldl (λ D w, <[w.1.1 := <[w.1.2 := w.2]> (D w.1.1)]> D) D W.

Lemma apply_writes_app D W1 W2 : apply_writes D (W1 ++ W2) = apply_writes (apply_writes D W1) W2.
Proof. apply foldl_app. Qed.

Lemma apply_writes_ext W : ∀ D D' d b,
  D d b = D' d b → apply_writes D W d b = apply_writes D' W d b.
Proof.
  induction W as [|[[d' b'] m] W IH]; intros D D' d b HD; [done|]. apply IH. cbn [fst snd].
  destruct (decide (d = d')) as [->|]; [|by rewrite !fn_lookup_insert_ne].
  rewrite !fn_lookup_insert. destruct (decide (b = b')) as [->|]; [by rewrite !fn_lookup_insert|].
  by rewrite !fn_lookup_insert_ne.
Qed.

Lemma apply_writes_out W : ∀ D d b, (d, b) ∉ map fst W → apply_writes D W d b = D d b.
Proof.
  induction W as [|[[d' b'] m] W IH]; intros D d b Hn; [done|]. cbn [map fst] in Hn.
  apply not_elem_of_cons in Hn as [Hne Hn]. change (apply_writes (<[d' := <[b' := m]> (D d')]> D) W d b = D d b). rewrite IH by done.
  destruct (decide (d = d')) as [->|]; [|by rewrite fn_lookup_insert_ne].
  rewrite fn_lookup_insert, fn_lookup_insert_ne; [done|congruence].
Qed.

Lemma apply_writes_dev d d' W : d' ≠ d → ∀ D, Forall (λ w, w.1.1 = d) W → apply_writes D W d' = D d'.
Proof.
  intros Hne. induction W as [|[[d0 b] m] W IH]; intros D HW; [done|]. apply Forall_cons in HW as [E HW]. cbn in E. subst d0.
  etrans; [exact (IH (<[d := <[b := m]> (D d)]> D) HW)|]. by rewrite fn_lookup_insert_ne.
Qed.

Lemma apply_writes_in W : ∀ D d b m,
  NoDup (map fst W) → (d, b, m) ∈ W → apply_writes D W d b = m.
Proof.
  induction W as [|[[d' b'] m'] W IH]; intros D d b m Hnd Hin; [by apply elem_of_nil in Hin|].
  cbn [map fst] in Hnd. apply NoDup_cons in Hnd as [Hn Hnd].
  change (apply_writes (<[d' := <[b' := m']> (D d')]> D) W d b = m).
  apply elem_of_cons in Hin as [[= -> -> ->]|Hin]; [|by apply IH].
  rewrite apply_writes_out by done. by rewrite !fn_lookup_insert.
Qed.

(** The writes [W] went to the cache and to the disk, in order. *)
Record wrote (s s' : fsys) (W : list (Z * Z * mem)) : Prop := Wrote {
  wr_content : ∀ d b, d ≠ 0 → content s' d b = apply_writes (content s) W d b;
  wr_dirty : ∀ d b, d ≠ 0 →
    isdirty s' d b = isdirty s d b && negb (bool_decide ((d, b) ∈ map fst W));
  wr_ndirty : (length (dirty_bufs s') ≤ length (dirty_bufs s))%nat;
  wr_disk : disk s' = apply_writes (disk s) W;
  wr_writes : writes s' = writes s ++ W
}.

Lemma wrote_nil s : wrote s s [].
Proof.
  split; try done; [|by rewrite app_nil_r].
  intros d b _. rewrite bool_decide_eq_false_2 by (by apply not_elem_of_nil).
  by rewrite andb_true_r.
Qed.

Lemma same_wrote s s' : bsame s s' → wrote s s' [].
Proof.
  intros [B1 B2 B3 B4 B5 _]. split; [done| |by rewrite B3|done|by rewrite app_nil_r].
  intros d b Hd. rewrite B2 by done. apply (wrote_nil s). done.
Qed.

Lemma wrote_app s1 s2 s3 W1 W2 : wrote s1 s2 W1 → wrote s2 s3 W2 → wrote s1 s3 (W1 ++ W2).
Proof.
  intros [A1 A2 A3 A4 A5] [B1 B2 B3 B4 B5]. split.
  - intros d b Hd. rewrite B1, apply_writes_app by done. by apply apply_writes_ext, A1.
  - intros d b Hd. rewrite B2, A2 by done. rewrite <- andb_assoc. f_equal.
    rewrite <- negb_orb. f_equal. rewrite map_app.
    apply eq_true_iff_eq. rewrite orb_true_iff, !bool_decide_eq_true, elem_of_app. done.
  - lia.
  - by rewrite B4, A4, apply_writes_app.
  - by rewrite B5, A5, app_assoc.
Qed.

Lemma saved_wrote s s' d b m :
  saved s s' d b m → wrote s s' [(d, b, m)].
Proof.
  intros [C1 C2 C3 C4 C5 C6]. split; [| |done..].
  - intros d' b' Hd'. rewrite C1 by done. cbn. destruct (decide (d' = d)) as [->|Hn].
    + rewrite fn_lookup_insert. destruct (decide (b' = b)) as [->|Hb].
      * by rewrite fn_lookup_insert, decide_True.
      * rewrite fn_lookup_insert_ne by done. rewrite decide_False; [done|tauto].
    + rewrite fn_lookup_insert_ne by done. rewrite decide_False; [done|tauto].
  - intros d' b' Hd'. rewrite C2 by done. cbn.
    case_decide as Hc; case_bool_decide as Hc'; rewrite ?andb_true_r, ?andb_false_r; try done.
    + exfalso. apply Hc'. destruct Hc as [-> ->]. by constructor.
    + exfalso. apply Hc. apply list_elem_of_singleton in Hc'. by injection Hc'.
Qed.

(** Only the log in memory changes. *)
Lemma bstate_updl s f H : bstate s H → bstate (updl f s) H.
Proof. intros [[? ? ? ? ? ?] ? ?]. by split. Qed.

Lemma wrote_updl_r s s' f W : wrote s s' W → wrote s (updl f s') W.
Proof. intros [? ? ? ? ?]. by split. Qed.

Lemma wrote_updl_l s s' f W : wrote (updl f s) s' W → wrote s s' W.
Proof. intros [? ? ? ? ?]. by split. Qed.

(** ** The loops *)

Section copies.
Context (body : nat → M fsys ()) (src dst : nat → Z) (d : Z) (ks : list nat) (l : logst).
Hypothesis Hd : d ≠ 0.
Hypothesis Hbody : ∀ k s, k ∈ ks → bstate s [] → flog s = l →
  (length (dirty_bufs s) < NBUF - 1)%nat →
  ∃ s', body k s = Done ((), s') ∧ bstate s' [] ∧ saved s s' d (dst k) (content s d (src k)).
Hypothesis Hdisj : ∀ k k', k ∈ ks → k' ∈ ks → src k ≠ dst k'.

Lemma copies_run ks' : ∀ s, ks' ⊆ ks → bstate s [] → flog s = l →
  (length (dirty_bufs s) < NBUF - 1)%nat →
  ∃ s', mfor ks' body s = Done ((), s') ∧ bstate s' [] ∧ rest_same s s' ∧
    wrote s s' (map (λ k, (d, dst k, content s d (src k))) ks').
Proof.
  induction ks' as [|k ks' IH]; intros s Hsub HS Hl Hn.
  { exists s. split; [done|]. split; [done|]. split; [apply rest_same_refl|apply wrote_nil]. }
  assert (Hk : k ∈ ks) by (apply Hsub; by constructor).
  destruct (Hbody k s Hk HS Hl Hn) as (s1 & Hr1 & HS1 & HC).
  pose proof (cp_rest _ _ _ _ _ HC) as HR.
  assert (Hsub' : ks' ⊆ ks) by (intros x Hx; apply Hsub; by constructor).
  destruct (IH s1 Hsub' HS1) as (s2 & Hr2 & HS2 & HR2 & HW2).
  { by rewrite <- Hl; apply HR. } { pose proof (cp_ndirty _ _ _ _ _ HC). lia. }
  exists s2. split; [cbn [mfor]; by rewrite (bind_done _ _ _ _ _ Hr1)|]. split; [done|].
  split; [by eapply rest_same_trans|]. apply saved_wrote in HC as HW1.
  cbn [map].
  replace (map (λ k, (d, dst k, content s d (src k))) ks')
    with (map (λ k, (d, dst k, content s1 d (src k))) ks'); [by apply (wrote_app _ s1 _ [_])|].
  apply map_ext_in. intros k' Hk'%list_elem_of_In. f_equal.
  rewrite (cp_content _ _ _ _ _ HC) by done. rewrite decide_False; [done|].
  intros [_ He]. by apply (Hdisj k' k (Hsub' _ Hk') Hk).
Qed.
End copies.

(** ** The header block *)

Lemma put_blocks_out bs : ∀ m i a,
  a + 4 ≤ 4 + 4 * Z.of_nat i → load32 (put_blocks m i bs) a = load32 m a.
Proof.
  induction bs as [|b bs IH]; intros m i a Ha; [done|]. cbn [put_blocks].
  rewrite IH by lia. apply load32_ext. intros x Hx. apply store32_out. lia.
Qed.

Lemma put_blocks_at bs : ∀ m i k,
  (k < length bs)%nat → head_block (put_blocks m i bs) (i + k) = u32 (nth k bs 0).
Proof.
  induction bs as [|b bs IH]; intros m i k Hk; cbn [length] in Hk; [lia|]. cbn [put_blocks].
  destruct k as [|k].
  - unfold head_block. rewrite put_blocks_out by lia. rewrite Nat.add_0_r. apply load32_store32.
  - replace (i + S k)%nat with (S i + k)%nat by lia. rewrite IH by lia. done.
Qed.

(** Reading back the header that [write_head] put together. *)
Lemma put_head_n m n bs : 0 ≤ n < 2 ^ 31 → head_n (put_head m n bs) = n.
Proof.
  intros Hn. unfold head_n, put_head. rewrite put_blocks_out by lia.
  rewrite load32_store32, u32_small by lia. apply s32_small. lia.
Qed.

Lemma put_head_blocks m n bs :
  Forall (λ b, 0 ≤ b < FSSIZE) bs →
  map (head_block (put_head m n bs)) (seq 0 (length bs)) = bs.
Proof.
  intros Hbs. apply nth_ext with (d := head_block (put_head m n bs) 0%nat) (d' := 0).
  { by rewrite length_map, length_seq. }
  intros k Hk. rewrite length_map, length_seq in Hk. rewrite map_nth, seq_nth by done.
  change (0 + k)%nat with (0 + k)%nat. unfold put_head. rewrite put_blocks_at by done.
  apply u32_small. rewrite List.Forall_forall in Hbs.
  specialize (Hbs (nth k bs 0) (nth_In _ _ Hk)). unfold FSSIZE in Hbs. lia.
Qed.

Lemma write_head_run s d st :
  bstate s [] → l_dev (flog s) = d → l_start (flog s) = st → on_disk d st →
  (length (dirty_bufs s) < NBUF)%nat →
  ∃ s', write_head s = Done ((), s') ∧ bstate s' [] ∧ rest_same s s' ∧
    wrote s s' [(d, st, put_head (content s d st) (lh_n (flog s)) (logged (flog s)))].
Proof.
  intros HS Hdev Hst Hon Hn. assert (Hd : d ≠ 0) by (destruct Hon as [[-> | ->] _]; done).
  destruct (bread_run s [] d st HS Hon) as (i & s1 & Hr1 & _ & HS1 & Hi1 & Hs1 & _).
  { intros i _. apply not_elem_of_nil. } { done. }
  assert (Hl1 : flog s1 = flog s) by apply Hs1.
  set (m := put_head (content s d st) (lh_n (flog s)) (logged (flog s))).
  destruct (edit_run s1 [i] i d st _ m HS1 ltac:(by constructor) Hd Hi1) as (HS2 & Hi2 & Hn2 & Hc2 & Hd2).
  set (s2 := updb i (set_b_data m) s1) in *.
  assert (Hcb : content s2 d st = m) by (rewrite Hc2 by done; by rewrite decide_True).
  destruct (bwrite_run s2 [i] i d st m HS2 ltac:(by constructor) Hon Hi2 Hcb)
    as (s3 & Hw & HS3 & Hi3 & Hf3 & [W1 W2 W3 W4 W5 W6] & Ho3).
  destruct (brelse_run s3 [] i d st m HS3) as (s4 & Hr4 & HS4 & [B1 B2 B3 B4 B5 B6] & _).
  { apply not_elem_of_nil. } { done. } { done. }
  { right. rewrite W4. by rewrite !fn_lookup_insert. }
  destruct Hs1 as [A1 A2 A3 A4 A5 A6].
  exists s4. split; [|split; [done|split]].
  - unfold write_head. rewrite run_gets, Hdev, Hst, (bind_done _ _ _ _ _ Hr1), run_modS.
    replace (updb i _ s1) with s2; [by rewrite (bind_done _ _ _ _ _ Hw)|].
    subst s2 m. unfold updb. rewrite Hl1. cbv beta. by rewrite (hd_data _ _ _ _ _ Hi1).
  - eapply rest_same_trans; [exact A6|]. eapply rest_same_trans; [|exact B6]. exact W6.
  - apply saved_wrote. split.
    + intros d' b' Hd'. rewrite B1, W1, Hc2 by done. by rewrite A1.
    + intros d' b' Hd'. rewrite B2, W2, Hd2 by done. by rewrite A2.
    + rewrite B3, <- A3, <- Hn2. exact W3.
    + rewrite B4, W4. change (disk s2) with (disk s1). by rewrite A4.
    + rewrite B5, W5. change (writes s2) with (writes s1). by rewrite A5.
    + eapply rest_same_trans; [exact A6|]. eapply rest_same_trans; [|exact B6]. exact W6.
Qed.

(** What is neither cache, disk nor log is the same. *)
Definition fs_same (s s' : fsys) : Prop := rest_same s (set_flog (flog s) s').

Lemma rest_fs_same s s' : rest_same s s' → fs_same s s'.
Proof. by intros (_ & H). Qed.

Lemma fs_same_trans s1 s2 s3 : fs_same s1 s2 → fs_same s2 s3 → fs_same s1 s3.
Proof. unfold fs_same, rest_same. cbn. intuition congruence. Qed.

Lemma fs_same_updl s f : fs_same s (updl f s).
Proof. by split_and!. Qed.

(** ** Transactions *)

(** A log of blocks [bs] in the area that starts at [st] of disk [d]. *)
Record log_area (l : logst) (d st : Z) (bs : list Z) : Prop := LogArea {
  la_dev : l_dev l = d;
  la_start : l_start l = st;
  la_n : lh_n l = Z.of_nat (length bs);
  la_blocks : logged l = bs;
  la_len : Z.of_nat (length bs) < LOGSIZE;
  la_area : on_disk d st ∧ on_disk d (st + LOGSIZE);
  la_home : Forall (λ b, on_disk d b ∧ ¬ (st ≤ b < st + LOGSIZE)) bs
}.

Section area.
Context (l : logst) (d st : Z) (bs : list Z).
Hypothesis HA : log_area l d st bs.

Lemma area_dev : d ≠ 0.
Proof. destruct (la_area _ _ _ _ HA) as [[[-> | ->] _] _]; done. Qed.

Lemma area_log k : (k < length bs)%nat → on_disk d (st + Z.of_nat k + 1).
Proof.
  intros Hk. destruct HA as [_ _ _ _ Hlen [[Hd [H1 _]] [_ [_ H2]]] _]. split; [done|]. lia.
Qed.

Lemma area_home b : b ∈ bs → on_disk d b ∧ ¬ (st ≤ b < st + LOGSIZE).
Proof. intros Hb. pose proof (la_home _ _ _ _ HA) as HF. rewrite Forall_forall in HF. by apply HF. Qed.

Lemma area_nth k : (k < length bs)%nat → nth k (lh_block l) 0 = nth k bs 0 ∧ nth k bs 0 ∈ bs.
Proof.
  intros Hk. split; [|by apply list_elem_of_In, nth_In].
  rewrite <- (la_blocks _ _ _ _ HA). unfold logged. rewrite nth_firstn, (la_n _ _ _ _ HA).
  rewrite Nat2Z.id. by apply Nat.ltb_lt in Hk as ->.
Qed.

Lemma area_apart k k' :
  (k < length bs)%nat → (k' < length bs)%nat → nth k bs 0 ≠ st + Z.of_nat k' + 1.
Proof.
  intros Hk Hk' He. destruct (area_nth k Hk) as [_ Hb]. destruct (area_home _ Hb) as [_ Hn].
  apply Hn. pose proof (la_len _ _ _ _ HA). lia.
Qed.
End area.

(** The blocks as [write_log] and [install_trans] write them. *)
Definition log_writes (d st : Z) (bs : list Z) (C : Z → mem) : list (Z * Z * mem) :=
  map (λ k, (d, st + Z.of_nat k + 1, C (nth k bs 0))) (seq 0 (length bs)).
Definition home_writes (d st : Z) (bs : list Z) (C : Z → mem) : list (Z * Z * mem) :=
  map (λ k, (d, nth k bs 0, C (st + Z.of_nat k + 1))) (seq 0 (length bs)).

Lemma write_log_run s d st bs :
  log_area (flog s) d st bs → bstate s [] → (length (dirty_bufs s) < NBUF - 1)%nat →
  ∃ s', write_log s = Done ((), s') ∧ bstate s' [] ∧ rest_same s s' ∧
    wrote s s' (log_writes d st bs (content s d)).
Proof.
  intros HA HS Hn. unfold write_log. rewrite run_gets, (la_n _ _ _ _ HA), Nat2Z.id.
  eapply (copies_run _ (λ k, nth k bs 0) (λ k, st + Z.of_nat k + 1) d (seq 0 (length bs)) (flog s));
    try done.
  - by eapply area_dev.
  - intros k s0 Hk%elem_of_seq HS0 Hl Hn0. rewrite run_gets, Hl.
    assert (Hk' : (k < length bs)%nat) by lia. destruct (area_nth _ _ _ _ HA k Hk') as [-> Hb].
    rewrite (la_dev _ _ _ _ HA), (la_start _ _ _ _ HA). apply log_step; try done.
    + by eapply area_log.
    + by eapply area_home.
    + intros He. by eapply (area_apart _ _ _ _ HA k k).
  - intros k k' Hk%elem_of_seq Hk'%elem_of_seq. eapply area_apart; [done|lia..].
Qed.

Lemma install_trans_run s d st bs :
  log_area (flog s) d st bs → bstate s [] → (length (dirty_bufs s) < NBUF - 1)%nat →
  ∃ s', install_trans s = Done ((), s') ∧ bstate s' [] ∧ rest_same s s' ∧
    wrote s s' (home_writes d st bs (content s d)).
Proof.
  intros HA HS Hn. unfold install_trans. rewrite run_gets, (la_n _ _ _ _ HA), Nat2Z.id.
  eapply (copies_run _ (λ k, st + Z.of_nat k + 1) (λ k, nth k bs 0) d (seq 0 (length bs)) (flog s));
    try done.
  - by eapply area_dev.
  - intros k s0 Hk%elem_of_seq HS0 Hl Hn0. rewrite run_gets, Hl.
    assert (Hk' : (k < length bs)%nat) by lia. destruct (area_nth _ _ _ _ HA k Hk') as [-> Hb].
    rewrite (la_dev _ _ _ _ HA), (la_start _ _ _ _ HA). apply install_step; try done.
    + by eapply area_log.
    + by eapply area_home.
    + intros He. by eapply (area_apart _ _ _ _ HA k k).
  - intros k k' Hk%elem_of_seq Hk'%elem_of_seq He. eapply (area_apart _ _ _ _ HA k' k); [lia..|done].
Qed.

(** The disk writes of [commit], in order: the new contents to the log, the
    header that commits them, the contents to their homes, the empty header. *)
Definition commit_writes (s : fsys) (d st : Z) (bs : list Z) : list (Z * Z * mem) :=
  let hd := put_head (content s d st) (Z.of_nat (length bs)) bs in
  log_writes d st bs (content s d) ++ [(d, st, hd)] ++
  map (λ b, (d, b, content s d b)) bs ++ [(d, st, put_head hd 0 [])].

Section writes.
Context (d st : Z) (bs : list Z).
Implicit Type C : Z → mem.

Lemma log_writes_out D C b :
  ¬ (st < b ≤ st + Z.of_nat (length bs)) → apply_writes D (log_writes d st bs C) d b = D d b.
Proof.
  intros Hb. apply apply_writes_out. unfold log_writes. rewrite map_map. cbn [fst].
  intros (k & [= Hk] & Hin%elem_of_seq)%list_elem_of_fmap. lia.
Qed.

Lemma log_writes_in D C k :
  (k < length bs)%nat →
  apply_writes D (log_writes d st bs C) d (st + Z.of_nat k + 1) = C (nth k bs 0).
Proof.
  intros Hk. apply apply_writes_in; unfold log_writes.
  - rewrite map_map. cbn [fst]. apply NoDup_fmap_2; [|apply NoDup_seq].
    intros x y [= Hxy]. lia.
  - apply list_elem_of_fmap. exists k. split; [done|]. apply elem_of_seq. lia.
Qed.

Lemma home_writes_map C C' :
  (∀ k, (k < length bs)%nat → C (st + Z.of_nat k + 1) = C' (nth k bs 0)) →
  home_writes d st bs C = map (λ b, (d, b, C' b)) bs.
Proof.
  intros HC. unfold home_writes.
  apply nth_ext with (d := (d, nth 0 bs 0, C (st + Z.of_nat 0 + 1))) (d' := (d, 0, C' 0)).
  { by rewrite !length_map, length_seq. }
  intros k Hk. rewrite length_map, length_seq in Hk.
  rewrite (map_nth (λ k, (d, nth k bs 0, C (st + Z.of_nat k + 1)))), seq_nth by done.
  rewrite (map_nth (λ b, (d, b, C' b))). by rewrite Nat.add_0_l, HC.
Qed.

Lemma home_writes_ext C C' :
  (∀ b, C b = C' b) → home_writes d st bs C = home_writes d st bs C'.
Proof. intros HC. apply map_ext. intros k. by rewrite HC. Qed.

Lemma home_writes_out D C b :
  b ∉ bs → apply_writes D (home_writes d st bs C) d b = D d b.
Proof.
  intros Hb. apply apply_writes_out. unfold home_writes. rewrite map_map. cbn [fst].
  intros (k & [= ->] & Hk%elem_of_seq)%list_elem_of_fmap. apply Hb, list_elem_of_In, nth_In. lia.
Qed.

Lemma homes_out D C b :
  b ∉ bs → apply_writes D (map (λ b, (d, b, C b)) bs) d b = D d b.
Proof.
  intros Hb. apply apply_writes_out. rewrite map_map. cbn [fst].
  by intros (k & [= ->] & Hin)%list_elem_of_fmap.
Qed.

Lemma homes_in D C b :
  NoDup bs → b ∈ bs → apply_writes D (map (λ b, (d, b, C b)) bs) d b = C b.
Proof.
  intros Hnd Hb. apply apply_writes_in.
  - rewrite map_map. cbn [fst]. apply NoDup_fmap_2; [|done]. by intros x y [= ->].
  - apply list_elem_of_fmap. by exists b.
Qed.
End writes.

(** [log.lh.n = 0] *)
Lemma logged_clear l : logged (set_lh_n 0 l) = [].
Proof. done. Qed.

Lemma commit_run s d st bs :
  log_area (flog s) d st bs → bstate s [] → (length (dirty_bufs s) < NBUF - 1)%nat →
  bs ≠ [] →
  ∃ s', commit s = Done ((), s') ∧ bstate s' [] ∧ flog s' = set_lh_n 0 (flog s) ∧
    wrote s s' (commit_writes s d st bs) ∧ fs_same s s'.
Proof.
  intros HA HS Hn Hne. pose proof (area_dev _ _ _ _ HA) as Hd.
  assert (Hlen : (0 < length bs)%nat) by (destruct bs; [done|cbn; lia]).
  destruct (write_log_run s d st bs HA HS Hn) as (s1 & R1 & HS1 & HR1 & W1).
  assert (Hl1 : flog s1 = flog s) by apply HR1. pose proof (wr_ndirty _ _ _ W1) as Hn1.
  pose proof HA as [Hdev Hst Hln Hbl Hlog [Hon _] _].
  destruct (write_head_run s1 d st HS1) as (s2 & R2 & HS2 & HR2 & W2);
    [by rewrite Hl1..|done|unfold NBUF in *; lia|].
  assert (Hl2 : flog s2 = flog s) by (etrans; [apply HR2|done]).
  pose proof (wr_ndirty _ _ _ W2) as Hn2.
  rewrite Hl1, Hln, Hbl, (wr_content _ _ _ W1), log_writes_out in W2 by (done || lia).
  destruct (install_trans_run s2 d st bs) as (s3 & R3 & HS3 & HR3 & W3); [by rewrite Hl2|done|lia|].
  assert (Hl3 : flog s3 = flog s) by (etrans; [apply HR3|done]).
  pose proof (wr_ndirty _ _ _ W3) as Hn3.
  rewrite (home_writes_map _ _ _ _ (content s d)) in W3.
  2: { intros k Hk. rewrite (wr_content _ _ _ (wrote_app _ _ _ _ _ W1 W2)) by done.
       rewrite apply_writes_app, apply_writes_out; [by apply log_writes_in|].
       cbn [map fst]. intros [= He]%list_elem_of_singleton. lia. }
  set (s4 := updl (set_lh_n 0) s3).
  destruct (write_head_run s4 d st) as (s5 & R5 & HS5 & HR5 & W5).
  { by apply bstate_updl. } { by cbn; rewrite Hl3. } { by cbn; rewrite Hl3. } { done. }
  { change (dirty_bufs s4) with (dirty_bufs s3). unfold NBUF in *. lia. }
  pose proof (wrote_app _ _ _ _ _ W1 (wrote_app _ _ _ _ _ W2 W3)) as W123.
  exists s5. split; [|split; [done|split; [|split]]].
  - unfold commit. rewrite run_gets, Hln. replace (0 <? _) with true by (symmetry; lia).
    rewrite (bind_done _ _ _ _ _ R1), (bind_done _ _ _ _ _ R2), (bind_done _ _ _ _ _ R3), run_modS.
    exact R5.
  - etrans; [apply HR5|]. cbn. by rewrite Hl3.
  - unfold commit_writes. rewrite !app_assoc. eapply wrote_app; [by rewrite <- !app_assoc|].
    apply wrote_updl_l in W5. replace (content s4 d st) with
      (put_head (content s d st) (Z.of_nat (length bs)) bs) in W5; [done|].
    change (content s4 d st) with (content s3 d st).
    rewrite (wr_content _ _ _ W123) by done. rewrite app_assoc, apply_writes_app, homes_out.
    + rewrite apply_writes_app. cbn. by rewrite !fn_lookup_insert.
    + intros Hb. apply (area_home _ _ _ _ HA) in Hb as [_ Hb]. apply Hb. unfold LOGSIZE. lia.
  - eapply fs_same_trans; [apply rest_fs_same, (rest_same_trans _ _ _ HR1 (rest_same_trans _ _ _ HR2 HR3))|].
    eapply fs_same_trans; [apply (fs_same_updl s3 (set_lh_n 0))|]. by apply rest_fs_same.
Qed.

(** ** Recovery *)

(** The cache holds nothing that is not on disk, as after [binit]. *)
Record fresh (r : fsys) (d st : Z) : Prop := Fresh {
  fr_state : bstate r [];
  fr_clean : dirty_bufs r = [];
  fr_content : ∀ d b, d ≠ 0 → content r d b = disk r d b;
  fr_dev : l_dev (flog r) = d;
  fr_start : l_start (flog r) = st
}.

(** The block numbers in a header block. *)
Definition head_blocks (m : mem) : list Z := map (head_block m) (seq 0 (Z.to_nat (head_n m))).

Lemma length_head_blocks m : length (head_blocks m) = Z.to_nat (head_n m).
Proof. unfold head_blocks. by rewrite length_map, length_seq. Qed.

Lemma read_head_run r d st :
  fresh r d st → on_disk d st → 0 ≤ head_n (disk r d st) < LOGSIZE →
  ∃ r', read_head r = Done ((), r') ∧ bstate r' [] ∧ wrote r r' [] ∧ fs_same r r' ∧
    flog r' = set_lh_block
      (head_blocks (disk r d st) ++ drop (Z.to_nat (head_n (disk r d st))) (lh_block (flog r)))
      (set_lh_n (head_n (disk r d st)) (flog r)).
Proof.
  intros [HS Hcl Hc Hdev Hst] Hon Hn. assert (Hd : d ≠ 0) by (destruct Hon as [[-> | ->] _]; done).
  destruct (bread_run r [] d st HS Hon) as (i & s1 & Hr1 & _ & HS1 & Hi1 & Hs1 & _).
  { intros i _. apply not_elem_of_nil. } { rewrite Hcl. unfold NBUF. cbn. lia. }
  rewrite Hc in Hi1 by done. set (m := disk r d st) in *.
  set (s2 := updl (λ l, set_lh_block
                 (map (head_block m) (seq 0 (Z.to_nat (head_n m))) ++
                  drop (Z.to_nat (head_n m)) (lh_block l)) l) (updl (set_lh_n (head_n m)) s1)).
  destruct (brelse_run s2 [] i d st m) as (s3 & Hr3 & HS3 & Hs3 & _).
  { by apply bstate_updl, bstate_updl. } { apply not_elem_of_nil. } { done. }
  { destruct Hi1. by split. }
  { right. change (disk s2) with (disk s1). by rewrite (bm_disk _ _ Hs1). }
  exists s3. split; [|split; [done|split; [|split]]].
  - unfold read_head. rewrite run_gets, Hdev, Hst, (bind_done _ _ _ _ _ Hr1), run_gets.
    rewrite (hd_data _ _ _ _ _ Hi1). cbv zeta. rewrite (proj2 (Z.ltb_ge _ _)) by lia.
    rewrite !run_modS. exact Hr3.
  - apply (wrote_app _ s2 _ [] []); [|by apply same_wrote].
    by apply wrote_updl_r, wrote_updl_r, same_wrote.
  - apply (fs_same_trans _ s1); [apply rest_fs_same, Hs1|]. eapply (fs_same_trans _ s2); [done|apply rest_fs_same, Hs3].
  - etrans; [apply Hs3|]. cbn. by destruct (bm_rest _ _ Hs1) as [-> _].
Qed.

Lemma recover_run r d st :
  fresh r d st → on_disk d st → on_disk d (st + LOGSIZE) → 0 ≤ head_n (disk r d st) < LOGSIZE →
  Forall (λ b, on_disk d b ∧ ¬ (st ≤ b < st + LOGSIZE)) (head_blocks (disk r d st)) →
  ∃ r', recover_from_log r = Done ((), r') ∧ bstate r' [] ∧ lh_n (flog r') = 0 ∧ fs_same r r' ∧
    wrote r r' (home_writes d st (head_blocks (disk r d st)) (disk r d) ++
                [(d, st, put_head (disk r d st) 0 [])]).
Proof.
  intros HF Hon Hon' Hn Hhome. pose proof HF as [HS Hcl Hc Hdev Hst].
  assert (Hd : d ≠ 0) by (destruct Hon as [[-> | ->] _]; done).
  destruct (read_head_run r d st HF Hon Hn) as (r1 & R1 & HS1 & W1 & HR1 & Hl1).
  set (m := disk r d st) in *. set (bs := head_blocks m) in *.
  assert (Hlen : Z.of_nat (length bs) = head_n m).
  { subst bs. rewrite length_head_blocks. lia. }
  assert (HA : log_area (flog r1) d st bs).
  { rewrite Hl1. split; [done|done|exact (eq_sym Hlen)| |lia|done|done].
    unfold logged. cbn. rewrite <- length_head_blocks. by rewrite take_app_length. }
  pose proof (wr_ndirty _ _ _ W1) as Hn1. rewrite Hcl in Hn1. cbn [length] in Hn1.
  assert (Hc1 : ∀ b, content r1 d b = disk r d b).
  { intros b. rewrite (wr_content _ _ _ W1) by done. exact (Hc d b Hd). }
  destruct (install_trans_run r1 d st bs HA HS1) as (r2 & R2 & HS2 & HR2 & W2);
    [unfold NBUF in *; lia|].
  pose proof (wr_ndirty _ _ _ W2) as Hn2.
  assert (Hl2 : flog r2 = flog r1) by apply HR2.
  destruct (write_head_run (updl (set_lh_n 0) r2) d st) as (r3 & R3 & HS3 & HR3 & W3).
  { by apply bstate_updl. } { cbn. rewrite Hl2. apply HA. } { cbn. rewrite Hl2. apply HA. } { done. }
  { change (dirty_bufs (updl (set_lh_n 0) r2)) with (dirty_bufs r2). unfold NBUF in *. lia. }
  exists r3. split; [|split; [done|split; [|split]]].
  - unfold recover_from_log.
    rewrite (bind_done _ _ _ _ _ R1), (bind_done _ _ _ _ _ R2), run_modS. exact R3.
  - by destruct HR3 as [-> _].
  - eapply fs_same_trans; [exact HR1|]. eapply fs_same_trans; [apply rest_fs_same, HR2|].
    eapply fs_same_trans; [apply (fs_same_updl r2 (set_lh_n 0))|]. by apply rest_fs_same.
  - rewrite (home_writes_ext _ _ _ _ (content r1 d)) by done.
    apply (wrote_app _ r1 _ [] _ W1). apply (wrote_app _ r2 _ _ _ W2). apply wrote_updl_l in W3.
    replace (content _ d st) with m in W3; [done|].
    change (m = content r2 d st). rewrite (wr_content _ _ _ W2), home_writes_out by
      (done || intros Hb; apply (area_home _ _ _ _ HA) in Hb as [_ Hb]; unfold LOGSIZE in *; lia).
    by rewrite Hc1.
Qed.

(** ** Crashes *)

(** A transaction ready to commit: every dirty block is logged, and the log on
    disk is empty. *)
Record txn (s : fsys) (d st : Z) (bs : list Z) : Prop := Txn {
  tx_area : log_area (flog s) d st bs;
  tx_state : bstate s [];
  tx_room : (length (dirty_bufs s) < NBUF - 1)%nat;
  tx_nonempty : bs ≠ [];
  tx_nodup : NoDup bs;
  tx_dirty : ∀ b, isdirty s d b = true → b ∈ bs;
  tx_clear : head_n (disk s d st) = 0
}.

(** The disk after the first [k] writes of the commit. *)
Definition crash_disk (s : fsys) (d st : Z) (bs : list Z) (k : nat) : Z → Z → mem :=
  apply_writes (disk s) (take k (commit_writes s d st bs)).

Lemma apply_writes_take_out D k W d b :
  (d, b) ∉ map fst W → apply_writes D (take k W) d b = D d b.
Proof.
  intros Hn. apply apply_writes_out. intros Hin. apply Hn. rewrite <- (take_drop k W), map_app.
  apply elem_of_app. by left.
Qed.

Section crash.
Context (s : fsys) (d st : Z) (bs : list Z).
Hypothesis HT : txn s d st bs.
Let HA : log_area (flog s) d st bs := tx_area _ _ _ _ HT.
Let n := length bs.
Let C := content s d.
Let hd := put_head (C st) (Z.of_nat n) bs.

Lemma crash_split k :
  take k (commit_writes s d st bs) =
  take k (log_writes d st bs C) ++ take (k - n) [(d, st, hd)] ++
  take (k - n - 1) (map (λ b, (d, b, C b)) bs) ++ take (k - n - 1 - n) [(d, st, put_head hd 0 [])].
Proof.
  unfold commit_writes. rewrite !take_app. do 2 f_equal.
  { f_equal. unfold log_writes. by rewrite length_map, length_seq. }
  unfold log_writes. rewrite !length_map, length_seq. done.
Qed.

Lemma home_not_logged b : ¬ (st ≤ b < st + LOGSIZE) → (d, b) ∉ map fst (log_writes d st bs C).
Proof.
  intros Hb. unfold log_writes. rewrite map_map. cbn [fst].
  intros (k & [= ->] & Hin%elem_of_seq)%list_elem_of_fmap. pose proof (la_len _ _ _ _ HA). lia.
Qed.

Lemma head_not_logged : (d, st) ∉ map fst (log_writes d st bs C).
Proof.
  unfold log_writes. rewrite map_map. cbn [fst].
  intros (k & [= Hk] & Hin%elem_of_seq)%list_elem_of_fmap. lia.
Qed.

Lemma area_not_home b : st ≤ b < st + LOGSIZE → b ∉ bs.
Proof. intros Hb Hin. by apply (area_home _ _ _ _ HA) in Hin as [_ Hn]. Qed.

Lemma homes_take_out D j b :
  b ∉ bs → apply_writes D (take j (map (λ b, (d, b, C b)) bs)) d b = D d b.
Proof.
  intros Hb. apply apply_writes_take_out. rewrite map_map. cbn [fst].
  by intros (k & [= ->] & Hin)%list_elem_of_fmap.
Qed.

(** Before the header is written. *)
Lemma crash_before k b :
  (k ≤ n)%nat → b = st ∨ ¬ (st ≤ b < st + LOGSIZE) → crash_disk s d st bs k d b = disk s d b.
Proof.
  intros Hk Hb. unfold crash_disk. rewrite crash_split.
  replace (k - n)%nat with O by lia. cbn [take]. cbn [Nat.sub take]. rewrite !app_nil_r.
  apply apply_writes_take_out. destruct Hb as [->|Hb]; [apply head_not_logged|by apply home_not_logged].
Qed.

(** Between the header and the empty header. *)
Lemma crash_between k D :
  (n < k ≤ n + 1 + n)%nat → D = crash_disk s d st bs k d →
  D st = hd ∧ (∀ j, (j < n)%nat → D (st + Z.of_nat j + 1) = C (nth j bs 0)) ∧
  (∀ b, ¬ (st ≤ b < st + LOGSIZE) → b ∉ bs → D b = disk s d b).
Proof.
  intros Hk ->. unfold crash_disk. rewrite crash_split.
  replace (k - n - 1 - n)%nat with O by lia. replace (k - n)%nat with (S (k - n - 1)) by lia.
  cbn [take]. rewrite take_nil, app_nil_r.
  rewrite (take_ge (log_writes _ _ _ _)) by (unfold log_writes; rewrite length_map, length_seq; lia).
  replace (S (k - n - 1) - 1)%nat with (k - n - 1)%nat by lia. split_and!.
  - rewrite !apply_writes_app, homes_take_out by (apply area_not_home; unfold LOGSIZE; lia).
    cbn. by rewrite !fn_lookup_insert.
  - intros j Hj. pose proof (la_len _ _ _ _ HA) as Hlen. rewrite !apply_writes_app, homes_take_out.
    2: { apply area_not_home. lia. }
    rewrite apply_writes_out; [by apply log_writes_in|]. cbn.
    intros [= He]%list_elem_of_singleton. lia.
  - intros b Hb Hbs. rewrite !apply_writes_app, homes_take_out by done.
    rewrite apply_writes_out; [by apply apply_writes_out, home_not_logged|].
    cbn. intros [= ->]%list_elem_of_singleton. apply Hb. unfold LOGSIZE. lia.
Qed.

(** After the empty header. *)
Lemma crash_after k D :
  (n + 1 + n < k)%nat → D = crash_disk s d st bs k d →
  head_n (D st) = 0 ∧
  (∀ b, b ∈ bs → D b = C b) ∧ (∀ b, ¬ (st ≤ b < st + LOGSIZE) → b ∉ bs → D b = disk s d b).
Proof.
  intros Hk ->. unfold crash_disk. rewrite take_ge.
  2: { unfold commit_writes, log_writes. rewrite !length_app, !length_map, length_seq. cbn. lia. }
  unfold commit_writes. fold C hd. rewrite !apply_writes_app. split_and!.
  - cbn. rewrite !fn_lookup_insert. exact (put_head_n _ 0 [] ltac:(lia)).
  - intros b Hb. rewrite apply_writes_out; [apply homes_in; [apply HT|done]|].
    cbn. intros [= ->]%list_elem_of_singleton.
    apply (area_home _ _ _ _ HA) in Hb as [_ Hb]. apply Hb. unfold LOGSIZE. lia.
  - intros b Hb Hbs.
    assert (Hs : (d, b) ∉ [(d, st)]).
    { intros [= ->]%list_elem_of_singleton. apply Hb. unfold LOGSIZE. lia. }
    rewrite apply_writes_out by done. rewrite homes_out by done.
    rewrite apply_writes_out by done. by apply apply_writes_out, home_not_logged.
Qed.
End crash.

(** A block that is not part of the transaction is on disk. *)
Lemma txn_clean s d st bs b : txn s d st bs → b ∉ bs → content s d b = disk s d b.
Proof.
  intros HT Hb. destruct (clean_or_dirty s [] d b) as [Hd|Hc]; [apply HT| | | |done].
  - by eapply area_dev, HT.
  - intros i _. apply not_elem_of_nil.
  - by apply HT in Hd.
Qed.

(** A finished commit. *)
Lemma commit_final s d st bs b :
  txn s d st bs → ¬ (st ≤ b < st + LOGSIZE) →
  apply_writes (disk s) (commit_writes s d st bs) d b = content s d b.
Proof.
  intros HT Hb.
  destruct (crash_after s d st bs HT (length bs + 1 + length bs + 1) _ ltac:(lia) eq_refl)
    as (_ & Hin & Hout). unfold crash_disk in Hin, Hout.
  rewrite take_ge in Hin, Hout by
    (unfold commit_writes, log_writes; rewrite !length_app, !length_map, length_seq; cbn; lia).
  destruct (decide (b ∈ bs)) as [Hi|Hi]; [by apply Hin|]. rewrite Hout by done.
  symmetry. by eapply txn_clean.
Qed.

(** The state after recovery: a clean cache over a disk with an empty log and
    the blocks [C]. *)
Record recovered (r r' : fsys) (d st : Z) (C : Z → mem) : Prop := Recovered {
  rv_state : bstate r' [];
  rv_clean : dirty_bufs r' = [];
  rv_same : fs_same r r';
  rv_other : ∀ d', d' ≠ d → disk r' d' = disk r d';
  rv_head : head_n (disk r' d st) = 0;
  rv_disk : ∀ b, ¬ (st ≤ b < st + LOGSIZE) → disk r' d b = C b
}.

Lemma wrote_clean s s' W : wrote s s' W → dirty_bufs s = [] → dirty_bufs s' = [].
Proof. intros HW E. apply nil_length_inv. pose proof (wr_ndirty _ _ _ HW) as H. rewrite E in H. cbn [length] in H. lia. Qed.

(** Recovery with an empty log writes the empty header and nothing else. *)
Lemma recover_empty r d st :
  fresh r d st → on_disk d st → on_disk d (st + LOGSIZE) → head_n (disk r d st) = 0 →
  ∃ r', recover_from_log r = Done ((), r') ∧ recovered r r' d st (disk r d).
Proof.
  intros HF Hon Hon' Hn.
  assert (Hbs : head_blocks (disk r d st) = []) by (unfold head_blocks; by rewrite Hn).
  destruct (recover_run r d st HF Hon Hon') as (r' & Hr & HS & _ & Hsame & HW).
  { by rewrite Hn. } { rewrite Hbs. constructor. }
  exists r'. split; [done|]. pose proof (wrote_clean _ _ _ HW (fr_clean _ _ _ HF)). rewrite Hbs in HW.
  split; [done..| | |]; rewrite (wr_disk _ _ _ HW); cbn.
  - intros d' Hd'. by rewrite fn_lookup_insert_ne.
  - rewrite !fn_lookup_insert. exact (put_head_n _ 0 [] ltac:(lia)).
  - intros b Hb. rewrite fn_lookup_insert, fn_lookup_insert_ne; [done|]. intros <-. unfold LOGSIZE in Hb. lia.
Qed.

(** Recovery with a committed log installs it. *)
Lemma recover_committed s r d st bs k :
  txn s d st bs → fresh r d st → disk r d = crash_disk s d st bs k d →
  (length bs < k ≤ length bs + 1 + length bs)%nat →
  ∃ r', recover_from_log r = Done ((), r') ∧ recovered r r' d st (content s d).
Proof.
  intros HT HF HD Hk. pose proof (tx_area _ _ _ _ HT) as HA.
  destruct (crash_between s d st bs HT k (disk r d) Hk HD) as (Hst & Hlog & Hold).
  pose proof (la_len _ _ _ _ HA) as Hlen.
  assert (Hhn : head_n (disk r d st) = Z.of_nat (length bs)).
  { rewrite Hst. apply put_head_n. unfold LOGSIZE in Hlen. lia. }
  assert (Hhb : head_blocks (disk r d st) = bs).
  { unfold head_blocks. rewrite Hhn, Nat2Z.id, Hst. apply put_head_blocks.
    eapply Forall_impl; [apply (la_home _ _ _ _ HA)|]. intros b [[_ Hb] _]. exact Hb. }
  destruct (la_area _ _ _ _ HA) as [Hon Hon'].
  destruct (recover_run r d st HF Hon Hon') as (r' & Hr & HS & _ & Hsame & HW).
  { lia. } { rewrite Hhb. apply (la_home _ _ _ _ HA). }
  exists r'. split; [done|]. pose proof (wrote_clean _ _ _ HW (fr_clean _ _ _ HF)).
  rewrite Hhb in HW. rewrite (home_writes_map _ _ _ _ (content s d)) in HW by done.
  split; [done..| | |]; rewrite (wr_disk _ _ _ HW), apply_writes_app.
  - intros d' Hd'. rewrite <- apply_writes_app. apply (apply_writes_dev d); [done|].
    apply Forall_app. split; [by apply Forall_map, Forall_true|by apply Forall_singleton].
  - cbn. rewrite !fn_lookup_insert. exact (put_head_n _ 0 [] ltac:(lia)).
  - intros b Hb. rewrite apply_writes_out.
    2: { cbn. intros [= ->]%list_elem_of_singleton. apply Hb. unfold LOGSIZE. lia. }
    destruct (decide (b ∈ bs)) as [Hin|Hin]; [apply homes_in; [apply HT|done]|].
    rewrite homes_out, Hold by done. symmetry. by eapply txn_clean.
Qed.

(** ** [log_write] *)

Lemma log_slot_spec b bs :
  (log_slot b bs < length bs)%nat ∧ bs !! log_slot b bs = Some b ∧ b ∈ bs ∨
  log_slot b bs = length bs ∧ b ∉ bs.
Proof.
  induction bs as [|x bs IH]; cbn [log_slot]; [right; split; [done|apply not_elem_of_nil]|].
  destruct (Z.eqb_spec x b) as [->|Hne].
  - left. split; [cbn; lia|]. split; [done|by constructor].
  - destruct IH as [(H1 & H2 & H3)|[H1 H2]]; [left|right].
    + split; [cbn; lia|]. split; [done|by constructor].
    + split; [cbn; lia|]. by apply not_elem_of_cons.
Qed.

(** The array of block numbers is [LOGSIZE] long and the count is in range. *)
Definition log_wf (l : logst) : Prop := 0 ≤ lh_n l ≤ LOGSIZE ∧ Z.of_nat (length (lh_block l)) = LOGSIZE.

Definition log_add (b : Z) (bs : list Z) : list Z := if decide (b ∈ bs) then bs else bs ++ [b].

Lemma log_record l b k :
  log_wf l → lh_n l < LOGSIZE → k = log_slot b (logged l) →
  let l1 := set_lh_block (<[k := b]> (lh_block l)) l in
  let l' := if Z.of_nat k =? lh_n l then set_lh_n (lh_n l + 1) l1 else l1 in
  log_wf l' ∧ logged l' = log_add b (logged l).
Proof.
  intros [Hn HL] Hlt ->.
  assert (Hlen : length (logged l) = Z.to_nat (lh_n l)) by (unfold logged; rewrite length_take; lia).
  unfold log_add. destruct (log_slot_spec b (logged l)) as [(H1 & H2 & H3)|[H1 H2]].
  - rewrite decide_True by done. rewrite (proj2 (Z.eqb_neq _ _)) by lia.
    assert (Hb : lh_block l !! log_slot b (logged l) = Some b).
    { unfold logged in H2 at 1. by apply lookup_take_Some in H2 as [? _]. }
    cbn. rewrite list_insert_id by done. by destruct l.
  - rewrite decide_False by done. rewrite H1, Hlen, (proj2 (Z.eqb_eq _ _)) by lia. cbn. split.
    + split; cbn; [lia|]. by rewrite length_insert.
    + unfold logged. cbn. replace (Z.to_nat (lh_n l + 1)) with (S (Z.to_nat (lh_n l))) by lia.
      rewrite (take_S_r _ _ b) by (apply list_lookup_insert_eq; lia).
      by rewrite take_insert_ge by lia.
Qed.

Record log_wrote (s s' : fsys) (d b : Z) : Prop := LogWrote {
  lw_content : ∀ d' b', d' ≠ 0 → content s' d' b' = content s d' b';
  lw_dirty : ∀ d' b', d' ≠ 0 →
    isdirty s' d' b' = if decide (d' = d ∧ b' = b) then true else isdirty s d' b';
  lw_ndirty : (length (dirty_bufs s') ≤ S (length (dirty_bufs s)))%nat;
  lw_again : isdirty s d b = true → dirty_bufs s' = dirty_bufs s;
  lw_disk : disk s' = disk s ∧ writes s' = writes s;
  lw_log : log_wf (flog s') ∧ logged (flog s') = log_add b (logged (flog s)) ∧
    l_dev (flog s') = l_dev (flog s) ∧ l_start (flog s') = l_start (flog s) ∧
    l_size (flog s') = l_size (flog s) ∧ outstanding (flog s') = outstanding (flog s) ∧
    committing (flog s') = committing (flog s);
  lw_rest : rest_same s (set_flog (flog s) s')
}.

Lemma log_write_run s H i d b m :
  bstate s H → i ∈ H → d ≠ 0 → held s i d b m → log_wf (flog s) →
  lh_n (flog s) < LOGSIZE → lh_n (flog s) < l_size (flog s) - 1 → 1 ≤ outstanding (flog s) →
  ∃ s', log_write i s = Done ((), s') ∧ bstate s' H ∧ held s' i d b m ∧
    has (b_flags (bufs s' i)) B_DIRTY = true ∧ log_wrote s s' d b ∧
    (∀ j, j ≠ i → bufs s' j = bufs s j).
Proof.
  intros HS Hin Hd Hi Hwf H1 H2 H3. pose proof Hi as [_ _ Hbn _ _].
  set (k := log_slot b (logged (flog s))).
  destruct (log_record (flog s) b k Hwf H1 eq_refl) as [Hwf' Hlg].
  set (l1 := set_lh_block (<[k := b]> (lh_block (flog s))) (flog s)) in *.
  set (l' := if Z.of_nat k =? lh_n (flog s) then set_lh_n (lh_n (flog s) + 1) l1 else l1) in *.
  destruct (mark_run s H i d b m HS Hin Hd Hi) as (HS1 & Hi1 & Hdi & Hn1 & Hc1 & Hd1).
  set (s1 := updb i (λ b, set_b_flags (Z.lor (b_flags b) B_DIRTY) b) s) in *.
  exists (updl (λ _, l') s1). split; [|split; [by apply bstate_updl|split; [|split; [done|split]]]].
  - unfold log_write. rewrite run_getS. cbv zeta. rewrite Hbn. fold k.
    rewrite (proj2 (Z.leb_gt _ _)), (proj2 (Z.leb_gt (l_size _ - 1) _)) by lia. cbn [orb].
    rewrite (proj2 (Z.ltb_ge _ _)) by lia. rewrite run_modS. subst l'.
    by destruct (Z.of_nat k =? lh_n (flog s)).
  - destruct Hi1. by split.
  - split; [done..| |by split| |by split_and!].
    + intros Hdb. destruct (held_dirty s i d b m (bs_inv _ _ HS) Hd Hi) as [Hf _].
      unfold dirty_bufs. apply list_filter_iff. intros j.
      change (bufs (updl (λ _, l') s1) j) with (bufs s1 j).
      destruct (decide (j = i)) as [->|Hj]; [by rewrite Hdi, Hf, Hdb|]. subst s1. by rewrite updb_ne.
    + split; [done|]. split; [done|].
      cbn. subst l' l1. by destruct (Z.of_nat k =? lh_n (flog s)).
  - intros j Hj. by apply updb_ne.
Qed.

(** inside an operation with room in the log, [log_write] of a held buffer
    succeeds: the block's number is in the log once more only if it was not
    there (absorption), the buffer is pinned dirty, nothing is written to disk
    and no content changes. *)
Theorem log_write_records s H i d b m :
  bstate s H → i ∈ H → d ≠ 0 → held s i d b m → log_wf (flog s) →
  lh_n (flog s) < LOGSIZE → lh_n (flog s) < l_size (flog s) - 1 → 1 ≤ outstanding (flog s) →
  ∃ s', log_write i s = Done ((), s') ∧ bstate s' H ∧ held s' i d b m ∧
    has (b_flags (bufs s' i)) B_DIRTY = true ∧ log_wrote s s' d b.
Proof.
  intros. destruct (log_write_run s H i d b m) as (s' & ? & ? & ? & ? & ? & _); [done..|by exists s'].
Qed.

(** A crash after any number of the writes of [commit], and recovery. *)
Lemma crash_run s r d st bs k :
  txn s d st bs → fresh r d st → disk r d = crash_disk s d st bs k d →
  ∃ r', recover_from_log r = Done ((), r') ∧
    recovered r r' d st (if (k <=? length bs)%nat then disk s d else content s d).
Proof.
  intros HT HF HD. pose proof (tx_area _ _ _ _ HT) as HA.
  destruct (la_area _ _ _ _ HA) as [Hon Hon'].
  destruct (Nat.leb_spec k (length bs)) as [Hk|Hk].
  - destruct (recover_empty r d st HF Hon Hon') as (r' & Hr & [? ? ? ? ? Hb]).
    { rewrite HD. rewrite (crash_before s d st bs HT) by (done || by left). apply HT. }
    exists r'. split; [done|]. split; [done..|]. intros b Ho.
    rewrite Hb by done. rewrite HD. apply (crash_before s d st bs HT); [done|by right].
  - destruct (Nat.le_gt_cases k (length bs + 1 + length bs)) as [Hk'|Hk'].
    { by eapply recover_committed. }
    destruct (crash_after s d st bs HT k (disk r d) Hk' HD) as (Hh & Hin & Hout).
    destruct (recover_empty r d st HF Hon Hon' Hh) as (r' & Hr & [? ? ? ? ? Hb]).
    exists r'. split; [done|]. split; [done..|]. intros b Ho. rewrite Hb by done.
    destruct (decide (b ∈ bs)) as [Hi|Hi]; [by apply Hin|].
    rewrite Hout by done. symmetry. by eapply txn_clean.
Qed.


(** [commit] returns; its disk writes are, in order, the new contents of the
    logged blocks to the log, the header with their numbers, the contents to
    their home blocks, and the empty header. The cache keeps the contents, no
    logged block stays dirty, and the log is empty. *)
Theorem commit_write_order s d st bs :
  txn s d st bs →
  ∃ s', commit s = Done ((), s') ∧ writes s' = writes s ++ commit_writes s d st bs ∧
    bstate s' [] ∧ lh_n (flog s') = 0 ∧
    ∀ b, ¬ (st ≤ b < st + LOGSIZE) →
      content s' d b = content s d b ∧ disk s' d b = content s d b ∧ isdirty s' d b = false.
Proof.
  intros HT. pose proof (tx_area _ _ _ _ HT) as HA.
  pose proof (area_dev _ _ _ _ HA) as Hd.
  destruct (commit_run s d st bs) as (s' & Hr & HS & Hl & HW & _); [apply HT..|].
  exists s'. split; [done|]. split; [apply HW|]. split; [done|]. split; [by rewrite Hl|].
  intros b Hb. assert (HD : disk s' d b = content s d b).
  { rewrite (wr_disk _ _ _ HW). by apply commit_final. }
  assert (Hnd : isdirty s' d b = false).
  { rewrite (wr_dirty _ _ _ HW) by done. destruct (isdirty s d b) eqn:Hbd; [|done].
    apply HT in Hbd. rewrite bool_decide_eq_true_2; [done|]. unfold commit_writes.
    rewrite !map_app, !elem_of_app. right; right; left. rewrite map_map. cbn [fst].
    by apply (list_elem_of_fmap_2 (λ b, (d, b))). }
  split; [|done]. rewrite <- HD. destruct (clean_or_dirty s' [] d b HS Hd) as [Hx|Hx]; [|congruence|done].
  intros i _. apply not_elem_of_nil.
Qed.

(** [commit] with the log as the last operation leaves it. *)
Lemma txn_updl s d st bs f :
  (l_dev (f (flog s)) = l_dev (flog s)) → (l_start (f (flog s)) = l_start (flog s)) →
  (lh_n (f (flog s)) = lh_n (flog s)) → (lh_block (f (flog s)) = lh_block (flog s)) →
  txn s d st bs → txn (updl f s) d st bs.
Proof.
  intros H1 H2 H3 H4 [[A1 A2 A3 A4 A5 A6 A7] T1 T2 T3 T4 T5 T6]. split; try done.
  - split; cbn; try congruence. unfold logged. by rewrite H3, H4.
  - by apply bstate_updl.
Qed.

Lemma end_op_run s d st bs :
  txn s d st bs → outstanding (flog s) = 1 → committing (flog s) = 0 →
  ∃ s', end_op s = Done ((), s') ∧ bstate s' [] ∧
    flog s' = set_committing 0 (set_lh_n 0 (set_committing 1 (set_outstanding 0 (flog s)))) ∧
    wrote s s' (commit_writes s d st bs) ∧ fs_same s s'.
Proof.
  intros HT Ho Hc.
  set (s1 := updl (set_committing 1) (updl (λ l, set_outstanding (outstanding l - 1) l) s)).
  assert (HT1 : txn s1 d st bs) by (by apply txn_updl; [..|apply txn_updl]).
  destruct (commit_run s1 d st bs) as (s2 & Hr & HS & Hl & HW & Hsame); [apply HT1..|].
  exists (updl (set_committing 0) s2). split; [|split; [by apply bstate_updl|split; [|split]]].
  - unfold end_op. rewrite run_modS, run_gets. cbn. rewrite Hc, Ho. cbn.
    change ((_ ← commit; modS (updl (set_committing 0))) s1 = Done ((), updl (set_committing 0) s2)).
    by rewrite (bind_done _ _ _ _ _ Hr).
  - cbn. rewrite Hl. cbn. by rewrite Ho.
  - apply wrote_updl_r. do 2 apply wrote_updl_l in HW. exact HW.
  - eapply fs_same_trans; [|apply fs_same_updl]. eapply fs_same_trans; [|exact Hsame]. done.
Qed.

(** the [end_op] of the last operation commits: it returns with no operation
    outstanding, the log empty, and every home block on disk as the cache has
    it. *)
Theorem end_op_commits s d st bs :
  txn s d st bs → outstanding (flog s) = 1 → committing (flog s) = 0 →
  ∃ s', end_op s = Done ((), s') ∧ bstate s' [] ∧
    outstanding (flog s') = 0 ∧ committing (flog s') = 0 ∧ lh_n (flog s') = 0 ∧
    ∀ b, ¬ (st ≤ b < st + LOGSIZE) → disk s' d b = content s d b.
Proof.
  intros HT Ho Hc. destruct (end_op_run s d st bs HT Ho Hc) as (s' & Hr & HS & Hl & HW & _).
  exists s'. rewrite Hl. do 5 (split; [done|]). intros b Hb.
  rewrite (wr_disk _ _ _ HW). by apply commit_final.
Qed.

(** C30: the log holds one device number for all its blocks: a dirty block of
    another device than [log.dev] is not written by [commit], stays dirty, and
    its number is dropped from the log.  Both devices are passed to [initlog],
    so after boot this is every block of the root device. *)
Theorem commit_skips_other_device s d st bs d' b :
  log_area (flog s) d st bs → bstate s [] → (length (dirty_bufs s) < NBUF - 1)%nat → bs ≠ [] →
  d' ≠ d → d' ≠ 0 → isdirty s d' b = true →
  ∃ s', commit s = Done ((), s') ∧ disk s' d' b = disk s d' b ∧ isdirty s' d' b = true ∧
    logged (flog s') = [].
Proof.
  intros HA HS Hn Hne Hd' Hd0 Hdirty.
  destruct (commit_run s d st bs HA HS Hn Hne) as (s' & Hr & HS' & Hl & HW & _).
  assert (Hout : (d', b) ∉ map fst (commit_writes s d st bs)).
  { unfold commit_writes, log_writes. rewrite !map_app, !map_map, !elem_of_app. cbn [fst map].
    rewrite !list_elem_of_singleton, !list_elem_of_fmap. naive_solver. }
  exists s'. split; [done|]. split; [by rewrite (wr_disk _ _ _ HW); apply apply_writes_out|].
  split; [|by rewrite Hl]. rewrite (wr_dirty _ _ _ HW), Hdirty by done.
  by rewrite bool_decide_eq_false_2.
Qed.

(** ** Concrete states *)

(** Block 100 of device [dv] is dirty in a cache that holds nothing else; the
    log of device [d] starts at block 2. *)
Definition one_dirty (dv d n : Z) : fsys :=
  set_flog (Log 2 30 1 0 d n (100 :: repeat 0 29))
    (updb 0 (λ _, Buf (Z.lor B_VALID B_DIRTY) dv 100 false 0 0 (λ _, 7)) cold_fs).

Lemma one_dirty_state dv d n : dv = 1 ∨ dv = 2 → bstate (one_dirty dv d n) [].
Proof.
  intros Hdv. unfold one_dirty.
  assert (Hb : ∀ i, bufs (one_dirty dv d n) i = if decide (i = O)
    then Buf (Z.lor B_VALID B_DIRTY) dv 100 false 0 0 (λ _, 7) else cold_buf).
  { intros i. change (bufs (one_dirty dv d n)) with
      (bufs (updb 0 (λ _, Buf (Z.lor B_VALID B_DIRTY) dv 100 false 0 0 (λ _, 7)) cold_fs)).
    rewrite bufs_updb. case_decide as H1; case_decide as H2; subst; done. }
  unfold one_dirty in Hb. split; [split|by intros i Hi%elem_of_nil|].
  - done.
  - intros i j _ _. rewrite !Hb. repeat case_decide; subst; try done.
  - intros i _. rewrite Hb. case_decide; [by right; right|by left].
  - intros i _. rewrite Hb. by case_decide.
  - intros i _. rewrite Hb. by case_decide.
  - intros i _. rewrite Hb. by case_decide.
  - intros i _. rewrite Hb. case_decide; [|done]. intros _. cbn. lia.
  - intros i _ _. rewrite Hb. by case_decide.
Qed.

Lemma one_dirty_area dv d : d = 1 ∨ d = 2 → log_area (flog (one_dirty dv d 1)) d 2 [100].
Proof.
  intros Hd. split; [done..|unfold LOGSIZE; cbn; lia| |].
  - unfold on_disk, FSSIZE, LOGSIZE. split; (split; [exact Hd|lia]).
  - constructor; [|constructor]. unfold on_disk, FSSIZE, LOGSIZE. split; [split; [exact Hd|lia]|lia].
Qed.

Lemma one_dirty_txn : txn (one_dirty 1 1 1) 1 2 [100].
Proof.
  split.
  - apply one_dirty_area. by left.
  - apply one_dirty_state. by left.
  - vm_compute. lia.
  - done.
  - apply NoDup_singleton.
  - intros b. unfold isdirty. pose proof (one_dirty_state 1 1 1 ltac:(by left)) as [HI _ _].
    destruct (cached 1 b (one_dirty 1 1 1)) as [i|] eqn:Hc; [|done].
    destruct (cached_some _ _ _ _ HI Hc) as (_ & Hd & Hb).
    destruct (decide (i = O)) as [->|Hi]; [|].
    + change (b_blockno (bufs (one_dirty 1 1 1) O)) with 100 in Hb. subst b. by constructor.
    + change (bufs (one_dirty 1 1 1) i) with
        (bufs (updb 0 (λ _, Buf (Z.lor B_VALID B_DIRTY) 1 100 false 0 0 (λ _, 7)) cold_fs) i) in Hd.
      rewrite updb_ne in Hd by done. done.
  - done.
Qed.

(** The machine after a crash: a cold cache over the disk [D]. *)
Definition reboot (D : Z → Z → mem) : fsys := set_disk D cold_fs.

Lemma reboot_fresh D : fresh (reboot D) 1 2.
Proof.
  split; [|done| |done|done].
  2: { intros d b _. unfold content. by destruct (cached d b (reboot D)). }
  split; [split|by intros i Hi%elem_of_nil|done]; try done. intros i Hi. by left.
Qed.


Lemma commit_write_order_witness :
  ∃ s', commit (one_dirty 1 1 1) = Done ((), s') ∧
    map (λ w, (w.1, w.2 0)) (writes s') = [(1, 3, 7); (1, 2, 1); (1, 100, 7); (1, 2, 0)].
Proof.
  destruct (commit_write_order _ 1 2 [100] one_dirty_txn) as (s' & Hr & Hw & _).
  exists s'. split; [exact Hr|]. rewrite Hw. vm_compute. reflexivity.
Defined.

Lemma end_op_commits_witness :
  ∃ s', end_op (one_dirty 1 1 1) = Done ((), s') ∧ disk s' 1 100 0 = 7.
Proof.
  destruct (end_op_commits _ 1 2 [100] one_dirty_txn eq_refl eq_refl) as (s' & Hr & _ & _ & _ & _ & Hb).
  exists s'. split; [exact Hr|]. rewrite (Hb 100) by (unfold LOGSIZE; lia). done.
Defined.

Lemma commit_skips_other_device_witness :
  ∃ s', commit (one_dirty 1 2 1) = Done ((), s') ∧ disk s' 1 100 0 = 0 ∧ isdirty s' 1 100 = true ∧
    logged (flog s') = [].
Proof.
  destruct (commit_skips_other_device (one_dirty 1 2 1) 2 2 [100] 1 100) as (s' & Hr & Hd & Hr').
  - apply one_dirty_area. by right.
  - apply one_dirty_state. by left.
  - vm_compute. lia.
  - done.
  - done.
  - done.
  - vm_compute. reflexivity.
  - exists s'. split; [exact Hr|]. rewrite Hd. exact (conj eq_refl Hr').
Defined.

(** Block 100 read into a cold cache and held. *)
Definition reading : fsys :=
  set_flog (Log 2 30 1 0 1 0 (repeat 0 30))
    match bread 1 100 cold_fs with Done (_, s) => s | _ => cold_fs end.

Lemma log_write_records_witness :
  ∃ i s', bread 1 100 cold_fs = Done (i, set_flog (flog cold_fs) reading) ∧
    log_write i reading = Done ((), s') ∧ logged (flog s') = [100] ∧ isdirty s' 1 100 = true.
Proof.
  destruct (bread_run cold_fs [] 1 100 cold_fs_state) as (i & s1 & Hr & _ & HS & Hi & Hs & _).
  { split; [by left|unfold FSSIZE; lia]. } { intros i _. apply not_elem_of_nil. } { vm_compute. lia. }
  assert (E : reading = updl (λ _, Log 2 30 1 0 1 0 (repeat 0 30)) s1).
  { unfold reading. rewrite Hr. done. }
  exists i. rewrite E.
  destruct (log_write_records (updl (λ _, Log 2 30 1 0 1 0 (repeat 0 30)) s1) [i] i 1 100
    (content cold_fs 1 100)) as (s' & Hl & _ & _ & _ & HW).
  - by apply bstate_updl.
  - by constructor.
  - done.
  - destruct Hi. by split.
  - done.
  - done.
  - done.
  - done.
  - exists s'. split; [rewrite Hr; do 2 f_equal; destruct Hs as [_ _ _ _ _ [Hf _]]|].
    { rewrite <- Hf. by destruct s1. }
    split; [exact Hl|]. destruct (lw_log _ _ _ _ HW) as (_ & -> & _). split; [done|].
    rewrite (lw_dirty _ _ _ _ HW) by done. done.
Defined.
