(* ===== verification/Fs.v ===== *)
(** * The file system: kernel/fs/fs.c

    Block and inode allocation, inode contents, directories and paths, over the
    cache of Bio.v and the log of Log.v.  Inodes are indices: those below
    [NINODE] are [icache], the others [icache2].  Paths are lists of bytes
    without their final zero; [name] and [struct dirent] buffers are memories
    from address 0.  The device switch is an argument. *)
From stdpp Require Import base decidable option list functions numbers strings sets.
From Stdlib Require Import ZArith Lia.
From S2P Require Import Prelude CString FsDefs Bio Log.

Local Open Scope Z_scope.

(** ** The layout of the disk *)

(** The super block the code selects for a device. *)
Definition the_sb (dev : Z) (s : fsys) : superblock := if dev =? 2 then fsb2 s else fsb s.
Definition IBLOCK (i : Z) (sb : superblock) : Z := u32 (i / IPB + sb_inodestart sb).
Definition BBLOCK (b : Z) (sb : superblock) : Z := u32 (b / BPB + sb_bmapstart sb).

(** [struct dinode] [inum % IPB] of an inode block starts here; it has the
    shorts type, major, minor and nlink, then the words size and addrs. *)
Definition dip (inum : Z) : Z := inum mod IPB * 64.
Definition get_type (m : mem) (inum : Z) : Z := s16 (load16 m (dip inum)).

(** [ip->f = dip->f] *)
Definition get_dinode (m : mem) (inum : Z) (ip : inode) : inode :=
  let a := dip inum in
  set_i_addrs (map (λ k, load32 m (a + 12 + 4 * Z.of_nat k)) (seq 0 13))
    (set_i_size (load32 m (a + 8))
      (set_i_nlink (s16 (load16 m (a + 6)))
        (set_i_minor (s16 (load16 m (a + 4)))
          (set_i_major (s16 (load16 m (a + 2)))
            (set_i_type (s16 (load16 m a)) ip))))).

Fixpoint put_words (m : mem) (a : Z) (ws : list Z) : mem :=
  match ws with
  | [] => m
  | w :: ws => put_words (store32 m a w) (a + 4) ws
  end.

Lemma put_words_out ws : ∀ m a x, ¬ (a ≤ x < a + 4 * Z.of_nat (length ws)) → put_words m a ws x = m x.
Proof.
  induction ws as [|w ws IH]; intros m a x Hx; [done|]. cbn [length] in Hx. cbn [put_words].
  rewrite IH by lia. apply store32_out. lia.
Qed.

Lemma put_words_load ws : ∀ m a k w, ws !! k = Some w →
  load32 (put_words m a ws) (a + 4 * Z.of_nat k) = u32 w.
Proof.
  induction ws as [|w ws IH]; intros m a k v Hk; [done|]. cbn [put_words]. destruct k as [|k].
  - injection Hk as ->. rewrite <- (load32_store32 m a v), Z.add_0_r.
    apply load32_ext. intros x Hx. apply put_words_out. lia.
  - rewrite <- (IH (store32 m a w) (a + 4) k v Hk). f_equal. lia.
Qed.

(** [dip->f = ip->f] *)
Definition put_dinode (m : mem) (inum : Z) (ip : inode) : mem :=
  let a := dip inum in
  let m := store16 m a (i_type ip) in
  let m := store16 m (a + 2) (i_major ip) in
  let m := store16 m (a + 4) (i_minor ip) in
  let m := store16 m (a + 6) (i_nlink ip) in
  let m := store32 m (a + 8) (i_size ip) in
  put_words m (a + 12) (i_addrs ip).

(** ** Blocks *)

Definition bzero (dev bno : Z) : M fsys () :=
  bp ← bread dev bno;
  _ ← modS (updb bp (λ b, set_b_data (memset (b_data b) 0 0 BSIZE) b));
  _ ← log_write bp;
  brelse bp.

(** [bp->data[bi/8] & m], [|= m] and [&= ~m] for [m = 1 << (bi % 8)] *)
Definition bit_used (m : mem) (bi : Z) : bool := c_true (Z.land (m (bi / 8)) (1 ≪ (bi mod 8))).
Definition bit_set (m : mem) (bi : Z) : mem := store8 m (bi / 8) (Z.lor (m (bi / 8)) (1 ≪ (bi mod 8))).
Definition bit_clear (m : mem) (bi : Z) : mem :=
  store8 m (bi / 8) (Z.land (m (bi / 8)) (Z.lnot (1 ≪ (bi mod 8)))).

(** The inner loop: the first free bit of the map block for [b ..]. *)
Definition first_free (m : mem) (b size : Z) : option Z :=
  List.find (λ bi, negb (bit_used m bi)) (map Z.of_nat (seq 0 (Z.to_nat (BPB `min` (size - b))))).

Fixpoint balloc_loop (dev : Z) (bs : list Z) : M fsys Z :=
  match bs with
  | [] => panic "balloc: out of blocks"
  | b :: bs =>
      sb ← gets (the_sb dev);
      bp ← bread dev (BBLOCK b sb);
      m ← gets (λ s, b_data (bufs s bp));
      match first_free m b (sb_size sb) with
      | Some bi =>
          _ ← modS (updb bp (λ b, set_b_data (bit_set (b_data b) bi) b));
          _ ← log_write bp;
          _ ← brelse bp;
          _ ← bzero dev (b + bi);
          mret (b + bi)
      | None => _ ← brelse bp; balloc_loop dev bs
      end
  end.

(** [for (b = 0; b < sb.size; b += BPB)] *)
Definition balloc (dev : Z) : M fsys Z :=
  sb ← gets (the_sb dev);
  balloc_loop dev (map (λ k, Z.of_nat k * BPB) (seq 0 (Z.to_nat ((sb_size sb + BPB - 1) / BPB)))).

Definition bfree (dev b : Z) : M fsys () :=
  sb ← gets (the_sb dev);
  bp ← bread dev (BBLOCK b sb);
  m ← gets (λ s, b_data (bufs s bp));
  let bi := b mod BPB in
  if negb (bit_used m bi) then panic "freeing free block"
  else
    _ ← modS (updb bp (λ b, set_b_data (bit_clear (b_data b) bi) b));
    _ ← log_write bp;
    brelse bp.

(** ** Inodes *)

(** The first entry of the cache a device uses. *)
Definition icache (dev : Z) : nat := if dev =? 2 then NINODE else O.

Definition init_inode_locks (dev : Z) : M fsys () :=
  mfor (seq (icache dev) NINODE) (λ i,
    _ ← modS (updi i (set_i_locked false));
    modS (updi i (set_i_pid 0))).

Definition iinit (dev sbnum : Z) : M fsys () :=
  if dev =? 1 then
    _ ← init_inode_locks dev;
    sb ← readsb dev;
    modS (set_fsb sb)
  else if dev =? 2 then
    _ ← init_inode_locks dev;
    sb ← readsb dev;
    modS (set_fsb2 sb)
  else mret ().

Definition iget (dev inum : Z) : M fsys nat :=
  s ← getS;
  let slots := seq (icache dev) NINODE in
  match List.find (λ i, (0 <? i_ref (inodes s i)) && (i_dev (inodes s i) =? dev) &&
                        (i_inum (inodes s i) =? inum)) slots with
  | Some i => _ ← modS (updi i (λ ip, set_i_ref (s32 (i_ref ip + 1)) ip)); mret i
  | None =>
      match List.find (λ i, i_ref (inodes s i) =? 0) slots with
      | None => panic "iget: no inodes"
      | Some i =>
          _ ← modS (updi i (set_i_dev dev));
          _ ← modS (updi i (set_i_inum inum));
          _ ← modS (updi i (set_i_ref 1));
          _ ← modS (updi i (set_i_valid 0));
          mret i
      end
  end.

Fixpoint ialloc_loop (dev type : Z) (inums : list Z) : M fsys nat :=
  match inums with
  | [] => panic "ialloc: no inodes"
  | inum :: inums =>
      sb ← gets (the_sb dev);
      bp ← bread dev (IBLOCK inum sb);
      m ← gets (λ s, b_data (bufs s bp));
      if get_type m inum =? 0 then
        _ ← modS (updb bp (λ b, set_b_data
               (store16 (memset (b_data b) (dip inum) 0 64) (dip inum) type) b));
        _ ← log_write bp;
        _ ← brelse bp;
        iget dev inum
      else
        _ ← brelse bp;
        ialloc_loop dev type inums
  end.

Definition ialloc (dev type : Z) : M fsys nat :=
  sb ← gets (the_sb dev);
  ialloc_loop dev type (map Z.of_nat (seq 1 (Z.to_nat (sb_ninodes sb - 1)))).

Definition iupdate (ip : nat) : M fsys () :=
  s ← getS;
  let i := inodes s ip in
  if i_mount i =? 1 then mret ()
  else
    bp ← bread (i_dev i) (IBLOCK (i_inum i) (the_sb (i_dev i) s));
    _ ← modS (updb bp (λ b, set_b_data (put_dinode (b_data b) (i_inum i) i) b));
    _ ← log_write bp;
    brelse bp.

Definition idup (ip : nat) : M fsys nat :=
  _ ← modS (updi ip (λ i, set_i_ref (s32 (i_ref i + 1)) i));
  mret ip.

(** [acquiresleep], [holdingsleep] and [releasesleep] on an inode's lock. *)
Definition acquire_inode (ip : nat) : M fsys () :=
  s ← getS;
  if i_locked (inodes s ip) then hang
  else
    _ ← modS (updi ip (set_i_locked true));
    modS (updi ip (set_i_pid (mypid s))).

Definition holding_inode (ip : nat) (s : fsys) : bool :=
  i_locked (inodes s ip) && (i_pid (inodes s ip) =? mypid s).

Definition release_inode (ip : nat) : M fsys () :=
  _ ← modS (updi ip (set_i_locked false));
  modS (updi ip (set_i_pid 0)).

Definition ilock (ip : option nat) : M fsys () :=
  match ip with
  | None => panic "ilock"
  | Some ip =>
      s ← getS;
      if i_ref (inodes s ip) <? 1 then panic "ilock"
      else
        _ ← acquire_inode ip;
        s ← getS;
        let i := inodes s ip in
        if i_valid i =? 0 then
          bp ← bread (i_dev i) (IBLOCK (i_inum i) (the_sb (i_dev i) s));
          m ← gets (λ s, b_data (bufs s bp));
          _ ← modS (updi ip (get_dinode m (i_inum i)));
          _ ← brelse bp;
          _ ← modS (updi ip (set_i_valid 1));
          s ← getS;
          if i_type (inodes s ip) =? 0 then panic "ilock: no type" else mret ()
        else mret ()
  end.

Definition iunlock (ip : option nat) : M fsys () :=
  match ip with
  | None => panic "iunlock"
  | Some ip =>
      s ← getS;
      if negb (holding_inode ip s) || (i_ref (inodes s ip) <? 1) then panic "iunlock"
      else release_inode ip
  end.

(** [itrunc]: the direct blocks, the blocks of the indirect block, the indirect
    block. *)
Definition itrunc (ip : nat) : M fsys () :=
  _ ← mfor (seq 0 (Z.to_nat NDIRECT)) (λ k,
    s ← getS;
    let i := inodes s ip in
    let a := nth k (i_addrs i) 0 in
    if c_true a then
      _ ← bfree (i_dev i) a;
      modS (updi ip (λ i, set_i_addrs (<[k := 0]> (i_addrs i)) i))
    else mret ());
  s ← getS;
  let i := inodes s ip in
  let nd := Z.to_nat NDIRECT in
  _ ← (if c_true (nth nd (i_addrs i) 0) then
         bp ← bread (i_dev i) (nth nd (i_addrs i) 0);
         _ ← mfor (seq 0 (Z.to_nat NINDIRECT)) (λ j,
           a ← gets (λ s, load32 (b_data (bufs s bp)) (4 * Z.of_nat j));
           if c_true a then bfree (i_dev i) a else mret ());
         _ ← brelse bp;
         _ ← bfree (i_dev i) (nth nd (i_addrs i) 0);
         modS (updi ip (λ i, set_i_addrs (<[nd := 0]> (i_addrs i)) i))
       else mret ());
  _ ← modS (updi ip (set_i_size 0));
  iupdate ip.

Definition iput (ip : nat) : M fsys () :=
  _ ← acquire_inode ip;
  s ← getS;
  let i := inodes s ip in
  _ ← (if c_true (i_valid i) && (i_nlink i =? 0) then
         if i_ref i =? 1 then
           _ ← itrunc ip;
           _ ← modS (updi ip (set_i_type 0));
           _ ← iupdate ip;
           modS (updi ip (set_i_valid 0))
         else mret ()
       else mret ());
  _ ← release_inode ip;
  modS (updi ip (λ i, set_i_ref (s32 (i_ref i - 1)) i)).

Definition iunlockput (ip : nat) : M fsys () :=
  _ ← iunlock (Some ip);
  iput ip.

Definition iputmount (ip : nat) : M fsys Z :=
  s ← getS;
  if 1 <? i_ref (inodes s ip) then mret (-1)
  else _ ← iput ip; mret 0.

(** ** Inode content *)

Definition bmap (ip : nat) (bn : Z) : M fsys Z :=
  s ← getS;
  let i := inodes s ip in
  if bn <? NDIRECT then
    let addr := nth (Z.to_nat bn) (i_addrs i) 0 in
    if addr =? 0 then
      a ← balloc (i_dev i);
      _ ← modS (updi ip (λ i, set_i_addrs (<[Z.to_nat bn := a]> (i_addrs i)) i));
      mret a
    else mret addr
  else
    let bn := bn - NDIRECT in
    if bn <? NINDIRECT then
      let nd := Z.to_nat NDIRECT in
      let addr := nth nd (i_addrs i) 0 in
      addr ← (if addr =? 0 then
                a ← balloc (i_dev i);
                _ ← modS (updi ip (λ i, set_i_addrs (<[nd := a]> (i_addrs i)) i));
                mret a
              else mret addr);
      bp ← bread (i_dev i) addr;
      m ← gets (λ s, b_data (bufs s bp));
      let addr := load32 m (4 * bn) in
      addr ← (if addr =? 0 then
                a ← balloc (i_dev i);
                _ ← modS (updb bp (λ b, set_b_data (store32 (b_data b) (4 * bn) a) b));
                _ ← log_write bp;
                mret a
              else mret addr);
      _ ← brelse bp;
      mret addr
    else panic "bmap: out of range".

(** [struct stat] *)
Record stat := Stat { st_type : Z; st_dev : Z; st_ino : Z; st_nlink : Z; st_size : Z }.

Definition stat_of (i : inode) : stat := Stat (i_type i) (i_dev i) (i_inum i) (i_nlink i) (i_size i).

Definition stati (ip : nat) (st : stat) : M fsys stat :=
  s ← getS;
  st ← (if c_true (i_mount (inodes s ip))
        then r ← deref (mount_root s); mret (stat_of (inodes s r))
        else mret st);
  mret (stat_of (inodes s ip)).

Section devices.
(** [devsw[major].read] and [.write]: the inode, the memory, the address in it
    and the length. *)
Context (dev_read : Z → option (nat → mem → Z → Z → M fsys (Z * mem))).
Context (dev_write : Z → option (nat → mem → Z → Z → M fsys Z)).

(** [min(n - tot, BSIZE - off % BSIZE)] *)
Definition chunk (rest off : Z) : Z := rest `min` (BSIZE - off mod BSIZE).

(** [memmove(dst, bp->data + o, m)] from another array. *)
Definition copy_in (m : mem) (dst : Z) (src : mem) (o n : Z) : mem :=
  λ a, if (dst <=? a) && (a <? dst + n) then src (o + (a - dst)) else m a.

(** The loop of [readi]: [rest] is [n - tot]. *)
Fixpoint readi_loop (fuel : nat) (ip : nat) (m : mem) (dst off rest : Z) : M fsys mem :=
  if rest <=? 0 then mret m
  else
    match fuel with
    | O => no_fuel
    | S fuel =>
        s ← getS;
        a ← bmap ip (off / BSIZE);
        bp ← bread (i_dev (inodes s ip)) a;
        d ← gets (λ s, b_data (bufs s bp));
        let k := chunk rest off in
        _ ← brelse bp;
        readi_loop fuel ip (copy_in m dst d (off mod BSIZE) k) (dst + k) (off + k) (rest - k)
    end.

Definition readi (ip : nat) (m : mem) (dst off n : Z) : M fsys (Z * mem) :=
  s ← getS;
  let i := inodes s ip in
  if i_type i =? T_DEV then
    if (i_major i <? 0) || (NDEV <=? i_major i) then mret (-1, m)
    else
      match dev_read (i_major i) with
      | None => mret (-1, m)
      | Some rd => rd ip m dst (s32 n)
      end
  else if (i_size i <? off) || (u32 (off + n) <? off) then mret (-1, m)
  else
    let n := if i_size i <? off + n then i_size i - off else n in
    m ← readi_loop (Z.to_nat n) ip m dst off n;
    mret (s32 n, m).

Fixpoint writei_loop (fuel : nat) (ip : nat) (m : mem) (src off rest : Z) : M fsys () :=
  if rest <=? 0 then mret ()
  else
    match fuel with
    | O => no_fuel
    | S fuel =>
        s ← getS;
        a ← bmap ip (off / BSIZE);
        bp ← bread (i_dev (inodes s ip)) a;
        let k := chunk rest off in
        _ ← modS (updb bp (λ b, set_b_data (copy_in (b_data b) (off mod BSIZE) m src k) b));
        _ ← log_write bp;
        _ ← brelse bp;
        writei_loop fuel ip m (src + k) (off + k) (rest - k)
    end.

Definition writei (ip : nat) (m : mem) (src off n : Z) : M fsys Z :=
  s ← getS;
  let i := inodes s ip in
  if i_type i =? T_DEV then
    if (i_major i <? 0) || (NDEV <=? i_major i) then mret (-1)
    else
      match dev_write (i_major i) with
      | None => mret (-1)
      | Some wr => wr ip m src (s32 n)
      end
  else if (i_size i <? off) || (u32 (off + n) <? off) then mret (-1)
  else if MAXFILE * BSIZE <? off + n then mret (-1)
  else
    _ ← writei_loop (Z.to_nat n) ip m src off n;
    s ← getS;
    _ ← (if (0 <? n) && (i_size (inodes s ip) <? off + n) then
           _ ← modS (updi ip (set_i_size (off + n)));
           iupdate ip
         else mret ());
    mret (s32 n).

(** ** Directories *)

(** [strncmp(s, t, DIRSIZ)] of the buffers [s] and [t]. *)
Definition namecmp (s t : mem) : Z :=
  strncmp (λ a, if a <? DIRSIZ then s a else t (a - DIRSIZ)) 0 DIRSIZ (Z.to_nat DIRSIZ).

(** [struct dirent]: the inode number, then the name. *)
Definition de_inum (de : mem) : Z := load16 de 0.
Definition de_name (de : mem) : mem := λ a, de (2 + a).
Definition DESIZE : Z := 16.

(** The offsets of a loop [for (off = 0; off < size; off += sizeof(de))]. *)
Definition de_offsets (size : Z) : list Z :=
  map (λ k, Z.of_nat k * DESIZE) (seq 0 (Z.to_nat ((size + DESIZE - 1) / DESIZE))).

Definition zero_mem : mem := λ _, 0.

Fixpoint dirlookup_loop (dp : nat) (name : mem) (offs : list Z) : M fsys (option (nat * Z)) :=
  match offs with
  | [] => mret None
  | off :: offs =>
      '(r, de) ← readi dp zero_mem 0 off DESIZE;
      if negb (r =? DESIZE) then panic "dirlookup read"
      else if de_inum de =? 0 then dirlookup_loop dp name offs
      else if namecmp name (de_name de) =? 0 then
        s ← getS;
        ip ← iget (i_dev (inodes s dp)) (de_inum de);
        mret (Some (ip, off))
      else dirlookup_loop dp name offs
  end.

(** The mount root, for a mount point. *)
Definition cross_mount (dp : nat) : M fsys nat :=
  s ← getS;
  if c_true (i_mount (inodes s dp)) then deref (mount_root s) else mret dp.

(** The inode found, with the value for [*poff]. *)
Definition dirlookup (dp : nat) (name : mem) (leaving_mount : bool) : M fsys (option (nat * Z)) :=
  dp ← (if leaving_mount then mret dp else cross_mount dp);
  s ← getS;
  if negb (i_type (inodes s dp) =? T_DIR) then panic "dirlookup not DIR"
  else dirlookup_loop dp name (de_offsets (i_size (inodes s dp))).

(** The loop of [dirlink] for an empty entry: its offset, and [de] as last read. *)
Fixpoint free_entry (dp : nat) (de : mem) (offs : list Z) (end_ : Z) : M fsys (Z * mem) :=
  match offs with
  | [] => mret (end_, de)
  | off :: offs =>
      '(r, de) ← readi dp de 0 off DESIZE;
      if negb (r =? DESIZE) then panic "dirlink read"
      else if de_inum de =? 0 then mret (off, de)
      else free_entry dp de offs end_
  end.

(** [strncpy(de.name, name, DIRSIZ); de.inum = inum] *)
Definition put_entry (de : mem) (name : mem) (inum : Z) : mem :=
  let w := strncpy (λ a, if a <? DESIZE then de a else name (a - DESIZE)) 2 DESIZE DIRSIZ in
  store16 w 0 inum.

Definition dirlink (dp : nat) (name : mem) (inum : Z) : M fsys Z :=
  dp ← cross_mount dp;
  r ← dirlookup dp name false;
  match r with
  | Some (ip, _) => _ ← iput ip; mret (-1)
  | None =>
      s ← getS;
      let offs := de_offsets (i_size (inodes s dp)) in
      '(off, de) ← free_entry dp zero_mem offs (Z.of_nat (length offs) * DESIZE);
      _ ← modS (updi dp (set_i_type 1));
      r ← writei dp (put_entry de name inum) 0 off DESIZE;
      if negb (r =? DESIZE) then panic "dirlink"
      else _ ← iupdate dp; mret 0
  end.

(** ** Paths *)

Definition SLASH : Z := 47.
Definition DOT : Z := 46.

(** The loops that skip slashes. *)
Fixpoint skip_slashes (path : list Z) : list Z :=
  match path with
  | c :: p => if c =? SLASH then skip_slashes p else path
  | [] => []
  end.

(** The loop to the next slash or the end: the element and what follows. *)
Fixpoint span_elem (path : list Z) : list Z * list Z :=
  match path with
  | c :: p => if c =? SLASH then ([], path) else let '(e, r) := span_elem p in (c :: e, r)
  | [] => ([], [])
  end.

Fixpoint put_bytes (m : mem) (a : Z) (l : list Z) : mem :=
  match l with
  | [] => m
  | c :: l => put_bytes (<[a := c]> m) (a + 1) l
  end.

Definition skipelem (path : list Z) (name : mem) : option (list Z * mem) :=
  match skip_slashes path with
  | [] => None
  | p =>
      let '(e, rest) := span_elem p in
      let len := Z.of_nat (length e) in
      let name := if DIRSIZ <=? len then put_bytes name 0 (take (Z.to_nat DIRSIZ) e)
                  else <[len := 0]> (put_bytes name 0 e) in
      Some (skip_slashes rest, name)
  end.

(** The loop of [namex]; the result has the buffer [name]. *)
Fixpoint namex_loop (fuel : nat) (ip : nat) (path : list Z) (parent : bool) (name : mem)
  : M fsys (option nat * mem) :=
  match skipelem path name with
  | None =>
      if parent then _ ← iput ip; mret (None, name)
      else mret (Some ip, name)
  | Some (path, name) =>
      match fuel with
      | O => no_fuel
      | S fuel =>
          _ ← ilock (Some ip);
          s ← getS;
          if negb (i_type (inodes s ip) =? T_DIR) then
            _ ← iunlockput ip; mret (None, name)
          else if parent && bool_decide (path = []) then
            _ ← iunlock (Some ip); mret (Some ip, name)
          else
            r ← dirlookup ip name true;
            match r with
            | None => _ ← iunlockput ip; mret (None, name)
            | Some (next, _) =>
                s ← getS;
                next ← (if negb parent && c_true (i_mount (inodes s next))
                        then r ← deref (mount_root s); idup r
                        else mret next);
                _ ← iunlockput ip;
                namex_loop fuel next path parent name
            end
      end
  end.

Definition namex (dev : Z) (path : list Z) (parent : bool) (name : mem) : M fsys (option nat * mem) :=
  ip ← (if bool_decide (nth 0 path 0 = SLASH) then iget dev ROOTINO
        else c ← gets mycwd; c ← deref c; idup c);
  namex_loop (length path) ip path parent name.

Definition dotdot2 : list Z := [DOT; DOT; SLASH; DOT; DOT].

(** [namei]: the path [..] from the root of a mounted device goes through the
    mount point. *)
Definition namei (dev : Z) (path : list Z) : M fsys (option nat) :=
  s ← getS;
  dev ← (if dev =? 0 then c ← deref (mycwd s); mret (i_dev (inodes s c)) else mret dev);
  up ← (if (1 <? dev) && (nth 0 path 0 =? DOT) && (nth 1 path 0 =? DOT)
        then c ← deref (mycwd s); mret (i_inum (inodes s c) =? ROOTINO) else mret false);
  if (up : bool) then
    old_cwd ← deref (mycwd s);
    _ ← modS (set_mycwd (mount_point s));
    _ ← iput old_cwd;
    '(new, _) ← namex 1 dotdot2 true zero_mem;
    _ ← modS (set_mycwd new);
    _ ← iput old_cwd;
    mret new
  else
    '(ip, _) ← namex dev path false zero_mem;
    mret ip.

Definition nameiparent (dev : Z) (path : list Z) (name : mem) : M fsys (option nat * mem) :=
  namex dev path true name.
End devices.

(** ** Termination *)

Lemma chunk_bounds rest off : 0 < rest → 1 ≤ chunk rest off ≤ rest.
Proof. intros Hr. unfold chunk, BSIZE. pose proof (Z.mod_pos_bound off 512). lia. Qed.

Lemma term_bzero dev b : terminates (bzero dev b).
Proof. unfold bzero. terminate. Qed.
#[export] Hint Resolve term_bzero : term.

Lemma term_balloc dev : terminates (balloc dev).
Proof.
  unfold balloc. apply term_bind; [auto with term|]. intros sb. generalize (map (λ k, Z.of_nat k * BPB)
    (seq 0 (Z.to_nat ((sb_size sb + BPB - 1) / BPB)))). intros bs.
  induction bs as [|b bs IH]; cbn [balloc_loop]; terminate.
Qed.

Lemma term_bfree dev b : terminates (bfree dev b).
Proof. unfold bfree. terminate. Qed.

Lemma term_iget dev inum : terminates (iget dev inum).
Proof. unfold iget. terminate. Qed.

Lemma term_iupdate ip : terminates (iupdate ip).
Proof. unfold iupdate. terminate. Qed.
#[export] Hint Resolve term_balloc term_bfree term_iget term_iupdate : term.

Lemma term_ialloc dev type : terminates (ialloc dev type).
Proof.
  unfold ialloc. apply term_bind; [auto with term|]. intros sb.
  generalize (map Z.of_nat (seq 1 (Z.to_nat (sb_ninodes sb - 1)))). intros l.
  induction l as [|b l IH]; cbn [ialloc_loop]; terminate.
Qed.

Lemma term_ilock ip : terminates (ilock ip).
Proof. unfold ilock, acquire_inode. terminate. Qed.

Lemma term_iunlock ip : terminates (iunlock ip).
Proof. unfold iunlock, release_inode. terminate. Qed.

Lemma term_itrunc ip : terminates (itrunc ip).
Proof. unfold itrunc. terminate. Qed.
#[export] Hint Resolve term_ialloc term_ilock term_iunlock term_itrunc : term.

Lemma term_iput ip : terminates (iput ip).
Proof. unfold iput, acquire_inode, release_inode. terminate. Qed.

Lemma term_bmap ip bn : terminates (bmap ip bn).
Proof. unfold bmap. terminate. Qed.

Lemma term_idup ip : terminates (idup ip).
Proof. unfold idup. terminate. Qed.
#[export] Hint Resolve term_iput term_bmap term_idup : term.

Lemma term_readi_loop fuel : ∀ ip m dst off rest,
  rest ≤ Z.of_nat fuel → terminates (readi_loop fuel ip m dst off rest).
Proof.
  induction fuel as [|fuel IH]; intros ip m dst off rest Hf; cbn [readi_loop];
    destruct (Z.leb_spec rest 0) as [Hr|Hr]; [auto with term|lia|auto with term|].
  pose proof (chunk_bounds rest off Hr). terminate. apply IH. lia.
Qed.

Lemma term_writei_loop fuel : ∀ ip m src off rest,
  rest ≤ Z.of_nat fuel → terminates (writei_loop fuel ip m src off rest).
Proof.
  induction fuel as [|fuel IH]; intros ip m src off rest Hf; cbn [writei_loop];
    destruct (Z.leb_spec rest 0) as [Hr|Hr]; [auto with term|lia|auto with term|].
  pose proof (chunk_bounds rest off Hr). terminate. apply IH. lia.
Qed.

(** An element takes at least one byte of the path. *)
Lemma length_skip_slashes p : (length (skip_slashes p) ≤ length p)%nat.
Proof. induction p as [|c p IH]; cbn; [lia|]. destruct (c =? SLASH); cbn; lia. Qed.

Lemma span_elem_app p : let '(e, r) := span_elem p in p = e ++ r.
Proof.
  induction p as [|c p IH]; cbn; [done|]. destruct (c =? SLASH); [done|].
  destruct (span_elem p) as [e r]. cbn. by f_equal.
Qed.

Lemma skip_slashes_head p c q : skip_slashes p = c :: q → (c =? SLASH) = false.
Proof.
  induction p as [|x p IH]; cbn; [done|]. destruct (x =? SLASH) eqn:Hx; [done|]. by intros [= <- _].
Qed.

Lemma skipelem_shorter path name path' name' :
  skipelem path name = Some (path', name') → (length path' < length path)%nat.
Proof.
  unfold skipelem. pose proof (length_skip_slashes path) as Hl.
  destruct (skip_slashes path) as [|c p] eqn:Hp; [done|]. pose proof (skip_slashes_head _ _ _ Hp) as Hc.
  pose proof (span_elem_app (c :: p)) as Happ. cbn [span_elem] in *. rewrite Hc in *.
  destruct (span_elem p) as [e r]. intros [= <- _]. pose proof (length_skip_slashes r).
  apply (f_equal length) in Happ. cbn in Hl, Happ. rewrite length_app in Happ. lia.
Qed.

Section term_devices.
Context (dev_read : Z → option (nat → mem → Z → Z → M fsys (Z * mem))).
Context (dev_write : Z → option (nat → mem → Z → Z → M fsys Z)).
Hypothesis Hread : ∀ k f, dev_read k = Some f → ∀ ip m a n, terminates (f ip m a n).
Hypothesis Hwrite : ∀ k f, dev_write k = Some f → ∀ ip m a n, terminates (f ip m a n).

Lemma term_readi ip m dst off n : 0 ≤ n → terminates (readi dev_read ip m dst off n).
Proof using Hread.
  intros Hn. unfold readi. apply term_bind; [auto with term|]. intros s. cbv zeta.
  destruct (i_type (inodes s ip) =? T_DEV).
  { destruct (_ || _); [auto with term|]. destruct (dev_read _) as [f|] eqn:Hf; [by eapply Hread|auto with term]. }
  destruct (_ || _); [auto with term|].
  apply term_bind; [apply term_readi_loop; lia|auto with term].
Qed.

Lemma term_writei ip m src off n : 0 ≤ n → terminates (writei dev_write ip m src off n).
Proof using Hwrite.
  intros Hn. unfold writei. apply term_bind; [auto with term|]. intros s. cbv zeta.
  destruct (i_type (inodes s ip) =? T_DEV).
  { destruct (_ || _); [auto with term|]. destruct (dev_write _) as [f|] eqn:Hf; [by eapply Hwrite|auto with term]. }
  destruct (_ || _); [auto with term|]. destruct (_ <? _); [auto with term|].
  apply term_bind; [apply term_writei_loop; lia|terminate].
Qed.

Lemma term_dirlookup dp name lm : terminates (dirlookup dev_read dp name lm).
Proof using Hread.
  assert (HR : ∀ m off, terminates (readi dev_read dp m 0 off DESIZE)).
  { intros. by apply term_readi. }
  unfold dirlookup, cross_mount. terminate. generalize (de_offsets (i_size (inodes a0 a))).
  intros offs. induction offs as [|off offs IH]; cbn [dirlookup_loop]; [auto with term|].
  terminate. by apply term_readi.
Qed.

Lemma term_dirlink dp name inum : terminates (dirlink dev_read dev_write dp name inum).
Proof using Hread Hwrite.
  pose proof term_dirlookup as HD.
  assert (HW : ∀ dp m off, terminates (writei dev_write dp m 0 off DESIZE)).
  { intros. by apply term_writei. }
  assert (HF : ∀ dp offs de e, terminates (free_entry dev_read dp de offs e)).
  { intros dp' offs. induction offs as [|off offs IH]; intros de e; cbn [free_entry]; [auto with term|].
    apply term_bind; [by apply term_readi|]. terminate. }
  unfold dirlink, cross_mount. terminate.
Qed.

Lemma term_namex_loop fuel : ∀ ip path parent name,
  (length path ≤ fuel)%nat → terminates (namex_loop dev_read fuel ip path parent name).
Proof using Hread.
  pose proof term_dirlookup as HD.
  induction fuel as [|fuel IH]; intros ip path parent name Hf; cbn [namex_loop];
    destruct (skipelem path name) as [[path' name']|] eqn:Hs; try (by terminate).
  { apply skipelem_shorter in Hs. lia. }
  apply skipelem_shorter in Hs. unfold iunlockput. terminate. apply IH. lia.
Qed.

End term_devices.

(** ** Paths *)

(** The elements of a path: the non-empty parts between slashes. *)
Fixpoint split_path (p : list Z) : list (list Z) :=
  match p with
  | [] => [[]]
  | c :: p =>
      if c =? SLASH then [] :: split_path p
      else match split_path p with e :: es => (c :: e) :: es | [] => [[c]] end
  end.
Definition elems (p : list Z) : list (list Z) := filter (λ e, e ≠ []) (split_path p).

Lemma elems_skip p : elems (skip_slashes p) = elems p.
Proof.
  induction p as [|c p IH]; [done|]. cbn [skip_slashes]. destruct (c =? SLASH) eqn:Hc; [|done].
  rewrite IH. unfold elems at 2. cbn [split_path]. by rewrite Hc.
Qed.

Lemma split_span p e r :
  span_elem p = (e, r) →
  ∃ es, split_path p = e :: es ∧ elems r = filter (λ e, e ≠ []) es.
Proof.
  revert e r. induction p as [|c p IH]; intros e r; cbn [span_elem split_path].
  { intros [= <- <-]. by exists []. }
  destruct (c =? SLASH) eqn:Hc.
  { intros [= <- <-]. exists (split_path p). split; [done|]. unfold elems. cbn [split_path]. by rewrite Hc. }
  destruct (span_elem p) as [e' r']. intros [= <- <-].
  destruct (IH e' r' eq_refl) as (es & -> & He). by exists es.
Qed.

Lemma put_bytes_at l : ∀ m a k,
  put_bytes m a l k =
  if decide (a ≤ k < a + Z.of_nat (length l)) then nth (Z.to_nat (k - a)) l 0 else m k.
Proof.
  induction l as [|c l IH]; intros m a k; cbn [put_bytes length]; [case_decide; [lia|done]|].
  rewrite IH. destruct (decide (k = a)) as [->|Hk].
  - rewrite decide_False by lia. rewrite decide_True by lia. rewrite fn_lookup_insert.
    by rewrite Z.sub_diag.
  - case_decide as H1; case_decide as H2; try lia.
    + replace (Z.to_nat (k - a)) with (S (Z.to_nat (k - (a + 1)))) by lia. done.
    + by rewrite fn_lookup_insert_ne.
Qed.

(** [name] holds the element [e], cut to [DIRSIZ] bytes. *)
Definition name_is (name : mem) (e : list Z) : Prop :=
  (∀ k, 0 ≤ k < Z.of_nat (length e) `min` DIRSIZ → name k = nth (Z.to_nat k) e 0) ∧
  (Z.of_nat (length e) < DIRSIZ → name (Z.of_nat (length e)) = 0).

Lemma skip_nonempty p : skip_slashes p = [] ↔ elems p = [].
Proof.
  split.
  - intros Hp. rewrite <- elems_skip, Hp. done.
  - rewrite <- elems_skip. destruct (skip_slashes p) as [|c q] eqn:Hp; [done|].
    apply skip_slashes_head in Hp. unfold elems. cbn [split_path]. rewrite Hp.
    by destruct (split_path q).
Qed.

(** [skipelem] takes the first element of a path: it fails exactly on a path
    with no element; otherwise the rest has the other elements and no leading
    slash (it is empty exactly for the last element), and [name] holds the
    element, cut to [DIRSIZ] bytes. *)
Theorem skipelem_spec path name :
  match elems path with
  | [] => skipelem path name = None
  | e :: es =>
      ∃ path' name', skipelem path name = Some (path', name') ∧ elems path' = es ∧
        (path' = [] ↔ es = []) ∧ name_is name' e
  end.
Proof.
  rewrite <- elems_skip. unfold skipelem.
  destruct (skip_slashes path) as [|c p] eqn:Hp; [done|].
  pose proof (skip_slashes_head _ _ _ Hp) as Hc.
  destruct (span_elem (c :: p)) as [e r] eqn:Hsp. destruct (split_span _ _ _ Hsp) as (es & He & Hr).
  assert (Hne : e ≠ []). { cbn in Hsp. rewrite Hc in Hsp. destruct (span_elem p). by injection Hsp as <- _. }
  unfold elems. rewrite He, filter_cons, decide_True by done. rewrite <- Hr.
  eexists _, _. split; [done|]. split; [apply elems_skip|]. split; [apply skip_nonempty|].
  unfold name_is. destruct (Z.leb_spec DIRSIZ (Z.of_nat (length e))) as [Hl|Hl]; split.
  - intros k Hk. rewrite put_bytes_at, decide_True; [|rewrite length_take; unfold DIRSIZ in *; lia].
    rewrite Z.sub_0_r, nth_firstn, (proj2 (Nat.ltb_lt _ _)); [done|]. lia.
  - lia.
  - intros k Hk. rewrite fn_lookup_insert_ne by lia. rewrite put_bytes_at, decide_True by lia.
    by rewrite Z.sub_0_r.
  - intros _. by rewrite fn_lookup_insert.
Qed.

