(* ===== verification/FileDefs.v ===== *)
(** * Data of the system calls on files

    [struct file] and the file table (kernel/fs/file.h, kernel/fs/file.c), and
    the state one system call works on: the file system of FsDefs.v, the pipes,
    the page allocator, and of the calling process its descriptors, memory and
    saved registers. *)
From stdpp Require Import base decidable option list functions numbers strings.
From Stdlib Require Import ZArith Lia.
From S2P Require Import Prelude CString Pipe Kalloc FsDefs.

Local Open Scope Z_scope.

Definition NFILE : nat := 100.
Definition NOFILE : nat := 16.

Inductive ftype := FD_NONE | FD_PIPE | FD_INODE | FD_FIFO.

#[export] Instance ftype_eq_dec : EqDecision ftype.
Proof. solve_decision. Defined.

(** [struct file] *)
Record file := File {
  f_type : ftype;
  f_ref : Z;
  f_readable : bool;
  f_writable : bool;
  f_pipe : Z;  (* the page of the pipe *)
  f_ip : option nat;
  f_off : Z
}.

Definition set_f_type (v : ftype) (x : file) : file :=
    File v (f_ref x) (f_readable x) (f_writable x) (f_pipe x) (f_ip x) (f_off x).
Definition set_f_ref (v : Z) (x : file) : file :=
    File (f_type x) v (f_readable x) (f_writable x) (f_pipe x) (f_ip x) (f_off x).
Definition set_f_readable (v : bool) (x : file) : file :=
    File (f_type x) (f_ref x) v (f_writable x) (f_pipe x) (f_ip x) (f_off x).
Definition set_f_writable (v : bool) (x : file) : file :=
    File (f_type x) (f_ref x) (f_readable x) v (f_pipe x) (f_ip x) (f_off x).
Definition set_f_pipe (v : Z) (x : file) : file :=
    File (f_type x) (f_ref x) (f_readable x) (f_writable x) v (f_ip x) (f_off x).
Definition set_f_ip (v : option nat) (x : file) : file :=
    File (f_type x) (f_ref x) (f_readable x) (f_writable x) (f_pipe x) v (f_off x).
Definition set_f_off (v : Z) (x : file) : file :=
    File (f_type x) (f_ref x) (f_readable x) (f_writable x) (f_pipe x) (f_ip x) v.

(** What a system call sees. *)
Record usys := USys {
  ufs : fsys;
  ftable : nat → file;  (* ftable.file[NFILE] *)
  upipes : Z → pipe;  (* struct pipe, by page *)
  upages : kmem;
  ofile : nat → option nat;  (* myproc()->ofile[NOFILE] *)
  usz : Z;  (* myproc()->sz *)
  uesp : Z;  (* myproc()->tf->esp *)
  ueip : Z;  (* myproc()->tf->eip *)
  upgdir : Z;  (* myproc()->pgdir *)
  umem : mem;  (* the memory of the process *)
  uname : mem;  (* myproc()->name *)
  ukilled : bool;  (* myproc()->killed *)
  mountlock : bool;  (* mountlock.locked *)
  disk_presence : Z  (* disks found at boot *)
}.

Definition set_ufs (v : fsys) (x : usys) : usys :=
    USys v (ftable x) (upipes x) (upages x) (ofile x) (usz x) (uesp x) (ueip x)
    (upgdir x) (umem x) (uname x) (ukilled x) (mountlock x) (disk_presence x).
Definition set_ftable (v : nat → file) (x : usys) : usys :=
    USys (ufs x) v (upipes x) (upages x) (ofile x) (usz x) (uesp x) (ueip x) (upgdir
    x) (umem x) (uname x) (ukilled x) (mountlock x) (disk_presence x).
Definition set_upipes (v : Z → pipe) (x : usys) : usys :=
    USys (ufs x) (ftable x) v (upages x) (ofile x) (usz x) (uesp x) (ueip x) (upgdir
    x) (umem x) (uname x) (ukilled x) (mountlock x) (disk_presence x).
Definition set_upages (v : kmem) (x : usys) : usys :=
    USys (ufs x) (ftable x) (upipes x) v (ofile x) (usz x) (uesp x) (ueip x) (upgdir
    x) (umem x) (uname x) (ukilled x) (mountlock x) (disk_presence x).
Definition set_ofile (v : nat → option nat) (x : usys) : usys :=
    USys (ufs x) (ftable x) (upipes x) (upages x) v (usz x) (uesp x) (ueip x) (upgdir
    x) (umem x) (uname x) (ukilled x) (mountlock x) (disk_presence x).
Definition set_usz (v : Z) (x : usys) : usys :=
    USys (ufs x) (ftable x) (upipes x) (upages x) (ofile x) v (uesp x) (ueip x)
    (upgdir x) (umem x) (uname x) (ukilled x) (mountlock x) (disk_presence x).
Definition set_uesp (v : Z) (x : usys) : usys :=
    USys (ufs x) (ftable x) (upipes x) (upages x) (ofile x) (usz x) v (ueip x) (upgdir
    x) (umem x) (uname x) (ukilled x) (mountlock x) (disk_presence x).
Definition set_ueip (v : Z) (x : usys) : usys :=
    USys (ufs x) (ftable x) (upipes x) (upages x) (ofile x) (usz x) (uesp x) v (upgdir
    x) (umem x) (uname x) (ukilled x) (mountlock x) (disk_presence x).
Definition set_upgdir (v : Z) (x : usys) : usys :=
    USys (ufs x) (ftable x) (upipes x) (upages x) (ofile x) (usz x) (uesp x) (ueip x)
    v (umem x) (uname x) (ukilled x) (mountlock x) (disk_presence x).
Definition set_umem (v : mem) (x : usys) : usys :=
    USys (ufs x) (ftable x) (upipes x) (upages x) (ofile x) (usz x) (uesp x) (ueip x)
    (upgdir x) v (uname x) (ukilled x) (mountlock x) (disk_presence x).
Definition set_uname (v : mem) (x : usys) : usys :=
    USys (ufs x) (ftable x) (upipes x) (upages x) (ofile x) (usz x) (uesp x) (ueip x)
    (upgdir x) (umem x) v (ukilled x) (mountlock x) (disk_presence x).
Definition set_ukilled (v : bool) (x : usys) : usys :=
    USys (ufs x) (ftable x) (upipes x) (upages x) (ofile x) (usz x) (uesp x) (ueip x)
    (upgdir x) (umem x) (uname x) v (mountlock x) (disk_presence x).
Definition set_mountlock (v : bool) (x : usys) : usys :=
    USys (ufs x) (ftable x) (upipes x) (upages x) (ofile x) (usz x) (uesp x) (ueip x)
    (upgdir x) (umem x) (uname x) (ukilled x) v (disk_presence x).
Definition set_disk_presence (v : Z) (x : usys) : usys :=
    USys (ufs x) (ftable x) (upipes x) (upages x) (ofile x) (usz x) (uesp x) (ueip x)
    (upgdir x) (umem x) (uname x) (ukilled x) (mountlock x) v.

Definition updf (i : nat) (g : file → file) (s : usys) : usys :=
  set_ftable (<[i := g (ftable s i)]> (ftable s)) s.

Lemma ftable_updf i g s j :
  ftable (updf i g s) j = if decide (i = j) then g (ftable s i) else ftable s j.
Proof. cbn. case_decide; [subst; apply fn_lookup_insert | by apply fn_lookup_insert_ne]. Qed.

#[export] Hint Rewrite ftable_updf : xv6.
#[global] Arguments updf : simpl never.

(** Operations of the components below. *)
Definition onfs {A} (m : M fsys A) : M usys A := zoom ufs set_ufs m.
Definition onpages {A} (m : M kmem A) : M usys A := zoom upages set_upages m.
