(* ===== verification/File.v ===== *)
(** * Open files: kernel/fs/file.c and [pipealloc] of kernel/ipc/pipe.c

    The functions as run by one process; reading from an empty pipe or writing
    to a full one waits for another process ([Hung]). *)
From stdpp Require Import base decidable option list functions numbers strings sets.
From Stdlib Require Import ZArith Lia.
From S2P Require Import Prelude CString Pipe Kalloc FsDefs Bio Log Fs FileDefs.

Local Open Scope Z_scope.

(** ** The file table *)

Definition filealloc : M usys (option nat) :=
  s ← getS;
  match List.find (λ f, f_ref (ftable s f) =? 0) (seq 0 NFILE) with
  | Some f => _ ← modS (updf f (set_f_ref 1)); mret (Some f)
  | None => mret None
  end.

Definition filedup (f : nat) : M usys nat :=
  s ← getS;
  if f_ref (ftable s f) <? 1 then panic "filedup"
  else _ ← modS (updf f (λ x, set_f_ref (s32 (f_ref x + 1)) x)); mret f.

Section files.
Context (end_ : Z).
Context (dev_read : Z → option (nat → mem → Z → Z → M fsys (Z * mem))).
Context (dev_write : Z → option (nat → mem → Z → Z → M fsys Z)).

(** [pipeclose] on the pipe in page [p]. *)
Definition close_pipe (p : Z) (writable : bool) : M usys () :=
  s ← getS;
  let '(q, _, free) := pipeclose (upipes s p) (if writable then 1 else 0) in
  _ ← modS (λ s, set_upipes (<[p := q]> (upipes s)) s);
  if (free : bool) then onpages (kfree end_ p) else mret ().

Definition fileclose (f : nat) : M usys () :=
  s ← getS;
  if f_ref (ftable s f) <? 1 then panic "fileclose"
  else
    _ ← modS (updf f (λ x, set_f_ref (s32 (f_ref x - 1)) x));
    s ← getS;
    if 0 <? f_ref (ftable s f) then mret ()
    else
      let ff := ftable s f in
      _ ← modS (updf f (set_f_ref 0));
      _ ← modS (updf f (set_f_type FD_NONE));
      match f_type ff with
      | FD_PIPE => close_pipe (f_pipe ff) (f_writable ff)
      | FD_INODE =>
          _ ← onfs begin_op;
          ip ← deref (f_ip ff);
          _ ← onfs (iput ip);
          onfs end_op
      | _ => mret ()
      end.

Definition filestat (f : nat) (st : stat) : M usys (Z * stat) :=
  s ← getS;
  match f_type (ftable s f) with
  | FD_INODE =>
      _ ← onfs (ilock (f_ip (ftable s f)));
      ip ← deref (f_ip (ftable s f));
      st ← onfs (stati ip st);
      _ ← onfs (iunlock (Some ip));
      mret (0, st)
  | _ => mret (-1, st)
  end.

(** [piperead] and [pipewrite]: the bytes go to or come from the process. *)
Definition read_pipe (p addr n : Z) : M usys Z :=
  s ← getS;
  let '(q, bs, _, e) := piperead_run (upipes s p) (ukilled s) n in
  match e with
  | Sleeps _ => hang
  | Returns r =>
      _ ← modS (λ s, set_upipes (<[p := q]> (upipes s)) s);
      _ ← modS (λ s, set_umem (put_bytes (umem s) addr bs) s);
      mret r
  end.

Definition write_pipe (p addr n : Z) : M usys Z :=
  s ← getS;
  let bs := map (λ i, umem s (addr + Z.of_nat i)) (seq 0 (Z.to_nat n)) in
  let '(q, _, _, e) := pipewrite_run n (upipes s p) (ukilled s) bs in
  match e with
  | Sleeps _ => hang
  | Returns r => _ ← modS (λ s, set_upipes (<[p := q]> (upipes s)) s); mret r
  end.

Definition fileread (f : nat) (addr n : Z) : M usys Z :=
  s ← getS;
  let x := ftable s f in
  if negb (f_readable x) then mret (-1)
  else
    match f_type x with
    | FD_PIPE => read_pipe (f_pipe x) addr n
    | FD_INODE =>
        _ ← onfs (ilock (f_ip x));
        ip ← deref (f_ip x);
        s ← getS;
        '(r, m) ← onfs (readi dev_read ip (umem s) addr (f_off x) (u32 n));
        _ ← modS (set_umem m);
        _ ← (if 0 <? r then modS (updf f (λ x, set_f_off (u32 (f_off x + r)) x)) else mret ());
        _ ← onfs (iunlock (Some ip));
        mret r
    | _ => panic "fileread"
    end.

(** [max] bytes per transaction. *)
Definition write_max : Z := (MAXOPBLOCKS - 1 - 1 - 2) ÷ 2 * 512.

Fixpoint filewrite_loop (fuel : nat) (f : nat) (fip : option nat) (addr n i : Z) : M usys Z :=
  if n <=? i then mret (if i =? n then n else -1)
  else
    match fuel with
    | O => no_fuel
    | S fuel =>
        let n1 := if write_max <? n - i then write_max else n - i in
        _ ← onfs begin_op;
        _ ← onfs (ilock fip);
        ip ← deref fip;
        s ← getS;
        r ← onfs (writei dev_write ip (umem s) (addr + i) (f_off (ftable s f)) n1);
        _ ← (if 0 <? r then modS (updf f (λ x, set_f_off (u32 (f_off x + r)) x)) else mret ());
        _ ← onfs (iunlock (Some ip));
        _ ← onfs end_op;
        if r <? 0 then mret (if i =? n then n else -1)
        else if negb (r =? n1) then panic "short filewrite"
        else filewrite_loop fuel f fip addr n (i + r)
    end.

Definition filewrite (f : nat) (addr n : Z) : M usys Z :=
  s ← getS;
  let x := ftable s f in
  if negb (f_writable x) then mret (-1)
  else
    match f_type x with
    | FD_PIPE => write_pipe (f_pipe x) addr n
    | FD_INODE => filewrite_loop (Z.to_nat n) f (f_ip x) addr n 0
    | _ => panic "filewrite"
    end.

(** [goto bad] of [pipealloc]. *)
Definition pipealloc_bad (f0 f1 : option nat) : M usys (option (nat * nat)) :=
  _ ← (match f0 with Some f => fileclose f | None => mret () end);
  _ ← (match f1 with Some f => fileclose f | None => mret () end);
  mret None.

(** The two files, or [None] for the result -1. *)
Definition pipealloc : M usys (option (nat * nat)) :=
  f0 ← filealloc;
  match f0 with
  | None => pipealloc_bad None None
  | Some r =>
      f1 ← filealloc;
      match f1 with
      | None => pipealloc_bad (Some r) None
      | Some w =>
          p ← onpages kalloc;
          if p =? 0 then pipealloc_bad (Some r) (Some w)
          else
            _ ← modS (λ s, set_upipes (<[p := pipe_init (data (upipes s p))]> (upipes s)) s);
            _ ← modS (updf r (λ x, set_f_pipe p (set_f_writable false (set_f_readable true (set_f_type FD_PIPE x)))));
            _ ← modS (updf w (λ x, set_f_pipe p (set_f_writable true (set_f_readable false (set_f_type FD_PIPE x)))));
            mret (Some (r, w))
      end
  end.
End files.

(** ** A process with no open file *)

Definition no_file : file := File FD_NONE 0 false false 0 None 0.
Definition no_pipe : pipe := Pipe (λ _, 0) 0 0 0 0.
Definition cold_usys : usys :=
  USys cold_fs (λ _, no_file) (λ _, no_pipe) two_pages (λ _, None) 4096 1000 0 0 (λ _, 0) (λ _, 0) false false 0.
