(* ===== verification/Syscall.v ===== *)
(** * Arguments of system calls: kernel/syscall/syscall.c

    [None] is the result -1 of the fetch functions.  The dispatcher [syscall]
    is modelled over any table of handlers. *)
From stdpp Require Import base decidable option list functions numbers strings sets.
From Stdlib Require Import ZArith Lia.
From S2P Require Import Prelude CString Pipe Kalloc FsDefs FileDefs File.

Local Open Scope Z_scope.

Definition fetchint (addr : Z) (s : usys) : option Z :=
  if (usz s <=? addr) || (usz s <? u32 (addr + 4)) then None
  else Some (s32 (load32 (umem s) addr)).

(** The scan of [fetchstr] over the [n] bytes from [a]. *)
Fixpoint scan_nul (n : nat) (m : mem) (a : Z) : option Z :=
  match n with
  | O => None
  | S n => if m a =? 0 then Some a else scan_nul n m (a + 1)
  end.

(** The address and the length of the string. *)
Definition fetchstr (addr : Z) (s : usys) : option (Z * Z) :=
  if usz s <=? addr then None
  else
    match scan_nul (Z.to_nat (usz s - addr)) (umem s) addr with
    | Some e => Some (addr, e - addr)
    | None => None
    end.

Definition argint (n : Z) (s : usys) : option Z := fetchint (u32 (uesp s + 4 + 4 * n)) s.

Definition argptr (n size : Z) (s : usys) : option Z :=
  match argint n s with
  | None => None
  | Some i =>
      if (size <? 0) || (usz s <=? u32 i) || (usz s <? u32 (u32 i + size)) then None
      else Some (u32 i)
  end.

Definition argstr (n : Z) (s : usys) : option (Z * Z) :=
  match argint n s with
  | None => None
  | Some addr => fetchstr (u32 addr) s
  end.

(** The bytes of a string of length [n] at [a]. *)
Definition bytes_at (m : mem) (a n : Z) : list Z :=
  map (λ i, m (a + Z.of_nat i)) (seq 0 (Z.to_nat n)).

Definition arg_path (n : Z) (s : usys) : option (list Z) :=
  match argstr n s with
  | None => None
  | Some (a, len) => Some (bytes_at (umem s) a len)
  end.

(** ** The dispatcher

    [tf_eax] is the saved register; [enter] and [leave] are
    [change_process_space] to the kernel and to the user. *)
Section dispatch.
Context {S : Type} (get_eax : S → Z) (set_eax : Z → S → S).
Context (enter leave yield_ : M S ()) (raise_sigsys : S → S).
Context (syscalls : Z → option (M S Z)) (nelem : Z).

Definition syscall : M S () :=
  num ← gets get_eax;
  _ ← enter;
  match (if (0 <? num) && (num <? nelem) then syscalls num else None) with
  | Some h =>
      r ← h;
      _ ← modS (set_eax r);
      leave
  | None =>
      _ ← modS raise_sigsys;
      _ ← leave;
      yield_
  end.
End dispatch.

(** ** What the checks guarantee *)

(** The memory of the process. *)
Definition user_range (s : usys) (a n : Z) : Prop := 0 ≤ a ∧ a + n ≤ usz s.

Lemma scan_nul_spec n m a e :
  scan_nul n m a = Some e →
  a ≤ e < a + Z.of_nat n ∧ m e = 0 ∧ ∀ x, a ≤ x < e → m x ≠ 0.
Proof.
  revert a. induction n as [|n IH]; intros a; cbn [scan_nul]; [done|].
  destruct (Z.eqb_spec (m a) 0) as [H0|H0].
  - intros [= <-]. split; [lia|]. split; [done|lia].
  - intros H%IH. destruct H as (H1 & H2 & H3). split; [lia|]. split; [done|].
    intros x Hx. destruct (decide (x = a)) as [->|]; [done|]. apply H3. lia.
Qed.

Lemma scan_nul_none n m a :
  scan_nul n m a = None → ∀ x, a ≤ x < a + Z.of_nat n → m x ≠ 0.
Proof.
  revert a. induction n as [|n IH]; intros a; cbn [scan_nul]; [lia|].
  destruct (Z.eqb_spec (m a) 0) as [H0|H0]; [done|]. intros H x Hx.
  destruct (decide (x = a)) as [->|]; [done|]. apply (IH _ H). lia.
Qed.

(** C37: a pointer or string that the argument checks accept lies in the memory
    of the process, for every stack pointer and argument value, wrap-around
    included: [argptr] gives [size] bytes below [sz], and [argstr] a string
    whose terminating zero is below [sz]. *)
Theorem arg_checks_bounds s n size :
  0 ≤ usz s ≤ 2 ^ 31 → - 2 ^ 31 ≤ size < 2 ^ 31 →
  (∀ a, argptr n size s = Some a → 0 ≤ size ∧ user_range s a size) ∧
  (∀ a len, argstr n s = Some (a, len) →
     0 ≤ len ∧ user_range s a (len + 1) ∧ umem s (a + len) = 0 ∧
     ∀ x, a ≤ x < a + len → umem s x ≠ 0) ∧
  (∀ v, argint n s = Some v → user_range s (u32 (uesp s + 4 + 4 * n)) 4).
Proof.
  intros Hsz Hsize. unfold user_range. split; [|split].
  - intros a. unfold argptr. destruct (argint n s) as [i|]; [|done].
    destruct (Z.ltb_spec size 0), (Z.leb_spec (usz s) (u32 i)); try done. cbn [orb].
    destruct (Z.ltb_spec (usz s) (u32 (u32 i + size))) as [|H1]; [done|]. intros [= <-].
    pose proof (u32_range i). rewrite u32_small in H1 by lia. lia.
  - intros a len. unfold argstr. destruct (argint n s) as [i|]; [|done]. unfold fetchstr.
    pose proof (u32_range i). destruct (Z.leb_spec (usz s) (u32 i)); [done|].
    destruct (scan_nul _ _ _) as [e|] eqn:He; [|done]. intros [= <- <-].
    destruct (scan_nul_spec _ _ _ _ He) as (H1 & H2 & H3).
    replace (u32 i + (e - u32 i)) with e by lia. split; [lia|]. split; [lia|]. done.
  - intros v. unfold argint, fetchint. pose proof (u32_range (uesp s + 4 + 4 * n)).
    destruct (Z.leb_spec (usz s) (u32 (uesp s + 4 + 4 * n))); [done|]. cbn [orb].
    destruct (Z.ltb_spec (usz s) (u32 (u32 (uesp s + 4 + 4 * n) + 4))) as [|H1]; [done|]. intros _.
    rewrite u32_small in H1 by lia. lia.
Qed.

Lemma arg_checks_bounds_witness :
  argptr 0 16 (set_umem (store32 (λ _, 0) 1004 200) cold_usys) = Some 200 ∧
  user_range (set_umem (store32 (λ _, 0) 1004 200) cold_usys) 200 16.
Proof.
  destruct (arg_checks_bounds (set_umem (store32 (λ _, 0) 1004 200) cold_usys) 0 16) as (H & _ & _).
  - cbn; lia.
  - lia.
  - assert (E : argptr 0 16 (set_umem (store32 (λ _, 0) 1004 200) cold_usys) = Some 200) by reflexivity.
    split; [exact E|]. exact (proj2 (H 200 E)).
Defined.
