(* ===== verification/Mount.v ===== *)
(** * Mounting: kernel/fs/mount.c, and kernel/lock/nonblockinglock.c

    The mount table holds one mount.  Error numbers are returned negated. *)
From stdpp Require Import base decidable option list functions numbers strings sets.
From Stdlib Require Import ZArith Lia.
From S2P Require Import Prelude CString Pipe Kalloc FsDefs Bio Log Fs FileDefs File.

Local Open Scope Z_scope.

Definition ENOMOUNT : Z := 2.
Definition EMOUNTNTDIR : Z := 3.
Definition EMNTPNTNOTFOUND : Z := 4.
Definition EMOUNTPNTLOCKED : Z := 5.
Definition EMOUNTPOINTBUSY : Z := 6.
Definition ECANNOTMOUNTONROOT : Z := 7.
Definition EMOUNTROOTNOTFOUND : Z := 8.
Definition ENODEV : Z := 9.
Definition EDEVOOR : Z := 10.
Definition ECANNOTMOUNTONMAIN : Z := 11.

(** ** The lock *)

Definition init_mount_lock : M usys () := modS (set_mountlock false).

Definition acquirenonblockinglock : M usys bool :=
  s ← getS;
  if mountlock s then mret false
  else _ ← modS (set_mountlock true); mret true.

Definition releasenonblocking : M usys () := modS (set_mountlock false).

Definition disk_query (s : usys) : Z := disk_presence s.

(** The bit of device [dev] in the mask of disks. *)
Definition dev_bit (dev : Z) : Z := 1 ≪ (dev - 1).

Section mount.
Context (dev_read : Z → option (nat → mem → Z → Z → M fsys (Z * mem))).

(** The [switch] of [mount]: the error, or [None] to go on. *)
Definition check_dev (dev mask : Z) : option Z :=
  if dev =? 1 then Some (- ECANNOTMOUNTONMAIN)
  else if (2 <=? dev) && (dev <=? 7) then
    if c_true (Z.land mask (dev_bit dev)) then None else Some (- ENODEV)
  else if 7 <? dev then Some (- EDEVOOR)
  else Some (- ENODEV).

Definition path_dot : list Z := [DOT].
Definition path_root : list Z := [SLASH].

(** A mount point that is not a directory is looked up once more as [.] from
    itself. *)
Definition recheck_dir (mp : nat) : M fsys (option nat) :=
  s ← getS;
  let old_cwd := mycwd s in
  c ← idup mp;
  _ ← modS (set_mycwd (Some c));
  s ← getS;
  dir_check ← namei dev_read (i_dev (inodes s mp)) path_dot;
  match dir_check with
  | Some d =>
      s ← getS;
      if i_type (inodes s d) =? T_DIR then
        mp ← idup d;
        _ ← iput d;
        _ ← modS (set_mycwd old_cwd);
        mret (Some mp)
      else
        _ ← modS (set_mycwd old_cwd);
        _ ← iput d;
        mret None
  | None => _ ← modS (set_mycwd old_cwd); mret None
  end.

(** From the label [fixed] on. *)
Definition mount_fixed (dev : Z) (mp : nat) : M usys Z :=
  s ← getS;
  if i_inum (inodes (ufs s) mp) =? ROOTINO then
    _ ← onfs (iput mp);
    _ ← onfs end_op;
    _ ← releasenonblocking;
    mret (- ECANNOTMOUNTONROOT)
  else
    root ← onfs (namei dev_read dev path_root);
    match root with
    | None =>
        _ ← releasenonblocking;
        _ ← onfs end_op;
        mret (- EMOUNTROOTNOTFOUND)
    | Some r =>
        _ ← onfs (modS (updi mp (set_i_mount 1)));
        _ ← onfs (modS (set_mount_point (Some mp)));
        _ ← onfs (modS (set_mount_root (Some r)));
        _ ← onfs end_op;
        mret 0
    end.

Definition mount (dev : Z) (path : list Z) : M usys Z :=
  _ ← onfs begin_op;
  mask ← gets disk_query;
  match check_dev dev mask with
  | Some e => mret e
  | None =>
      got ← acquirenonblockinglock;
      if negb got then _ ← onfs end_op; mret (- EMOUNTPNTLOCKED)
      else
        mp ← onfs (namei dev_read 1 path);
        match mp with
        | None =>
            _ ← onfs end_op;
            _ ← releasenonblocking;
            mret (- EMNTPNTNOTFOUND)
        | Some mp =>
            s ← getS;
            if negb (i_type (inodes (ufs s) mp) =? T_DIR) then
              fixed ← onfs (recheck_dir mp);
              match fixed with
              | Some mp => mount_fixed dev mp
              | None =>
                  _ ← onfs end_op;
                  _ ← releasenonblocking;
                  mret (- EMOUNTNTDIR)
              end
            else mount_fixed dev mp
        end
  end.

Definition unmount (path : list Z) : M usys Z :=
  _ ← onfs begin_op;
  mp ← onfs (namei dev_read 1 path);
  match mp with
  | None => _ ← onfs end_op; mret (- ENOMOUNT)
  | Some mp =>
      s ← getS;
      if negb (bool_decide (mount_root (ufs s) = Some mp)) then mret (- ENOMOUNT)
      else
        got ← acquirenonblockinglock;
        if (got : bool) then _ ← releasenonblocking; mret (- ENOMOUNT)
        else
          _ ← onfs (iput mp);
          root ← gets (λ s, mount_root (ufs s));
          root ← deref root;
          r ← onfs (iputmount root);
          if negb (r =? 0) then mret (- EMOUNTPOINTBUSY)
          else
            p ← gets (λ s, mount_point (ufs s));
            p ← deref p;
            _ ← onfs (modS (updi p (set_i_mount 0)));
            _ ← onfs (modS (set_mount_point None));
            _ ← onfs (modS (set_mount_root None));
            _ ← releasenonblocking;
            mret 0
  end.

(** a [mount] refused because of its device returns with its log operation
    still open: [outstanding] is one higher than before and the file system is
    otherwise untouched, so no later [end_op] is the last one and nothing is
    committed any more. *)
Theorem mount_error_leaks_op dev path s e :
  check_dev dev (disk_presence s) = Some e → committing (flog (ufs s)) = 0 →
  lh_n (flog (ufs s)) + (outstanding (flog (ufs s)) + 1) * MAXOPBLOCKS ≤ LOGSIZE →
  mount dev path s =
    Done (e, set_ufs (updl (λ l, set_outstanding (outstanding l + 1) l) (ufs s)) s).
Proof.
  intros He Hc Hl.
  assert (Hb : onfs begin_op s =
    Done ((), set_ufs (updl (λ l, set_outstanding (outstanding l + 1) l) (ufs s)) s)).
  { unfold onfs, zoom, begin_op. rewrite run_gets, Hc. change (c_true 0) with false. cbv iota.
    by rewrite (proj2 (Z.ltb_ge _ _)) by lia. }
  unfold mount. rewrite (bind_done _ _ _ _ _ Hb), run_gets. unfold disk_query.
  change (disk_presence (set_ufs _ s)) with (disk_presence s). by rewrite He.
Qed.
End mount.

Lemma mount_error_leaks_op_witness :
  ∃ s', mount (λ _, None) 1 [SLASH] cold_usys = Done (- ECANNOTMOUNTONMAIN, s') ∧
    outstanding (flog (ufs s')) = 1.
Proof.
  eexists. split.
  - apply (mount_error_leaks_op (λ _, None) 1 [SLASH] cold_usys (- ECANNOTMOUNTONMAIN)).
    + reflexivity.
    + reflexivity.
    + cbn; unfold MAXOPBLOCKS, LOGSIZE; lia.
  - reflexivity.
Defined.
