(* ===== verification/Exec.v ===== *)
(** * Loading a program: kernel/exec.c, and [loaduvm] of vm.c

    [argv] is the list of argument strings.  [None] stands for [goto bad]. *)
From stdpp Require Import base decidable option list functions numbers strings sets.
From Stdlib Require Import ZArith Lia.
From S2P Require Import Prelude CString ProcDefs Pipe Kalloc Vm Uvm FsDefs Bio Log Fs FileDefs File.

Local Open Scope Z_scope.

(** ** elf.h *)

Definition ELF_MAGIC : Z := 0x464C457F.
Definition ELF_PROG_LOAD : Z := 1.
Definition MAXARG : Z := 32.

(** [struct elfhdr] is 52 bytes. *)
Definition elf_magic (m : mem) : Z := load32 m 0.
Definition elf_entry (m : mem) : Z := load32 m 24.
Definition elf_phoff (m : mem) : Z := load32 m 28.
Definition elf_phnum (m : mem) : Z := load16 m 44.
Definition ELFSIZE : Z := 52.

(** [struct proghdr] is 32 bytes. *)
Definition ph_type (m : mem) : Z := load32 m 0.
Definition ph_off (m : mem) : Z := load32 m 4.
Definition ph_vaddr (m : mem) : Z := load32 m 8.
Definition ph_filesz (m : mem) : Z := load32 m 16.
Definition ph_memsz (m : mem) : Z := load32 m 20.
Definition PHSIZE : Z := 32.

Section exec.
Context (end_ data_ : Z).
Context (dev_read : Z → option (nat → mem → Z → Z → M fsys (Z * mem))).

(** ** [loaduvm] *)

Fixpoint loaduvm_loop (fuel : nat) (pgdir addr : Z) (ip : nat) (offset sz i : Z) : M usys Z :=
  if sz <=? i then mret 0
  else
    match fuel with
    | O => no_fuel
    | S fuel =>
        pte ← onpages (walkpgdir pgdir (u32 (addr + i)) false);
        if pte =? 0 then panic "loaduvm: address should exist"
        else
          s ← getS;
          let pa := PTE_ADDR (word_at pte (upages s)) in
          let n := if sz - i <? PGSIZE then sz - i else PGSIZE in
          '(r, m) ← onfs (readi dev_read ip (pmem (upages s)) (P2V pa) (u32 (offset + i)) n);
          _ ← onpages (modS (put_mem (λ _, m)));
          if negb (r =? n) then mret (-1)
          else loaduvm_loop fuel pgdir addr ip offset sz (i + PGSIZE)
    end.

Definition loaduvm (pgdir addr : Z) (ip : nat) (offset sz : Z) : M usys Z :=
  if negb (addr mod PGSIZE =? 0) then panic "loaduvm: addr must be page aligned"
  else loaduvm_loop (Z.to_nat (sz / PGSIZE + 1)) pgdir addr ip offset sz 0.

(** ** [exec] *)

(** The loop over the [n] program headers left, from offset [off]. *)
Fixpoint load_segments (n : nat) (pgdir : Z) (ip : nat) (off sz : Z) : M usys (option Z) :=
  match n with
  | O => mret (Some sz)
  | S n =>
      '(r, ph) ← onfs (readi dev_read ip zero_mem 0 (u32 off) PHSIZE);
      if negb (r =? PHSIZE) then mret None
      else if negb (ph_type ph =? ELF_PROG_LOAD) then load_segments n pgdir ip (off + PHSIZE) sz
      else if ph_memsz ph <? ph_filesz ph then mret None
      else if u32 (ph_vaddr ph + ph_memsz ph) <? ph_vaddr ph then mret None
      else
        sz ← onpages (allocuvm end_ pgdir sz (u32 (ph_vaddr ph + ph_memsz ph)) false);
        if sz =? 0 then mret None
        else if negb (ph_vaddr ph mod PGSIZE =? 0) then mret None
        else
          r ← loaduvm pgdir (ph_vaddr ph) ip (ph_off ph) (ph_filesz ph);
          if r <? 0 then mret None
          else load_segments n pgdir ip (off + PHSIZE) sz
  end.

(** The bytes of a string with its final zero. *)
Definition string_mem (l : list Z) : mem := λ a, nth (Z.to_nat a) l 0.

(** The strings pushed: the stack pointer and the pointers, last one first. *)
Fixpoint push_args (pgdir : Z) (argv : list (list Z)) (argc sp : Z) (ptrs : list Z)
  : M usys (option (Z * Z * list Z)) :=
  match argv with
  | [] => mret (Some (argc, sp, rev ptrs))
  | a :: argv =>
      if MAXARG <=? argc then mret None
      else
        let len := Z.of_nat (length a) in
        let sp := Z.land (u32 (sp - (len + 1))) (Z.lnot 3) in
        r ← onpages (copyout pgdir sp (string_mem a) (len + 1));
        if r <? 0 then mret None
        else push_args pgdir argv (argc + 1) sp (sp :: ptrs)
  end.

Definition ustack (argc sp : Z) (ptrs : list Z) : list Z :=
  [0xffffffff; argc; u32 (sp - (argc + 1) * 4)] ++ ptrs ++ [0].

(** The part of the path after its last slash. *)
Fixpoint last_elem (path last : list Z) : list Z :=
  match path with
  | [] => last
  | c :: p => last_elem p (if c =? SLASH then p else last)
  end.

(** [safestrcpy(curproc->name, last, sizeof(curproc->name))] *)
Definition new_name (old : mem) (path : list Z) : mem :=
  safestrcpy (λ a, if a <? 16 then old a else string_mem (last_elem path path) (a - 16)) 0 16 16.

Definition exec_bad (pgdir : Z) (ip : option nat) : M usys Z :=
  _ ← (if c_true pgdir then onpages (freevm end_ pgdir) else mret ());
  _ ← (match ip with
       | Some ip => _ ← onfs (iunlockput ip); onfs end_op
       | None => mret ()
       end);
  mret (-1).

(** The stack, and the commitment to the new image. *)
Definition exec_stack (pgdir sz entry : Z) (path : list Z) (argv : list (list Z)) : M usys Z :=
  let sz := u32 (PGROUNDUP sz) in
  sz ← onpages (allocuvm end_ pgdir sz (u32 (sz + 2 * PGSIZE)) false);
  if sz =? 0 then exec_bad pgdir None
  else
    _ ← onpages (clearpteu pgdir (u32 (sz - 2 * PGSIZE)));
    r ← push_args pgdir argv 0 sz [];
    match r with
    | None => exec_bad pgdir None
    | Some (argc, sp, ptrs) =>
        let ws := ustack argc sp ptrs in
        let sp := u32 (sp - (3 + argc + 1) * 4) in
        r ← onpages (copyout pgdir sp (put_words zero_mem 0 ws) ((3 + argc + 1) * 4));
        if r <? 0 then exec_bad pgdir None
        else
          s ← getS;
          let oldpgdir := upgdir s in
          _ ← modS (set_uname (new_name (uname s) path));
          _ ← modS (set_upgdir pgdir);
          _ ← modS (set_usz sz);
          _ ← modS (set_ueip entry);
          _ ← modS (set_uesp sp);
          _ ← onpages (freevm end_ oldpgdir);
          _ ← modS (λ s, set_umem (user_view (upages s) pgdir) s);
          mret 0
    end.

Definition exec (path : list Z) (argv : list (list Z)) : M usys Z :=
  _ ← onfs begin_op;
  ip ← onfs (namei dev_read 1 path);
  match ip with
  | None => _ ← onfs end_op; mret (-1)
  | Some ip =>
      _ ← onfs (ilock (Some ip));
      '(r, elf) ← onfs (readi dev_read ip zero_mem 0 0 ELFSIZE);
      if negb (r =? ELFSIZE) then exec_bad 0 (Some ip)
      else if negb (elf_magic elf =? ELF_MAGIC) then panic "bad elf magic"
      else
        pgdir ← onpages (setupkvm end_ data_);
        if pgdir =? 0 then exec_bad 0 (Some ip)
        else
          r ← load_segments (Z.to_nat (elf_phnum elf)) pgdir ip (elf_phoff elf) 0;
          match r with
          | None => exec_bad pgdir (Some ip)
          | Some sz =>
              _ ← onfs (iunlockput ip);
              _ ← onfs end_op;
              exec_stack pgdir sz (elf_entry elf) path argv
          end
  end.
End exec.

(** ** The stack of a new program *)

(** Where the strings go: each below the one before, on a word boundary. *)
Definition arg_slot (sp : Z) (a : list Z) : Z := Z.land (u32 (sp - (Z.of_nat (length a) + 1))) (Z.lnot 3).

Fixpoint arg_ptrs (sp : Z) (argv : list (list Z)) : list Z :=
  match argv with
  | [] => []
  | a :: argv => arg_slot sp a :: arg_ptrs (arg_slot sp a) argv
  end.

(** The lowest of them. *)
Fixpoint args_bottom (sp : Z) (argv : list (list Z)) : Z :=
  match argv with [] => sp | a :: argv => args_bottom (arg_slot sp a) argv end.

(** The bytes an argument may take, with the padding. *)
Definition args_size (argv : list (list Z)) : Z := foldr (λ a z, Z.of_nat (length a) + 4 + z) 0 argv.

Lemma round4 x : Z.land x (Z.lnot 3) = 4 * (x / 4).
Proof.
  change 3 with (Z.ones 2). rewrite <- Z.ldiff_land, Z.ldiff_ones_r, Z.shiftl_mul_pow2, Z.shiftr_div_pow2 by lia. 
  change (2 ^ 2) with 4. lia.
Qed.

Lemma arg_slot_spec sp a : 0 ≤ sp - (Z.of_nat (length a) + 4) → sp < 2 ^ 32 →
  sp - (Z.of_nat (length a) + 4) ≤ arg_slot sp a ∧ arg_slot sp a + Z.of_nat (length a) + 1 ≤ sp ∧ arg_slot sp a mod 4 = 0.
Proof.
  intros H1 H2. unfold arg_slot. rewrite round4, u32_small by lia.
  set (x := sp - (Z.of_nat (length a) + 1)). pose proof (Z.div_mod x 4). pose proof (Z.mod_pos_bound x 4).
  split; [lia|]. split; [lia|]. rewrite Z.mul_comm. by apply Z.mod_mul.
Qed.

Lemma args_size_nonneg argv : 0 ≤ args_size argv.
Proof. induction argv as [|a argv IH]; [done|]. unfold args_size in *. cbn [foldr]. lia. Qed.

Lemma args_bottom_spec argv : ∀ sp, 0 ≤ sp - args_size argv → sp < 2 ^ 32 → sp mod 4 = 0 →
  sp - args_size argv ≤ args_bottom sp argv ≤ sp ∧ args_bottom sp argv mod 4 = 0.
Proof.
  induction argv as [|a argv IH]; intros sp H1 H2 H3; cbn [args_bottom]; [cbn; split; [lia|done]|].
  cbn [args_size foldr] in H1 |- *. fold (args_size argv) in *. pose proof (args_size_nonneg argv).
  destruct (arg_slot_spec sp a ltac:(lia) H2) as (S1 & S2 & S3).
  destruct (IH (arg_slot sp a) ltac:(lia) ltac:(lia) S3) as [B1 B2]. split; [lia|done].
Qed.

Lemma run_onpages {A B} (m : M kmem A) (K : A → M usys B) s a k :
  m (upages s) = Done (a, k) → (onpages m ≫= K) s = K a (set_upages k s).
Proof. intros H. rewrite run_bind. unfold onpages, zoom. by rewrite H. Qed.

Section stack.
Context (end_ : Z).
Hypothesis Hend : KERNBASE < end_.

(** What [copyout]s to the stack leave alone: the mappings, the memory outside
    the frames, and the user's memory outside [lo] to [hi]. *)
Record pushed (k k' : kmem) (pgdir : Z) (l : list Z) (lo hi : Z) : Prop := Pushed {
  pu_space : uspace end_ k' pgdir l 0;
  pu_xlate : ∀ va, 0 ≤ va < 2 ^ 32 → xlate k' pgdir va = xlate k pgdir va;
  pu_view : ∀ a, 0 ≤ a < KERNBASE → ¬ lo ≤ a < hi → user_view k' pgdir a = user_view k pgdir a;
  pu_mem : ∀ x, ¬ in_frames k pgdir x → pmem k' x = pmem k x
}.

Lemma pushed_trans k1 k2 k3 pgdir l lo mid hi :
  lo ≤ mid ≤ hi → pushed k1 k2 pgdir l mid hi → pushed k2 k3 pgdir l lo mid → pushed k1 k3 pgdir l lo hi.
Proof.
  intros Hm [A1 A2 A3 A4] [B1 B2 B3 B4]. split; [done| | |].
  - intros va Hva. by rewrite B2, A2.
  - intros a Ha Hn. rewrite B3, A3 by (done || lia). done.
  - intros x Hx. rewrite B4, A4; [done|done|]. by rewrite (in_frames_ext k1 k2).
Qed.

Lemma writable_ext k k' pgdir va len va' len' : (∀ a, 0 ≤ a < 2 ^ 32 → xlate k' pgdir a = xlate k pgdir a) →
  writable k pgdir va len → 0 ≤ va ≤ va' → va' + len' ≤ va + len → va + len ≤ KERNBASE → writable k' pgdir va' len'.
Proof.
  intros HX Hw H1 H2 H3 a Ha. destruct (Hw a ltac:(lia)) as (e & E & HE). exists e. rewrite HX; [done|].
  unfold KERNBASE in H3. lia.
Qed.

Lemma push_args_run pgdir l lo top argv : ∀ argc sp ptrs s,
  uspace end_ (upages s) pgdir l 0 → writable (upages s) pgdir lo (top - lo) → 0 ≤ lo → top ≤ KERNBASE → sp ≤ top →
  lo ≤ sp - args_size argv → sp mod 4 = 0 → 0 ≤ argc → argc + Z.of_nat (length argv) ≤ MAXARG →
  Forall (Forall (λ c, 0 < c < 2 ^ 8)) argv →
  ∃ k', push_args pgdir argv argc sp ptrs s =
      Done (Some (argc + Z.of_nat (length argv), args_bottom sp argv, rev ptrs ++ arg_ptrs sp argv), set_upages k' s) ∧
    pushed (upages s) k' pgdir l (args_bottom sp argv) sp ∧
    (∀ i a p, argv !! i = Some a → arg_ptrs sp argv !! i = Some p → args_bottom sp argv ≤ p < sp ∧ cstr (user_view k' pgdir) p a).
Proof.
  induction argv as [|a argv IH]; intros argc sp ptrs s HU Hw Hlo Htop Hsp Hsz Hal Hargc Hmax Hb; cbn [push_args args_bottom arg_ptrs].
  { exists (upages s). rewrite Z.add_0_r, app_nil_r. split; [by destruct s|]. split; [by split|]. intros i a p Hi. done. }
  cbn [args_size foldr length] in Hsz, Hmax. fold (args_size argv) in Hsz. pose proof (args_size_nonneg argv).
  apply Forall_cons in Hb as [Hba Hb]. unfold KERNBASE in Htop.
  rewrite (proj2 (Z.leb_gt MAXARG argc)) by lia. fold (arg_slot sp a).
  destruct (arg_slot_spec sp a ltac:(lia) ltac:(lia)) as (S1 & S2 & S3). set (p := arg_slot sp a) in *.
  destruct (copyout_run end_ (upages s) pgdir l p (string_mem a) (Z.of_nat (length a) + 1) HU) as (k1 & R1 & HU1 & HX1 & HV1 & HM1); [lia|lia|unfold KERNBASE; lia| |].
  { eapply writable_ext; [done|exact Hw|lia|lia|unfold KERNBASE; lia]. }
  assert (P1 : pushed (upages s) k1 pgdir l p sp).
  { split; [done|done| |done]. intros x Hx Hn. rewrite HV1, decide_False by (done || lia). done. }
  destruct (IH (argc + 1) p (p :: ptrs) (set_upages k1 s)) as (k' & R' & P' & C'); [done| |done|unfold KERNBASE; lia|lia|lia|done|lia|lia|done|].
  { eapply writable_ext; [exact HX1|exact Hw|lia|lia|unfold KERNBASE; lia]. }
  destruct (args_bottom_spec argv p ltac:(lia) ltac:(lia) S3) as [B1 B2].
  exists k'. split_and!.
  - rewrite (run_onpages _ _ _ _ _ R1). cbn [Z.ltb Z.compare]. rewrite R'. cbn [rev]. rewrite <- app_assoc. cbn [app length].
    replace (argc + Z.of_nat (S (length argv))) with (argc + 1 + Z.of_nat (length argv)) by lia. by destruct s.
  - eapply pushed_trans; [|exact P1|exact P']. lia.
  - intros [|i] b p' Hi Hp'; cbn in Hi, Hp'.
    + injection Hi as <-. injection Hp' as <-. split; [lia|].
      apply cstr_at. split; [done|]. split.
      * intros j c Hj. pose proof (lookup_lt_Some _ _ _ Hj). rewrite (pu_view _ _ _ _ _ _ P') by (unfold KERNBASE; lia).
        rewrite HV1, decide_True by (unfold KERNBASE; lia). unfold string_mem.
        replace (Z.to_nat (p + Z.of_nat j - p)) with j by lia. by apply nth_lookup_Some.
      * rewrite (pu_view _ _ _ _ _ _ P') by (unfold KERNBASE; lia). rewrite HV1, decide_True by (unfold KERNBASE; lia).
        unfold string_mem. replace (Z.to_nat (p + Z.of_nat (length a) - p)) with (length a) by lia. apply nth_overflow. lia.
    + destruct (C' i b p' Hi Hp') as [D1 D2]. split; [lia|done].
Qed.

Lemma load32_shift m m' d a : (∀ x, a ≤ x < a + 4 → m (d + x) = m' x) → load32 m (d + a) = load32 m' a.
Proof.
  intros H. unfold load32. rewrite <- !Z.add_assoc. rewrite !H by lia. done.
Qed.

(** What a program finds at its stack pointer: a return address that faults, its
    arguments' count, and the vector of pointers to them. *)
Record stack_layout (m : mem) (sp : Z) (argv : list (list Z)) : Prop := StackLayout {
  sl_align : sp mod 4 = 0;
  sl_return : load32 m sp = 0xffffffff;
  sl_argc : load32 m (sp + 4) = Z.of_nat (length argv);
  sl_argv : load32 m (sp + 8) = sp + 12;
  sl_args : ∀ i a, argv !! i = Some a → ∃ p, load32 m (sp + 12 + 4 * Z.of_nat i) = p ∧ sp < p ∧ cstr m p a;
  sl_end : load32 m (sp + 12 + 4 * Z.of_nat (length argv)) = 0
}.

Lemma arg_ptrs_length argv : ∀ sp, length (arg_ptrs sp argv) = length argv.
Proof. induction argv as [|a argv IH]; intros sp; cbn; by f_equal. Qed.

(** Each string fits below the top. *)
Lemma arg_ptrs_fit argv : ∀ sp i a p, argv !! i = Some a → arg_ptrs sp argv !! i = Some p →
  0 ≤ sp - args_size argv → sp < 2 ^ 32 → p + Z.of_nat (length a) + 1 ≤ sp.
Proof.
  induction argv as [|b argv IH]; intros sp [|i] a p Hi Hp Hs1 Hs2; try done; cbn in Hi, Hp; unfold args_size in Hs1; cbn [foldr] in Hs1;
    fold (args_size argv) in Hs1; pose proof (args_size_nonneg argv); destruct (arg_slot_spec sp b ltac:(lia) Hs2) as (S1 & S2 & _).
  - injection Hi as ->. injection Hp as <-. lia.
  - specialize (IH (arg_slot sp b) i a p Hi Hp). lia.
Qed.

(** The pointers of the strings and the words below them make the layout. *)
Lemma layout_holds m top argv :
  let bot := args_bottom top argv in
  let argc := Z.of_nat (length argv) in
  let sp := bot - (3 + argc + 1) * 4 in
  0 ≤ sp → bot < 2 ^ 32 → argc ≤ MAXARG → bot mod 4 = 0 →
  (∀ a, sp ≤ a < bot → m a = put_words zero_mem 0 (ustack argc bot (arg_ptrs top argv)) (a - sp)) →
  (∀ i a p, argv !! i = Some a → arg_ptrs top argv !! i = Some p → bot ≤ p < 2 ^ 32 ∧ cstr m p a) →
  stack_layout m sp argv.
Proof.
  intros bot argc sp Hsp Hbot Hmax Hal Hw Hp. unfold MAXARG in Hmax.
  set (ws := ustack argc bot (arg_ptrs top argv)) in *.
  assert (Hlen : Z.of_nat (length ws) = argc + 4).
  { unfold ws, ustack. rewrite !length_app, arg_ptrs_length. cbn [length]. unfold argc. lia. }
  assert (HW : ∀ i w, ws !! i = Some w → load32 m (sp + 4 * Z.of_nat i) = u32 w).
  { intros i w Hi. pose proof (lookup_lt_Some _ _ _ Hi). rewrite <- (put_words_load ws zero_mem 0 i w Hi), Z.add_0_l.
    apply load32_shift. intros x Hx. rewrite Hw by (unfold sp in *; lia). f_equal. lia. }
  assert (HP : ∀ i p, arg_ptrs top argv !! i = Some p → ws !! (3 + i)%nat = Some p).
  { intros i p Hi. unfold ws, ustack. rewrite lookup_app_r by (cbn; lia). rewrite lookup_app_l by (apply lookup_lt_Some in Hi; cbn; lia).
    cbn [length]. by replace (3 + i - 3)%nat with i by lia. }
  split.
  - unfold sp. replace (bot - (3 + argc + 1) * 4) with (bot + (- (3 + argc + 1)) * 4) by lia. by rewrite Z.mod_add by lia.
  - rewrite <- (Z.add_0_r sp). exact (HW 0%nat 0xffffffff eq_refl).
  - etransitivity; [exact (HW 1%nat argc eq_refl)|]. apply u32_small. unfold argc in *. lia.
  - etransitivity; [exact (HW 2%nat _ eq_refl)|]. unfold sp in *. rewrite !u32_small; rewrite ?u32_small; unfold argc in *; lia.
  - intros i a Hi. destruct (lookup_lt_is_Some_2 (arg_ptrs top argv) i) as [p Hpi].
    { rewrite arg_ptrs_length. by apply lookup_lt_Some in Hi. }
    destruct (Hp i a p Hi Hpi) as [B C]. exists p. split_and!; [|unfold sp in *; lia|done].
    replace (sp + 12 + 4 * Z.of_nat i) with (sp + 4 * Z.of_nat (3 + i)) by lia. rewrite (HW _ p (HP i p Hpi)). apply u32_small. unfold sp in *; lia.
  - replace (sp + 12 + 4 * Z.of_nat (length argv)) with (sp + 4 * Z.of_nat (3 + length argv)) by lia.
    rewrite (HW _ 0); [done|]. unfold ws, ustack. rewrite lookup_app_r by (cbn; lia). rewrite lookup_app_r by (rewrite arg_ptrs_length; cbn; lia).
    rewrite arg_ptrs_length. cbn [length]. by replace (3 + length argv - 3 - length argv)%nat with O by lia.
Qed.

(** ** The new image *)

(** What building a stack for [pgdir] may change: its own pages and free ones. *)
Definition own_page (k : kmem) (pgdir : Z) (l : list Z) (p : Z) : Prop :=
  istab k pgdir p ∨ p ∈ frames k pgdir 0 ∨ p ∈ l.

Record built (k : kmem) (pgdir : Z) (l : list Z) (k' : kmem) (l' : list Z) : Prop := Built {
  bl_space : uspace end_ k' pgdir l' 0;
  bl_used : ∃ u, l = u ++ l';
  bl_mem : ∀ x, (∀ p, own_page k pgdir l p → ¬ inpage p x) → pmem k' x = pmem k x;
  bl_own : ∀ p, istab k' pgdir p ∨ p ∈ frames k' pgdir 0 → own_page k pgdir l p
}.

(** The two pages of the stack: the lower one hidden, the upper one for the user. *)
Lemma stack_pages k pgdir l q :
  uspace end_ k pgdir l 0 → 0 ≤ q → q + 2 < NUPAGES → (absent k pgdir + 2 ≤ length l)%nat →
  (∀ r, q ≤ r < q + 2 → xlate k pgdir (PGSIZE * r) = None) →
  ∃ k1 k2 l', allocuvm end_ pgdir (PGSIZE * q) (PGSIZE * (q + 2)) false k = Done (PGSIZE * (q + 2), k1) ∧
    clearpteu pgdir (PGSIZE * q) k1 = Done ((), k2) ∧ built k pgdir l k2 l' ∧
    writable k2 pgdir (PGSIZE * (q + 1)) PGSIZE ∧
    (∃ e, xlate k2 pgdir (PGSIZE * q) = Some e ∧ has_bit e PTE_U = false) ∧
    (∀ a, 0 ≤ a < PGSIZE * q → user_view k2 pgdir a = user_view k pgdir a).
Proof.
  intros HU Hq Hn Hl Hx. pose proof (us_free _ _ _ _ _ HU) as Hf.
  destruct (grow_run end_ k pgdir l q 2 HU Hq Hn Hl Hx) as (k1 & l' & R1 & HU1 & Hu & HO1 & HN1 & HV1 & HM1 & HT1).
  change (Z.of_nat 2) with 2 in *. destruct (HN1 q ltac:(lia)) as (f & Hfl & Ef).
  pose proof (fp_ok _ _ _ Hf f Hfl) as Hfok. destruct (new_pte_user end_ f Hfok) as [Hfu Hfr].
  destruct (HN1 (q + 1) ltac:(lia)) as (g & Hgl & Eg). pose proof (fp_ok _ _ _ Hf g Hgl) as Hgok. destruct (new_pte_user end_ g Hgok) as [Hgu _].
  destruct (clearpteu_run end_ k1 pgdir l' q _ HU1 ltac:(lia) Ef Hfr) as (k2 & R2 & HU2 & HX2 & HV2 & HM2).
  destruct (page_index q ltac:(unfold NUPAGES in *; lia)) as [Q1 Q2].
  assert (Hpq : ∀ f, page_ok end_ f → frame_of (new_pte (V2P f) user_perm) = f).
  { intros x Hxo. destruct (V2P_P2V end_ x Hxo) as (W1 & W2 & W3 & _). destruct (new_pte_spec (V2P x) user_perm W2 W3 ltac:(done)) as (_ & _ & A1 & _).
    unfold frame_of. by rewrite A1. }
  destruct HM2 as [HM2 HT2].
  assert (Hown : ∀ p, istab k2 pgdir p ∨ p ∈ frames k2 pgdir 0 → own_page k pgdir l p).
  { intros p [Hp|Hp].
    - apply HT2, HT1 in Hp as [Hp|Hp]; [by left|by right; right].
    - apply elem_of_frames in Hp as (r & e & Hr & E & ->). destruct (page_index r ltac:(unfold NUPAGES in *; lia)) as [G1 G2].
      rewrite HX2, G2 in E by done. right. case_decide as Hrq.
      + injection E as <-. destruct (clear_u (new_pte (V2P f) user_perm)) as (_ & -> & _); [|done|].
        { destruct (V2P_P2V end_ f Hfok) as (_ & W2 & W3 & _). by destruct (new_pte_spec (V2P f) user_perm W2 W3 ltac:(done)) as (_ & ? & _). }
        right. by rewrite Hpq.
      + destruct (decide (r = q + 1)) as [->|Hr1].
        * rewrite Eg in E. injection E as <-. right. by rewrite Hpq.
        * rewrite HO1 in E by lia. left. apply elem_of_frames. by exists r, e. }
  exists k1, k2, l'. split_and!; [done|done| | | |].
  - split; [done|done| |done]. intros x Hxp. rewrite HM2, HM1; [done| |].
    + intros p [Hp|Hp]; apply Hxp; [by left|by right; right].
    + intros p Hp. apply Hxp. apply HT1 in Hp as [Hp|Hp]; [by left|by right; right].
  - intros a Ha. exists (new_pte (V2P g) user_perm). split; [|done]. 
    assert (Ha' : 0 ≤ a < KERNBASE) by (unfold PGSIZE, KERNBASE, NUPAGES in *; lia).
    destruct (user_page_number a Ha') as (A1 & A2 & A3). pose proof (Z.mod_pos_bound a PGSIZE ltac:(done)).
    assert (a / PGSIZE = q + 1) as Hqa by (unfold PGSIZE in *; lia).
    rewrite HX2, Hqa, decide_False by (done || lia). by rewrite xlate_page, Hqa.
  - eexists. rewrite HX2, Q2, decide_True by done. split; [done|].
    destruct (clear_u (new_pte (V2P f) user_perm)) as (_ & _ & Hc & _); [|done|done].
    destruct (V2P_P2V end_ f Hfok) as (_ & W2 & W3 & _). by destruct (new_pte_spec (V2P f) user_perm W2 W3 ltac:(done)) as (_ & ? & _).
  - intros a Ha. assert (Ha' : 0 ≤ a < KERNBASE) by (unfold PGSIZE, KERNBASE, NUPAGES in *; lia).
    rewrite HV2, HV1, decide_False by (done || lia). done.
Qed.

Lemma pushed_built k pgdir l k1 k2 l' lo hi :
  built k pgdir l k1 l' → pushed k1 k2 pgdir l' lo hi → built k pgdir l k2 l'.
Proof.
  intros [A1 A2 A3 A4] [B1 B2 _ B4].
  assert (HF : frames k2 pgdir 0 = frames k1 pgdir 0).
  { apply frames_ext. intros r Hr. apply B2, page_index. unfold NUPAGES in Hr. lia. }
  assert (He : ∀ p a, istab k1 pgdir p → inpage p a → pmem k2 a = pmem k1 a).
  { intros p a Hp Ha. apply B4. intros (f & Hf & Hfa). apply elem_of_frames in Hf as (r & e & Hr & E & ->).
    destruct (us_frame _ _ _ _ _ A1 r e Hr E) as (F1 & _ & F3).
    destruct (istab_page_ok _ _ _ _ _ (us_pt _ _ _ _ _ A1) Hp) as [Hpo _].
    apply (inpage_apart end_ p (frame_of e) a); [done|done| |done|done]. intros ->. done. }
  split; [done|done| |].
  - intros x Hx. rewrite B4, A3; [done|done|]. intros (f & Hf & Hfx). apply (Hx f); [|done]. apply A4. by right.
  - intros p. rewrite HF, (ext_istab k1 k2 pgdir He). apply A4.
Qed.

(** Two address spaces that share no page. *)
Definition apart_spaces (k : kmem) (pgdir old : Z) : Prop :=
  ∀ p, istab k old p ∨ p ∈ frames k old 0 → ¬ (istab k pgdir p ∨ p ∈ frames k pgdir 0).

Lemma own_page_ok k pgdir l p : uspace end_ k pgdir l 0 → own_page k pgdir l p → page_ok end_ p.
Proof.
  intros HU [Hp|[Hp|Hp]].
  - by apply (istab_page_ok _ _ _ _ _ (us_pt _ _ _ _ _ HU)).
  - apply elem_of_frames in Hp as (r & e & Hr & E & ->). by destruct (us_frame _ _ _ _ _ HU r e Hr E).
  - by apply (fp_ok _ _ _ (us_free _ _ _ _ _ HU)).
Qed.

Lemma istab_tables k pgdir p : istab k pgdir p ↔ p = pgdir ∨ p ∈ tables k pgdir (seq 0 NPDENTRIES).
Proof.
  unfold istab. rewrite elem_of_tables. split; (intros [->|H]; [by left|right]).
  - destruct H as (i & Hi & Hp & ->). exists (Z.to_nat i). rewrite Z2Nat.id by lia. split_and!; [|done..].
    apply elem_of_seq. unfold NPDENTRIES. lia.
  - destruct H as (i & Hi%elem_of_seq & Hp & ->). unfold NPDENTRIES in Hi. exists (Z.of_nat i). split_and!; try done; lia.
Qed.

(** Giving back the old address space leaves the new one as it is. *)
Lemma free_old k pgdir l old k1 l1 :
  uspace end_ k pgdir l 0 → uspace end_ k old l 0 → apart_spaces k pgdir old → built k pgdir l k1 l1 →
  ∃ k2 l2, freevm end_ old k1 = Done ((), k2) ∧ uspace end_ k2 pgdir l2 0 ∧
    (∀ p, p ∈ l2 ↔ istab k old p ∨ p ∈ frames k old 0 ∨ p ∈ l1) ∧
    (∀ va, 0 ≤ va < 2 ^ 32 → xlate k2 pgdir va = xlate k1 pgdir va) ∧
    (∀ a, 0 ≤ a < KERNBASE → user_view k2 pgdir a = user_view k1 pgdir a).
Proof.
  intros HU HO Hap HB. pose proof HB as [B1 [u Hu] B3 B4].
  assert (Hnot : ∀ p, istab k old p ∨ p ∈ frames k old 0 → page_ok end_ p ∧ p ∉ l ∧ ¬ own_page k pgdir l p).
  { intros p Hp. assert (Hpo : page_ok end_ p ∧ p ∉ l).
    { destruct Hp as [Hp|Hp]; [by apply (istab_page_ok _ _ _ _ _ (us_pt _ _ _ _ _ HO))|].
      apply elem_of_frames in Hp as (r & e & Hr & E & ->). by destruct (us_frame _ _ _ _ _ HO r e Hr E) as (? & ? & _). }
    split_and!; [apply Hpo|apply Hpo|]. intros [Hq|[Hq|Hq]]; [by apply (Hap p Hp); left|by apply (Hap p Hp); right|by destruct Hpo]. }
  assert (Hkeep : ∀ p x, istab k old p → inpage p x → pmem k1 x = pmem k x).
  { intros p x Hp Hx. destruct (Hnot p ltac:(by left)) as (P1 & P2 & P3). apply B3. intros q Hq.
    apply (inpage_apart end_ p q x); [done|exact (own_page_ok k pgdir l q HU Hq)| |done]. by intros <-. }
  assert (HO1 : uspace end_ k1 old l1 0).
  { apply (uspace_ext end_ k k1 old l l1 0 0); [done|lia|apply B1|done|]. intros p Hp. left. rewrite Hu. apply elem_of_app. by right. }
  pose proof (ext_xlate k k1 old Hkeep) as HX1.
  assert (HF1 : frames k1 old 0 = frames k old 0).
  { apply frames_ext. intros r Hr. apply HX1, page_index. unfold NUPAGES in Hr. lia. }
  destruct (freevm_run end_ Hend k1 old l1 HO1) as (k2 & R & Hf2 & HM2). rewrite HF1 in Hf2, HM2.
  set (l2 := old :: _) in Hf2.
  assert (Hl2 : ∀ p, p ∈ l2 ↔ istab k old p ∨ p ∈ frames k old 0 ∨ p ∈ l1).
  { intros p. rewrite <- (ext_istab k k1 old Hkeep), istab_tables. unfold l2.
    rewrite elem_of_cons, !elem_of_app, !(list_elem_of_In (rev _)), <- !in_rev, <- !list_elem_of_In. tauto. }
  assert (HN : ∀ p x, own_page k pgdir l p → inpage p x → pmem k2 x = pmem k1 x).
  { intros p x Hp Hx. apply HM2. intros q Hq. rewrite (ext_istab k k1 old Hkeep) in Hq.
    destruct (Hnot q Hq) as (Q1 & Q2 & Q3). apply (inpage_apart end_ p q x); [exact (own_page_ok k pgdir l p HU Hp)|done| |done]. by intros ->. }
  assert (HT : ∀ p x, istab k1 pgdir p → inpage p x → pmem k2 x = pmem k1 x).
  { intros p x Hp. apply HN, B4. by left. }
  exists k2, l2. split_and!; [done| |done|by apply ext_xlate|].
  - apply (uspace_ext end_ k1 k2 pgdir l1 l2 0 0); [done|lia|done|done|].
    intros p Hp. apply Hl2 in Hp. assert ((istab k old p ∨ p ∈ frames k old 0) ∨ p ∈ l1) as [Hp'|Hp'] by tauto; [right|by left].
    destruct (Hnot p Hp') as (_ & _ & P3). split; [intros Ht; apply P3, B4; by left|].
    intros r e Hr E <-. apply P3, B4. right. apply elem_of_frames. by exists r, e.
  - intros a Ha. destruct (user_page_number a Ha) as (A1 & A2 & A3). unfold user_view. rewrite (ext_xlate k1 k2 pgdir HT) by done.
    rewrite (xlate_page k1) by done. destruct (xlate k1 pgdir (PGSIZE * (a / PGSIZE))) as [e|] eqn:E; [|done].
    destruct (us_frame _ _ _ _ _ B1 (a / PGSIZE) e ltac:(lia) E) as (F1 & _).
    apply (HN (frame_of e)); [|by apply (in_frame end_)]. apply B4. right. apply elem_of_frames. by exists (a / PGSIZE), e.
Qed.

End stack.

(** ** Witness *)

(** Two empty address spaces and [n] free pages. *)
Lemma two_spaces n : Z.of_nat n ≤ 7000 → ∃ k d1 d2 l, length l = n ∧ uspace end0 k d1 l 0 ∧ uspace end0 k d2 l 0 ∧
  apart_spaces k d2 d1 ∧ (absent k d2 ≤ NPDENTRIES)%nat ∧ (∀ va, 0 ≤ va < 2 ^ 32 → xlate k d2 va = None).
Proof.
  intros Hn. destruct (free_machine (S (S n))) as (k & l & Hf & Hl); [lia|]. destruct l as [|d1 [|d2 l]]; [done|done|]. injection Hl as Hl.
  destruct (empty_uspace end0 k (d2 :: l) d1 Hf) as (k1' & U1 & _ & Ht1 & Hx1 & _).
  destruct (empty_uspace end0 k1' l d2 (us_free _ _ _ _ _ U1)) as (k2' & U2 & Ha2 & Ht2 & Hx2 & Hm2).
  pose proof (us_pt _ _ _ _ _ U1) as Ho1. pose proof (us_pt _ _ _ _ _ U2) as Ho2. pose proof (us_free _ _ _ _ _ U2) as Hf2.
  assert (He : ∀ p a, istab k1' d1 p → inpage p a → pmem k2' a = pmem k1' a).
  { intros p a ->%Ht1 Ha. apply Hm2. destruct (po_dir _ _ _ _ Ho1) as [P1 P2].
    apply (inpage_apart end0 d1); [done|apply Ho2| |done]. intros ->. apply P2. by constructor. }
  assert (F0 : ∀ d, (∀ va, 0 ≤ va < 2 ^ 32 → xlate k2' d va = None) → ∀ p, p ∉ frames k2' d 0).
  { intros d Hd p (r & e & Hr & E & _)%elem_of_frames. rewrite Hd in E; [done|]. apply page_index. unfold NUPAGES in Hr. lia. }
  assert (X1 : ∀ va, 0 ≤ va < 2 ^ 32 → xlate k2' d1 va = None) by (intros va Hva; by rewrite (ext_xlate k1' k2' d1 He), Hx1).
  exists k2', d1, d2, l. split_and!; [done| | | |done|done].
  - apply (uspace_ext end0 k1' k2' d1 (d2 :: l) l 0 0); [done|lia|done|done|]. intros p Hp. left. by constructor.
  - done.
  - intros p Hp Hq. destruct Hp as [Hp|Hp]; [|by apply (F0 d1 X1) in Hp]. destruct Hq as [Hq|Hq]; [|by apply (F0 d2 Hx2) in Hq].
    apply Ht2 in Hq as ->. rewrite (ext_istab k1' k2' d1 He) in Hp. apply Ht1 in Hp as <-.
    apply (proj2 (po_dir _ _ _ _ Ho1)). by constructor.
Qed.

Definition echo_hi : list (list Z) := [[101; 99; 104; 111]; [104; 105]].

