(* ===== verification/Sysfile.v ===== *)
(** * The system calls on files: kernel/syscall/sysfile.c

    Arguments come from the stack and the memory of the calling process.  The
    references to the file table are exact: every call keeps the count of an
    entry equal to the number of descriptors that name it. *)
From stdpp Require Import base decidable option list functions numbers strings sets.
From Stdlib Require Import ZArith Lia.
From S2P Require Import Prelude CString Pipe Kalloc Vm FsDefs Bio Log Fs FileDefs File Syscall Mount Exec.

Local Open Scope Z_scope.

Definition O_RDONLY : Z := 0x000.
Definition O_WRONLY : Z := 0x001.
Definition O_RDWR : Z := 0x002.
Definition O_CREATE : Z := 0x200.

(** ** Descriptors *)

(** The descriptor and its file. *)
Definition argfd (n : Z) (s : usys) : option (nat * nat) :=
  match argint n s with
  | None => None
  | Some fd =>
      if (fd <? 0) || (Z.of_nat NOFILE <=? fd) then None
      else match ofile s (Z.to_nat fd) with
           | Some f => Some (Z.to_nat fd, f)
           | None => None
           end
  end.

Definition set_fd (fd : nat) (f : option nat) (s : usys) : usys :=
  set_ofile (<[fd := f]> (ofile s)) s.

(** [None] is the result -1. *)
Definition fdalloc (f : nat) : M usys (option nat) :=
  s ← getS;
  match List.find (λ fd, bool_decide (ofile s fd = None)) (seq 0 NOFILE) with
  | Some fd => _ ← modS (set_fd fd (Some f)); mret (Some fd)
  | None => mret None
  end.

Definition sys_dup : M usys Z :=
  s ← getS;
  match argfd 0 s with
  | None => mret (-1)
  | Some (_, f) =>
      r ← fdalloc f;
      match r with
      | None => mret (-1)
      | Some fd => _ ← filedup f; mret (Z.of_nat fd)
      end
  end.

(** [struct stat] in memory. *)
Definition get_stat (m : mem) (a : Z) : stat :=
  Stat (s16 (load16 m a)) (s32 (load32 m (a + 4))) (load32 m (a + 8)) (s16 (load16 m (a + 12)))
       (load32 m (a + 16)).
Definition put_stat (m : mem) (a : Z) (st : stat) : mem :=
  store32 (store16 (store32 (store32 (store16 m a (st_type st)) (a + 4) (st_dev st))
    (a + 8) (st_ino st)) (a + 12) (st_nlink st)) (a + 16) (st_size st).
Definition STATSIZE : Z := 20.

Section sysfile.
Context (end_ data_ : Z).
Context (dev_read : Z → option (nat → mem → Z → Z → M fsys (Z * mem))).
Context (dev_write : Z → option (nat → mem → Z → Z → M fsys Z)).

(** The three arguments of [sys_read] and [sys_write]. *)
Definition io_args (s : usys) : option (nat * Z * Z) :=
  match argfd 0 s, argint 2 s with
  | Some (_, f), Some n => match argptr 1 n s with Some p => Some (f, p, n) | None => None end
  | _, _ => None
  end.

Definition sys_read : M usys Z :=
  s ← getS;
  match io_args s with
  | Some (f, p, n) => fileread dev_read f p n
  | None => mret (-1)
  end.

Definition sys_write : M usys Z :=
  s ← getS;
  match io_args s with
  | Some (f, p, n) => filewrite dev_write f p n
  | None => mret (-1)
  end.

Definition sys_close : M usys Z :=
  s ← getS;
  match argfd 0 s with
  | None => mret (-1)
  | Some (fd, f) =>
      _ ← modS (set_fd fd None);
      _ ← fileclose end_ f;
      mret 0
  end.

Definition sys_fstat : M usys Z :=
  s ← getS;
  match argfd 0 s, argptr 1 STATSIZE s with
  | Some (_, f), Some p =>
      '(r, st) ← filestat f (get_stat (umem s) p);
      _ ← modS (λ s, set_umem (put_stat (umem s) p st) s);
      mret r
  | _, _ => mret (-1)
  end.

Definition sys_pipe : M usys Z :=
  s ← getS;
  match argptr 0 8 s with
  | None => mret (-1)
  | Some fd =>
      r ← pipealloc end_;
      match r with
      | None => mret (-1)
      | Some (rf, wf) =>
          fd0 ← fdalloc rf;
          fd1 ← (match fd0 with Some _ => fdalloc wf | None => mret None end);
          match fd0, fd1 with
          | Some fd0, Some fd1 =>
              _ ← modS (λ s, set_umem (store32 (store32 (umem s) fd (Z.of_nat fd0)) (fd + 4) (Z.of_nat fd1)) s);
              mret 0
          | _, _ =>
              _ ← (match fd0 with Some fd0 => modS (set_fd fd0 None) | None => mret () end);
              _ ← fileclose end_ rf;
              _ ← fileclose end_ wf;
              mret (-1)
          end
      end
  end.

(** ** Names *)

Definition name_dot : mem := put_bytes zero_mem 0 [DOT].
Definition name_dotdot : mem := put_bytes zero_mem 0 [DOT; DOT].

Definition add_nlink (d : Z) (i : inode) : inode := set_i_nlink (s16 (i_nlink i + d)) i.

(** The label [bad] of [sys_link]. *)
Definition link_bad (ip : nat) : M fsys Z :=
  _ ← ilock (Some ip);
  _ ← modS (updi ip (add_nlink (-1)));
  _ ← iupdate ip;
  _ ← iunlockput ip;
  _ ← end_op;
  mret (-1).

Definition link (old new : list Z) : M fsys Z :=
  _ ← begin_op;
  ip ← namei dev_read 0 old;
  match ip with
  | None => _ ← end_op; mret (-1)
  | Some ip =>
      _ ← ilock (Some ip);
      s ← getS;
      if i_type (inodes s ip) =? T_DIR then
        _ ← iunlockput ip;
        _ ← end_op;
        mret (-1)
      else
        _ ← modS (updi ip (add_nlink 1));
        _ ← iupdate ip;
        _ ← iunlock (Some ip);
        '(dp, name) ← nameiparent dev_read 0 new zero_mem;
        match dp with
        | None => link_bad ip
        | Some dp =>
            _ ← ilock (Some dp);
            s ← getS;
            r ← (if negb (i_dev (inodes s dp) =? i_dev (inodes s ip)) then mret (-1)
                 else dirlink dev_read dev_write dp name (i_inum (inodes s ip)));
            if r <? 0 then
              _ ← iunlockput dp;
              link_bad ip
            else
              _ ← iunlockput dp;
              _ ← iput ip;
              _ ← end_op;
              mret 0
        end
  end.

Definition sys_link : M usys Z :=
  s ← getS;
  match arg_path 0 s, arg_path 1 s with
  | Some old, Some new => onfs (link old new)
  | _, _ => mret (-1)
  end.

(** The loop of [isdirempty] over the offsets from the third entry on. *)
Fixpoint isdirempty_loop (dp : nat) (offs : list Z) : M fsys bool :=
  match offs with
  | [] => mret true
  | off :: offs =>
      '(r, de) ← readi dev_read dp zero_mem 0 off DESIZE;
      if negb (r =? DESIZE) then panic "isdirempty: readi"
      else if negb (de_inum de =? 0) then mret false
      else isdirempty_loop dp offs
  end.

Definition isdirempty (dp : nat) : M fsys bool :=
  s ← getS;
  isdirempty_loop dp (drop 2 (de_offsets (i_size (inodes s dp)))).

Definition unlink_bad (dp : nat) : M fsys Z :=
  _ ← iunlockput dp;
  _ ← end_op;
  mret (-1).

Definition unlink (path : list Z) : M fsys Z :=
  _ ← begin_op;
  '(dp, name) ← nameiparent dev_read 0 path zero_mem;
  match dp with
  | None => _ ← end_op; mret (-1)
  | Some dp =>
      _ ← ilock (Some dp);
      if (namecmp name name_dot =? 0) || (namecmp name name_dotdot =? 0) then unlink_bad dp
      else
        r ← dirlookup dev_read dp name false;
        match r with
        | None => unlink_bad dp
        | Some (ip, off) =>
            _ ← ilock (Some ip);
            s ← getS;
            if i_nlink (inodes s ip) <? 1 then panic "unlink: nlink < 1"
            else
              full ← (if i_type (inodes s ip) =? T_DIR then e ← isdirempty ip; mret (negb e)
                      else mret false);
              if (full : bool) then
                _ ← iunlockput ip;
                unlink_bad dp
              else
                r ← writei dev_write dp zero_mem 0 off DESIZE;
                if negb (r =? DESIZE) then panic "unlink: writei"
                else
                  s ← getS;
                  _ ← mwhen (i_type (inodes s ip) =? T_DIR)
                        (_ ← modS (updi dp (add_nlink (-1))); iupdate dp);
                  _ ← iunlockput dp;
                  _ ← modS (updi ip (add_nlink (-1)));
                  _ ← iupdate ip;
                  _ ← iunlockput ip;
                  _ ← end_op;
                  mret 0
        end
  end.

Definition sys_unlink : M usys Z :=
  s ← getS;
  match arg_path 0 s with
  | Some path => onfs (unlink path)
  | None => mret (-1)
  end.

Definition create (path : list Z) (type major minor : Z) : M fsys (option nat) :=
  '(dp, name) ← nameiparent dev_read 0 path zero_mem;
  match dp with
  | None => mret None
  | Some dp =>
      _ ← ilock (Some dp);
      r ← dirlookup dev_read dp name true;
      match r with
      | Some (ip, _) =>
          _ ← iunlockput dp;
          _ ← ilock (Some ip);
          s ← getS;
          if (type =? T_FILE) && (i_type (inodes s ip) =? T_FILE) then mret (Some ip)
          else _ ← iunlockput ip; mret None
      | None =>
          s ← getS;
          ip ← ialloc (i_dev (inodes s dp)) type;
          _ ← ilock (Some ip);
          _ ← modS (updi ip (λ i, set_i_nlink 1 (set_i_minor minor (set_i_major major i))));
          _ ← iupdate ip;
          _ ← mwhen (type =? T_DIR)
                (_ ← modS (updi dp (add_nlink 1));
                 _ ← iupdate dp;
                 s ← getS;
                 r ← dirlink dev_read dev_write ip name_dot (i_inum (inodes s ip));
                 if r <? 0 then panic "create dots"
                 else
                   s ← getS;
                   r ← dirlink dev_read dev_write ip name_dotdot (i_inum (inodes s dp));
                   if r <? 0 then panic "create dots" else mret ());
          s ← getS;
          r ← dirlink dev_read dev_write dp name (i_inum (inodes s ip));
          if r <? 0 then panic "create: dirlink"
          else _ ← iunlockput dp; mret (Some ip)
      end
  end.

(** ** Opening *)

(** The inode, locked, or [None] with the operation ended. *)
Definition open_inode (path : list Z) (omode : Z) : M fsys (option nat) :=
  _ ← begin_op;
  if c_true (Z.land omode O_CREATE) then
    ip ← create path T_FILE 0 0;
    match ip with
    | None => _ ← end_op; mret None
    | Some ip => mret (Some ip)
    end
  else
    ip ← namei dev_read 0 path;
    match ip with
    | None => _ ← end_op; mret None
    | Some ip =>
        _ ← ilock (Some ip);
        s ← getS;
        if (i_type (inodes s ip) =? T_DIR) && negb (omode =? O_RDONLY) then
          _ ← iunlockput ip;
          _ ← end_op;
          mret None
        else mret (Some ip)
    end.

(** The file of an [open] in mode [omode]. *)
Definition open_file (ip : nat) (omode : Z) (x : file) : file :=
  set_f_writable (c_true (Z.land omode O_WRONLY) || c_true (Z.land omode O_RDWR))
    (set_f_readable (negb (c_true (Z.land omode O_WRONLY)))
      (set_f_off 0 (set_f_ip (Some ip) (set_f_type FD_INODE x)))).

Definition open_bad (ip : nat) : M fsys Z :=
  _ ← iunlockput ip;
  _ ← end_op;
  mret (-1).

Definition open (path : list Z) (omode : Z) : M usys Z :=
  ip ← onfs (open_inode path omode);
  match ip with
  | None => mret (-1)
  | Some ip =>
      f ← filealloc;
      match f with
      | None => onfs (open_bad ip)
      | Some f =>
          fd ← fdalloc f;
          match fd with
          | None => _ ← fileclose end_ f; onfs (open_bad ip)
          | Some fd =>
              _ ← onfs (iunlock (Some ip));
              _ ← onfs end_op;
              _ ← modS (updf f (open_file ip omode));
              mret (Z.of_nat fd)
          end
      end
  end.

Definition sys_open : M usys Z :=
  s ← getS;
  match arg_path 0 s, argint 1 s with
  | Some path, Some omode => open path omode
  | _, _ => mret (-1)
  end.

(** The common end of [sys_mkdir] and [sys_mknod]. *)
Definition make (ip : option nat) : M fsys Z :=
  match ip with
  | None => _ ← end_op; mret (-1)
  | Some ip => _ ← iunlockput ip; _ ← end_op; mret 0
  end.

Definition sys_mkdir : M usys Z :=
  _ ← onfs begin_op;
  s ← getS;
  ip ← (match arg_path 0 s with Some path => onfs (create path T_DIR 0 0) | None => mret None end);
  onfs (make ip).

Definition sys_mknod : M usys Z :=
  _ ← onfs begin_op;
  s ← getS;
  ip ← (match arg_path 0 s, argint 1 s, argint 2 s with
        | Some path, Some major, Some minor => onfs (create path T_DEV (s16 major) (s16 minor))
        | _, _, _ => mret None
        end);
  onfs (make ip).

Definition chdir (ip : nat) : M fsys Z :=
  _ ← ilock (Some ip);
  s ← getS;
  if negb (i_type (inodes s ip) =? T_DIR) then
    _ ← iunlockput ip;
    _ ← end_op;
    mret (-1)
  else
    _ ← iunlock (Some ip);
    cwd ← gets mycwd;
    cwd ← deref cwd;
    _ ← iput cwd;
    _ ← end_op;
    _ ← modS (set_mycwd (Some ip));
    mret 0.

Definition sys_chdir : M usys Z :=
  _ ← onfs begin_op;
  s ← getS;
  ip ← (match arg_path 0 s with Some path => onfs (namei dev_read 0 path) | None => mret None end);
  match ip with
  | None => _ ← onfs end_op; mret (-1)
  | Some ip => onfs (chdir ip)
  end.

(** ** [sys_exec], [sys_mount], [sys_umount] *)

(** The argument strings from [argv[i]] on, in a table of [n] more entries. *)
Fixpoint exec_args (n : nat) (uargv i : Z) (s : usys) : option (list (list Z)) :=
  match n with
  | O => None
  | S n =>
      match fetchint (u32 (uargv + 4 * i)) s with
      | None => None
      | Some uarg =>
          if uarg =? 0 then Some []
          else
            match fetchstr (u32 uarg) s with
            | None => None
            | Some (a, len) =>
                match exec_args n uargv (i + 1) s with
                | Some l => Some (bytes_at (umem s) a len :: l)
                | None => None
                end
            end
      end
  end.

Definition sys_exec : M usys Z :=
  s ← getS;
  match arg_path 0 s, argint 1 s with
  | Some path, Some uargv =>
      match exec_args (Z.to_nat MAXARG) (u32 uargv) 0 s with
      | Some argv => exec end_ data_ dev_read path argv
      | None => mret (-1)
      end
  | _, _ => mret (-1)
  end.

Definition sys_mount : M usys Z :=
  s ← getS;
  match argint 0 s, arg_path 1 s with
  | Some dev, Some path =>
      r ← mount dev_read (u32 dev) path;
      if negb (r =? 0) then mret r else mret (-1)
  | _, _ => mret (-1)
  end.

Definition sys_umount : M usys Z :=
  s ← getS;
  match arg_path 0 s with
  | Some path => r ← unmount dev_read path; if negb (r =? 0) then mret r else mret 0
  | None => mret (-1)
  end.
End sysfile.

(** ** Reference counts *)

(** The descriptors of the process that name file [f]. *)
Definition fd_count (o : nat → option nat) (f : nat) : Z :=
  Z.of_nat (length (filter (λ fd, o fd = Some f) (seq 0 NOFILE))).

(** Every entry of the file table counts the descriptors that name it and
    [K f] references held elsewhere; free entries are [FD_NONE]. *)
Record refs_ok (K : nat → Z) (s : usys) : Prop := RefsOk {
  refs_fd : ∀ fd f, (fd < NOFILE)%nat → ofile s fd = Some f → (f < NFILE)%nat;
  refs_count : ∀ f, (f < NFILE)%nat → f_ref (ftable s f) = fd_count (ofile s) f + K f;
  refs_free : ∀ f, (f < NFILE)%nat → f_ref (ftable s f) = 0 → f_type (ftable s f) = FD_NONE }.

(** One more reference to [f]. *)
Definition plus (K : nat → Z) (f : nat) : nat → Z := λ g, if decide (f = g) then K g + 1 else K g.
Definition minus (K : nat → Z) (f : nat) : nat → Z := λ g, if decide (f = g) then K g - 1 else K g.

Lemma fd_count_range o f : 0 ≤ fd_count o f ≤ 16.
Proof.
  unfold fd_count. pose proof (length_filter (λ fd, o fd = Some f) (seq 0 NOFILE)) as H.
  rewrite length_seq in H. unfold NOFILE in H. unfold NOFILE. lia.
Qed.

Lemma fd_count_set o fd f g : (fd < NOFILE)%nat → o fd = None →
  fd_count (<[fd := Some f]> o) g = if decide (f = g) then fd_count o g + 1 else fd_count o g.
Proof.
  intros Hfd Ho. unfold fd_count. assert (fd ∈ seq 0 NOFILE) by (apply elem_of_seq; lia).
  case_decide as Hfg.
  - subst g. rewrite (filter_flip (λ x, (<[fd := Some f]> o : nat → option nat) x = Some f)
      (λ x, o x = Some f) (seq 0 NOFILE) fd); [lia|apply NoDup_seq|done| |congruence|].
    + apply fn_lookup_insert.
    + intros x _ Hx. by rewrite fn_lookup_insert_ne.
  - do 2 f_equal. apply filter_same. intros x _. destruct (decide (x = fd)) as [->|Hx].
    + rewrite fn_lookup_insert, Ho. split; congruence.
    + by rewrite fn_lookup_insert_ne.
Qed.

Lemma fd_count_clear o fd f g : (fd < NOFILE)%nat → o fd = Some f →
  fd_count (<[fd := None]> o) g = if decide (f = g) then fd_count o g - 1 else fd_count o g.
Proof.
  intros Hfd Ho. pose proof (fd_count_set (<[fd := None]> o) fd f g Hfd (fn_lookup_insert _ _ _)) as H.
  assert (Heq : fd_count (<[fd := Some f]> (<[fd := None]> o)) g = fd_count o g).
  { unfold fd_count. do 2 f_equal. apply filter_same. intros x _. destruct (decide (x = fd)) as [->|Hx].
    - by rewrite fn_lookup_insert, Ho.
    - by rewrite !fn_lookup_insert_ne. }
  rewrite Heq in H. case_decide; lia.
Qed.

(** States with the same descriptors, counts and types. *)
Lemma refs_ext K s s' :
  ofile s' = ofile s →
  (∀ f, f_ref (ftable s' f) = f_ref (ftable s f) ∧
        (f_type (ftable s' f) = f_type (ftable s f) ∨ f_ref (ftable s f) ≠ 0)) →
  refs_ok K s → refs_ok K s'.
Proof.
  intros Ho Hf [H1 H2 H3]. split.
  - intros fd f Hfd. rewrite Ho. by apply H1.
  - intros f Hlt. rewrite (proj1 (Hf f)), Ho. by apply H2.
  - intros f Hlt. destruct (Hf f) as [-> [->|Hn]]; [by apply H3|done].
Qed.

Lemma refs_same K s s' : ofile s' = ofile s → ftable s' = ftable s → refs_ok K s → refs_ok K s'.
Proof. intros Ho Hf. apply refs_ext; [done|]. intros f. rewrite Hf. auto. Qed.

Lemma refs_iff K K' s : (∀ f, K f = K' f) → refs_ok K s → refs_ok K' s.
Proof. intros HK [H1 H2 H3]. split; [done| |done]. intros f Hf. rewrite <- HK. by apply H2. Qed.

Lemma keeps_refs_fs {A} K (m : M fsys A) : keeps (refs_ok K) (onfs m).
Proof. apply keeps_zoom. intros s t. by apply refs_same. Qed.
Lemma keeps_refs_pages {A} K (m : M kmem A) : keeps (refs_ok K) (onpages m).
Proof. apply keeps_zoom. intros s t. by apply refs_same. Qed.
#[local] Hint Resolve keeps_refs_fs keeps_refs_pages : keeps.

Lemma refs_fd_set K s fd f : (fd < NOFILE)%nat → (f < NFILE)%nat → ofile s fd = None →
  refs_ok K s → refs_ok (minus K f) (set_fd fd (Some f) s).
Proof.
  intros Hfd Hf Ho [H1 H2 H3]. split; [| |exact H3].
  - intros fd' g Hfd'. cbn [ofile set_fd set_ofile]. destruct (decide (fd' = fd)) as [->|Hne].
    + rewrite fn_lookup_insert. congruence.
    + rewrite fn_lookup_insert_ne by done. by apply H1.
  - intros g Hg. change (ftable (set_fd fd (Some f) s)) with (ftable s).
    change (ofile (set_fd fd (Some f) s)) with (<[fd := Some f]> (ofile s)).
    rewrite fd_count_set, (H2 g Hg) by done. unfold minus. case_decide; lia.
Qed.

Lemma refs_fd_clear K s fd f : (fd < NOFILE)%nat → ofile s fd = Some f →
  refs_ok K s → refs_ok (plus K f) (set_fd fd None s).
Proof.
  intros Hfd Ho [H1 H2 H3]. split; [| |exact H3].
  - intros fd' g Hfd'. cbn [ofile set_fd set_ofile]. destruct (decide (fd' = fd)) as [->|Hne].
    + by rewrite fn_lookup_insert.
    + rewrite fn_lookup_insert_ne by done. by apply H1.
  - intros g Hg. change (ftable (set_fd fd None s)) with (ftable s).
    change (ofile (set_fd fd None s)) with (<[fd := None]> (ofile s)).
    rewrite (fd_count_clear _ _ f), (H2 g Hg) by done. unfold plus. case_decide; lia.
Qed.

(** A change of one count. *)
Lemma refs_updf K K' s f g :
  (f < NFILE)%nat → (∀ h, h ≠ f → K' h = K h) →
  f_ref (g (ftable s f)) - f_ref (ftable s f) = K' f - K f →
  (f_ref (g (ftable s f)) = 0 → f_type (g (ftable s f)) = FD_NONE) →
  refs_ok K s → refs_ok K' (updf f g s).
Proof.
  intros Hf HK Hd Ht [H1 H2 H3]. split; [exact H1| |].
  - intros h Hh. rewrite ftable_updf. change (ofile (updf f g s)) with (ofile s). case_decide as E.
    + subst h. specialize (H2 f Hf). lia.
    + rewrite HK by done. by apply H2.
  - intros h Hh. rewrite ftable_updf. case_decide; [subst; exact Ht|by apply H3].
Qed.

Lemma find_seq (p : nat → bool) n x : List.find p (seq 0 n) = Some x → (x < n)%nat ∧ p x = true.
Proof. intros H%find_some. destruct H as [H1%in_seq H2]. split; [lia|done]. Qed.

Lemma filealloc_refs K :
  triple (refs_ok K) filealloc
    (λ r s, match r with Some f => (f < NFILE)%nat ∧ refs_ok (plus K f) s | None => refs_ok K s end).
Proof.
  unfold filealloc. apply triple_getS. intros s.
  destruct (List.find _ _) as [f|] eqn:Hf.
  - apply find_seq in Hf as [Hlt H0%Z.eqb_eq]. intros ? ? ? [-> HP]. rewrite run_modS. intros [= <- <-].
    split; [done|]. apply (refs_updf K); try done.
    + intros h Hh. unfold plus. by rewrite decide_False.
    + unfold plus. rewrite decide_True by done. cbn [f_ref set_f_ref]. lia.
  - by intros ? ? ? [-> HP] [= <- <-].
Qed.

Lemma fdalloc_refs K f : (f < NFILE)%nat →
  triple (refs_ok K) (fdalloc f)
    (λ r s, match r with
            | Some fd => (fd < NOFILE)%nat ∧ ofile s fd = Some f ∧ refs_ok (minus K f) s
            | None => refs_ok K s end).
Proof.
  intros Hf. unfold fdalloc. apply triple_getS. intros s.
  destruct (List.find _ _) as [fd|] eqn:Hfd.
  - apply find_seq in Hfd as [Hlt H0%bool_decide_eq_true]. intros ? ? ? [-> HP]. rewrite run_modS.
    intros [= <- <-]. split; [done|]. split; [apply fn_lookup_insert|]. by apply refs_fd_set.
  - by intros ? ? ? [-> HP] [= <- <-].
Qed.

Lemma filedup_refs K f : (f < NFILE)%nat → K f < 2 ^ 30 →
  triple (refs_ok K) (filedup f) (λ _, refs_ok (plus K f)).
Proof.
  intros Hf HK. unfold filedup. apply triple_getS. intros s.
  destruct (Z.ltb_spec (f_ref (ftable s f)) 1) as [|Hr]; [by intros ? ? ? _|].
  intros ? ? ? [-> HP]. rewrite run_modS. intros [= _ <-].
  pose proof (refs_count _ _ HP f Hf) as Hc. pose proof (fd_count_range (ofile s) f).
  apply (refs_updf K); try done.
  - intros h Hh. unfold plus. by rewrite decide_False.
  - unfold plus. rewrite decide_True by done. cbn [f_ref set_f_ref]. rewrite s32_small; lia.
  - cbn [f_ref set_f_ref]. rewrite s32_small; lia.
Qed.

(** An update outside the file table and the descriptors. *)
Ltac refs_frame := match goal with H : refs_ok _ ?x |- _ => solve [by apply (refs_same _ x)] end.

Section calls.
Context (end_ data_ : Z).
Context (dev_read : Z → option (nat → mem → Z → Z → M fsys (Z * mem))).
Context (dev_write : Z → option (nat → mem → Z → Z → M fsys Z)).

Lemma keeps_close_pipe K p w : keeps (refs_ok K) (close_pipe end_ p w).
Proof.
  unfold close_pipe. keep. all: refs_frame.
Qed.
#[local] Hint Resolve keeps_close_pipe : keeps.

(** A file closed is one reference fewer. *)
Lemma fileclose_refs K f : (f < NFILE)%nat → 0 ≤ K f < 2 ^ 30 →
  triple (refs_ok (plus K f)) (fileclose end_ f) (λ _, refs_ok K).
Proof.
  intros Hf HK. unfold fileclose. apply triple_getS. intros s.
  destruct (Z.ltb_spec (f_ref (ftable s f)) 1) as [|Hr]; [by intros ? ? ? _|].
  intros ? a s' [-> HP]. pose proof (refs_count _ _ HP f Hf) as Hc. unfold plus in Hc.
  rewrite decide_True in Hc by done. pose proof (fd_count_range (ofile s) f).
  rewrite run_modS, run_getS, ftable_updf, decide_True by done.
  assert (Hr' : f_ref (set_f_ref (s32 (f_ref (ftable s f) - 1)) (ftable s f)) = f_ref (ftable s f) - 1).
  { cbn [f_ref set_f_ref]. apply s32_small. lia. }
  assert (HKo : ∀ h, h ≠ f → K h = plus K f h) by (intros h Hh; unfold plus; by rewrite decide_False).
  assert (HKf : plus K f f = K f + 1) by (unfold plus; by rewrite decide_True).
  rewrite Hr'. destruct (Z.ltb_spec 0 (f_ref (ftable s f) - 1)) as [Hpos|Hz].
  - intros [= _ <-]. apply (refs_updf (plus K f)); rewrite ?Hr'; try done; lia.
  - rewrite !run_modS. set (t := updf f _ _). intros Hrest.
    assert (Ht : refs_ok K t).
    { apply (refs_ext K (updf f (λ x, set_f_type FD_NONE (set_f_ref 0 x)) s)); [done| |].
      - intros h. unfold t. rewrite !ftable_updf. repeat case_decide; by auto.
      - apply (refs_updf (plus K f)); try done. cbn [f_ref set_f_type set_f_ref]. lia. }
    clearbody t. revert t a s' Ht Hrest.
    change (keeps (refs_ok K) (match f_type (set_f_ref (s32 (f_ref (ftable s f) - 1)) (ftable s f)) with
      | FD_PIPE => close_pipe end_ (f_pipe (set_f_ref (s32 (f_ref (ftable s f) - 1)) (ftable s f)))
           (f_writable (set_f_ref (s32 (f_ref (ftable s f) - 1)) (ftable s f)))
      | FD_INODE =>
          _ ← onfs begin_op;
          ip ← deref (f_ip (set_f_ref (s32 (f_ref (ftable s f) - 1)) (ftable s f)));
          _ ← onfs (iput ip); onfs end_op
      | _ => mret ()
      end)). keep.
Qed.

Lemma plus_minus K f g : plus (minus K f) f g = K g.
Proof. unfold plus, minus. case_decide; lia. Qed.
Lemma minus_plus K f g : minus (plus K f) f g = K g.
Proof. unfold plus, minus. case_decide; lia. Qed.
Lemma plus_range K f g : K g ≤ plus K f g ≤ K g + 1.
Proof. unfold plus. case_decide; lia. Qed.

Lemma refs_live K s f : (f < NFILE)%nat → 0 ≤ K f → refs_ok K s →
  (0 < K f ∨ ∃ fd, (fd < NOFILE)%nat ∧ ofile s fd = Some f) → f_ref (ftable s f) ≠ 0.
Proof.
  intros Hf HK HP Hl. rewrite (refs_count _ _ HP f Hf). pose proof (fd_count_range (ofile s) f).
  destruct Hl as [|(fd & Hfd & Ho)]; [lia|].
  pose proof (fd_count_clear (ofile s) fd f f Hfd Ho) as Hc. rewrite decide_True in Hc by done.
  pose proof (fd_count_range (<[fd := None]> (ofile s)) f). lia.
Qed.

(** Setting the fields of an open file. *)
Lemma refs_fields K s f g : (f < NFILE)%nat → f_ref (ftable s f) ≠ 0 →
  f_ref (g (ftable s f)) = f_ref (ftable s f) → refs_ok K s → refs_ok K (updf f g s).
Proof.
  intros Hf H0 Hg. apply refs_ext; [done|]. intros h. rewrite ftable_updf. case_decide; subst; auto.
Qed.

Context (K : nat → Z) (HK : ∀ f, 0 ≤ K f < 2 ^ 29).

Lemma argfd_file n s fd f : refs_ok K s → argfd n s = Some (fd, f) →
  (fd < NOFILE)%nat ∧ ofile s fd = Some f ∧ (f < NFILE)%nat.
Proof.
  intros HP. unfold argfd. destruct (argint n s) as [i|]; [|done].
  destruct (Z.ltb_spec i 0), (Z.leb_spec (Z.of_nat NOFILE) i); try done. cbn [orb].
  destruct (ofile s (Z.to_nat i)) as [g|] eqn:Ho; [|done]. intros [= <- <-].
  assert (Z.to_nat i < NOFILE)%nat by (unfold NOFILE in *; lia). eauto using refs_fd.
Qed.

Lemma sys_dup_refs : keeps (refs_ok K) sys_dup.
Proof.
  unfold sys_dup. apply triple_getS. intros s. destruct (argfd 0 s) as [[fd f]|] eqn:Ha.
  2: { apply triple_pre with (refs_ok K); [tauto|]. apply keeps_ret. }
  intros s0 r s1 [-> HP]. destruct (argfd_file _ _ _ _ HP Ha) as (_ & _ & Hf). revert HP.
  refine (triple_bind _ _ (λ _, refs_ok K) _ _ (fdalloc_refs K f Hf) _ s r s1). intros [fd'|]; [|apply keeps_ret].
  apply triple_pre with (refs_ok (minus K f)); [tauto|].
  eapply triple_bind; [apply filedup_refs; [done|]|].
  - unfold minus. rewrite decide_True by done. pose proof (HK f). lia.
  - intros ?. intros t b t' Ht [= _ <-]. apply (refs_iff _ _ _ (plus_minus K f) Ht).
Qed.

Lemma sys_close_refs : keeps (refs_ok K) (sys_close end_).
Proof.
  unfold sys_close. apply triple_getS. intros s. destruct (argfd 0 s) as [[fd f]|] eqn:Ha.
  2: { apply triple_pre with (refs_ok K); [tauto|]. apply keeps_ret. }
  intros s0 r s1 [-> HP]. destruct (argfd_file _ _ _ _ HP Ha) as (Hfd & Ho & Hf).
  rewrite run_modS. refine (triple_bind _ _ (λ _, refs_ok K) _ _ _ _ _ r s1 (refs_fd_clear _ _ _ _ Hfd Ho HP)); [apply fileclose_refs; [done|pose proof (HK f); lia]|]. intros []. apply keeps_ret.
Qed.

Definition pipe_refs (x : option (nat * nat)) (s : usys) : Prop :=
  match x with
  | Some (r, w) => (r < NFILE)%nat ∧ (w < NFILE)%nat ∧ refs_ok (plus (plus K r) w) s
  | None => refs_ok K s
  end.

Lemma pipealloc_refs : triple (refs_ok K) (pipealloc end_) pipe_refs.
Proof.
  unfold pipealloc. eapply triple_bind; [apply filealloc_refs|]. intros [r|].
  2: exact (triple_ret None pipe_refs).
  apply triple_pure. intros Hr. eapply triple_bind; [apply filealloc_refs|].
  pose proof (HK r) as Hbr. intros [w|].
  2: { unfold pipealloc_bad. eapply triple_bind; [apply fileclose_refs; [done|lia]|].
       intros []. eapply triple_bind; [apply keeps_ret|]. intros []. exact (triple_ret None pipe_refs). }
  apply triple_pure. intros Hw. eapply triple_bind; [apply keeps_refs_pages|].
  pose proof (HK w) as Hbw. intros p. destruct (p =? 0).
  - unfold pipealloc_bad.
    apply triple_pre with (refs_ok (plus (plus K w) r)).
    { intros t. apply refs_iff. intros f. unfold plus. repeat case_decide; lia. }
    eapply triple_bind; [apply fileclose_refs; [done|pose proof (plus_range K w r); lia]|].
    intros []. eapply triple_bind; [apply fileclose_refs; [done|lia]|].
    intros []. exact (triple_ret None pipe_refs).
  - intros t y t' HP. rewrite !run_modS. intros [= <- <-]. split; [done|]. split; [done|].
    assert (Hl : ∀ f u, (f < NFILE)%nat → f = r ∨ f = w →
      refs_ok (plus (plus K r) w) u → f_ref (ftable u f) ≠ 0).
    { intros f u Hf Hrw Hu. assert (0 < plus (plus K r) w f) as Hp.
      { pose proof (HK f). unfold plus. repeat case_decide; subst; naive_solver lia. }
      apply (refs_live (plus (plus K r) w) u f Hf ltac:(lia) Hu). by left. }
    match goal with |- refs_ok _ (updf w _ (updf r ?h ?u)) =>
      assert (H0 : refs_ok (plus (plus K r) w) u) by (by apply (refs_same _ t));
      assert (H1 : refs_ok (plus (plus K r) w) (updf r h u)) by (apply refs_fields; auto) end.
    apply refs_fields; auto.
Qed.

Lemma sys_pipe_refs : keeps (refs_ok K) (sys_pipe end_).
Proof.
  unfold sys_pipe. apply triple_getS. intros s. apply triple_pre with (refs_ok K); [tauto|].
  destruct (argptr 0 8 s) as [fd|]; [|apply keeps_ret].
  eapply triple_bind; [apply pipealloc_refs|]. intros [[r w]|]; [|apply keeps_ret].
  apply triple_pure. intros Hr. apply triple_pure. intros Hw.
  pose proof (HK r) as Hbr. pose proof (HK w) as Hbw.
  assert (Hclose : triple (refs_ok (plus (plus K r) w))
    (_ ← fileclose end_ r; _ ← fileclose end_ w; mret (-1)) (λ _, refs_ok K)).
  { apply triple_pre with (refs_ok (plus (plus K w) r)).
    { intros t. apply refs_iff. intros f. unfold plus. repeat case_decide; lia. }
    eapply triple_bind; [apply fileclose_refs; [done|pose proof (plus_range K w r); lia]|].
    intros ?. eapply triple_bind; [apply fileclose_refs; [done|lia]|]. intros ?. apply keeps_ret. }
  eapply triple_bind; [by apply fdalloc_refs|]. intros [fd0|].
  - apply triple_pure. intros Hfd0. intros t y t' [Ho HP].
    destruct (fdalloc w t) as [[[fd1|] t1]| | | |] eqn:Ha; rewrite run_bind, Ha; try done.
    + rewrite run_modS. intros [= <- <-]. apply (fdalloc_refs _ w Hw _ _ _ HP) in Ha as (_ & _ & H1).
      apply (refs_same _ t1); [done..|]. revert H1. apply refs_iff.
      intros f. unfold plus, minus. repeat case_decide; lia.
    + rewrite run_modS. unfold fdalloc in Ha. rewrite run_getS in Ha.
      destruct (List.find _ _); [done|]. injection Ha as <-.
      apply (Hclose _ _ _). apply (refs_iff (plus (minus (plus (plus K r) w) r) r)).
      { intros f. apply plus_minus. } by apply refs_fd_clear.
  - eapply triple_bind; [apply keeps_ret|]. intros ?. destruct a; [done|].
    eapply triple_bind; [apply keeps_ret|]. intros ?. exact Hclose.
Qed.

Lemma sys_open_refs : keeps (refs_ok K) (sys_open end_ dev_read dev_write).
Proof.
  unfold sys_open. apply triple_getS. intros s. apply triple_pre with (refs_ok K); [tauto|].
  destruct (arg_path 0 s) as [path|]; [|apply keeps_ret].
  destruct (argint 1 s) as [omode|]; [|apply keeps_ret]. unfold open.
  eapply triple_bind; [apply keeps_refs_fs|]. intros [ip|]; [|apply keeps_ret].
  eapply triple_bind; [apply filealloc_refs|]. intros [f|]; [|apply keeps_refs_fs].
  apply triple_pure. intros Hf. pose proof (HK f) as Hb.
  eapply triple_bind; [by apply fdalloc_refs|]. intros [fd|].
  - apply triple_pure. intros Hfd.
    apply triple_pre with (λ s, ofile s fd = Some f ∧ refs_ok K s).
    { intros t [Ho HP]. split; [done|]. apply (refs_iff _ _ _ (minus_plus K f) HP). }
    assert (Hz : ∀ A (m : M fsys A), keeps (λ s, ofile s fd = Some f ∧ refs_ok K s) (onfs m)).
    { intros A m. apply keeps_zoom. intros t v [Ho HP]. split; [done|]. by apply (refs_same _ t). }
    eapply triple_bind; [apply Hz|]. intros ?. eapply triple_bind; [apply Hz|]. intros ?.
    intros t y t' [Ho HP]. rewrite run_modS. intros [= _ <-]. apply refs_fields; try done.
    apply (refs_live K); [done|lia|done|eauto].
  - eapply triple_bind; [apply fileclose_refs; [done|lia]|]. intros ?. apply keeps_refs_fs.
Qed.

Lemma refs_off s f g :
  (∀ x, f_ref (g x) = f_ref x) → (∀ x, f_type (g x) = f_type x) →
  refs_ok K s → refs_ok K (updf f g s).
Proof.
  intros Hr Ht. apply refs_ext; [done|]. intros h. rewrite ftable_updf.
  case_decide; [subst; rewrite Hr, Ht|]; auto.
Qed.

Lemma keeps_fileread f p n : keeps (refs_ok K) (fileread dev_read f p n).
Proof. unfold fileread, read_pipe. keep. all: first [refs_frame | by apply refs_off]. Qed.

Lemma keeps_filewrite_loop fuel : ∀ f fip p n i,
  keeps (refs_ok K) (filewrite_loop dev_write fuel f fip p n i).
Proof.
  induction fuel as [|fuel IH]; intros; cbn [filewrite_loop]; keep. all: by apply refs_off.
Qed.

Lemma keeps_filewrite f p n : keeps (refs_ok K) (filewrite dev_write f p n).
Proof. unfold filewrite, write_pipe. pose proof keeps_filewrite_loop. keep. all: refs_frame. Qed.

Lemma keeps_loaduvm fuel : ∀ pgdir addr ip offset sz i,
  keeps (refs_ok K) (loaduvm_loop dev_read fuel pgdir addr ip offset sz i).
Proof. induction fuel as [|fuel IH]; intros; cbn [loaduvm_loop]; keep. Qed.

Lemma keeps_load_segments n : ∀ pgdir ip off sz,
  keeps (refs_ok K) (load_segments end_ dev_read n pgdir ip off sz).
Proof.
  pose proof keeps_loaduvm. induction n as [|n IH]; intros; cbn [load_segments]; unfold loaduvm; keep.
Qed.

Lemma keeps_push_args pgdir argv : ∀ argc sp ptrs, keeps (refs_ok K) (push_args pgdir argv argc sp ptrs).
Proof. induction argv as [|a argv IH]; intros; cbn [push_args]; keep. Qed.

Lemma keeps_exec path argv : keeps (refs_ok K) (exec end_ data_ dev_read path argv).
Proof.
  pose proof keeps_load_segments. pose proof keeps_push_args.
  unfold exec, exec_stack, exec_bad. keep. all: refs_frame.
Qed.

Lemma keeps_mount dev path : keeps (refs_ok K) (mount dev_read dev path).
Proof.
  unfold mount, mount_fixed, acquirenonblockinglock, releasenonblocking. keep. all: refs_frame.
Qed.

Lemma keeps_unmount path : keeps (refs_ok K) (unmount dev_read path).
Proof. unfold unmount, acquirenonblockinglock, releasenonblocking. keep. all: refs_frame. Qed.

#[local] Hint Resolve keeps_fileread keeps_filewrite keeps_exec keeps_mount keeps_unmount : keeps.
#[local] Hint Resolve sys_dup_refs sys_close_refs sys_pipe_refs sys_open_refs : keeps.

(** The system calls of sysfile.c. *)
Definition file_calls : list (M usys Z) :=
  [sys_dup; sys_read dev_read; sys_write dev_write; sys_close end_; sys_fstat; sys_pipe end_;
   sys_link dev_read dev_write; sys_unlink dev_read dev_write; sys_open end_ dev_read dev_write;
   sys_mkdir dev_read dev_write; sys_mknod dev_read dev_write; sys_chdir dev_read;
   sys_exec end_ data_ dev_read; sys_mount dev_read; sys_umount dev_read].

Lemma file_calls_keep : Forall (keeps (refs_ok K)) file_calls.
Proof.
  unfold file_calls, sys_read, sys_write, sys_fstat, filestat, sys_link, sys_unlink, sys_mkdir,
    sys_mknod, sys_chdir, sys_exec, sys_mount, sys_umount.
  repeat (apply List.Forall_cons || apply List.Forall_nil); keep. all: refs_frame.
Qed.
End calls.

(** C7: the reference counts of open files are exact.  If every entry of the
    file table counts the descriptors of the calling process that name it plus
    the references [K] held elsewhere, and free entries are [FD_NONE], then the
    same holds after any sequence of file system calls that return, with any
    arguments and on every error path: no call leaks or drops a reference, so
    no file is closed under an open descriptor. *)
Theorem file_refs_exact end_ data_ dev_read dev_write K calls s r s' :
  (∀ f, 0 ≤ K f < 2 ^ 29) → refs_ok K s →
  (∀ c, c ∈ calls → c ∈ file_calls end_ data_ dev_read dev_write) →
  mfor calls (λ c, _ ← c; mret ()) s = Done (r, s') →
  refs_ok K s' ∧
  ∀ fd f, (fd < NOFILE)%nat → ofile s' fd = Some f → (f < NFILE)%nat ∧ 1 ≤ f_ref (ftable s' f).
Proof.
  intros HK HP Hc Hrun.
  assert (H : refs_ok K s').
  { revert s HP Hrun. induction calls as [|c calls IH]; cbn [mfor]; intros s HP.
    - by intros [= _ <-].
    - intros ([] & s1 & H1 & H2)%bind_inv. refine (IH _ s1 _ H2).
      + intros c' Hc'. apply Hc. by constructor.
      + apply bind_inv in H1 as (x & s2 & H1 & [= ->]).
        pose proof (file_calls_keep end_ data_ dev_read dev_write K HK) as Hk.
        rewrite Forall_forall in Hk. refine (Hk c (Hc c _) s x s1 HP H1). by constructor. }
  split; [done|]. intros fd f Hfd Ho. pose proof (refs_fd _ _ H _ _ Hfd Ho) as Hf. split; [done|].
  assert (f_ref (ftable s' f) ≠ 0).
  { specialize (HK f). apply (refs_live K); [done|lia|done|eauto]. }
  rewrite (refs_count _ _ H f Hf) in *. pose proof (fd_count_range (ofile s') f). specialize (HK f). lia.
Qed.

(** A process that makes a pipe and duplicates its read end. *)
Definition pipe_proc : usys := set_umem (store32 (λ _, 0) 1004 0) cold_usys.
Definition pipe_calls : list (M usys Z) := [sys_pipe 0; sys_dup].

Lemma file_refs_exact_witness :
  ∃ s', mfor pipe_calls (λ c, _ ← c; mret ()) pipe_proc = Done ((), s') ∧
    ofile s' 2%nat = Some O ∧ 1 ≤ f_ref (ftable s' O).
Proof.
  assert (Hrun : match mfor pipe_calls (λ c, _ ← c; mret ()) pipe_proc with
                 | Done ((), s') => ofile s' 2%nat = Some O
                 | _ => False
                 end) by (vm_compute; reflexivity).
  destruct (mfor pipe_calls _ pipe_proc) as [[[] s']| | | |] eqn:E; try done.
  exists s'. split; [done|]. split; [done|].
  destruct (file_refs_exact 0 0 (λ _, None) (λ _, None) (λ _, 0) pipe_calls pipe_proc () s') as [_ H].
  - intros; lia.
  - split; [done| |done]. intros f _. reflexivity.
  - intros c. unfold pipe_calls, file_calls. intros H.
    repeat (apply elem_of_cons in H as [->|H]); [| |by apply elem_of_nil in H].
    all: rewrite !elem_of_cons; tauto.
  - exact E.
  - apply (H 2%nat O); [unfold NOFILE; lia|done].
Defined.
