(* ===== verification/Inodes.v ===== *)
(** * Files as byte arrays: what balloc, bmap, readi, writei and iupdate of
    kernel/fs/fs.c do

    The functions of Fs.v are run inside an operation of the log.  A file is
    the array of bytes its block map reaches through the buffer cache; [writei]
    refines the update of a range of that array and [readi] its selection. *)
From stdpp Require Import base decidable option list functions numbers strings sets gmap.
From Stdlib Require Import ZArith Lia.
From S2P Require Import Prelude CString FsDefs Bio Log Fs FileDefs File.

Local Open Scope Z_scope.

(** ** The state inside an operation *)

Definition bitmap (s : fsys) (d : Z) : mem := content s d (sb_bmapstart (the_sb d s)).

(** The free blocks of a device. *)
Definition free_blocks (s : fsys) (d : Z) : list Z :=
  filter (λ b, bit_used (bitmap s d) b = false) (map Z.of_nat (seq 0 (Z.to_nat (sb_size (the_sb d s))))).

Notation nfree s d := (length (free_blocks s d)).

(** The super block describes a device with one bitmap block; the blocks below
    [ds], which are not data blocks, are marked as used. *)
Record layout (s : fsys) (d ds : Z) : Prop := Layout {
  lay_dev : d = 1 ∨ d = 2;
  lay_size : 0 < sb_size (the_sb d s) ≤ FSSIZE;
  lay_map : 0 < sb_bmapstart (the_sb d s) < ds;
  lay_data : ds ≤ sb_size (the_sb d s);
  lay_used : ∀ b, 0 ≤ b < ds → bit_used (bitmap s d) b = true
}.

(** The thread holds the buffers [H]; the log has room for the blocks of [T]
    and [k] more, and [k] blocks are free. *)
Record op (s : fsys) (H : list nat) (d ds : Z) (T : gset Z) (k : nat) : Prop := Op {
  op_buf : bstate s H;
  op_layout : layout s d ds;
  op_wf : log_wf (flog s);
  op_size : LOGSIZE ≤ l_size (flog s);
  op_out : 1 ≤ outstanding (flog s);
  op_nodup : NoDup (logged (flog s));
  op_pinned : ∀ b, b ∈ logged (flog s) → isdirty s d b = true;
  op_ndirty : (length (dirty_bufs s) ≤ length (logged (flog s)))%nat;
  op_room : (size (list_to_set (logged (flog s)) ∪ T) + k ≤ 28)%nat;
  op_free : (k ≤ length (free_blocks s d))%nat
}.

(** The logs differ in the blocks logged only. *)
Definition same_op (l l' : logst) : Prop :=
  l_dev l' = l_dev l ∧ l_start l' = l_start l ∧ l_size l' = l_size l ∧
  outstanding l' = outstanding l ∧ committing l' = committing l.

(** The contents of the blocks changed as by the writes [W], which are in the
    log and not on the disk; the rest of the state but the inode cache did not
    change. *)
Record edits (s s' : fsys) (W : list (Z * Z * mem)) : Prop := Edits {
  ed_content : ∀ d b, d ≠ 0 → content s' d b = apply_writes (content s) W d b;
  ed_disk : disk s' = disk s ∧ writes s' = writes s;
  ed_log : same_op (flog s) (flog s');
  ed_logged : ∀ b, b ∈ logged (flog s') ↔ b ∈ logged (flog s) ∨ b ∈ (λ w, w.1.2) <$> W;
  ed_sb : fsb s' = fsb s ∧ fsb2 s' = fsb2 s;
  ed_mount : mount_point s' = mount_point s ∧ mount_root s' = mount_root s;
  ed_proc : mypid s' = mypid s ∧ mycwd s' = mycwd s
}.

Lemma edits_app s1 s2 s3 W1 W2 : edits s1 s2 W1 → edits s2 s3 W2 → edits s1 s3 (W1 ++ W2).
Proof.
  intros [C1 [D1 D1'] O1 L1 [S1 S1'] [M1 M1'] [P1 P1']] [C2 [D2 D2'] O2 L2 [S2 S2'] [M2 M2'] [P2 P2']].
  split; [|split; congruence| | |split; congruence..].
  - intros d b Hd. rewrite C2, apply_writes_app by done. by apply apply_writes_ext, C1.
  - unfold same_op in *. intuition congruence.
  - intros b. rewrite L2, L1, fmap_app, elem_of_app. tauto.
Qed.

Lemma same_edits s s' : bsame s s' → edits s s' [].
Proof.
  intros [HC _ _ ? ? (Hl & ? & ? & ? & ? & ? & ? & ?)]. split; try done; [by rewrite Hl|].
  intros b. rewrite Hl. set_solver.
Qed.

Lemma edits_logged s s' W : edits s s' W → logged (flog s) ≠ [] → logged (flog s') ≠ [].
Proof.
  intros HE Hne E. destruct (logged (flog s)) as [|b l] eqn:El; [done|].
  assert (Hb : b ∈ logged (flog s')) by (apply (ed_logged _ _ _ HE); left; rewrite El; by constructor).
  rewrite E in Hb. by apply not_elem_of_nil in Hb.
Qed.

Lemma edits_sb s s' W d : edits s s' W → the_sb d s' = the_sb d s.
Proof. intros [_ _ _ _ [H1 H2] _ _]. unfold the_sb. by rewrite H1, H2. Qed.

Lemma apply_one D d b m d' b' :
  apply_writes D [(d, b, m)] d' b' = if decide (d' = d ∧ b' = b) then m else D d' b'.
Proof.
  case_decide as Hc.
  - destruct Hc as [-> ->]. apply apply_writes_in; [apply NoDup_singleton|by constructor].
  - apply apply_writes_out. cbn. rewrite list_elem_of_singleton. intros [= -> ->]. by apply Hc.
Qed.

(** The buffers [H] are other blocks than [(d, b)]. *)
Definition apart (s : fsys) (H : list nat) (d b : Z) : Prop :=
  ∀ i, i ∈ H → ¬ (b_dev (bufs s i) = d ∧ b_blockno (bufs s i) = b).

Lemma apart_cached s H d b i : bstate s H → apart s H d b → cached d b s = Some i → i ∉ H.
Proof. intros [HI _ _] Ha (Hi & Hd & Hb)%(cached_some _ _ _ _ HI) Hin. by apply (Ha i Hin). Qed.

Lemma layout_edits s s' W d ds :
  edits s s' W → bitmap s' d = bitmap s d → layout s d ds → layout s' d ds.
Proof.
  intros HE Hb [H1 H2 H3 H4 H5]. pose proof (edits_sb _ _ _ d HE) as Hs.
  split; rewrite ?Hs, ?Hb; done.
Qed.

Lemma log_add_elem b bs x : x ∈ log_add b bs ↔ x = b ∨ x ∈ bs.
Proof. unfold log_add. case_decide; [naive_solver|]. rewrite elem_of_app, list_elem_of_singleton. tauto. Qed.

Lemma log_add_set b bs (T : gset Z) : b ∈ T → list_to_set (log_add b bs) ∪ T = list_to_set bs ∪ T.
Proof. intros Hb. apply set_eq. intros x. rewrite !elem_of_union, !elem_of_list_to_set, log_add_elem. naive_solver. Qed.

Lemma log_add_nodup b bs : NoDup bs → NoDup (log_add b bs).
Proof.
  intros Hn. unfold log_add. case_decide; [done|]. apply NoDup_app. split; [done|].
  split; [|apply NoDup_singleton]. intros x Hx ->%list_elem_of_singleton. done.
Qed.

(** The blocks in the log are fewer than the log holds. *)
Lemma op_lh s H d ds T k : op s H d ds T k →
  lh_n (flog s) = Z.of_nat (length (logged (flog s))) ∧ (length (logged (flog s)) ≤ 28)%nat.
Proof.
  intros HO. destruct (op_wf _ _ _ _ _ _ HO) as [Hn HL]. split.
  - unfold logged. rewrite length_take. lia.
  - pose proof (op_room _ _ _ _ _ _ HO) as Hr.
    rewrite <- (size_list_to_set (C := gset Z) _ (op_nodup _ _ _ _ _ _ HO)).
    assert (size (list_to_set (logged (flog s)) : gset Z) ≤ size (list_to_set (logged (flog s)) ∪ T))%nat
      by (apply subseteq_size, union_subseteq_l). lia.
Qed.

(** [T] can take one of the [k] blocks. *)
Lemma op_adopt s H d ds T k b : op s H d ds T (S k) → op s H d ds ({[b]} ∪ T) k.
Proof.
  intros [? ? ? ? ? ? ? ? Hr Hf]. split; try done; [|lia].
  assert (size (list_to_set (logged (flog s)) ∪ ({[b]} ∪ T)) ≤
          S (size (list_to_set (logged (flog s)) ∪ T)))%nat; [|lia].
  replace (list_to_set (logged (flog s)) ∪ ({[b]} ∪ T)) with
    ({[b]} ∪ (list_to_set (logged (flog s)) ∪ T)) by set_solver.
  rewrite size_union_alt. pose proof (subseteq_size ((list_to_set (logged (flog s)) ∪ T) ∖ {[b]})
    (list_to_set (logged (flog s)) ∪ T) ltac:(set_solver)). rewrite size_singleton. lia.
Qed.

Lemma op_weaken s H d ds T k k' : op s H d ds T k → (k' ≤ k)%nat → op s H d ds T k'.
Proof. intros [? ? ? ? ? ? ? ? Hr Hf] Hk. split; try done; lia. Qed.

(** ** One block: read, changed and logged, released *)

(** The parts of [op] that only depend on contents, dirtiness and the log. *)
Lemma op_frame s s' H H' d ds T k :
  bstate s' H' → edits s s' [] → dirty_bufs s' = dirty_bufs s →
  (∀ b, isdirty s' d b = isdirty s d b) → flog s' = flog s →
  op s H d ds T k → op s' H' d ds T k.
Proof.
  intros HS HE Hd Hi Hl [? Hlay ? ? ? ? Hp ? ? Hf].
  assert (Hdev : d ≠ 0) by (destruct (lay_dev _ _ _ Hlay); lia).
  assert (Hb : bitmap s' d = bitmap s d).
  { unfold bitmap. rewrite (edits_sb _ _ _ _ HE). by apply (ed_content _ _ _ HE). }
  split; rewrite ?Hl, ?Hd; try done.
  - by eapply layout_edits.
  - intros b Hbl. rewrite Hi. by apply Hp.
  - unfold free_blocks. by rewrite Hb, (edits_sb _ _ _ _ HE).
Qed.

Lemma op_dev s H d ds T k : op s H d ds T k → d ≠ 0.
Proof. intros HO. destruct (lay_dev _ _ _ (op_layout _ _ _ _ _ _ HO)); lia. Qed.

Section block.
Context (s : fsys) (H : list nat) (d ds : Z) (T : gset Z) (k : nat) (b : Z).
Hypothesis HO : op s H d ds T k.

Lemma bread_op :
  (length H ≤ 1)%nat → on_disk d b → apart s H d b →
  ∃ i s', bread d b s = Done (i, s') ∧ i ∉ H ∧ op s' (i :: H) d ds T k ∧
    held s' i d b (content s d b) ∧ edits s s' [] ∧ inodes s' = inodes s ∧
    (isdirty s' d b = true ∨ content s d b = disk s' d b) ∧
    (∀ j, j ∈ H → bufs s' j = bufs s j).
Proof.
  intros HH Hon Ha. pose proof (op_buf _ _ _ _ _ _ HO) as HS.
  pose proof (op_dev _ _ _ _ _ _ HO) as Hd. destruct (op_lh _ _ _ _ _ _ HO) as [_ Hlen].
  pose proof (op_ndirty _ _ _ _ _ _ HO).
  assert (Hc : ∀ i, cached d b s = Some i → i ∉ H) by (intros i; by apply apart_cached).
  destruct (bread_run s H d b HS Hon Hc) as (i & s' & Hr & Hni & HS' & Hh & Hs & Hj).
  { unfold NBUF. lia. }
  pose proof (same_edits _ _ Hs) as HE. destruct Hs as [HC HD HN HK HW HR].
  destruct HR as (? & ? & ? & ? & ? & ? & ? & ?).
  exists i, s'. split; [done|]. split; [done|]. split; [by eapply op_frame; eauto|].
  split; [done|]. split; [done|]. split; [done|]. split; [|done].
  rewrite HD, HK by done. by apply (clean_or_dirty s H).
Qed.
End block.

Lemma brelse_op s H d ds T k b i m :
  op s (i :: H) d ds T k → i ∉ H → held s i d b m →
  (isdirty s d b = true ∨ m = disk s d b) →
  ∃ s', brelse i s = Done ((), s') ∧ op s' H d ds T k ∧ edits s s' [] ∧ inodes s' = inodes s ∧
    (∀ j, j ≠ i → bufs s' j = bufs s j).
Proof.
  intros HO Hni Hh Hc. pose proof (op_buf _ _ _ _ _ _ HO) as HS.
  pose proof (op_dev _ _ _ _ _ _ HO) as Hd.
  destruct (held_dirty s i d b m (bs_inv _ _ HS) Hd Hh) as [Hf _].
  destruct (brelse_run s H i d b m HS Hni Hd Hh) as (s' & Hr & HS' & Hs & Hj).
  { by rewrite Hf. }
  pose proof (same_edits _ _ Hs) as HE. destruct Hs as [HC HD HN HK HW HR].
  destruct HR as (? & ? & ? & ? & ? & ? & ? & ?).
  exists s'. split; [done|]. split; [by eapply op_frame; eauto|]. by split_and!.
Qed.

Lemma bitmap_nfree s s' d W : edits s s' W → bitmap s' d = bitmap s d → nfree s' d = nfree s d.
Proof. intros HE Hb. unfold free_blocks. by rewrite Hb, (edits_sb _ _ _ _ HE). Qed.

(** The bitmap after a write of a block. *)
Lemma bitmap_edit s s' d b m : edits s s' [(d, b, m)] → d ≠ 0 →
  bitmap s' d = if decide (b = sb_bmapstart (the_sb d s)) then m else bitmap s d.
Proof.
  intros HE Hd. unfold bitmap. rewrite (edits_sb _ _ _ _ HE), (ed_content _ _ _ HE), apply_one by done.
  repeat case_decide; naive_solver.
Qed.

(** The block in the held buffer [i] gets the contents [m'] and is logged. *)
Lemma save_op s H d ds T k b i m m' k' :
  op s (i :: H) d ds T k → i ∉ H → held s i d b m → b ∈ T →
  (b = sb_bmapstart (the_sb d s) →
     (∀ x, 0 ≤ x < ds → bit_used m' x = true) ∧
     (k' ≤ length (filter (λ x, bit_used m' x = false)
                     (map Z.of_nat (seq 0 (Z.to_nat (sb_size (the_sb d s)))))))%nat) →
  (k' ≤ k)%nat →
  ∃ s1 s2, log_write i (updb i (set_b_data m') s) = Done ((), s1) ∧ brelse i s1 = Done ((), s2) ∧
    op s2 H d ds T k' ∧ edits s s2 [(d, b, m')] ∧ inodes s2 = inodes s ∧
    (∀ j, j ≠ i → bufs s2 j = bufs s j).
Proof.
  intros HO Hni Hh HT Hbm Hk. pose proof HO as [HS Hlay Hwf Hsz Hout Hnd Hpin Hdi Hroom Hfree].
  pose proof (op_dev _ _ _ _ _ _ HO) as Hd. destruct (op_lh _ _ _ _ _ _ HO) as [Hn Hlen].
  destruct (edit_run s (i :: H) i d b m m' HS ltac:(by constructor) Hd Hh) as (HS0 & Hh0 & HN0 & HC0 & HD0).
  set (s0 := updb i (set_b_data m') s) in *.
  destruct (log_write_run s0 (i :: H) i d b m' HS0 ltac:(by constructor) Hd Hh0) as
    (s1 & Hr1 & HS1 & Hh1 & Hf1 & HL1 & Hj1); try done.
  { change (flog s0) with (flog s). unfold LOGSIZE. lia. }
  { change (flog s0) with (flog s). unfold LOGSIZE in *. lia. }
  destruct HL1 as [HC1 HD1 HN1 HA1 [HK1 HW1] (HF1 & HF2 & HF5 & HF6 & HF3 & HF4 & HF7) HR1].
  change (flog s0) with (flog s) in *. change (logged (flog s0)) with (logged (flog s)) in *.
  destruct HR1 as (_ & R2 & R3 & R4 & R5 & R6 & R7 & R8).
  assert (HE1 : edits s s1 [(d, b, m')]).
  { split; [|by split|by split_and!| |by split..].
    - intros d' b' Hd'. rewrite HC1, HC0, apply_one by done. done.
    - intros x. rewrite HF2, log_add_elem. set_solver. }
  assert (HO1 : op s1 (i :: H) d ds T k').
  { assert (Hdirty : (length (dirty_bufs s1) ≤ length (log_add b (logged (flog s))))%nat).
    { unfold log_add. case_decide as Hin.
      - rewrite HA1 by (rewrite HD0 by done; by apply Hpin). by rewrite HN0.
      - rewrite length_app. cbn [length]. rewrite HN0 in HN1. lia. }
    split; rewrite ?HF2, ?HF3, ?HF4; try done.
    - destruct Hlay as [L1 L2 L3 L4 L5]. split; rewrite ?(edits_sb _ _ _ _ HE1); try done.
      intros x Hx. rewrite (bitmap_edit _ _ _ _ _ HE1 Hd). case_decide; [|by apply L5].
      by apply (proj1 (Hbm ltac:(done))).
    - by apply log_add_nodup.
    - intros x. rewrite log_add_elem, HD1 by done. intros [->|Hx]; [by rewrite decide_True|].
      case_decide; [done|]. rewrite HD0 by done. by apply Hpin.
    - rewrite log_add_set by done. lia.
    - unfold free_blocks. rewrite (bitmap_edit _ _ _ _ _ HE1 Hd), (edits_sb _ _ _ _ HE1).
      case_decide as Hb; [by apply Hbm|]. unfold free_blocks in Hfree. lia. }
  destruct (brelse_op s1 H d ds T k' b i m' HO1 Hni Hh1) as (s2 & Hr2 & HO2 & HE2 & Hi2 & Hj2).
  { left. rewrite HD1 by done. by rewrite decide_True. }
  exists s1, s2. split; [done|]. split; [done|]. split; [done|].
  split; [by apply (edits_app _ _ _ _ _ HE1 HE2)|]. split; [by rewrite Hi2|].
  intros j Hj. rewrite Hj2, Hj1 by done. subst s0. by apply updb_ne.
Qed.

Lemma updb_data s i f m : b_data (bufs s i) = m →
  updb i (λ x, set_b_data (f (b_data x)) x) s = updb i (set_b_data (f m)) s.
Proof. intros <-. reflexivity. Qed.

(** Read, change, log and release a block. *)
Lemma rmw_op s H d ds T k b k' (f : mem → mem) :
  op s H d ds T k → (length H ≤ 1)%nat → on_disk d b → apart s H d b → b ∈ T →
  (b = sb_bmapstart (the_sb d s) →
     (∀ x, 0 ≤ x < ds → bit_used (f (content s d b)) x = true) ∧
     (k' ≤ length (filter (λ x, bit_used (f (content s d b)) x = false)
                     (map Z.of_nat (seq 0 (Z.to_nat (sb_size (the_sb d s)))))))%nat) →
  (k' ≤ k)%nat →
  ∃ i s1 s2 s3, bread d b s = Done (i, s1) ∧ b_data (bufs s1 i) = content s d b ∧
    edits s s1 [] ∧ inodes s1 = inodes s ∧
    log_write i (updb i (λ x, set_b_data (f (b_data x)) x) s1) = Done ((), s2) ∧
    brelse i s2 = Done ((), s3) ∧
    op s3 H d ds T k' ∧ edits s s3 [(d, b, f (content s d b))] ∧ inodes s3 = inodes s ∧
    (∀ j, j ∈ H → bufs s3 j = bufs s j).
Proof.
  intros HO HH Hon Ha HT Hbm Hk.
  destruct (bread_op s H d ds T k b HO HH Hon Ha) as (i & s1 & Hr & Hni & HO1 & Hh & HE & Hin & _ & Hj).
  destruct (save_op s1 H d ds T k b i _ (f (content s d b)) k' HO1 Hni Hh HT)
    as (s2 & s3 & Hl & Hb & HO3 & HE3 & Hin3 & Hj3); [by rewrite (edits_sb _ _ _ _ HE)|done|].
  exists i, s1, s2, s3. split; [done|]. split; [apply Hh|]. split; [done|]. split; [done|].
  split; [by rewrite (updb_data _ _ _ _ (hd_data _ _ _ _ _ Hh))|]. split; [done|]. split; [done|].
  split; [exact (edits_app _ _ _ _ _ HE HE3)|]. split; [by rewrite Hin3|].
  intros j Hjn. rewrite Hj3, Hj; [done..|]. by intros ->.
Qed.

(** ** Allocation of blocks *)

Lemma land_bit x i : 0 ≤ i → c_true (Z.land x (1 ≪ i)) = Z.testbit x i.
Proof.
  intros Hi. rewrite Z.shiftl_1_l. unfold c_true.
  assert (Hb : ∀ n, 0 ≤ n → Z.testbit (Z.land x (2 ^ i)) n = bool_decide (n = i) && Z.testbit x i).
  { intros n Hn. rewrite Z.land_spec. destruct (decide (n = i)) as [->|Hne].
    - rewrite Z.pow2_bits_true, bool_decide_true by done. by rewrite andb_true_r.
    - rewrite Z.pow2_bits_false, bool_decide_false by done. by rewrite andb_false_r. }
  destruct (Z.testbit x i) eqn:Ht.
  - destruct (Z.eqb_spec (Z.land x (2 ^ i)) 0) as [H0|]; [|done].
    specialize (Hb i Hi). rewrite H0, Z.bits_0, bool_decide_true in Hb by done. done.
  - assert (Z.land x (2 ^ i) = 0) as ->; [|done]. apply Z.bits_inj'. intros n Hn.
    rewrite Hb, Z.bits_0 by done. by rewrite andb_false_r.
Qed.

Lemma u8_bit x n : 0 ≤ n < 8 → Z.testbit (u8 x) n = Z.testbit x n.
Proof. intros Hn. unfold u8. apply Z.mod_pow2_bits_low. lia. Qed.

Lemma bit_used_set m b x : 0 ≤ b → 0 ≤ x →
  bit_used (bit_set m b) x = bool_decide (x = b) || bit_used m x.
Proof.
  intros Hb Hx. unfold bit_used, bit_set, store8.
  pose proof (Z.mod_pos_bound b 8). pose proof (Z.mod_pos_bound x 8).
  rewrite !land_bit, upd_get by lia. case_decide as Hd.
  - rewrite u8_bit, Z.lor_spec, <- Hd by lia. rewrite Z.shiftl_1_l.
    destruct (decide (x = b)) as [->|Hne].
    + rewrite Z.pow2_bits_true, bool_decide_true by lia. by rewrite orb_true_r.
    + rewrite Z.pow2_bits_false, bool_decide_false; [by rewrite orb_false_r|done|].
      intros Heq. apply Hne. rewrite (Z.div_mod x 8), (Z.div_mod b 8) by lia. lia.
  - rewrite bool_decide_false; [done|]. by intros ->.
Qed.

(** Marking a free block leaves one free block fewer. *)
Lemma free_set m b n : 0 ≤ b < n → bit_used m b = false →
  length (filter (λ x, bit_used m x = false) (map Z.of_nat (seq 0 (Z.to_nat n)))) =
  S (length (filter (λ x, bit_used (bit_set m b) x = false) (map Z.of_nat (seq 0 (Z.to_nat n))))).
Proof.
  intros Hb Hf. set (l := map Z.of_nat (seq 0 (Z.to_nat n))).
  assert (Hl : ∀ x, x ∈ l → 0 ≤ x) by (intros x (y & -> & _)%list_elem_of_fmap; lia).
  apply (filter_flip _ _ l b); [| |done| |].
  - apply NoDup_fmap_2; [intros ? ?; lia|apply NoDup_seq].
  - apply list_elem_of_fmap. exists (Z.to_nat b). rewrite elem_of_seq. lia.
  - rewrite bit_used_set, bool_decide_true by lia. done.
  - intros x Hx Hne. rewrite bit_used_set, bool_decide_false by (lia || auto || done). done.
Qed.

Lemma bzero_op s H d ds T k b :
  op s H d ds T k → (length H ≤ 1)%nat → on_disk d b → apart s H d b → b ∈ T →
  b ≠ sb_bmapstart (the_sb d s) →
  ∃ s', bzero d b s = Done ((), s') ∧ op s' H d ds T k ∧
    edits s s' [(d, b, memset (content s d b) 0 0 BSIZE)] ∧ inodes s' = inodes s ∧
    (∀ j, j ∈ H → bufs s' j = bufs s j).
Proof.
  intros HO HH Hon Ha HT Hne.
  destruct (rmw_op s H d ds T k b k (λ m, memset m 0 0 BSIZE) HO HH Hon Ha HT)
    as (i & s1 & s2 & s3 & Hr & _ & _ & _ & Hl & Hb & HO3 & HE & Hin & Hj); [done..|].
  exists s3. split; [|done]. unfold bzero.
  rewrite (bind_done _ _ _ _ _ Hr), run_modS, (bind_done _ _ _ _ _ Hl). done.
Qed.

(** What [balloc] returned: a free data block, now marked and zeroed. *)
Record allocated (s s' : fsys) (H : list nat) (d ds b : Z) : Prop := Allocated {
  al_range : ds ≤ b < sb_size (the_sb d s);
  al_free : bit_used (bitmap s d) b = false;
  al_edits : ∃ z, edits s s' [(d, sb_bmapstart (the_sb d s), bit_set (bitmap s d) b); (d, b, z)] ∧
                  ∀ o, 0 ≤ o < BSIZE → z o = 0;
  al_inodes : inodes s' = inodes s;
  al_held : ∀ j, j ∈ H → bufs s' j = bufs s j;
  al_count : nfree s d = S (nfree s' d)
}.

Lemma first_free_some s H d ds T k : op s H d ds T (S k) →
  ∃ b, first_free (bitmap s d) 0 (sb_size (the_sb d s)) = Some b ∧
    ds ≤ b < sb_size (the_sb d s) ∧ bit_used (bitmap s d) b = false.
Proof.
  intros HO. destruct (op_layout _ _ _ _ _ _ HO) as [_ Hsz _ _ Hu]. unfold first_free.
  rewrite Z.sub_0_r, Z.min_r by (unfold BPB, FSSIZE in *; lia).
  set (l := map Z.of_nat _). destruct (List.find _ l) as [b|] eqn:Hf.
  - apply find_some in Hf as [Hin%list_elem_of_In Hb%negb_true_iff].
    apply list_elem_of_fmap in Hin as (y & -> & Hy%elem_of_seq). exists (Z.of_nat y).
    split; [done|]. split; [|done]. split; [|lia]. destruct (Z.lt_ge_cases (Z.of_nat y) ds); [|lia].
    by rewrite Hu in Hb by lia.
  - pose proof (op_free _ _ _ _ _ _ HO) as Hn. unfold free_blocks in Hn. fold l in Hn.
    assert (filter (λ b, bit_used (bitmap s d) b = false) l = []) as E; [|rewrite E in Hn; cbn in Hn; lia].
    clear Hn. induction l as [|x l IH]; [done|]. cbn in Hf.
    destruct (bit_used (bitmap s d) x) eqn:Hx; [|done]. cbn in Hf. rewrite filter_cons, decide_False by congruence.
    by apply IH.
Qed.

Lemma balloc_op s H d ds T k :
  op s H d ds T (S k) → (length H ≤ 1)%nat → sb_bmapstart (the_sb d s) ∈ T →
  apart s H d (sb_bmapstart (the_sb d s)) →
  (∀ b, bit_used (bitmap s d) b = false → apart s H d b) →
  ∃ b s', balloc d s = Done (b, s') ∧ op s' H d ds ({[b]} ∪ T) k ∧ allocated s s' H d ds b.
Proof.
  intros HO HH HT Ha Haf. pose proof HO as [_ Hlay _ _ _ _ _ _ _ Hfree].
  pose proof Hlay as [Hdev Hsz Hmap Hdata Hused]. pose proof (op_dev _ _ _ _ _ _ HO) as Hd.
  destruct (first_free_some _ _ _ _ _ _ HO) as (b & Hff & Hb & Hbf).
  pose proof (op_adopt _ _ _ _ _ _ b HO) as HOb.
  set (bm := sb_bmapstart (the_sb d s)) in *.
  assert (Hon : on_disk d bm) by (split; [done|unfold FSSIZE in *; lia]).
  destruct (rmw_op s H d ds ({[b]} ∪ T) k bm k (λ m, bit_set m b) HOb HH Hon Ha)
    as (i & s1 & s2 & s3 & Hr & Hm & HE1 & _ & Hl & Hbr & HO3 & HE3 & Hin3 & Hj3); [set_solver| |done|].
  { intros _. change (content s d bm) with (bitmap s d). split.
    - intros x Hx. rewrite bit_used_set, Hused by lia. apply orb_true_r.
    - unfold free_blocks in Hfree. rewrite (free_set _ b) in Hfree by (lia || done). lia. }
  assert (Hne : b ≠ bm) by (intros ->; lia).
  destruct (bzero_op s3 H d ds ({[b]} ∪ T) k b HO3 HH) as (s4 & Hz & HO4 & HE4 & Hin4 & Hj4).
  - split; [done|]. unfold FSSIZE in *. lia.
  - intros j Hj. rewrite Hj3 by done. by apply (Haf b Hbf).
  - set_solver.
  - by rewrite (edits_sb _ _ _ _ HE3).
  - exists b, s4. split; [|split; [done|]].
    + unfold balloc. rewrite run_gets.
      replace (Z.to_nat ((sb_size (the_sb d s) + BPB - 1) / BPB)) with 1%nat.
      2: { unfold BPB, FSSIZE in *. assert ((sb_size (the_sb d s) + 4096 - 1) / 4096 = 1) as ->; [|done].
           symmetry. apply (Z.div_unique _ _ _ (sb_size (the_sb d s) - 1)); lia. }
      cbn [seq map balloc_loop]. rewrite run_gets. change (Z.of_nat 0 * BPB) with 0.
      assert (BBLOCK 0 (the_sb d s) = bm) as ->.
      { unfold BBLOCK. change (0 / BPB) with 0. rewrite u32_small; unfold FSSIZE in *; lia. }
      rewrite (bind_done _ _ _ _ _ Hr), run_gets, Hm. change (content s d bm) with (bitmap s d).
      rewrite Hff, run_modS, (bind_done _ _ _ _ _ Hl), (bind_done _ _ _ _ _ Hbr).
      change (0 + b) with b. by rewrite (bind_done _ _ _ _ _ Hz).
    + split; [done|done| |by rewrite Hin4|by intros j Hj; rewrite Hj4, Hj3|].
      2: { unfold free_blocks. rewrite (bitmap_edit _ _ _ _ _ HE4 Hd), (edits_sb _ _ _ _ HE4), (edits_sb _ _ _ _ HE3).
           rewrite decide_False, (bitmap_edit _ _ _ _ _ HE3 Hd), decide_True by (fold bm; congruence).
           change (content s d bm) with (bitmap s d). by apply free_set; [lia|]. }
      exists (memset (content s3 d b) 0 0 BSIZE). split; [exact (edits_app _ _ _ _ _ HE3 HE4)|].
      intros o Ho. rewrite memset_at by (unfold BSIZE in *; lia). by rewrite decide_True by lia.
Qed.

(** ** The block map of a file *)

(** Slot [-1] is the indirect block, slot [n >= 0] block [n] of the file. *)
Definition slot (x : Z) : Prop := -1 ≤ x < MAXFILE.

Definition map_block (addrs : list Z) (C : Z → mem) (x : Z) : Z :=
  let ind := nth (Z.to_nat NDIRECT) addrs 0 in
  if x =? -1 then ind
  else if x <? NDIRECT then nth (Z.to_nat x) addrs 0
  else if ind =? 0 then 0 else load32 (C ind) (4 * (x - NDIRECT)).

Definition blk (s : fsys) (ip : nat) (x : Z) : Z :=
  map_block (i_addrs (inodes s ip)) (content s (i_dev (inodes s ip))) x.

(** The blocks of a file are distinct data blocks that are marked as used, and
    its size is covered. *)
Record file_ok (s : fsys) (d ds : Z) (ip : nat) : Prop := FileOk {
  fo_dev : i_dev (inodes s ip) = d;
  fo_len : length (i_addrs (inodes s ip)) = 13%nat;
  fo_size : 0 ≤ i_size (inodes s ip) ≤ MAXFILE * BSIZE;
  fo_mapped : ∀ x, 0 ≤ x → x * BSIZE < i_size (inodes s ip) → blk s ip x ≠ 0;
  fo_used : ∀ x, slot x → blk s ip x ≠ 0 →
    ds ≤ blk s ip x < sb_size (the_sb d s) ∧ bit_used (bitmap s d) (blk s ip x) = true;
  fo_inj : ∀ x y, slot x → slot y → blk s ip x = blk s ip y → blk s ip x ≠ 0 → x = y
}.

Lemma bstate_updi s ip g H : bstate s H → bstate (updi ip g s) H.
Proof. intros [HI Hh Hf]. split; [|done..]. destruct HI. by split. Qed.

Lemma op_updi s H d ds T k ip g : op s H d ds T k → op (updi ip g s) H d ds T k.
Proof.
  intros [? Hlay ? ? ? ? ? ? ? ?]. split; try done; [by apply bstate_updi|].
  destruct Hlay. by split.
Qed.

Lemma edits_updi s s' W ip g : edits s s' W → edits s (updi ip g s') W.
Proof. intros []. by split. Qed.

(** The contents after [balloc]. *)
Lemma allocated_content s s' H d ds b T k : op s H d ds T k → allocated s s' H d ds b →
  bitmap s' d = bit_set (bitmap s d) b ∧
  (∀ o, 0 ≤ o < BSIZE → content s' d b o = 0) ∧
  (∀ x, x ≠ sb_bmapstart (the_sb d s) → x ≠ b → content s' d x = content s d x).
Proof.
  intros HO [Hb Hf (z & HE & Hz) _ _ _]. pose proof (op_dev _ _ _ _ _ _ HO) as Hd.
  pose proof (lay_map _ _ _ (op_layout _ _ _ _ _ _ HO)) as Hm.
  set (bm := sb_bmapstart (the_sb d s)) in *.
  assert (HC : ∀ x, content s' d x = if decide (x = b) then z
    else if decide (x = bm) then bit_set (bitmap s d) b else content s d x).
  { intros x. rewrite (ed_content _ _ _ HE) by done.
    change [?a; ?c] with ([a] ++ [c]). rewrite apply_writes_app, !apply_one.
    repeat case_decide; naive_solver. }
  split; [|split].
  - unfold bitmap. rewrite (edits_sb _ _ _ _ HE). fold bm. rewrite HC, decide_False by lia.
    by rewrite decide_True.
  - intros o Ho. rewrite HC, decide_True by done. by apply Hz.
  - intros x H1 H2. by rewrite HC, !decide_False.
Qed.

(** The blocks a change of a file's data may write. *)
Definition data_block (s : fsys) (d ds b : Z) : Prop :=
  b = sb_bmapstart (the_sb d s) ∨ ds ≤ b < sb_size (the_sb d s).

(** The file [ip] may have grown: its blocks stay where they are, new ones were
    free, and the other used data blocks, devices and inodes are as before. *)
Record fframe (s s' : fsys) (d ds : Z) (ip : nat) : Prop := FFrame {
  ff_keep : ∀ x, slot x → blk s ip x ≠ 0 → blk s' ip x = blk s ip x;
  ff_new : ∀ x, slot x → blk s ip x = 0 → blk s' ip x ≠ 0 →
    ds ≤ blk s' ip x ∧ bit_used (bitmap s d) (blk s' ip x) = false;
  ff_used : ∀ x, 0 ≤ x → bit_used (bitmap s d) x = true → bit_used (bitmap s' d) x = true;
  ff_frame : ∀ x, ds ≤ x → bit_used (bitmap s d) x = true → (∀ y, slot y → blk s ip y ≠ x) →
    content s' d x = content s d x;
  ff_meta : ∀ x, 0 < x < ds → x ≠ sb_bmapstart (the_sb d s) → content s' d x = content s d x;
  ff_devs : ∀ d' x, d' ≠ 0 → d' ≠ d → content s' d' x = content s d' x;
  ff_inode : ∃ a, inodes s' ip = set_i_addrs a (inodes s ip);
  ff_inodes : ∀ j, j ≠ ip → inodes s' j = inodes s j;
  ff_rest : ∃ W, edits s s' W ∧ Forall (λ w, data_block s d ds w.1.2) W
}.

Lemma fframe_trans s1 s2 s3 d ds ip : 0 < ds →
  fframe s1 s2 d ds ip → fframe s2 s3 d ds ip → fframe s1 s3 d ds ip.
Proof.
  intros Hds [K1 N1 U1 F1 G1 V1 (a1 & I1) J1 (W1 & R1 & Q1)] [K2 N2 U2 F2 G2 V2 (a2 & I2) J2 (W2 & R2 & Q2)].
  split.
  - intros x Hx Hn. rewrite K2; [by apply K1|done|by rewrite K1].
  - intros x Hx H0 Hn. destruct (decide (blk s2 ip x = 0)) as [Hz|Hz].
    + destruct (N2 x Hx Hz Hn) as (H1 & H2). split; [done|].
      destruct (bit_used (bitmap s1 d) (blk s3 ip x)) eqn:E; [|done].
      rewrite U1 in H2 by (lia || done). done.
    + rewrite K2 in * by done. by apply N1.
  - intros x Hx Hu. by apply U2, U1.
  - intros x Hx Hu Hn. rewrite F2; [by apply F1|done|apply U1; [lia|done]|].
    intros y Hy Heq. destruct (decide (blk s1 ip y = 0)) as [Hz|Hz].
    + destruct (N1 y Hy Hz) as (H1 & H2); [|by rewrite Heq, Hu in H2].
      rewrite Heq. intros ->. lia.
    + apply (Hn y Hy). by rewrite <- K1.
  - intros x Hx Hn. rewrite G2, G1; [done..|]. by rewrite (edits_sb _ _ _ _ R1).
  - intros d' x H1 H2. rewrite V2, V1 by done. done.
  - exists a2. rewrite I2, I1. reflexivity.
  - intros j Hj. by rewrite J2, J1.
  - exists (W1 ++ W2). split; [by eapply edits_app|]. apply Forall_app. split; [done|].
    eapply Forall_impl; [exact Q2|]. intros w. unfold data_block. by rewrite (edits_sb _ _ _ _ R1).
Qed.

(** The data did not change either; new blocks are zero. *)
Record fstep (s s' : fsys) (d ds : Z) (ip : nat) : Prop := FStep {
  fs_frame : fframe s s' d ds ip;
  fs_data : ∀ x, slot x → 0 ≤ x → blk s ip x ≠ 0 → ∀ o, 0 ≤ o < BSIZE →
    content s' d (blk s ip x) o = content s d (blk s ip x) o;
  fs_zero : ∀ x, slot x → 0 ≤ x → blk s ip x = 0 → blk s' ip x ≠ 0 → ∀ o, 0 ≤ o < BSIZE →
    content s' d (blk s' ip x) o = 0
}.

Lemma fstep_refl s s' d ds ip : d ≠ 0 → i_dev (inodes s ip) = d →
  edits s s' [] → inodes s' = inodes s → fstep s s' d ds ip.
Proof.
  intros Hd Hdv HE Hi. assert (HC : ∀ d' x, d' ≠ 0 → content s' d' x = content s d' x) by apply HE.
  assert (Hbm : bitmap s' d = bitmap s d).
  { unfold bitmap. rewrite (edits_sb _ _ _ _ HE). by apply HC. }
  assert (Hblk : ∀ x, blk s' ip x = blk s ip x).
  { intros x. unfold blk, map_block. rewrite Hi, Hdv. by rewrite HC. }
  split; [split|..]; intros; rewrite ?Hblk, ?Hbm, ?HC, ?Hi in *; try done.
  - exists (i_addrs (inodes s ip)). by destruct (inodes s ip).
  - by exists [].
Qed.

Lemma fstep_trans s1 s2 s3 d ds ip : 0 < ds →
  fstep s1 s2 d ds ip → fstep s2 s3 d ds ip → fstep s1 s3 d ds ip.
Proof.
  intros Hds [R1 D1 Z1] [R2 D2 Z2]. pose proof (ff_keep _ _ _ _ _ R1) as K1.
  pose proof (ff_keep _ _ _ _ _ R2) as K2. split; [by eapply fframe_trans|..].
  - intros x Hx H0 Hn o Ho. pose proof (D2 x Hx H0) as E. rewrite K1 in E by done.
    rewrite E, D1 by done. done.
  - intros x Hx H0 Hz Hn o Ho. destruct (decide (blk s2 ip x = 0)) as [Hz2|Hz2]; [by apply Z2|].
    rewrite K2 in * by done. rewrite D2 by done. by apply Z1.
Qed.

(** One empty slot [y] of a file gets the block [b], which was free; only the
    bitmap, the block [b] and the indirect block change. *)
Section grow.
Context (s s' : fsys) (H : list nat) (d ds : Z) (T : gset Z) (k : nat) (ip : nat) (y b : Z).
Hypothesis HO : op s H d ds T k.
Hypothesis HF : file_ok s d ds ip.
Hypothesis Hy : slot y.
Hypothesis Hy0 : blk s ip y = 0.
Hypothesis Hyb : blk s' ip y = b.
Hypothesis Hx : ∀ x, slot x → x ≠ y → blk s' ip x = blk s ip x.
Hypothesis Hb : ds ≤ b < sb_size (the_sb d s).
Hypothesis Hbf : bit_used (bitmap s d) b = false.
Hypothesis Hbm : bitmap s' d = bit_set (bitmap s d) b.
Hypothesis Hed : ∃ W, edits s s' W ∧ Forall (λ w, data_block s d ds w.1.2) W.
Hypothesis Hi : ∃ a, length a = 13%nat ∧ inodes s' ip = set_i_addrs a (inodes s ip).

Lemma grow_free x : slot x → blk s ip x ≠ b.
Proof.
  intros Hsx Heq. pose proof (lay_map _ _ _ (op_layout _ _ _ _ _ _ HO)).
  destruct (fo_used _ _ _ _ HF x Hsx) as [_ Hu]; [lia|]. by rewrite Heq, Hbf in Hu.
Qed.

Lemma grow_file : file_ok s' d ds ip.
Proof.
  destruct HF as [F1 F2 F3 F4 F5 F6], Hed as (W & HE & _), Hi as (a & Hla & Hia).
  pose proof (lay_map _ _ _ (op_layout _ _ _ _ _ _ HO)) as Hm.
  split; rewrite ?Hia, ?(edits_sb _ _ _ _ HE), ?Hbm; try done.
  - intros x Hx0 Hxs. destruct (decide (x = y)) as [->|Hne]; [rewrite Hyb; lia|].
    change (i_size (set_i_addrs a (inodes s ip))) with (i_size (inodes s ip)) in Hxs.
    rewrite Hx; [by apply F4| |done]. unfold slot, BSIZE in *. lia.
  - intros x Hsx Hnz. destruct (decide (x = y)) as [->|Hne].
    + rewrite Hyb. split; [done|]. rewrite bit_used_set, bool_decide_true by lia. done.
    + rewrite Hx in * by done. destruct (F5 x Hsx Hnz) as [H1 H2]. split; [done|].
      rewrite bit_used_set, H2 by lia. apply orb_true_r.
  - pose proof grow_free as Hfree.
    intros x z Hsx Hsz'. destruct (decide (x = y)) as [->|Hxy], (decide (z = y)) as [->|Hzy]; [done| | |].
    + rewrite Hyb, (Hx z) by done. intros Heq. by destruct (Hfree z Hsz').
    + rewrite Hyb, (Hx x) by done. intros Heq. by destruct (Hfree x Hsx).
    + rewrite !Hx by done. by apply F6.
Qed.

Lemma grow_step :
  (∀ x, x ≠ sb_bmapstart (the_sb d s) → x ≠ b → x ≠ blk s ip (-1) → content s' d x = content s d x) →
  (0 ≤ y → ∀ o, 0 ≤ o < BSIZE → content s' d b o = 0) →
  (∀ d' x, d' ≠ 0 → d' ≠ d → content s' d' x = content s d' x) →
  (∀ j, j ≠ ip → inodes s' j = inodes s j) →
  fstep s s' d ds ip.
Proof.
  intros HC HZ Hdev Hjs. pose proof (lay_map _ _ _ (op_layout _ _ _ _ _ _ HO)) as Hm.
  assert (Hind : slot (-1)) by (unfold slot, MAXFILE, NDIRECT, NINDIRECT; lia).
  split; [split|..]; try done.
  - intros x Hsx Hn. apply Hx; [done|]. by intros ->.
  - intros x Hsx H0 Hn. destruct (decide (x = y)) as [->|Hne]; [|by rewrite Hx in Hn].
    rewrite Hyb. split; [lia|]. done.
  - intros x H0 Hu. rewrite Hbm, bit_used_set, Hu by lia. apply orb_true_r.
  - intros x Hds Hu Hn. apply HC; [lia| |].
    + intros ->. by rewrite Hbf in Hu.
    + specialize (Hn (-1) Hind). congruence.
  - intros x Hds Hn. apply HC; [done|lia|]. intros Heq.
    destruct (fo_used _ _ _ _ HF (-1) Hind) as [Hr _]; lia.
  - destruct Hi as (a & _ & Hia). by exists a.
  - intros x Hsx H0 Hn o Ho. destruct (fo_used _ _ _ _ HF x Hsx Hn) as [Hr _].
    rewrite HC; [done|lia|by apply grow_free|]. intros Heq.
    pose proof (fo_inj _ _ _ _ HF x (-1) Hsx Hind Heq Hn). lia.
  - intros x Hsx H0 Hz Hn. destruct (decide (x = y)) as [->|Hne]; [|by rewrite Hx in Hn].
    rewrite Hyb. by apply HZ.
Qed.
End grow.

Lemma nth_insert (l : list Z) i j v : (i < length l)%nat →
  nth j (<[i := v]> l) 0 = if decide (i = j) then v else nth j l 0.
Proof.
  intros Hi. rewrite !nth_lookup. case_decide as Hij.
  - subst. by rewrite list_lookup_insert_eq by done.
  - by rewrite list_lookup_insert_ne.
Qed.

Lemma load32_zero m a : (∀ x, a ≤ x < a + 4 → m x = 0) → load32 m a = 0.
Proof. intros Hm. unfold load32. by rewrite !Hm by lia. Qed.

(** Where slot [y] is in [addrs]. *)
Definition addr_index (y : Z) : nat := if decide (y = -1) then Z.to_nat NDIRECT else Z.to_nat y.

Lemma map_block_insert addrs (C C' : Z → mem) y b x :
  length addrs = 13%nat → -1 ≤ y < NDIRECT → slot x → b ≠ 0 → map_block addrs C y = 0 →
  (∀ o, 0 ≤ o < BSIZE → C' b o = 0) →
  (nth (Z.to_nat NDIRECT) addrs 0 ≠ 0 →
     C' (nth (Z.to_nat NDIRECT) addrs 0) = C (nth (Z.to_nat NDIRECT) addrs 0)) →
  map_block (<[addr_index y := b]> addrs) C' x = if decide (x = y) then b else map_block addrs C x.
Proof.
  intros Hl Hy Hx Hb Hy0 Hz HC. unfold slot, MAXFILE, NINDIRECT in Hx. unfold map_block in *.
  assert (Hidx : (addr_index y < length addrs)%nat).
  { rewrite Hl. unfold addr_index, NDIRECT in *. case_decide; lia. }
  rewrite !nth_insert by done. unfold addr_index, NDIRECT in *.
  destruct (Z.eqb_spec x (-1)) as [->|Hx1]; [repeat case_decide; done || lia|].
  destruct (Z.ltb_spec x 12); [repeat case_decide; done || lia|].
  rewrite (decide_False (P := x = y)) by lia.
  destruct (decide (y = -1)) as [->|Hy1].
  - change (-1 =? -1) with true in Hy0. cbv iota in Hy0. rewrite decide_True by done.
    rewrite Hy0, (proj2 (Z.eqb_neq b 0)) by done. change (0 =? 0) with true. cbv iota.
    apply load32_zero. intros o Ho. apply Hz. unfold BSIZE. lia.
  - rewrite decide_False by lia.
    destruct (Z.eqb_spec (nth (Z.to_nat 12) addrs 0) 0) as [|Hnz]; [done|]. by rewrite HC.
Qed.

(** A block for an empty direct slot or for the indirect block. *)
Lemma alloc_addr_op s d ds T k ip y :
  op s [] d ds T (S k) → sb_bmapstart (the_sb d s) ∈ T → file_ok s d ds ip →
  -1 ≤ y < NDIRECT → blk s ip y = 0 →
  ∃ b s1, balloc d s = Done (b, s1) ∧ inodes s1 = inodes s ∧ b ≠ 0 ∧
    let s2 := updi ip (λ i, set_i_addrs (<[addr_index y := b]> (i_addrs i)) i) s1 in
    op s2 [] d ds ({[b]} ∪ T) k ∧ file_ok s2 d ds ip ∧ fstep s s2 d ds ip ∧ blk s2 ip y = b ∧
    nfree s d = S (nfree s2 d) ∧
    (∀ x, slot x → x ≠ y → blk s2 ip x = blk s ip x).
Proof.
  intros HO HT HF Hy Hy0. pose proof (op_dev _ _ _ _ _ _ HO) as Hd.
  pose proof (lay_map _ _ _ (op_layout _ _ _ _ _ _ HO)) as Hm.
  destruct (balloc_op s [] d ds T k HO) as (b & s1 & Hr & HO1 & HA); [cbn; lia|done| | |].
  { by intros i Hin%elem_of_nil. } { by intros x _ i Hin%elem_of_nil. }
  destruct (allocated_content _ _ _ _ _ _ _ _ HO HA) as (Hbm & Hz & HC).
  pose proof HA as [Hb Hbf (z & HE & _) Hin _ Hcnt]. exists b, s1. split; [done|]. split; [done|].
  split; [lia|]. set (s2 := updi _ _ s1). pose proof HF as [F1 F2 F3 F4 F5 F6].
  assert (Hi2 : inodes s2 ip = set_i_addrs (<[addr_index y := b]> (i_addrs (inodes s ip))) (inodes s ip)).
  { subst s2. rewrite inodes_updi, decide_True by done. by rewrite Hin. }
  assert (Hblk : ∀ x, slot x → blk s2 ip x = if decide (x = y) then b else blk s ip x).
  { intros x Hsx. unfold blk at 1. rewrite Hi2. cbn [i_addrs i_dev set_i_addrs]. rewrite F1.
    change (content s2) with (content s1). unfold blk. rewrite F1.
    apply map_block_insert; try done; [lia|unfold blk in Hy0; by rewrite F1 in Hy0|].
    intros Hnz. change (nth _ _ 0) with (blk s ip (-1)) in *.
    destruct (F5 (-1) ltac:(unfold slot, MAXFILE, NDIRECT, NINDIRECT; lia) Hnz) as [Hr1 Hr2].
    rewrite HC; [done|lia|]. intros Heq. by rewrite Heq, Hbf in Hr2. }
  assert (Hsy : slot y) by (unfold slot, MAXFILE, NDIRECT, NINDIRECT in *; lia).
  assert (Hgx : ∀ x, slot x → x ≠ y → blk s2 ip x = blk s ip x).
  { intros x Hsx Hne. by rewrite Hblk, decide_False. }
  assert (Hgy : blk s2 ip y = b) by (by rewrite Hblk, decide_True).
  assert (Hgi : ∃ a, length a = 13%nat ∧ inodes s2 ip = set_i_addrs a (inodes s ip)).
  { eexists. split; [|exact Hi2]. by rewrite length_insert. }
  assert (Hge : ∃ W, edits s s2 W ∧ Forall (λ w, data_block s d ds w.1.2) W).
  { eexists. split; [by apply edits_updi|]. rewrite !Forall_cons, Forall_nil. split; [by left|by split; [right|]]. }
  split; [by apply op_updi|]. split; [|split; [|split; [done|by split]]].
  - eapply (grow_file s s2 [] d ds T (S k) ip y b); try done.
  - eapply (grow_step s s2 [] d ds T (S k) ip y b); try done.
    + intros x H1 H2 _. by apply HC.
    + intros d' x H0 Hne. change (content s2) with (content s1). rewrite (ed_content _ _ _ HE) by done.
      apply apply_writes_out. cbn. set_solver.
    + intros j Hj. subst s2. rewrite inodes_updi, decide_False by done. by rewrite Hin.
Qed.

(** The end of [bmap]: entry [n] of the indirect block [ind]. *)
Definition bmap_indirect (d ind n : Z) : M fsys Z :=
  bp ← bread d ind;
  m ← gets (λ s, b_data (bufs s bp));
  let addr := load32 m (4 * n) in
  addr ← (if addr =? 0 then
            a ← balloc d;
            _ ← modS (updb bp (λ b, set_b_data (store32 (b_data b) (4 * n) a) b));
            _ ← log_write bp;
            mret a
          else mret addr);
  _ ← brelse bp;
  mret addr.

Lemma file_edits s s' d ds ip : d ≠ 0 → edits s s' [] → inodes s' = inodes s →
  file_ok s d ds ip → file_ok s' d ds ip.
Proof.
  intros Hd HE Hi [F1 F2 F3 F4 F5 F6].
  assert (HC : ∀ d' x, d' ≠ 0 → content s' d' x = content s d' x) by apply HE.
  assert (Hbm : bitmap s' d = bitmap s d).
  { unfold bitmap. rewrite (edits_sb _ _ _ _ HE). by apply HC. }
  assert (Hblk : ∀ x, blk s' ip x = blk s ip x).
  { intros x. unfold blk, map_block. rewrite Hi, F1. by rewrite HC. }
  split; rewrite ?Hi; try done; intros *; rewrite ?Hblk, ?Hbm, ?(edits_sb _ _ _ _ HE);
    [apply F4|apply F5|apply F6].
Qed.

Lemma slot_ind : slot (-1).
Proof. unfold slot, MAXFILE, NDIRECT, NINDIRECT. lia. Qed.

Lemma blk_indirect s ip x : NDIRECT ≤ x →
  blk s ip x = if blk s ip (-1) =? 0 then 0
               else load32 (content s (i_dev (inodes s ip)) (blk s ip (-1))) (4 * (x - NDIRECT)).
Proof.
  intros Hx. unfold blk, map_block. change (-1 =? -1) with true. cbv iota zeta.
  unfold NDIRECT in *. by rewrite (proj2 (Z.eqb_neq x (-1))), (proj2 (Z.ltb_ge x 12)) by lia.
Qed.

(** The entry is set already. *)
Lemma bmap_indirect_hit s d ds T k ip x :
  op s [] d ds T (S k) → file_ok s d ds ip → NDIRECT ≤ x < MAXFILE →
  blk s ip (-1) ≠ 0 → blk s ip x ≠ 0 →
  ∃ s', bmap_indirect d (blk s ip (-1)) (x - NDIRECT) s = Done (blk s ip x, s') ∧
    op s' [] d ds T (S k) ∧ edits s s' [] ∧ inodes s' = inodes s.
Proof.
  intros HO HF Hx Hind Hnz. set (ind := blk s ip (-1)) in *.
  pose proof (op_layout _ _ _ _ _ _ HO) as [Ldev Lsz Lmap _ _].
  destruct (fo_used _ _ _ _ HF (-1) slot_ind Hind) as [Hr _]. fold ind in Hr.
  assert (Hon : on_disk d ind) by (split; [done|unfold FSSIZE in *; lia]).
  destruct (bread_op s [] d ds T (S k) ind HO) as (i & s1 & H1 & Hni & HO1 & Hh & HE1 & Hi1 & Hcl & _);
    [cbn; lia|done|by intros j Hj%elem_of_nil|].
  destruct (brelse_op s1 [] d ds T (S k) ind i _ HO1 Hni Hh Hcl) as (s2 & H2 & HO2 & HE2 & Hi2 & _).
  exists s2. split; [|split; [done|split; [exact (edits_app _ _ _ _ _ HE1 HE2)|by rewrite Hi2]]].
  assert (Hld : load32 (content s d ind) (4 * (x - NDIRECT)) = blk s ip x).
  { rewrite (blk_indirect s ip x) by lia. fold ind.
    by rewrite (fo_dev _ _ _ _ HF), (proj2 (Z.eqb_neq ind 0)). }
  unfold bmap_indirect. rewrite (bind_done _ _ _ _ _ H1), run_gets, (hd_data _ _ _ _ _ Hh).
  cbv zeta. rewrite Hld, (proj2 (Z.eqb_neq _ _)) by done. rewrite run_ret.
  by rewrite (bind_done _ _ _ _ _ H2).
Qed.

(** The entry is empty: a block is allocated and recorded. *)
Record recorded (s s' : fsys) (d ds : Z) (ip : nat) (x b : Z) : Prop := Recorded {
  rc_range : ds ≤ b < sb_size (the_sb d s);
  rc_free : bit_used (bitmap s d) b = false;
  rc_inodes : inodes s' = inodes s;
  rc_count : nfree s d = S (nfree s' d);
  rc_edits : ∃ z,
    edits s s' [(d, sb_bmapstart (the_sb d s), bit_set (bitmap s d) b); (d, b, z);
      (d, blk s ip (-1), store32 (content s d (blk s ip (-1))) (4 * (x - NDIRECT)) b)] ∧
    ∀ o, 0 ≤ o < BSIZE → z o = 0
}.

Lemma bmap_indirect_run s d ds T k ip x :
  op s [] d ds T (S k) → sb_bmapstart (the_sb d s) ∈ T → file_ok s d ds ip → NDIRECT ≤ x < MAXFILE →
  blk s ip (-1) ≠ 0 → blk s ip (-1) ∈ T → blk s ip x = 0 →
  ∃ b s', bmap_indirect d (blk s ip (-1)) (x - NDIRECT) s = Done (b, s') ∧
    op s' [] d ds ({[b]} ∪ T) k ∧ recorded s s' d ds ip x b.
Proof.
  intros HO HT HF Hx Hind HTi Hx0. set (ind := blk s ip (-1)) in *.
  pose proof (op_layout _ _ _ _ _ _ HO) as [Ldev Lsz Lmap _ _].
  destruct (fo_used _ _ _ _ HF (-1) slot_ind Hind) as [Hr Hu]. fold ind in Hr, Hu.
  assert (Hon : on_disk d ind) by (split; [done|unfold FSSIZE in *; lia]).
  destruct (bread_op s [] d ds T (S k) ind HO) as (i & s1 & H1 & Hni & HO1 & Hh & HE1 & Hi1 & _ & _);
    [cbn; lia|done|by intros j Hj%elem_of_nil|].
  pose proof (edits_sb _ _ _ d HE1) as Hsb1.
  assert (Hbm1 : bitmap s1 d = bitmap s d).
  { unfold bitmap. rewrite Hsb1. apply (ed_content _ _ _ HE1). by eapply op_dev. }
  assert (Hap : ∀ b, b ≠ ind → apart s1 [i] d b).
  { intros b Hb j ->%list_elem_of_singleton [_ Hj]. by rewrite (hd_blockno _ _ _ _ _ Hh) in Hj. }
  destruct (balloc_op s1 [i] d ds T k HO1) as (b & s2 & H2 & HO2 & HA); [cbn; lia|by rewrite Hsb1| | |].
  { apply Hap. rewrite Hsb1. lia. }
  { intros b Hb. apply Hap. intros ->. by rewrite Hbm1, Hu in Hb. }
  destruct HA as [Hb Hbf (z & HE2 & Hz) Hi2 Hh2 Hcnt]. rewrite Hsb1, Hbm1 in *.
  assert (Hhd2 : held s2 i d ind (content s d ind)).
  { destruct Hh. specialize (Hh2 i ltac:(by constructor)). by split; rewrite ?Hh2. }
  set (m' := store32 (content s d ind) (4 * (x - NDIRECT)) b).
  destruct (save_op s2 [] d ds ({[b]} ∪ T) k ind i _ m' k HO2 Hni Hhd2) as
    (s3 & s4 & H3 & H4 & HO4 & HE4 & Hi4 & _);
    [set_solver|rewrite (edits_sb _ _ _ d HE2), Hsb1; lia|done|].
  exists b, s4. split; [|split; [done|split; [done|done|congruence| |]]].
  - unfold bmap_indirect. rewrite (bind_done _ _ _ _ _ H1), run_gets, (hd_data _ _ _ _ _ Hh). cbv zeta.
    assert (Hld : load32 (content s d ind) (4 * (x - NDIRECT)) = 0).
    { rewrite <- Hx0, (blk_indirect s ip x) by lia. fold ind.
      by rewrite (fo_dev _ _ _ _ HF), (proj2 (Z.eqb_neq ind 0)). }
    rewrite Hld. change (0 =? 0) with true. cbv iota.
    rewrite run_bind, (bind_done _ _ _ _ _ H2), run_modS.
    rewrite (updb_data s2 i (λ m, store32 m (4 * (x - NDIRECT)) b) _ (hd_data _ _ _ _ _ Hhd2)).
    fold m'. rewrite (bind_done _ _ _ _ _ H3). unfold mret at 1, M_ret at 1. cbv iota beta.
    by rewrite (bind_done _ _ _ _ _ H4).
  - pose proof (op_dev _ _ _ _ _ _ HO) as Hd. rewrite (bitmap_nfree _ _ _ [] HE1) in Hcnt by done. rewrite Hcnt. f_equal.
    symmetry. apply (bitmap_nfree _ _ _ _ HE4). rewrite (bitmap_edit _ _ _ _ _ HE4 Hd), decide_False; [done|].
    rewrite (edits_sb _ _ _ _ HE2), Hsb1. lia.
  - exists z. split; [|done]. exact (edits_app _ _ _ _ _ (edits_app _ _ _ _ _ HE1 HE2) HE4).
Qed.

Lemma recorded_grows s s' H d ds T k ip x b :
  op s H d ds T k → file_ok s d ds ip → NDIRECT ≤ x < MAXFILE → blk s ip (-1) ≠ 0 → blk s ip x = 0 →
  recorded s s' d ds ip x b →
  file_ok s' d ds ip ∧ fstep s s' d ds ip ∧ blk s' ip x = b ∧
  (∀ y, slot y → y ≠ x → blk s' ip y = blk s ip y).
Proof.
  intros HO HF Hx Hind Hx0 [Hb Hbf Hi _ (z & HE & Hz)]. pose proof (op_dev _ _ _ _ _ _ HO) as Hd.
  pose proof (op_layout _ _ _ _ _ _ HO) as [Ldev Lsz Lmap _ _]. pose proof HF as [F1 F2 F3 F4 F5 F6].
  set (ind := blk s ip (-1)) in *. set (bm := sb_bmapstart (the_sb d s)) in *.
  destruct (F5 (-1) slot_ind Hind) as [Hr Hu]. fold ind in Hr, Hu.
  assert (Hbi : b ≠ ind) by (intros ->; by rewrite Hu in Hbf).
  assert (HC : ∀ y, content s' d y = if decide (y = ind)
    then store32 (content s d ind) (4 * (x - NDIRECT)) b
    else if decide (y = b) then z else if decide (y = bm) then bit_set (bitmap s d) b else content s d y).
  { intros y. rewrite (ed_content _ _ _ HE) by done. change [?a; ?c; ?e] with (([a] ++ [c]) ++ [e]).
    rewrite !apply_writes_app, !apply_one. repeat case_decide; naive_solver. }
  assert (Hblk : ∀ y, slot y → blk s' ip y = if decide (y = x) then b else blk s ip y).
  { assert (Hlow : ∀ y, y < NDIRECT → blk s' ip y = blk s ip y).
    { intros y Hy. unfold blk, map_block. rewrite Hi. by rewrite (proj2 (Z.ltb_lt y NDIRECT)). }
    intros y Hy. destruct (Z.lt_ge_cases y NDIRECT) as [Hlt|Hge].
    { rewrite decide_False by lia. by apply Hlow. }
    rewrite !(blk_indirect _ _ y), (Hlow (-1)) by (unfold NDIRECT in *; lia). fold ind.
    rewrite Hi, F1, (proj2 (Z.eqb_neq ind 0)), HC, decide_True by done.
    case_decide as Hyx.
    - subst y. rewrite load32_store32. apply u32_small. unfold FSSIZE in *. lia.
    - apply load32_ext. intros o Ho. apply store32_out. lia. }
  assert (Hsx : slot x) by (unfold slot, NDIRECT in *; lia).
  assert (Hgx : ∀ y, slot y → y ≠ x → blk s' ip y = blk s ip y) by (intros y ? ?; by rewrite Hblk, decide_False).
  assert (Hgy : blk s' ip x = b) by (by rewrite Hblk, decide_True).
  assert (Hgm : bitmap s' d = bit_set (bitmap s d) b).
  { unfold bitmap at 1. rewrite (edits_sb _ _ _ _ HE). fold bm.
    by rewrite HC, !decide_False, decide_True by lia. }
  assert (Hgi : ∃ a, length a = 13%nat ∧ inodes s' ip = set_i_addrs a (inodes s ip)).
  { exists (i_addrs (inodes s ip)). split; [done|]. rewrite Hi. by destruct (inodes s ip). }
  assert (Hge : ∃ W, edits s s' W ∧ Forall (λ w, data_block s d ds w.1.2) W).
  { eexists. split; [done|]. rewrite !Forall_cons, Forall_nil. split; [by left|split; [by right|by split; [right|]]]. }
  split; [|split; [|by split]].
  - by eapply (grow_file s s' H d ds T k ip x b).
  - eapply (grow_step s s' H d ds T k ip x b); try done.
    + intros y H1 H2 H3. by rewrite HC, !decide_False.
    + intros _ o Ho. rewrite HC, decide_False, decide_True by done. by apply Hz.
    + intros d' y H0 Hne. rewrite (ed_content _ _ _ HE) by done. apply apply_writes_out. cbn. set_solver.
    + intros j _. by rewrite Hi.
Qed.

(** ** [bmap] *)

(** Room for [r] more data blocks, and for the indirect block. *)
Definition budget (s : fsys) (ip : nat) (T : gset Z) (k r : nat) : Prop :=
  blk s ip (-1) ≠ 0 ∧ blk s ip (-1) ∈ T ∧ (r ≤ k)%nat ∨ blk s ip (-1) = 0 ∧ (S r ≤ k)%nat.

(** One more block is used when the file got its indirect block. *)
Definition new_ind (s s' : fsys) (ip : nat) : nat :=
  if decide (blk s ip (-1) = 0 ∧ blk s' ip (-1) ≠ 0) then 1 else 0.

Lemma new_ind_trans s s1 s2 ip : (blk s ip (-1) ≠ 0 → blk s1 ip (-1) = blk s ip (-1)) →
  (blk s1 ip (-1) ≠ 0 → blk s2 ip (-1) = blk s1 ip (-1)) →
  (new_ind s s1 ip + new_ind s1 s2 ip ≤ new_ind s s2 ip)%nat.
Proof.
  intros Hk1 Hk. unfold new_ind. destruct (decide (blk s1 ip (-1) = 0)) as [E|E].
  - rewrite (decide_False (P := _ ∧ blk s1 ip (-1) ≠ 0)) by tauto.
    repeat case_decide; lia || tauto.
  - rewrite Hk, (decide_False (P := blk s1 ip (-1) = 0 ∧ _)) by tauto. lia.
Qed.

(** [bmap] returned block [b] for slot [x]. *)
Record mapped (s s' : fsys) (d ds : Z) (T T' : gset Z) (k' r : nat) (ip : nat) (x b : Z) : Prop := Mapped {
  mp_op : op s' [] d ds T' k';
  mp_budget : budget s' ip T' k' r;
  mp_set : T ⊆ T' ∧ b ∈ T';
  mp_file : file_ok s' d ds ip;
  mp_step : fstep s s' d ds ip;
  mp_blk : blk s' ip x = b ∧ b ≠ 0;
  mp_same : blk s ip x ≠ 0 → inodes s' = inodes s;
  mp_free : (nfree s d ≤ nfree s' d + new_ind s s' ip + 1)%nat
}.

Lemma edits_nil s : edits s s [].
Proof. split; try done. set_solver. Qed.

Lemma bmap_direct_op s d ds T k ip x r :
  op s [] d ds T k → sb_bmapstart (the_sb d s) ∈ T → file_ok s d ds ip → 0 ≤ x < NDIRECT →
  budget s ip T k (S r) →
  ∃ b s' T' k', bmap ip x s = Done (b, s') ∧ mapped s s' d ds T T' k' r ip x b.
Proof.
  intros HO HT HF Hx HB. pose proof (op_dev _ _ _ _ _ _ HO) as Hd.
  destruct k as [|k]; [unfold budget in HB; naive_solver lia|].
  assert (Hblk : blk s ip x = nth (Z.to_nat x) (i_addrs (inodes s ip)) 0).
  { unfold blk, map_block. by rewrite (proj2 (Z.eqb_neq _ _)), (proj2 (Z.ltb_lt _ _)) by lia. }
  unfold bmap. setoid_rewrite run_getS. cbv zeta. rewrite (proj2 (Z.ltb_lt _ _)) by lia.
  rewrite <- Hblk, (fo_dev _ _ _ _ HF). destruct (Z.eqb_spec (blk s ip x) 0) as [H0|H0].
  - destruct (alloc_addr_op s d ds T k ip x HO HT HF) as
      (b & s1 & Hr & _ & Hb & HO2 & HF2 & HS2 & Hb2 & Hcnt & Hx2); [lia|done|].
    replace (addr_index x) with (Z.to_nat x) in * by (unfold addr_index; by rewrite decide_False by lia).
    eexists b, _, ({[b]} ∪ T), k. split; [by rewrite (bind_done _ _ _ _ _ Hr), run_modS|].
    split; try done; [|set_solver|lia].
    unfold budget in *. rewrite Hx2 by (apply slot_ind || lia). destruct HB as [(?&?&?)|[??]]; [left|right].
    + split; [done|]. split; [set_solver|lia].
    + split; [done|lia].
  - exists (blk s ip x), s, ({[blk s ip x]} ∪ T), k. split; [done|].
    split; [by apply op_adopt| |set_solver|done| |done|done|lia].
    + unfold budget in *. destruct HB as [(?&?&?)|[??]]; [left|right]; [|split; [done|lia]].
      split; [done|]. split; [set_solver|lia].
    + apply fstep_refl; [done|apply HF|apply edits_nil|done].
Qed.

(** The rest of [bmap] for an indirect slot, from the indirect block on. *)
Lemma bmap_far_op s d ds T k ip x r :
  op s [] d ds T k → sb_bmapstart (the_sb d s) ∈ T → file_ok s d ds ip → NDIRECT ≤ x < MAXFILE →
  blk s ip (-1) ≠ 0 → blk s ip (-1) ∈ T → (S r ≤ k)%nat →
  ∃ b s' T' k', bmap_indirect d (blk s ip (-1)) (x - NDIRECT) s = Done (b, s') ∧
    mapped s s' d ds T T' k' r ip x b.
Proof.
  intros HO HT HF Hx Hind HTi Hk. pose proof (op_dev _ _ _ _ _ _ HO) as Hd.
  destruct k as [|k]; [lia|]. destruct (decide (blk s ip x = 0)) as [H0|H0].
  - destruct (bmap_indirect_run s d ds T k ip x HO HT HF Hx Hind HTi H0) as (b & s' & Hr & HO' & HR).
    destruct (recorded_grows _ _ _ _ _ _ _ _ _ _ HO HF Hx Hind H0 HR) as (HF' & HS' & Hb' & Hx').
    exists b, s', ({[b]} ∪ T), k. split; [done|].
    pose proof (op_layout _ _ _ _ _ _ HO) as [_ _ Lmap _ _]. destruct HR as [Hb _ _ Hcnt _].
    split; try done; [|set_solver|split; [done|lia]|lia].
    left. rewrite Hx' by (apply slot_ind || (unfold NDIRECT in *; lia)).
    split; [done|]. split; [set_solver|lia].
  - destruct (bmap_indirect_hit s d ds T k ip x HO HF Hx Hind H0) as (s' & Hr & HO' & HE & Hi).
    exists (blk s ip x), s', ({[blk s ip x]} ∪ T), k. split; [done|].
    assert (HS' : fstep s s' d ds ip) by (apply fstep_refl; [done|apply HF|done|done]).
    assert (Hi' : blk s' ip (-1) = blk s ip (-1)) by (apply HS'; [apply slot_ind|done]).
    split; [by apply op_adopt| |set_solver|by eapply file_edits|done| |done|].
    + left. rewrite Hi'. split; [done|]. split; [set_solver|lia].
    + split; [|done]. apply HS'; [unfold slot, NDIRECT in *; lia|done].
    + rewrite (bitmap_nfree _ _ _ _ HE); [lia|]. unfold bitmap. rewrite (edits_sb _ _ _ _ HE). by apply HE.
Qed.

Lemma bmap_op s d ds T k ip x r :
  op s [] d ds T k → sb_bmapstart (the_sb d s) ∈ T → file_ok s d ds ip → 0 ≤ x < MAXFILE →
  budget s ip T k (S r) →
  ∃ b s' T' k', bmap ip x s = Done (b, s') ∧ mapped s s' d ds T T' k' r ip x b.
Proof.
  intros HO HT HF Hx HB. destruct (Z.lt_ge_cases x NDIRECT) as [Hlt|Hge].
  { apply (bmap_direct_op s d ds T k ip x r); try done; lia. }
  pose proof (lay_map _ _ _ (op_layout _ _ _ _ _ _ HO)) as Hm.
  unfold bmap. setoid_rewrite run_getS. cbv zeta.
  rewrite (proj2 (Z.ltb_ge _ _)), (proj2 (Z.ltb_lt (x - NDIRECT) NINDIRECT)) by (unfold MAXFILE in *; lia).
  rewrite (fo_dev _ _ _ _ HF). change (nth (Z.to_nat NDIRECT) (i_addrs (inodes s ip)) 0) with (blk s ip (-1)).
  destruct HB as [(Hi & HTi & Hk)|[Hi Hk]].
  - rewrite (proj2 (Z.eqb_neq _ _)) by done. setoid_rewrite run_ret.
    destruct (bmap_far_op s d ds T k ip x r) as (b & s' & T' & k' & Hr & HM); try done; [lia|].
    exists b, s', T', k'. split; [exact Hr|done].
  - rewrite Hi. change (0 =? 0) with true. cbv iota. destruct k as [|k]; [lia|].
    destruct (alloc_addr_op s d ds T k ip (-1) HO HT HF) as
      (b0 & s1 & Hr & _ & Hb0 & HO2 & HF2 & HS2 & Hb2 & Hcnt & Hx2); [unfold NDIRECT; lia|done|].
    set (s2 := updi _ _ s1) in *.
    destruct (ff_rest _ _ _ _ _ (fs_frame _ _ _ _ _ HS2)) as (W & HE & _).
    destruct (bmap_far_op s2 d ds ({[b0]} ∪ T) k ip x r) as (b & s' & T' & k' & Hr' & HM); try done.
    { rewrite (edits_sb _ _ _ _ HE). set_solver. } { lia. } { by rewrite Hb2. }
    { rewrite Hb2. set_solver. } { lia. }
    exists b, s', T', k'. split.
    + rewrite run_bind, (bind_done _ _ _ _ _ Hr), run_modS. rewrite Hb2 in Hr'. exact Hr'.
    + destruct HM as [? ? [? ?] ? HS' ? Hsame Hfr]. split; try done; [set_solver| | |].
      * eapply fstep_trans; [|done..]. lia.
      * rewrite (blk_indirect s ip x), Hi by lia. done.
      * assert (Hi' : blk s' ip (-1) ≠ 0).
        { rewrite (ff_keep _ _ _ _ _ (fs_frame _ _ _ _ _ HS')); rewrite ?Hb2; done || apply slot_ind. }
        unfold new_ind in *. rewrite decide_False in Hfr by (rewrite Hb2; tauto). rewrite decide_True by done. lia.
Qed.

(** ** The bytes of a file *)

(** Byte [o] of the file; a hole reads as zero. *)
Definition fbyte (s : fsys) (ip : nat) (o : Z) : Z :=
  let b := blk s ip (o / BSIZE) in
  if b =? 0 then 0 else content s (i_dev (inodes s ip)) b (o mod BSIZE).

Lemma byte_slot o : 0 ≤ o < MAXFILE * BSIZE → slot (o / BSIZE) ∧ 0 ≤ o / BSIZE ∧ 0 ≤ o mod BSIZE < BSIZE.
Proof.
  intros Ho. unfold slot. pose proof (Z.div_pos o BSIZE). pose proof (Z.mod_pos_bound o BSIZE).
  pose proof (Z.div_lt_upper_bound o BSIZE MAXFILE). unfold BSIZE in *. lia.
Qed.

Lemma fstep_fbyte s s' d ds ip o : i_dev (inodes s ip) = d → fstep s s' d ds ip →
  0 ≤ o < MAXFILE * BSIZE → fbyte s' ip o = fbyte s ip o.
Proof.
  intros Hd [HR HD HZ] Ho. destruct (byte_slot o Ho) as (Hs & H0 & Hm).
  destruct (ff_inode _ _ _ _ _ HR) as (a & Ha). unfold fbyte. rewrite Ha. cbn [i_dev set_i_addrs].
  rewrite Hd. destruct (Z.eqb_spec (blk s ip (o / BSIZE)) 0) as [Hz|Hz].
  - destruct (Z.eqb_spec (blk s' ip (o / BSIZE)) 0) as [|Hn]; [done|]. by apply HZ.
  - rewrite (ff_keep _ _ _ _ _ HR), (proj2 (Z.eqb_neq _ _)) by done. by apply HD.
Qed.

(** The contents of one data block are replaced. *)
Lemma put_block s s' H d ds T k ip x m :
  op s H d ds T k → file_ok s d ds ip → 0 ≤ x < MAXFILE → blk s ip x ≠ 0 →
  edits s s' [(d, blk s ip x, m)] → inodes s' = inodes s →
  file_ok s' d ds ip ∧ fframe s s' d ds ip ∧ (∀ y, slot y → blk s' ip y = blk s ip y) ∧
  ∀ o, 0 ≤ o < MAXFILE * BSIZE →
    fbyte s' ip o = if decide (o / BSIZE = x) then m (o mod BSIZE) else fbyte s ip o.
Proof.
  intros HO HF Hx Hnz HE Hi. pose proof (op_dev _ _ _ _ _ _ HO) as Hd.
  pose proof (op_layout _ _ _ _ _ _ HO) as [_ _ Lmap _ _]. pose proof HF as [F1 F2 F3 F4 F5 F6].
  assert (Hsx : slot x) by (unfold slot; lia). destruct (F5 x Hsx Hnz) as [Hr Hu].
  assert (HC : ∀ d' y, d' ≠ 0 → content s' d' y = if decide (d' = d ∧ y = blk s ip x) then m else content s d' y).
  { intros d' y Hd'. by rewrite (ed_content _ _ _ HE), apply_one. }
  assert (HCd : ∀ y, y ≠ blk s ip x → content s' d y = content s d y).
  { intros y Hy. rewrite HC, decide_False by naive_solver. done. }
  assert (Hbm : bitmap s' d = bitmap s d).
  { unfold bitmap. rewrite (edits_sb _ _ _ _ HE). apply HCd. lia. }
  assert (Hblk : ∀ y, slot y → blk s' ip y = blk s ip y).
  { assert (Hlow : ∀ y, y < NDIRECT → blk s' ip y = blk s ip y).
    { intros y Hy. unfold blk, map_block. rewrite Hi. by rewrite (proj2 (Z.ltb_lt y NDIRECT)). }
    intros y Hy. destruct (Z.lt_ge_cases y NDIRECT) as [|Hge]; [by apply Hlow|].
    rewrite !(blk_indirect _ _ y), (Hlow (-1)), Hi, F1 by (unfold NDIRECT in *; lia).
    destruct (Z.eqb_spec (blk s ip (-1)) 0) as [|Hn]; [done|]. rewrite HCd; [done|].
    intros Heq. pose proof (F6 (-1) x slot_ind Hsx Heq Hn). lia. }
  split; [|split; [|split; [done|]]].
  - split; rewrite ?Hi; try done.
    + intros y H0 Hy. rewrite Hblk by (unfold slot, BSIZE in *; lia). by apply F4.
    + intros y Hy. rewrite Hblk, Hbm, (edits_sb _ _ _ _ HE) by done. by apply F5.
    + intros y z Hy Hz. rewrite !Hblk by done. by apply F6.
  - split; rewrite ?Hi; try done.
    + intros y Hy Hn. by apply Hblk.
    + intros y Hy Hn. by rewrite Hblk.
    + by rewrite Hbm.
    + intros y Hy _ Hn. apply HCd. specialize (Hn x Hsx). congruence.
    + intros y Hy _. apply HCd. lia.
    + intros d' y H0 Hne. rewrite HC, decide_False by naive_solver. done.
    + exists (i_addrs (inodes s ip)). by destruct (inodes s ip).
    + eexists. split; [done|]. apply Forall_singleton. by right.
  - intros o Ho. destruct (byte_slot o Ho) as (Hs & H0 & Hm). unfold fbyte. rewrite Hi, F1, Hblk by done.
    case_decide as Hox.
    + subst x. rewrite (proj2 (Z.eqb_neq _ _)), HC, decide_True by done. done.
    + destruct (Z.eqb_spec (blk s ip (o / BSIZE)) 0) as [|Hn]; [done|]. rewrite HCd; [done|].
      intros Heq. by apply Hox, (F6 _ x Hs Hsx).
Qed.

(** ** [writei] *)

(** The number of blocks [rest] bytes from [off] touch. *)
Definition blocks_in (off rest : Z) : nat :=
  if 0 <? rest then Z.to_nat ((off + rest - 1) / BSIZE - off / BSIZE + 1) else 0.

Lemma blocks_in_chunk off rest : 0 ≤ off → 0 < rest →
  blocks_in off rest = S (blocks_in (off + chunk rest off) (rest - chunk rest off)).
Proof.
  intros Ho Hr. unfold blocks_in, chunk, BSIZE. rewrite (proj2 (Z.ltb_lt 0 rest)) by done.
  pose proof (Z.mod_pos_bound off 512). pose proof (Z.div_mod off 512 ltac:(lia)).
  destruct (Z.le_gt_cases rest (512 - off mod 512)) as [Hle|Hgt].
  - rewrite Z.min_l, (proj2 (Z.ltb_ge 0 _)) by lia.
    replace ((off + rest - 1) / 512) with (off / 512); [lia|].
    apply (Z.div_unique _ _ _ (off mod 512 + rest - 1)); lia.
  - rewrite Z.min_r, (proj2 (Z.ltb_lt 0 _)) by lia.
    replace ((off + (512 - off mod 512)) / 512) with (off / 512 + 1).
    2: { apply (Z.div_unique _ _ _ 0); lia. }
    replace (off + (512 - off mod 512) + (rest - (512 - off mod 512)) - 1) with (off + rest - 1) by lia.
    assert (off / 512 + 1 ≤ (off + rest - 1) / 512) by (apply Z.div_le_lower_bound; lia). lia.
Qed.

Lemma blocks_in_one off rest : 0 ≤ off → 0 < rest → blocks_in off (chunk rest off) = 1%nat.
Proof.
  intros Ho Hr. pose proof (chunk_bounds rest off Hr). rewrite blocks_in_chunk by lia.
  replace (chunk (chunk rest off) off) with (chunk rest off) by (unfold chunk; lia). by rewrite Z.sub_diag.
Qed.

(** One turn of the loop puts the bytes of one block. *)
Lemma chunk_bytes s s' ip (m : mem) src off rest c :
  0 ≤ off → 0 < rest → c = chunk rest off →
  blk s ip (off / BSIZE) ≠ 0 →
  (∀ o, 0 ≤ o < MAXFILE * BSIZE → fbyte s' ip o = if decide (o / BSIZE = off / BSIZE)
    then copy_in (content s (i_dev (inodes s ip)) (blk s ip (off / BSIZE))) (off mod BSIZE) m src c (o mod BSIZE)
    else fbyte s ip o) →
  ∀ o, 0 ≤ o < MAXFILE * BSIZE →
    fbyte s' ip o = if decide (off ≤ o < off + c) then m (src + (o - off)) else fbyte s ip o.
Proof.
  intros H0 Hr Hc Hnz Hb o Ho. rewrite Hb by done. unfold copy_in, chunk, BSIZE in *.
  pose proof (Z.mod_pos_bound off 512). pose proof (Z.div_mod off 512 ltac:(lia)).
  pose proof (Z.mod_pos_bound o 512). pose proof (Z.div_mod o 512 ltac:(lia)).
  case_decide as Hq.
  - destruct (Z.leb_spec (off mod 512) (o mod 512)), (Z.ltb_spec (o mod 512) (off mod 512 + c)); cbn [andb].
    1: rewrite decide_True by lia; f_equal; lia.
    all: rewrite decide_False by lia; unfold fbyte, BSIZE; rewrite Hq.
    all: by rewrite (proj2 (Z.eqb_neq _ _)).
  - rewrite decide_False; [done|]. intros Hin. apply Hq.
    symmetry. apply (Z.div_unique _ _ _ (o - 512 * (off / 512))); lia.
Qed.

Section writing.
Context (d ds : Z) (ip : nat) (m : mem).

(** The bytes written and the blocks behind them. *)
Record wrote_bytes (s s' : fsys) (src off n : Z) : Prop := WroteBytes {
  wb_file : file_ok s' d ds ip;
  wb_frame : fframe s s' d ds ip;
  wb_bytes : ∀ o, 0 ≤ o < MAXFILE * BSIZE →
    fbyte s' ip o = if decide (off ≤ o < off + n) then m (src + (o - off)) else fbyte s ip o;
  wb_mapped : 0 < n → ∀ x, 0 ≤ x → off < (x + 1) * BSIZE → x * BSIZE < off + n → blk s' ip x ≠ 0;
  wb_same : (∀ x, 0 ≤ x → off < (x + 1) * BSIZE → x * BSIZE < off + n → blk s ip x ≠ 0) → inodes s' = inodes s;
  wb_free : (nfree s d ≤ nfree s' d + new_ind s s' ip + blocks_in off n)%nat;
  wb_logged : 0 < n → logged (flog s') ≠ []
}.

(** One turn. *)
Lemma write_chunk s T k src off rest r :
  op s [] d ds T k → sb_bmapstart (the_sb d s) ∈ T → file_ok s d ds ip →
  0 ≤ off → 0 < rest → off + rest ≤ MAXFILE * BSIZE → budget s ip T k (S r) →
  ∃ a i s1 s2 s3 s4 T' k', bmap ip (off / BSIZE) s = Done (a, s1) ∧ bread d a s1 = Done (i, s2) ∧
    log_write i (updb i (λ b, set_b_data (copy_in (b_data b) (off mod BSIZE) m src (chunk rest off)) b) s2)
      = Done ((), s3) ∧
    brelse i s3 = Done ((), s4) ∧ op s4 [] d ds T' k' ∧ T ⊆ T' ∧ budget s4 ip T' k' r ∧
    wrote_bytes s s4 src off (chunk rest off).
Proof.
  intros HO HT HF H0 Hr Hmax HB. set (x := off / BSIZE) in *. set (c := chunk rest off) in *.
  destruct (byte_slot off) as (Hsx & Hx0 & Hm); [lia|]. fold x in Hsx, Hx0.
  assert (Hx : 0 ≤ x < MAXFILE) by (unfold slot in Hsx; lia).
  destruct (bmap_op s d ds T k ip x r HO HT HF Hx HB) as (a & s1 & T' & k' & H1 & HM).
  destruct HM as [HO1 HB1 [HT1 Ha1] HF1 HS1 [Hba Hnz] Hsame Hfree].
  pose proof (op_layout _ _ _ _ _ _ HO1) as [Ldev Lsz Lmap _ _].
  destruct (fo_used _ _ _ _ HF1 x Hsx) as [Hra _]; [congruence|]. rewrite Hba in Hra.
  destruct (rmw_op s1 [] d ds T' k' a k' (λ b, copy_in b (off mod BSIZE) m src c) HO1) as
    (i & s2 & s3 & s4 & H2 & _ & _ & _ & H3 & H4 & HO4 & HE4 & Hi4 & _);
    [cbn; lia|split; [done|unfold FSSIZE in *; lia]|by intros j Hj%elem_of_nil|done|lia|done|].
  rewrite <- Hba in HE4.
  destruct (put_block s1 s4 [] d ds T' k' ip x _ HO1 HF1 Hx ltac:(congruence) HE4 Hi4)
    as (HF4 & HR4 & Hblk4 & Hby4).
  assert (Hbytes : ∀ o, 0 ≤ o < MAXFILE * BSIZE →
    fbyte s4 ip o = if decide (off ≤ o < off + c) then m (src + (o - off)) else fbyte s ip o).
  { intros o Ho. rewrite <- (fstep_fbyte s s1 d ds ip o (fo_dev _ _ _ _ HF) HS1 Ho).
    apply (chunk_bytes s1 s4 ip m src off rest c); try done; [by fold x; rewrite Hba|].
    intros o' Ho'. rewrite (fo_dev _ _ _ _ HF1). by apply Hby4. }
  exists a, i, s1, s2, s3, s4, T', k'. do 6 (split; [done|]). split.
  { unfold budget in *. by rewrite Hblk4 by apply slot_ind. }
  pose proof (Z.mod_pos_bound off 512). pose proof (Z.div_mod off 512 ltac:(lia)).
  split; [done| |done| | | |].
  - eapply fframe_trans; [|apply HS1|done]. lia.
  - intros _ y Hy Hlo Hhi. assert (y = x) as ->; [|rewrite Hblk4 by done; congruence].
    subst x c. unfold chunk, BSIZE in *. lia.
  - intros Hall. rewrite Hi4. apply Hsame, Hall; subst x c; unfold chunk, BSIZE in *; lia.
  - rewrite (bitmap_nfree _ _ _ _ HE4) by (rewrite (bitmap_edit _ _ _ _ _ HE4), decide_False; lia || done).
    replace (new_ind s s4 ip) with (new_ind s s1 ip) by (unfold new_ind; by rewrite Hblk4 by apply slot_ind).
    subst c. rewrite blocks_in_one by done. lia.
  - intros _ E. assert (Hin : blk s1 ip x ∈ logged (flog s4)) by (apply (ed_logged _ _ _ HE4); set_solver).
    rewrite E in Hin. by apply not_elem_of_nil in Hin.
Qed.

Lemma wrote_none s src off : d ≠ 0 → file_ok s d ds ip → wrote_bytes s s src off 0.
Proof.
  intros Hd HF. split; [done| | |lia|done|lia|lia].
  - apply fs_frame, fstep_refl; [done|apply HF|apply edits_nil|done].
  - intros o Ho. by rewrite decide_False by lia.
Qed.

Lemma wrote_more s s1 s2 src off n c : 0 < ds → 0 ≤ off → 0 < n → c = chunk n off → off + n ≤ MAXFILE * BSIZE →
  wrote_bytes s s1 src off c → wrote_bytes s1 s2 (src + c) (off + c) (n - c) →
  wrote_bytes s s2 src off n.
Proof.
  intros Hds H0 Hn Ec Hmax [F1 R1 B1 M1 S1 C1 L1] [F2 R2 B2 M2 S2 C2 _].
  pose proof (chunk_bounds n off Hn) as Hc. rewrite <- Ec in Hc. split; [done|by eapply fframe_trans| | | | |].
  - intros o Ho. rewrite B2, B1 by done. repeat case_decide; try lia; [|done..]. f_equal. lia.
  - intros _ x Hx Hlo Hhi. destruct (Z.lt_ge_cases (x * BSIZE) (off + c)) as [Hlt|Hge].
    + assert (blk s1 ip x ≠ 0) by (by apply M1; [lia|..]). rewrite (ff_keep _ _ _ _ _ R2); [done| |done].
      unfold slot, BSIZE in *. lia.
    + apply M2; unfold BSIZE in *; lia.
  - intros Hall. rewrite S2, S1; [done|..].
    + intros x ? ? ?. apply Hall; unfold BSIZE in *; lia.
    + intros x Hx Hlo Hhi. assert (Hnz : blk s ip x ≠ 0) by (apply Hall; unfold BSIZE in *; lia).
      rewrite (ff_keep _ _ _ _ _ R1); [done| |done]. unfold slot, BSIZE in *. lia.
  - rewrite (blocks_in_chunk off n), <- Ec by done. assert (E1 : blocks_in off c = 1%nat) by (rewrite Ec; by apply blocks_in_one). rewrite E1 in C1.
    pose proof (new_ind_trans s s1 s2 ip (ff_keep _ _ _ _ _ R1 (-1) slot_ind) (ff_keep _ _ _ _ _ R2 (-1) slot_ind)). lia.
  - intros _. destruct (ff_rest _ _ _ _ _ R2) as (W & HE & _). apply (edits_logged _ _ _ HE), L1. lia.
Qed.

Lemma writei_loop_op fuel : ∀ s T k src off rest,
  op s [] d ds T k → sb_bmapstart (the_sb d s) ∈ T → file_ok s d ds ip →
  0 ≤ off → 0 ≤ rest → off + rest ≤ MAXFILE * BSIZE → (Z.to_nat rest ≤ fuel)%nat →
  budget s ip T k (blocks_in off rest) →
  ∃ s' T' k', writei_loop fuel ip m src off rest s = Done ((), s') ∧
    op s' [] d ds T' k' ∧ T ⊆ T' ∧ wrote_bytes s s' src off rest.
Proof.
  induction fuel as [|fuel IH]; intros s T k src off rest HO HT HF H0 Hr Hmax Hfuel HB.
  - assert (rest = 0) as -> by lia. exists s, T, k. split; [done|]. split; [done|]. split; [done|].
    apply wrote_none; [by eapply op_dev|done].
  - cbn [writei_loop]. destruct (Z.leb_spec rest 0) as [Hz|Hpos].
    { assert (rest = 0) as -> by lia. exists s, T, k. split; [done|]. split; [done|]. split; [done|].
      apply wrote_none; [by eapply op_dev|done]. }
    rewrite blocks_in_chunk in HB by lia. pose proof (chunk_bounds rest off ltac:(lia)) as Hc.
    destruct (write_chunk s T k src off rest _ HO HT HF H0 Hpos Hmax HB) as
      (a & i & s1 & s2 & s3 & s4 & T1 & k1 & H1 & H2 & H3 & H4 & HO4 & HT1 & HB4 & HW).
    destruct (ff_rest _ _ _ _ _ (wb_frame _ _ _ _ _ HW)) as (W & HE & _).
    destruct (IH s4 T1 k1 (src + chunk rest off) (off + chunk rest off) (rest - chunk rest off)) as
      (s' & T' & k' & Hrun & HO' & HT' & HW'); try done; [|apply HW|lia|lia|lia|lia|].
    { rewrite (edits_sb _ _ _ _ HE). by apply HT1. }
    exists s', T', k'. split; [|split; [done|split; [set_solver|]]].
    + setoid_rewrite run_getS. rewrite (fo_dev _ _ _ _ HF).
      rewrite (bind_done _ _ _ _ _ H1), (bind_done _ _ _ _ _ H2). cbv zeta.
      rewrite run_modS, (bind_done _ _ _ _ _ H3), (bind_done _ _ _ _ _ H4). exact Hrun.
    + pose proof (lay_map _ _ _ (op_layout _ _ _ _ _ _ HO)).
      apply (wrote_more s s4 s' src off rest (chunk rest off)); [lia..|done|done|done|done].
Qed.
End writing.

(** ** [iupdate] and the whole of [writei] *)

(** A block below the data blocks, other than the bitmap, is replaced. *)
Lemma meta_step s s' H d ds T k ip b m :
  op s H d ds T k → file_ok s d ds ip → b < ds → b ≠ sb_bmapstart (the_sb d s) →
  edits s s' [(d, b, m)] → inodes s' = inodes s →
  file_ok s' d ds ip ∧ bitmap s' d = bitmap s d ∧ (∀ y, y ≠ b → content s' d y = content s d y) ∧
  ∀ o, 0 ≤ o < MAXFILE * BSIZE → fbyte s' ip o = fbyte s ip o.
Proof.
  intros HO HF Hb Hne HE Hi. pose proof (op_dev _ _ _ _ _ _ HO) as Hd.
  pose proof HF as [F1 F2 F3 F4 F5 F6].
  assert (HCd : ∀ y, y ≠ b → content s' d y = content s d y).
  { intros y Hy. rewrite (ed_content _ _ _ HE), apply_one, decide_False by naive_solver. done. }
  assert (Hbm : bitmap s' d = bitmap s d).
  { unfold bitmap. rewrite (edits_sb _ _ _ _ HE). apply HCd. lia. }
  assert (Hblk : ∀ y, slot y → blk s' ip y = blk s ip y).
  { assert (Hlow : ∀ y, y < NDIRECT → blk s' ip y = blk s ip y).
    { intros y Hy. unfold blk, map_block. rewrite Hi. by rewrite (proj2 (Z.ltb_lt y NDIRECT)). }
    intros y Hy. destruct (Z.lt_ge_cases y NDIRECT) as [|Hge]; [by apply Hlow|].
    rewrite !(blk_indirect _ _ y), (Hlow (-1)), Hi, F1 by (unfold NDIRECT in *; lia).
    destruct (Z.eqb_spec (blk s ip (-1)) 0) as [|Hn]; [done|]. rewrite HCd; [done|].
    destruct (F5 (-1) slot_ind Hn). lia. }
  split; [|split; [done|split; [done|]]].
  - split; rewrite ?Hi; try done.
    + intros y H0 Hy. rewrite Hblk by (unfold slot, BSIZE in *; lia). by apply F4.
    + intros y Hy. rewrite Hblk, Hbm, (edits_sb _ _ _ _ HE) by done. by apply F5.
    + intros y z Hy Hz. rewrite !Hblk by done. by apply F6.
  - intros o Ho. destruct (byte_slot o Ho) as (Hs & _ & _). unfold fbyte. rewrite Hi, F1, Hblk by done.
    destruct (Z.eqb_spec (blk s ip (o / BSIZE)) 0) as [|Hn]; [done|]. rewrite HCd; [done|].
    destruct (F5 _ Hs Hn). lia.
Qed.

(** The block of inode [ip]. *)
Definition iblk (s : fsys) (ip : nat) : Z :=
  IBLOCK (i_inum (inodes s ip)) (the_sb (i_dev (inodes s ip)) s).

(** The inode block of [ip] is a block of its own below the data. *)
Definition iblk_ok (s : fsys) (d ds : Z) (ip : nat) : Prop :=
  i_mount (inodes s ip) ≠ 1 ∧ iblk s ip < ds ∧ iblk s ip ≠ sb_bmapstart (the_sb d s).

Lemma iupdate_op s d ds T k ip :
  op s [] d ds T k → file_ok s d ds ip → iblk_ok s d ds ip → iblk s ip ∈ T →
  ∃ s', iupdate ip s = Done ((), s') ∧ op s' [] d ds T k ∧ file_ok s' d ds ip ∧
    inodes s' = inodes s ∧ bitmap s' d = bitmap s d ∧
    (∀ o, 0 ≤ o < MAXFILE * BSIZE → fbyte s' ip o = fbyte s ip o) ∧
    (∃ b, edits s s' [(d, iblk s ip, b)]) ∧
    ∀ y, content s' d y = if decide (y = iblk s ip)
      then put_dinode (content s d y) (i_inum (inodes s ip)) (inodes s ip) else content s d y.
Proof.
  intros HO HF (Hm & Hlt & Hne) HT. pose proof (op_dev _ _ _ _ _ _ HO) as Hd.
  pose proof (op_layout _ _ _ _ _ _ HO) as [Ldev Lsz Lmap Ldata _].
  assert (Hon : on_disk d (iblk s ip)).
  { split; [done|]. split; [unfold iblk, IBLOCK; apply u32_range|unfold FSSIZE in *; lia]. }
  destruct (rmw_op s [] d ds T k (iblk s ip) k (λ b, put_dinode b (i_inum (inodes s ip)) (inodes s ip)) HO)
    as (i & s1 & s2 & s3 & H1 & _ & _ & _ & H2 & H3 & HO3 & HE3 & Hi3 & _);
    [cbn; lia|done|by intros j Hj%elem_of_nil|done|done|done|].
  destruct (meta_step s s3 [] d ds T k ip _ _ HO HF Hlt Hne HE3 Hi3) as (HF3 & Hbm3 & HC3 & Hby3).
  exists s3. split; [|do 5 (split; [done|]); split; [by eexists|]].
  - unfold iupdate. rewrite run_getS. cbv zeta. rewrite (proj2 (Z.eqb_neq _ _)) by done.
    rewrite (fo_dev _ _ _ _ HF). unfold iblk in H1. rewrite (fo_dev _ _ _ _ HF) in H1.
    by rewrite (bind_done _ _ _ _ _ H1), run_modS, (bind_done _ _ _ _ _ H2).
  - intros y. case_decide as Hy; [subst y|by apply HC3].
    rewrite (ed_content _ _ _ HE3), apply_one, decide_True by done. done.
Qed.

(** What [writei] of [n] bytes at [off] does to the file. *)
Record written (s s' : fsys) (d ds : Z) (ip : nat) (m : mem) (src off n : Z) : Prop := Written {
  wr_file : file_ok s' d ds ip;
  wr_size : i_size (inodes s' ip) = i_size (inodes s ip) `max` (off + n);
  wr_inode : ∃ a, inodes s' ip = set_i_size (i_size (inodes s' ip)) (set_i_addrs a (inodes s ip));
  wr_bytes : ∀ o, 0 ≤ o < MAXFILE * BSIZE →
    fbyte s' ip o = if decide (off ≤ o < off + n) then m (src + (o - off)) else fbyte s ip o;
  wr_others : ∀ x, ds ≤ x → bit_used (bitmap s d) x = true → (∀ y, slot y → blk s ip y ≠ x) →
    content s' d x = content s d x ∧ bit_used (bitmap s' d) x = true;
  wr_inodes : ∀ j, j ≠ ip → inodes s' j = inodes s j;
  wr_disk : content s' d (iblk s ip) =
    if decide (0 < n ∧ i_size (inodes s ip) < off + n)
    then put_dinode (content s d (iblk s ip)) (i_inum (inodes s ip)) (inodes s' ip)
    else content s d (iblk s ip);
  wr_same : off + n ≤ i_size (inodes s ip) → inodes s' = inodes s;
  wr_free : (nfree s d ≤ nfree s' d + S (blocks_in off n))%nat;
  wr_logged : 0 < n → logged (flog s') ≠ [];
  wr_rest : ∃ W, edits s s' W ∧ Forall (λ w, data_block s d ds w.1.2 ∨ w.1.2 = iblk s ip) W
}.

Lemma file_resize s d ds ip n : file_ok s d ds ip → 0 ≤ n ≤ MAXFILE * BSIZE →
  (∀ x, 0 ≤ x → x * BSIZE < n → blk s ip x ≠ 0) → file_ok (updi ip (set_i_size n) s) d ds ip.
Proof.
  intros [F1 F2 F3 F4 F5 F6] Hn Hm.
  assert (Hi : inodes (updi ip (set_i_size n) s) ip = set_i_size n (inodes s ip)).
  { by rewrite inodes_updi, decide_True. }
  assert (Hblk : ∀ x, blk (updi ip (set_i_size n) s) ip x = blk s ip x).
  { intros x. unfold blk. by rewrite Hi. }
  split; rewrite ?Hi; try done; intros *; rewrite ?Hblk; [apply Hm|apply F5|apply F6].
Qed.

Section writei.
Context (dev_write : Z → option (nat → mem → Z → Z → M fsys Z)).
Context (s : fsys) (d ds : Z) (T : gset Z) (k : nat) (ip : nat) (m : mem) (src off n : Z).
Hypothesis HO : op s [] d ds T k.
Hypothesis HT : sb_bmapstart (the_sb d s) ∈ T ∧ iblk s ip ∈ T.
Hypothesis HF : file_ok s d ds ip.
Hypothesis HI : i_type (inodes s ip) ≠ T_DEV ∧ iblk_ok s d ds ip ∧ 0 < iblk s ip.
Hypothesis Hoff : 0 ≤ off ≤ i_size (inodes s ip).
Hypothesis Hn : 0 ≤ n ∧ off + n ≤ MAXFILE * BSIZE.

(** The file after the loop covers the bytes written. *)
Lemma loop_covered s1 x :
  wrote_bytes d ds ip m s s1 src off n → 0 ≤ x → x * BSIZE < i_size (inodes s ip) `max` (off + n) →
  blk s1 ip x ≠ 0.
Proof.
  intros [F1 R1 _ M1 _ _ _] Hx Hlt.
  destruct (Z.lt_ge_cases (x * BSIZE) (i_size (inodes s ip))) as [Hold|Hnew].
  - pose proof (fo_mapped _ _ _ _ HF x Hx Hold) as Hm. rewrite (ff_keep _ _ _ _ _ R1); [done| |done].
    pose proof (fo_size _ _ _ _ HF). unfold slot, BSIZE in *. lia.
  - apply M1; unfold BSIZE in *; lia.
Qed.

Lemma writei_step s1 :
  writei_loop (Z.to_nat n) ip m src off n s = Done ((), s1) →
  writei dev_write ip m src off n s =
    (_ ← (if (0 <? n) && (i_size (inodes s1 ip) <? off + n)
          then _ ← modS (updi ip (set_i_size (off + n))); iupdate ip else mret ()); mret n) s1.
Proof.
  intros H1. assert (MAXFILE * BSIZE < 2 ^ 31) by (unfold MAXFILE, NDIRECT, NINDIRECT, BSIZE; lia).
  unfold writei. rewrite run_getS. cbv zeta.
  rewrite (proj2 (Z.eqb_neq _ _)) by apply HI. rewrite (proj2 (Z.ltb_ge _ _)) by lia. cbn [orb].
  rewrite u32_small, (proj2 (Z.ltb_ge _ _)), (proj2 (Z.ltb_ge _ (off + n))), s32_small by lia.
  by rewrite (bind_done _ _ _ _ _ H1), run_getS.
Qed.

(** [iupdate] of the file that grew. *)
Lemma writei_grown s1 T1 k1 :
  op s1 [] d ds T1 k1 → T ⊆ T1 → wrote_bytes d ds ip m s s1 src off n →
  0 < n → i_size (inodes s ip) < off + n →
  ∃ s', iupdate ip (updi ip (set_i_size (off + n)) s1) = Done ((), s') ∧ op s' [] d ds T1 k1 ∧
    written s s' d ds ip m src off n.
Proof.
  intros HO1 HT1 HW1 Hn0 Hg. destruct HI as (_ & (Hmt & Hlt & Hne) & Hpos).
  pose proof HW1 as [HF1 HR1 HB1 _ HS1 HC1 HL1]. pose proof HR1 as [_ _ U1 F1 G1 _ (a & Ha) J1 (W & HE1 & HQ1)].
  set (s2 := updi ip (set_i_size (off + n)) s1).
  assert (Hi2 : inodes s2 ip = set_i_size (off + n) (inodes s1 ip)).
  { subst s2. by rewrite inodes_updi, decide_True. }
  assert (Hib2 : iblk s2 ip = iblk s ip).
  { unfold iblk. rewrite Hi2, Ha. cbn. apply f_equal. exact (edits_sb _ _ _ _ HE1). }
  destruct (iupdate_op s2 d ds T1 k1 ip) as (s3 & H3 & HO3 & HF3 & Hi3 & Hbm3 & Hby3 & (b3 & HE3) & HC3).
  - by apply op_updi.
  - apply file_resize; [done|lia|]. intros x Hx Hxn. apply (loop_covered s1 x HW1 Hx). lia.
  - unfold iblk_ok. rewrite Hib2, Hi2, Ha. change (the_sb d s2) with (the_sb d s1).
    by rewrite (edits_sb _ _ _ _ HE1).
  - rewrite Hib2. apply HT1, HT.
  - rewrite Hib2 in HC3, HE3. change (content s2) with (content s1) in HC3.
    exists s3. split; [done|]. split; [done|]. split; [done|..].
    + rewrite Hi3, Hi2. cbn. lia.
    + exists a. by rewrite Hi3, Hi2, Ha.
    + intros o Ho. rewrite Hby3 by done. transitivity (fbyte s1 ip o); [|by apply HB1].
      unfold fbyte, blk. by rewrite Hi2.
    + intros x Hx Hu Hxn. rewrite HC3, decide_False, Hbm3 by lia. split; [by apply F1|].
      apply U1; [lia|done].
    + intros j Hj. rewrite Hi3. subst s2. rewrite inodes_updi, decide_False by done. by apply J1.
    + rewrite HC3, !decide_True by done. rewrite (G1 (iblk s ip)) by done. by rewrite Hi3, Hi2, Ha.
    + lia.
    + assert (new_ind s s1 ip ≤ 1)%nat by (unfold new_ind; case_decide; lia).
      replace (nfree s3 d) with (nfree s1 d); [lia|]. symmetry.
      apply (bitmap_nfree s2 _ _ _ HE3). by rewrite Hbm3.
    + intros _. apply (edits_logged s2 _ _ HE3). by apply HL1.
    + exists (W ++ [(d, iblk s ip, b3)]). split; [exact (edits_app _ _ _ _ _ (edits_updi _ _ _ ip _ HE1) HE3)|].
      apply Forall_app. split; [eapply Forall_impl; [exact HQ1|by left]|]. apply Forall_singleton. by right.
Qed.

(** The loop, and [iupdate] when the file grew. *)
Lemma writei_run :
  budget s ip T k (blocks_in off n) →
  ∃ s' T' k', writei dev_write ip m src off n s = Done (n, s') ∧ op s' [] d ds T' k' ∧ T ⊆ T' ∧
    written s s' d ds ip m src off n.
Proof.
  intros HB. destruct HI as (Hty & (Hmt & Hlt & Hne) & Hpos). destruct HT as [HTb HTi].
  destruct (writei_loop_op d ds ip m (Z.to_nat n) s T k src off n HO HTb HF) as
    (s1 & T1 & k1 & H1 & HO1 & HT1 & HW1); [lia|lia|lia|done|done|].
  pose proof HW1 as [HF1 HR1 HB1 _ HS1 HC1 HL1]. pose proof HR1 as [_ _ U1 F1 G1 _ (a & Ha) J1 (W & HE1 & HQ1)].
  rewrite (writei_step s1 H1). replace (i_size (inodes s1 ip)) with (i_size (inodes s ip)) by (by rewrite Ha).
  destruct (Z.ltb_spec 0 n) as [Hn0|Hn0], (Z.ltb_spec (i_size (inodes s ip)) (off + n)) as [Hg|Hg]; cbn [andb].
  1: { destruct (writei_grown s1 T1 k1) as (s3 & H3 & HO3 & HW3); [done..|].
       exists s3, T1, k1. split; [by rewrite run_bind, run_modS, H3|done]. }
  all: exists s1, T1, k1; split; [done|]; split; [done|]; split; [done|]; split; [done| | |done| |done| | | |done|].
  all: try (rewrite Ha; cbn; lia).
  all: try (exists a; rewrite Ha; by destruct (inodes s ip)).
  all: try (rewrite decide_False by lia; by apply G1).
  all: try (exists W; split; [done|]; eapply Forall_impl; [exact HQ1|by left]).
  all: try (intros _; apply HS1; intros x Hx ? ?; apply (fo_mapped _ _ _ _ HF); unfold BSIZE in *; lia).
  all: try (assert (new_ind s s1 ip ≤ 1)%nat by (unfold new_ind; case_decide; lia); lia).
  all: intros x Hx Hu Hxn; split; [by apply F1|apply U1; [lia|done]].
Qed.
End writei.

(** ** [readi] *)

(** A thread that holds no buffer, with a buffer to spare. *)
Record calm (s : fsys) (d ds : Z) : Prop := Calm {
  ca_buf : bstate s [];
  ca_layout : layout s d ds;
  ca_free : (length (dirty_bufs s) < NBUF)%nat
}.

Lemma op_calm s d ds T k : op s [] d ds T k → calm s d ds.
Proof.
  intros HO. destruct (op_lh _ _ _ _ _ _ HO) as [_ Hl]. pose proof (op_ndirty _ _ _ _ _ _ HO).
  split; [apply HO|apply HO|unfold NBUF; lia].
Qed.

(** Reading changes nothing but the cache. *)
Record peeked (s s' : fsys) (d ds : Z) : Prop := Peeked {
  pk_calm : calm s' d ds;
  pk_edits : edits s s' [];
  pk_inodes : inodes s' = inodes s
}.

Lemma peeked_trans s1 s2 s3 d ds : peeked s1 s2 d ds → peeked s2 s3 d ds → peeked s1 s3 d ds.
Proof.
  intros [C1 E1 I1] [C2 E2 I2]. split; [done|exact (edits_app _ _ _ _ _ E1 E2)|by rewrite I2].
Qed.

Lemma peeked_refl s d ds : calm s d ds → peeked s s d ds.
Proof. intros HC. split; [done|apply edits_nil|done]. Qed.

Lemma peek s d ds b : calm s d ds → on_disk d b →
  ∃ i s1 s2, bread d b s = Done (i, s1) ∧ b_data (bufs s1 i) = content s d b ∧
    brelse i s1 = Done ((), s2) ∧ peeked s s2 d ds ∧ inodes s1 = inodes s.
Proof.
  intros [HS HL Hd] Hon. assert (Hd0 : d ≠ 0) by (destruct (lay_dev _ _ _ HL); lia).
  destruct (bread_run s [] d b HS Hon) as (i & s1 & H1 & Hni & HS1 & Hh & Hs1 & _);
    [intros j _; apply not_elem_of_nil|done|].
  destruct (held_dirty s1 i d b _ (bs_inv _ _ HS1) Hd0 Hh) as [Hf _].
  destruct (brelse_run s1 [] i d b _ HS1 Hni Hd0 Hh) as (s2 & H2 & HS2 & Hs2 & _).
  { rewrite Hf, (bm_dirty _ _ Hs1), (bm_disk _ _ Hs1) by done.
    apply (clean_or_dirty s []); [done..|]. intros j _. apply not_elem_of_nil. }
  pose proof (bsame_trans _ _ _ Hs1 Hs2) as Hs.
  exists i, s1, s2. split; [done|]. split; [apply Hh|]. split; [done|]. split.
  - pose proof (same_edits _ _ Hs) as HE. split; [|done|apply (bm_rest _ _ Hs)].
    split; [done| |by rewrite (bm_ndirty _ _ Hs)]. apply (layout_edits s _ []); [done| |done].
    unfold bitmap. rewrite (edits_sb _ _ _ _ HE). by apply (ed_content _ _ _ HE).
  - apply (bm_rest _ _ Hs1).
Qed.

Section reading.
Context (d ds : Z) (ip : nat).

Lemma peeked_file s s' : d ≠ 0 → peeked s s' d ds → file_ok s d ds ip →
  file_ok s' d ds ip ∧ (∀ x, blk s' ip x = blk s ip x) ∧ ∀ o, fbyte s' ip o = fbyte s ip o.
Proof.
  intros Hd [_ HE Hi] HF. split; [by apply (file_edits s)|].
  assert (HC : ∀ y, content s' d y = content s d y) by (intros y; by apply (ed_content _ _ _ HE)).
  assert (Hblk : ∀ x, blk s' ip x = blk s ip x).
  { intros x. unfold blk, map_block. by rewrite Hi, (fo_dev _ _ _ _ HF), HC. }
  split; [done|]. intros o. unfold fbyte. by rewrite Hblk, Hi, (fo_dev _ _ _ _ HF), HC.
Qed.

Lemma bmap_peek s x : calm s d ds → file_ok s d ds ip → 0 ≤ x < MAXFILE → blk s ip x ≠ 0 →
  ∃ s', bmap ip x s = Done (blk s ip x, s') ∧ peeked s s' d ds.
Proof.
  intros HC HF Hx Hnz. unfold bmap. setoid_rewrite run_getS. cbv zeta.
  destruct (Z.ltb_spec x NDIRECT) as [Hlt|Hge].
  - assert (Hb : blk s ip x = nth (Z.to_nat x) (i_addrs (inodes s ip)) 0).
    { unfold blk, map_block. by rewrite (proj2 (Z.eqb_neq _ _)), (proj2 (Z.ltb_lt _ _)) by lia. }
    rewrite <- Hb, (proj2 (Z.eqb_neq _ _)) by done. exists s. split; [done|by apply peeked_refl].
  - rewrite (proj2 (Z.ltb_lt (x - NDIRECT) NINDIRECT)) by (unfold MAXFILE in *; lia).
    change (nth (Z.to_nat NDIRECT) (i_addrs (inodes s ip)) 0) with (blk s ip (-1)).
    pose proof (blk_indirect s ip x Hge) as Hb.
    destruct (Z.eqb_spec (blk s ip (-1)) 0) as [|Hi]; [done|]. setoid_rewrite run_ret.
    rewrite (fo_dev _ _ _ _ HF) in *. destruct (fo_used _ _ _ _ HF (-1) slot_ind Hi) as [Hr _].
    pose proof (ca_layout _ _ _ HC) as [Ldev Lsz Lmap _ _].
    destruct (peek s d ds (blk s ip (-1)) HC) as (i & s1 & s2 & H1 & Hm & H2 & HP & _).
    { split; [done|]. unfold FSSIZE in *. lia. }
    exists s2. split; [|done]. rewrite (bind_done _ _ _ _ _ H1), run_gets, Hm, <- Hb.
    rewrite (proj2 (Z.eqb_neq _ _)) by done. by rewrite run_ret, (bind_done _ _ _ _ _ H2).
Qed.

Lemma readi_loop_run fuel : ∀ s m dst off rest,
  calm s d ds → file_ok s d ds ip → 0 ≤ off → off + rest ≤ i_size (inodes s ip) →
  (Z.to_nat rest ≤ fuel)%nat →
  ∃ s' m', readi_loop fuel ip m dst off rest s = Done (m', s') ∧ peeked s s' d ds ∧
    ∀ a, m' a = if decide (dst ≤ a < dst + rest) then fbyte s ip (off + (a - dst)) else m a.
Proof.
  induction fuel as [|fuel IH]; intros s m dst off rest HC HF H0 Hsz Hfuel; cbn [readi_loop].
  all: destruct (Z.leb_spec rest 0) as [Hz|Hpos]; [exists s, m; split; [done|];
    split; [by apply peeked_refl|intros a; by rewrite decide_False by lia]|try lia].
  pose proof (fo_size _ _ _ _ HF) as Hfs. destruct (byte_slot off) as (Hsx & Hx0 & _); [lia|].
  pose proof (chunk_bounds rest off Hpos) as Hc. set (c := chunk rest off) in *.
  pose proof (ca_layout _ _ _ HC) as [Ldev Lsz Lmap _ _]. assert (Hd : d ≠ 0) by lia.
  assert (Hnz : blk s ip (off / BSIZE) ≠ 0).
  { apply (fo_mapped _ _ _ _ HF); [done|]. pose proof (Z.mul_div_le off BSIZE). unfold BSIZE in *. lia. }
  destruct (bmap_peek s (off / BSIZE) HC HF) as (s1 & H1 & HP1); [unfold slot in Hsx; lia|done|].
  destruct (peeked_file s s1 Hd HP1 HF) as (HF1 & Hb1 & Hy1).
  destruct (fo_used _ _ _ _ HF _ Hsx Hnz) as [Hr _].
  destruct (peek s1 d ds (blk s ip (off / BSIZE)) (pk_calm _ _ _ _ HP1)) as (i & s2 & s3 & H2 & Hm & H3 & HP3 & _).
  { split; [done|]. unfold FSSIZE in *. lia. }
  destruct (peeked_file s1 s3 Hd HP3 HF1) as (HF3 & _ & Hy3).
  assert (Hi3 : inodes s3 = inodes s) by (by rewrite (pk_inodes _ _ _ _ HP3), (pk_inodes _ _ _ _ HP1)).
  destruct (IH s3 (copy_in m dst (content s1 d (blk s ip (off / BSIZE))) (off mod BSIZE) c)
    (dst + c) (off + c) (rest - c)) as (s' & m' & Hrun & HP' & Hm'); [apply HP3|done|lia|rewrite Hi3; lia|lia|].
  exists s', m'. split; [|split; [by eapply peeked_trans; [|eapply peeked_trans]|]].
  - setoid_rewrite run_getS. rewrite (fo_dev _ _ _ _ HF), (bind_done _ _ _ _ _ H1), (bind_done _ _ _ _ _ H2).
    rewrite run_gets, Hm. cbv zeta. fold c. by rewrite (bind_done _ _ _ _ _ H3).
  - intros a. rewrite Hm', Hy3, Hy1. case_decide as Ha.
    + rewrite decide_True by lia. f_equal. lia.
    + unfold copy_in. destruct (Z.leb_spec dst a), (Z.ltb_spec a (dst + c)); cbn [andb].
      2-4: by rewrite decide_False by lia.
      rewrite decide_True by lia. unfold fbyte.
      pose proof (Z.div_mod off BSIZE ltac:(unfold BSIZE; lia)).
      pose proof (Z.mod_pos_bound off BSIZE ltac:(unfold BSIZE; lia)).
      assert (Hq : (off + (a - dst)) / BSIZE = off / BSIZE).
      { symmetry. apply (Z.div_unique _ _ _ (off mod BSIZE + (a - dst))); [left|];
          subst c; unfold chunk in *; lia. }
      assert (Hr' : (off + (a - dst)) mod BSIZE = off mod BSIZE + (a - dst)).
      { rewrite Z.mod_eq, Hq by (unfold BSIZE; lia). lia. }
      rewrite Hq, Hr', (proj2 (Z.eqb_neq _ _)), (fo_dev _ _ _ _ HF) by done.
      by rewrite (ed_content _ _ _ (pk_edits _ _ _ _ HP1)).
Qed.
End reading.

(** ** Files as lists of bytes *)

Definition file_data (s : fsys) (ip : nat) : list Z :=
  map (λ o, fbyte s ip (Z.of_nat o)) (seq 0 (Z.to_nat (i_size (inodes s ip)))).

(** [n] bytes of memory from [a]. *)
Definition bytes_from (m : mem) (a n : Z) : list Z := map (λ j, m (a + Z.of_nat j)) (seq 0 (Z.to_nat n)).

(** [bs] over the list [l] from position [off], extending it. *)
Definition splice (off : nat) (bs l : list Z) : list Z := take off l ++ bs ++ drop (off + length bs) l.

Lemma lookup_map_seq (f : nat → Z) n j : map f (seq 0 n) !! j = if decide (j < n)%nat then Some (f j) else None.
Proof.
  rewrite (list_lookup_fmap f). case_decide as Hj.
  - by rewrite lookup_seq_lt.
  - by rewrite lookup_seq_ge by lia.
Qed.

Lemma written_data s s' d ds ip m src off n :
  file_ok s d ds ip → 0 ≤ off ≤ i_size (inodes s ip) → 0 ≤ n → off + n ≤ MAXFILE * BSIZE →
  written s s' d ds ip m src off n →
  file_data s' ip = splice (Z.to_nat off) (bytes_from m src n) (file_data s ip).
Proof.
  intros HF Hoff Hn Hmax HW. pose proof (fo_size _ _ _ _ HF) as Hsz. unfold splice, file_data, bytes_from.
  rewrite (wr_size _ _ _ _ _ _ _ _ _ HW). apply list_eq. intros j.
  rewrite lookup_map_seq, length_map, length_seq.
  destruct (decide (j < Z.to_nat off)%nat) as [H1|H1].
  - rewrite lookup_app_l by (rewrite length_take, length_map, length_seq; lia).
    rewrite lookup_take_lt, lookup_map_seq, !decide_True by lia.
    rewrite (wr_bytes _ _ _ _ _ _ _ _ _ HW), decide_False by lia. done.
  - rewrite lookup_app_r by (rewrite length_take, length_map, length_seq; lia).
    rewrite length_take, length_map, length_seq, Nat.min_l by lia.
    destruct (decide (j < Z.to_nat (off + n))%nat) as [H2|H2].
    + rewrite lookup_app_l by (rewrite length_map, length_seq; lia).
      rewrite lookup_map_seq, !decide_True by lia.
      rewrite (wr_bytes _ _ _ _ _ _ _ _ _ HW), decide_True by lia. do 2 f_equal. lia.
    + rewrite lookup_app_r by (rewrite length_map, length_seq; lia).
      rewrite length_map, length_seq, lookup_drop, lookup_map_seq.
      destruct (decide (j < Z.to_nat (i_size (inodes s ip)))%nat) as [H3|H3].
      * rewrite !decide_True by lia. rewrite (wr_bytes _ _ _ _ _ _ _ _ _ HW), decide_False by lia.
        do 3 f_equal. lia.
      * by rewrite !decide_False by lia.
Qed.

(** Room for the indirect block as well. *)
Lemma op_budget s d ds T ip r : op s [] d ds T (S r) →
  ∃ T' k', op s [] d ds T' k' ∧ T ⊆ T' ∧ budget s ip T' k' r.
Proof.
  intros HO. destruct (decide (blk s ip (-1) = 0)) as [H0|H0].
  - exists T, (S r). split; [done|]. split; [done|]. by right.
  - exists ({[blk s ip (-1)]} ∪ T), r. split; [by apply op_adopt|]. split; [set_solver|].
    left. split; [done|]. split; [set_solver|done].
Qed.

Section theorems.
Context (dev_read : Z → option (nat → mem → Z → Z → M fsys (Z * mem))).
Context (dev_write : Z → option (nat → mem → Z → Z → M fsys Z)).

(** A regular file or directory in an operation that has logged its share: the
    log takes the bitmap, the inode block and [r] more blocks, and as many are
    free. *)
Record writable (s : fsys) (d ds : Z) (ip : nat) (r : nat) : Prop := Writable {
  wa_op : op s [] d ds {[sb_bmapstart (the_sb d s); iblk s ip]} r;
  wa_file : file_ok s d ds ip;
  wa_type : i_type (inodes s ip) ≠ T_DEV;
  wa_iblk : iblk_ok s d ds ip ∧ 0 < iblk s ip
}.

Lemma writei_writable s d ds ip m src off n :
  writable s d ds ip (S (blocks_in off n)) →
  0 ≤ off ≤ i_size (inodes s ip) → 0 ≤ n → off + n ≤ MAXFILE * BSIZE →
  ∃ s' T' k', writei dev_write ip m src off n s = Done (n, s') ∧ op s' [] d ds T' k' ∧
    written s s' d ds ip m src off n.
Proof using dev_write.
  clear dev_read.
  intros [HO HF Hty Hib] Hoff Hn Hmax.
  destruct (op_budget _ _ _ _ ip _ HO) as (T & k & HO' & HT & HB).
  destruct (writei_run dev_write s d ds T k ip m src off n HO') as (s' & T' & k' & Hr & HO2 & _ & HW);
    try done; [set_solver|]. by exists s', T', k'.
Qed.

Lemma readi_run s d ds ip m dst off n :
  calm s d ds → file_ok s d ds ip → i_type (inodes s ip) ≠ T_DEV →
  0 ≤ off ≤ i_size (inodes s ip) → 0 ≤ n → off + n < 2 ^ 32 →
  let n' := n `min` (i_size (inodes s ip) - off) in
  ∃ s' m', readi dev_read ip m dst off n s = Done ((n', m'), s') ∧ peeked s s' d ds ∧
    ∀ a, m' a = if decide (dst ≤ a < dst + n') then fbyte s ip (off + (a - dst)) else m a.
Proof using dev_read.
  clear dev_write.
  intros HC HF Hty Hoff Hn Hov n'.
  assert (Hn' : (if i_size (inodes s ip) <? off + n then i_size (inodes s ip) - off else n) = n').
  { subst n'. destruct (Z.ltb_spec (i_size (inodes s ip)) (off + n)); lia. }
  pose proof (fo_size _ _ _ _ HF). assert (MAXFILE * BSIZE < 2 ^ 31) by (unfold MAXFILE, NDIRECT, NINDIRECT, BSIZE; lia).
  destruct (readi_loop_run d ds ip (Z.to_nat n') s m dst off n' HC HF) as (s' & m' & Hr & HP & Hm); [lia..|].
  exists s', m'. split; [|done]. unfold readi. rewrite run_getS. cbv zeta.
  rewrite (proj2 (Z.eqb_neq _ _)), (proj2 (Z.ltb_ge _ _)) by (done || lia). cbn [orb].
  rewrite u32_small, (proj2 (Z.ltb_ge _ _)), Hn' by lia.
  by rewrite (bind_done _ _ _ _ _ Hr), s32_small by lia.
Qed.

(** C3: inside an operation with room in the log, [writei] of [n] bytes at an
    offset within the file returns [n] and refines the update of a list of
    bytes: the file afterwards is the old one with the bytes written over it
    from [off] on, extended if they reach past its end.  The map of the file
    stays well formed, every used block of another file and every other inode
    is unchanged, and when the file grew its new inode is in the inode block. *)
Theorem writei_refines s d ds ip m src off n :
  writable s d ds ip (S (blocks_in off n)) →
  0 ≤ off ≤ i_size (inodes s ip) → 0 ≤ n → off + n ≤ MAXFILE * BSIZE →
  ∃ s', writei dev_write ip m src off n s = Done (n, s') ∧
    file_data s' ip = splice (Z.to_nat off) (bytes_from m src n) (file_data s ip) ∧
    file_ok s' d ds ip ∧
    (∀ x, ds ≤ x → bit_used (bitmap s d) x = true → (∀ y, slot y → blk s ip y ≠ x) →
       content s' d x = content s d x ∧ bit_used (bitmap s' d) x = true) ∧
    (∀ j, j ≠ ip → inodes s' j = inodes s j) ∧
    (i_size (inodes s ip) < off + n → 0 < n →
       content s' d (iblk s ip) = put_dinode (content s d (iblk s ip)) (i_inum (inodes s ip)) (inodes s' ip)).
Proof using dev_write.
  clear dev_read.
  intros HW Hoff Hn Hmax. destruct (writei_writable s d ds ip m src off n) as (s' & T' & k' & Hr & _ & HW'); [done..|].
  exists s'. split; [done|]. split; [by apply (written_data s s' d ds); [apply HW|..]|].
  destruct HW' as [? ? ? ? ? ? Hd]. split; [done|]. split; [done|]. split; [done|].
  intros H1 H2. by rewrite Hd, decide_True.
Qed.

Lemma readi_data s d ds ip m dst off n :
  calm s d ds → file_ok s d ds ip → i_type (inodes s ip) ≠ T_DEV →
  0 ≤ off ≤ i_size (inodes s ip) → 0 ≤ n → off + n < 2 ^ 32 →
  ∃ s' m', readi dev_read ip m dst off n s = Done ((n `min` (i_size (inodes s ip) - off), m'), s') ∧
    bytes_from m' dst (n `min` (i_size (inodes s ip) - off)) =
      take (Z.to_nat n) (drop (Z.to_nat off) (file_data s ip)) ∧
    (∀ a, ¬ (dst ≤ a < dst + n) → m' a = m a) ∧
    inodes s' = inodes s ∧ ∀ d' b, d' ≠ 0 → content s' d' b = content s d' b.
Proof using dev_read.
  clear dev_write.
  intros HC HF Hty Hoff Hn Hov. destruct (readi_run s d ds ip m dst off n) as (s' & m' & Hr & HP & Hm); [done..|].
  exists s', m'. split; [done|]. split; [|split; [|split; [apply HP|apply (pk_edits _ _ _ _ HP)]]].
  - apply list_eq. intros j. unfold bytes_from, file_data. rewrite lookup_map_seq.
    destruct (decide (j < Z.to_nat n)%nat) as [Hj|Hj].
    + rewrite lookup_take_lt, lookup_drop, lookup_map_seq by done. case_decide as H1.
      * rewrite decide_True, Hm, decide_True by lia. do 2 f_equal. lia.
      * by rewrite decide_False by lia.
    + by rewrite decide_False, lookup_take_ge by lia.
  - intros a Ha. by rewrite Hm, decide_False by lia.
Qed.

(** [readi] within a file returns the number of bytes there are, at most
    [n], copies exactly those bytes of the file to memory, and changes nothing
    but the buffer cache: no block's contents, no inode. *)
Theorem readi_reads s d ds ip m dst off n :
  calm s d ds → file_ok s d ds ip → i_type (inodes s ip) ≠ T_DEV →
  0 ≤ off ≤ i_size (inodes s ip) → 0 ≤ n → off + n < 2 ^ 32 →
  ∃ s' m', readi dev_read ip m dst off n s = Done ((n `min` (i_size (inodes s ip) - off), m'), s') ∧
    bytes_from m' dst (n `min` (i_size (inodes s ip) - off)) =
      take (Z.to_nat n) (drop (Z.to_nat off) (file_data s ip)) ∧
    (∀ a, ¬ (dst ≤ a < dst + n) → m' a = m a) ∧
    inodes s' = inodes s ∧ ∀ d' b, d' ≠ 0 → content s' d' b = content s d' b.
Proof using dev_read. apply readi_data. Qed.

(** what [writei] wrote [readi] reads back: a read of the same range right
    after the write returns [n] and the same bytes, whatever the file held
    before and however its blocks had to be allocated. *)
Theorem write_read_roundtrip s d ds ip m src off n m2 dst :
  writable s d ds ip (S (blocks_in off n)) →
  0 ≤ off ≤ i_size (inodes s ip) → 0 ≤ n → off + n ≤ MAXFILE * BSIZE →
  ∃ s' m', (_ ← writei dev_write ip m src off n; readi dev_read ip m2 dst off n) s = Done ((n, m'), s') ∧
    bytes_from m' dst n = bytes_from m src n ∧ file_data s' ip = splice (Z.to_nat off) (bytes_from m src n) (file_data s ip).
Proof.
  intros HW Hoff Hn Hmax. destruct (writei_writable s d ds ip m src off n) as (s1 & T' & k' & Hr & HO & HW1); [done..|].
  pose proof HW1 as [HF1 Hsz (a & Ha) Hby _ _ _].
  assert (MAXFILE * BSIZE < 2 ^ 31) by (unfold MAXFILE, NDIRECT, NINDIRECT, BSIZE; lia).
  destruct (readi_run s1 d ds ip m2 dst off n) as (s2 & m' & Hr2 & HP & Hm); [by eapply op_calm|done| |lia..|].
  { rewrite Ha. apply HW. }
  replace (n `min` (i_size (inodes s1 ip) - off)) with n in * by lia.
  exists s2, m'. split; [by rewrite (bind_done _ _ _ _ _ Hr)|]. split.
  - apply map_ext_in. intros j Hj%in_seq. rewrite Hm, decide_True by lia.
    rewrite Hby, decide_True by lia. f_equal. lia.
  - rewrite <- (written_data s s1 d ds ip m src off n) by (done || apply HW).
    destruct (peeked_file d ds ip s1 s2) as (_ & _ & Hf); [by eapply op_dev|done|done|].
    unfold file_data. rewrite (pk_inodes _ _ _ _ HP). apply map_ext. intros o. apply Hf.
Qed.

(** Between operations: the blocks logged so far are dirty in the cache, and
    [begin_op] would start one more operation. *)
Record startable (s : fsys) (d ds : Z) : Prop := Startable {
  ad_buf : bstate s [];
  ad_layout : layout s d ds;
  ad_log : log_wf (flog s) ∧ LOGSIZE ≤ l_size (flog s) ∧ committing (flog s) = 0;
  ad_out : 0 ≤ outstanding (flog s) ∧
    lh_n (flog s) + (outstanding (flog s) + 1) * MAXOPBLOCKS ≤ LOGSIZE;
  ad_nodup : NoDup (logged (flog s));
  ad_pinned : ∀ b, b ∈ logged (flog s) → isdirty s d b = true;
  ad_ndirty : (length (dirty_bufs s) ≤ length (logged (flog s)))%nat;
  ad_free : (5 ≤ length (free_blocks s d))%nat
}.

Lemma begin_op_run s d ds T : startable s d ds → (size T ≤ 2)%nat →
  begin_op s = Done ((), updl (λ l, set_outstanding (outstanding l + 1) l) s) ∧
  op (updl (λ l, set_outstanding (outstanding l + 1) l) s) [] d ds T 5.
Proof using Type.
  clear dev_read dev_write.
  intros [HS HL (Hwf & Hsz & Hc) [Ho Hadm] Hnd Hp Hdi Hf] HT. split.
  - unfold begin_op. rewrite run_gets, Hc. change (c_true 0) with false. cbv iota.
    by rewrite (proj2 (Z.ltb_ge _ _)) by lia.
  - split; try done.
    + by apply bstate_updl.
    + destruct HL. by split.
    + cbn. lia.
    + change (logged (flog (updl _ s))) with (logged (flog s)).
      assert (Hlen : length (logged (flog s)) = Z.to_nat (lh_n (flog s))).
      { unfold logged. rewrite length_take. destruct Hwf. lia. }
      pose proof (size_list_to_set (C := gset Z) _ Hnd) as Hs. rewrite size_union_alt.
      pose proof (subseteq_size (T ∖ list_to_set (logged (flog s))) T ltac:(set_solver)).
      unfold LOGSIZE, MAXOPBLOCKS in *. lia.
Qed.

Lemma blocks_in_max off n : 0 ≤ off → 0 ≤ n ≤ write_max → (blocks_in off n ≤ 4)%nat.
Proof using Type.
  clear dev_read dev_write.
  intros Ho Hn. change write_max with 1536 in Hn. unfold blocks_in, BSIZE.
  destruct (Z.ltb_spec 0 n); [|lia].
  assert ((off + n - 1) / 512 < off / 512 + 4); [|lia].
  pose proof (Z.div_mod off 512 ltac:(lia)). pose proof (Z.mod_pos_bound off 512 ltac:(lia)).
  apply Z.div_lt_upper_bound; lia.
Qed.

(** the reservation of [begin_op] is enough for the unit of [filewrite]: in
    any state in which [begin_op] starts one more operation, and with five free
    blocks, a write of at most [write_max] bytes inside the new operation never
    overflows the log or runs out of buffers: it returns [n] with the bytes in
    the file. *)
Theorem reserved_write_fits s d ds ip m src off n :
  startable s d ds → file_ok s d ds ip → i_type (inodes s ip) ≠ T_DEV →
  iblk_ok s d ds ip ∧ 0 < iblk s ip →
  0 ≤ off ≤ i_size (inodes s ip) → 0 ≤ n ≤ write_max → off + n ≤ MAXFILE * BSIZE →
  ∃ s', (_ ← begin_op; writei dev_write ip m src off n) s = Done (n, s') ∧
    file_data s' ip = splice (Z.to_nat off) (bytes_from m src n) (file_data s ip).
Proof using dev_write.
  clear dev_read.
  intros HA HF Hty Hib Hoff Hn Hmax.
  destruct (begin_op_run s d ds {[sb_bmapstart (the_sb d s); iblk s ip]} HA) as [Hb HO].
  { pose proof (size_union_alt ({[sb_bmapstart (the_sb d s)]} : gset Z) {[iblk s ip]}) as E.
    pose proof (subseteq_size (({[iblk s ip]} : gset Z) ∖ {[sb_bmapstart (the_sb d s)]}) {[iblk s ip]} ltac:(set_solver)).
    rewrite !size_singleton in *. lia. }
  set (s1 := updl _ s) in *. pose proof (blocks_in_max off n ltac:(lia) Hn) as Hbl.
  assert (HF1 : file_ok s1 d ds ip) by (destruct HF; by split).
  assert (HW : writable s1 d ds ip (S (blocks_in off n))).
  { split; try done. eapply op_weaken; [exact HO|lia]. }
  destruct (writei_writable s1 d ds ip m src off n HW) as (s' & T' & k' & Hr & _ & HW'); [done|lia|done|].
  exists s'. split; [by rewrite (bind_done _ _ _ _ _ Hb)|].
  exact (written_data s1 s' d ds ip m src off n HF1 Hoff ltac:(lia) Hmax HW').
Qed.
End theorems.

(** ** A device with one small file *)

(** Blocks below 64 and block 100 are used; inode 2 has three bytes in block
    100, the numbers from 1. *)
Definition small_disk : Z → Z → mem := λ d b a,
  if b =? 58 then (if a <? 8 then 255 else if a =? 12 then 16 else 0)
  else if b =? 100 then a + 1 else 0.

Definition small_file (out : Z) : fsys :=
  updi 0 (λ i, set_i_addrs (100 :: repeat 0 12) (set_i_size 3 (set_i_type T_FILE (set_i_inum 2 (set_i_dev 1 i)))))
    (set_flog (Log 2 30 out 0 1 0 (repeat 0 30)) (set_disk small_disk cold_fs)).

Lemma small_state out : bstate (small_file out) [].
Proof. split; [split|by intros i Hi%elem_of_nil|]; try done; intros; by left. Qed.

Lemma small_layout out : layout (small_file out) 1 64.
Proof.
  split; [by left|vm_compute; done|vm_compute; done|vm_compute; done|].
  assert (H : forallb (λ b, bit_used (bitmap (small_file out) 1) (Z.of_nat b)) (seq 0 64) = true)
    by (vm_compute; reflexivity).
  rewrite forallb_forall in H. intros b Hb. rewrite <- (Z2Nat.id b) by lia. apply H, in_seq. lia.
Qed.

(** A file with the one block 100. *)
Lemma one_blk s ip x : slot x → i_addrs (inodes s ip) = 100 :: repeat 0 12 →
  blk s ip x = if decide (x = 0) then 100 else 0.
Proof.
  intros Hx Ha. unfold slot, MAXFILE, NDIRECT, NINDIRECT in Hx.
  destruct (Z.lt_ge_cases x NDIRECT) as [Hlt|Hge]; unfold NDIRECT in *.
  - unfold blk, map_block. rewrite Ha.
    assert (x = -1 ∨ x = 0 ∨ x = 1 ∨ x = 2 ∨ x = 3 ∨ x = 4 ∨ x = 5 ∨ x = 6 ∨ x = 7 ∨ x = 8 ∨ x = 9 ∨ x = 10 ∨ x = 11)
      by lia. by destruct_or!; subst x.
  - rewrite blk_indirect by done. unfold blk, map_block. rewrite Ha. by rewrite decide_False by lia.
Qed.

Lemma small_ok out : file_ok (small_file out) 1 64 0.
Proof.
  split; [done..|vm_compute; done| | |].
  - intros x Hx Hs. change (i_size (inodes (small_file out) 0)) with 3 in Hs. unfold BSIZE in Hs.
    assert (x = 0) as -> by lia. done.
  - intros x Hx. rewrite one_blk by done. case_decide; [intros _|done]. by vm_compute.
  - intros x y Hx Hy. rewrite !one_blk by done. repeat case_decide; congruence.
Qed.

Lemma small_writable : writable (small_file 1) 1 64 0 2.
Proof.
  split; [|apply small_ok|done|split; [split; [done|split; vm_compute; done]|vm_compute; done]].
  split; [apply small_state|apply small_layout|done|done|done|constructor| |vm_compute; lia..].
  by intros b Hb%elem_of_nil.
Qed.

Lemma writei_refines_witness :
  ∃ s', writei (λ _, None) 0 (λ a, a) 50 1 3 (small_file 1) = Done (3, s') ∧ file_data s' 0 = [1; 50; 51; 52].
Proof.
  destruct (writei_refines (λ _, None) (small_file 1) 1 64 0 (λ a, a) 50 1 3) as (s' & Hr & Hd & _).
  - apply small_writable.
  - vm_compute; split; discriminate.
  - lia.
  - vm_compute; discriminate.
  - exists s'. split; [exact Hr|]. rewrite Hd. reflexivity.
Defined.

Lemma readi_reads_witness :
  ∃ s' m', readi (λ _, None) 0 zero_mem 10 1 8 (small_file 1) = Done ((2, m'), s') ∧
    bytes_from m' 10 2 = [2; 3].
Proof.
  destruct (readi_reads (λ _, None) (small_file 1) 1 64 0 zero_mem 10 1 8) as (s' & m' & Hr & Hd & _).
  - exact (op_calm _ _ _ _ _ (wa_op _ _ _ _ _ small_writable)).
  - apply small_ok.
  - discriminate.
  - vm_compute; split; discriminate.
  - lia.
  - lia.
  - exists s', m'. split; [exact Hr|]. etransitivity; [exact Hd|reflexivity].
Defined.

Lemma write_read_roundtrip_witness :
  ∃ s' m', (_ ← writei (λ _, None) 0 (λ a, a) 50 1 3; readi (λ _, None) 0 zero_mem 10 1 3) (small_file 1)
      = Done ((3, m'), s') ∧ bytes_from m' 10 3 = [50; 51; 52].
Proof.
  destruct (write_read_roundtrip (λ _, None) (λ _, None) (small_file 1) 1 64 0 (λ a, a) 50 1 3 zero_mem 10)
    as (s' & m' & Hr & Hd & _).
  - apply small_writable.
  - vm_compute; split; discriminate.
  - lia.
  - vm_compute; discriminate.
  - exists s', m'. split; [exact Hr|]. rewrite Hd. reflexivity.
Defined.

Lemma small_startable : startable (small_file 0) 1 64.
Proof.
  split; [apply small_state|apply small_layout|done|vm_compute; split; discriminate|constructor| | |].
  - by intros b Hb%elem_of_nil.
  - vm_compute; lia.
  - vm_compute; lia.
Qed.

Lemma reserved_write_fits_witness :
  ∃ s', (_ ← begin_op; writei (λ _, None) 0 (λ a, a) 50 1 1000) (small_file 0) = Done (1000, s') ∧
    length (file_data s' 0) = 1001%nat.
Proof.
  destruct (reserved_write_fits (λ _, None) (small_file 0) 1 64 0 (λ a, a) 50 1 1000) as (s' & Hr & Hd).
  - apply small_startable.
  - apply small_ok.
  - discriminate.
  - split; [split; [discriminate|split; vm_compute; [reflexivity|discriminate]]|vm_compute; reflexivity].
  - vm_compute; split; discriminate.
  - vm_compute; split; discriminate.
  - vm_compute; discriminate.
  - exists s'. split; [exact Hr|]. rewrite Hd. vm_compute. reflexivity.
Defined.
