(* ===== verification/Reboot.v ===== *)
(** * Starting the file system: iinit, initlog, iget and ilock of kernel/fs

    What the kernel does between power on and the first inode it looks at, on
    any disk: the super block is read, the log recovered, and an inode read
    into the cache of inodes.  Used for the image of Mkfs.v and for the disk
    after a crash (Crash.v). *)
From stdpp Require Import base decidable option list functions numbers strings sets.
From Stdlib Require Import ZArith Lia.
From S2P Require Import Prelude CString FsDefs Bio Log Fs.

Local Open Scope Z_scope.

(** ** Inodes on disk *)

(** The fields of an inode that are on disk. *)
Definition dinode_of (i : inode) : Z * Z * Z * Z * Z * list Z :=
  (i_type i, i_major i, i_minor i, i_nlink i, i_size i, i_addrs i).

Record dinode_wf (i : inode) : Prop := DinodeWf {
  dw_type : - 2 ^ 15 ≤ i_type i < 2 ^ 15;
  dw_major : - 2 ^ 15 ≤ i_major i < 2 ^ 15;
  dw_minor : - 2 ^ 15 ≤ i_minor i < 2 ^ 15;
  dw_nlink : - 2 ^ 15 ≤ i_nlink i < 2 ^ 15;
  dw_size : 0 ≤ i_size i < 2 ^ 32;
  dw_len : length (i_addrs i) = 13%nat;
  dw_addrs : Forall (λ a, 0 ≤ a < 2 ^ 32) (i_addrs i)
}.

Lemma load16_ext m m' a : (∀ x, a ≤ x < a + 2 → m' x = m x) → load16 m' a = load16 m a.
Proof. intros Hx. unfold load16. by rewrite !Hx by lia. Qed.

Lemma load16_store16 m a v : load16 (store16 m a v) a = u16 v.
Proof.
  unfold load16, store16, store8. rewrite !upd_get. repeat (case_decide; try lia).
  unfold u8, u16. rewrite Z.shiftl_mul_pow2, Z.shiftr_div_pow2 by lia.
  change (2 ^ 16) with (2 ^ 8 * 2 ^ 8). rewrite Z.rem_mul_r by lia. ring.
Qed.

Lemma s16_u16 v : - 2 ^ 15 ≤ v < 2 ^ 15 → s16 (u16 v) = v.
Proof. intros Hv. unfold s16, u16. Z.to_euclidean_division_equations. lia. Qed.

(** [put_dinode] changes the 64 bytes of its slot. *)
Lemma put_dinode_out m inum i x : length (i_addrs i) = 13%nat →
  ¬ (dip inum ≤ x < dip inum + 64) → put_dinode m inum i x = m x.
Proof.
  intros Hl Hx. unfold put_dinode. rewrite put_words_out by (rewrite Hl; lia).
  by rewrite store32_out, !store16_out by lia.
Qed.

Lemma get_dinode_ext m m' inum j : (∀ x, dip inum ≤ x < dip inum + 64 → m' x = m x) →
  get_dinode m' inum j = get_dinode m inum j.
Proof.
  intros Hx. unfold get_dinode.
  rewrite (load32_ext m m'), !(load16_ext m m') by (intros; apply Hx; lia).
  f_equal. apply map_ext_in. intros k Hk%in_seq. apply load32_ext. intros; apply Hx; lia.
Qed.

(** Loads past stores to other words. *)
Lemma load16_words m a b ws : b + 2 ≤ a → load16 (put_words m a ws) b = load16 m b.
Proof. intros Hb. apply load16_ext. intros x Hx. apply put_words_out. lia. Qed.

Lemma load32_words m a b ws : b + 4 ≤ a → load32 (put_words m a ws) b = load32 m b.
Proof. intros Hb. apply load32_ext. intros x Hx. apply put_words_out. lia. Qed.

Lemma load16_32 m a b w : b + 2 ≤ a → load16 (store32 m a w) b = load16 m b.
Proof. intros Hb. apply load16_ext. intros x Hx. apply store32_out. lia. Qed.

Lemma load16_16 m a b w : b + 2 ≤ a → load16 (store16 m a w) b = load16 m b.
Proof. intros Hb. apply load16_ext. intros x Hx. apply store16_out. lia. Qed.

(** An inode read back is the one written. *)
Lemma get_put_dinode m inum i j : dinode_wf i →
  dinode_of (get_dinode (put_dinode m inum i) inum j) = dinode_of i.
Proof.
  intros [Ht Hma Hmi Hn Hs Hl Ha]. unfold dinode_of, get_dinode, put_dinode.
  cbn [i_type i_major i_minor i_nlink i_size i_addrs set_i_type set_i_major set_i_minor set_i_nlink
    set_i_size set_i_addrs].
  rewrite !load16_words, load32_words, !load16_32, load32_store32 by lia.
  rewrite (load16_16 _ (dip inum + 6) (dip inum + 4)), (load16_16 _ (dip inum + 6) (dip inum + 2)),
    (load16_16 _ (dip inum + 6) (dip inum)), (load16_16 _ (dip inum + 4) (dip inum + 2)),
    (load16_16 _ (dip inum + 4) (dip inum)), (load16_16 _ (dip inum + 2) (dip inum)) by lia.
  rewrite !load16_store16, !s16_u16, u32_small by done. f_equal.
  apply list_eq. intros k. rewrite (list_lookup_fmap _ (seq 0 13)).
  destruct (i_addrs i !! k) as [w|] eqn:Hk.
  - pose proof (lookup_lt_Some _ _ _ Hk). rewrite lookup_seq_lt by lia. cbn [fmap option_fmap option_map].
    rewrite Nat.add_0_l, (put_words_load _ _ _ _ _ Hk). f_equal. apply u32_small.
    by apply (Forall_lookup_1 _ _ _ _ Ha Hk).
  - apply lookup_ge_None in Hk. by rewrite lookup_seq_ge by lia.
Qed.

(** ** A clean cache *)

(** The cache is clean and idle, and device [d] reads as [C]. *)
Record booted (d : Z) (C : Z → mem) (s : fsys) : Prop := Booted {
  bt_buf : bstate s [];
  bt_dirty : dirty_bufs s = [];
  bt_content : ∀ b, content s d b = C b
}.

(** The parts of the state the cache is made of. *)
Definition same_cache (s t : fsys) : Prop :=
  bufs t = bufs s ∧ lru t = lru s ∧ disk t = disk s ∧ mypid t = mypid s.

Lemma bstate_cache s t H : same_cache s t → bstate s H → bstate t H.
Proof.
  intros (Hb & Hl & Hd & Hm) [[] Hh Hf]. split; [split|..]; rewrite ?Hb, ?Hl, ?Hd, ?Hm; done.
Qed.

Lemma content_cache s t d b : same_cache s t → content t d b = content s d b.
Proof. intros (Hb & Hl & Hd & _). unfold content, cached. by rewrite Hb, Hl, Hd. Qed.

Lemma booted_cache d C s t : same_cache s t → booted d C s → booted d C t.
Proof.
  intros Hc [H1 H2 H3]. split; [by eapply bstate_cache| |intros b; by rewrite (content_cache s)].
  unfold dirty_bufs in *. by rewrite (proj1 Hc).
Qed.

(** A clean cache holds what is on the disk. *)
Lemma clean_content s d b : bstate s [] → dirty_bufs s = [] → d ≠ 0 → content s d b = disk s d b.
Proof.
  intros HS Hd H0. destruct (clean_or_dirty s [] d b HS H0) as [Hx|Hx]; [intros j _; apply not_elem_of_nil| |done].
  exfalso. unfold isdirty in Hx. destruct (cached d b s) as [j|] eqn:Hj; [|done].
  destruct (cached_some _ _ _ _ (bs_inv _ _ HS) Hj) as (Hlt & _).
  assert (Hin : j ∈ dirty_bufs s) by (apply list_elem_of_filter; split; [done|apply elem_of_seq; lia]).
  rewrite Hd in Hin. by apply not_elem_of_nil in Hin.
Qed.

Lemma clean_booted s d : bstate s [] → dirty_bufs s = [] → d ≠ 0 → booted d (disk s d) s.
Proof. intros HS Hc Hd. split; [done..|]. intros b. by apply clean_content. Qed.

(** No inode is in the cache. *)
Definition no_inodes (s : fsys) : Prop := ∀ i, i_ref (inodes s i) = 0 ∧ i_locked (inodes s i) = false.

Lemma no_inodes_updi s i g : no_inodes s →
  (∀ x, i_ref (g x) = i_ref x ∧ (i_locked x = false → i_locked (g x) = false)) → no_inodes (updi i g s).
Proof.
  intros Hf Hg j. rewrite inodes_updi. case_decide; [|apply Hf]. destruct (Hg (inodes s i)) as [-> Hl].
  split; [apply Hf|apply Hl, Hf].
Qed.

(** ** The first inode *)

Section boot.
Context (d : Z) (Hdev : d = 1 ∨ d = 2).

Lemma dev_nz : d ≠ 0.
Proof. destruct Hdev; lia. Qed.

(** A block is read and the buffer released, with a change elsewhere between. *)
Lemma look C s b : booted d C s → 0 ≤ b < FSSIZE →
  ∃ i s1, bread d b s = Done (i, s1) ∧ b_data (bufs s1 i) = C b ∧ rest_same s s1 ∧ disk s1 = disk s ∧
    ∀ t, same_cache s1 t → ∃ s2, brelse i t = Done ((), s2) ∧ booted d C s2 ∧ rest_same t s2 ∧ disk s2 = disk s.
Proof.
  intros [HS Hd HC] Hb. assert (Hon : on_disk d b) by (split; done).
  destruct (bread_run s [] d b HS Hon) as (i & s1 & H1 & Hni & HS1 & Hh & Hs1 & _);
    [intros j _; apply not_elem_of_nil|rewrite Hd; cbn; unfold NBUF; lia|].
  exists i, s1. split; [done|]. split; [by rewrite (hd_data _ _ _ _ _ Hh)|]. split; [apply Hs1|]. split; [apply Hs1|].
  intros t Ht. pose proof Ht as (Hb1 & Hl1 & Hd1 & _).
  assert (Hht : held t i d b (content s d b)) by (destruct Hh; split; by rewrite ?Hb1).
  destruct (brelse_run t [] i d b (content s d b)) as (s2 & H2 & HS2 & Hs2 & _);
    [by eapply bstate_cache|done|apply dev_nz|done| |].
  { right. rewrite Hd1, (bm_disk _ _ Hs1). apply clean_content; [done..|apply dev_nz]. }
  exists s2. split; [done|]. split; [|split; [apply Hs2|by rewrite (bm_disk _ _ Hs2), Hd1, (bm_disk _ _ Hs1)]].
  split; [done| |].
  - rewrite (bm_ndirty _ _ Hs2). unfold dirty_bufs. rewrite Hb1. change (dirty_bufs s1 = []). by rewrite (bm_ndirty _ _ Hs1).
  - intros x. pose proof dev_nz. by rewrite (bm_content _ _ Hs2), (content_cache s1), (bm_content _ _ Hs1).
Qed.

Lemma readsb_run C s : booted d C s →
  ∃ s', readsb d s = Done (get_sb (C 1), s') ∧ booted d C s' ∧ rest_same s s' ∧ disk s' = disk s.
Proof.
  intros Hb. destruct (look C s 1 Hb ltac:(done)) as (i & s2 & E2 & Hm & Hr2 & Hd2 & Hrel).
  destruct (Hrel s2) as (s3 & E3 & Hb3 & Hr3 & Hd3); [done|]. exists s3. unfold readsb.
  rewrite (bind_done _ _ _ _ _ E2), run_gets, Hm, (bind_done _ _ _ _ _ E3).
  split; [done|]. split; [done|]. split; [by eapply rest_same_trans|done].
Qed.

Lemma init_locks_run C l : ∀ s, booted d C s → no_inodes s →
  ∃ s', mfor l (λ i, _ ← modS (updi i (set_i_locked false)); modS (updi i (set_i_pid 0))) s = Done ((), s') ∧
    booted d C s' ∧ no_inodes s' ∧ disk s' = disk s.
Proof.
  induction l as [|i l IH]; intros s Hb Hf; [by exists s|].
  cbn [mfor]. rewrite run_bind, run_modS.
  destruct (IH (updi i (set_i_pid 0) (updi i (set_i_locked false) s))) as (s' & E & H); [|..|by exists s'].
  - apply (booted_cache d C s); [|done]. done.
  - by repeat (apply no_inodes_updi; [|done]).
Qed.

Lemma iinit_run C s n : booted d C s → no_inodes s →
  ∃ s', iinit d n s = Done ((), s') ∧ booted d C s' ∧ no_inodes s' ∧ the_sb d s' = get_sb (C 1) ∧ disk s' = disk s.
Proof.
  intros Hb Hf. destruct (init_locks_run C (seq (icache d) NINODE) s Hb Hf) as (s1 & E1 & Hb1 & Hf1 & Hd1).
  destruct (readsb_run C s1 Hb1) as (s3 & E3 & Hb3 & (_ & _ & _ & Hi3 & _) & Hd3).
  assert (Hf3 : no_inodes s3) by (intros j; rewrite Hi3; apply Hf1).
  exists (if d =? 2 then set_fsb2 (get_sb (C 1)) s3 else set_fsb (get_sb (C 1)) s3).
  unfold iinit, init_inode_locks. rewrite <- Hd1, <- Hd3. destruct Hdev as [E|E]; rewrite E in *; cbn [Z.eqb Pos.eqb].
  all: rewrite (bind_done _ _ _ _ _ E1), (bind_done _ _ _ _ _ E3).
  all: split; [done|]; split; [by apply (booted_cache _ C s3)|]; by split_and!.
Qed.

(** [initlog], given that recovery brings the device to [C]. *)
Lemma initlog_run st r C : booted d (disk r d) r → sb_logstart (get_sb (disk r d 1)) = st →
  (∀ r1, fresh r1 d st → disk r1 d = disk r d → ∃ r2, recover_from_log r1 = Done ((), r2) ∧ recovered r1 r2 d st C) →
  ∃ r', initlog d r = Done ((), r') ∧ bstate r' [] ∧ dirty_bufs r' = [] ∧
    (fsb r' = fsb r ∧ fsb2 r' = fsb2 r) ∧ inodes r' = inodes r ∧ (∀ d', d' ≠ d → disk r' d' = disk r d') ∧
    ∀ b, ¬ (st ≤ b < st + LOGSIZE) → disk r' d b = C b.
Proof.
  intros Hb Hst Hrec. destruct (readsb_run _ r Hb) as (s1 & E1 & Hb1 & (_ & Hs3 & Hs4 & Hi1 & _) & Hd1).
  set (l := λ l, set_l_dev d (set_l_size (sb_nlog (get_sb (disk r d 1))) (set_l_start st l))).
  set (s2 := updl l s1). assert (Hb2 : booted d (disk r d) s2) by (by apply (booted_cache d _ s1)).
  assert (HF : fresh s2 d st).
  { split; [apply Hb2|apply Hb2| |done|done]. intros d' b Hd'. apply clean_content; [apply Hb2|apply Hb2|done]. }
  destruct (Hrec s2 HF (f_equal (λ D, D d) Hd1)) as (r' & E2 & [HS Hcl (_ & Hs1 & Hs2 & Hi & _) Hoth _ Hdisk]).
  change (fsb (set_flog _ r')) with (fsb r') in Hs1. change (fsb2 (set_flog _ r')) with (fsb2 r') in Hs2.
  change (inodes (set_flog _ r')) with (inodes r') in Hi. exists r'. split_and!.
  - unfold initlog. rewrite (bind_done _ _ _ _ _ E1), !run_modS, Hst. exact E2.
  - done.
  - done.
  - by rewrite Hs1.
  - by rewrite Hs2.
  - by rewrite Hi.
  - intros d' Hd'. rewrite Hoth by done. change (disk s2) with (disk s1). by rewrite Hd1.
  - done.
Qed.

(** The entry [iget] makes for inode [inum]. *)
Definition entry (inum : Z) (i : inode) : inode := set_i_valid 0 (set_i_ref 1 (set_i_inum inum (set_i_dev d i))).

Lemma iget_run C s inum : booted d C s → no_inodes s →
  ∃ s', iget d inum s = Done (icache d, s') ∧ booted d C s' ∧ the_sb d s' = the_sb d s ∧
    inodes s' (icache d) = entry inum (inodes s (icache d)).
Proof.
  intros Hb Hf. unfold iget. rewrite run_getS.
  assert (E1 : List.find (λ i, (0 <? i_ref (inodes s i)) && (i_dev (inodes s i) =? d) &&
    (i_inum (inodes s i) =? inum)) (seq (icache d) NINODE) = None).
  { destruct (List.find _ _) as [j|] eqn:E; [|done]. apply find_some in E as [_ E].
    by rewrite (proj1 (Hf j)) in E. }
  assert (E2 : List.find (λ i, i_ref (inodes s i) =? 0) (seq (icache d) NINODE) = Some (icache d)).
  { change (seq (icache d) NINODE) with (icache d :: seq (S (icache d)) (NINODE - 1)). cbn [List.find].
    by rewrite (proj1 (Hf (icache d))). }
  cbv zeta. rewrite E1, E2, !run_modS. eexists. split; [reflexivity|]. split; [by apply (booted_cache d C s)|]. split; [done|].
  by rewrite !inodes_updi, !decide_True.
Qed.

(** The inode as it is on the disk. *)
Definition on_disk_inode (C : Z → mem) (sb : superblock) (inum : Z) (i : inode) : inode :=
  get_dinode (C (IBLOCK inum sb)) inum i.

Lemma ilock_run C s ip inum i0 : booted d C s → inodes s ip = entry inum i0 → i_locked i0 = false →
  0 ≤ IBLOCK inum (the_sb d s) < FSSIZE → i_type (on_disk_inode C (the_sb d s) inum i0) ≠ 0 →
  ∃ s', ilock (Some ip) s = Done ((), s') ∧ booted d C s' ∧ the_sb d s' = the_sb d s ∧
    inodes s' ip = set_i_valid 1 (on_disk_inode C (the_sb d s) inum (set_i_pid (mypid s) (set_i_locked true (entry inum i0)))).
Proof.
  intros Hb He Hl Hn Ht. unfold ilock. rewrite run_getS, He. change (i_ref (entry inum i0) <? 1) with false. cbv iota.
  unfold acquire_inode. rewrite run_bind, run_getS, He. cbn [i_locked entry set_i_valid set_i_ref set_i_inum set_i_dev].
  rewrite Hl, run_modS. cbn [modS]. set (s1 := updi ip _ (updi ip _ s)).
  assert (Hb1 : booted d C s1) by (by apply (booted_cache d C s)).
  assert (Hi1 : inodes s1 ip = set_i_pid (mypid s) (set_i_locked true (entry inum i0)))
    by (unfold s1; by rewrite !inodes_updi, !decide_True, He).
  rewrite run_getS, Hi1. cbn [i_valid i_dev i_inum set_i_pid set_i_locked entry set_i_valid set_i_ref set_i_inum set_i_dev].
  change (0 =? 0) with true. cbv iota zeta. change (the_sb d s1) with (the_sb d s).
  destruct (look C s1 (IBLOCK inum (the_sb d s)) Hb1 Hn) as (i & s2 & E2 & Hm & Hr2 & _ & Hrel).
  rewrite (bind_done _ _ _ _ _ E2), run_gets, Hm, run_modS.
  destruct (Hrel (updi ip (get_dinode (C (IBLOCK inum (the_sb d s))) inum) s2)) as (s3 & E3 & Hb3 & Hr3 & _); [done|].
  rewrite (bind_done _ _ _ _ _ E3), run_modS, run_getS.
  assert (Hi3 : inodes (updi ip (set_i_valid 1) s3) ip = set_i_valid 1 (on_disk_inode C (the_sb d s) inum (inodes s1 ip))).
  { destruct Hr2 as (_ & _ & _ & Hi2 & _), Hr3 as (_ & _ & _ & Hi3 & _).
    by rewrite inodes_updi, decide_True, Hi3, inodes_updi, decide_True, Hi2. }
  rewrite Hi3. change (i_type (set_i_valid 1 _)) with (i_type (on_disk_inode C (the_sb d s) inum i0)).
  rewrite (proj2 (Z.eqb_neq _ 0)) by done. eexists. split; [reflexivity|].
  split; [by apply (booted_cache d C s3)|]. destruct Hr2 as (_ & Hs2 & Ht2 & _), Hr3 as (_ & Hs3 & Ht3 & _).
  split; [|by rewrite Hi3, Hi1]. change (the_sb d s3 = the_sb d s1). unfold the_sb. rewrite Hs3, Ht3.
  by change (fsb2 (updi ip ?g s2)) with (fsb2 s2); change (fsb (updi ip ?g s2)) with (fsb s2); rewrite Hs2, Ht2.
Qed.
End boot.

(** ** The first process *)

(** What [forkret] does to the file system the first time it runs.  The last
    [initlog] leaves the log to the second device. *)
Definition start_fs : M fsys () :=
  _ ← iinit 1 1;
  _ ← iinit 2 2;
  _ ← initlog 1;
  initlog 2.

(** The log of the root device, as its super block places it, is on the disk and
    empty. *)
Definition root_idle (D : Z → mem) : Prop :=
  let st := sb_logstart (get_sb (D 1)) in on_disk 1 st ∧ on_disk 1 (st + LOGSIZE) ∧ head_n (D st) = 0.

Lemma start_run r st C : bstate r [] → dirty_bufs r = [] → no_inodes r → root_idle (disk r 1) →
  sb_logstart (get_sb (disk r 2 1)) = st →
  (∀ r1, fresh r1 2 st → disk r1 2 = disk r 2 → ∃ r2, recover_from_log r1 = Done ((), r2) ∧ recovered r1 r2 2 st C) →
  ∃ r', start_fs r = Done ((), r') ∧ booted 2 (disk r' 2) r' ∧ no_inodes r' ∧ the_sb 2 r' = get_sb (disk r 2 1) ∧
    ∀ b, ¬ (st ≤ b < st + LOGSIZE) → disk r' 2 b = C b.
Proof.
  intros HS Hcl Hno (Ho1 & Ho2 & Hh) Hst Hrec. assert (H1 : 1 = 1 ∨ 1 = 2) by (by left). assert (H2 : 2 = 1 ∨ 2 = 2) by (by right).
  destruct (iinit_run 1 H1 _ r 1 (clean_booted r 1 HS Hcl ltac:(done)) Hno) as (r1 & E1 & Hb1 & Hn1 & _ & Hd1).
  destruct (iinit_run 2 H2 _ r1 2 (clean_booted r1 2 (bt_buf _ _ _ Hb1) (bt_dirty _ _ _ Hb1) ltac:(done)) Hn1)
    as (r2 & E2 & Hb2 & Hn2 & Hsb & Hd2). rewrite Hd1 in Hd2, Hsb.
  destruct (initlog_run 1 H1 _ r2 (disk r 1) (clean_booted r2 1 (bt_buf _ _ _ Hb2) (bt_dirty _ _ _ Hb2) ltac:(done)) eq_refl)
    as (r3 & E3 & HS3 & Hc3 & (_ & Hs3) & Hi3 & Hd3 & _).
  { rewrite Hd2. intros r0 HF Hr0. pose proof (recover_empty r0 1 _ HF Ho1 Ho2) as HR. rewrite Hr0 in HR. by apply HR. }
  specialize (Hd3 2 ltac:(done)). rewrite Hd2 in Hd3.
  destruct (initlog_run 2 H2 st r3 C (clean_booted r3 2 HS3 Hc3 ltac:(done))) as (r4 & E4 & HS4 & Hc4 & (_ & Hs4) & Hi4 & _ & Hd4);
    [by rewrite Hd3|by rewrite Hd3|].
  exists r4. split; [|split; [by apply clean_booted|split; [|split; [|done]]]].
  - unfold start_fs. by rewrite (bind_done _ _ _ _ _ E1), (bind_done _ _ _ _ _ E2), (bind_done _ _ _ _ _ E3).
  - unfold no_inodes. by rewrite Hi4, Hi3.
  - rewrite <- Hsb. change (fsb2 r4 = fsb2 r2). congruence.
Qed.
