(* ===== verification/Crash.v ===== *)
(** * Writing a file and crashing: filewrite of kernel/fs/file.c over the log

    [filewrite] cuts a write into operations of the log.  Here the results of
    Inodes.v (what [writei] does to the file), Log.v (what a crash in [commit]
    leaves) and Reboot.v (what the kernel does when it starts) are put together:
    whenever the machine stops during a write, the kernel that is started on the
    disk finds the file with some number of whole operations applied. *)
From stdpp Require Import base decidable option list functions numbers strings sets gmap.
From Stdlib Require Import ZArith Lia.
From S2P Require Import Prelude CString FsDefs Bio Log Fs FileDefs File Inodes Reboot.

Local Open Scope Z_scope.

(** Inside an operation the dirty buffers are the logged blocks. *)
Lemma dirty_logged s d ds T k : op s [] d ds T k → ∀ i, i ∈ dirty_bufs s →
  b_dev (bufs s i) = d ∧ b_blockno (bufs s i) ∈ logged (flog s).
Proof.
  intros HO. pose proof (bs_inv _ _ (op_buf _ _ _ _ _ _ HO)) as HI.
  assert (Hc : ∀ b, b ∈ logged (flog s) → ∃ j, cached d b s = Some j ∧ j ∈ dirty_bufs s).
  { intros b Hb. pose proof (op_pinned _ _ _ _ _ _ HO b Hb) as Hd. unfold isdirty in Hd.
    destruct (cached d b s) as [j|] eqn:E; [|done]. exists j. split; [done|].
    destruct (cached_some _ _ _ _ HI E) as (Hj & _). apply list_elem_of_filter. split; [done|]. apply elem_of_seq. lia. }
  set (f := λ b, default 0%nat (cached d b s)).
  assert (Hinj : ∀ b b', b ∈ logged (flog s) → b' ∈ logged (flog s) → f b = f b' → b = b').
  { intros b b' (j & Ej & _)%Hc (j' & Ej' & _)%Hc. unfold f. rewrite Ej, Ej'. cbn. intros <-.
    apply (cached_some _ _ _ _ HI) in Ej as (_ & _ & <-), Ej' as (_ & _ & <-). done. }
  assert (Hp : f <$> logged (flog s) ≡ₚ dirty_bufs s).
  { apply submseteq_length_Permutation; [|rewrite length_fmap; apply HO].
    apply NoDup_submseteq; [apply NoDup_fmap_2_strong; [done|apply HO]|].
    intros x (b & -> & (j & Ej & Hj)%Hc)%list_elem_of_fmap. unfold f. by rewrite Ej. }
  intros i Hi. rewrite <- Hp in Hi. apply list_elem_of_fmap in Hi as (b & -> & Hb).
  destruct (Hc b Hb) as (j & Ej & _). unfold f. rewrite Ej. cbn.
  destruct (cached_some _ _ _ _ HI Ej) as (_ & -> & ->). done.
Qed.

Lemma bitmap_free s s' d : the_sb d s' = the_sb d s → bitmap s' d = bitmap s d → nfree s' d = nfree s d.
Proof. intros Hs Hb. unfold free_blocks. by rewrite Hb, Hs. Qed.

(** ** A file on a device with a log *)

Section volume.
Context (d ds st : Z).

(** The inode [ip] is the one on the disk, and its file, the super block and the log
    are where they should be. *)
Record stored (s : fsys) (ip : nat) : Prop := Stored {
  so_layout : layout s d ds;
  so_log : l_dev (flog s) = d ∧ l_start (flog s) = st ∧ LOGSIZE ≤ l_size (flog s) ∧ log_wf (flog s);
  so_area : 1 < st ∧ st + LOGSIZE < ds;
  so_meta : ∀ b, b = sb_bmapstart (the_sb d s) ∨ b = iblk s ip → 1 < b < ds ∧ ¬ (st ≤ b < st + LOGSIZE);
  so_iblk : iblk s ip ≠ sb_bmapstart (the_sb d s) ∧ i_mount (inodes s ip) ≠ 1;
  so_super : get_sb (content s d 1) = the_sb d s ∧ sb_logstart (the_sb d s) = st;
  so_file : file_ok s d ds ip;
  so_type : i_type (inodes s ip) ≠ T_DEV ∧ i_type (inodes s ip) ≠ 0;
  so_wf : dinode_wf (inodes s ip);
  so_inode : dinode_of (get_dinode (content s d (iblk s ip)) (i_inum (inodes s ip)) (inodes s ip)) = dinode_of (inodes s ip)
}.

(** Between operations, with an empty log. *)
Record quiet (s : fsys) (ip : nat) : Prop := Quiet {
  qu_stored : stored s ip;
  qu_buf : bstate s [];
  qu_clean : dirty_bufs s = [];
  qu_idle : lh_n (flog s) = 0 ∧ outstanding (flog s) = 0 ∧ committing (flog s) = 0;
  qu_head : head_n (disk s d st) = 0;
  qu_root : root_idle (disk s 1)
}.

(** ** Starting the kernel *)

(** The machine before it starts: nothing cached. *)
Record powered_off (r : fsys) : Prop := PoweredOff {
  of_buf : bstate r [];
  of_clean : dirty_bufs r = [];
  of_inodes : no_inodes r
}.

(** The kernel starts, and then locks the inode [inum]. *)
Definition boot_file (inum : Z) : M fsys nat :=
  _ ← start_fs;
  ip ← iget d inum;
  _ ← ilock (Some ip);
  mret ip.

Lemma dinode_valid i v : dinode_of (set_i_valid v i) = dinode_of i.
Proof. by destruct i. Qed.

(** The file of [s] as another inode slot of [r] shows it. *)
Lemma same_file s r ip jp : d ≠ 0 → stored s ip → the_sb d r = the_sb d s →
  (∀ b, ¬ (st ≤ b < st + LOGSIZE) → content r d b = content s d b) →
  i_dev (inodes r jp) = d → dinode_of (inodes r jp) = dinode_of (inodes s ip) →
  layout r d ds ∧ file_ok r d ds jp ∧ file_data r jp = file_data s ip ∧ i_type (inodes r jp) = i_type (inodes s ip).
Proof.
  intros Hd [[L1 L2 L3 L4 L5] _ Ha Hm _ _ [F1 F2 F3 F4 F5 F6] _ _ _] Hsb HC Hdv Hdi.
  unfold dinode_of in Hdi. injection Hdi as Ht _ _ _ Hs Had.
  assert (Hbm : bitmap r d = bitmap s d) by (unfold bitmap; rewrite Hsb; apply HC; apply (Hm _ (or_introl eq_refl))).
  assert (Hdata : ∀ b, ds ≤ b → content r d b = content s d b) by (intros b Hb; apply HC; lia).
  assert (Hblk : ∀ x, slot x → blk r jp x = blk s ip x).
  { intros x Hx. unfold blk, map_block. rewrite Had, Hdv, F1.
    destruct (Z.eqb_spec x (-1)); [done|]. destruct (Z.ltb_spec x NDIRECT); [done|].
    change (nth (Z.to_nat NDIRECT) (i_addrs (inodes s ip)) 0) with (blk s ip (-1)).
    destruct (Z.eqb_spec (blk s ip (-1)) 0) as [|Hn]; [done|]. destruct (F5 (-1) slot_ind Hn) as [Hr _].
    by rewrite Hdata by lia. }
  split; [split; rewrite ?Hsb, ?Hbm; done|]. split; [split; rewrite ?Had, ?Hs, ?Hsb, ?Hbm; try done|split; [|done]].
  - intros x Hx Hlt. rewrite Hblk; [by apply F4|]. unfold slot, BSIZE in *. lia.
  - intros x Hx. rewrite Hblk by done. by apply F5.
  - intros x y Hx Hy. rewrite !Hblk by done. by apply F6.
  - unfold file_data. rewrite Hs. apply map_ext_in. intros o Ho%in_seq. destruct (byte_slot (Z.of_nat o)) as (Hx & _); [lia|].
    unfold fbyte. rewrite Hblk, Hdv, F1 by done. destruct (Z.eqb_spec (blk s ip (Z.of_nat o / BSIZE)) 0) as [|Hn]; [done|].
    destruct (F5 _ Hx Hn) as [Hr _]. by rewrite Hdata by lia.
Qed.

(** [forkret] leaves the log to the second device. *)
Context (Hsec : d = 2).

Lemma boot_run s ip r C : stored s ip → powered_off r → root_idle (disk r 1) →
  get_sb (disk r d 1) = the_sb d s → (∀ b, ¬ (st ≤ b < st + LOGSIZE) → C b = content s d b) →
  (∀ r1, fresh r1 d st → disk r1 d = disk r d → ∃ r2, recover_from_log r1 = Done ((), r2) ∧ recovered r1 r2 d st C) →
  ∃ r', boot_file (i_inum (inodes s ip)) r = Done (icache d, r') ∧ calm r' d ds ∧ file_ok r' d ds (icache d) ∧
    i_type (inodes r' (icache d)) = i_type (inodes s ip) ∧ file_data r' (icache d) = file_data s ip.
Proof.
  intros HT [HS Hcl Hno] Hroot Hsb HC Hrec. pose proof (lay_dev _ _ _ (so_layout _ _ HT)) as Hd.
  assert (Hd0 : d ≠ 0) by lia. destruct (so_super _ _ HT) as [_ Hst].
  assert (HR : ∃ r2, start_fs r = Done ((), r2) ∧ booted d (disk r2 d) r2 ∧ no_inodes r2 ∧ the_sb d r2 = the_sb d s ∧
    ∀ b, ¬ (st ≤ b < st + LOGSIZE) → disk r2 d b = C b).
  { rewrite <- Hsb. rewrite <- Hsb in Hst. clear - Hsec HS Hcl Hno Hroot Hst Hrec. subst d. by apply start_run. }
  destruct HR as (r2 & E2 & Hb2 & Hno2 & Hsb2 & Hdk2).
  destruct (iget_run d _ r2 (i_inum (inodes s ip)) Hb2 Hno2) as (r3 & E3 & Hb3 & Hsb3 & Hi3).
  assert (Hthe : the_sb d r3 = the_sb d s) by congruence. pose proof (fo_dev _ _ _ _ (so_file _ _ HT)) as Hdv.
  assert (Hib : IBLOCK (i_inum (inodes s ip)) (the_sb d r3) = iblk s ip) by (unfold iblk; by rewrite Hdv, Hthe).
  destruct (so_meta _ _ HT (iblk s ip) (or_intror eq_refl)) as [Hib1 Hib2].
  assert (Hino : ∀ i, dinode_of (on_disk_inode (disk r2 d) (the_sb d r3) (i_inum (inodes s ip)) i) = dinode_of (inodes s ip)).
  { intros i. unfold on_disk_inode. rewrite Hib, Hdk2, HC by done. rewrite <- (so_inode _ _ HT). done. }
  destruct (ilock_run d Hd _ r3 (icache d) (i_inum (inodes s ip)) _ Hb3 Hi3) as (r4 & E4 & Hb4 & Hsb4 & Hi4).
  { apply Hno2. }
  { rewrite Hib. pose proof (lay_size _ _ _ (so_layout _ _ HT)). pose proof (lay_data _ _ _ (so_layout _ _ HT)). lia. }
  { intros Ht. apply (so_type _ _ HT). rewrite <- Ht. symmetry. exact (f_equal (λ p, p.1.1.1.1.1) (Hino (inodes s ip))). }
  exists r4. split.
  { unfold boot_file. rewrite (bind_done _ _ _ _ _ E2), (bind_done _ _ _ _ _ E3).
    by rewrite (bind_done _ _ _ _ _ E4). }
  destruct (same_file s r4 ip (icache d) Hd0 HT) as (HL & HF & HD & HY); [congruence| | | |].
  - intros b Hb. rewrite (bt_content _ _ _ Hb4), Hdk2 by done. by apply HC.
  - by rewrite Hi4.
  - rewrite Hi4, dinode_valid. apply Hino.
  - split; [|done]. split; [apply Hb4|done|]. rewrite (bt_dirty _ _ _ Hb4). cbn. unfold NBUF. lia.
Qed.

(** ** One operation *)

(** The inode is the same but for its lock, its references and its place. *)
Definition same_inode (i j : inode) : Prop :=
  i_dev j = i_dev i ∧ i_inum j = i_inum i ∧ i_mount j = i_mount i ∧ dinode_of j = dinode_of i.

Lemma stored_same s s' ip : stored s ip → the_sb d s' = the_sb d s →
  l_dev (flog s') = l_dev (flog s) ∧ l_start (flog s') = l_start (flog s) ∧ l_size (flog s') = l_size (flog s) →
  log_wf (flog s') → (∀ b, ¬ (st ≤ b < st + LOGSIZE) → content s' d b = content s d b) →
  same_inode (inodes s ip) (inodes s' ip) → stored s' ip ∧ file_data s' ip = file_data s ip.
Proof.
  intros HT Hsb (Hl1 & Hl2 & Hl3) Hwf HC (Hdv & Hnum & Hmt & Hdi).
  assert (Hd0 : d ≠ 0) by (destruct (lay_dev _ _ _ (so_layout _ _ HT)); lia).
  pose proof (fo_dev _ _ _ _ (so_file _ _ HT)) as Hdev.
  destruct (same_file s s' ip ip Hd0 HT Hsb HC) as (HL & HF & HD & HY); [congruence|done|].
  assert (Hib : iblk s' ip = iblk s ip) by (unfold iblk; by rewrite Hnum, Hdv, Hdev, Hsb).
  pose proof HT as [_ (G1 & G2 & G3 & _) Ha Hm [Hi1 Hi2] [Hs1 Hs2] _ [Ht1 Ht2] [W1 W2 W3 W4 W5 W6 W7] Hin].
  split; [|done]. split; rewrite ?Hib, ?Hsb, ?HY; try done.
  - split_and!; congruence.
  - by rewrite Hmt.
  - rewrite HC; [done|]. lia.
  - unfold dinode_of in Hdi. injection Hdi as E1 E2 E3 E4 E5 E6. by split; rewrite ?E1, ?E2, ?E3, ?E4, ?E5, ?E6.
  - rewrite HC, Hnum by apply (Hm _ (or_intror eq_refl)). rewrite Hdi, <- Hin. done.
Qed.

(** The blocks of an operation on the file are outside of the log. *)
Lemma op_home s ip b : stored s ip → data_block s d ds b ∨ b = iblk s ip → on_disk d b ∧ 1 < b ∧ ¬ (st ≤ b < st + LOGSIZE).
Proof.
  intros HT Hb. pose proof (so_layout _ _ HT) as [Ldev Lsz Lmap Ldata _]. pose proof (so_area _ _ HT).
  assert (1 < b ∧ b < sb_size (the_sb d s) ∧ ¬ (st ≤ b < st + LOGSIZE)) as (H1 & H2 & H3).
  { destruct Hb as [[->|Hb]| ->]; [|unfold LOGSIZE in *; lia|];
      [destruct (so_meta _ _ HT _ (or_introl eq_refl))|destruct (so_meta _ _ HT _ (or_intror eq_refl))]; lia. }
  split; [split; [done|lia]|]. done.
Qed.

Lemma op_txn s s' ip T k W : stored s ip → logged (flog s) = [] → head_n (disk s d st) = 0 →
  edits s s' W → Forall (λ w, data_block s d ds w.1.2 ∨ w.1.2 = iblk s ip) W → op s' [] d ds T k →
  logged (flog s') ≠ [] → txn s' d st (logged (flog s')).
Proof.
  intros HT Hlg Hhd HE HW HO Hne. destruct (op_lh _ _ _ _ _ _ HO) as [Hlh Hlen].
  pose proof (so_layout _ _ HT) as [Ldev Lsz _ Ldata _]. pose proof (so_area _ _ HT) as [Ha1 Ha2].
  destruct (so_log _ _ HT) as (G1 & G2 & _), (ed_log _ _ _ HE) as (E1 & E2 & _).
  assert (Hhome : ∀ b, b ∈ logged (flog s') → on_disk d b ∧ ¬ (st ≤ b < st + LOGSIZE)).
  { intros b [Hb|Hb]%(ed_logged _ _ _ HE); [rewrite Hlg in Hb; by apply not_elem_of_nil in Hb|].
    apply list_elem_of_fmap in Hb as (w & -> & Hw). rewrite Forall_forall in HW.
    destruct (op_home s ip _ HT (HW w Hw)) as (H1 & _ & H3). done. }
  split; [split; try congruence; try done| | |done|apply HO| |].
  - unfold LOGSIZE. lia.
  - unfold on_disk. split; (split; [done|unfold LOGSIZE in *; lia]).
  - apply Forall_forall. exact Hhome.
  - apply HO.
  - pose proof (op_ndirty _ _ _ _ _ _ HO). unfold NBUF. lia.
  - intros b Hb. unfold isdirty in Hb. destruct (cached d b s') as [i|] eqn:Ei; [|done].
    destruct (cached_some _ _ _ _ (bs_inv _ _ (op_buf _ _ _ _ _ _ HO)) Ei) as (Hi & _ & <-).
    apply (dirty_logged _ _ _ _ _ HO). apply list_elem_of_filter. split; [done|]. apply elem_of_seq. lia.
  - rewrite (proj1 (ed_disk _ _ _ HE)). done.
Qed.

Lemma file_addrs s ip : layout s d ds → file_ok s d ds ip → Forall (λ a, 0 ≤ a < 2 ^ 32) (i_addrs (inodes s ip)).
Proof.
  intros [_ Lsz Lmap _ _] HF. apply Forall_lookup. intros k a Hk.
  pose proof (lookup_lt_Some _ _ _ Hk) as Hlt. rewrite (fo_len _ _ _ _ HF) in Hlt.
  set (x := if decide (k = 12%nat) then -1 else Z.of_nat k).
  assert (Hx : slot x) by (unfold x, slot, MAXFILE, NDIRECT, NINDIRECT; case_decide; lia).
  assert (Hb : blk s ip x = a).
  { rewrite <- (nth_lookup_Some _ _ 0 _ Hk). unfold blk, map_block, x. case_decide as E; [by rewrite E|].
    rewrite (proj2 (Z.eqb_neq _ _)), (proj2 (Z.ltb_lt _ _)) by (unfold NDIRECT; lia). by rewrite Nat2Z.id. }
  destruct (decide (a = 0)) as [->|Ha]; [lia|]. destruct (fo_used _ _ _ _ HF x Hx) as [Hr _]; [congruence|].
  unfold FSSIZE in *. lia.
Qed.

(** The file after [writei] is again as on the disk, once its blocks are there. *)
Lemma written_stored s s' ip m src off n T k : stored s ip → op s' [] d ds T k →
  0 ≤ off → 0 < n → off + n ≤ MAXFILE * BSIZE → written s s' d ds ip m src off n → stored s' ip.
Proof.
  intros HT HO Hoff Hn Hmax [HF Hsz (a & Ha) _ _ _ Hdk Hsame _ _ (W & HE & HW)].
  pose proof HT as [HL (G1 & G2 & G3 & _) Har Hm [Hi1 Hi2] [Hs1 Hs2] HF0 [Ht1 Ht2] [W1 W2 W3 W4 W5 W6 W7] Hin].
  assert (Hd0 : d ≠ 0) by (destruct (lay_dev _ _ _ HL); lia).
  assert (Hib : iblk s' ip = iblk s ip).
  { unfold iblk. rewrite (fo_dev _ _ _ _ HF), (fo_dev _ _ _ _ HF0), (edits_sb _ _ _ _ HE), Ha. done. }
  destruct (ed_log _ _ _ HE) as (E1 & E2 & E3 & _).
  assert (Hwf : dinode_wf (inodes s' ip)).
  { split; [by rewrite Ha..|rewrite Hsz|apply HF|apply file_addrs; [apply HO|done]].
    unfold MAXFILE, NDIRECT, NINDIRECT, BSIZE in *. lia. }
  split; rewrite ?Hib, ?(edits_sb _ _ _ _ HE); try done.
  - apply HO.
  - split_and!; [congruence..|apply HO].
  - by rewrite Ha.
  - rewrite (ed_content _ _ _ HE), apply_writes_out; [done| |done].
    intros (w & Hw1 & Hw2)%list_elem_of_fmap. rewrite Forall_forall in HW.
    destruct (op_home s ip _ HT (HW w Hw2)) as (_ & H1 & _). rewrite <- Hw1 in H1. cbn in H1. lia.
  - by rewrite Ha.
  - rewrite Hdk. replace (i_inum (inodes s' ip)) with (i_inum (inodes s ip)) by (by rewrite Ha). case_decide as Hc.
    + by apply get_put_dinode.
    + rewrite Hsame by lia. exact Hin.
Qed.

(** ** Committing it *)

Lemma txn_updi s bs ip g : txn s d st bs → txn (updi ip g s) d st bs.
Proof. intros [[] ? ? ? ? ? ?]. split; try done. by apply bstate_updi. Qed.

(** After the commit nothing is dirty. *)
Lemma commit_cleans s s' T k bs : op s [] d ds T k → bs = logged (flog s) → bstate s' [] →
  wrote s s' (commit_writes s d st bs) → dirty_bufs s' = [].
Proof.
  intros HO -> HS HW. destruct (dirty_bufs s') as [|i l] eqn:E; [done|exfalso].
  assert (Hi : i ∈ dirty_bufs s') by (rewrite E; by constructor).
  apply list_elem_of_filter in Hi as [Hf Hi%elem_of_seq]. pose proof (bs_inv _ _ HS) as HI.
  pose proof (bi_dirty _ HI i ltac:(lia) Hf) as Hd0.
  set (d' := b_dev (bufs s' i)) in *. set (b' := b_blockno (bufs s' i)) in *.
  assert (Hdi : isdirty s' d' b' = true) by (unfold isdirty, d', b'; by rewrite cached_hit by (done || lia)).
  rewrite (wr_dirty _ _ _ HW) in Hdi by done. apply andb_true_iff in Hdi as [Hdi Hnot].
  unfold isdirty in Hdi. destruct (cached d' b' s) as [j|] eqn:Ej; [|done].
  destruct (cached_some _ _ _ _ (bs_inv _ _ (op_buf _ _ _ _ _ _ HO)) Ej) as (Hj & Hjd & Hjb).
  destruct (dirty_logged _ _ _ _ _ HO j) as [H1 H2].
  { apply list_elem_of_filter. split; [done|]. apply elem_of_seq. lia. }
  rewrite Hjd in H1. rewrite Hjb in H2. apply negb_true_iff, bool_decide_eq_false in Hnot. apply Hnot.
  unfold commit_writes. rewrite !map_app, !elem_of_app. right; right; left. rewrite map_map. cbn [fst].
  rewrite H1. by apply (list_elem_of_fmap_2 (λ b, (d, b))).
Qed.

(** The header and the blocks after all writes of a commit. *)
Lemma commit_disk s s' bs : txn s d st bs → wrote s s' (commit_writes s d st bs) →
  head_n (disk s' d st) = 0 ∧ ∀ b, ¬ (st ≤ b < st + LOGSIZE) → disk s' d b = content s d b.
Proof.
  intros HT HW. rewrite (Log.wr_disk _ _ _ HW). split; [|intros b Hb; by apply commit_final].
  destruct (crash_after s d st bs HT (length bs + 1 + length bs + 1) _ ltac:(lia) eq_refl) as (Hh & _).
  unfold crash_disk in Hh. rewrite take_ge in Hh; [done|].
  unfold commit_writes, log_writes. rewrite !length_app, !length_map, length_seq. cbn. lia.
Qed.

Lemma recovered_ext r r' C C' : recovered r r' d st C → (∀ b, ¬ (st ≤ b < st + LOGSIZE) → C b = C' b) →
  recovered r r' d st C'.
Proof. intros [? ? ? ? ? Hb] HC. split; try done. intros b Ho. rewrite Hb by done. by apply HC. Qed.

Lemma ilock_valid s ip : i_locked (inodes s ip) = false → 1 ≤ i_ref (inodes s ip) → i_valid (inodes s ip) = 1 →
  ilock (Some ip) s = Done ((), updi ip (set_i_pid (mypid s)) (updi ip (set_i_locked true) s)).
Proof.
  intros Hl Hr Hv. unfold ilock. rewrite run_getS, (proj2 (Z.ltb_ge _ _)) by lia.
  unfold acquire_inode. rewrite run_bind, run_getS, Hl, run_modS. cbn [modS]. rewrite run_getS.
  rewrite !inodes_updi, !decide_True by done. change (i_valid (set_i_pid _ _)) with (i_valid (inodes s ip)). by rewrite Hv.
Qed.

Lemma iunlock_held s ip : i_locked (inodes s ip) = true → i_pid (inodes s ip) = mypid s → 1 ≤ i_ref (inodes s ip) →
  iunlock (Some ip) s = Done ((), updi ip (set_i_pid 0) (updi ip (set_i_locked false) s)).
Proof.
  intros Hl Hp Hr. unfold iunlock, holding_inode, release_inode. rewrite run_getS, Hl, Hp, Z.eqb_refl.
  rewrite (proj2 (Z.ltb_ge _ _)) by lia. cbn [negb andb orb]. by rewrite run_modS.
Qed.

Lemma quiet_startable s ip : quiet s ip → (5 ≤ nfree s d)%nat → startable s d ds.
Proof.
  intros [HT HS Hcl (Hn & Ho & Hc) _] Hf. destruct (so_log _ _ HT) as (_ & _ & Hsz & Hwf).
  assert (Hlg : logged (flog s) = []) by (unfold logged; by rewrite Hn).
  split; [done|apply HT|done|rewrite Ho, Hn; unfold MAXOPBLOCKS, LOGSIZE; lia| | | |done].
  - rewrite Hlg. constructor.
  - rewrite Hlg. by intros b Hb%elem_of_nil.
  - rewrite Hcl. cbn. lia.
Qed.

(** The inode is in the cache and nobody has it locked. *)
Definition open_inode (i : inode) : Prop := i_valid i = 1 ∧ i_locked i = false ∧ 1 ≤ i_ref i < 2 ^ 31.

(** An operation that wrote the file and is about to commit the blocks [bs]. *)
Record pending (s s' : fsys) (ip : nat) (bs : list Z) (data : list Z) : Prop := Pending {
  pe_stored : stored s' ip;
  pe_op : (∃ T k, op s' [] d ds T k) ∧ bs = logged (flog s');
  pe_txn : txn s' d st bs;
  pe_log : outstanding (flog s') = 1 ∧ committing (flog s') = 0;
  pe_disk : disk s' = disk s ∧ writes s' = writes s;
  pe_inode : open_inode (inodes s' ip) ∧ i_inum (inodes s' ip) = i_inum (inodes s ip) ∧ i_type (inodes s' ip) = i_type (inodes s ip);
  pe_sb : the_sb d s' = the_sb d s ∧ Forall (λ b, 1 < b) bs;
  pe_data : file_data s' ip = data;
  pe_free : (nfree s d ≤ nfree s' d + 5)%nat
}.

Lemma written_pending s2 s3 ip m src off n T k : stored s2 ip → logged (flog s2) = [] → head_n (disk s2 d st) = 0 →
  outstanding (flog s2) = 1 ∧ committing (flog s2) = 0 → i_valid (inodes s2 ip) = 1 → 1 ≤ i_ref (inodes s2 ip) < 2 ^ 31 →
  0 ≤ off ≤ i_size (inodes s2 ip) → 0 < n ≤ write_max → off + n ≤ MAXFILE * BSIZE →
  op s3 [] d ds T k → written s2 s3 d ds ip m src off n →
  pending s2 (updi ip (set_i_pid 0) (updi ip (set_i_locked false) s3)) ip (logged (flog s3))
    (splice (Z.to_nat off) (bytes_from m src n) (file_data s2 ip)).
Proof.
  intros HT Hlg Hhd [Ho Hc] Hv Hr Hoff Hn Hmax HO HW. set (s4 := updi ip _ _).
  assert (Hi4 : inodes s4 ip = set_i_pid 0 (set_i_locked false (inodes s3 ip))).
  { subst s4. by rewrite !inodes_updi, !decide_True. }
  pose proof (written_stored s2 s3 ip m src off n T k HT HO ltac:(lia) ltac:(lia) Hmax HW) as HT3.
  pose proof HW as [HF Hsz (a & Ha) _ _ _ _ _ Hfr Hne (W & HE & HQ)]. destruct (ed_log _ _ _ HE) as (_ & _ & _ & E4 & E5).
  destruct (stored_same s3 s4 ip HT3) as [HT4 HD4]; try done; [by apply HO|by rewrite Hi4|].
  assert (HO4 : op s4 [] d ds T k) by (by do 2 apply op_updi).
  split.
  - done.
  - split; [by exists T, k|done].
  - do 2 apply txn_updi. apply (op_txn s2 s3 ip T k W); try done. apply Hne. lia.
  - change (outstanding (flog s3) = 1 ∧ committing (flog s3) = 0). split; congruence.
  - exact (ed_disk _ _ _ HE).
  - rewrite Hi4. unfold open_inode. cbn. rewrite Ha. done.
  - split; [exact (edits_sb _ _ _ _ HE)|]. apply Forall_forall. intros b [Hb|Hb]%(ed_logged _ _ _ HE).
    + rewrite Hlg in Hb. by apply not_elem_of_nil in Hb.
    + apply list_elem_of_fmap in Hb as (w & -> & Hw). rewrite Forall_forall in HQ. by apply (op_home s2 ip _ HT (HQ w Hw)).
  - rewrite HD4. by apply (written_data s2 s3 d ds); [apply HT|done|lia|done|].
  - change (nfree s4 d) with (nfree s3 d). pose proof (blocks_in_max off n ltac:(lia) ltac:(lia)). lia.
Qed.

Context (dev_write : Z → option (nat → mem → Z → Z → M fsys Z)).

Lemma unit_write s ip m src off n : quiet s ip → open_inode (inodes s ip) → (5 ≤ nfree s d)%nat →
  0 ≤ off ≤ i_size (inodes s ip) → 0 < n ≤ write_max → off + n ≤ MAXFILE * BSIZE →
  ∃ s1 s2 s3 s4 bs, begin_op s = Done ((), s1) ∧ ilock (Some ip) s1 = Done ((), s2) ∧
    writei dev_write ip m src off n s2 = Done (n, s3) ∧ iunlock (Some ip) s3 = Done ((), s4) ∧
    pending s s4 ip bs (splice (Z.to_nat off) (bytes_from m src n) (file_data s ip)).
Proof.
  intros HQ (Hv & Hl & Hr) Hf Hoff Hn Hmax. pose proof HQ as [HT _ _ (Hlh & Ho & Hc) Hhd].
  pose proof HT as [_ _ _ Hm [Hib1 Hib2] _ _ [Hty _] _ _]. destruct (Hm _ (or_intror eq_refl)) as [Hib3 _].
  destruct (begin_op_run s d ds {[sb_bmapstart (the_sb d s); iblk s ip]} (quiet_startable s ip HQ Hf)) as [E1 HO1].
  { pose proof (size_union ({[sb_bmapstart (the_sb d s)]} : gset Z) {[iblk s ip]} ltac:(set_solver)) as E.
    rewrite !size_singleton in E. lia. }
  set (s1 := updl _ s) in *. set (s2 := updi ip (set_i_pid (mypid s1)) (updi ip (set_i_locked true) s1)).
  assert (Hi2 : inodes s2 ip = set_i_pid (mypid s1) (set_i_locked true (inodes s ip))).
  { subst s2. by rewrite !inodes_updi, !decide_True. }
  destruct (stored_same s s2 ip HT) as [HT2 HD2]; try done; [apply HT|by rewrite Hi2|].
  assert (HW2 : writable s2 d ds ip (S (blocks_in off n))).
  { split; [|apply HT2|by rewrite Hi2|].
    - apply (op_weaken _ _ _ _ _ 5); [|pose proof (blocks_in_max off n ltac:(lia) ltac:(lia)); lia].
      replace (iblk s2 ip) with (iblk s ip) by (unfold iblk; by rewrite Hi2). by do 2 apply op_updi.
    - split; [|]; unfold iblk_ok; replace (iblk s2 ip) with (iblk s ip) by (unfold iblk; by rewrite Hi2); [|lia].
      rewrite Hi2. change (the_sb d s2) with (the_sb d s). split_and!; [done|lia|done]. }
  destruct (writei_writable dev_write s2 d ds ip m src off n HW2) as (s3 & T & k & E3 & HO3 & HW3); [by rewrite Hi2|lia|done|].
  pose proof (wr_inode _ _ _ _ _ _ _ _ _ HW3) as (a & Ha). destruct (wr_rest _ _ _ _ _ _ _ _ _ HW3) as (W & HE & _).
  pose proof (written_pending s2 s3 ip m src off n T k HT2) as HP.
  exists s1, s2, s3, (updi ip (set_i_pid 0) (updi ip (set_i_locked false) s3)), (logged (flog s3)). split; [done|].
  split; [by apply ilock_valid; [|apply Hr|]|]. split; [done|]. split.
  { apply iunlock_held; rewrite Ha, Hi2; [done|symmetry; apply (ed_proc _ _ _ HE)|cbn; lia]. }
  rewrite HD2 in HP. destruct HP as [? ? ? ? ? Hino ? ? ?]; try done.
  - change (logged (flog s) = []). unfold logged. by rewrite Hlh.
  - change (outstanding (flog s) + 1 = 1 ∧ committing (flog s) = 0). by rewrite Ho.
  - by rewrite Hi2.
  - by rewrite Hi2.
  - by rewrite Hi2.
  - rewrite Hi2 in Hino. by split.
Qed.

(** A finished operation: its disk writes [W], and what a crash among them leaves. *)
Record finished (s s' : fsys) (ip : nat) (W : list (Z * Z * mem)) (data : list Z) : Prop := Finished {
  fi_quiet : quiet s' ip;
  fi_inode : open_inode (inodes s' ip) ∧ i_inum (inodes s' ip) = i_inum (inodes s ip) ∧ i_type (inodes s' ip) = i_type (inodes s ip);
  fi_data : file_data s' ip = data;
  fi_free : (nfree s d ≤ nfree s' d + 5)%nat;
  fi_sb : the_sb d s' = the_sb d s;
  fi_disk : disk s' = apply_writes (disk s) W ∧ writes s' = writes s ++ W;
  fi_dev : Forall (λ w, w.1.1 = d) W;
  fi_super : ∀ k, apply_writes (disk s) (take k W) d 1 = disk s d 1;
  fi_crash : ∃ j, (j < length W)%nat ∧ ∀ k r1, fresh r1 d st → disk r1 d = apply_writes (disk s) (take k W) d →
    ∃ r2, recover_from_log r1 = Done ((), r2) ∧ recovered r1 r2 d st (content (if (k <=? j)%nat then s else s') d)
}.

Lemma commit_skips_super s ip bs k D : stored s ip → txn s d st bs →
  Forall (λ b, 1 < b) bs → apply_writes D (take k (commit_writes s d st bs)) d 1 = D d 1.
Proof.
  intros HT HX Hb. apply apply_writes_take_out. pose proof (so_area _ _ HT).
  unfold commit_writes, log_writes. rewrite !map_app, !map_map, !elem_of_app. cbn [fst map].
  rewrite !list_elem_of_singleton, !list_elem_of_fmap. rewrite Forall_forall in Hb.
  intros [(x & [= Hx] & _)|[[= Hx]|[(x & [= Hx] & Hin)|[= Hx]]]]; try lia. specialize (Hb x Hin). lia.
Qed.

Lemma commit_writes_dev s bs : Forall (λ w, w.1.1 = d) (commit_writes s d st bs).
Proof.
  unfold commit_writes, log_writes. rewrite !Forall_app, !Forall_map, !Forall_singleton.
  split_and!; (done || by apply Forall_true).
Qed.

(** The root device is not written. *)
Lemma root_same D W k : Forall (λ w, w.1.1 = d) W → apply_writes D (take k W) 1 = D 1.
Proof. intros HW. apply (apply_writes_dev d); [rewrite Hsec; lia|by apply Forall_take]. Qed.

Lemma pending_finished s s4 ip bs data : quiet s ip → pending s s4 ip bs data →
  ∃ s' W, end_op s4 = Done ((), s') ∧ finished s s' ip W data.
Proof.
  intros HQ [HT ((T & k0 & HO) & Hbs) HX [Ho Hc] [Hdk Hwr] (Hop & Hnum & Hty) [Hthe Hb1] HD Hfr].
  assert (Hd0 : d ≠ 0) by (by eapply op_dev).
  destruct (end_op_run s4 d st bs HX Ho Hc) as (s' & E & HS & Hl & HW & Hsame).
  pose proof (commit_cleans s4 s' T k0 bs HO Hbs HS HW) as Hcl. destruct (commit_disk s4 s' bs HX HW) as [Hhd Hdisk].
  assert (HC : ∀ b, ¬ (st ≤ b < st + LOGSIZE) → content s' d b = content s4 d b).
  { intros b Hb. rewrite clean_content by done. by apply Hdisk. }
  destruct Hsame as (_ & Hs1 & Hs2 & Hi & _). change (inodes (set_flog _ s')) with (inodes s') in Hi.
  assert (Hsb : the_sb d s' = the_sb d s4) by (unfold the_sb; by rewrite <- Hs1, <- Hs2).
  destruct (so_log _ _ HT) as (_ & _ & _ & Hwf).
  destruct (stored_same s4 s' ip HT Hsb) as [HT' HD'].
  { rewrite Hl. done. } { rewrite Hl. destruct Hwf as [? ?]. split; [cbn; unfold LOGSIZE; lia|done]. } { done. } { by rewrite Hi. }
  exists s', (commit_writes s4 d st bs). split; [done|]. split.
  - split; [done..|by rewrite Hl|done|]. rewrite (Log.wr_disk _ _ _ HW), Hdk.
    rewrite <- (take_ge (commit_writes s4 d st bs) _ (le_n _)), root_same; [apply HQ|apply commit_writes_dev].
  - by rewrite Hi.
  - by rewrite HD'.
  - rewrite (bitmap_free s4 s') by (done || unfold bitmap; rewrite Hsb; apply HC, (so_meta _ _ HT _ (or_introl eq_refl))). done.
  - congruence.
  - rewrite (Log.wr_disk _ _ _ HW), (wr_writes _ _ _ HW), Hdk, Hwr. done.
  - apply commit_writes_dev.
  - intros k. by eapply commit_skips_super.
  - exists (length bs). split.
    { unfold commit_writes, log_writes. rewrite !length_app, !length_map, length_seq. cbn. lia. }
    intros k r1 HF Hr1. destruct (crash_run s4 r1 d st bs k HX HF) as (r2 & Er & HR); [unfold crash_disk; by rewrite Hdk|].
    exists r2. split; [done|]. eapply recovered_ext; [exact HR|]. intros b Hb.
    destruct (k <=? length bs)%nat; [|symmetry; by apply HC].
    rewrite Hdk. symmetry. apply clean_content; [apply HQ|apply HQ|done].
Qed.

(** ** Crashes *)

(** Whenever the machine stops during the writes [W], the kernel that starts next finds
    the file with the first [j] bytes of [bs] written at [o]: those of a number of whole
    operations, and all of them once the writes are through. *)
Definition survives (s : fsys) (ip : nat) (W : list (Z * Z * mem)) (o : nat) (bs : list Z) : Prop :=
  ∀ k r, powered_off r → disk r = apply_writes (disk s) (take k W) →
  ∃ r' j, boot_file (i_inum (inodes s ip)) r = Done (icache d, r') ∧
    (calm r' d ds ∧ file_ok r' d ds (icache d) ∧ i_type (inodes r' (icache d)) = i_type (inodes s ip)) ∧
    (j ≤ length bs)%nat ∧ (j = length bs ∨ Z.of_nat j mod write_max = 0) ∧ (length W ≤ k → j = length bs)%nat ∧
    file_data r' (icache d) = splice o (take j bs) (file_data s ip).

Lemma splice_nil o l : (o ≤ length l)%nat → splice o [] l = l.
Proof. intros Ho. unfold splice. cbn. rewrite Nat.add_0_r. apply take_drop. Qed.

Lemma splice_app o b1 b2 l : (o ≤ length l)%nat →
  splice (o + length b1) b2 (splice o b1 l) = splice o (b1 ++ b2) l.
Proof.
  intros Ho. unfold splice. assert (Hl : length (take o l) = o) by (rewrite length_take; lia).
  rewrite take_app_ge, drop_app_ge, Hl by lia. replace (o + length b1 - o)%nat with (length b1) by lia.
  replace (o + length b1 + length b2 - o)%nat with (length b1 + length b2)%nat by lia.
  rewrite take_app_length, drop_app_ge, drop_drop, length_app, <- !app_assoc by lia. do 4 f_equal. lia.
Qed.

Lemma quiet_super s ip : quiet s ip → get_sb (disk s d 1) = the_sb d s.
Proof.
  intros HQ. destruct (so_super _ _ (qu_stored _ _ HQ)) as [<- _]. f_equal. symmetry.
  apply clean_content; [apply HQ..|]. destruct (lay_dev _ _ _ (so_layout _ _ (qu_stored _ _ HQ))); lia.
Qed.

(** The disk between operations. *)
Lemma quiet_survives s ip o : quiet s ip → (o ≤ length (file_data s ip))%nat → survives s ip [] o [].
Proof.
  intros HQ Ho k r Hr Hd. rewrite take_nil in Hd. cbn in Hd. pose proof (qu_stored _ _ HQ) as HT.
  pose proof (so_layout _ _ HT) as [Ldev Lsz _ Ldata _]. pose proof (so_area _ _ HT).
  destruct (boot_run s ip r (disk s d) HT Hr) as (r' & E & H1 & H2 & H3 & H4).
  - rewrite Hd. apply HQ.
  - rewrite Hd. by eapply quiet_super.
  - intros b _. symmetry. apply clean_content; [apply HQ..|]. destruct Ldev; lia.
  - intros r1 HF Hr1. rewrite Hd in Hr1. rewrite <- Hr1. apply recover_empty; [done|..].
    1, 2: split; [exact Ldev|unfold LOGSIZE in *; lia]. rewrite Hr1. apply (qu_head _ _ HQ).
  - exists r', O. split; [done|]. split; [done|]. split; [cbn; lia|]. split; [by left|]. split; [done|].
    cbn. by rewrite splice_nil.
Qed.

(** One operation and the ones after it. *)
Lemma finished_survives s s1 ip W1 W2 o b1 b2 : quiet s ip → (o ≤ length (file_data s ip))%nat →
  finished s s1 ip W1 (splice o b1 (file_data s ip)) → b2 = [] ∨ Z.of_nat (length b1) = write_max →
  survives s1 ip W2 (o + length b1) b2 → survives s ip (W1 ++ W2) o (b1 ++ b2).
Proof.
  intros HQ Ho [HQ1 (_ & Hnum & Hty) HD _ Hsb [Hdk _] Hdev Hsup (j1 & Hj1 & Hcr)] Hb HS k r Hr Hd.
  rewrite take_app in Hd. destruct (Nat.lt_ge_cases k (length W1)) as [Hk|Hk].
  - replace (k - length W1)%nat with O in Hd by lia. rewrite take_0, app_nil_r in Hd.
    set (t := if (k <=? j1)%nat then s else s1) in *. set (j := if (k <=? j1)%nat then O else length b1).
    assert (HT : stored t ip ∧ the_sb d t = the_sb d s ∧ i_inum (inodes t ip) = i_inum (inodes s ip) ∧
      i_type (inodes t ip) = i_type (inodes s ip) ∧ file_data t ip = splice o (take j (b1 ++ b2)) (file_data s ip)).
    { unfold t, j. destruct (k <=? j1)%nat.
      - split; [apply HQ|]. cbn. by rewrite splice_nil.
      - split; [apply HQ1|]. by rewrite take_app_length. }
    destruct HT as (HT & Ht1 & Ht2 & Ht3 & Ht4).
    destruct (boot_run t ip r (content t d) HT Hr) as (r' & E & H1 & H2 & H3 & H4).
    { rewrite Hd, root_same by done. apply HQ. } { rewrite Hd, Hsup, Ht1. by eapply quiet_super. } { done. } { intros r1 HF Hr1. apply (Hcr k); [done|]. by rewrite Hr1, Hd. }
    exists r', j. rewrite <- Ht2, <- Ht3. split; [done|]. split; [done|]. rewrite H4, Ht4, !length_app.
    split; [unfold j; case_match; lia|]. split; [|split; [lia|done]].
    unfold j. case_match; [right; done|]. destruct Hb as [-> |Hb]; [left; cbn; lia|right]. rewrite Hb. by apply Z.mod_same.
  - rewrite (take_ge W1), apply_writes_app, <- Hdk in Hd by lia.
    destruct (HS (k - length W1)%nat r Hr Hd) as (r' & j & E & Hc & Hj & Hw & Hall & Hf).
    rewrite Hnum, Hty in *. exists r', (length b1 + j)%nat. split; [done|]. split; [done|]. rewrite !length_app.
    split; [lia|]. split; [|split; [lia|]].
    + destruct Hw as [-> |Hw]; [by left|]. destruct Hb as [-> |Hb]; [left; cbn [length] in *; lia|right].
      rewrite Nat2Z.inj_add, Hb, Z.add_mod, Hw, Z.mod_same by done. done.
    + rewrite Hf, HD, splice_app by done. f_equal. rewrite take_app_ge by lia. do 2 f_equal. lia.
Qed.

(** ** [filewrite] *)

Lemma run_onfs {A B} (m : M fsys A) (K : A → M usys B) u a s' :
  m (ufs u) = Done (a, s') → (onfs m ≫= K) u = K a (set_ufs s' u).
Proof. intros E. unfold onfs, zoom. rewrite run_bind. cbn. by rewrite E. Qed.

(** The operations a write of [n] bytes takes; each may use five blocks. *)
Definition write_units (n : Z) : Z := (n + write_max - 1) / write_max.

Lemma write_units_step n : 0 < n → write_units n = 1 + write_units (n - Z.min write_max n).
Proof. intros Hn. unfold write_units. change write_max with 1536. Z.to_euclidean_division_equations. lia. Qed.

Lemma bytes_from_app m a n k : 0 ≤ k ≤ n → bytes_from m a n = bytes_from m a k ++ bytes_from m (a + k) (n - k).
Proof.
  intros Hk. unfold bytes_from. replace (Z.to_nat n) with (Z.to_nat k + Z.to_nat (n - k))%nat by lia.
  rewrite seq_app, map_app. f_equal. rewrite <- (Nat.add_0_r (0 + _)), <- fmap_add_seq, map_map.
  apply map_ext. intros j. f_equal. lia.
Qed.

Lemma length_bytes_from m a n : 0 ≤ n → Z.of_nat (length (bytes_from m a n)) = n.
Proof. intros Hn. unfold bytes_from. rewrite length_map, length_seq. lia. Qed.

Lemma length_splice o b l : (o ≤ length l)%nat → length (splice o b l) = Nat.max (length l) (o + length b).
Proof. intros Ho. unfold splice. rewrite !length_app, length_take, length_drop. lia. Qed.

Lemma length_file_data s ip : stored s ip → Z.of_nat (length (file_data s ip)) = i_size (inodes s ip).
Proof. intros HT. unfold file_data. rewrite length_map, length_seq. pose proof (fo_size _ _ _ _ (so_file _ _ HT)). lia. Qed.

(** The whole of a write: the file afterwards, the writes to the disk in order, and what
    is left when the machine stops among them. *)
Record performed (s s' : fsys) (ip : nat) (W : list (Z * Z * mem)) (o : nat) (bs : list Z) : Prop := Performed {
  pf_quiet : quiet s' ip;
  pf_data : file_data s' ip = splice o bs (file_data s ip);
  pf_disk : disk s' = apply_writes (disk s) W ∧ writes s' = writes s ++ W;
  pf_crash : survives s ip W o bs
}.

Lemma performed_none s ip o : quiet s ip → (o ≤ length (file_data s ip))%nat → performed s s ip [] o [].
Proof.
  intros HQ Ho. split; [done|by rewrite splice_nil| |by apply quiet_survives].
  split; [done|by rewrite app_nil_r].
Qed.

Lemma performed_step s s1 s' ip W1 W2 o b1 b2 : quiet s ip → (o ≤ length (file_data s ip))%nat →
  finished s s1 ip W1 (splice o b1 (file_data s ip)) → b2 = [] ∨ Z.of_nat (length b1) = write_max →
  performed s1 s' ip W2 (o + length b1) b2 → performed s s' ip (W1 ++ W2) o (b1 ++ b2).
Proof.
  intros HQ Ho HF Hb [HQ' HD [Hd Hw] HS]. pose proof (fi_disk _ _ _ _ _ HF) as [Hd1 Hw1]. split; [done| | |].
  - rewrite HD, (fi_data _ _ _ _ _ HF). by apply splice_app.
  - rewrite Hd, Hd1, Hw, Hw1, apply_writes_app, app_assoc. done.
  - by eapply finished_survives.
Qed.

(** One turn of the loop. *)
Lemma filewrite_turn fuel u f ip addr n i :
  let o := f_off (ftable u f) in let n1 := Z.min write_max (n - i) in
  quiet (ufs u) ip → open_inode (inodes (ufs u) ip) → 0 ≤ o ≤ i_size (inodes (ufs u) ip) →
  i < n → o + (n - i) ≤ MAXFILE * BSIZE → (5 ≤ nfree (ufs u) d)%nat →
  ∃ u1 W1, filewrite_loop dev_write (S fuel) f (Some ip) addr n i u = filewrite_loop dev_write fuel f (Some ip) addr n (i + n1) u1 ∧
    f_off (ftable u1 f) = o + n1 ∧ umem u1 = umem u ∧
    finished (ufs u) (ufs u1) ip W1 (splice (Z.to_nat o) (bytes_from (umem u) (addr + i) n1) (file_data (ufs u) ip)).
Proof.
  intros o n1 HQ Hop Ho Hi Hmax Hf. assert (Hwm : write_max = 1536) by done.
  destruct (unit_write (ufs u) ip (umem u) (addr + i) o n1 HQ Hop Hf Ho) as (s1 & s2 & s3 & s4 & bs & E1 & E2 & E3 & E4 & HP); [lia..|].
  destruct (pending_finished _ _ _ _ _ HQ HP) as (s5 & W & E5 & HF).
  set (u1 := updf f (λ x, set_f_off (u32 (f_off x + n1)) x) u).
  exists (set_ufs s5 u1), W. split_and!; [|cbn| |done].
  - cbn [filewrite_loop]. rewrite (proj2 (Z.leb_gt _ _)) by lia.
    replace (if write_max <? n - i then write_max else n - i) with n1 by (destruct (Z.ltb_spec write_max (n - i)); lia).
    rewrite (run_onfs _ _ u _ _ E1), (run_onfs _ _ (set_ufs s1 u) _ _ E2), run_deref, run_getS.
    rewrite (run_onfs _ _ (set_ufs s2 (set_ufs s1 u)) n1 s3 E3), (proj2 (Z.ltb_lt 0 n1)), run_modS by lia.
    erewrite run_onfs by exact E4. erewrite run_onfs by exact E5. rewrite (proj2 (Z.ltb_ge n1 0)), Z.eqb_refl by lia. cbn [negb].
    reflexivity.
  - change (f_off (ftable u1 f) = o + n1). unfold u1. rewrite ftable_updf, decide_True by done. cbn. apply u32_small.
    unfold MAXFILE, NDIRECT, NINDIRECT, BSIZE in *. lia.
  - by destruct u.
Qed.

Lemma filewrite_loop_run fuel : ∀ u f ip addr n i,
  quiet (ufs u) ip → open_inode (inodes (ufs u) ip) → 0 ≤ f_off (ftable u f) ≤ i_size (inodes (ufs u) ip) →
  0 ≤ i ≤ n → f_off (ftable u f) + (n - i) ≤ MAXFILE * BSIZE → (Z.to_nat (n - i) ≤ fuel)%nat →
  5 * write_units (n - i) ≤ Z.of_nat (nfree (ufs u) d) →
  ∃ u' W, filewrite_loop dev_write fuel f (Some ip) addr n i u = Done (n, u') ∧
    f_off (ftable u' f) = f_off (ftable u f) + (n - i) ∧
    performed (ufs u) (ufs u') ip W (Z.to_nat (f_off (ftable u f))) (bytes_from (umem u) (addr + i) (n - i)).
Proof.
  induction fuel as [|fuel IH]; intros u f ip addr n i HQ Hop Ho Hi Hmax Hfuel Hfree;
    pose proof (length_file_data _ _ (qu_stored _ _ HQ)) as Hlen; destruct (Z.leb_spec n i) as [Hle|Hlt]; try lia.
  1, 2: assert (i = n) as -> by lia; exists u, []; cbn [filewrite_loop]; rewrite Z.leb_refl, Z.eqb_refl, Z.sub_diag;
    split; [done|]; split; [lia|]; apply performed_none; [done|lia].
  assert (Hwm : write_max = 1536) by done. rewrite write_units_step in Hfree by lia.
  set (n1 := Z.min write_max (n - i)) in *. assert (0 ≤ write_units (n - i - n1)) by (apply Z.div_pos; lia).
  destruct (filewrite_turn fuel u f ip addr n i HQ Hop Ho Hlt Hmax ltac:(lia)) as (u1 & W1 & E1 & Hoff1 & Hm1 & HF).
  fold n1 in E1, Hoff1, HF. set (b1 := bytes_from (umem u) (addr + i) n1) in *.
  assert (Hb1 : Z.of_nat (length b1) = n1) by (apply length_bytes_from; lia).
  pose proof (length_file_data _ _ (qu_stored _ _ (fi_quiet _ _ _ _ _ HF))) as Hlen1.
  rewrite (fi_data _ _ _ _ _ HF), length_splice in Hlen1 by lia.
  destruct (IH u1 f ip addr n (i + n1)) as (u' & W2 & E2 & Hoff2 & HP).
  - apply HF.
  - apply HF.
  - rewrite Hoff1. lia.
  - lia.
  - rewrite Hoff1. lia.
  - lia.
  - pose proof (fi_free _ _ _ _ _ HF). replace (n - (i + n1)) with (n - i - n1) by lia. lia.
  - exists u', (W1 ++ W2). rewrite E1. split; [done|]. split; [lia|].
    rewrite (bytes_from_app _ _ (n - i) n1) by lia. fold b1.
    replace (bytes_from (umem u) (addr + i + n1) (n - i - n1)) with (bytes_from (umem u1) (addr + (i + n1)) (n - (i + n1)))
      by (rewrite Hm1; f_equal; lia).
    apply (performed_step _ (ufs u1)); [done|lia|done| |].
    + destruct (Z.le_gt_cases (n - i) write_max); [left|right; lia]. by replace (n - (i + n1)) with 0 by lia.
    + replace (Z.to_nat (f_off (ftable u f)) + length b1)%nat with (Z.to_nat (f_off (ftable u1 f))) by lia. done.
Qed.
End volume.


(** ** A second disk with one small file *)

(** The inode of the file: three bytes, in block 100. *)
Definition vol_inode : inode := Inode 2 2 1 false 0 1 T_FILE 0 0 1 3 0 (100 :: repeat 0 12).

(** On both devices: the super block, inode 2, the bitmap and the file's block. *)
Definition vol_disk : Z → Z → mem := λ d b,
  if b =? 1 then put_words zero_mem 0 [1000; 941; 200; 30; 2; 32; 58]
  else if b =? 32 then put_dinode zero_mem 2 vol_inode
  else small_disk d b.

Definition vol : usys :=
  updf 0 (λ _, File FD_INODE 1 true true 0 (Some (icache 2)) 1)
    (set_umem (λ a, a) (set_ufs (updi (icache 2) (λ _, vol_inode)
      (set_flog (Log 2 30 0 0 2 0 (repeat 0 30)) (set_disk vol_disk cold_fs))) cold_usys)).

Lemma vol_state : bstate (ufs vol) [].
Proof. split; [split|by intros i Hi%elem_of_nil|]; try done; intros; by left. Qed.

Lemma vol_layout : layout (ufs vol) 2 64.
Proof.
  split; [by right|vm_compute; done|vm_compute; done|vm_compute; done|].
  assert (H : forallb (λ b, bit_used (bitmap (ufs vol) 2) (Z.of_nat b)) (seq 0 64) = true) by (vm_compute; reflexivity).
  rewrite forallb_forall in H. intros b Hb. rewrite <- (Z2Nat.id b) by lia. apply H, in_seq. lia.
Qed.

Lemma vol_ok : file_ok (ufs vol) 2 64 (icache 2).
Proof.
  split; [done..|vm_compute; done| | |].
  - intros x Hx Hs. change (i_size (inodes (ufs vol) (icache 2))) with 3 in Hs. unfold BSIZE in Hs.
    assert (x = 0) as -> by lia. done.
  - intros x Hx. rewrite one_blk by done. case_decide; [intros _|done]. by vm_compute.
  - intros x y Hx Hy. rewrite !one_blk by done. repeat case_decide; congruence.
Qed.

Lemma vol_inode_wf : dinode_wf vol_inode.
Proof. split; [done..|]. by repeat (apply Forall_cons; split; [done|]). Qed.

Lemma vol_quiet : quiet 2 64 2 (ufs vol) (icache 2).
Proof.
  split; [|apply vol_state|done|done|done|].
  - split; [apply vol_layout|by vm_compute|by vm_compute| |by vm_compute|by vm_compute|apply vol_ok|done|apply vol_inode_wf|].
    + intros b Hb. change (sb_bmapstart (the_sb 2 (ufs vol))) with 58 in Hb. change (iblk (ufs vol) (icache 2)) with 32 in Hb.
      unfold LOGSIZE. lia.
    + apply get_put_dinode, vol_inode_wf.
  - split; [|split; [|done]]; (split; [by left|vm_compute; split; congruence]).
Qed.

Lemma cold_off D : powered_off (set_disk D cold_fs).
Proof.
  split; [|reflexivity|by intros i]. split; [split|by intros i Hi%elem_of_nil|]; try done; intros; by left.
Qed.

