(* ===== verification/Grep.v ===== *)
(** * The grep program: user/grep.c

    [match], [matchhere] and [matchstar] on the bytes of a pattern and a line,
    and the loop of [grep] over what successive [read] calls return. *)
From stdpp Require Import base decidable option list functions numbers strings sets.
From Stdlib Require Import ZArith Lia.
From S2P Require Import Prelude.

Local Open Scope Z_scope.

Definition NL : Z := 10.
Definition STAR : Z := 42.
Definition DOT_ : Z := 46.
Definition CARET : Z := 94.
Definition DOLLAR : Z := 36.
Definition BUFSIZE : Z := 1024.

(** ** The matcher *)

(** [matchstar(c, re, text)], for the matcher [here] of [re]. *)
Fixpoint matchstar (here : list Z → bool) (c : Z) (text : list Z) : bool :=
  here text ||
  match text with
  | [] => false
  | x :: text => ((x =? c) || (c =? DOT_)) && matchstar here c text
  end.

Fixpoint matchhere (re text : list Z) : bool :=
  match re with
  | [] => true
  | c :: re1 =>
      let rest :=
        if (c =? DOLLAR) && bool_decide (re1 = []) then bool_decide (text = [])
        else match text with
             | x :: text => ((c =? DOT_) || (c =? x)) && matchhere re1 text
             | [] => false
             end in
      match re1 with
      | s :: re2 => if s =? STAR then matchstar (matchhere re2) c text else rest
      | [] => rest
      end
  end.

(** The [do] loop of [match]. *)
Fixpoint match_from (re text : list Z) : bool :=
  matchhere re text ||
  match text with
  | [] => false
  | _ :: text => match_from re text
  end.

Definition match_ (re text : list Z) : bool :=
  match re with
  | c :: re1 => if c =? CARET then matchhere re1 text else match_from re text
  | [] => match_from re text
  end.

(** ** The loop *)

(** [strchr(p, '\n')]: the line in front of it and the bytes after it.  The
    search ends at a zero byte. *)
Fixpoint next_line (p : list Z) : option (list Z * list Z) :=
  match p with
  | [] => None
  | x :: p =>
      if x =? NL then Some ([], p)
      else if x =? 0 then None
      else match next_line p with Some (l, r) => Some (x :: l, r) | None => None end
  end.

(** The inner loop: what is written, and the bytes from [p] on. *)
Fixpoint grep_lines (fuel : nat) (pattern p : list Z) : option (list Z * list Z) :=
  match next_line p with
  | None => Some ([], p)
  | Some (l, r) =>
      match fuel with
      | O => None
      | S fuel =>
          match grep_lines fuel pattern r with
          | Some (out, r') => Some ((if match_ pattern l then l ++ [NL] else []) ++ out, r')
          | None => None
          end
      end
  end.

(** The outer loop over the bytes each [read] returns; [kept] is [buf[0..m)].
    Bytes without a newline in them are dropped ([if(p == buf) m = 0]). *)
Fixpoint grep (pattern kept : list Z) (reads : list (list Z)) : option (list Z) :=
  match reads with
  | [] => Some []
  | n :: reads =>
      let b := kept ++ n in
      match grep_lines (length b) pattern b with
      | None => None
      | Some (out, p) =>
          let kept := if bool_decide (length p = length b) then [] else p in
          match grep pattern kept reads with
          | Some out' => Some (out ++ out')
          | None => None
          end
      end
  end.

(** ** What a pattern means *)

(** Byte [x] is matched by the character [c] of a pattern. *)
Definition char_matches (c x : Z) : Prop := c = DOT_ ∨ c = x.

(** [re] matches a prefix of [text]. *)
Inductive matches : list Z → list Z → Prop :=
| m_nil text : matches [] text
| m_star c re u text :
    Forall (char_matches c) u → matches re text → matches (c :: STAR :: re) (u ++ text)
| m_end : matches [DOLLAR] []
| m_char c re x text :
    hd 0 re ≠ STAR → ¬ (c = DOLLAR ∧ re = []) → char_matches c x → matches re text →
    matches (c :: re) (x :: text).

Lemma matchstar_spec here c text :
  matchstar here c text = true ↔ ∃ u t, text = u ++ t ∧ Forall (char_matches c) u ∧ here t = true.
Proof.
  induction text as [|x text IH]; cbn [matchstar].
  - rewrite orb_false_r. split.
    + intros H. by exists [], [].
    + intros (u & t & E & _ & Ht). symmetry in E. apply app_eq_nil in E as [-> ->]. done.
  - rewrite orb_true_iff, andb_true_iff, orb_true_iff, !Z.eqb_eq, IH. split.
    + intros [H|[Hx (u & t & -> & Hu & Ht)]]; [by exists [], (x :: text)|].
      exists (x :: u), t. split; [done|]. split; [|done]. constructor; [|done].
      destruct Hx as [->|]; [by right|by left].
    + intros ([|y u] & t & E & Hu & Ht); [left; by cbn in E; subst|].
      injection E as -> ->. inversion_clear Hu as [|? ? Hy Hu']. right. split.
      * destruct Hy as [Hy|Hy]; [by right|by left].
      * by exists u, t.
Qed.

(** By the length of the pattern, since a star skips two characters. *)
Lemma matchhere_spec re text : matchhere re text = true ↔ matches re text.
Proof.
  remember (length re) as n eqn:Hn. revert re text Hn.
  induction n as [n IH] using lt_wf_ind. intros re text Hn.
  destruct re as [|c re1]; cbn [matchhere]; [split; [constructor|done]|].
  assert (Hrest : hd 0 re1 ≠ STAR →
    (if (c =? DOLLAR) && bool_decide (re1 = []) then bool_decide (text = [])
     else match text with x :: t => ((c =? DOT_) || (c =? x)) && matchhere re1 t | [] => false end) = true ↔
    matches (c :: re1) text).
  { intros Hs. destruct ((c =? DOLLAR) && bool_decide (re1 = [])) eqn:Hd.
    - apply andb_true_iff in Hd as [->%Z.eqb_eq ->%bool_decide_eq_true].
      rewrite bool_decide_eq_true. split; [intros ->; constructor|].
      intros H. inversion H; subst; try done. naive_solver.
    - apply andb_false_iff in Hd. rewrite Z.eqb_neq, bool_decide_eq_false in Hd. destruct text as [|x t].
      + split; [done|]. intros H. inversion H; subst; try done; naive_solver.
      + rewrite andb_true_iff, orb_true_iff, !Z.eqb_eq, (IH (length re1)) by (subst n; cbn; lia || done).
        split.
        * intros [Hc Hm]. constructor; [done|naive_solver|done|done].
        * intros H. inversion H; subst; [done|]. naive_solver. }
  destruct re1 as [|s re2]; [apply Hrest; done|]. destruct (Z.eqb_spec s STAR) as [->|Hs]; [|by apply Hrest].
  rewrite matchstar_spec. split.
  - intros (u & t & -> & Hu & Ht). constructor; [done|]. apply (IH (length re2)); [subst n; cbn; lia|done|done].
  - intros H. inversion H; subst; [|naive_solver].
    eexists _, _. split; [done|]. split; [done|]. apply (IH (length re2)); [cbn; lia|done|done].
Qed.

(** ** Lines *)

(** The complete lines of a text, and what follows the last of them. *)
Fixpoint split_lines (l : list Z) : list (list Z) * list Z :=
  match l with
  | [] => ([], [])
  | x :: l =>
      let '(ls, r) := split_lines l in
      if x =? NL then ([] :: ls, r)
      else match ls with
           | [] => ([], x :: r)
           | f :: ls => ((x :: f) :: ls, r)
           end
  end.

(** The lines [grep] should print. *)
Definition matching (pattern : list Z) (ls : list (list Z)) : list Z :=
  concat (map (λ l, l ++ [NL]) (filter (λ l, match_ pattern l = true) ls)).

Lemma matching_app pattern l1 l2 : matching pattern (l1 ++ l2) = matching pattern l1 ++ matching pattern l2.
Proof. unfold matching. by rewrite filter_app, map_app, concat_app. Qed.

Lemma next_line_split p : (∀ x, x ∈ p → x ≠ 0) →
  match next_line p with
  | Some (l, r) => split_lines p = (l :: fst (split_lines r), snd (split_lines r)) ∧
                   (length r < length p)%nat ∧ (∀ x, x ∈ r → x ∈ p)
  | None => split_lines p = ([], p)
  end.
Proof.
  induction p as [|x p IH]; intros Hz; cbn [next_line split_lines]; [done|].
  destruct (Z.eqb_spec x NL) as [Hx|Hx].
  { destruct (split_lines p). cbn. split; [done|]. split; [lia|]. set_solver. }
  rewrite (proj2 (Z.eqb_neq x 0)) by (apply Hz; by constructor).
  specialize (IH ltac:(intros y Hy; apply Hz; by constructor)).
  destruct (next_line p) as [[l r]|]; [|by rewrite IH].
  destruct IH as (-> & Hl & Hr). cbn. split; [done|]. split; [lia|]. set_solver.
Qed.

Lemma grep_lines_spec fuel : ∀ pattern p, (∀ x, x ∈ p → x ≠ 0) → (length p ≤ fuel)%nat →
  grep_lines fuel pattern p = Some (matching pattern (fst (split_lines p)), snd (split_lines p)).
Proof.
  induction fuel as [|fuel IH]; intros pattern p Hz Hf; cbn [grep_lines];
    pose proof (next_line_split p Hz) as Hn; destruct (next_line p) as [[l r]|].
  - lia.
  - by rewrite Hn.
  - destruct Hn as (-> & Hl & Hr). rewrite IH by (eauto || lia). cbn [fst snd]. do 2 f_equal.
    unfold matching. rewrite filter_cons. destruct (decide (match_ pattern l = true)) as [Hm|Hm].
    + by rewrite Hm.
    + apply not_true_is_false in Hm. by rewrite Hm.
  - by rewrite Hn.
Qed.

Lemma split_lines_app a b :
  split_lines (a ++ b) =
    (fst (split_lines a) ++ fst (split_lines (snd (split_lines a) ++ b)),
     snd (split_lines (snd (split_lines a) ++ b))).
Proof.
  induction a as [|x a IH]; [cbn; by destruct (split_lines b)|]. cbn [app split_lines].
  rewrite IH. destruct (split_lines a) as [la ra]. cbn [fst snd].
  destruct (Z.eqb_spec x NL) as [Hx|Hx]; [done|].
  destruct la as [|f la]; cbn [app fst snd split_lines]; [|done].
  destruct (split_lines (ra ++ b)) as [lb rb]. cbn [fst snd].
  rewrite (proj2 (Z.eqb_neq x NL)) by done. by destruct lb.
Qed.

(** A text with a newline has a complete line. *)
Lemma split_lines_nl l : (NL ∈ l → (length (snd (split_lines l)) < length l)%nat) ∧
  (NL ∉ l → split_lines l = ([], l)).
Proof.
  induction l as [|x l [IH1 IH2]]; cbn [split_lines].
  - split; [intros H; by apply elem_of_nil in H|done].
  - assert (Hle : (length (snd (split_lines l)) ≤ length l)%nat).
    { destruct (decide (NL ∈ l)) as [Hi|Hi]; [specialize (IH1 Hi); lia|by rewrite IH2]. }
    destruct (Z.eqb_spec x NL) as [->|Hx].
    + destruct (split_lines l). cbn in *. split; [lia|]. intros Hn. destruct Hn. by constructor.
    + split.
      * intros [Heq|Hi]%elem_of_cons; [by destruct Hx|]. specialize (IH1 Hi). destruct (split_lines l) as [[|f ls] r]; cbn in *; lia.
      * intros [_ Hn]%not_elem_of_cons. by rewrite IH2.
Qed.

Lemma snd_split_elem l x : x ∈ snd (split_lines l) → x ∈ l.
Proof.
  induction l as [|y l IH]; cbn [split_lines]; [done|].
  destruct (split_lines l) as [[|f ls] r], (Z.eqb_spec y NL); cbn in *; set_solver.
Qed.

Lemma grep_run reads : ∀ pattern kept, NL ∉ kept →
  (∀ x, x ∈ kept ++ concat reads → x ≠ 0) → Forall (λ c, NL ∈ c) reads →
  grep pattern kept reads = Some (matching pattern (fst (split_lines (kept ++ concat reads)))).
Proof.
  induction reads as [|c reads IH]; intros pattern kept Hk Hz Hnl; cbn [grep concat].
  - rewrite app_nil_r. by rewrite (proj2 (split_lines_nl kept) Hk).
  - inversion_clear Hnl as [|? ? Hc Hnl']. set (b := kept ++ c).
    rewrite grep_lines_spec by (done || (intros x Hx; apply Hz; unfold b in Hx; cbn; set_solver)).
    assert (Hlt : (length (snd (split_lines b)) < length b)%nat) by (apply split_lines_nl; set_solver).
    rewrite bool_decide_false by lia.
    assert (Hr : NL ∉ snd (split_lines b)).
    { clear. induction b as [|y b IHb]; cbn [split_lines]; [apply not_elem_of_nil|].
      destruct (split_lines b) as [[|f ls] r], (Z.eqb_spec y NL); cbn in *; set_solver. }
    rewrite IH; [|done| |done].
    + cbn [concat]. rewrite app_assoc. fold b. rewrite (split_lines_app b (concat reads)). cbn [fst].
      by rewrite matching_app.
    + intros x [Hx%snd_split_elem|Hx]%elem_of_app; apply Hz; cbn; unfold b in *; set_solver.
Qed.

(** C35: the matcher decides the meaning of a pattern: [match] holds exactly when
    the pattern matches a prefix of some suffix of the line, or of the whole
    line when it starts with [^], where [c*] stands for any number of bytes
    matched by [c], [.] for any byte and a final [$] for the end. *)
Theorem match_decides re text :
  match_ re text = true ↔
  (∃ re', re = CARET :: re' ∧ matches re' text) ∨
  (hd 0 re ≠ CARET ∧ ∃ pre suf, text = pre ++ suf ∧ matches re suf).
Proof.
  assert (Hf : match_from re text = true ↔ ∃ pre suf, text = pre ++ suf ∧ matches re suf).
  { induction text as [|x text IH]; cbn [match_from]; rewrite orb_true_iff, matchhere_spec.
    - split.
      + intros [H|]; [by exists [], []|done].
      + intros (pre & suf & E & Hm). symmetry in E. apply app_eq_nil in E as [-> ->]. by left.
    - rewrite IH. split.
      + intros [H|(pre & suf & -> & Hm)]; [by exists [], (x :: text)|by exists (x :: pre), suf].
      + intros ([|y pre] & suf & E & Hm); [left; by cbn in E; subst|].
        injection E as -> ->. right. by exists pre, suf. }
  unfold match_. destruct re as [|c re].
  - rewrite Hf. split; [intros H; by right|]. intros [(? & ? & _)|[_ H]]; done.
  - destruct (Z.eqb_spec c CARET) as [->|Hc].
    + rewrite matchhere_spec. split; [intros H; left; by exists re|].
      intros [(re' & [= <-] & H)|[H _]]; [done|]. by cbn in H.
    + rewrite Hf. split; [intros H; by right|]. intros [(? & [= ? _] & _)|[_ H]]; done.
Qed.

(** when every [read] returns at least one newline and the text has no zero
    byte, [grep] prints exactly the complete lines of the text that match, in
    order, however the reads divide the text. *)
Theorem grep_prints_matching pattern reads :
  (∀ x, x ∈ concat reads → x ≠ 0) → Forall (λ c, NL ∈ c) reads →
  grep pattern [] reads = Some (matching pattern (fst (split_lines (concat reads)))).
Proof. intros Hz Hnl. apply (grep_run reads pattern []); [apply not_elem_of_nil|done|done]. Qed.

(** a [read] that returns no newline is forgotten with everything kept from
    the reads before it: a line that arrives in pieces loses its beginning. *)
Theorem grep_forgets_partial pattern kept c reads :
  NL ∉ kept ++ c → (∀ x, x ∈ kept ++ c → x ≠ 0) →
  grep pattern kept (c :: reads) = grep pattern [] reads.
Proof.
  intros Hn Hz. cbn [grep]. rewrite grep_lines_spec by done.
  rewrite (proj2 (split_lines_nl _) Hn). cbn [fst snd]. rewrite bool_decide_true by done.
  by destruct (grep pattern [] reads).
Qed.

Lemma grep_prints_matching_witness :
  grep [CARET; 97; DOT_; STAR; 99] [] [[97; 98; NL; 97]; [99; NL; 98; 99; NL]] = Some [97; 99; NL].
Proof.
  rewrite (grep_prints_matching [CARET; 97; DOT_; STAR; 99] [[97; 98; NL; 97]; [99; NL; 98; 99; NL]]).
  - reflexivity.
  - cbn. intros x Hx. repeat (apply elem_of_cons in Hx as [->|Hx]; [discriminate|]). by apply elem_of_nil in Hx.
  - repeat constructor.
Defined.

Lemma grep_forgets_partial_witness :
  grep [97; 98] [] [[97; 98]; [99; NL]] = grep [97; 98] [] [[99; NL]] ∧
  matching [97; 98] (fst (split_lines (concat [[97; 98]; [99; NL]]))) = [97; 98; 99; NL].
Proof.
  split; [|reflexivity]. apply (grep_forgets_partial [97; 98] [] [97; 98] [[99; NL]]).
  - cbn. intros Hx. repeat (apply elem_of_cons in Hx as [?|Hx]; [discriminate|]). by apply elem_of_nil in Hx.
  - cbn. intros x Hx. repeat (apply elem_of_cons in Hx as [->|Hx]; [discriminate|]). by apply elem_of_nil in Hx.
Defined.
