(* ===== verification/Shell.v ===== *)
(** * The shell: user/sh.c

    The parser runs over the bytes of a command line; its state is the offset
    of [*ps].  A token is the pair of offsets [q], [eq].  The grammar it is
    meant to accept is given as inductive relations on lists of tokens, and
    the parser is shown to decide it. *)
From stdpp Require Import base decidable option list functions numbers strings sets.
From Stdlib Require Import ZArith Lia.
From S2P Require Import Prelude Sysfile.

Local Open Scope Z_scope.

Definition MAXARGS : nat := 10.

(** ** Commands *)

(** [struct cmd] and its variants.  The arguments of an [EXEC] are the tokens
    before the null pointer. *)
Inductive cmd :=
| EXEC (args : list (nat * nat))
| REDIR (c : cmd) (file efile : nat) (mode fd : Z)
| PIPE (left right : cmd)
| LIST (left right : cmd)
| BACK (c : cmd).

(** [cmd->argv[argc] = q; cmd->eargv[argc] = eq] on the [EXEC] node under the
    redirections. *)
Fixpoint put_arg (c : cmd) (q eq : nat) : cmd :=
  match c with
  | EXEC args => EXEC (args ++ [(q, eq)])
  | REDIR c f ef mode fd => REDIR (put_arg c q eq) f ef mode fd
  | c => c
  end.

(** ** Characters *)

Definition whitespace : list Z := [32; 9; 13; 10; 11].
Definition symbols : list Z := [60; 124; 62; 38; 59; 40; 41].
Definition LT : Z := 60.
Definition BAR : Z := 124.
Definition GT : Z := 62.
Definition AMP : Z := 38.
Definition SEMI : Z := 59.
Definition LPAR : Z := 40.
Definition RPAR : Z := 41.
Definition TOK_WORD : Z := 97.
Definition TOK_APPEND : Z := 43.

(** [strchr(toks, c)] for a character that is not the terminating zero. *)
Definition is_in (toks : list Z) (c : Z) : bool := bool_decide (c ∈ toks).

Fixpoint skip (p : Z → bool) (l : list Z) : nat :=
  match l with
  | x :: l => if p x then S (skip p l) else O
  | [] => O
  end.

Section parser.
(** The command line, without its terminating zero; [es] is its length. *)
Context (buf : list Z).
Definition es : nat := length buf.
Definition at_ (s : nat) : Z := nth s buf 0.

Definition skip_ws (s : nat) : nat := (s + skip (is_in whitespace) (drop s buf))%nat.
Definition is_word (c : Z) : bool := negb (is_in whitespace c) && negb (is_in symbols c).

(** The token at [s]: [ret], [q] and [eq]. *)
Definition token (s : nat) : Z * nat * nat :=
  let c := at_ s in
  if c =? 0 then (0, s, s)
  else if is_in [BAR; LPAR; RPAR; SEMI; AMP; LT] c then (c, s, S s)
  else if c =? GT then
    if at_ (S s) =? GT then (TOK_APPEND, s, S (S s)) else (GT, s, S s)
  else (TOK_WORD, s, (s + skip is_word (drop s buf))%nat).

Definition gettoken : M nat (Z * nat * nat) :=
  s ← getS;
  let '(ret, q, eq) := token (skip_ws s) in
  _ ← putS (skip_ws eq);
  mret (ret, q, eq).

Definition peek (toks : list Z) : M nat bool :=
  s ← getS;
  _ ← putS (skip_ws s);
  mret (negb (at_ (skip_ws s) =? 0) && is_in toks (at_ (skip_ws s))).

Definition redir_mode (tok : Z) : Z := if tok =? LT then O_RDONLY else Z.lor O_WRONLY O_CREATE.
Definition redir_fd (tok : Z) : Z := if tok =? LT then 0 else 1.

Fixpoint parseredirs (fuel : nat) (c : cmd) : M nat cmd :=
  b ← peek [LT; GT];
  if (b : bool) then
    match fuel with
    | O => no_fuel
    | S fuel =>
        '(tok, _, _) ← gettoken;
        '(ret, q, eq) ← gettoken;
        if negb (ret =? TOK_WORD) then panic "missing file for redirection"
        else parseredirs fuel (REDIR c q eq (redir_mode tok) (redir_fd tok))
    end
  else mret c.

(** The loop of [parseexec]. *)
Fixpoint parseargs (fuel : nat) (argc : nat) (ret : cmd) : M nat cmd :=
  b ← peek [BAR; RPAR; AMP; SEMI];
  if (b : bool) then mret ret
  else
    '(tok, q, eq) ← gettoken;
    if tok =? 0 then mret ret
    else if negb (tok =? TOK_WORD) then panic "syntax"
    else
      let ret := put_arg ret q eq in
      if bool_decide (MAXARGS ≤ S argc)%nat then panic "too many args"
      else
        ret ← parseredirs es ret;
        match fuel with
        | O => no_fuel
        | S fuel => parseargs fuel (S argc) ret
        end.

(** [while(peek(ps, es, "&"))] *)
Fixpoint parseback (fuel : nat) (c : cmd) : M nat cmd :=
  b ← peek [AMP];
  if (b : bool) then
    match fuel with
    | O => no_fuel
    | S fuel => _ ← gettoken; parseback fuel (BACK c)
    end
  else mret c.

Fixpoint parseline (fuel : nat) : M nat cmd :=
  match fuel with
  | O => no_fuel
  | S fuel =>
      c ← parsepipe fuel;
      c ← parseback es c;
      b ← peek [SEMI];
      if (b : bool) then
        _ ← gettoken;
        r ← parseline fuel;
        mret (LIST c r)
      else mret c
  end
with parsepipe (fuel : nat) : M nat cmd :=
  match fuel with
  | O => no_fuel
  | S fuel =>
      c ← parseexec fuel;
      b ← peek [BAR];
      if (b : bool) then
        _ ← gettoken;
        r ← parsepipe fuel;
        mret (PIPE c r)
      else mret c
  end
with parseexec (fuel : nat) : M nat cmd :=
  match fuel with
  | O => no_fuel
  | S fuel =>
      b ← peek [LPAR];
      if (b : bool) then parseblock fuel
      else
        ret ← parseredirs es (EXEC []);
        parseargs es O ret
  end
with parseblock (fuel : nat) : M nat cmd :=
  match fuel with
  | O => no_fuel
  | S fuel =>
      b ← peek [LPAR];
      if negb b then panic "parseblock"
      else
        _ ← gettoken;
        c ← parseline fuel;
        b ← peek [RPAR];
        if negb b then panic "syntax - missing )"
        else
          _ ← gettoken;
          parseredirs es c
  end.

(** [nulterminate]: the buffer, with its terminating zero, after the writes. *)
Fixpoint nulterminate (c : cmd) (b : list Z) : list Z :=
  match c with
  | EXEC args => fold_left (λ b a, <[snd a := 0]> b) args b
  | REDIR c _ efile _ _ => <[efile := 0]> (nulterminate c b)
  | PIPE l r => nulterminate r (nulterminate l b)
  | LIST l r => nulterminate r (nulterminate l b)
  | BACK c => nulterminate c b
  end.

(** The command, and the buffer it points into. *)
Definition parsecmd : M nat (cmd * list Z) :=
  _ ← putS O;
  c ← parseline (4 * es + 4);
  _ ← peek [];
  s ← getS;
  if negb (bool_decide (s = es)) then panic "syntax"
  else mret (c, nulterminate c (buf ++ [0])).
End parser.

(** ** The grammar *)

(** A token: the character [gettoken] returns, [q] and [eq]. *)
Definition tok : Type := Z * nat * nat.
Definition kind (t : tok) : Z := fst (fst t).
Definition tq (t : tok) : nat := snd (fst t).
Definition teq (t : tok) : nat := snd t.

Definition redir_op (t : tok) : Prop := kind t = LT ∨ kind t = GT ∨ kind t = TOK_APPEND.
Definition word (t : tok) : Prop := kind t = TOK_WORD.
Definition redir (c : cmd) (op w : tok) : cmd := REDIR c (tq w) (teq w) (redir_mode (kind op)) (redir_fd (kind op)).

(** [c] followed by redirections. *)
Inductive redirected : cmd → list tok → cmd → Prop :=
| rd_nil c : redirected c [] c
| rd_cons c op w ts c' :
    redir_op op → word w → redirected (redir c op w) ts c' → redirected c (op :: w :: ts) c'.

(** A simple command: words and redirections in any order; [n] words so far. *)
Inductive simple : nat → cmd → list tok → cmd → Prop :=
| si_nil n c : simple n c [] c
| si_word n c w ts c' :
    word w → (S n < MAXARGS)%nat → simple (S n) (put_arg c (tq w) (teq w)) ts c' →
    simple n c (w :: ts) c'
| si_redir n c op w ts c' :
    redir_op op → word w → simple n (redir c op w) ts c' → simple n c (op :: w :: ts) c'.

Inductive line : list tok → cmd → Prop :=
| ln_end ts c n back : pipeline ts c → Forall (λ t, kind t = AMP) back → length back = n →
    line (ts ++ back) (Nat.iter n BACK c)
| ln_seq ts c n back semi ts' c' :
    pipeline ts c → Forall (λ t, kind t = AMP) back → length back = n →
    kind semi = SEMI → line ts' c' → line (ts ++ back ++ semi :: ts') (LIST (Nat.iter n BACK c) c')
with pipeline : list tok → cmd → Prop :=
| pl_one ts c : command ts c → pipeline ts c
| pl_more ts c bar ts' c' :
    command ts c → kind bar = BAR → pipeline ts' c' → pipeline (ts ++ bar :: ts') (PIPE c c')
with command : list tok → cmd → Prop :=
| cm_simple ts c : simple O (EXEC []) ts c → command ts c
| cm_block lp ts c rp rs c' :
    kind lp = LPAR → line ts c → kind rp = RPAR → redirected c rs c' →
    command (lp :: ts ++ rp :: rs) c'.

Scheme line_mut := Minimality for line Sort Prop
  with pipeline_mut := Minimality for pipeline Sort Prop
  with command_mut := Minimality for command Sort Prop.

(** The arguments and file names a command points to. *)
Fixpoint words (c : cmd) : list (nat * nat) :=
  match c with
  | EXEC args => args
  | REDIR c file efile _ _ => (file, efile) :: words c
  | PIPE l r => words l ++ words r
  | LIST l r => words l ++ words r
  | BACK c => words c
  end.

(** Every [EXEC] leaves room in [argv] for the null pointer. *)
Fixpoint args_fit (c : cmd) : Prop :=
  match c with
  | EXEC args => (length args < MAXARGS)%nat
  | REDIR c _ _ _ _ => args_fit c
  | PIPE l r => args_fit l ∧ args_fit r
  | LIST l r => args_fit l ∧ args_fit r
  | BACK c => args_fit c
  end.

Section facts.
Context (buf : list Z).
Hypothesis Hbuf : ∀ x, x ∈ buf → x ≠ 0.
Notation es := (es buf).
Notation at_ := (at_ buf).
Notation skip_ws := (skip_ws buf).
Notation token := (token buf).

(** Reading the tokens [ts] from offset [s] leads to [s']. *)
Fixpoint scan (s : nat) (ts : list tok) (s' : nat) : Prop :=
  match ts with
  | [] => skip_ws s = skip_ws s'
  | t :: ts => token (skip_ws s) = t ∧ kind t ≠ 0 ∧ scan (teq t) ts s'
  end.

Lemma skip_le p l : (skip p l ≤ length l)%nat.
Proof. induction l as [|x l IH]; cbn; [lia|]. destruct (p x); lia. Qed.

Lemma skip_stop p l : skip p (drop (skip p l) l) = O.
Proof. induction l as [|x l IH]; cbn; [done|]. destruct (p x) eqn:E; cbn; [done|by rewrite E]. Qed.

Lemma skip_all p l i x : (i < skip p l)%nat → l !! i = Some x → p x = true.
Proof.
  revert i. induction l as [|y l IH]; intros i; cbn; [lia|]. destruct (p y) eqn:E; [|lia].
  destruct i as [|i]; cbn; [by intros _ [= <-]|]. intros Hi. apply IH. lia.
Qed.

Lemma skip_end p l x : l !! skip p l = Some x → p x = false.
Proof. induction l as [|y l IH]; cbn; [done|]. destruct (p y) eqn:E; cbn; [done|by intros [= <-]]. Qed.

Lemma skip_ws_bounds s : (s ≤ es)%nat → (s ≤ skip_ws s ≤ es)%nat.
Proof.
  intros Hs. unfold Shell.skip_ws. pose proof (skip_le (is_in whitespace) (drop s buf)) as H.
  rewrite length_drop in H. unfold Shell.es in *. lia.
Qed.

Lemma skip_ws_idem s : skip_ws (skip_ws s) = skip_ws s.
Proof.
  unfold Shell.skip_ws at 1. set (k := skip_ws s). unfold k at 2. unfold Shell.skip_ws.
  rewrite <- drop_drop. rewrite skip_stop. lia.
Qed.

Lemma at_lookup s : (s < es)%nat → buf !! s = Some (at_ s) ∧ at_ s ≠ 0.
Proof.
  intros Hs. destruct (lookup_lt_is_Some_2 buf s Hs) as [x Hx]. unfold Shell.at_.
  rewrite (nth_lookup_Some _ _ _ _ Hx). split; [done|]. apply Hbuf. by eapply list_elem_of_lookup_2.
Qed.

Lemma at_end s : at_ s ≠ 0 → (s < es)%nat.
Proof.
  intros H. destruct (decide (s < es)%nat) as [|Hn]; [done|]. destruct H. unfold Shell.at_.
  apply nth_overflow. unfold Shell.es in Hn. lia.
Qed.

(** After [skip_ws] there is no white space. *)
Lemma skip_ws_char s : (s ≤ es)%nat → is_in whitespace (at_ (skip_ws s)) = false.
Proof.
  intros Hs. destruct (decide (skip_ws s < es)%nat) as [Hlt|Hn].
  - destruct (at_lookup _ Hlt) as [Hl _]. unfold Shell.skip_ws in Hl at 1. rewrite <- lookup_drop in Hl.
    by apply skip_end in Hl.
  - unfold Shell.at_. rewrite nth_overflow by (unfold Shell.es in Hn; lia). done.
Qed.

(** The bytes of a word, and what ends it. *)
Definition good_token (q eq : nat) : Prop :=
  (q < eq ≤ es)%nat ∧ (∀ i, (q ≤ i < eq)%nat → is_word (at_ i) = true) ∧
  (eq = es ∨ is_word (at_ eq) = false).

Lemma token_spec s : (s ≤ es)%nat → is_in whitespace (at_ s) = false →
  let t := token s in
  tq t = s ∧ (kind t = 0 → s = es ∧ teq t = s) ∧ (kind t ≠ 0 → (s < teq t ≤ es)%nat) ∧
  (kind t = TOK_WORD → good_token s (teq t)) ∧
  (∀ c, c ∈ [BAR; LPAR; RPAR; SEMI; AMP] → at_ s = c → kind t = c) ∧
  (at_ s = LT ∨ at_ s = GT → redir_op t).
Proof.
  intros Hs Hw. unfold Shell.token, kind, tq, teq, redir_op, kind.
  destruct (Z.eqb_spec (at_ s) 0) as [H0|H0]; cbn [fst snd].
  { assert (s = es).
    { destruct (decide (s < es)%nat) as [Hlt|]; [by destruct (at_lookup s Hlt)|lia]. }
    split; [done|]. split; [by intros _; split|]. split; [done|]. split; [done|].
    rewrite H0. split; [|intros [?|?]; discriminate]. intros c Hc <-. vm_compute in Hc. set_solver. }
  pose proof (at_end s H0) as Hlt. destruct (is_in [BAR; LPAR; RPAR; SEMI; AMP; LT] (at_ s)) eqn:Hsym; cbn [fst snd].
  { apply bool_decide_eq_true in Hsym.
    assert (Hc : at_ s ≠ TOK_WORD) by (intros E; rewrite E in Hsym; vm_compute in Hsym; set_solver).
    split; [done|]. split; [done|]. split; [lia|]. split; [done|]. split; [by intros c _ ->|].
    intros [?|E]; [by left|]. by right; left. }
  apply bool_decide_eq_false in Hsym. destruct (Z.eqb_spec (at_ s) GT) as [HG|HG].
  { assert (Hn : ∀ c, c ∈ [BAR; LPAR; RPAR; SEMI; AMP] → at_ s ≠ c).
    { intros c Hc E. rewrite HG in E. subst c. vm_compute in Hc. set_solver. }
    destruct (Z.eqb_spec (at_ (S s)) GT) as [HG2|HG2]; cbn [fst snd].
    - pose proof (at_end (S s) ltac:(by rewrite HG2)). split; [done|]. split; [done|]. split; [lia|].
      split; [done|]. split; [by intros c Hc E; destruct (Hn c Hc)|]. by right; right.
    - split; [done|]. split; [done|]. split; [lia|]. split; [done|].
      split; [by intros c Hc E; destruct (Hn c Hc)|]. by right; left. }
  assert (Hword : is_word (at_ s) = true).
  { unfold is_word. rewrite Hw. cbn [negb andb]. unfold is_in. rewrite bool_decide_false; [done|].
    unfold symbols. change 62 with GT. intros Hin. apply Hsym. clear -Hin HG. unfold BAR, LPAR, RPAR, SEMI, AMP, LT.
    set_solver. }
  cbn [fst snd]. set (k := skip is_word (drop s buf)).
  pose proof (skip_le is_word (drop s buf)) as Hk. rewrite length_drop in Hk. fold k in Hk.
  destruct (at_lookup s Hlt) as [Hl _].
  assert (Hk1 : (0 < k)%nat).
  { subst k. rewrite (drop_S _ _ _ Hl). cbn [skip]. rewrite Hword. lia. }
  split; [done|]. split; [done|]. split; [unfold Shell.es in *; lia|]. split; [|split].
  - intros _. split; [unfold Shell.es in *; lia|]. split.
    + intros i Hi. destruct (at_lookup i) as [Hli _]; [unfold Shell.es in *; lia|].
      apply (skip_all is_word (drop s buf) (i - s) (at_ i)); [fold k; lia|].
      rewrite lookup_drop. by replace (s + (i - s))%nat with i by lia.
    + destruct (decide (s + k < es)%nat) as [Hlt2|]; [right|left; unfold Shell.es in *; lia].
      destruct (at_lookup (s + k) Hlt2) as [Hle _]. apply (skip_end is_word (drop s buf)).
      fold k. by rewrite lookup_drop.
  - intros c Hc E. exfalso. apply Hsym. rewrite E. clear -Hc. set_solver.
  - intros [E|E]; [|done]. exfalso. apply Hsym. rewrite E. set_solver.
Qed.

(** ** The parser follows the grammar and stops *)

(** From offset [s], [m] returns something that satisfies [Q] or panics. *)
Definition run_ok {A} (m : M nat A) (s : nat) (Q : A → nat → Prop) : Prop :=
  match m s with Done (a, s') => Q a s' | Panicked _ => True | _ => False end.

Lemma run_ok_bind {A B} (m : M nat A) (k : A → M nat B) s R Q :
  run_ok m s R → (∀ a s', R a s' → run_ok (k a) s' Q) → run_ok (m ≫= k) s Q.
Proof.
  unfold run_ok. rewrite run_bind. destruct (m s) as [[a s']| | | |]; try done. intros H Hk. by apply Hk.
Qed.

Lemma run_ok_ret {A} (a : A) s (Q : A → nat → Prop) : Q a s → run_ok (mret a) s Q.
Proof. done. Qed.

Lemma scan_ws s1 s2 ts s' : skip_ws s1 = skip_ws s2 → scan s1 ts s' → scan s2 ts s'.
Proof. intros E. destruct ts as [|t ts]; cbn [scan]; by rewrite E. Qed.

Lemma scan_app s ts1 s1 ts2 s2 : scan s ts1 s1 → scan s1 ts2 s2 → scan s (ts1 ++ ts2) s2.
Proof.
  revert s. induction ts1 as [|t ts1 IH]; intros s; cbn [scan app].
  - intros E. apply scan_ws. by rewrite E.
  - intros (H1 & H2 & H3) H4. split; [done|]. split; [done|]. by apply IH.
Qed.

Lemma scan_one s t s' : token (skip_ws s) = t → kind t ≠ 0 → s' = skip_ws (teq t) → scan s [t] s'.
Proof. intros H1 H2 ->. cbn. by rewrite skip_ws_idem. Qed.

Lemma peek_ok toks s : (s ≤ es)%nat →
  run_ok (peek buf toks) s (λ b s', s' = skip_ws s ∧ (s ≤ s' ≤ es)%nat ∧
    (b = true → at_ s' ∈ toks ∧ at_ s' ≠ 0)).
Proof.
  intros Hs. unfold run_ok, peek. rewrite run_getS, run_bind. cbn [putS].
  change (match Done ((), ?x) with Done (a, s') => ?k | _ => _ end) with k. cbn.
  split; [done|]. split; [by apply skip_ws_bounds|]. rewrite andb_true_iff, negb_true_iff.
  intros [H0%Z.eqb_neq H1%bool_decide_eq_true]. done.
Qed.

Lemma gettoken_ok s : (s ≤ es)%nat →
  run_ok (gettoken buf) s (λ t s', token (skip_ws s) = t ∧ s' = skip_ws (teq t) ∧ (s ≤ s' ≤ es)%nat ∧
    (kind t ≠ 0 → (s < s')%nat)).
Proof.
  intros Hs. pose proof (skip_ws_bounds s Hs) as Hb.
  destruct (token_spec (skip_ws s) ltac:(lia) (skip_ws_char s Hs)) as (_ & H0 & H1 & _).
  unfold run_ok, gettoken. rewrite run_getS. destruct (token (skip_ws s)) as [[ret q] eq] eqn:E.
  cbn. unfold kind, teq in *. cbn in *. split; [done|]. split; [done|].
  destruct (decide (ret = 0)) as [Hz|Hz].
  - destruct (H0 Hz) as [He ->]. pose proof (skip_ws_bounds (skip_ws s) ltac:(lia)). split; [lia|done].
  - specialize (H1 Hz). pose proof (skip_ws_bounds eq ltac:(lia)). split; lia.
Qed.

(** A token whose character has been seen. *)
Lemma seen_ok c s : (s ≤ es)%nat → at_ (skip_ws s) = c → c ∈ [BAR; LPAR; RPAR; SEMI; AMP] →
  run_ok (gettoken buf) s (λ t s', kind t = c ∧ scan s [t] s' ∧ (s < s' ≤ es)%nat).
Proof.
  intros Hs Hc Hin. pose proof (gettoken_ok s Hs) as Hg. unfold run_ok in *.
  destruct (gettoken buf s) as [[t s']| | | |]; try done. destruct Hg as (Ht & Hs' & Hb & Hk).
  pose proof (skip_ws_bounds s Hs) as Hws.
  destruct (token_spec (skip_ws s) ltac:(lia) (skip_ws_char s Hs)) as (_ & _ & _ & _ & H5 & _).
  rewrite Ht in H5. specialize (H5 c Hin Hc).
  assert (kind t ≠ 0) by (rewrite H5; clear -Hin; intros ->; vm_compute in Hin; set_solver).
  split; [done|]. split; [by apply scan_one|]. specialize (Hk ltac:(done)). lia.
Qed.

Lemma parseredirs_ok fuel : ∀ c s, (s ≤ es)%nat → (es - s ≤ fuel)%nat →
  run_ok (parseredirs buf fuel c) s (λ c' s', (s ≤ s' ≤ es)%nat ∧ ∃ ts, scan s ts s' ∧ redirected c ts c').
Proof.
  induction fuel as [|fuel IH]; intros c s Hs Hf; cbn [parseredirs].
  all: apply (run_ok_bind _ _ _ _ _ (peek_ok [LT; GT] s Hs)); intros [|] s1 (-> & Hb & Hp);
    [|apply run_ok_ret; split; [done|]; exists []; cbn; rewrite skip_ws_idem; by split; [|constructor]].
  all: destruct (Hp eq_refl) as [Hin H0]; pose proof (at_end _ H0) as Hlt.
  { lia. }
  eapply run_ok_bind; [apply gettoken_ok; lia|]. intros [[tok1 q1] eq1] s2 (H1 & H2 & H3 & H4).
  rewrite skip_ws_idem in H1.
  destruct (token_spec (skip_ws s) ltac:(lia) (skip_ws_char s Hs)) as (_ & _ & _ & _ & _ & H6).
  rewrite H1 in H6. assert (Hop : redir_op (tok1, q1, eq1)) by (apply H6; clear -Hin; set_solver).
  assert (Hk : kind (tok1, q1, eq1) ≠ 0) by (destruct Hop as [->|[->| ->]]; done).
  specialize (H4 Hk).
  eapply run_ok_bind; [apply gettoken_ok; lia|]. intros [[tok2 q2] eq2] s3 (J1 & J2 & J3 & J4).
  destruct (Z.eqb_spec tok2 TOK_WORD) as [->|]; [|done]. cbn [negb].
  specialize (J4 ltac:(done)). pose proof (IH (REDIR c q2 eq2 (redir_mode tok1) (redir_fd tok1)) s3 ltac:(lia) ltac:(lia)) as IHs.
  unfold run_ok in *. destruct (parseredirs buf fuel _ s3) as [[c' s4]| | | |]; try done.
  destruct IHs as (Hb4 & ts & Hsc & Hr). split; [lia|].
  exists ((tok1, q1, eq1) :: (TOK_WORD, q2, eq2) :: ts). split; [|by constructor].
  cbn [scan]. split; [done|]. split; [done|]. subst s2 s3. unfold teq in *. cbn [snd] in *.
  rewrite skip_ws_idem in J1. split; [done|]. split; [done|].
  apply (scan_ws (skip_ws eq2)); [by rewrite skip_ws_idem|done].
Qed.

Lemma parseback_ok fuel : ∀ c s, (s ≤ es)%nat → (es - s ≤ fuel)%nat →
  run_ok (parseback buf fuel c) s (λ c' s', (s ≤ s' ≤ es)%nat ∧
    ∃ back, Forall (λ t, kind t = AMP) back ∧ scan s back s' ∧ c' = Nat.iter (length back) BACK c).
Proof.
  induction fuel as [|fuel IH]; intros c s Hs Hf; cbn [parseback].
  all: apply (run_ok_bind _ _ _ _ _ (peek_ok [AMP] s Hs)); intros [|] s1 (-> & Hb & Hp);
    [|apply run_ok_ret; split; [done|]; exists []; cbn; rewrite skip_ws_idem; by split; [constructor|]].
  all: destruct (Hp eq_refl) as [Hin H0]; pose proof (at_end _ H0) as Hlt.
  { lia. }
  apply list_elem_of_singleton in Hin.
  eapply run_ok_bind; [apply (seen_ok AMP); [lia|by rewrite skip_ws_idem|set_solver]|].
  intros t s2 (Hk & Hsc & Hb2). pose proof (IH (BACK c) s2 ltac:(lia) ltac:(lia)) as IHs.
  unfold run_ok in *. destruct (parseback buf fuel (BACK c) s2) as [[c' s3]| | | |]; try done.
  destruct IHs as (Hb3 & back & HF & Hsc' & ->). split; [lia|]. exists (t :: back).
  split; [by constructor|]. split; [|cbn; by rewrite Nat.iter_swap].
  apply (scan_ws (skip_ws s)); [apply skip_ws_idem|]. by apply (scan_app _ [t] s2).
Qed.

Lemma redirected_simple n c ts c1 ts2 c' :
  redirected c ts c1 → simple n c1 ts2 c' → simple n c (ts ++ ts2) c'.
Proof. intros H. induction H; [done|]. intros Hs. cbn. apply si_redir; auto. Qed.

Lemma parseargs_ok fuel : ∀ n c s, (s ≤ es)%nat → (es - s ≤ fuel)%nat →
  run_ok (parseargs buf fuel n c) s (λ c' s', (s ≤ s' ≤ es)%nat ∧ ∃ ts, scan s ts s' ∧ simple n c ts c').
Proof.
  induction fuel as [|fuel IH]; intros n c s Hs Hf; cbn [parseargs].
  all: apply (run_ok_bind _ _ _ _ _ (peek_ok [BAR; RPAR; AMP; SEMI] s Hs)); intros [|] s1 (-> & Hb & Hp);
    [apply run_ok_ret; split; [done|]; exists []; cbn; rewrite skip_ws_idem; by split; [|constructor]|].
  all: eapply run_ok_bind; [apply gettoken_ok; lia|]; intros [[ret q] eq] s2 (H1 & H2 & H3 & H4);
    rewrite skip_ws_idem in H1; destruct (Z.eqb_spec ret 0) as [->|Hr0].
  1,3: destruct (token_spec (skip_ws s) ltac:(lia) (skip_ws_char s Hs)) as (_ & H0 & _ & _);
    rewrite H1 in H0; destruct (H0 eq_refl) as [He Ht]; cbn in Ht; apply run_ok_ret; (split; [lia|]);
    exists []; split; [|apply si_nil]; change (skip_ws s = skip_ws s2); rewrite H2; unfold teq; cbn [snd];
    by rewrite Ht, !skip_ws_idem.
  all: destruct (Z.eqb_spec ret TOK_WORD) as [->|]; [|done]; cbn [negb]; case_bool_decide as Hm; [done|].
  all: specialize (H4 Hr0); eapply run_ok_bind; [apply parseredirs_ok; lia|]; intros c2 s3 (Hb3 & ts & Hsc & Hrd).
  { lia. }
  pose proof (IH (S n) c2 s3 ltac:(lia) ltac:(lia)) as IHs. unfold run_ok in *.
  destruct (parseargs buf fuel (S n) c2 s3) as [[c' s4]| | | |]; try done.
  destruct IHs as (Hb4 & ts' & Hsc' & Hsi). split; [lia|].
  exists ((TOK_WORD, q, eq) :: ts ++ ts'). split.
  - cbn [scan]. split; [done|]. split; [done|]. apply (scan_app _ ts s3); [|done].
    apply (scan_ws s2); [|done]. subst s2. apply skip_ws_idem.
  - constructor; [done|lia|]. by eapply redirected_simple.
Qed.

(** What the four parsing functions have in common. *)
Definition parses (m : M nat cmd) (s : nat) (G : list tok → cmd → Prop) : Prop :=
  run_ok m s (λ c s', (s ≤ s' ≤ es)%nat ∧ ∃ ts, scan s ts s' ∧ G ts c).

(** With this fuel, more than four steps for each byte left, every parsing
    function follows its rule of the grammar. *)
Definition enough (fuel : nat) : Prop := ∀ s, (s ≤ es)%nat →
  ((4 * (es - s) + 4 ≤ fuel)%nat → parses (parseline buf fuel) s line) ∧
  ((4 * (es - s) + 3 ≤ fuel)%nat → parses (parsepipe buf fuel) s pipeline) ∧
  ((4 * (es - s) + 2 ≤ fuel)%nat → parses (parseexec buf fuel) s command) ∧
  ((4 * (es - s) + 1 ≤ fuel)%nat → parses (parseblock buf fuel) s command).

Lemma parseline_ok fuel s : enough fuel → (s ≤ es)%nat → (4 * (es - s) + 4 ≤ S fuel)%nat →
  parses (parseline buf (S fuel)) s line.
Proof.
  intros IH Hs Hf. unfold parses. cbn [parseline].
  destruct (IH s Hs) as (_ & IHp & _ & _).
  eapply run_ok_bind; [apply IHp; lia|]. intros c s1 (Hb1 & ts1 & Hsc1 & Hpl).
  eapply run_ok_bind; [apply parseback_ok; lia|]. intros c2 s2 (Hb2 & back & Hbk & Hsc2 & ->).
  eapply run_ok_bind; [apply peek_ok; lia|]. intros [|] s3 (-> & Hb3 & Hp).
  - destruct (Hp eq_refl) as [Hin%list_elem_of_singleton _].
    eapply run_ok_bind; [apply (seen_ok SEMI); [lia|by rewrite skip_ws_idem|set_solver]|].
    intros t s4 (Hk & Hsc4 & Hb4). destruct (IH s4 ltac:(lia)) as (IHl & _).
    eapply run_ok_bind; [apply IHl; lia|]. intros c5 s5 (Hb5 & ts5 & Hsc5 & Hln).
    apply run_ok_ret. split; [lia|]. exists (ts1 ++ back ++ t :: ts5). split; [|by eapply ln_seq].
    apply (scan_app _ ts1 s1); [done|]. apply (scan_app _ back s2); [done|].
    apply (scan_ws (skip_ws s2)); [apply skip_ws_idem|]. by apply (scan_app _ [t] s4).
  - apply run_ok_ret. split; [lia|]. exists (ts1 ++ back). split; [|by eapply ln_end].
    apply (scan_app _ ts1 s1); [done|]. rewrite <- (app_nil_r back). apply (scan_app _ back s2); [done|].
    cbn. by rewrite skip_ws_idem.
Qed.

Lemma parsepipe_ok fuel s : enough fuel → (s ≤ es)%nat → (4 * (es - s) + 3 ≤ S fuel)%nat →
  parses (parsepipe buf (S fuel)) s pipeline.
Proof.
  intros IH Hs Hf. unfold parses. cbn [parsepipe].
  destruct (IH s Hs) as (_ & _ & IHe & _).
  eapply run_ok_bind; [apply IHe; lia|]. intros c s1 (Hb1 & ts1 & Hsc1 & Hcm).
  eapply run_ok_bind; [apply peek_ok; lia|]. intros [|] s3 (-> & Hb3 & Hp).
  - destruct (Hp eq_refl) as [Hin%list_elem_of_singleton _].
    eapply run_ok_bind; [apply (seen_ok BAR); [lia|by rewrite skip_ws_idem|set_solver]|].
    intros t s4 (Hk & Hsc4 & Hb4). destruct (IH s4 ltac:(lia)) as (_ & IHp & _).
    eapply run_ok_bind; [apply IHp; lia|]. intros c5 s5 (Hb5 & ts5 & Hsc5 & Hpl).
    apply run_ok_ret. split; [lia|]. exists (ts1 ++ t :: ts5). split; [|by apply pl_more].
    apply (scan_app _ ts1 s1); [done|].
    apply (scan_ws (skip_ws s1)); [apply skip_ws_idem|]. by apply (scan_app _ [t] s4).
  - apply run_ok_ret. split; [lia|]. exists ts1. split; [|by apply pl_one].
    rewrite <- (app_nil_r ts1). apply (scan_app _ ts1 s1); [done|]. cbn. by rewrite skip_ws_idem.
Qed.

Lemma parseexec_ok fuel s : enough fuel → (s ≤ es)%nat → (4 * (es - s) + 2 ≤ S fuel)%nat →
  parses (parseexec buf (S fuel)) s command.
Proof.
  intros IH Hs Hf. unfold parses. cbn [parseexec].
  eapply run_ok_bind; [apply peek_ok; lia|]. intros [|] s1 (-> & Hb1 & Hp).
  - destruct (IH (skip_ws s) ltac:(lia)) as (_ & _ & _ & IHb). specialize (IHb ltac:(lia)).
    unfold parses, run_ok in *. destruct (parseblock buf fuel (skip_ws s)) as [[c s2]| | | |]; try done.
    destruct IHb as (Hb2 & ts & Hsc & Hcm). split; [lia|]. exists ts. split; [|done].
    apply (scan_ws (skip_ws s)); [apply skip_ws_idem|done].
  - eapply run_ok_bind; [apply parseredirs_ok; lia|]. intros c2 s2 (Hb2 & ts2 & Hsc2 & Hrd).
    pose proof (parseargs_ok es 0 c2 s2 ltac:(lia) ltac:(lia)) as Ha. unfold run_ok in *.
    destruct (parseargs buf es 0 c2 s2) as [[c s3]| | | |]; try done.
    destruct Ha as (Hb3 & ts3 & Hsc3 & Hsi). split; [lia|]. exists (ts2 ++ ts3).
    split; [|apply cm_simple; by eapply redirected_simple].
    apply (scan_app _ ts2 s2); [|done]. apply (scan_ws (skip_ws s)); [apply skip_ws_idem|done].
Qed.

Lemma parseblock_ok fuel s : enough fuel → (s ≤ es)%nat → (4 * (es - s) + 1 ≤ S fuel)%nat →
  parses (parseblock buf (S fuel)) s command.
Proof.
  intros IH Hs Hf. unfold parses. cbn [parseblock].
  eapply run_ok_bind; [apply peek_ok; lia|]. intros [|] s1 (-> & Hb1 & Hp); [|done]. cbn [negb].
  destruct (Hp eq_refl) as [Hin%list_elem_of_singleton _].
  eapply run_ok_bind; [apply (seen_ok LPAR); [lia|by rewrite skip_ws_idem|set_solver]|].
  intros lp s2 (Hk & Hsc2 & Hb2). destruct (IH s2 ltac:(lia)) as (IHl & _).
  eapply run_ok_bind; [apply IHl; lia|]. intros c s3 (Hb3 & ts3 & Hsc3 & Hln).
  eapply run_ok_bind; [apply peek_ok; lia|]. intros [|] s4 (-> & Hb4 & Hp'); [|done]. cbn [negb].
  destruct (Hp' eq_refl) as [Hin'%list_elem_of_singleton _].
  eapply run_ok_bind; [apply (seen_ok RPAR); [lia|by rewrite skip_ws_idem|set_solver]|].
  intros rp s5 (Hk5 & Hsc5 & Hb5).
  pose proof (parseredirs_ok es c s5 ltac:(lia) ltac:(lia)) as Hr. unfold run_ok in *.
  destruct (parseredirs buf es c s5) as [[c' s6]| | | |]; try done.
  destruct Hr as (Hb6 & rs & Hsc6 & Hrd). split; [lia|]. exists (lp :: ts3 ++ rp :: rs).
  split; [|by eapply cm_block].
  apply (scan_ws (skip_ws s)); [apply skip_ws_idem|]. apply (scan_app _ [lp] s2); [done|].
  apply (scan_app _ ts3 s3); [done|].
  apply (scan_ws (skip_ws s3)); [apply skip_ws_idem|]. by apply (scan_app _ [rp] s5).
Qed.

Lemma parse_ok fuel : enough fuel.
Proof.
  induction fuel as [|fuel IH]; intros s Hs; [lia|].
  split; [|split; [|split]]; intros Hf;
    eauto using parseline_ok, parsepipe_ok, parseexec_ok, parseblock_ok.
Qed.

(** ** Every line of the grammar is parsed *)

(** The kind of the next token, and the character it starts with. *)
Definition next (s : nat) : Z := kind (token (skip_ws s)).
Definition lead (k : Z) : Z := if k =? TOK_APPEND then GT else k.

Lemma step_run {A B} (m : M nat A) (k : A → M nat B) s a s1 :
  m s = Done (a, s1) → (m ≫= k) s = k a s1.
Proof. intros H. by rewrite run_bind, H. Qed.

Lemma peek_run toks s : (s ≤ es)%nat → Forall (λ c, c ∈ symbols) toks →
  peek buf toks s = Done (bool_decide (lead (next s) ∈ toks), skip_ws s).
Proof.
  intros Hs Ht.
  change (peek buf toks s) with (Done (negb (at_ (skip_ws s) =? 0) && is_in toks (at_ (skip_ws s)), skip_ws s)).
  do 2 f_equal.
  rewrite Forall_forall in Ht. unfold next, lead, Shell.token, is_in, kind.
  set (c := at_ (skip_ws s)). pose proof (skip_ws_char s Hs) as Hw. fold c in Hw.
  destruct (Z.eqb_spec c 0) as [->|H0]; cbn [negb andb fst].
  { symmetry. apply bool_decide_false. intros H%Ht. clear -H. vm_compute in H. set_solver. }
  destruct (bool_decide (c ∈ [BAR; LPAR; RPAR; SEMI; AMP; LT])) eqn:E; cbn [fst].
  { apply bool_decide_eq_true in E. destruct (Z.eqb_spec c TOK_APPEND) as [Ec|]; [|done].
    rewrite Ec in E. clear -E. vm_compute in E. set_solver. }
  destruct (Z.eqb_spec c GT) as [->|Hg]; [by destruct (_ =? GT)|]. cbn [fst].
  apply bool_decide_eq_false in E. rewrite !bool_decide_false; [done| |].
  - intros H%Ht. clear -H. vm_compute in H. set_solver.
  - intros H%Ht. apply E. clear -H Hg. unfold symbols, GT, BAR, LPAR, RPAR, SEMI, AMP, LT in *. set_solver.
Qed.

Lemma peek_yes {B} toks (k : bool → M nat B) s : (s ≤ es)%nat → Forall (λ c, c ∈ symbols) toks →
  lead (next s) ∈ toks → (peek buf toks ≫= k) s = k true (skip_ws s).
Proof. intros Hs Ht Hn. by rewrite (step_run _ _ _ _ _ (peek_run toks s Hs Ht)), bool_decide_true. Qed.

Lemma peek_no {B} toks (k : bool → M nat B) s : (s ≤ es)%nat → Forall (λ c, c ∈ symbols) toks →
  lead (next s) ∉ toks → (peek buf toks ≫= k) s = k false (skip_ws s).
Proof. intros Hs Ht Hn. by rewrite (step_run _ _ _ _ _ (peek_run toks s Hs Ht)), bool_decide_false. Qed.

Lemma gettoken_run s : gettoken buf s = Done (token (skip_ws s), skip_ws (teq (token (skip_ws s)))).
Proof. unfold gettoken. rewrite run_getS. by destruct (token (skip_ws s)) as [[ret q] eq]. Qed.

Lemma gettoken_ws s : gettoken buf (skip_ws s) = gettoken buf s.
Proof. by rewrite !gettoken_run, skip_ws_idem. Qed.

(** The first token that is read, and where it leaves the offset. *)
Lemma scan_cons s t ts s' : (s ≤ es)%nat → scan s (t :: ts) s' →
  next s = kind t ∧ gettoken buf s = Done (t, skip_ws (teq t)) ∧ (s < skip_ws (teq t) ≤ es)%nat ∧
  scan (skip_ws (teq t)) ts s'.
Proof.
  intros Hs (Ht & Hk & Hsc). pose proof (skip_ws_bounds s Hs) as Hb.
  destruct (token_spec (skip_ws s) ltac:(lia) (skip_ws_char s Hs)) as (_ & _ & H1 & _).
  rewrite Ht in H1. specialize (H1 Hk). pose proof (skip_ws_bounds (teq t) ltac:(lia)).
  unfold next. rewrite gettoken_run, Ht. split; [done|]. split; [done|]. split; [lia|].
  apply (scan_ws (teq t)); [by rewrite skip_ws_idem|done].
Qed.

Lemma scan_split s ts1 ts2 s' : (s ≤ es)%nat → scan s (ts1 ++ ts2) s' →
  ∃ s1, (s ≤ s1 ≤ es)%nat ∧ scan s ts1 s1 ∧ scan s1 ts2 s'.
Proof.
  revert s. induction ts1 as [|t ts1 IH]; intros s Hs Hsc.
  { exists s. split; [lia|]. by split. }
  change ((t :: ts1) ++ ts2) with (t :: ts1 ++ ts2) in Hsc.
  destruct (scan_cons _ _ _ _ Hs Hsc) as (_ & _ & Hb & Hr). destruct Hsc as (H1 & H2 & _).
  destruct (IH (skip_ws (teq t)) ltac:(lia) Hr) as (s1 & Hb1 & Ha & Hc). exists s1. split; [lia|]. split; [|done].
  split; [done|]. split; [done|]. apply (scan_ws (skip_ws (teq t))); [apply skip_ws_idem|done].
Qed.

Lemma scan_le s ts s' : (s ≤ es)%nat → scan s ts s' → (skip_ws s' ≤ es)%nat.
Proof.
  revert s. induction ts as [|t ts IH]; intros s Hs Hsc.
  - cbn in Hsc. rewrite <- Hsc. by apply skip_ws_bounds.
  - destruct (scan_cons _ _ _ _ Hs Hsc) as (_ & _ & Hb & Hr). apply (IH (skip_ws (teq t))); [lia|done].
Qed.

Lemma scan_nil s s' : scan s [] s' → skip_ws s = skip_ws s' ∧ next s = next s'.
Proof. cbn. intros E. unfold next. by rewrite E. Qed.

(** Offsets that differ by white space. *)
Lemma next_ws s : next (skip_ws s) = next s.
Proof. unfold next. by rewrite skip_ws_idem. Qed.

Lemma redir_op_lead t : redir_op t → lead (kind t) ∈ [LT; GT].
Proof. intros [->|[->| ->]]; vm_compute; set_solver. Qed.

(** One redirection is read. *)
Lemma parseredirs_more c op w ts s s' fuel : (s ≤ es)%nat → redir_op op → word w →
  scan s (op :: w :: ts) s' →
  parseredirs buf (S fuel) c s = parseredirs buf fuel (redir c op w) (skip_ws (teq w)).
Proof.
  intros Hs Hop Hw Hsc. destruct (scan_cons _ _ _ _ Hs Hsc) as (Hk & Hg & Hb & Hsc2).
  destruct (scan_cons (skip_ws (teq op)) _ _ _ ltac:(lia) Hsc2) as (_ & Hg2 & Hb2 & Hsc3).
  cbn [parseredirs].
  rewrite peek_yes; [|done|repeat constructor; set_solver|rewrite Hk; by apply redir_op_lead].
  erewrite step_run; [|rewrite gettoken_ws; exact Hg].
  destruct op as [[k1 q1] e1], w as [[k2 q2] e2]. erewrite step_run by exact Hg2.
  unfold word, kind in Hw. cbn in Hw. by subst k2.
Qed.

Lemma parseredirs_run c ts c' : redirected c ts c' → ∀ s s' fuel, (s ≤ es)%nat → (es - s ≤ fuel)%nat →
  scan s ts s' → lead (next s') ∉ [LT; GT] → parseredirs buf fuel c s = Done (c', skip_ws s').
Proof.
  induction 1 as [c|c op w ts c' Hop Hw Hr IH]; intros s s' fuel Hs Hf Hsc Hn.
  - destruct (scan_nil _ _ Hsc) as [E En]. rewrite <- En in Hn.
    destruct fuel as [|fuel]; cbn [parseredirs];
      (rewrite peek_no; [|done|repeat constructor; set_solver|done]); by rewrite E.
  - destruct (scan_cons _ _ _ _ Hs Hsc) as (Hk & Hg & Hb & Hsc2).
    destruct (scan_cons (skip_ws (teq op)) _ _ _ ltac:(lia) Hsc2) as (_ & Hg2 & Hb2 & Hsc3).
    destruct fuel as [|fuel]; [lia|]. erewrite parseredirs_more by done.
    apply (IH (skip_ws (teq w))); [lia|lia|done|done].
Qed.

Lemma parseback_run back : Forall (λ t, kind t = AMP) back → ∀ c s s' fuel, (s ≤ es)%nat →
  (es - s ≤ fuel)%nat → scan s back s' → lead (next s') ∉ [AMP] →
  parseback buf fuel c s = Done (Nat.iter (length back) BACK c, skip_ws s').
Proof.
  induction 1 as [|t back Ht HF IH]; intros c s s' fuel Hs Hf Hsc Hn.
  - destruct (scan_nil _ _ Hsc) as [E En]. rewrite <- En in Hn.
    destruct fuel as [|fuel]; cbn [parseback];
      (rewrite peek_no; [|done|repeat constructor; set_solver|done]); by rewrite E.
  - destruct (scan_cons _ _ _ _ Hs Hsc) as (Hk & Hg & Hb & Hsc2).
    destruct fuel as [|fuel]; [lia|]. cbn [parseback].
    rewrite peek_yes; [|done|repeat constructor; set_solver|rewrite Hk, Ht; by apply (bool_decide_unpack _)].
    erewrite step_run; [|rewrite gettoken_ws; exact Hg].
    erewrite IH; [|lia|lia|exact Hsc2|done]. cbn [length Nat.iter]. by rewrite Nat.iter_swap.
Qed.

(** The tokens that may follow a command, a pipeline and a line. *)
Definition after_command (s : nat) : Prop := next s ∈ [0; BAR; RPAR; AMP; SEMI].
Definition after_pipeline (s : nat) : Prop := next s ∈ [0; RPAR; AMP; SEMI].
Definition after_line (s : nat) : Prop := next s ∈ [0; RPAR].

(** Decides what follows from [H : k ∈ ks] for the constants [ks]. *)
Ltac kinds H :=
  unfold after_command, after_pipeline, after_line in *;
  repeat (apply elem_of_cons in H as [H|H]; [rewrite H; by apply (bool_decide_unpack _)|]);
  by apply elem_of_nil in H.

Lemma after_command_redir s : after_command s → lead (next s) ∉ [LT; GT].
Proof. intros H. by kinds H. Qed.

(** How a simple command can start. *)
Lemma simple_first n c ts c' s s' : simple n c ts c' → (s ≤ es)%nat → scan s ts s' → after_command s' →
  lead (next s) ∉ [LPAR].
Proof.
  intros Hsi Hs Hsc Ha. destruct Hsi as [|n c w ts c' Hw _ _|n c op w ts c' Hop _ _].
  - destruct (scan_nil _ _ Hsc) as [_ ->]. by kinds Ha.
  - destruct (scan_cons _ _ _ _ Hs Hsc) as (-> & _). rewrite Hw. by apply (bool_decide_unpack _).
  - destruct (scan_cons _ _ _ _ Hs Hsc) as (-> & _). destruct Hop as [->|[->| ->]]; by apply (bool_decide_unpack _).
Qed.

Lemma parseargs_stop fuel n c s : (s ≤ es)%nat → after_command s →
  parseargs buf fuel n c (skip_ws s) = Done (c, skip_ws s).
Proof.
  intros Hs Ha. pose proof (skip_ws_bounds s Hs) as Hb. unfold after_command in Ha.
  apply elem_of_cons in Ha as [Ha|Ha].
  - destruct (token_spec (skip_ws s) ltac:(lia) (skip_ws_char s Hs)) as (_ & H0 & _).
    destruct (H0 Ha) as [_ Ht]. unfold next in Ha.
    destruct fuel; cbn [parseargs];
      (rewrite peek_no; [|lia|repeat constructor; set_solver|unfold next; rewrite skip_ws_idem, Ha;
        by apply (bool_decide_unpack _)]);
      (erewrite step_run; [|apply gettoken_run]); rewrite !skip_ws_idem; revert Ha Ht;
      destruct (token (skip_ws s)) as [[k q] e]; unfold kind, teq; cbn [fst snd]; intros -> ->;
      by rewrite skip_ws_idem.
  - destruct fuel; cbn [parseargs]; rewrite peek_yes, skip_ws_idem by
      (first [lia|repeat constructor; set_solver|rewrite next_ws; kinds Ha]); done.
Qed.

(** Redirections, then the loop of [parseexec]. *)
Lemma parseargs_run n c ts c' : simple n c ts c' → ∀ s s' f1 f2, (s ≤ es)%nat → (es - s ≤ f1)%nat →
  (es - s ≤ f2)%nat → scan s ts s' → after_command s' →
  (parseredirs buf f1 c ≫= parseargs buf f2 n) s = Done (c', skip_ws s').
Proof.
  induction 1 as [n c|n c w ts c' Hw Hm Hsi IH|n c op w ts c' Hop Hw Hsi IH];
    intros s s' f1 f2 Hs Hf1 Hf2 Hsc Ha.
  - erewrite step_run by (apply (parseredirs_run c [] c (rd_nil c) s s'); auto using after_command_redir).
    destruct (scan_nil _ _ Hsc) as [E En]. rewrite <- E. apply parseargs_stop; [done|]. unfold after_command. by rewrite En.
  - destruct (scan_cons _ _ _ _ Hs Hsc) as (Hk & Hg & Hb & Hsc2). pose proof (skip_ws_bounds s Hs) as Hws.
    erewrite step_run; [|apply (parseredirs_run c [] c (rd_nil c) s s); try done].
    2: { rewrite Hk, Hw. by apply (bool_decide_unpack _). }
    destruct f2 as [|f2]; [lia|]. cbn [parseargs].
    rewrite peek_no; [|lia|repeat constructor; set_solver|rewrite next_ws, Hk, Hw; by apply (bool_decide_unpack _)].
    erewrite step_run; [|rewrite !gettoken_ws; exact Hg].
    destruct w as [[k q] e]. unfold word, kind in Hw. cbn in Hw. subst k. cbn [negb Z.eqb Pos.eqb TOK_WORD].
    rewrite bool_decide_false by lia. apply (IH (skip_ws (teq (TOK_WORD, q, e)))); [lia..|done|done].
  - destruct (scan_cons _ _ _ _ Hs Hsc) as (Hk & Hg & Hb & Hsc2).
    destruct (scan_cons (skip_ws (teq op)) _ _ _ ltac:(lia) Hsc2) as (_ & Hg2 & Hb2 & Hsc3).
    destruct f1 as [|f1]; [lia|]. rewrite run_bind. erewrite parseredirs_more by done.
    rewrite <- run_bind. apply (IH (skip_ws (teq w))); [lia..|done|done].
Qed.

(** What the four parsing functions do on the tokens of their rule. *)
Definition parsed (p : list Z → nat → M nat cmd) (k : nat) (follow : nat → Prop) (ts : list tok) (c : cmd) : Prop :=
  ∀ s s' fuel, (s ≤ es)%nat → (4 * (es - s) + k ≤ fuel)%nat → scan s ts s' → follow s' →
  p buf fuel s = Done (c, skip_ws s').

Lemma parseexec_simple ts c : simple O (EXEC []) ts c → parsed parseexec 2 after_command ts c.
Proof.
  intros Hsi s s' fuel Hs Hf Hsc Ha. destruct fuel as [|fuel]; [lia|]. cbn [parseexec].
  pose proof (skip_ws_bounds s Hs) as Hb.
  rewrite peek_no; [|done|repeat constructor; set_solver|by eapply simple_first].
  eapply parseargs_run; [exact Hsi|lia..| |done]. apply (scan_ws s); [by rewrite skip_ws_idem|done].
Qed.

Lemma parseexec_block lp ts c rp rs c' : kind lp = LPAR → kind rp = RPAR → redirected c rs c' →
  parsed parseline 4 after_line ts c → parsed parseexec 2 after_command (lp :: ts ++ rp :: rs) c'.
Proof.
  intros Hl Hr Hrd IH s s' fuel Hs Hf Hsc Ha. pose proof (skip_ws_bounds s Hs) as Hb.
  destruct (scan_cons _ _ _ _ Hs Hsc) as (Hk & Hg & Hb1 & Hsc1).
  destruct (scan_split (skip_ws (teq lp)) ts (rp :: rs) s' ltac:(lia) Hsc1) as (s2 & Hb2 & Hsc2 & Hsc3).
  destruct (scan_cons s2 _ _ _ ltac:(lia) Hsc3) as (Hk3 & Hg3 & Hb3 & Hsc4).
  destruct fuel as [|[|fuel]]; [lia..|]. cbn [parseexec].
  assert (Hlp : ∀ s0, next s0 = LPAR → lead (next s0) ∈ [LPAR]) by (intros s0 ->; by apply (bool_decide_unpack _)).
  rewrite peek_yes; [|done|repeat constructor; set_solver|apply Hlp; by rewrite Hk]. cbn [parseblock].
  rewrite peek_yes; [|lia|repeat constructor; set_solver|apply Hlp; by rewrite next_ws, Hk]. cbn [negb].
  erewrite step_run; [|rewrite !gettoken_ws; exact Hg].
  erewrite step_run; [|apply (IH _ s2); [lia|lia|exact Hsc2|]].
  2: { unfold after_line. rewrite Hk3, Hr. by apply (bool_decide_unpack _). }
  pose proof (skip_ws_bounds s2 ltac:(lia)).
  rewrite peek_yes; [|lia|repeat constructor; set_solver|rewrite next_ws, Hk3, Hr; by apply (bool_decide_unpack _)].
  cbn [negb]. erewrite step_run; [|rewrite !gettoken_ws; exact Hg3].
  eapply parseredirs_run; [exact Hrd|lia|lia|exact Hsc4|by apply after_command_redir].
Qed.

Lemma parsepipe_one ts c : parsed parseexec 2 after_command ts c → parsed parsepipe 3 after_pipeline ts c.
Proof.
  intros IH s s' fuel Hs Hf Hsc Ha. destruct fuel as [|fuel]; [lia|]. cbn [parsepipe].
  erewrite step_run; [|apply (IH _ s'); [done|lia|exact Hsc|by kinds Ha]].
  rewrite peek_no; [by rewrite skip_ws_idem|by eapply scan_le|repeat constructor; set_solver|].
  rewrite next_ws. by kinds Ha.
Qed.

Lemma parsepipe_more ts c bar ts' c' : kind bar = BAR → parsed parseexec 2 after_command ts c →
  parsed parsepipe 3 after_pipeline ts' c' → parsed parsepipe 3 after_pipeline (ts ++ bar :: ts') (PIPE c c').
Proof.
  intros Hbar IH IH' s s' fuel Hs Hf Hsc Ha. destruct fuel as [|fuel]; [lia|]. cbn [parsepipe].
  destruct (scan_split _ _ _ _ Hs Hsc) as (s1 & Hb1 & Hsc1 & Hsc2).
  destruct (scan_cons s1 _ _ _ ltac:(lia) Hsc2) as (Hk & Hg & Hb2 & Hsc3).
  erewrite step_run; [|apply (IH _ s1); [done|lia|exact Hsc1|]].
  2: { unfold after_command. rewrite Hk, Hbar. by apply (bool_decide_unpack _). }
  pose proof (skip_ws_bounds s1 ltac:(lia)).
  rewrite peek_yes; [|lia|repeat constructor; set_solver|rewrite next_ws, Hk, Hbar; by apply (bool_decide_unpack _)].
  erewrite step_run; [|rewrite !gettoken_ws; exact Hg].
  erewrite step_run; [|apply (IH' _ s'); [lia|lia|exact Hsc3|done]]. done.
Qed.

(** A pipeline and its ampersands. *)
Lemma parseline_back ts c back s s' fuel {B} (k : cmd → M nat B) :
  parsed parsepipe 3 after_pipeline ts c → Forall (λ t, kind t = AMP) back → (s ≤ es)%nat →
  (4 * (es - s) + 3 ≤ fuel)%nat → scan s (ts ++ back) s' → next s' ∈ [0; RPAR; SEMI] →
  (parsepipe buf fuel ≫= λ c, parseback buf es c ≫= k) s = k (Nat.iter (length back) BACK c) (skip_ws s').
Proof.
  intros IH HF Hs Hf Hsc Hn. destruct (scan_split _ _ _ _ Hs Hsc) as (s1 & Hb1 & Hsc1 & Hsc2).
  pose proof (skip_ws_bounds s1 ltac:(lia)).
  erewrite step_run; [|apply (IH _ s1); [done|lia|exact Hsc1|]].
  2: { unfold after_pipeline. destruct HF as [|t back Ht _].
       - destruct (scan_nil _ _ Hsc2) as [_ ->]. by kinds Hn.
       - destruct (scan_cons s1 _ _ _ ltac:(lia) Hsc2) as (-> & _). rewrite Ht. by apply (bool_decide_unpack _). }
  erewrite step_run; [done|]. apply (parseback_run _ HF); [lia|lia| |by kinds Hn].
  apply (scan_ws s1); [by rewrite skip_ws_idem|done].
Qed.

Lemma parseline_end ts c back : parsed parsepipe 3 after_pipeline ts c → Forall (λ t, kind t = AMP) back →
  parsed parseline 4 after_line (ts ++ back) (Nat.iter (length back) BACK c).
Proof.
  intros IH HF s s' fuel Hs Hf Hsc Ha. destruct fuel as [|fuel]; [lia|]. cbn [parseline].
  erewrite parseline_back; [|exact IH|exact HF|done|lia|exact Hsc|by kinds Ha].
  rewrite peek_no; [by rewrite skip_ws_idem|by eapply scan_le|repeat constructor; set_solver|].
  rewrite next_ws. by kinds Ha.
Qed.

Lemma parseline_seq ts c back semi ts' c' :
  parsed parsepipe 3 after_pipeline ts c → Forall (λ t, kind t = AMP) back → kind semi = SEMI →
  parsed parseline 4 after_line ts' c' →
  parsed parseline 4 after_line (ts ++ back ++ semi :: ts') (LIST (Nat.iter (length back) BACK c) c').
Proof.
  intros IH HF Hsemi IH' s s' fuel Hs Hf Hsc Ha. destruct fuel as [|fuel]; [lia|]. cbn [parseline].
  rewrite (assoc_L (++)) in Hsc. destruct (scan_split _ _ _ _ Hs Hsc) as (s1 & Hb1 & Hsc1 & Hsc2).
  destruct (scan_cons s1 _ _ _ ltac:(lia) Hsc2) as (Hk & Hg & Hb2 & Hsc3).
  erewrite parseline_back; [|exact IH|exact HF|done|lia|exact Hsc1|].
  2: { rewrite Hk, Hsemi. by apply (bool_decide_unpack _). }
  pose proof (skip_ws_bounds s1 ltac:(lia)).
  rewrite peek_yes; [|lia|repeat constructor; set_solver|rewrite next_ws, Hk, Hsemi; by apply (bool_decide_unpack _)].
  erewrite step_run; [|rewrite !gettoken_ws; exact Hg].
  erewrite step_run; [|apply (IH' _ s'); [lia|lia|exact Hsc3|done]]. done.
Qed.

Lemma line_parsed ts c : line ts c → parsed parseline 4 after_line ts c.
Proof.
  intros H. induction H using line_mut with
    (P0 := parsed parsepipe 3 after_pipeline) (P1 := parsed parseexec 2 after_command); subst;
    eauto using parseline_end, parseline_seq, parsepipe_one, parsepipe_more, parseexec_simple, parseexec_block.
Qed.

(** ** The strings of the command *)

Lemma scan_words s ts s' t : (s ≤ es)%nat → scan s ts s' → t ∈ ts → word t → good_token (tq t) (teq t).
Proof.
  revert s. induction ts as [|t' ts IH]; intros s Hs Hsc Hin Hw; [by apply elem_of_nil in Hin|].
  pose proof (skip_ws_bounds s Hs). destruct (scan_cons _ _ _ _ Hs Hsc) as (_ & _ & Hb & Hr).
  apply elem_of_cons in Hin as [<-|Hin]; [|apply (IH (skip_ws (teq t'))); [lia|done..]].
  destruct Hsc as [Ht _].
  destruct (token_spec (skip_ws s) ltac:(lia) (skip_ws_char s Hs)) as (Hq & _ & _ & Hg & _).
  rewrite Ht in Hq, Hg. rewrite Hq. by apply Hg.
Qed.

(** Writes at the ends of words leave every word as it is and end it. *)
Lemma ends_keep ws q eq i : Forall (λ w, good_token (fst w) (snd w)) ws → good_token q eq → (q ≤ i < eq)%nat →
  i ∉ (snd <$> ws).
Proof.
  intros Hws (Hb & Hin & _) Hi. rewrite list_elem_of_fmap. intros (w & -> & Hw).
  rewrite Forall_forall in Hws. destruct (Hws w Hw) as (Hb' & _ & [He|He]); [lia|].
  by rewrite (Hin (snd w) Hi) in He.
Qed.
End facts.

(** [nulterminate] writes zeros at the ends of the words, and only there. *)
Lemma nulterminate_length c : ∀ b, length (nulterminate c b) = length b.
Proof.
  induction c as [args|c IH f e m fd|l IHl r IHr|l IHl r IHr|c IH]; intros b; cbn;
    [|by rewrite length_insert, IH|by rewrite IHr, IHl|by rewrite IHr, IHl|done].
  revert b. induction args as [|a args IH]; intros b; cbn; [done|]. by rewrite IH, length_insert.
Qed.

Lemma nulterminate_lookup c : ∀ b i, (i < length b)%nat →
  nulterminate c b !! i = if bool_decide (i ∈ snd <$> words c) then Some 0 else b !! i.
Proof.
  assert (Hins : ∀ (b : list Z) e i, (i < length b)%nat → <[e := 0]> b !! i = if bool_decide (i = e) then Some 0 else b !! i).
  { intros b e i Hi. case_bool_decide as E; [subst; by apply list_lookup_insert_eq|by rewrite list_lookup_insert_ne]. }
  induction c as [args|c IH f e m fd|l IHl r IHr|l IHl r IHr|c IH]; intros b i Hi; cbn [nulterminate words].
  - revert b Hi. induction args as [|a args IH]; intros b Hi; cbn [fold_left]; [done|].
    rewrite IH by (by rewrite length_insert). rewrite Hins by done. rewrite fmap_cons.
    repeat case_bool_decide; set_solver.
  - rewrite Hins by (by rewrite nulterminate_length). rewrite IH by done. rewrite fmap_cons.
    repeat case_bool_decide; set_solver.
  - rewrite IHr, IHl by (by rewrite ?nulterminate_length). rewrite fmap_app. repeat case_bool_decide; set_solver.
  - rewrite IHr, IHl by (by rewrite ?nulterminate_length). rewrite fmap_app. repeat case_bool_decide; set_solver.
  - by apply IH.
Qed.

(** ** What the grammar builds *)

(** The words of [c] are words of [ts]. *)
Definition from (ts : list tok) (c : cmd) : Prop :=
  ∀ w, w ∈ words c → ∃ t, t ∈ ts ∧ word t ∧ w = (tq t, teq t).

(** The number of arguments of the [EXEC] under redirections. *)
Fixpoint argc (c : cmd) : option nat :=
  match c with
  | EXEC args => Some (length args)
  | REDIR c _ _ _ _ => argc c
  | _ => None
  end.

Lemma words_put_arg c n q e : argc c = Some n → ∀ w, w ∈ words (put_arg c q e) → w = (q, e) ∨ w ∈ words c.
Proof. induction c; cbn; try done; intros Hn w; set_solver. Qed.

Lemma argc_put_arg c n q e : argc c = Some n → argc (put_arg c q e) = Some (S n).
Proof. induction c; cbn; try done; auto. intros [= <-]. rewrite length_app. cbn. f_equal. lia. Qed.

Lemma argc_fits c n : argc c = Some n → (n < MAXARGS)%nat → args_fit c.
Proof. induction c; cbn; try done; auto. by intros [= <-]. Qed.

Lemma redirected_words c ts c' : redirected c ts c' →
  (args_fit c → args_fit c') ∧ ∀ pre, from pre c → from (pre ++ ts) c'.
Proof.
  induction 1 as [c|c op w ts c' _ Hw _ [IH1 IH2]]; split; auto.
  { intros pre. by rewrite app_nil_r. }
  intros pre Hp. specialize (IH2 (pre ++ [op; w])). rewrite <- (assoc_L (++)) in IH2. apply IH2.
  intros x [->|Hx]%elem_of_cons; [exists w; set_solver|]. destruct (Hp x Hx) as (t & ? & ?). set_solver.
Qed.

Lemma simple_words n c ts c' : simple n c ts c' → argc c = Some n → (n < MAXARGS)%nat →
  args_fit c' ∧ ∀ pre, from pre c → from (pre ++ ts) c'.
Proof.
  induction 1 as [n c|n c w ts c' Hw Hm _ IH|n c op w ts c' _ Hw _ IH]; intros Hn Hlt.
  - split; [by eapply argc_fits|]. intros pre. by rewrite app_nil_r.
  - destruct (IH (argc_put_arg _ _ _ _ Hn) Hm) as [IH1 IH2]. split; [done|]. intros pre Hp.
    specialize (IH2 (pre ++ [w])). rewrite <- (assoc_L (++)) in IH2. apply IH2.
    intros x [->|Hx]%(words_put_arg _ _ _ _ Hn); [exists w; set_solver|]. destruct (Hp x Hx) as (t & ? & ?). set_solver.
  - destruct (IH Hn Hlt) as [IH1 IH2]. split; [done|]. intros pre Hp.
    specialize (IH2 (pre ++ [op; w])). rewrite <- (assoc_L (++)) in IH2. apply IH2.
    intros x [->|Hx]%elem_of_cons; [exists w; set_solver|]. destruct (Hp x Hx) as (t & ? & ?). set_solver.
Qed.

Lemma from_app ts ts' l r : from ts l → from ts' r → ∀ mid w, w ∈ words l ++ words r →
  ∃ t, t ∈ ts ++ mid ++ ts' ∧ word t ∧ w = (tq t, teq t).
Proof. intros H H' mid w [Hw|Hw]%elem_of_app; [destruct (H w Hw) as (t & ? & ?)|destruct (H' w Hw) as (t & ? & ?)]; exists t; set_solver. Qed.

Lemma from_weaken ts ts' c : from ts c → ts ⊆ ts' → from ts' c.
Proof. intros H Hs w Hw. destruct (H w Hw) as (t & ? & ?). exists t. set_solver. Qed.

Lemma back_words n c : words (Nat.iter n BACK c) = words c ∧ (args_fit c → args_fit (Nat.iter n BACK c)).
Proof. induction n as [|n [IH1 IH2]]; cbn; auto. Qed.

Lemma line_words ts c : line ts c → args_fit c ∧ from ts c.
Proof.
  intros H. induction H as [ts c n back _ [IH1 IH2] _ _|ts c n back semi ts' c' _ [IH1 IH2] _ _ _ _ [IH3 IH4]
    |ts c _ IH|ts c bar ts' c' _ [IH1 IH2] _ _ [IH3 IH4]|ts c Hsi|lp ts c rp rs c' _ _ [IH1 IH2] _ Hrd] using line_mut
    with (P0 := λ ts c, args_fit c ∧ from ts c) (P1 := λ ts c, args_fit c ∧ from ts c).
  - destruct (back_words n c) as [Hw Ha]. split; [auto|]. unfold from. rewrite Hw.
    apply (from_weaken ts); [done|set_solver].
  - destruct (back_words n c) as [Hw Ha]. split; [by split; [apply Ha|]|]. unfold from. cbn [words]. rewrite Hw.
    pose proof (from_app _ _ _ _ IH2 IH4 (back ++ [semi])) as Hf. by rewrite <- (assoc_L (++)) in Hf.
  - done.
  - split; [done|]. exact (from_app _ _ _ _ IH2 IH4 [bar]).
  - destruct (simple_words _ _ _ _ Hsi eq_refl) as [H1 H2]; [unfold MAXARGS; lia|]. split; [done|].
    apply (H2 []). intros w Hw. by apply elem_of_nil in Hw.
  - destruct (redirected_words _ _ _ Hrd) as [H1 H2]. split; [auto|].
    apply (from_weaken (ts ++ rs)); [by apply H2|set_solver].
Qed.

(** ** The parser *)

Section parsecmd.
Context (buf : list Z).
Hypothesis Hbuf : ∀ x, x ∈ buf → x ≠ 0.

Lemma skip_ws_es : skip_ws buf (es buf) = es buf.
Proof. pose proof (skip_ws_bounds buf (es buf) ltac:(lia)). lia. Qed.

Lemma parsecmd_sound s : run_ok (parsecmd buf) s (λ r s', s' = es buf ∧
  (∃ ts, scan buf 0 ts (es buf) ∧ line ts (fst r)) ∧ snd r = nulterminate (fst r) (buf ++ [0])).
Proof.
  unfold parsecmd. apply (run_ok_bind _ _ _ (λ _ s', s' = O)); [done|]. intros _ ? ->.
  eapply run_ok_bind; [apply (parse_ok buf Hbuf (4 * es buf + 4)%nat O); lia|]. intros c s1 (Hb & ts & Hsc & Hl).
  eapply run_ok_bind; [apply peek_ok; lia|]. intros _ s2 (-> & Hb2 & _).
  unfold run_ok. rewrite run_getS. case_bool_decide as E; [|done]. cbn. split; [done|]. split; [|done].
  exists ts. split; [|done]. rewrite <- (app_nil_r ts). apply (scan_app buf _ ts s1); [done|].
  cbn. by rewrite skip_ws_es.
Qed.

Lemma parsecmd_complete s ts c : scan buf 0 ts (es buf) → line ts c →
  parsecmd buf s = Done ((c, nulterminate c (buf ++ [0])), es buf).
Proof.
  intros Hsc Hl. unfold parsecmd. rewrite (step_run _ _ s () O) by done.
  assert (Hz : next buf (es buf) = 0).
  { unfold next. rewrite skip_ws_es. unfold token, at_, es. by rewrite nth_overflow. }
  erewrite step_run; [|apply (line_parsed buf Hbuf ts c Hl O (es buf)); [lia|lia|done|]].
  2: { unfold after_line. rewrite Hz. by apply (bool_decide_unpack _). }
  rewrite skip_ws_es. rewrite (step_run _ _ _ _ _ (peek_run buf Hbuf [] (es buf) ltac:(lia) ltac:(done))).
  rewrite run_getS, skip_ws_es. by rewrite bool_decide_true.
Qed.
End parsecmd.

(** C5: the parser accepts exactly the grammar.  A command line is parsed into
    [c] if and only if its bytes, cut into tokens, are a line of the grammar
    with the tree [c]; every other line makes it panic, and it always stops:
    more than four levels of calls for each byte are never needed. *)
Theorem parsecmd_decides buf s : (∀ x, x ∈ buf → x ≠ 0) →
  match parsecmd buf s with
  | Done (c, b, s') => s' = es buf ∧ ∃ ts, scan buf 0 ts (es buf) ∧ line ts c
  | Panicked _ => ∀ ts c, scan buf 0 ts (es buf) → ¬ line ts c
  | _ => False
  end.
Proof.
  intros Hbuf. pose proof (parsecmd_sound buf Hbuf s) as H. unfold run_ok in H.
  destruct (parsecmd buf s) as [[[c b] s']|msg| | |] eqn:E; [by destruct H as (? & ? & _)| |done..].
  intros ts c Hsc Hl. by rewrite (parsecmd_complete buf Hbuf s ts c Hsc Hl) in E.
Qed.

(** what [runcmd] finds in a parsed command.  Every argument and file name
    is a maximal run of characters that are neither white space nor symbols,
    its bytes are those of the line and a zero follows them, although the
    zeros of all words are written into the one buffer; and every [EXEC] has
    fewer than [MAXARGS] arguments, so that [argv] ends in a null pointer. *)
Theorem parsecmd_strings buf s c b s' : (∀ x, x ∈ buf → x ≠ 0) →
  parsecmd buf s = Done (c, b, s') →
  args_fit c ∧ ∀ q eq, (q, eq) ∈ words c →
    good_token buf q eq ∧ b !! eq = Some 0 ∧ ∀ i, (q ≤ i < eq)%nat → b !! i = buf !! i.
Proof.
  intros Hbuf E. pose proof (parsecmd_sound buf Hbuf s) as H. unfold run_ok in H. rewrite E in H.
  destruct H as (_ & (ts & Hsc & Hl) & Hb). cbn in Hl, Hb. subst b.
  destruct (line_words _ _ Hl) as [Hfit Hw]. split; [done|].
  assert (Hgood : Forall (λ w, good_token buf (fst w) (snd w)) (words c)).
  { apply Forall_forall. intros w Hin. destruct (Hw w Hin) as (t & Ht & Hword & ->).
    eapply (scan_words buf Hbuf O); eauto. lia. }
  intros q eq Hin. pose proof Hgood as Hg. rewrite Forall_forall in Hg. specialize (Hg _ Hin). cbn in Hg.
  pose proof Hg as ((Hqe & Hle) & _). unfold es in Hle. split; [done|]. split.
  - rewrite nulterminate_lookup by (rewrite length_app; cbn; lia). rewrite bool_decide_true; [done|].
    apply list_elem_of_fmap. by exists (q, eq).
  - intros i Hi. rewrite nulterminate_lookup by (rewrite length_app; cbn; lia).
    rewrite bool_decide_false by (by eapply ends_keep). apply lookup_app_l. lia.
Qed.

(** The line [ls -l | (grep x; wc) >out &]. *)
Definition sample_line : list Z :=
  [108; 115; 32; 45; 108; 32; 124; 32; 40; 103; 114; 101; 112; 32; 120; 59; 32; 119; 99; 41; 32; 62; 111; 117; 116; 32; 38].

Definition sample_cmd : cmd :=
  BACK (PIPE (EXEC [(0, 2); (3, 5)])
    (REDIR (LIST (EXEC [(9, 13); (14, 15)]) (EXEC [(17, 19)])) 22 25 513 1))%nat.

Lemma parsecmd_decides_witness : ∃ ts, scan sample_line 0 ts 27 ∧ line ts sample_cmd.
Proof.
  assert (E : match parsecmd sample_line O with Done (c, _, _) => Some c | _ => None end = Some sample_cmd)
    by (vm_compute; reflexivity).
  pose proof (parsecmd_decides sample_line O) as H.
  destruct (parsecmd sample_line O) as [[[c b] s']| | | |]; try discriminate E.
  injection E as ->. apply H. intros x. unfold sample_line. rewrite !elem_of_cons, elem_of_nil. lia.
Defined.

Lemma parsecmd_strings_witness :
  ∃ b : list Z, b !! 2%nat = Some 0 ∧ b !! 25%nat = Some 0 ∧ b !! 0%nat = Some 108 ∧ b !! 24%nat = Some 116.
Proof.
  destruct (parsecmd sample_line O) as [[[c b] s']| | | |] eqn:E;
    try (vm_compute in E; discriminate E).
  destruct (parsecmd_strings sample_line O c b s') as [_ H]; [|exact E|].
  { intros x. unfold sample_line. rewrite !elem_of_cons, elem_of_nil. lia. }
  assert (Hc : c = sample_cmd) by (clear H; vm_compute in E; injection E as <- _ _; reflexivity). subst c.
  destruct (H 0%nat 2%nat) as (_ & H1 & H2); [by apply (bool_decide_unpack _)|].
  destruct (H 22%nat 25%nat) as (_ & H3 & H4); [by apply (bool_decide_unpack _)|].
  exists b. split; [done|]. split; [done|]. split; [by apply H2; lia|]. by apply H4; lia.
Defined.
