(* ===== verification/Runcmd.v ===== *)
(** * Running a command: runcmd of user/sh.c

    [runcmd] is a program whose only effects are system calls; it is the tree
    of the calls it makes, the next call depending on what the last one
    returned.  The calls act on the descriptor table of the process as
    sysfile.c does (a new descriptor is the lowest free one, [fork] copies the
    table); [run] collects the programs that are started and the tables the
    shell waits with. *)
From stdpp Require Import base decidable option list functions numbers strings sets.
From Stdlib Require Import ZArith Lia.
From S2P Require Import Prelude ProcDefs Shell.

Local Open Scope Z_scope.

(** ** The program *)

(** The system calls of [runcmd] that take and return integers and strings; a
    string is a word of the command line. *)
Inductive sc :=
| SClose (fd : Z)
| SOpen (file : nat * nat) (mode : Z)
| SDup (fd : Z)
| SExec (argv : list (nat * nat))
| SWait
| SSighandler
| SSigignore (mask : Z) (action : Z)
| SChdir (path : list Z)
| SPrint (msg : string).

(** A program that ends in [exit]. *)
Inductive prog :=
| Exit
| Call (c : sc) (k : Z → prog)
| Pipe2 (k : Z → Z → Z → prog)
| Fork (k : Z → prog).

Definition panic (msg : string) : prog := Call (SPrint msg) (λ _, Exit).

Definition fork1 (k : Z → prog) : prog :=
  Fork (λ pid, if pid =? -1 then panic "fork" else k pid).

(** [SIGPIPE | SIGSEG | SIGINT | SIGSYS] *)
Definition shell_mask : Z := Z.lor (Z.lor (Z.lor SIGPIPE SIGSEG) SIGINT) SIGSYS.

Fixpoint runcmd (c : cmd) : prog :=
  Call SSighandler (λ _, Call (SSigignore shell_mask 1) (λ _,
  match c with
  | EXEC [] => Exit
  | EXEC args => Call (SExec args) (λ _, Call (SPrint "exec failed") (λ _, Exit))
  | REDIR c file efile mode fd =>
      Call (SClose fd) (λ _, Call (SOpen (file, efile) mode) (λ r,
        if r <? 0 then Call (SPrint "open failed") (λ _, Exit) else runcmd c))
  | LIST l r =>
      fork1 (λ pid, if pid =? 0 then runcmd l else Call SWait (λ _, runcmd r))
  | PIPE l r =>
      Pipe2 (λ ret p0 p1, if ret <? 0 then panic "pipe" else
        fork1 (λ pid, if pid =? 0 then
            Call (SClose 1) (λ _, Call (SDup p1) (λ _, Call (SClose p0) (λ _, Call (SClose p1) (λ _, runcmd l))))
          else fork1 (λ pid, if pid =? 0 then
            Call (SClose 0) (λ _, Call (SDup p0) (λ _, Call (SClose p0) (λ _, Call (SClose p1) (λ _, runcmd r))))
          else Call (SClose p0) (λ _, Call (SClose p1) (λ _, Call SWait (λ _, Call SWait (λ _, Exit)))))))
  | BACK c => fork1 (λ pid, if pid =? 0 then runcmd c else Exit)
  end)).

(** The body of [main]'s loop on the line [buf], which ends in a newline, and
    what the shell does next. *)
Definition is_cd (buf : list Z) : bool :=
  match buf with
  | c :: d :: sp :: _ => (c =? 99) && (d =? 100) && (sp =? 32)
  | _ => false
  end.

Definition run_line (buf : list Z) (next : prog) : prog :=
  if is_cd buf then
    Call (SChdir (drop 3 (take (length buf - 1) buf))) (λ r,
      if r <? 0 then Call (SPrint "cannot cd") (λ _, next) else next)
  else
    fork1 (λ pid, if pid =? 0 then
        match parsecmd buf O with
        | Done (c, _, _) => runcmd c
        | Panicked msg => panic msg
        | _ => Exit
        end
      else Call SWait (λ _, next)).

(** ** Descriptor tables *)

(** What a descriptor refers to: a file the shell was started with, an end of
    the [n]th pipe, or a file it opened. *)
Inductive desc :=
| Old (n : nat)
| ReadEnd (n : nat)
| WriteEnd (n : nat)
| Opened (file : nat * nat) (mode : Z).

Notation table := (list (option desc)).

(** The lowest free descriptor, as [fdalloc] finds it. *)
Definition lowest (t : table) : option nat :=
  List.find (λ fd, match t !! fd with Some None => true | _ => false end) (seq 0 NOFILE).

Definition alloc_fd (t : table) (d : desc) : Z * table :=
  match lowest t with Some fd => (Z.of_nat fd, <[fd := Some d]> t) | None => (-1, t) end.

Definition get_fd (t : table) (fd : Z) : option desc :=
  if fd <? 0 then None else default None (t !! Z.to_nat fd).

Definition sys_close_fd (t : table) (fd : Z) : Z * table :=
  match get_fd t fd with Some _ => (0, <[Z.to_nat fd := None]> t) | None => (-1, t) end.

Definition sys_dup_fd (t : table) (fd : Z) : Z * table :=
  match get_fd t fd with Some d => alloc_fd t d | None => (-1, t) end.

Definition sys_pipe_fd (t : table) (n : nat) : Z * Z * Z * table :=
  let '(p0, t1) := alloc_fd t (ReadEnd n) in
  let '(p1, t2) := alloc_fd t1 (WriteEnd n) in
  if (p0 <? 0) || (p1 <? 0) then (-1, 0, 0, t) else (0, p0, p1, t2).

Inductive event :=
| Launched (argv : list (nat * nat)) (t : table)
| Waiting (t : table).

Section run.
(** Which files can be opened. *)
Context (can_open : nat * nat → Z → bool).

(** The events of a process and of the processes it forks, from the table [t]
    and with [n] pipes created so far.  [exec] starts the program; the other
    calls leave the descriptors alone. *)
Fixpoint run (p : prog) (n : nat) (t : table) : list event * nat :=
  match p with
  | Exit => ([], n)
  | Call (SClose fd) k => let '(r, t) := sys_close_fd t fd in run (k r) n t
  | Call (SOpen file mode) k =>
      if can_open file mode then let '(r, t) := alloc_fd t (Opened file mode) in run (k r) n t
      else run (k (-1)) n t
  | Call (SDup fd) k => let '(r, t) := sys_dup_fd t fd in run (k r) n t
  | Call (SExec args) _ => ([Launched args t], n)
  | Call SWait k => let '(es, n) := run (k 0) n t in (Waiting t :: es, n)
  | Call _ k => run (k 0) n t
  | Pipe2 k => let '(r, p0, p1, t) := sys_pipe_fd t n in run (k r p0 p1) (S n) t
  | Fork k =>
      let '(child, n) := run (k 0) n t in
      let '(parent, n) := run (k 1) n t in
      (child ++ parent, n)
  end.

(** ** The wiring a command asks for *)

Definition std (i o e : desc) : table := [Some i; Some o; Some e] ++ replicate 13 None.

(** The programs of [c], each with its standard input, output and error and no
    other descriptor, when [c] as a whole is to read [i] and write [o] and [e]. *)
Fixpoint wires (c : cmd) (n : nat) (i o e : desc) : list event * nat :=
  match c with
  | EXEC [] => ([], n)
  | EXEC args => ([Launched args (std i o e)], n)
  | REDIR c file efile mode fd =>
      if can_open (file, efile) mode then
        if fd =? 0 then wires c n (Opened (file, efile) mode) o e else wires c n i (Opened (file, efile) mode) e
      else ([], n)
  | LIST l r =>
      let '(ls, n) := wires l n i o e in
      let '(rs, n) := wires r n i o e in
      (ls ++ Waiting (std i o e) :: rs, n)
  | PIPE l r =>
      let '(ls, m) := wires l (S n) i (WriteEnd n) e in
      let '(rs, m) := wires r m (ReadEnd n) o e in
      (ls ++ rs ++ [Waiting (std i o e); Waiting (std i o e)], m)
  | BACK c => wires c n i o e
  end.

(** Redirections are of the standard input or output. *)
Fixpoint redirs_std (c : cmd) : Prop :=
  match c with
  | EXEC _ => True
  | REDIR c _ _ _ fd => (fd = 0 ∨ fd = 1) ∧ redirs_std c
  | PIPE l r => redirs_std l ∧ redirs_std r
  | LIST l r => redirs_std l ∧ redirs_std r
  | BACK c => redirs_std c
  end.

Lemma runcmd_wires c : redirs_std c → ∀ n i o e, run (runcmd c) n (std i o e) = wires c n i o e.
Proof.
  induction c as [args|c IH f ef mode fd|l IHl r IHr|l IHl r IHr|c IH]; intros Hc n i o e.
  - by destruct args.
  - destruct Hc as [Hfd Hc]. cbn [runcmd run wires].
    destruct Hfd as [-> | ->]; cbn -[runcmd wires]; destruct (can_open (f, ef) mode); try done; cbn -[runcmd wires].
    + exact (IH Hc n _ o e).
    + exact (IH Hc n i _ e).
  - destruct Hc as [Hl Hr]. cbn [wires]. rewrite <- (IHl Hl (S n)).
    transitivity (let '(ls, m) := run (runcmd l) (S n) (std i (WriteEnd n) e) in
      let '(ps, m) := (let '(rs, m) := run (runcmd r) m (std (ReadEnd n) o e) in
        (rs ++ [Waiting (std i o e); Waiting (std i o e)], m)) in
      (ls ++ ps, m)); [reflexivity|].
    destruct (run (runcmd l) (S n) (std i (WriteEnd n) e)) as [ls m].
    rewrite (IHr Hr m). by destruct (wires r m (ReadEnd n) o e) as [rs m'].
  - destruct Hc as [Hl Hr]. cbn [wires]. rewrite <- (IHl Hl n).
    transitivity (let '(ls, m) := run (runcmd l) n (std i o e) in
      let '(ps, m) := (let '(rs, m) := run (runcmd r) m (std i o e) in (Waiting (std i o e) :: rs, m)) in
      (ls ++ ps, m)); [reflexivity|].
    destruct (run (runcmd l) n (std i o e)) as [ls m].
    rewrite (IHr Hr m). by destruct (wires r m i o e) as [rs m'].
  - cbn [wires]. rewrite <- (IH Hc n).
    transitivity (let '(ls, m) := run (runcmd c) n (std i o e) in (ls ++ [], m)); [reflexivity|].
    destruct (run (runcmd c) n (std i o e)) as [ls m]. by rewrite app_nil_r.
Qed.

(** ** Who holds which end of a pipe *)

Definition table_of (ev : event) : table := match ev with Launched _ t => t | Waiting t => t end.

(** Some process of [evs] has [d] in its table. *)
Definition held (d : desc) (evs : list event) : Prop := Exists (λ ev, Some d ∈ table_of ev) evs.

Definition pipe_end (k : nat) (d : desc) : Prop := d = ReadEnd k ∨ d = WriteEnd k.

Lemma std_held i o e d : Some d ∈ std i o e → d = i ∨ d = o ∨ d = e.
Proof. unfold std. rewrite elem_of_app, elem_of_replicate. set_solver. Qed.

(** A command holds what it was given and pipes of its own. *)
Lemma wires_held c : ∀ n i o e evs m, wires c n i o e = (evs, m) →
  (n ≤ m)%nat ∧ ∀ k d, pipe_end k d → held d evs → d = i ∨ d = o ∨ d = e ∨ (n ≤ k < m)%nat.
Proof.
  induction c as [args|c IH f ef mode fd|l IHl r IHr|l IHl r IHr|c IH]; intros n i o e evs m; cbn [wires].
  - destruct args; intros [= <- <-]; (split; [lia|]); intros k d Hk; [by intros ?%Exists_nil|].
    intros [Hd%std_held|?%Exists_nil]%Exists_cons; [|done]. tauto.
  - destruct (can_open (f, ef) mode); [|by intros [= <- <-]; split; [lia|]; intros k d _ ?%Exists_nil].
    assert (Hne : ∀ k d, pipe_end k d → d ≠ Opened (f, ef) mode) by (by intros k d [-> | ->]).
    destruct (fd =? 0); intros H; destruct (IH _ _ _ _ _ _ H) as [Hm Hd]; (split; [done|]);
      intros k d Hk Hh; destruct (Hd k d Hk Hh) as [?|[?|[?|?]]]; naive_solver.
  - destruct (wires l (S n) i (WriteEnd n) e) as [ls m1] eqn:El, (wires r m1 (ReadEnd n) o e) as [rs m2] eqn:Er.
    intros [= <- <-]. destruct (IHl _ _ _ _ _ _ El) as [Hm1 H1], (IHr _ _ _ _ _ _ Er) as [Hm2 H2].
    split; [lia|]. intros k d Hk [Hh|[Hh|Hh]%Exists_app]%Exists_app.
    + destruct (H1 k d Hk Hh) as [?|[->|[?|?]]]; [tauto| |tauto|lia]. destruct Hk as [[=]|[= <-]]. lia.
    + destruct (H2 k d Hk Hh) as [->|[?|[?|?]]]; [|tauto|tauto|lia]. destruct Hk as [[= <-]|[=]]. lia.
    + apply Exists_cons in Hh as [Hd%std_held|[Hd%std_held|?%Exists_nil]%Exists_cons]; tauto.
  - destruct (wires l n i o e) as [ls m1] eqn:El, (wires r m1 i o e) as [rs m2] eqn:Er.
    intros [= <- <-]. destruct (IHl _ _ _ _ _ _ El) as [Hm1 H1], (IHr _ _ _ _ _ _ Er) as [Hm2 H2].
    split; [lia|]. intros k d Hk [Hh|[Hd%std_held|Hh]%Exists_cons]%Exists_app; [|tauto|].
    + destruct (H1 k d Hk Hh) as [?|[?|[?|?]]]; [tauto..|lia].
    + destruct (H2 k d Hk Hh) as [?|[?|[?|?]]]; [tauto..|lia].
  - apply IH.
Qed.
End run.

(** The descriptors a parsed command redirects. *)
Lemma line_redirs ts c : line ts c → redirs_std c.
Proof.
  assert (Hfd : ∀ t, redir_fd (kind t) = 0 ∨ redir_fd (kind t) = 1)
    by (intros t; unfold redir_fd; destruct (_ =? _); auto).
  assert (Hput : ∀ c q e, redirs_std c → redirs_std (put_arg c q e)) by (intros c' q e; induction c'; cbn; tauto).
  assert (Hsi : ∀ n c ts c', simple n c ts c' → redirs_std c → redirs_std c').
  { induction 1; cbn in *; auto. }
  assert (Hrd : ∀ c ts c', redirected c ts c' → redirs_std c → redirs_std c').
  { induction 1; cbn in *; auto. }
  assert (Hbk : ∀ n c, redirs_std c → redirs_std (Nat.iter n BACK c)) by (intros n c'; induction n; cbn; auto).
  intros H. induction H using line_mut with (P0 := λ _, redirs_std) (P1 := λ _, redirs_std); cbn in *; auto.
  - by eapply Hsi.
  - by eapply Hrd.
Qed.

(** C10: from the line typed to the processes that run.  On a line of the grammar
    the shell starts exactly the programs of its tree, each with the standard
    input, output and error the line gives it (the ends of its pipes, the files
    it is redirected to, or those of the shell) and with no other descriptor;
    the shell itself waits with its own table. *)
Theorem shell_runs_line can_open buf ts c n i o e :
  (∀ x, x ∈ buf → x ≠ 0) → is_cd buf = false → scan buf 0 ts (es buf) → line ts c →
  run can_open (run_line buf Exit) n (std i o e) =
    let '(evs, m) := wires can_open c n i o e in (evs ++ [Waiting (std i o e)], m).
Proof.
  intros Hbuf Hcd Hsc Hl. unfold run_line. rewrite Hcd, (parsecmd_complete buf Hbuf O ts c Hsc Hl).
  transitivity (let '(evs, m) := run can_open (runcmd c) n (std i o e) in (evs ++ [Waiting (std i o e)], m)).
  { cbn [run fork1]. cbn [Z.eqb Pos.eqb]. by destruct (run can_open (runcmd c) n (std i o e)). }
  by rewrite (runcmd_wires _ _ (line_redirs _ _ Hl)).
Qed.

(** the reader of a pipe can see end of file and its writer a missing
    reader.  When [left | right] runs, only processes of [left] hold the write
    end and only processes of [right] the read end; the shell process that
    waits for them holds neither. *)
Theorem pipe_ends_private can_open l r n i o e :
  redirs_std l → redirs_std r → (∀ d, pipe_end n d → d ≠ i ∧ d ≠ o ∧ d ≠ e) →
  ∃ ls rs ws m, run can_open (runcmd (PIPE l r)) n (std i o e) = (ls ++ rs ++ ws, m) ∧
    (∃ m', ls = fst (wires can_open l (S n) i (WriteEnd n) e) ∧ rs = fst (wires can_open r m' (ReadEnd n) o e)) ∧
    ws = [Waiting (std i o e); Waiting (std i o e)] ∧
    ¬ held (ReadEnd n) (ls ++ ws) ∧ ¬ held (WriteEnd n) (rs ++ ws).
Proof.
  intros Hl Hr Hd. rewrite runcmd_wires by done. cbn [wires].
  destruct (wires can_open l (S n) i (WriteEnd n) e) as [ls m1] eqn:El.
  destruct (wires can_open r m1 (ReadEnd n) o e) as [rs m2] eqn:Er.
  destruct (wires_held _ _ _ _ _ _ _ _ El) as [Hm1 H1], (wires_held _ _ _ _ _ _ _ _ Er) as [Hm2 H2].
  assert (Hw : ∀ d, pipe_end n d → ¬ held d [Waiting (std i o e); Waiting (std i o e)]).
  { intros d Hp. destruct (Hd d Hp) as (? & ? & ?).
    intros [Hh%std_held|[Hh%std_held|?%Exists_nil]%Exists_cons]%Exists_cons; tauto. }
  exists ls, rs, [Waiting (std i o e); Waiting (std i o e)], m2. split; [done|].
  split; [exists m1; by rewrite Er|]. split; [done|].
  destruct (Hd (ReadEnd n)) as (? & ? & ?); [by left|]. destruct (Hd (WriteEnd n)) as (? & ? & ?); [by right|].
  split; intros [Hh|Hh]%Exists_app.
  - destruct (H1 n (ReadEnd n) ltac:(by left) Hh) as [?|[?|[?|?]]]; [done..|lia].
  - by apply (Hw (ReadEnd n)); [left|].
  - destruct (H2 n (WriteEnd n) ltac:(by right) Hh) as [?|[?|[?|?]]]; [done..|lia].
  - by apply (Hw (WriteEnd n)); [right|].
Qed.

(** [ls -l | (grep x; wc) >out &] *)
Lemma sample_parses : ∃ ts, scan sample_line 0 ts (es sample_line) ∧ line ts sample_cmd.
Proof.
  assert (Hb : ∀ x, x ∈ sample_line → x ≠ 0)
    by (intros x; unfold sample_line; rewrite !elem_of_cons, elem_of_nil; lia).
  pose proof (parsecmd_sound sample_line Hb O) as H. unfold run_ok in H.
  destruct (parsecmd sample_line O) as [[[c b] s']| | | |] eqn:E; try (vm_compute in E; discriminate E).
  destruct H as (_ & H & _). vm_compute in E. injection E as <- _ _. exact H.
Qed.

Lemma shell_runs_line_witness :
  run (λ _ _, true) (run_line sample_line Exit) 0 (std (Old 0) (Old 1) (Old 2)) =
    ([Launched [(0, 2); (3, 5)]%nat (std (Old 0) (WriteEnd 0) (Old 2));
      Launched [(9, 13); (14, 15)]%nat (std (ReadEnd 0) (Opened (22, 25)%nat 513) (Old 2));
      Waiting (std (ReadEnd 0) (Opened (22, 25)%nat 513) (Old 2));
      Launched [(17, 19)]%nat (std (ReadEnd 0) (Opened (22, 25)%nat 513) (Old 2));
      Waiting (std (Old 0) (Old 1) (Old 2)); Waiting (std (Old 0) (Old 1) (Old 2));
      Waiting (std (Old 0) (Old 1) (Old 2))], 1%nat).
Proof.
  destruct sample_parses as (ts & Hsc & Hl).
  rewrite (shell_runs_line (λ _ _, true) sample_line ts sample_cmd 0 (Old 0) (Old 1) (Old 2));
    [reflexivity| |reflexivity|exact Hsc|exact Hl].
  intros x. unfold sample_line. rewrite !elem_of_cons, elem_of_nil. lia.
Defined.

Lemma pipe_ends_private_witness : ∃ ls rs ws m,
  run (λ _ _, true) (runcmd (PIPE (EXEC [(0, 2)]%nat) (EXEC [(5, 7)]%nat))) 0 (std (Old 0) (Old 1) (Old 2)) =
    (ls ++ rs ++ ws, m) ∧ ¬ held (ReadEnd 0) (ls ++ ws) ∧ ¬ held (WriteEnd 0) (rs ++ ws).
Proof.
  destruct (pipe_ends_private (λ _ _, true) (EXEC [(0, 2)]%nat) (EXEC [(5, 7)]%nat) 0 (Old 0) (Old 1) (Old 2))
    as (ls & rs & ws & m & H1 & _ & _ & H2 & H3); [exact I|exact I| |].
  { intros d [-> | ->]; repeat split; discriminate. }
  exists ls, rs, ws, m. exact (conj H1 (conj H2 H3)).
Defined.
