(* ===== verification/Umalloc.v ===== *)
(** * The user memory allocator: user/umalloc.c

    Kernighan and Ritchie's allocator on byte-addressed memory.  A [Header] is
    eight bytes, the pointer and then the size in headers; [&base] is an
    argument, and so is the answer of [sbrk].  A block is its address and its
    size; the free list is the list of blocks in the order of their addresses. *)
From stdpp Require Import base decidable option list functions numbers strings sets.
From Stdlib Require Import ZArith Lia.
From S2P Require Import Prelude CString Kalloc.

Local Open Scope Z_scope.

Record um := Um { umem : mem; freep : Z; brk : Z }.

(** [sizeof(Header)] *)
Definition HDR : Z := 8.

Definition set_mem (m : mem) : M um () := modS (λ s, Um m (freep s) (brk s)).
Definition set_freep (p : Z) : M um () := modS (λ s, Um (umem s) p (brk s)).

Definition get_ptr (p : Z) : M um Z := s ← getS; mret (load32 (umem s) p).
Definition get_size (p : Z) : M um Z := s ← getS; mret (load32 (umem s) (p + 4)).
Definition put_ptr (p v : Z) : M um () := s ← getS; set_mem (store32 (umem s) p v).
Definition put_size (p v : Z) : M um () := s ← getS; set_mem (store32 (umem s) (p + 4) v).

(** The header [n] headers after [p]. *)
Definition hdr_add (p n : Z) : Z := u32 (p + HDR * n).

Section umalloc.
(** [&base], and whether the kernel moves the break [b] by [n] bytes. *)
Context (base : Z) (grows : Z → Z → bool).

(** The loop of [free]. *)
Fixpoint free_find (fuel : nat) (bp p : Z) : M um Z :=
  next ← get_ptr p;
  if (p <? bp) && (bp <? next) then mret p
  else if (next <=? p) && ((p <? bp) || (bp <? next)) then mret p
  else match fuel with O => no_fuel | S fuel => free_find fuel bp next end.

(** The first half of [free]: the new block and the block above it. *)
Definition join_above (bp next : Z) : M um () :=
  bsize ← get_size bp;
  if hdr_add bp bsize =? next then
    nsize ← get_size next;
    _ ← put_size bp (u32 (bsize + nsize));
    nnext ← get_ptr next;
    put_ptr bp nnext
  else put_ptr bp next.

(** The second half: the block below it. *)
Definition join_below (bp p : Z) : M um () :=
  psize ← get_size p;
  _ ← (if hdr_add p psize =? bp then
         bsize ← get_size bp;
         _ ← put_size p (u32 (psize + bsize));
         bnext ← get_ptr bp;
         put_ptr p bnext
       else put_ptr p bp);
  set_freep p.

Definition free (fuel : nat) (ap : Z) : M um () :=
  let bp := hdr_add ap (-1) in
  s ← getS;
  p ← free_find fuel bp (freep s);
  next ← get_ptr p;
  _ ← join_above bp next;
  join_below bp p.

(** The system call: the old break, or -1. *)
Definition sbrk (n : Z) : M um Z :=
  s ← getS;
  if grows (brk s) n then
    _ ← modS (λ s, Um (umem s) (freep s) (brk s + n));
    mret (brk s)
  else mret (u32 (-1)).

Definition morecore (fuel : nat) (nu : Z) : M um Z :=
  let nu := if nu <? 4096 then 4096 else nu in
  p ← sbrk (s32 (u32 (nu * HDR)));
  if p =? u32 (-1) then mret 0
  else
    _ ← put_size p nu;
    _ ← free fuel (hdr_add p 1);
    s ← getS;
    mret (freep s).

(** The body of [malloc]'s loop when the block at [p] is big enough. *)
Definition take_block (nunits prevp p : Z) : M um Z :=
  size ← get_size p;
  p ← (if size =? nunits then
         next ← get_ptr p;
         _ ← put_ptr prevp next;
         mret p
       else
         _ ← put_size p (u32 (size - nunits));
         let p := hdr_add p (u32 (size - nunits)) in
         _ ← put_size p nunits;
         mret p);
  _ ← set_freep prevp;
  mret (hdr_add p 1).

Fixpoint malloc_loop (fuel : nat) (nunits prevp p : Z) : M um Z :=
  size ← get_size p;
  if nunits <=? size then take_block nunits prevp p
  else
    match fuel with
    | O => no_fuel
    | S fuel' =>
        s ← getS;
        if p =? freep s then
          p ← morecore fuel nunits;
          if p =? 0 then mret 0
          else next ← get_ptr p; malloc_loop fuel' nunits p next
        else next ← get_ptr p; malloc_loop fuel' nunits p next
    end.

Definition units (nbytes : Z) : Z := u32 (nbytes + HDR - 1) / HDR + 1.

Definition malloc (fuel : nat) (nbytes : Z) : M um Z :=
  s ← getS;
  _ ← (if freep s =? 0 then
         _ ← put_ptr base base;
         _ ← set_freep base;
         put_size base 0
       else mret ());
  s ← getS;
  p ← get_ptr (freep s);
  malloc_loop fuel (units nbytes) (freep s) p.
End umalloc.

(** ** Running the primitive steps *)

Definition wr (s : um) (m : mem) : um := Um m (freep s) (brk s).

Lemma run_get_ptr {B} p (k : Z → M um B) s : (get_ptr p ≫= k) s = k (load32 (umem s) p) s.
Proof. done. Qed.
Lemma run_get_size {B} p (k : Z → M um B) s : (get_size p ≫= k) s = k (load32 (umem s) (p + 4)) s.
Proof. done. Qed.
Lemma run_put_ptr {B} p v (k : () → M um B) s : (put_ptr p v ≫= k) s = k () (wr s (store32 (umem s) p v)).
Proof. done. Qed.
Lemma run_put_size {B} p v (k : () → M um B) s :
  (put_size p v ≫= k) s = k () (wr s (store32 (umem s) (p + 4) v)).
Proof. done. Qed.
Lemma run_set_freep {B} p (k : () → M um B) s : (set_freep p ≫= k) s = k () (Um (umem s) p (brk s)).
Proof. done. Qed.

(** ** Blocks *)

Notation block := (Z * Z)%type.

(** Whether the address [x] belongs to a block, and to how many. *)
Definition inb (x : Z) (b : block) : Z := if (fst b <=? x) && (x <? fst b + HDR * snd b) then 1 else 0.

Fixpoint owners (x : Z) (l : list block) : Z :=
  match l with
  | [] => 0
  | b :: l => inb x b + owners x l
  end.

Lemma inb_in x a n : inb x (a, n) = 1 ↔ a ≤ x < a + HDR * n.
Proof. unfold inb. cbn. destruct (Z.leb_spec a x), (Z.ltb_spec x (a + HDR * n)); cbn; lia. Qed.

Lemma inb_cases x b : inb x b = 0 ∨ inb x b = 1.
Proof. unfold inb. destruct (_ && _); auto. Qed.

Lemma owners_nonneg x l : 0 ≤ owners x l.
Proof. induction l as [|b l IH]; cbn; [lia|]. destruct (inb_cases x b); lia. Qed.

Lemma owners_app x l1 l2 : owners x (l1 ++ l2) = owners x l1 + owners x l2.
Proof. induction l1 as [|b l1 IH]; cbn; [done|]. lia. Qed.

Lemma owners_elem x b l : b ∈ l → inb x b ≤ owners x l.
Proof.
  induction l as [|c l IH]; [by intros ?%elem_of_nil|]. intros [->|Hb]%elem_of_cons; cbn.
  - pose proof (owners_nonneg x l). lia.
  - specialize (IH Hb). destruct (inb_cases x c); lia.
Qed.

(** Two neighbouring blocks are together one block. *)
Lemma inb_join x a n k : 0 ≤ n → 0 ≤ k → inb x (a, n) + inb x (a + HDR * n, k) = inb x (a, n + k).
Proof.
  intros Hn Hk. unfold inb, HDR. cbn [fst snd].
  destruct (Z.leb_spec a x), (Z.ltb_spec x (a + 8 * n)), (Z.leb_spec (a + 8 * n) x),
    (Z.ltb_spec x (a + 8 * n + 8 * k)), (Z.ltb_spec x (a + 8 * (n + k))); cbn; lia.
Qed.

(** Blocks in the order of their addresses; two of them never touch. *)
Fixpoint spaced (lo : Z) (l : list block) : Prop :=
  match l with
  | [] => True
  | (a, n) :: l => lo < a ∧ 0 ≤ n ∧ spaced (a + HDR * n) l
  end.

Lemma spaced_weaken lo lo' l : lo' ≤ lo → spaced lo l → spaced lo' l.
Proof. destruct l as [|[a n] l]; cbn; [done|]. intros H (? & ? & ?). split; [lia|done]. Qed.

Lemma spaced_elem lo l b : spaced lo l → b ∈ l → lo < fst b ∧ 0 ≤ snd b.
Proof.
  revert lo. induction l as [|[a n] l IH]; intros lo; [by intros _ ?%elem_of_nil|].
  intros (H1 & H2 & H3) [->|Hb]%elem_of_cons; [done|]. destruct (IH _ H3 Hb). unfold HDR in *. split; [lia|done].
Qed.

Lemma spaced_nodup lo l : spaced lo l → NoDup (fst <$> l).
Proof.
  revert lo. induction l as [|[a n] l IH]; intros lo; cbn; [constructor|]. intros (_ & H2 & H3).
  apply NoDup_cons. split; [|by eapply IH]. intros (b & -> & Hb)%list_elem_of_fmap.
  pose proof (spaced_elem _ _ _ H3 Hb). unfold HDR in *. lia.
Qed.

(** The address after the last of [l]. *)
Fixpoint end_of (lo : Z) (l : list block) : Z :=
  match l with [] => lo | (a, n) :: l => end_of (a + HDR * n) l end.

Lemma spaced_app lo l1 l2 : spaced lo (l1 ++ l2) ↔ spaced lo l1 ∧ spaced (end_of lo l1) l2.
Proof. revert lo. induction l1 as [|[a n] l1 IH]; intros lo; cbn; [tauto|]. rewrite IH. tauto. Qed.

Lemma end_of_app lo l1 l2 : end_of lo (l1 ++ l2) = end_of (end_of lo l1) l2.
Proof. revert lo. induction l1 as [|[a n] l1 IH]; intros lo; cbn; auto. Qed.

Lemma end_of_le lo l : spaced lo l → lo ≤ end_of lo l.
Proof.
  revert lo. induction l as [|[a n] l IH]; intros lo; cbn; [lia|]. intros (H1 & H2 & H3%IH).
  unfold HDR in *. lia.
Qed.

Lemma end_of_elem lo l b : spaced lo l → b ∈ l → fst b + HDR * snd b ≤ end_of lo l.
Proof.
  revert lo. induction l as [|[a n] l IH]; intros lo; [by intros _ ?%elem_of_nil|].
  intros (H1 & H2 & H3) [->|Hb]%elem_of_cons; cbn; [by apply end_of_le|]. by apply IH.
Qed.

(** ** The free list in memory *)

(** The address of the first block of [l], or [q]. *)
Definition first (l : list block) (q : Z) : Z := match l with [] => q | (a, _) :: _ => a end.

(** Each header of [l] holds its size and the address of the next; the last one
    points to [q]. *)
Fixpoint links (m : mem) (l : list block) (q : Z) : Prop :=
  match l with
  | [] => True
  | (a, n) :: l => load32 m a = first l q ∧ load32 m (a + 4) = n ∧ links m l q
  end.

Lemma first_app l1 l2 q : first (l1 ++ l2) q = first l1 (first l2 q).
Proof. by destruct l1 as [|[a n] l1]. Qed.

Lemma links_app m l1 l2 q : links m (l1 ++ l2) q ↔ links m l1 (first l2 q) ∧ links m l2 q.
Proof. induction l1 as [|[a n] l1 IH]; cbn; [tauto|]. rewrite IH, first_app. tauto. Qed.

(** Memory that keeps the headers of [l] keeps the list. *)
Definition same_headers (m m' : mem) (l : list block) : Prop :=
  ∀ b x, b ∈ l → fst b ≤ x < fst b + HDR → m' x = m x.

Lemma links_same m m' l q : same_headers m m' l → links m l q → links m' l q.
Proof.
  induction l as [|[a n] l IH]; cbn [links]; [done|]. intros Hs (H1 & H2 & H3).
  split; [|split].
  - rewrite <- H1. apply load32_ext. intros x Hx. apply (Hs (a, n)); [set_solver|unfold HDR; cbn; lia].
  - rewrite <- H2. apply load32_ext. intros x Hx. apply (Hs (a, n)); [set_solver|unfold HDR; cbn; lia].
  - apply IH; [|done]. intros b x Hb. apply Hs. set_solver.
Qed.

(** ** The loop of [free] *)

Section find.
Context (s : um) (base bp p ps : Z) (P L2 : list block).
Hypothesis Hl : links (umem s) (P ++ (p, ps) :: L2) base.
Hypothesis Hsp : spaced (base - 1) (P ++ (p, ps) :: L2).
Hypothesis Hbelow : ∀ b, b ∈ P ++ [(p, ps)] → base ≤ fst b < bp.
Hypothesis Habove : ∀ b, b ∈ L2 → bp < fst b.

Lemma find_up A B fuel : P = A ++ B → (length B ≤ fuel)%nat →
  free_find fuel bp (first (B ++ (p, ps) :: L2) base) s = Done (p, s).
Proof.
  revert A fuel. induction B as [|[x xs] B IH]; intros A fuel HP Hf.
  - cbn [app first]. assert (E : load32 (umem s) p = first L2 base).
    { apply links_app in Hl as [_ Hp]. apply Hp. }
    pose proof (Hbelow (p, ps) ltac:(set_solver)) as Hp. cbn in Hp.
    destruct fuel; cbn [free_find]; rewrite run_get_ptr, E; destruct L2 as [|[a n] L2']; cbn [first].
    1,3: rewrite (proj2 (Z.ltb_ge bp base)), (proj2 (Z.leb_le base p)), (proj2 (Z.ltb_lt p bp)) by lia; done.
    1,2: pose proof (Habove (a, n) ltac:(set_solver)) as Ha; cbn in Ha;
      rewrite (proj2 (Z.ltb_lt bp a)), (proj2 (Z.ltb_lt p bp)) by lia; done.
  - cbn [length] in Hf. destruct fuel as [|fuel]; [lia|].
    assert (HP' : P = (A ++ [(x, xs)]) ++ B) by (rewrite HP, <- app_assoc; done).
    specialize (IH _ fuel HP' ltac:(lia)).
    rewrite HP, <- app_assoc in Hl, Hsp. apply links_app in Hl as [_ (E & _)]. cbn [app] in E.
    apply spaced_app in Hsp as [_ (_ & Hxs & Hs)].
    destruct (B ++ (p, ps) :: L2) as [|[y ys] R] eqn:EB; [by destruct B|]. cbn [first] in E, IH.
    destruct Hs as (Hxy & _). assert (Hy : y < bp).
    { destruct B as [|[z zs] B']; cbn in EB; injection EB as E1 _ _.
      - subst y. apply (Hbelow (p, ps)). set_solver.
      - subst y. apply (Hbelow (z, zs)). rewrite HP. set_solver. }
    unfold HDR in *. cbn [app first free_find]. rewrite run_get_ptr, E.
    rewrite (proj2 (Z.ltb_ge bp y)), (proj2 (Z.leb_gt y x)), andb_false_r by lia. exact IH.
Qed.

Lemma find_wrap C D fuel : L2 = C ++ D →
  free_find (length D + fuel) bp (first D base) s = free_find fuel bp base s.
Proof.
  revert C. induction D as [|[x xs] D IH]; intros C HL; [done|].
  cbn [length Nat.add first free_find]. rewrite <- (IH (C ++ [(x, xs)])) by (rewrite HL, <- app_assoc; done).
  rewrite run_get_ptr. pose proof (Habove (x, xs) ltac:(rewrite HL; set_solver)) as Hx. cbn in Hx.
  pose proof (Hbelow (p, ps) ltac:(set_solver)) as Hp. cbn in Hp.
  assert (E : P ++ (p, ps) :: L2 = (P ++ (p, ps) :: C) ++ (x, xs) :: D) by (rewrite HL, <- app_assoc; done).
  rewrite E in Hl, Hsp. apply links_app in Hl as [_ (El & _)]. apply spaced_app in Hsp as [_ (_ & Hxs & Hs)].
  rewrite El, (proj2 (Z.ltb_ge x bp)) by lia. cbn [andb orb].
  destruct D as [|[y ys] D]; cbn [first].
  - rewrite (proj2 (Z.ltb_ge bp base)), andb_false_r by lia. done.
  - destruct Hs as (Hxy & _). unfold HDR in *. rewrite (proj2 (Z.leb_gt y x)) by lia. done.
Qed.

Lemma free_find_run fuel q : q ∈ fst <$> P ++ (p, ps) :: L2 →
  first (P ++ [(p, ps)]) 0 = base → (length P + length L2 ≤ fuel)%nat → free_find fuel bp q s = Done (p, s).
Proof.
  intros Hq Hb Hf. rewrite (list_elem_of_fmap) in Hq. destruct Hq as ([a n] & -> & Hin). cbn [fst].
  apply elem_of_app in Hin as [Hin|Hin].
  - apply list_elem_of_split in Hin as (A & B & HP).
    apply (find_up A ((a, n) :: B)); [done|]. rewrite HP, length_app in Hf. cbn [length] in *. lia.
  - apply elem_of_cons in Hin as [[= -> ->]|Hin]; [apply (find_up P []); [by rewrite app_nil_r|cbn; lia]|].
    apply list_elem_of_split in Hin as (C & D & HL).
    replace fuel with (length ((a, n) :: D) + (fuel - length ((a, n) :: D)))%nat
      by (rewrite HL, length_app in Hf; cbn [length] in *; lia).
    change a with (first ((a, n) :: D) base). rewrite (find_wrap C ((a, n) :: D)) by done.
    assert (E : first (P ++ (p, ps) :: L2) base = base) by (by destruct P as [|[z zs] P']).
    rewrite <- E at 2. apply (find_up [] P); [done|]. rewrite HL, length_app in Hf. cbn [length] in *. lia.
Qed.
End find.

(** ** Writing a header *)

Lemma load_ptr_size m a v w : 0 ≤ v < 2 ^ 32 → 0 ≤ w < 2 ^ 32 →
  let m' := store32 (store32 m (a + 4) v) a w in
  load32 m' a = w ∧ load32 m' (a + 4) = v ∧ ∀ x, ¬ (a ≤ x < a + HDR) → m' x = m x.
Proof.
  intros Hv Hw m'. subst m'. split; [|split].
  - rewrite load32_store32. by apply u32_small.
  - rewrite (load32_ext (store32 m (a + 4) v)) by (intros x Hx; apply store32_out; lia).
    rewrite load32_store32. by apply u32_small.
  - intros x Hx. unfold HDR in Hx. rewrite !store32_out by lia. done.
Qed.

Lemma load_ptr m a w : 0 ≤ w < 2 ^ 32 →
  let m' := store32 m a w in
  load32 m' a = w ∧ load32 m' (a + 4) = load32 m (a + 4) ∧ ∀ x, ¬ (a ≤ x < a + HDR) → m' x = m x.
Proof.
  intros Hw m'. subst m'. split; [|split].
  - rewrite load32_store32. by apply u32_small.
  - apply load32_ext. intros x Hx. apply store32_out. lia.
  - intros x Hx. unfold HDR in Hx. apply store32_out. lia.
Qed.

Lemma load_size m a w : 0 ≤ w < 2 ^ 32 →
  let m' := store32 m (a + 4) w in
  load32 m' (a + 4) = w ∧ load32 m' a = load32 m a ∧ ∀ x, ¬ (a ≤ x < a + HDR) → m' x = m x.
Proof.
  intros Hw m'. subst m'. split; [|split].
  - rewrite load32_store32. by apply u32_small.
  - apply load32_ext. intros x Hx. apply store32_out. lia.
  - intros x Hx. unfold HDR in Hx. apply store32_out. lia.
Qed.

(** Writes inside [a, a + k) keep the headers of blocks elsewhere. *)
Lemma same_headers_out m m' a k l : (∀ x, ¬ (a ≤ x < a + k) → m' x = m x) →
  (∀ b, b ∈ l → fst b + HDR ≤ a ∨ a + k ≤ fst b) → same_headers m m' l.
Proof. intros Ho Hl b x Hb Hx. apply Ho. destruct (Hl b Hb); unfold HDR in *; lia. Qed.

(** ** Joining with the neighbours *)

Section join.
Context (base lim : Z).
Hypothesis Hlim : 0 < base ∧ base < lim ∧ lim ≤ 2 ^ 31.

Lemma first_bounds l lo : spaced lo l → base ≤ lo → end_of lo l ≤ lim → 0 ≤ first l base < 2 ^ 32.
Proof.
  destruct l as [|[a n] l]; cbn; [lia|]. intros (H1 & H2 & H3%end_of_le) Hlo Hend. unfold HDR in *. lia.
Qed.

Lemma join_above_run s bp bs L2 :
  links (umem s) L2 base → spaced (bp - 1) L2 → (∀ b, b ∈ L2 → bp + HDR * bs ≤ fst b) →
  end_of (bp + HDR * bs) L2 ≤ lim → base ≤ bp → 0 < bs → load32 (umem s) (bp + 4) = bs →
  (∀ b, b ∈ L2 → 0 < snd b) →
  ∃ m bs' L2', join_above bp (first L2 base) s = Done ((), wr s m) ∧
    load32 m bp = first L2' base ∧ load32 m (bp + 4) = bs' ∧ links m L2' base ∧
    (∀ x, ¬ (bp ≤ x < bp + HDR) → m x = umem s x) ∧ bs ≤ bs' ∧
    spaced (bp + HDR * bs') L2' ∧ end_of (bp + HDR * bs') L2' ≤ lim ∧
    (∀ b, b ∈ L2' → b ∈ L2) ∧ (length L2' ≤ length L2)%nat ∧
    ∀ x, inb x (bp, bs') + owners x L2' = inb x (bp, bs) + owners x L2.
Proof.
  intros Hl Hsp Hab Hend Hb Hbs Hsz Hpos. unfold join_above. rewrite run_get_size, Hsz. unfold hdr_add.
  assert (Hle : bp + HDR * bs ≤ lim).
  { destruct L2 as [|[a n] L2]; cbn in *; [lia|]. destruct Hsp as (_ & Hn & Hsp).
    pose proof (Hab (a, n) ltac:(set_solver)) as Ha. cbn in Ha.
    apply end_of_le in Hsp. unfold HDR in *. lia. }
  rewrite u32_small by (unfold HDR in *; lia).
  assert (Hsp' : ∀ L, L2 = L → bp + HDR * bs ≠ first L base → spaced (bp + HDR * bs) L).
  { intros L <- Hne. destruct L2 as [|[a n] L2]; [done|]. cbn in *.
    pose proof (Hab (a, n) ltac:(set_solver)) as Ha. cbn in Ha. split; [lia|]. apply Hsp. }
  destruct (Z.eqb_spec (bp + HDR * bs) (first L2 base)) as [E|E].
  - destruct L2 as [|[a n] L2]; [cbn in E; unfold HDR in *; lia|]. cbn in E. subst a.
    destruct Hl as (Hl1 & Hl2 & Hl3), Hsp as (_ & Hn & Hsp). cbn [first].
    pose proof (Hpos (bp + HDR * bs, n) ltac:(set_solver)) as Hn'. cbn in Hn', Hend.
    pose proof (end_of_le _ _ Hsp) as Hend'.
    rewrite run_get_size, Hl2, u32_small by (unfold HDR in *; lia). rewrite run_put_size, run_get_ptr. cbn [wr umem].
    rewrite (load32_ext (umem s)) by (intros x Hx; apply store32_out; unfold HDR in *; lia).
    rewrite Hl1.
    destruct (load_ptr_size (umem s) bp (bs + n) (first L2 base)) as (W1 & W2 & W3).
    { unfold HDR in *. lia. } { eapply first_bounds; [exact Hsp|unfold HDR in *; lia|lia]. }
    eexists _, (bs + n), L2. split; [reflexivity|]. split; [done|]. split; [done|]. split.
    { eapply links_same; [|exact Hl3]. eapply (same_headers_out _ _ bp HDR); [exact W3|]. intros b Hin. right.
      pose proof (spaced_elem _ _ _ Hsp Hin). unfold HDR in *. lia. }
    split; [done|]. split; [lia|]. replace (bp + HDR * (bs + n)) with (bp + HDR * bs + HDR * n) by lia.
    split; [done|]. split; [done|]. split; [set_solver|]. split; [cbn; lia|].
    intros x. cbn [owners]. rewrite <- inb_join by lia. lia.
  - destruct (load_ptr (umem s) bp (first L2 base)) as (W1 & W2 & W3).
    { destruct L2 as [|[a n] L2]; [cbn; lia|]. eapply (first_bounds _ (bp + HDR * bs));
        [by apply Hsp'|unfold HDR in *; lia|done]. }
    eexists _, bs, L2. split; [reflexivity|]. split; [done|]. split; [by rewrite W2|]. split.
    { eapply links_same; [|exact Hl]. eapply (same_headers_out _ _ bp HDR); [exact W3|]. intros b Hin. right.
      specialize (Hab b Hin). unfold HDR in *. lia. }
    split; [done|]. split; [lia|]. split; [by apply Hsp'|]. split; [done|]. split; [done|]. split; [done|]. done.
Qed.

Lemma join_below_run s bp bs p ps P L q :
  links (umem s) (P ++ [(p, ps)]) q → load32 (umem s) bp = first L base → load32 (umem s) (bp + 4) = bs →
  links (umem s) L base → spaced (base - 1) (P ++ [(p, ps)]) → (∀ b, b ∈ P → fst b + HDR ≤ p) →
  p + HDR * ps ≤ bp → p + HDR ≤ bp → 0 < bs → base ≤ p →
  spaced (bp + HDR * bs) L → end_of (bp + HDR * bs) L ≤ lim →
  ∃ m J, join_below bp p s = Done ((), Um m p (brk s)) ∧
    links m (P ++ J) base ∧ spaced (base - 1) (P ++ J) ∧
    (∃ n J', J = (p, n) :: J' ∧ (ps = 0 → n = 0)) ∧
    (∀ x, ¬ (p ≤ x < p + HDR) → m x = umem s x) ∧
    (∀ b, b ∈ J → b ∈ L ∨ b = (p, ps) ∨ bs ≤ snd b) ∧ (∃ b, b ∈ J ∧ bs ≤ snd b) ∧ (length J ≤ length L + 2)%nat ∧
    ∀ x, owners x J = inb x (p, ps) + inb x (bp, bs) + owners x L.
Proof.
  intros HP Hb1 Hb2 HL Hsp HPlo Hpb Hpb8 Hbs Hp HspL Hend.
  apply links_app in HP as [HP (_ & Hps & _)]. apply spaced_app in Hsp as [HspP (Hsp1 & Hps0 & _)].
  pose proof (end_of_le _ _ HspL) as Hle. unfold join_below.
  rewrite run_get_size, Hps. unfold hdr_add. rewrite u32_small by (unfold HDR in *; lia).
  assert (Hsame : ∀ m', (∀ x, ¬ (p ≤ x < p + HDR) → m' x = umem s x) →
    links m' P p ∧ links m' L base ∧ load32 m' bp = first L base ∧ load32 m' (bp + 4) = bs).
  { intros m' Ho. split; [|split; [|split]].
    - eapply links_same; [eapply same_headers_out; [exact Ho|auto]|exact HP].
    - eapply links_same; [eapply same_headers_out; [exact Ho|]|exact HL]. intros b Hin. right.
      pose proof (spaced_elem _ _ _ HspL Hin). unfold HDR in *. lia.
    - rewrite <- Hb1. apply load32_ext. intros x Hx. apply Ho. unfold HDR in *. lia.
    - rewrite <- Hb2. apply load32_ext. intros x Hx. apply Ho. unfold HDR in *. lia. }
  assert (Hf : 0 ≤ first L base < 2 ^ 32) by (eapply first_bounds; [exact HspL|unfold HDR in *; lia|done]).
  destruct (Z.eqb_spec (p + HDR * ps) bp) as [E|E].
  - rewrite run_bind, run_get_size, Hb2, run_put_size, run_get_ptr. cbn [wr umem].
    rewrite (load32_ext (umem s)) by (intros x Hx; apply store32_out; unfold HDR in *; lia).
    rewrite Hb1, u32_small by (unfold HDR in *; lia).
    destruct (load_ptr_size (umem s) p (ps + bs) (first L base)) as (W1 & W2 & W3); [unfold HDR in *; lia|done|].
    destruct (Hsame _ W3) as (K1 & K2 & _). eexists _, ((p, ps + bs) :: L). split; [reflexivity|].
    rewrite links_app, spaced_app. cbn [links first spaced].
    replace (p + HDR * (ps + bs)) with (bp + HDR * bs) by (unfold HDR in *; lia).
    split; [done|]. split; [split; [done|]; split; [done|]; split; [lia|done]|].
    split; [exists (ps + bs), L; split; [done|]; unfold HDR in *; lia|]. split; [done|].
    split; [intros b [->|Hin]%elem_of_cons; [right; right; cbn; lia|by left]|].
    split; [exists (p, ps + bs); split; [set_solver|cbn; lia]|]. split; [cbn; lia|].
    intros x. cbn [owners]. rewrite <- inb_join, E by lia. lia.
  - destruct (load_ptr (umem s) p bp) as (W1 & W2 & W3); [unfold HDR in *; lia|].
    destruct (Hsame _ W3) as (K1 & K2 & K3 & K4). eexists _, ((p, ps) :: (bp, bs) :: L). split; [reflexivity|].
    rewrite links_app, spaced_app. cbn [links first spaced]. rewrite Hps in W2.
    split; [done|]. split; [split; [done|]; split; [done|]; split; [done|]; split; [lia|]; split; [lia|done]|].
    split; [by exists ps, ((bp, bs) :: L)|]. split; [done|].
    split; [intros b Hin; apply elem_of_cons in Hin as [->|[->|Hin]%elem_of_cons]; cbn; [tauto|right; right; lia|tauto]|].
    split; [exists (bp, bs); split; [set_solver|cbn; lia]|]. split; [cbn; lia|]. intros x. cbn [owners]. lia.
Qed.
End join.

(** ** The heap *)

Section heap.
Context (base lo : Z).
Hypothesis Hbase : 0 < base ∧ base + HDR ≤ lo.

Definition nodes (F : list block) : list block := (base, 0) :: F.

(** The heap from [lo] to the break is divided into the free blocks [F] and the
    blocks [live] that were handed out: every address belongs to exactly one
    block.  The free list is circular, in the order of addresses, through
    [base] and [F]; blocks that touch have been joined; every block handed out
    still has its size in its header. *)
Record heap (s : um) (F live : list block) : Prop := Heap {
  h_brk : lo ≤ brk s ≤ 2 ^ 31;
  h_spaced : spaced base F;
  h_pos : ∀ b, b ∈ F ++ live → 0 < snd b;
  h_owner : ∀ x, owners x (F ++ live) = if (lo <=? x) && (x <? brk s) then 1 else 0;
  h_live : ∀ b, b ∈ live → load32 (umem s) (fst b + 4) = snd b;
  h_links : links (umem s) (nodes F) base;
  h_freep : freep s ∈ fst <$> nodes F
}.

Lemma apart b c : 0 < snd b → 0 < snd c → (∀ x, inb x b + inb x c ≤ 1) →
  fst b + HDR * snd b ≤ fst c ∨ fst c + HDR * snd c ≤ fst b.
Proof.
  clear Hbase. destruct b as [a n], c as [a' n']. cbn [fst snd]. intros Hn Hn' H.
  destruct (Z.le_gt_cases (a + HDR * n) a') as [|H1]; [by left|].
  destruct (Z.le_gt_cases (a' + HDR * n') a) as [|H2]; [by right|]. exfalso.
  specialize (H (Z.max a a')). pose proof (proj2 (inb_in (Z.max a a') a n)).
  pose proof (proj2 (inb_in (Z.max a a') a' n')). unfold HDR in *. lia.
Qed.

Lemma heap_bounds s F live b : heap s F live → b ∈ F ++ live → lo ≤ fst b ∧ fst b + HDR * snd b ≤ brk s.
Proof.
  intros H Hb. pose proof (h_pos _ _ _ H b Hb) as Hp. destruct b as [a n]. cbn [fst snd] in *.
  assert (Hin : ∀ x, a ≤ x < a + HDR * n → lo ≤ x < brk s).
  { intros x Hx. pose proof (owners_elem x _ _ Hb) as Ho. rewrite (proj2 (inb_in x a n) Hx), (h_owner _ _ _ H) in Ho.
    destruct (Z.leb_spec lo x), (Z.ltb_spec x (brk s)); cbn in Ho; lia. }
  pose proof (Hin a ltac:(unfold HDR; lia)). pose proof (Hin (a + HDR * n - 1) ltac:(unfold HDR; lia)). lia.
Qed.

(** Two blocks at different places of the lists do not overlap. *)
Lemma heap_apart s F live l1 b l2 c : heap s F live → F ++ live = l1 ++ b :: l2 → c ∈ l1 ++ l2 →
  fst b + HDR * snd b ≤ fst c ∨ fst c + HDR * snd c ≤ fst b.
Proof.
  clear Hbase. intros H E Hc. apply apart.
  - apply (h_pos _ _ _ H). rewrite E. set_solver.
  - apply (h_pos _ _ _ H). rewrite E. set_solver.
  - intros x. pose proof (h_owner _ _ _ H x) as Ho. rewrite E, owners_app in Ho. cbn in Ho.
    pose proof (owners_elem x _ _ Hc) as H1. rewrite owners_app in H1. destruct (_ && _); lia.
Qed.

Lemma end_of_bound lo' l lim : lo' ≤ lim → (∀ b, b ∈ l → fst b + HDR * snd b ≤ lim) → end_of lo' l ≤ lim.
Proof.
  revert lo'. induction l as [|[a n] l IH]; intros lo' Hlo Hl; cbn; [done|].
  apply IH; [apply (Hl (a, n)); set_solver|set_solver].
Qed.

(** The free blocks below and above an address that none of them contains. *)
Lemma split_at lo' F bp : spaced lo' F → (∀ b, b ∈ F → fst b + HDR * snd b ≤ bp ∨ bp < fst b) →
  ∃ L1 L2, F = L1 ++ L2 ∧ (∀ b, b ∈ L1 → fst b + HDR * snd b ≤ bp) ∧ (∀ b, b ∈ L2 → bp < fst b).
Proof.
  revert lo'. induction F as [|[a n] F IH]; intros lo' Hsp HF.
  - exists [], []. split; [done|]. split; intros b Hb; by apply elem_of_nil in Hb.
  - destruct Hsp as (H1 & H2 & H3). destruct (HF (a, n) ltac:(set_solver)) as [Hle|Hgt]; cbn in *.
    + destruct (IH _ H3 ltac:(set_solver)) as (L1 & L2 & -> & HL1 & HL2). exists ((a, n) :: L1), L2.
      split; [done|]. split; [|done]. intros b [->|Hb]%elem_of_cons; auto.
    + exists [], ((a, n) :: F). split; [done|]. split; [intros b Hb; by apply elem_of_nil in Hb|].
      intros b [->|Hb]%elem_of_cons; [done|]. pose proof (spaced_elem _ _ _ H3 Hb). unfold HDR in *. lia.
Qed.

(** The node before an address, the nodes before it and the blocks after it. *)
Record around (F P : list block) (p ps : Z) (L2 : list block) (bp : Z) : Prop := Around {
  ar_nodes : nodes F = P ++ (p, ps) :: L2;
  ar_spaced : spaced (base - 1) (P ++ [(p, ps)]);
  ar_before : ∀ b, b ∈ P → base ≤ fst b ∧ fst b + HDR ≤ p;
  ar_p : base ≤ p ∧ p + HDR * ps ≤ bp ∧ p + HDR ≤ bp;
  ar_after : ∀ b, b ∈ L2 → bp < fst b;
  ar_where : (P = [] ∧ p = base ∧ ps = 0 ∧ L2 = F) ∨ ((∃ P', P = (base, 0) :: P') ∧ (p, ps) ∈ F)
}.

Lemma heap_around s F live bp : heap s F live → lo ≤ bp →
  (∀ b, b ∈ F → fst b + HDR * snd b ≤ bp ∨ bp < fst b) → ∃ P p ps L2, around F P p ps L2 bp.
Proof.
  intros H Hbp HF. destruct (split_at _ _ _ (h_spaced _ _ _ H) HF) as (L1 & L2 & -> & HL1 & HL2).
  destruct (exists_last (l := nodes L1)) as (P & [p ps] & E); [done|]. exists P, p, ps, L2.
  assert (Hsp : spaced (base - 1) (P ++ [(p, ps)])).
  { rewrite <- E. cbn. split; [lia|]. split; [lia|]. pose proof (h_spaced _ _ _ H) as Hs.
    apply spaced_app in Hs as [Hs _]. by replace (base + HDR * 0) with base by lia. }
  assert (Hin : ∀ b, b ∈ P ++ [(p, ps)] → b = (base, 0) ∨ (b ∈ L1 ∧ 0 < snd b ∧ lo ≤ fst b)).
  { intros b. rewrite <- E. intros [->|Hb]%elem_of_cons; [by left|]. right. split; [done|].
    split; [apply (h_pos _ _ _ H); set_solver|]. eapply heap_bounds; [done|set_solver]. }
  assert (Hp : (p, ps) = (base, 0) ∨ (p, ps) ∈ L1 ∧ 0 < ps ∧ lo ≤ p) by (apply Hin; set_solver).
  split.
  - unfold nodes in *. by rewrite app_comm_cons, E, <- app_assoc.
  - done.
  - intros b Hb. apply spaced_app in Hsp as [HspP (HpP & _)]. pose proof (end_of_elem _ _ _ HspP Hb) as Hend.
    destruct (Hin b ltac:(set_solver)) as [->|(_ & Hpos & Hlo)]; cbn [fst snd] in *; [|unfold HDR in *; lia].
    destruct Hp as [[= -> ->]|(_ & _ & ?)]; unfold HDR in *; lia.
  - destruct Hp as [[= -> ->]|(Hp & Hps & Hplo)]; [unfold HDR in *; lia|].
    specialize (HL1 _ Hp). cbn in HL1. unfold HDR in *. lia.
  - done.
  - destruct P as [|b P']; [left|right].
    + injection E as <- <- HL. by destruct L1.
    + injection E as <- HL. split; [by exists P'|]. rewrite HL. set_solver.
Qed.

(** The list [P ++ J] that [free] leaves is again [base] and free blocks. *)
Lemma nodes_again F P p ps L2 bp n J' : around F P p ps L2 bp → (ps = 0 → n = 0) →
  ∃ F', P ++ (p, n) :: J' = nodes F'.
Proof.
  intros [_ _ _ _ _ [(-> & -> & -> & _)|((P' & ->) & _)]] Hn.
  - exists J'. cbn. by rewrite Hn.
  - by exists (P' ++ (p, n) :: J').
Qed.

Lemma owners_nodes x F : owners x (nodes F) = owners x F.
Proof.
  cbn [nodes owners]. destruct (inb_cases x (base, 0)) as [->|H%inb_in]; [done|]. unfold HDR in H. lia.
Qed.

Lemma heap_nodes s F live P p ps L2 bp : heap s F live → around F P p ps L2 bp →
  links (umem s) (P ++ (p, ps) :: L2) base ∧ spaced (base - 1) (P ++ (p, ps) :: L2) ∧
  (∀ b, b ∈ P ++ [(p, ps)] → base ≤ fst b < bp) ∧ (∀ b, b ∈ P ++ (p, ps) :: L2 → b = (base, 0) ∨ b ∈ F) ∧
  ∀ b, b ∈ L2 → b ∈ F.
Proof.
  intros H [An Asp Abef (Ap1 & Ap2 & Ap3) Aaft Aw]. rewrite <- An.
  assert (HF : ∀ b, b ∈ P ++ (p, ps) :: L2 → b = (base, 0) ∨ b ∈ F) by (intros b; rewrite <- An; apply elem_of_cons).
  split; [exact (h_links _ _ _ H)|]. split.
  { cbn. split; [lia|]. split; [lia|]. replace (base + HDR * 0) with base by lia. exact (h_spaced _ _ _ H). }
  split; [|split; [by rewrite An|]].
  - intros b [Hb| ->%list_elem_of_singleton]%elem_of_app; [|unfold HDR in *; cbn; lia].
    destruct (Abef b Hb). unfold HDR in *. lia.
  - intros b Hb. destruct (HF b ltac:(set_solver)) as [->|]; [|done]. specialize (Aaft _ Hb). cbn in Aaft.
    unfold HDR in *. lia.
Qed.

Lemma find_run fuel s F live P p ps L2 bp : heap s F live → around F P p ps L2 bp → (length F ≤ fuel)%nat →
  free_find fuel bp (freep s) s = Done (p, s).
Proof.
  intros H A Hf. destruct (heap_nodes _ _ _ _ _ _ _ _ H A) as (H1 & H2 & H3 & _).
  destruct A as [An _ _ _ Aaft Aw]. eapply free_find_run; try done.
  - rewrite <- An. apply (h_freep _ _ _ H).
  - destruct Aw as [(-> & -> & _)|((P' & ->) & _)]; done.
  - apply (f_equal length) in An. rewrite length_app in An. cbn in An. lia.
Qed.

(** Writes to two headers, of the freed block and of the node before it. *)
Lemma heap_rebuild s F l1 bp bs l2 P p ps L2 m F' :
  heap s F (l1 ++ (bp, bs) :: l2) → around F P p ps L2 bp →
  links m (nodes F') base → spaced base F' → p ∈ fst <$> nodes F' →
  (∀ x, ¬ (p ≤ x < p + HDR) → ¬ (bp ≤ x < bp + HDR) → m x = umem s x) →
  (∀ b, b ∈ F' → 0 < snd b) → (∀ x, owners x F' = owners x F + inb x (bp, bs)) →
  heap (Um m p (brk s)) F' (l1 ++ l2) ∧
  ∀ b x, b ∈ l1 ++ l2 → fst b ≤ x < fst b + HDR * snd b → m x = umem s x.
Proof.
  intros H A Hl Hsp Hp Ho Hpos Hown.
  assert (Hfr : ∀ b x, b ∈ l1 ++ l2 → fst b ≤ x < fst b + HDR * snd b → m x = umem s x).
  { intros b x Hb Hx. pose proof (heap_bounds _ _ _ b H ltac:(set_solver)) as [Hb1 _].
    pose proof (h_pos _ _ _ H (bp, bs) ltac:(set_solver)) as Hbs. cbn in Hbs. apply Ho.
    - destruct A as [_ _ _ _ _ [(_ & -> & _)|(_ & Hin)]]; [unfold HDR in *; lia|].
      pose proof (h_pos _ _ _ H (p, ps) ltac:(set_solver)) as Hps. cbn in Hps.
      apply list_elem_of_split in Hin as (F1 & F2 & EF).
      destruct (heap_apart s F _ F1 (p, ps) (F2 ++ l1 ++ (bp, bs) :: l2) b H) as [?|?];
        [by rewrite EF, <- app_assoc|set_solver|cbn in *; unfold HDR in *; lia..].
    - destruct (heap_apart s F _ (F ++ l1) (bp, bs) l2 b H) as [?|?];
        [by rewrite <- app_assoc|set_solver|cbn in *; unfold HDR in *; lia..]. }
  split; [|done]. split; cbn [umem brk freep]; try done.
  - exact (h_brk _ _ _ H).
  - intros b [Hb|Hb]%elem_of_app; [auto|]. apply (h_pos _ _ _ H). set_solver.
  - intros x. rewrite <- (h_owner _ _ _ H x), !owners_app, Hown. cbn [owners]. lia.
  - intros b Hb. pose proof (h_pos _ _ _ H b ltac:(set_solver)).
    rewrite <- (h_live _ _ _ H b) by set_solver. apply load32_ext. intros x Hx. apply (Hfr b); [done|].
    unfold HDR. lia.
Qed.

Lemma free_run fuel s F l1 bp bs l2 : heap s F (l1 ++ (bp, bs) :: l2) → (length F ≤ fuel)%nat →
  ∃ s' F', free fuel (bp + HDR) s = Done ((), s') ∧ heap s' F' (l1 ++ l2) ∧ brk s' = brk s ∧
    (∃ b, b ∈ F' ∧ bs ≤ snd b) ∧ (length F' ≤ S (length F))%nat ∧
    (∀ b x, b ∈ l1 ++ l2 → fst b ≤ x < fst b + HDR * snd b → umem s' x = umem s x) ∧
    ∀ x, owners x F' = owners x F + inb x (bp, bs).
Proof.
  intros H Hfuel. pose proof (h_brk _ _ _ H) as Hbrk.
  assert (E : F ++ l1 ++ (bp, bs) :: l2 = (F ++ l1) ++ (bp, bs) :: l2) by (by rewrite <- app_assoc).
  pose proof (heap_bounds _ _ _ (bp, bs) H ltac:(set_solver)) as [Hb1 Hb2]. cbn [fst snd] in Hb1, Hb2.
  pose proof (h_pos _ _ _ H (bp, bs) ltac:(set_solver)) as Hbs. cbn in Hbs.
  assert (Hap : ∀ c, c ∈ (F ++ l1) ++ l2 → bp + HDR * bs ≤ fst c ∨ fst c + HDR * snd c ≤ bp)
    by (intros c Hc; exact (heap_apart _ _ _ _ _ _ _ H E Hc)).
  destruct (heap_around _ _ _ bp H Hb1) as (P & p & ps & L2 & A).
  { intros b Hb. destruct (Hap b ltac:(set_solver)); [right; unfold HDR in *; lia|by left]. }
  destruct (heap_nodes _ _ _ _ _ _ _ _ H A) as (Hlinks & Hsp & _ & HF & HL2).
  unfold free. unfold hdr_add. rewrite u32_small by (unfold HDR in *; lia).
  replace (bp + HDR + HDR * -1) with bp by (unfold HDR; lia). rewrite run_getS.
  rewrite (bind_done _ _ _ _ _ (find_run fuel _ _ _ _ _ _ _ _ H A Hfuel)).
  pose proof A as [An Asp Abef (Ap1 & Ap2 & Ap3) Aaft Aw].
  rewrite run_get_ptr. apply links_app in Hlinks as [HlP (Hp1 & Hp2 & HlL2)]. rewrite Hp1.
  apply spaced_app in Hsp as [HspP (HpP & Hps0 & HspL2)].
  assert (HL2b : ∀ b, b ∈ L2 → bp + HDR * bs ≤ fst b).
  { intros b Hb. specialize (Aaft b Hb). specialize (HL2 b Hb). destruct (Hap b ltac:(set_solver)); [done|].
    pose proof (h_pos _ _ _ H b ltac:(set_solver)). unfold HDR in *. lia. }
  destruct (join_above_run base (brk s) ltac:(unfold HDR in *; lia) s bp bs L2) as
    (m1 & bs' & L & Hrun1 & J1 & J2 & J3 & J4 & J5 & J6 & J7 & J8 & J9 & J10); try done.
  { destruct L2 as [|[a n] L2]; [done|]. specialize (Aaft (a, n) ltac:(set_solver)). cbn in *. split; [lia|]. apply HspL2. }
  { apply end_of_bound; [done|]. intros b Hb. eapply heap_bounds; [done|]. specialize (HL2 b Hb). set_solver. }
  { unfold HDR in *. lia. }
  { apply (h_live _ _ _ H (bp, bs)). set_solver. }
  { intros b Hb. apply (h_pos _ _ _ H). specialize (HL2 b Hb). set_solver. }
  rewrite (bind_done _ _ _ _ _ Hrun1).
  destruct (join_below_run base (brk s) ltac:(unfold HDR in *; lia) (wr s m1) bp bs' p ps P L (first L2 base)) as
    (m2 & J & Hrun2 & K1 & K2 & (n & J' & -> & K3) & K4 & K5 & (b0 & Hb0 & Hb0s) & K6 & K7); try done; cbn [wr umem brk] in *.
  { apply (links_same (umem s)).
    - eapply same_headers_out; [exact J4|]. intros b [Hb| ->%list_elem_of_singleton]%elem_of_app; left; [|done].
      destruct (Abef b Hb). unfold HDR in *. lia.
    - apply links_app. by split. }
  { intros b Hb. by apply Abef. }
  { lia. }
  destruct (nodes_again _ _ _ _ _ _ n J' A K3) as (F' & EF). rewrite EF in K1, K2.
  pose proof K2 as (_ & _ & K2'). replace (base + HDR * 0) with base in K2' by lia.
  assert (Hmem : ∀ b, b ∈ F' → b ∈ F ∨ bs' ≤ snd b).
  { intros b Hb. pose proof (spaced_elem _ _ _ K2' Hb) as [Hgt _].
    assert (Hb' : b ∈ P ++ (p, n) :: J') by (rewrite EF; set_solver).
    assert (Hne : b ≠ (base, 0)) by (intros ->; cbn in Hgt; lia).
    apply elem_of_app in Hb' as [Hb'|Hb']; [left; destruct (HF b ltac:(set_solver)); done|].
    destruct (K5 b Hb') as [Hb''|[->|?]]; [left; auto|left|by right]. destruct (HF (p, ps) ltac:(set_solver)); done. }
  assert (Hown : ∀ x, owners x F' = owners x F + inb x (bp, bs)).
  { intros x. rewrite <- (owners_nodes x F'), <- (owners_nodes x F), <- EF, An, !owners_app, K7.
    cbn [owners]. specialize (J10 x). lia. }
  exists (Um m2 p (brk s)), F'. split; [exact Hrun2|].
  destruct (heap_rebuild s F l1 bp bs l2 P p ps L2 m2 F') as [Hh Hfr]; try done.
  { rewrite <- EF. rewrite fmap_app. set_solver. }
  { intros x Hx1 Hx2. by rewrite K4, J4. }
  { intros b Hb. destruct (Hmem b Hb) as [Hb'|]; [|lia]. apply (h_pos _ _ _ H). set_solver. }
  split; [done|]. split; [done|]. split; [|split; [|by split]].
  2: { apply (f_equal length) in EF, An. rewrite length_app in EF, An. cbn [length nodes] in *. lia. }
  exists b0. split; [|lia]. assert (Hb : b0 ∈ nodes F') by (rewrite <- EF; set_solver).
  apply elem_of_cons in Hb as [->|]; [cbn in Hb0s; lia|done].
Qed.

(** ** The loop of [malloc] *)

Section malloc.
Context (grows : Z → Z → bool) (nunits : Z).
Hypothesis Hnu : 0 < nunits < 2 ^ 28.

Lemma loop_big fuel prev a s : nunits ≤ load32 (umem s) (a + 4) →
  malloc_loop grows fuel nunits prev a s = take_block nunits prev a s.
Proof.
  intros H. destruct fuel; cbn [malloc_loop]; rewrite run_get_size; by rewrite (proj2 (Z.leb_le _ _) H).
Qed.

Lemma loop_small fuel prev a s : load32 (umem s) (a + 4) < nunits → a ≠ freep s →
  malloc_loop grows (S fuel) nunits prev a s = malloc_loop grows fuel nunits a (load32 (umem s) a) s.
Proof.
  intros H Ha. cbn [malloc_loop]. rewrite run_get_size, (proj2 (Z.leb_gt _ _) H), run_getS.
  by rewrite (proj2 (Z.eqb_neq _ _) Ha), run_get_ptr.
Qed.

(** The address of the last of [x] and [l]. *)
Fixpoint last_addr (x : Z) (l : list block) : Z :=
  match l with [] => x | (a, _) :: l => last_addr a l end.

Lemma last_addr_split x xs l : ∃ P n, (x, xs) :: l = P ++ [(last_addr x l, n)].
Proof.
  revert x xs. induction l as [|[a n] l IH]; intros x xs; cbn; [by exists [], xs|].
  destruct (IH a n) as (P & n' & ->). by exists ((x, xs) :: P), n'.
Qed.

(** Walking over blocks [S] up to those of [T]. *)
Lemma walk s x S T fuel : links (umem s) (S ++ T) base → freep s ∉ fst <$> S →
  (∃ S1 a n S2, S = S1 ++ (a, n) :: S2 ∧ nunits ≤ n ∧
    malloc_loop grows (length S + fuel) nunits x (first (S ++ T) base) s = take_block nunits (last_addr x S1) a s) ∨
  ((∀ b, b ∈ S → snd b < nunits) ∧
    malloc_loop grows (length S + fuel) nunits x (first (S ++ T) base) s =
    malloc_loop grows fuel nunits (last_addr x S) (first T base) s).
Proof.
  revert x. induction S as [|[a n] S IH]; intros x Hl Hf.
  { right. split; [intros b Hb; by apply elem_of_nil in Hb|done]. }
  destruct Hl as (H1 & H2 & H3). cbn [app first length Nat.add].
  destruct (Z.le_gt_cases nunits n) as [Hn|Hn].
  - left. exists [], a, n, S. split; [done|]. split; [done|]. apply loop_big. by rewrite H2.
  - rewrite loop_small by (rewrite ?H2; set_solver). rewrite H1.
    destruct (IH a H3 ltac:(set_solver)) as [(S1 & a' & n' & S2 & -> & Hn' & E)|[Hall E]].
    + left. by exists ((a, n) :: S1), a', n', S2.
    + right. split; [|done]. intros b [->|Hb]%elem_of_cons; [done|auto].
Qed.

(** What the loop does when it is back at [freep]. *)
Definition ask_more (fuel : nat) : M um Z :=
  p ← morecore grows (S fuel) nunits;
  if p =? 0 then mret 0 else next ← get_ptr p; malloc_loop grows fuel nunits p next.

Lemma loop_freep fuel prev s : load32 (umem s) (freep s + 4) < nunits →
  malloc_loop grows (S fuel) nunits prev (freep s) s = ask_more fuel s.
Proof.
  intros H. cbn [malloc_loop]. rewrite run_get_size, (proj2 (Z.leb_gt _ _) H), run_getS. by rewrite Z.eqb_refl.
Qed.

(** The block that is taken and the node before it. *)
Definition taken (F : list block) (prev a n : Z) : Prop :=
  nunits ≤ n ∧ ∃ P pn Q, nodes F = P ++ (prev, pn) :: (a, n) :: Q.

Lemma taken_after A x xs S1 a n S2 F : nodes F = A ++ (x, xs) :: S1 ++ (a, n) :: S2 → nunits ≤ n →
  taken F (last_addr x S1) a n.
Proof.
  intros HF Hn. split; [done|]. destruct (last_addr_split x xs S1) as (P & pn & E).
  exists (A ++ P), pn, S2. by rewrite HF, app_comm_cons, E, <- !app_assoc.
Qed.

(** One lap around the free list from [freep]: the first block that is big
    enough is taken, or all are too small. *)
Lemma lap s F live fuel : heap s F live → (length F + 2 ≤ fuel)%nat →
  let r := malloc_loop grows fuel nunits (freep s) (load32 (umem s) (freep s)) s in
  (∃ prev a n, taken F prev a n ∧ r = take_block nunits prev a s) ∨
  ((∀ b, b ∈ F → snd b < nunits) ∧
   ∃ fuel', (fuel ≤ fuel' + length F + 2)%nat ∧ r = ask_more fuel' s).
Proof.
  intros H Hf r. pose proof (h_links _ _ _ H) as Hl. pose proof (h_freep _ _ _ H) as Hfp.
  assert (Hnd : NoDup (fst <$> nodes F)).
  { apply (spaced_nodup (base - 1)). cbn. split; [lia|]. split; [lia|].
    replace (base + HDR * 0) with base by lia. exact (h_spaced _ _ _ H). }
  apply list_elem_of_fmap in Hfp as ([f fs] & Ef & Hin). cbn in Ef. subst r. rewrite Ef.
  apply list_elem_of_split in Hin as (A & B & HF). rewrite HF in Hl, Hnd.
  apply links_app in Hl as [HlA (Hf1 & Hf2 & HlB)]. rewrite fmap_app in Hnd. cbn [fmap list_fmap fst] in Hnd.
  apply NoDup_app in Hnd as (_ & HdA & HdB). apply NoDup_cons in HdB as [HfB _]. rewrite Hf1.
  assert (Hlen : (length A + length B = length F)%nat).
  { apply (f_equal length) in HF. rewrite length_app in HF. cbn in HF. lia. }
  replace fuel with (length B + (fuel - length B))%nat by lia.
  pose proof (walk s f B [] (fuel - length B)) as W. rewrite app_nil_r in W.
  destruct (W HlB ltac:(by rewrite Ef)) as [(S1 & a & n & S2 & EB & Hn & E)|[HallB E]].
  { left. exists (last_addr f S1), a, n. split; [|exact E]. eapply taken_after; [|done]. by rewrite HF, EB. }
  rewrite E. cbn [first]. destruct A as [|c A].
  - right. injection HF as <- <- ->. split; [done|]. destruct (fuel - length B)%nat as [|fuel'] eqn:Eq; [cbn in *; lia|].
    exists fuel'. split; [cbn in *; lia|]. rewrite <- Ef. apply loop_freep. rewrite Ef, Hf2. lia.
  - injection HF as <- HF. destruct HlA as (Hb1 & Hb2 & HlA). cbn [length] in Hlen.
    destruct (fuel - length B)%nat as [|fuel1] eqn:Eq; [lia|].
    rewrite loop_small; [|rewrite Hb2; lia|rewrite Ef; intros <-; apply (HdA base); set_solver].
    rewrite Hb1. replace fuel1 with (length A + (fuel1 - length A))%nat by lia.
    destruct (walk s base A ((f, fs) :: B) (fuel1 - length A)) as [(S1 & a & n & S2 & EA & Hn & E')|[HallA E']].
    { apply links_app. split; [done|]. cbn. by split. }
    { rewrite Ef. intros Hin. apply (HdA f); set_solver. }
    { left. exists (last_addr base S1), a, n. split; [|by rewrite first_app in E'].
      apply (taken_after [] base 0 _ _ _ (S2 ++ (f, fs) :: B)); [|done]. unfold nodes. rewrite HF, EA, <- app_assoc. done. }
    rewrite first_app in E'. rewrite E'. cbn [first].
    destruct (Z.le_gt_cases nunits fs) as [Hfs|Hfs].
    + left. exists (last_addr base A), f, fs. split; [|apply loop_big; by rewrite Hf2].
      apply (taken_after [] base 0 _ _ _ B); [|done]. unfold nodes. by rewrite HF.
    + right. split.
      { intros b. rewrite HF. intros [Hb|[->|Hb]%elem_of_cons]%elem_of_app; auto. }
      destruct (fuel1 - length A)%nat as [|fuel2] eqn:Eq2; [lia|]. exists fuel2. split; [lia|].
      rewrite <- Ef. apply loop_freep. by rewrite Ef, Hf2.
Qed.

(** Headers of different nodes do not overlap. *)
Lemma nodes_sep s F live A b B : heap s F live → nodes F = A ++ b :: B →
  (∀ c, c ∈ A → fst c + HDR ≤ fst b) ∧ (∀ c, c ∈ B → fst b + HDR ≤ fst c).
Proof.
  intros H E.
  assert (Hsp : spaced (base - 1) (A ++ b :: B)).
  { rewrite <- E. cbn. split; [lia|]. split; [lia|]. replace (base + HDR * 0) with base by lia. exact (h_spaced _ _ _ H). }
  assert (Hin : ∀ c, c ∈ A ++ b :: B → c = (base, 0) ∨ 0 < snd c ∧ lo ≤ fst c).
  { intros c. rewrite <- E. intros [->|Hc]%elem_of_cons; [by left|]. right.
    split; [apply (h_pos _ _ _ H)|eapply heap_bounds; [done|]]; set_solver. }
  assert (Hstep : ∀ c d, c ∈ A ++ b :: B → d ∈ A ++ b :: B → fst c < fst d → fst c + HDR * snd c < fst d → fst c + HDR ≤ fst d).
  { intros c d Hc Hd Hlt Hend. destruct (Hin c Hc) as [->|[Hpos _]]; [|unfold HDR in *; lia].
    destruct (Hin d Hd) as [->|[_ ?]]; cbn in *; lia. }
  apply spaced_app in Hsp as [HA HB]. destruct b as [p ps]. pose proof HB as (HpA & Hps & HB'). cbn [fst snd].
  split; intros c Hc; apply (Hstep c (p, ps)) || apply (Hstep (p, ps) c); try set_solver; cbn [fst snd];
    [pose proof (end_of_elem _ _ _ HA Hc); pose proof (spaced_elem _ _ _ HA Hc); unfold HDR in *; lia..| |];
    pose proof (spaced_elem _ _ _ HB' Hc); unfold HDR in *; lia.
Qed.

(** Writes to the header of a node and inside the free block after it. *)
Lemma heap_take s F live P prev pn a n Q m r F' :
  heap s F live → nodes F = P ++ (prev, pn) :: (a, n) :: Q →
  links m (nodes F') base → spaced base F' → prev ∈ fst <$> nodes F' →
  (∀ x, ¬ (prev ≤ x < prev + HDR) → ¬ (a ≤ x < a + HDR * n) → m x = umem s x) →
  (∀ b, b ∈ F' → 0 < snd b) → (∀ x, owners x F' + inb x (r, nunits) = owners x F) →
  load32 m (r + 4) = nunits →
  heap (Um m prev (brk s)) F' ((r, nunits) :: live) ∧
  ∀ b x, b ∈ live → fst b ≤ x < fst b + HDR * snd b → m x = umem s x.
Proof.
  intros H E Hl Hsp Hp Ho Hpos Hown Hr.
  assert (Hfr : ∀ b x, b ∈ live → fst b ≤ x < fst b + HDR * snd b → m x = umem s x).
  { intros b x Hb Hx. pose proof (heap_bounds _ _ _ b H ltac:(set_solver)) as [Hb1 _].
    assert (Hap : ∀ c, c ∈ F → fst c + HDR * snd c ≤ fst b ∨ fst b + HDR * snd b ≤ fst c).
    { intros c Hc. apply list_elem_of_split in Hc as (F1 & F2 & EF).
      apply (heap_apart s F live F1 c (F2 ++ live) b H); [by rewrite EF, <- app_assoc|set_solver]. }
    assert (Hin : ∀ c, c ∈ P ++ (prev, pn) :: (a, n) :: Q → c = (base, 0) ∨ c ∈ F)
      by (intros c; rewrite <- E; apply elem_of_cons).
    apply Ho.
    - destruct (Hin (prev, pn) ltac:(set_solver)) as [[= -> ->]|Hc]; [unfold HDR in *; lia|].
      pose proof (h_pos _ _ _ H (prev, pn) ltac:(set_solver)). destruct (Hap _ Hc); cbn in *; unfold HDR in *; lia.
    - destruct (Hin (a, n) ltac:(set_solver)) as [[= -> ->]|Hc]; [unfold HDR in *; lia|].
      destruct (Hap _ Hc); cbn in *; unfold HDR in *; lia. }
  split; [|done]. split; cbn [umem brk freep]; try done.
  - exact (h_brk _ _ _ H).
  - intros b [Hb|[->|Hb]%elem_of_cons]%elem_of_app; [auto|cbn; lia|]. apply (h_pos _ _ _ H). set_solver.
  - intros x. rewrite <- (h_owner _ _ _ H x), !owners_app, <- Hown. cbn [owners]. lia.
  - intros b [->|Hb]%elem_of_cons; [done|]. pose proof (h_pos _ _ _ H b ltac:(set_solver)).
    rewrite <- (h_live _ _ _ H b Hb). apply load32_ext. intros x Hx. apply (Hfr b); [done|]. unfold HDR. lia.
Qed.

Lemma links_set_last m P p ps q w : links m (P ++ [(p, ps)]) q → 0 ≤ w < 2 ^ 32 →
  (∀ b, b ∈ P → fst b + HDR ≤ p) → links (store32 m p w) (P ++ [(p, ps)]) w.
Proof.
  intros [HP (_ & Hs & _)]%links_app Hw Hsep. destruct (load_ptr m p w Hw) as (W1 & W2 & W3).
  apply links_app. split; [|by rewrite <- Hs].
  eapply links_same; [eapply (same_headers_out _ _ p HDR); [exact W3|auto]|exact HP].
Qed.

(** What [malloc] does for its caller: [r] is the block. *)
Definition allocated (s s' : um) (live : list block) (r : Z) : Prop :=
  ∃ F', heap s' F' ((r, nunits) :: live) ∧
    ∀ b x, b ∈ live → fst b ≤ x < fst b + HDR * snd b → umem s' x = umem s x.

(** The free list around the block that is taken. *)
Record cut (s : um) (F : list block) (prev a n : Z) (P : list block) (pn : Z) (F1 Q : list block) : Prop := Cut {
  ct_nodes : nodes F = P ++ (prev, pn) :: (a, n) :: Q;
  ct_before : P ++ [(prev, pn)] = nodes F1;
  ct_free : F = F1 ++ (a, n) :: Q;
  ct_links1 : links (umem s) (nodes F1) a;
  ct_next : load32 (umem s) a = first Q base;
  ct_size : load32 (umem s) (a + 4) = n;
  ct_links2 : links (umem s) Q base;
  ct_spaced1 : spaced base F1;
  ct_gap : end_of base F1 < a;
  ct_spaced2 : spaced (a + HDR * n) Q;
  ct_sep : ∀ b, b ∈ nodes F1 → fst b + HDR ≤ a;
  ct_prev : ∀ b, b ∈ P → fst b + HDR ≤ prev;
  ct_bounds : lo ≤ a ∧ a + HDR * n ≤ brk s ∧ brk s ≤ 2 ^ 31;
  ct_first : 0 ≤ first Q base < 2 ^ 32
}.

Lemma taken_cut s F live prev a n : heap s F live → taken F prev a n →
  ∃ P pn F1 Q, cut s F prev a n P pn F1 Q.
Proof.
  intros H (Hn & P & pn & Q & E). pose proof (h_brk _ _ _ H) as Hbrk.
  assert (E1 : nodes F = (P ++ [(prev, pn)]) ++ (a, n) :: Q) by (by rewrite <- app_assoc).
  destruct (nodes_sep _ _ _ _ _ _ H E) as [Hsep1 _], (nodes_sep _ _ _ _ _ _ H E1) as [Hsep2 _].
  assert (∃ F1, P ++ [(prev, pn)] = nodes F1 ∧ F = F1 ++ (a, n) :: Q) as (F1 & E2 & EF).
  { clear Hsep1 Hsep2. destruct P as [|c P]; injection E as <- E; [exists []|exists (P ++ [(prev, pn)])]; [by subst|].
    split; [done|]. by rewrite E, <- app_assoc. }
  pose proof (h_links _ _ _ H) as Hl. rewrite E1, E2 in Hl. apply links_app in Hl as [HlP (Ha1 & Ha2 & HlQ)].
  pose proof (h_spaced _ _ _ H) as Hsp. rewrite EF in Hsp. apply spaced_app in Hsp as [Hsp1 (Hspa & Hn0 & Hsp2)].
  pose proof (heap_bounds _ _ _ (a, n) H ltac:(set_solver)) as [Hab1 Hab2]. cbn [fst snd] in *.
  exists P, pn, F1, Q. rewrite E2 in Hsep2. split; try done; [lia|].
  apply (first_bounds base (brk s) ltac:(unfold HDR in *; lia) _ _ Hsp2 ltac:(unfold HDR in *; lia)).
  apply end_of_bound; [done|]. intros b Hb. eapply heap_bounds; [done|]. set_solver.
Qed.

(** A block of just the right size is taken off the list. *)
Lemma take_exact s F live prev a P pn F1 Q : heap s F live → cut s F prev a nunits P pn F1 Q →
  ∃ s', take_block nunits prev a s = Done (a + HDR, s') ∧ allocated s s' live a.
Proof.
  intros H [En E2 EF HlP Ha1 Ha2 HlQ Hsp1 Hgap Hsp2 Hsep Hprev (Hb1 & Hb2 & Hb3) Hw].
  destruct (load_ptr (umem s) prev (first Q base) Hw) as (_ & _ & W3).
  assert (Hpa : prev + HDR ≤ a) by (apply (Hsep (prev, pn)); rewrite <- E2; set_solver).
  exists (Um (store32 (umem s) prev (first Q base)) prev (brk s)). split.
  { unfold take_block. rewrite run_get_size, Ha2, Z.eqb_refl, run_bind, run_get_ptr, Ha1, run_put_ptr. cbn.
    unfold hdr_add. rewrite u32_small by (unfold HDR in *; lia). by replace (a + HDR * 1) with (a + HDR) by lia. }
  exists (F1 ++ Q). change (nodes F = P ++ (prev, pn) :: (a, nunits) :: Q) in En.
  apply (heap_take s F live P prev pn a nunits Q _ a); try done; change (nodes (F1 ++ Q)) with (nodes F1 ++ Q).
  - apply links_app. split.
    + rewrite <- E2 in *. by eapply links_set_last.
    + eapply links_same; [eapply (same_headers_out _ _ prev HDR); [exact W3|]|exact HlQ].
      intros b Hb. right. pose proof (spaced_elem _ _ _ Hsp2 Hb). unfold HDR in *. lia.
  - apply spaced_app. split; [done|]. eapply spaced_weaken; [|exact Hsp2]. unfold HDR in *. lia.
  - rewrite <- E2, !fmap_app. set_solver.
  - intros x Hx _. by apply W3.
  - intros b Hb. apply (h_pos _ _ _ H). set_solver.
  - intros x. rewrite EF, !owners_app. cbn [owners]. lia.
  - rewrite <- Ha2. apply load32_ext. intros x Hx. apply W3. unfold HDR in *. lia.
Qed.

(** The end of a bigger block is cut off. *)
Lemma take_tail s F live prev a n P pn F1 Q : heap s F live → cut s F prev a n P pn F1 Q → nunits < n →
  ∃ s' r, take_block nunits prev a s = Done (r + HDR, s') ∧ allocated s s' live r.
Proof.
  intros H [En E2 EF HlP Ha1 Ha2 HlQ Hsp1 Hgap Hsp2 Hsep Hprev (Hb1 & Hb2 & Hb3) _] Hn.
  set (r := a + HDR * (n - nunits)).
  assert (Hr : a + HDR ≤ r ∧ r + HDR * nunits = a + HDR * n) by (subst r; unfold HDR in *; lia).
  set (m1 := store32 (umem s) (a + 4) (n - nunits)). set (m2 := store32 m1 (r + 4) nunits).
  destruct (load_size (umem s) a (n - nunits)) as (W1 & W2 & W3); [unfold HDR in *; lia|]. fold m1 in W1, W2, W3.
  destruct (load_size m1 r nunits) as (V1 & V2 & V3); [lia|]. fold m2 in V1, V2, V3.
  assert (Hout : ∀ x, ¬ (a ≤ x < a + HDR * n) → m2 x = umem s x)
    by (intros x Hx; rewrite V3, W3 by (unfold HDR in *; lia); done).
  assert (Hkeep : ∀ y, a ≤ y < a + HDR - 3 → load32 m2 y = load32 m1 y).
  { intros y Hy. apply load32_ext. intros x Hx. apply V3. unfold HDR in *. lia. }
  exists (Um m2 prev (brk s)), r. split.
  { unfold take_block. rewrite run_get_size, Ha2, (proj2 (Z.eqb_neq _ _)) by lia. rewrite run_bind, run_put_size.
    unfold hdr_add. rewrite (u32_small (n - nunits)) by (unfold HDR in *; lia). fold r.
    rewrite (u32_small r) by (unfold HDR in *; lia). rewrite run_put_size. cbn. fold m1. fold m2.
    rewrite u32_small by (unfold HDR in *; lia). by replace (r + 8) with (r + HDR) by done. }
  exists (F1 ++ (a, n - nunits) :: Q).
  apply (heap_take s F live P prev pn a n Q _ r); try done;
    change (nodes (F1 ++ (a, n - nunits) :: Q)) with (nodes F1 ++ (a, n - nunits) :: Q).
  - apply links_app. split.
    + eapply links_same; [eapply (same_headers_out _ _ a (HDR * n)); [exact Hout|auto]|exact HlP].
    + cbn [links]. rewrite !Hkeep, W1, W2 by (unfold HDR; lia). split; [done|]. split; [done|].
      eapply links_same; [eapply (same_headers_out _ _ a (HDR * n)); [exact Hout|]|exact HlQ].
      intros b Hb. right. pose proof (spaced_elem _ _ _ Hsp2 Hb). unfold HDR in *. lia.
  - apply spaced_app. split; [done|]. cbn. split; [done|]. split; [lia|]. eapply spaced_weaken; [|exact Hsp2].
    unfold HDR in *. lia.
  - rewrite <- E2, !fmap_app. set_solver.
  - intros x _ Hx. by apply Hout.
  - intros b [Hb|[->|Hb]%elem_of_cons]%elem_of_app; [|cbn; lia|]; apply (h_pos _ _ _ H); set_solver.
  - intros x. rewrite EF, !owners_app. cbn [owners]. pose proof (inb_join x a (n - nunits) nunits) as Hj.
    replace (n - nunits + nunits) with n in Hj by lia. subst r. lia.
Qed.

Lemma take_run s F live prev a n : heap s F live → taken F prev a n →
  ∃ s' r, take_block nunits prev a s = Done (r + HDR, s') ∧ allocated s s' live r.
Proof.
  intros H Ht. destruct (taken_cut _ _ _ _ _ _ H Ht) as (P & pn & F1 & Q & Hc). destruct Ht as [Hn _].
  destruct (decide (n = nunits)) as [->|Hne].
  - destruct (take_exact _ _ _ _ _ _ _ _ _ H Hc) as (s' & ? & ?). by exists s', a.
  - eapply take_tail; [done|done|lia].
Qed.

(** The kernel keeps the break of a process below KERNBASE. *)
Hypothesis Hgrow : ∀ b n, grows b n = true → 0 ≤ n → b + n ≤ 2 ^ 31.

(** New memory above the break, with its size in its header. *)
Lemma heap_grown s F live nu : heap s F live → 0 < nu → brk s + HDR * nu ≤ 2 ^ 31 →
  heap (Um (store32 (umem s) (brk s + 4) nu) (freep s) (brk s + HDR * nu)) F ((brk s, nu) :: live).
Proof.
  intros H Hn Hb. pose proof (h_brk _ _ _ H) as Hbrk.
  destruct (load_size (umem s) (brk s) nu) as (W1 & W2 & W3); [unfold HDR in *; lia|].
  assert (Hold : ∀ b x, b ∈ F ++ live → fst b ≤ x < fst b + HDR → store32 (umem s) (brk s + 4) nu x = umem s x).
  { intros b x Hin Hx. pose proof (h_pos _ _ _ H b Hin). destruct (heap_bounds _ _ _ b H Hin). apply W3.
    unfold HDR in *. lia. }
  split; cbn [umem brk freep].
  - unfold HDR in *. lia.
  - exact (h_spaced _ _ _ H).
  - intros b [Hin|[->|Hin]%elem_of_cons]%elem_of_app; [|done|]; apply (h_pos _ _ _ H); set_solver.
  - intros x. rewrite owners_app. cbn [owners]. pose proof (h_owner _ _ _ H x) as Ho. rewrite owners_app in Ho.
    assert (Hi : inb x (brk s, nu) = if (brk s <=? x) && (x <? brk s + HDR * nu) then 1 else 0) by done.
    destruct (Z.leb_spec lo x), (Z.ltb_spec x (brk s)), (Z.leb_spec (brk s) x), (Z.ltb_spec x (brk s + HDR * nu));
      cbn [andb] in *; unfold HDR in *; lia.
  - intros b [->|Hin]%elem_of_cons; [done|]. rewrite <- (h_live _ _ _ H b Hin). apply load32_ext.
    intros x Hx. apply (Hold b); [set_solver|unfold HDR; lia].
  - eapply links_same; [|exact (h_links _ _ _ H)]. intros b x [->|Hin]%elem_of_cons Hx; [|apply (Hold b); set_solver].
    apply W3. cbn in Hx. unfold HDR in *. lia.
  - exact (h_freep _ _ _ H).
Qed.

Lemma sbrk_run n s : sbrk grows n s =
  Done (if grows (brk s) n then (brk s, Um (umem s) (freep s) (brk s + n)) else (u32 (-1), s)).
Proof. unfold sbrk. rewrite run_getS. by destruct (grows (brk s) n). Qed.

Lemma morecore_run fuel s F live : heap s F live → (length F ≤ fuel)%nat →
  (grows (brk s) (Z.max 4096 nunits * HDR) = false ∧ morecore grows fuel nunits s = Done (0, s)) ∨
  ∃ s' F', morecore grows fuel nunits s = Done (freep s', s') ∧ heap s' F' live ∧
    (∃ b, b ∈ F' ∧ nunits ≤ snd b) ∧ (length F' ≤ S (length F))%nat ∧ freep s' ≠ 0 ∧
    ∀ b x, b ∈ live → fst b ≤ x < fst b + HDR * snd b → umem s' x = umem s x.
Proof.
  intros H Hf. pose proof (h_brk _ _ _ H) as Hbrk. unfold morecore.
  set (nu := if nunits <? 4096 then 4096 else nunits).
  assert (Hmax : Z.max 4096 nunits = nu) by (subst nu; destruct (Z.ltb_spec nunits 4096); lia). rewrite Hmax.
  assert (Hnu' : nunits ≤ nu < 2 ^ 28 ∧ 0 < nu) by lia.
  rewrite (u32_small (nu * HDR)), (s32_small (nu * HDR)) by (unfold HDR in *; lia). rewrite run_bind, (sbrk_run (nu * HDR) s).
  destruct (grows (brk s) (nu * HDR)) eqn:Eg; [|by left]. right.
  pose proof (Hgrow _ _ Eg ltac:(unfold HDR; lia)) as Hg'.
  assert (Hb : (brk s =? u32 (-1)) = false) by (apply Z.eqb_neq; change (u32 (-1)) with (2 ^ 32 - 1); lia).
  rewrite Hb, run_put_size. cbn [wr umem freep brk]. rewrite (Z.mul_comm nu).
  pose proof (heap_grown s F live nu H ltac:(lia) ltac:(lia)) as Hg.
  destruct (free_run fuel _ F [] (brk s) nu live Hg Hf) as (s' & F' & Hrun & Hh & _ & (b & Hb1 & Hb2) & Hlen & Hfr & _).
  exists s', F'. unfold hdr_add. rewrite u32_small by (unfold HDR in *; lia).
  replace (brk s + HDR * 1) with (brk s + HDR) by lia. rewrite (bind_done _ _ _ _ _ Hrun), run_getS.
  split; [done|]. split; [done|]. split; [exists b; split; [done|lia]|]. split; [done|]. split.
  - pose proof (h_freep _ _ _ Hh) as Hp. apply list_elem_of_fmap in Hp as (c & -> & [->|Hc]%elem_of_cons); [cbn; lia|].
    pose proof (heap_bounds _ _ _ c Hh ltac:(set_solver)). unfold HDR in *. lia.
  - intros c x Hc Hx. rewrite (Hfr c x Hc Hx). apply store32_out.
    pose proof (heap_bounds _ _ _ c H ltac:(set_solver)). lia.
Qed.

Lemma malloc_loop_run s F live fuel : heap s F live → (2 * length F + 6 ≤ fuel)%nat →
  let r := malloc_loop grows fuel nunits (freep s) (load32 (umem s) (freep s)) s in
  ((∀ b, b ∈ F → snd b < nunits) ∧ grows (brk s) (Z.max 4096 nunits * HDR) = false ∧ r = Done (0, s)) ∨
  ∃ s' a, r = Done (a + HDR, s') ∧ allocated s s' live a.
Proof.
  intros H Hf r. destruct (lap s F live fuel H ltac:(lia)) as [(prev & a & n & Ht & E)|(Hall & fuel' & Hf' & E)];
    subst r; rewrite E.
  { right. by eapply take_run. }
  unfold ask_more. destruct (morecore_run (S fuel') s F live H ltac:(lia)) as [[Hg Hm]|(s1 & F1 & Hm & H1 & (b & Hb1 & Hb2) & Hlen & Hnz & Hfr)].
  { left. by rewrite (bind_done _ _ _ _ _ Hm). }
  right. rewrite (bind_done _ _ _ _ _ Hm), (proj2 (Z.eqb_neq _ _) Hnz), run_get_ptr.
  destruct (lap s1 F1 live fuel' H1 ltac:(lia)) as [(prev & a & n & Ht & ->)|(Hall' & _)];
    [|specialize (Hall' b Hb1); lia].
  destruct (take_run s1 F1 live prev a n H1 Ht) as (s' & r & Hr & F' & Hh & Hfr').
  exists s', r. split; [done|]. exists F'. split; [done|]. intros c x Hc Hx. rewrite (Hfr' c x Hc Hx). by apply (Hfr c).
Qed.
End malloc.
End heap.

(** ** What the allocator promises *)

Section promises.
Context (base lo : Z) (grows : Z → Z → bool).
Hypothesis Hbase : 0 < base ∧ base + HDR ≤ lo.
Hypothesis Hgrow : ∀ b n, grows b n = true → 0 ≤ n → b + n ≤ 2 ^ 31.

(** A heap, or the state before the first call of [malloc]. *)
Definition ready (s : um) (F live : list block) : Prop :=
  heap base lo s F live ∨ (freep s = 0 ∧ brk s = lo ∧ lo ≤ 2 ^ 31 ∧ F = [] ∧ live = []).

(** A request that [malloc] and [sbrk] handle without wrapping around. *)
Definition request (nbytes : Z) : Prop := 0 ≤ nbytes < 2 ^ 32 ∧ units nbytes < 2 ^ 28.

(** The empty list that the first call of [malloc] makes. *)
Definition first_call (s : um) : um :=
  if freep s =? 0 then Um (store32 (store32 (umem s) base base) (base + 4) 0) base (brk s) else s.

Lemma ready_heap s F live : ready s F live → heap base lo (first_call s) F live ∧ brk (first_call s) = brk s ∧
  ∀ b x, b ∈ live → fst b ≤ x < fst b + HDR * snd b → umem (first_call s) x = umem s x.
Proof.
  unfold first_call. intros [H|(E1 & E2 & E3 & -> & ->)].
  - assert (freep s ≠ 0) as ->%Z.eqb_neq; [|by split].
    pose proof (h_freep _ _ _ _ _ H) as (c & -> & [->|Hc]%elem_of_cons)%list_elem_of_fmap; [cbn; lia|].
    pose proof (heap_bounds _ _ _ _ _ c H ltac:(set_solver)). unfold HDR in *. lia.
  - rewrite E1. cbn [Z.eqb brk]. split; [|split; [done|intros b x Hb; by apply elem_of_nil in Hb]].
    split; cbn [umem brk freep app]; try done.
    + lia.
    + intros b Hb. by apply elem_of_nil in Hb.
    + intros x. cbn. destruct (Z.leb_spec lo x), (Z.ltb_spec x (brk s)); cbn; lia.
    + intros b Hb. by apply elem_of_nil in Hb.
    + destruct (load_size (store32 (umem s) base base) base 0) as (W1 & W2 & _); [lia|].
      cbn [links nodes first]. rewrite W1, W2, load32_store32, u32_small by (unfold HDR in *; lia). done.
    + set_solver.
Qed.

Lemma malloc_run s F live nbytes fuel : ready s F live → request nbytes → (2 * length F + 6 ≤ fuel)%nat →
  ((∀ b, b ∈ F → snd b < units nbytes) ∧ grows (brk s) (Z.max 4096 (units nbytes) * HDR) = false ∧
    malloc base grows fuel nbytes s = Done (0, first_call s)) ∨
  ∃ s' a, malloc base grows fuel nbytes s = Done (a + HDR, s') ∧
    allocated base lo (units nbytes) (first_call s) s' live a.
Proof.
  intros Hr (Hn & Hu) Hf. destruct (ready_heap _ _ _ Hr) as (Hh & Hb & _). rewrite <- Hb.
  assert (E : malloc base grows fuel nbytes s = malloc_loop grows fuel (units nbytes) (freep (first_call s))
    (load32 (umem (first_call s)) (freep (first_call s))) (first_call s)).
  { unfold malloc, first_call. rewrite run_getS. by destruct (freep s =? 0). }
  rewrite E. apply (malloc_loop_run base lo Hbase grows (units nbytes)); try done.
  split; [|done]. unfold units. pose proof (Z.mod_pos_bound (nbytes + HDR - 1) (2 ^ 32) ltac:(lia)).
  assert (0 ≤ u32 (nbytes + HDR - 1) / HDR) by (apply Z.div_pos; unfold u32, HDR in *; lia). lia.
Qed.

Lemma units_fit nbytes : 0 ≤ nbytes < 2 ^ 31 - 16 → request nbytes ∧ nbytes ≤ HDR * (units nbytes - 1).
Proof.
  intros Hn. unfold request, units. rewrite u32_small by (unfold HDR; lia).
  pose proof (Z.div_mod (nbytes + HDR - 1) HDR ltac:(done)) as Hd.
  pose proof (Z.mod_pos_bound (nbytes + HDR - 1) HDR ltac:(done)) as Hm. unfold HDR in *. lia.
Qed.

(** ** Use of the allocator

    [live] are the blocks handed out and not yet freed; a program frees only
    those, and writes only to the bytes after their headers. *)

Inductive ustep : um * list block → um * list block → Prop :=
| u_malloc s live nbytes r s' N : request nbytes → r ≠ 0 →
    (∀ fuel, (N ≤ fuel)%nat → malloc base grows fuel nbytes s = Done (r, s')) →
    ustep (s, live) (s', (r - HDR, units nbytes) :: live)
| u_none s live nbytes s' N : request nbytes →
    (∀ fuel, (N ≤ fuel)%nat → malloc base grows fuel nbytes s = Done (0, s')) → ustep (s, live) (s', live)
| u_free s l1 a n l2 s' N : (∀ fuel, (N ≤ fuel)%nat → free fuel (a + HDR) s = Done ((), s')) →
    ustep (s, l1 ++ (a, n) :: l2) (s', l1 ++ l2)
| u_write s l1 a n l2 m : (∀ x, ¬ (a + HDR ≤ x < a + HDR * n) → m x = umem s x) →
    ustep (s, l1 ++ (a, n) :: l2) (wr s m, l1 ++ (a, n) :: l2).

Inductive ureach (s0 : um) : um * list block → Prop :=
| ur_init : ureach s0 (s0, [])
| ur_step st st' : ureach s0 st → ustep st st' → ureach s0 st'.

Lemma heap_nonzero s F live a n : heap base lo s F live → (a, n) ∈ live → a + HDR ≠ 0.
Proof. intros H Hin. pose proof (heap_bounds _ _ _ _ _ (a, n) H ltac:(set_solver)). cbn in *. unfold HDR in *. lia. Qed.

(** Writes to the contents of a block handed out. *)
Lemma heap_write s F l1 a n l2 m : heap base lo s F (l1 ++ (a, n) :: l2) →
  (∀ x, ¬ (a + HDR ≤ x < a + HDR * n) → m x = umem s x) → heap base lo (wr s m) F (l1 ++ (a, n) :: l2).
Proof.
  intros H Ho. pose proof (heap_bounds _ _ _ _ _ (a, n) H ltac:(set_solver)) as [Ha _]. cbn in Ha.
  assert (Hsep : ∀ c, c ∈ (F ++ l1) ++ l2 → a + HDR * n ≤ fst c ∨ fst c + HDR ≤ a).
  { intros c Hc. pose proof (h_pos _ _ _ _ _ H c ltac:(set_solver)).
    destruct (heap_apart _ _ _ _ _ (F ++ l1) (a, n) l2 c H) as [?|?]; [by rewrite <- app_assoc|done|by left|right].
    cbn in *. unfold HDR in *. lia. }
  destruct H as [H1 H2 H3 H4 H5 H6 H7]. split; cbn [wr umem brk freep]; try done.
  - intros b Hb. rewrite <- (H5 b Hb). apply load32_ext. intros x Hx. apply Ho.
    assert (Hb' : b = (a, n) ∨ b ∈ (F ++ l1) ++ l2) by set_solver.
    destruct Hb' as [->|Hb']; [cbn in *; unfold HDR; lia|]. destruct (Hsep b Hb'); unfold HDR in *; lia.
  - eapply links_same; [|exact H6]. intros b x [->|Hb]%elem_of_cons Hx; apply Ho; [cbn in *; unfold HDR in *; lia|].
    destruct (Hsep b ltac:(set_solver)); unfold HDR in *; lia.
Qed.

Lemma ustep_ready st st' F : ready (fst st) F (snd st) → ustep st st' →
  ∃ F', ready (fst st') F' (snd st').
Proof.
  intros Hr Hst. destruct Hst as [s live nbytes r s' N Hq Hnz Hrun|s live nbytes s' N Hq Hrun|s l1 a n l2 s' N Hrun
    |s l1 a n l2 m Ho]; cbn [fst snd] in *.
  - destruct (malloc_run s F live nbytes (Nat.max N (2 * length F + 6)) Hr Hq ltac:(lia)) as [(_ & _ & E)|(s1 & a & E & F' & Hh & _)];
      rewrite Hrun in E by lia; [congruence|]. injection E as -> ->. exists F'. left.
    by replace (a + HDR - HDR) with a by lia.
  - destruct (malloc_run s F live nbytes (Nat.max N (2 * length F + 6)) Hr Hq ltac:(lia)) as [(_ & _ & E)|(s1 & a & E & F' & Hh & _)];
      rewrite Hrun in E by lia; injection E as E1; subst s'.
    + exists F. left. by apply ready_heap.
    + by destruct (heap_nonzero _ _ _ a (units nbytes) Hh ltac:(set_solver)).
  - destruct Hr as [H|(_ & _ & _ & _ & E)]; [|by destruct l1].
    destruct (free_run base lo Hbase (Nat.max N (length F)) s F l1 a n l2 H ltac:(lia)) as (s1 & F' & E & Hh & _).
    rewrite Hrun in E by lia. injection E as ->. exists F'. by left.
  - destruct Hr as [H|(_ & _ & _ & _ & E)]; [|by destruct l1]. exists F. left. by apply heap_write.
Qed.

(** C11: [malloc] terminates and either returns a block that is big enough,
    or returns 0 because no free block is big enough and the kernel refuses to
    grow the process.  The new block is taken out of the free memory: every
    address of the heap still belongs to exactly one block.  The blocks handed
    out before keep their contents. *)
Theorem malloc_correct s F live nbytes fuel :
  ready s F live → 0 ≤ nbytes < 2 ^ 31 - 16 → (2 * length F + 6 ≤ fuel)%nat →
  ∃ r s', malloc base grows fuel nbytes s = Done (r, s') ∧
    (∀ b x, b ∈ live → fst b ≤ x < fst b + HDR * snd b → umem s' x = umem s x) ∧
    if r =? 0 then
      heap base lo s' F live ∧ (∀ b, b ∈ F → snd b < units nbytes) ∧
      grows (brk s) (Z.max 4096 (units nbytes) * HDR) = false
    else
      nbytes ≤ HDR * (units nbytes - 1) ∧
      ∃ F', heap base lo s' F' ((r - HDR, units nbytes) :: live).
Proof.
  intros Hr Hn Hf. destruct (units_fit nbytes Hn) as [Hq Hfit].
  destruct (ready_heap _ _ _ Hr) as (Hh & _ & Hc).
  destruct (malloc_run s F live nbytes fuel Hr Hq Hf) as [(H1 & H2 & ->)|(s' & a & -> & F' & Hh' & Hfr)].
  - by exists 0, (first_call s).
  - exists (a + HDR), s'. split; [done|]. split; [intros b x Hb Hx; rewrite (Hfr b x Hb Hx); by apply (Hc b)|].
    rewrite (proj2 (Z.eqb_neq _ _)) by (apply (heap_nonzero _ _ _ a (units nbytes) Hh'); set_solver).
    split; [done|]. exists F'.
    by replace (a + HDR - HDR) with a by lia.
Qed.

(** [free] of a block that was handed out terminates and gives its addresses
    back to the free list, which stays sorted, circular and without blocks that
    touch; the other blocks keep their contents and their sizes. *)
Theorem free_correct s F l1 a n l2 fuel :
  heap base lo s F (l1 ++ (a, n) :: l2) → (length F ≤ fuel)%nat →
  ∃ s' F', free fuel (a + HDR) s = Done ((), s') ∧ heap base lo s' F' (l1 ++ l2) ∧
    (∀ x, owners x F' = owners x F + inb x (a, n)) ∧
    ∀ b x, b ∈ l1 ++ l2 → fst b ≤ x < fst b + HDR * snd b → umem s' x = umem s x.
Proof.
  intros H Hf. destruct (free_run base lo Hbase fuel s F l1 a n l2 H Hf) as (s' & F' & H1 & H2 & _ & _ & _ & H3 & H4).
  by exists s', F'.
Qed.


(** a request close to 2^32 bytes wraps around.  As soon as any block is
    free, [malloc] answers it with a block that has no byte after its header. *)
Theorem malloc_wraps s F live b nbytes fuel :
  heap base lo s F live → b ∈ F → 2 ^ 32 - HDR < nbytes < 2 ^ 32 → (2 * length F + 6 ≤ fuel)%nat →
  ∃ a s' F', malloc base grows fuel nbytes s = Done (a + HDR, s') ∧ heap base lo s' F' ((a, 1) :: live).
Proof.
  intros H Hb Hn Hf.
  assert (Hu : units nbytes = 1).
  { unfold units, u32. replace (nbytes + HDR - 1) with (nbytes + HDR - 1 - 2 ^ 32 + 1 * 2 ^ 32) by lia.
    rewrite Z.mod_add, Z.mod_small, Z.div_small by (unfold HDR in *; lia). done. }
  destruct (malloc_run s F live nbytes fuel) as [(Hall & _)|(s' & a & E & F' & Hh & _)].
  - by left.
  - split; [unfold HDR in *; lia|]. rewrite Hu. lia.
  - done.
  - specialize (Hall b Hb). rewrite Hu in Hall. pose proof (h_pos _ _ _ _ _ H b ltac:(set_solver)). lia.
  - exists a, s', F'. split; [done|]. by rewrite Hu in Hh.
Qed.
End promises.

(** ** Witnesses *)

(** A process whose heap starts at 4096, with [base] at 100. *)
Definition grow_to (b n : Z) : bool := b + n <=? 65536.
Definition new_process : um := Um (λ _, 0) 0 4096.

Lemma grow_to_ok b n : grow_to b n = true → 0 ≤ n → b + n ≤ 2 ^ 31.
Proof. intros H%Z.leb_le _. lia. Qed.

Lemma new_ready : ready 100 4096 new_process [] [].
Proof. right. cbn. repeat split; lia. Qed.

(** One block of 4096 headers, of which 13 have been handed out. *)
Definition one_block : um :=
  Um (store32 (store32 (store32 (store32 (store32 (λ _, 0) 100 4096) 4096 100) 4100 4083) 36764 13) 104 0) 100 36864.

Lemma one_block_heap : heap 100 4096 one_block [(4096, 4083)] [(36760, 13)].
Proof.
  split; cbn [one_block brk umem freep app].
  - lia.
  - cbn. lia.
  - intros b [->|[->|?%elem_of_nil]%elem_of_cons]%elem_of_cons; cbn; [lia..|done].
  - intros x. unfold owners, inb, HDR. cbn [fst snd].
    destruct (Z.leb_spec 4096 x), (Z.ltb_spec x (4096 + 8 * 4083)), (Z.leb_spec 36760 x),
      (Z.ltb_spec x (36760 + 8 * 13)), (Z.ltb_spec x 36864); cbn; lia.
  - intros b [->|?%elem_of_nil]%elem_of_cons; [by vm_compute|done].
  - by vm_compute.
  - set_solver.
Qed.

Lemma malloc_correct_witness : ∃ r s', malloc 100 grow_to 6 100 new_process = Done (r, s') ∧ r = 36760.
Proof.
  destruct (malloc_correct 100 4096 grow_to ltac:(unfold HDR; lia) grow_to_ok new_process [] [] 100 6)
    as (r & s' & E & _ & _); [exact new_ready|lia|cbn; lia|].
  exists r, s'. split; [exact E|].
  assert (E' : match malloc 100 grow_to 6 100 new_process with Done (r, _) => r | _ => 0 end = 36760)
    by (vm_compute; reflexivity).
  rewrite E in E'. exact E'.
Defined.

Lemma free_correct_witness : ∃ s' F', free 1 36768 one_block = Done ((), s') ∧ heap 100 4096 s' F' [].
Proof.
  destruct (free_correct 100 4096 ltac:(unfold HDR; lia) one_block [(4096, 4083)] [] 36760 13 [] 1)
    as (s' & F' & E & H & _); [exact one_block_heap|cbn; lia|].
  exists s', F'. split; [exact E|exact H].
Defined.


Lemma malloc_wraps_witness : ∃ a s', malloc 100 grow_to 8 (2 ^ 32 - 1) one_block = Done (a + HDR, s').
Proof.
  destruct (malloc_wraps 100 4096 grow_to ltac:(unfold HDR; lia) grow_to_ok one_block [(4096, 4083)] [(36760, 13)]
    (4096, 4083) (2 ^ 32 - 1) 8) as (a & s' & F' & E & _);
    [exact one_block_heap|set_solver|unfold HDR; lia|cbn; lia|]. exists a, s'. exact E.
Defined.
