(* ===== verification/Printf.v ===== *)
(** * Formatted output: user/printf.c and the text of the console's cprintf

    [printf] as the sequence of bytes it passes to [putc].  [ap] are the words
    on the stack above the format; a string argument is given by the bytes
    before its terminating zero. *)
From stdpp Require Import base decidable option list functions numbers strings sets.
From Stdlib Require Import ZArith Lia.
From S2P Require Import Prelude CString.

Local Open Scope Z_scope.

(** ** Numbers *)

(** ["0123456789ABCDEF"], and with small letters in the kernel. *)
Definition digits : list Z := [48; 49; 50; 51; 52; 53; 54; 55; 56; 57; 65; 66; 67; 68; 69; 70].
Definition kdigits : list Z := [48; 49; 50; 51; 52; 53; 54; 55; 56; 57; 97; 98; 99; 100; 101; 102].

Definition MINUS : Z := 45.
Definition PERCENT : Z := 37.

(** The loop that fills [buf], lowest digit first. *)
Fixpoint digit_loop (fuel : nat) (digits : list Z) (x base : Z) : option (list Z) :=
  match fuel with
  | O => None
  | S fuel =>
      let c := nth (Z.to_nat (x mod base)) digits 0 in
      if x / base =? 0 then Some [c]
      else buf ← digit_loop fuel digits (x / base) base; Some (c :: buf)
  end.

(** [printint] on the [int] value [xx]; 32 rounds are enough for any base. *)
Definition printint (xx base : Z) (sgn : bool) : option (list Z) :=
  let neg := sgn && (xx <? 0) in
  let x := if neg then u32 (- xx) else u32 xx in
  buf ← digit_loop 32 digits x base;
  Some (rev (if neg then buf ++ [MINUS] else buf)).

Definition kprintint (xx base : Z) (sign : bool) : option (list Z) :=
  let sign := sign && (xx <? 0) in
  let x := if sign then u32 (- xx) else u32 xx in
  buf ← digit_loop 32 kdigits x base;
  Some (rev (if sign then buf ++ [MINUS] else buf)).

(** ** The formats *)

(** ["(null)"] *)
Definition null_text : list Z := [40; 110; 117; 108; 108; 41].

Section printf.
Context (cstring : Z → list Z) (ap : nat → Z).

Definition string_arg (s : Z) : list Z := if s =? 0 then null_text else cstring s.

(** The loop of [printf] from state 0 ([false]) or ['%'] ([true]); [n] arguments
    have been used. *)
Fixpoint printf_loop (fmt : list Z) (state : bool) (n : nat) : option (list Z) :=
  match fmt with
  | [] => Some []
  | c :: fmt =>
      if negb state then
        if c =? PERCENT then printf_loop fmt true n
        else out ← printf_loop fmt false n; Some (c :: out)
      else if c =? 100 then
        s ← printint (s32 (ap n)) 10 true; out ← printf_loop fmt false (S n); Some (s ++ out)
      else if (c =? 120) || (c =? 112) then
        s ← printint (s32 (ap n)) 16 false; out ← printf_loop fmt false (S n); Some (s ++ out)
      else if c =? 115 then
        out ← printf_loop fmt false (S n); Some (string_arg (ap n) ++ out)
      else if c =? 99 then
        out ← printf_loop fmt false (S n); Some (u8 (ap n) :: out)
      else if c =? PERCENT then
        out ← printf_loop fmt false n; Some (c :: out)
      else
        out ← printf_loop fmt false n; Some (PERCENT :: c :: out)
  end.

Definition printf (fmt : list Z) : option (list Z) := printf_loop fmt false O.

(** The characters [cprintf] passes to [consputc]. *)
Fixpoint cprintf_text (fmt : list Z) (n : nat) : option (list Z) :=
  match fmt with
  | [] => Some []
  | c :: fmt' =>
      if negb (c =? PERCENT) then out ← cprintf_text fmt' n; Some (c :: out)
      else
        match fmt' with
        | [] => Some []
        | c :: fmt =>
            if c =? 100 then
              s ← kprintint (s32 (ap n)) 10 true; out ← cprintf_text fmt (S n); Some (s ++ out)
            else if (c =? 120) || (c =? 112) then
              s ← kprintint (s32 (ap n)) 16 false; out ← cprintf_text fmt (S n); Some (s ++ out)
            else if c =? 115 then
              out ← cprintf_text fmt (S n); Some (string_arg (ap n) ++ out)
            else if c =? PERCENT then out ← cprintf_text fmt n; Some (PERCENT :: out)
            else out ← cprintf_text fmt n; Some (PERCENT :: c :: out)
        end
  end.
End printf.

(** ** Numerals *)

(** The value of a digit and of a numeral, highest digit first. *)
Definition digit_value (ds : list Z) (c : Z) : Z :=
  match list_find (c =.) ds with Some (i, _) => Z.of_nat i | None => -1 end.

Definition numeral (ds : list Z) (base : Z) (l : list Z) : Z :=
  fold_left (λ v c, v * base + digit_value ds c) l 0.

(** A numeral of [x]: its value is [x], its digits are less than [base] and it
    has no leading zero. *)
Definition numeral_of (ds : list Z) (base x : Z) (l : list Z) : Prop :=
  numeral ds base l = x ∧ Forall (λ c, 0 ≤ digit_value ds c < base) l ∧
  l ≠ [] ∧ (x ≠ 0 → head l ≠ head ds).

Definition good_digits (ds : list Z) : Prop :=
  ∀ i, (i < 16)%nat → digit_value ds (nth i ds 0) = Z.of_nat i.

Lemma digits_good : good_digits digits.
Proof. intros i Hi. do 16 (destruct i as [|i]; [done|]). lia. Qed.

Lemma kdigits_good : good_digits kdigits.
Proof. intros i Hi. do 16 (destruct i as [|i]; [done|]). lia. Qed.

Lemma numeral_snoc ds base l c : numeral ds base (l ++ [c]) = numeral ds base l * base + digit_value ds c.
Proof. unfold numeral. by rewrite fold_left_app. Qed.

Section digits.
Context (ds : list Z) (base : Z).
Hypothesis Hds : good_digits ds.
Hypothesis Hbase : 2 ≤ base ≤ 16.

Lemma digit_at x : digit_value ds (nth (Z.to_nat (x mod base)) ds 0) = x mod base.
Proof. pose proof (Z.mod_pos_bound x base ltac:(lia)). rewrite Hds by lia. lia. Qed.

Lemma digit_loop_run f : ∀ fuel x, (f < fuel)%nat → 0 ≤ x < base ^ Z.of_nat (S f) →
  ∃ buf, digit_loop fuel ds x base = Some buf ∧ numeral ds base (rev buf) = x ∧
    Forall (λ c, 0 ≤ digit_value ds c < base) buf ∧ (1 ≤ length buf ≤ S f)%nat ∧
    (x ≠ 0 → ∃ c, last buf = Some c ∧ digit_value ds c ≠ 0).
Proof.
  induction f as [|f IH]; intros [|fuel] x Hf Hx; try lia; cbn [digit_loop];
    pose proof (Z.mod_pos_bound x base ltac:(lia)) as Hm; pose proof (Z.div_mod x base ltac:(lia)) as Hd;
    pose proof (digit_at x) as Hc; set (c := nth _ ds 0) in *.
  all: destruct (Z.eqb_spec (x / base) 0) as [E|E].
  1,3: exists [c]; cbn; rewrite Hc; split; [done|]; split; [lia|]; split; [apply Forall_singleton; by rewrite Hc|];
    split; [lia|]; intros Hx0; exists c; split; [done|]; rewrite Hc; lia.
  { exfalso. apply E. apply Z.div_small. cbn in Hx. lia. }
  destruct (IH fuel (x / base)) as (buf & -> & Hv & HF & Hl & Hlast); [lia| |].
  { rewrite Nat2Z.inj_succ, Z.pow_succ_r in Hx by lia. split; [apply Z.div_pos; lia|].
    apply Z.div_lt_upper_bound; lia. }
  exists (c :: buf). cbn [mbind option_bind rev]. split; [done|]. rewrite numeral_snoc, Hv, Hc.
  split; [lia|]. split; [by constructor; [rewrite Hc|]|]. split; [cbn; lia|].
  intros _. destruct (Hlast E) as (d & Hd1 & Hd2). exists d. split; [|done]. destruct buf; [done|]. exact Hd1.
Qed.
End digits.

Lemma rev_reverse {A} (l : list A) : rev l = reverse l.
Proof. apply rev_alt. Qed.

Lemma head_rev {A} (l : list A) : head (rev l) = last l.
Proof.
  rewrite rev_reverse. induction l as [|x l IH]; [done|]. rewrite reverse_cons, last_cons, <- IH.
  destruct (reverse l) as [|y r] eqn:E; [|done]. apply (f_equal length) in E. rewrite length_reverse in E. by destruct l.
Qed.

(** The numeral [printint] and [kprintint] build in [buf]. *)
Lemma number_run ds base x : good_digits ds → 10 ≤ base ≤ 16 → 0 ≤ x < 2 ^ 32 →
  ∃ buf, digit_loop 32 ds x base = Some buf ∧ numeral_of ds base x (rev buf) ∧ (length buf ≤ 10)%nat.
Proof.
  intros Hds Hb Hx. destruct (digit_loop_run ds base Hds ltac:(lia) 9 32 x) as (buf & H1 & H2 & H3 & H4 & H5); [lia| |].
  { split; [lia|]. apply Z.lt_le_trans with (10 ^ 10); [lia|]. apply Z.pow_le_mono_l. lia. }
  exists buf. split; [done|]. split; [|lia]. split; [done|]. split.
  { apply Forall_forall. rewrite Forall_forall in H3. intros c Hc. apply H3.
    by rewrite rev_reverse, elem_of_reverse in Hc. }
  split; [intros E; apply (f_equal length) in E; rewrite length_rev in E; cbn in E; lia|].
  intros Hx0. destruct (H5 Hx0) as (c & Hl & Hc). rewrite head_rev, Hl. intros Eh. apply Hc.
  pose proof (Hds 0%nat ltac:(lia)) as Hz. destruct ds as [|d ds]; [done|]. injection Eh as ->. exact Hz.
Qed.

(** What is printed for the [int] [xx]. *)
Definition printed (ds : list Z) (base xx : Z) (sgn : bool) (l : list Z) : Prop :=
  if sgn && (xx <? 0) then ∃ l', l = MINUS :: l' ∧ numeral_of ds base (- xx) l'
  else numeral_of ds base (u32 xx) l.

Lemma number_printed ds base xx sgn : good_digits ds → 10 ≤ base ≤ 16 → - 2 ^ 31 ≤ xx < 2 ^ 31 →
  let neg := sgn && (xx <? 0) in
  ∃ buf, digit_loop 32 ds (if neg then u32 (- xx) else u32 xx) base = Some buf ∧
    printed ds base xx sgn (rev (if neg then buf ++ [MINUS] else buf)) ∧
    (length (if neg then buf ++ [MINUS] else buf) ≤ 11)%nat.
Proof.
  intros Hds Hb Hx neg. unfold printed. fold neg.
  assert (Hr : 0 ≤ (if neg then u32 (- xx) else u32 xx) < 2 ^ 32) by (destruct neg; apply Z.mod_pos_bound; lia).
  destruct (number_run ds base _ Hds Hb Hr) as (buf & H1 & H2 & H3). exists buf. split; [done|].
  destruct neg eqn:En; [|split; [done|lia]]. apply andb_true_iff in En as [_ Hneg%Z.ltb_lt].
  rewrite u32_small in H2 by lia. rewrite rev_app_distr, length_app. cbn. split; [by exists (rev buf)|lia].
Qed.

(** numbers are printed right.  For every 32-bit integer [printint], in the
    user library and in the console, fills at most 11 of the 16 bytes of its
    buffer and prints a minus sign if it is due and then the numeral of the
    value, without leading zeros; the most negative integer is no exception. *)
Theorem printint_numeral xx base sgn : - 2 ^ 31 ≤ xx < 2 ^ 31 → 10 ≤ base ≤ 16 →
  ∃ l lk, printint xx base sgn = Some l ∧ printed digits base xx sgn l ∧ (length l ≤ 11)%nat ∧
    kprintint xx base sgn = Some lk ∧ printed kdigits base xx sgn lk ∧ (length lk ≤ 11)%nat.
Proof.
  intros Hx Hb. destruct (number_printed digits base xx sgn digits_good Hb Hx) as (b1 & E1 & P1 & L1).
  destruct (number_printed kdigits base xx sgn kdigits_good Hb Hx) as (b2 & E2 & P2 & L2).
  eexists _, _. unfold printint, kprintint. rewrite E1, E2. cbn [mbind option_bind].
  split; [done|]. rewrite length_rev. split; [done|]. split; [done|]. split; [done|]. rewrite length_rev. by split.
Qed.

(** ** What a format means *)

Inductive directive := Lit (c : Z) | Dec | Hex | Str | Chr | Unknown (c : Z).

(** A format is literal characters and pairs of a percent sign and a letter; a
    percent sign at the end means nothing. *)
Fixpoint directives (fmt : list Z) : list directive :=
  match fmt with
  | [] => []
  | c :: fmt' =>
      if negb (c =? PERCENT) then Lit c :: directives fmt'
      else
        match fmt' with
        | [] => []
        | k :: fmt =>
            (if k =? 100 then Dec else if (k =? 120) || (k =? 112) then Hex else if k =? 115 then Str
             else if k =? 99 then Chr else if k =? PERCENT then Lit k else Unknown k) :: directives fmt
        end
  end.

Section render.
Context (cstring : Z → list Z) (ap : nat → Z).

(** [out] is the text of [l] when the arguments are taken from the [n]th on. *)
Inductive renders : list directive → nat → list Z → Prop :=
| rn_nil n : renders [] n []
| rn_lit c l n out : renders l n out → renders (Lit c :: l) n (c :: out)
| rn_dec l n num out : printed digits 10 (s32 (ap n)) true num → renders l (S n) out →
    renders (Dec :: l) n (num ++ out)
| rn_hex l n num out : printed digits 16 (s32 (ap n)) false num → renders l (S n) out →
    renders (Hex :: l) n (num ++ out)
| rn_str l n out : renders l (S n) out → renders (Str :: l) n (string_arg cstring (ap n) ++ out)
| rn_chr l n out : renders l (S n) out → renders (Chr :: l) n (u8 (ap n) :: out)
| rn_unknown c l n out : renders l n out → renders (Unknown c :: l) n (PERCENT :: c :: out).

Lemma printint_some base sgn n : 10 ≤ base ≤ 16 →
  ∃ num, printint (s32 (ap n)) base sgn = Some num ∧ printed digits base (s32 (ap n)) sgn num.
Proof.
  intros Hb. destruct (number_printed digits base (s32 (ap n)) sgn digits_good Hb (s32_range _)) as (b & E & P & _).
  unfold printint. rewrite E. by eexists.
Qed.

Lemma printf_loop_renders k : ∀ fmt n, (length fmt ≤ k)%nat →
  ∃ out, printf_loop cstring ap fmt false n = Some out ∧ renders (directives fmt) n out.
Proof.
  induction k as [|k IH]; intros [|c fmt] n Hk; cbn [length] in Hk; try lia;
    try (exists []; split; [done|constructor]).
  cbn [printf_loop directives negb]. destruct (Z.eqb_spec c PERCENT) as [->|Hc]; cbn [negb].
  2: { destruct (IH fmt n ltac:(lia)) as (out & -> & Hr). eexists. split; [done|]. by constructor. }
  destruct fmt as [|d fmt]; [exists []; split; [done|constructor]|]. cbn [printf_loop negb length] in *.
  destruct (IH fmt n ltac:(lia)) as (out & Ho & Hr), (IH fmt (S n) ltac:(lia)) as (out' & Ho' & Hr').
  destruct (printint_some 10 true n ltac:(lia)) as (nd & Ed & Pd), (printint_some 16 false n ltac:(lia)) as (nh & Eh & Ph).
  rewrite Ed, Eh, Ho, Ho'. cbn [mbind option_bind].
  destruct (d =? 100); [eexists; split; [done|by constructor]|].
  destruct ((d =? 120) || (d =? 112)); [eexists; split; [done|by constructor]|].
  destruct (d =? 115); [eexists; split; [done|by constructor]|].
  destruct (d =? 99); [eexists; split; [done|by constructor]|].
  destruct (d =? PERCENT); eexists; (split; [done|by constructor]).
Qed.
End render.


(** ** Reading numbers back *)

Lemma decimal_digit c : 0 ≤ digit_value digits c < 10 → c = 48 + digit_value digits c.
Proof.
  unfold digit_value. destruct (list_find (c =.) digits) as [[i d]|] eqn:E; [|lia].
  apply list_find_Some in E as (Hi & <- & _). intros Hr.
  assert (i < 10)%nat as Hi10 by lia. clear Hr.
  do 10 (destruct i as [|i]; [cbn in Hi; injection Hi as <-; done|]). lia.
Qed.

(** The bytes [l] and then a zero at address [a]. *)
Definition text_at (m : mem) (a : Z) (l : list Z) : Prop :=
  (∀ i c, l !! i = Some c → m (a + Z.of_nat i) = c) ∧ m (a + Z.of_nat (length l)) = 0.

Lemma text_at_cons m a c l : text_at m a (c :: l) → m a = c ∧ text_at m (a + 1) l.
Proof.
  intros [H1 H2]. split; [|split].
  - rewrite <- (H1 O c eq_refl). f_equal. lia.
  - intros i d Hi. rewrite <- (H1 (S i) d Hi). f_equal. lia.
  - rewrite <- H2. f_equal. cbn [length]. lia.
Qed.

Lemma decimal_grows l v : Forall (λ c, 0 ≤ digit_value digits c < 10) l → 0 ≤ v →
  v ≤ fold_left (λ v c, v * 10 + digit_value digits c) l v.
Proof.
  revert v. induction l as [|c l IH]; intros v HF Hv; cbn; [lia|]. apply Forall_cons in HF as [Hc HF].
  specialize (IH (v * 10 + digit_value digits c) HF ltac:(lia)). lia.
Qed.

Lemma atoi_from_run m l : ∀ a v fuel, text_at m a l → Forall (λ c, 0 ≤ digit_value digits c < 10) l → 0 ≤ v →
  fold_left (λ v c, v * 10 + digit_value digits c) l v < 2 ^ 31 → (length l < fuel)%nat →
  Ulib.atoi_from fuel m a v = Some (fold_left (λ v c, v * 10 + digit_value digits c) l v).
Proof.
  induction l as [|c l IH]; intros a v [|fuel] Ht HF Hv Hlt Hf; cbn [length] in Hf; try lia; cbn [Ulib.atoi_from fold_left].
  - destruct Ht as [_ H0]. cbn in H0. rewrite Z.add_0_r in H0. by rewrite H0.
  - apply text_at_cons in Ht as [Hm Ht]. apply Forall_cons in HF as [Hc HF]. pose proof (decimal_digit c Hc) as Ec.
    rewrite Hm, (proj2 (Z.leb_le 48 c)), (proj2 (Z.leb_le c 57)) by lia. cbn [andb fold_left] in *.
    pose proof (decimal_grows l (v * 10 + digit_value digits c) HF ltac:(lia)) as Hg.
    rewrite s32_small by lia. replace (v * 10 + c - 48) with (v * 10 + digit_value digits c) by lia.
    apply IH; [done|done|lia|done|lia].
Qed.

(** [atoi] reads back what [printf] prints for [%d]: for every non-negative
    [int], the text put in memory with its terminating zero gives the number. *)
Theorem printf_atoi_roundtrip x m a l : 0 ≤ x < 2 ^ 31 →
  printf (λ _, []) (λ _, x) [PERCENT; 100] = Some l → text_at m a l →
  Ulib.atoi 12 m a = Some x.
Proof.
  intros Hx Hp Ht. destruct (number_printed digits 10 x true digits_good ltac:(lia) ltac:(lia)) as (buf & E & P & L).
  cbn [printf printf_loop negb] in Hp. cbn [Z.eqb PERCENT Pos.eqb] in Hp. unfold printint in Hp.
  rewrite s32_small in Hp by lia. rewrite E in Hp. cbn in Hp. rewrite app_nil_r in Hp. injection Hp as <-.
  unfold printed in P. destruct (Z.ltb_spec x 0) as [|_]; [lia|]. cbn [andb] in *.
  rewrite u32_small in P by lia. destruct P as (Hv & HF & _). unfold Ulib.atoi.
  rewrite (atoi_from_run m (rev buf)); [by f_equal|done|done|lia|unfold numeral in Hv; lia|rewrite length_rev; lia].
Qed.

(** ** Witnesses *)

Lemma printint_numeral_witness : printint (- 2 ^ 31) 10 true = Some [45; 50; 49; 52; 55; 52; 56; 51; 54; 52; 56].
Proof.
  destruct (printint_numeral (- 2 ^ 31) 10 true) as (l & lk & E & _); [lia|lia|].
  rewrite E. rewrite <- E. vm_compute. reflexivity.
Defined.

Lemma printf_atoi_roundtrip_witness :
  Ulib.atoi 12 (λ a, nth (Z.to_nat a) [49; 50; 55] 0) 0 = Some 127.
Proof.
  apply (printf_atoi_roundtrip 127 _ 0 [49; 50; 55]); [lia|vm_compute; reflexivity|].
  split; [|reflexivity]. intros i c. do 3 (destruct i as [|i]; [intros [= <-]; reflexivity|]). discriminate.
Defined.
