(* ===== verification/Console.v ===== *)
(** * The console: kernel/dev/console.c

    The screen (the cells of the CGA memory, the cursor register and the bytes
    sent to the serial port) and the input buffer with its three 32-bit
    indices.  [consoleintr] runs on the characters [getc] delivers before it
    returns -1; [consoleread] is the run from one sleep to the next.  The
    refinement shows a line discipline: a queue of finished input and a line
    that is still being edited. *)
From stdpp Require Import base decidable option list functions numbers strings sets.
From Stdlib Require Import ZArith Lia.
From S2P Require Import Prelude Printf.

Local Open Scope Z_scope.

(** ** State *)

Record screen := Screen {
  panicked : bool;
  passwd_mode : Z;
  crt : Z → Z;
  cursor : Z;           (* registers 14 and 15 of CRTPORT *)
  uart_out : list Z     (* what uartputc sent *)
}.

Record input := Input { ibuf : Z → Z; in_r : Z; in_w : Z; in_e : Z }.

Record con := Con {
  conlock : bool;       (* cons.lock is held *)
  locking : bool;
  scr : screen;
  inp : input;
  wakes : nat           (* calls of wakeup(&input.r) *)
}.

Definition INPUT_BUF : Z := 128.
Definition BACKSPACE : Z := 0x100.
Definition NEWLINE : Z := 10.
Definition TAB : Z := 9.

(** [C(x)] *)
Definition Ctl (x : Z) : Z := x - 64.

(** ** Output *)

Definition set_crt (f : Z → Z) : M screen () :=
  modS (λ s, Screen (panicked s) (passwd_mode s) f (cursor s) (uart_out s)).
Definition set_cursor (pos : Z) : M screen () :=
  modS (λ s, Screen (panicked s) (passwd_mode s) (crt s) (u16 pos) (uart_out s)).
Definition uartputc (c : Z) : M screen () :=
  modS (λ s, Screen (panicked s) (passwd_mode s) (crt s) (cursor s) (uart_out s ++ [u8 c])).

Definition put_cell (i v : Z) : M screen () := s ← getS; set_crt (<[i := v]> (crt s)).

(** [memmove(crt, crt + 80, ...)] and [memset(crt + pos, 0, ...)] *)
Definition scroll_cells (pos : Z) (f : Z → Z) : Z → Z := λ i,
  if (pos <=? i) && (i <? 24 * 80) then 0
  else if (0 <=? i) && (i <? 23 * 80) then f (i + 80) else f i.

Definition cgaputc (c : Z) : M screen () :=
  s ← getS;
  let pos := cursor s in
  pos ← (if c =? NEWLINE then mret (pos + (80 - pos mod 80))
         else if c =? BACKSPACE then mret (if 0 <? pos then pos - 1 else pos)
         else _ ← put_cell pos (Z.lor (Z.land c 0xff) 0x0700); mret (pos + 1));
  if (pos <? 0) || (25 * 80 <? pos) then panic "pos under/overflow"
  else
    pos ← (if 24 <=? pos / 80 then
             s ← getS;
             _ ← set_crt (scroll_cells (pos - 80) (crt s));
             mret (pos - 80)
           else mret pos);
    _ ← set_cursor pos;
    put_cell pos (Z.lor 32 0x0700).

(** [consputc] of a character other than tab. *)
Definition consputc_char (c : Z) : M screen () :=
  s ← getS;
  if panicked s then hang
  else if passwd_mode s =? 1 then mret ()
  else
    _ ← (if c =? BACKSPACE then
           _ ← uartputc 8; _ ← uartputc 32; uartputc 8
         else uartputc c);
    cgaputc c.

Definition clear_screen : M screen () :=
  s ← getS;
  _ ← set_crt (λ i, if (0 <=? i) && (i <? 25 * 80) then Z.lor 32 0x0700 else crt s i);
  _ ← set_cursor 0;
  consputc_char 36.

Definition consputc (c : Z) : M screen () :=
  s ← getS;
  if panicked s then hang
  else if passwd_mode s =? 1 then mret ()
  else if c =? TAB then clear_screen
  else consputc_char c.

Definition change_mode (mode : Z) : M screen () :=
  modS (λ s, Screen (panicked s) (if mode =? 0 then 0 else 1) (crt s) (cursor s) (uart_out s)).

(** The system call: its result does not tell success from failure. *)
Definition sys_changeconsmode (arg : option Z) : M screen Z :=
  match arg with
  | None => mret (-1)
  | Some mode => _ ← change_mode mode; mret (-1)
  end.

(** ** The console lock *)

Definition on_screen {A} (m : M screen A) : M con A :=
  zoom scr (λ x s, Con (conlock s) (locking s) x (inp s) (wakes s)) m.

Definition acquire_cons : M con () :=
  s ← getS;
  if conlock s then panic "acquire" else putS (Con true (locking s) (scr s) (inp s) (wakes s)).
Definition release_cons : M con () :=
  s ← getS;
  if conlock s then putS (Con false (locking s) (scr s) (inp s) (wakes s)) else panic "release".

Definition cprintf (cstring : Z → list Z) (ap : nat → Z) (fmt : list Z) : M con () :=
  s ← getS;
  let locking := locking s in
  _ ← mwhen locking acquire_cons;
  _ ← match cprintf_text cstring ap fmt 0 with
      | Some out => mfor out (λ c, on_screen (consputc c))
      | None => no_fuel
      end;
  mwhen locking release_cons.

Definition consoleinit : M con () :=
  modS (λ s, Con false true (scr s) (inp s) (wakes s)).

Definition consolewrite (buf : list Z) : M con Z :=
  _ ← acquire_cons;
  _ ← mfor buf (λ c, on_screen (consputc (Z.land c 0xff)));
  _ ← release_cons;
  mret (Z.of_nat (length buf)).

(** ** Input *)

Definition set_input (i : input) : M con () :=
  modS (λ s, Con (conlock s) (locking s) (scr s) i (wakes s)).
Definition get_input : M con input := gets inp.
Definition wakeup_reader : M con () :=
  modS (λ s, Con (conlock s) (locking s) (scr s) (inp s) (S (wakes s))).

(** [input.e--; consputc(BACKSPACE);] *)
Definition rub_out : M con () :=
  i ← get_input;
  _ ← set_input (Input (ibuf i) (in_r i) (in_w i) (u32 (in_e i - 1)));
  on_screen (consputc BACKSPACE).

(** The loop for control-U. *)
Fixpoint kill_line (fuel : nat) : M con () :=
  i ← get_input;
  if negb (in_e i =? in_w i) && negb (ibuf i (u32 (in_e i - 1) mod INPUT_BUF) =? NEWLINE) then
    match fuel with
    | O => no_fuel
    | S fuel => _ ← rub_out; kill_line fuel
    end
  else mret ().

(** The default case: a character for the buffer. *)
Definition type_in (c : Z) : M con () :=
  i ← get_input;
  if negb (c =? 0) && (u32 (in_e i - in_r i) <? INPUT_BUF) then
    let c := if c =? 13 then NEWLINE else c in
    _ ← set_input (Input (<[in_e i mod INPUT_BUF := s8 c]> (ibuf i)) (in_r i) (in_w i) (u32 (in_e i + 1)));
    _ ← on_screen (consputc c);
    i ← get_input;
    if (c =? NEWLINE) || (c =? Ctl 68) || (in_e i =? u32 (in_r i + INPUT_BUF)) then
      _ ← set_input (Input (ibuf i) (in_r i) (in_e i) (in_e i));
      wakeup_reader
    else mret ()
  else mret ().

(** One round of the loop of [consoleintr]; the result is [doprocdump]. *)
Definition console_char (c : Z) (dump : bool) : M con bool :=
  if c =? Ctl 80 then mret true
  else if c =? Ctl 85 then
    i ← get_input;
    _ ← kill_line (Z.to_nat (u32 (in_e i - in_w i)));
    mret dump
  else if (c =? Ctl 72) || (c =? 127) then
    i ← get_input;
    _ ← mwhen (negb (in_e i =? in_w i)) rub_out;
    mret dump
  else _ ← type_in c; mret dump.

Fixpoint console_chars (cs : list Z) (dump : bool) : M con bool :=
  match cs with
  | [] => mret dump
  | c :: cs => dump ← console_char c dump; console_chars cs dump
  end.

(** [consoleintr]; [true] says that [procdump] is called after it. *)
Definition consoleintr (cs : list Z) : M con bool :=
  _ ← acquire_cons;
  dump ← console_chars cs false;
  _ ← release_cons;
  mret dump.

(** ** Reading *)

(** How a run of [consoleread] ends: it sleeps on [&input.r] with [n] bytes to
    go, returns -1 because it was killed, or returns. *)
Inductive rend := RSleeps (n : Z) | RKilled | RReturns (ret : Z).

(** The loop with [n] of [target] bytes to go; the result is what was copied. *)
Fixpoint consoleread_loop (fuel : nat) (killed : bool) (target n : Z) : M con (list Z * rend) :=
  if n <=? 0 then mret ([], RReturns (target - n))
  else
    i ← get_input;
    if in_r i =? in_w i then
      if killed then mret ([], RKilled) else mret ([], RSleeps n)
    else
      let c := ibuf i (in_r i mod INPUT_BUF) in
      let r := u32 (in_r i + 1) in
      if c =? Ctl 68 then
        _ ← set_input (Input (ibuf i) (if n <? target then u32 (r - 1) else r) (in_w i) (in_e i));
        mret ([], RReturns (target - n))
      else
        _ ← set_input (Input (ibuf i) r (in_w i) (in_e i));
        if c =? NEWLINE then mret ([c], RReturns (target - (n - 1)))
        else
          match fuel with
          | O => no_fuel
          | S fuel =>
              '(bs, e) ← consoleread_loop fuel killed target (n - 1);
              mret (c :: bs, e)
          end.

(** A run with the lock held: from the start or after a sleep. *)
Definition consoleread_run (killed : bool) (target n : Z) : M con (list Z * rend) :=
  _ ← acquire_cons;
  r ← consoleread_loop (Z.to_nat n) killed target n;
  _ ← release_cons;
  mret r.

(** ** The screen *)

(** The cursor is on one of the first 24 rows. *)
Definition screen_ok (s : screen) : Prop := panicked s = false ∧ 0 ≤ cursor s < 24 * 80.

(** What printing may change. *)
Record drawn (s s' : screen) : Prop := Drawn {
  dr_ok : screen_ok s';
  dr_mode : passwd_mode s' = passwd_mode s;
  dr_cells : ∀ i, ¬ (0 ≤ i < 25 * 80) → crt s' i = crt s i
}.

Lemma drawn_refl s : screen_ok s → drawn s s.
Proof. by split. Qed.

Lemma drawn_trans s1 s2 s3 : drawn s1 s2 → drawn s2 s3 → drawn s1 s3.
Proof.
  intros [H1 H2 H3] [H4 H5 H6]. split; [done|congruence|]. intros i Hi. by rewrite H6, H3.
Qed.

Lemma put_cell_out (f : Z → Z) (p v i : Z) : i ≠ p → <[p := v]> f i = f i.
Proof. intros H. by apply fn_lookup_insert_ne. Qed.

(** The end of [cgaputc], with the new position. *)
Lemma cga_finish s pos : panicked s = false → 0 ≤ pos ≤ 24 * 80 →
  ∃ s', (pos ← (if 24 <=? pos / 80 then
             s ← getS;
             _ ← set_crt (scroll_cells (pos - 80) (crt s));
             mret (pos - 80)
           else mret pos);
         _ ← set_cursor pos;
         put_cell pos (Z.lor 32 0x0700)) s = Done ((), s') ∧ drawn s s' ∧ uart_out s' = uart_out s.
Proof.
  intros Hp Hpos. pose proof (Z.div_mod pos 80 ltac:(lia)) as Hd. pose proof (Z.mod_pos_bound pos 80 ltac:(lia)) as Hm.
  destruct (Z.leb_spec 24 (pos / 80)) as [H|H]; eexists; (split; [reflexivity|]); cbn [panicked cursor crt uart_out passwd_mode].
  - split; [|done]. split; cbn; [split; [done|]; unfold u16; cbn; rewrite Z.mod_small; lia|done|].
    intros i Hi. rewrite put_cell_out by lia. unfold scroll_cells.
    destruct (Z.leb_spec (pos - 80) i), (Z.ltb_spec i (24 * 80)), (Z.leb_spec 0 i), (Z.ltb_spec i (23 * 80)); cbn; try done; lia.
  - split; [|done]. split; cbn; [split; [done|]; unfold u16; cbn; rewrite Z.mod_small; lia|done|].
    intros i Hi. rewrite put_cell_out by lia. done.
Qed.

Lemma cgaputc_run c s : screen_ok s →
  ∃ s', cgaputc c s = Done ((), s') ∧ drawn s s' ∧ uart_out s' = uart_out s.
Proof.
  intros [Hp Hc]. unfold cgaputc. rewrite run_getS.
  pose proof (Z.mod_pos_bound (cursor s) 80 ltac:(lia)) as Hm. pose proof (Z.div_mod (cursor s) 80 ltac:(lia)) as Hd.
  assert (Hfin : ∀ s1 pos, panicked s1 = false → 0 ≤ pos ≤ 24 * 80 → drawn s s1 ∨ s1 = s → uart_out s1 = uart_out s →
    ∃ s', (if (pos <? 0) || (25 * 80 <? pos) then panic "pos under/overflow"
           else pos ← (if 24 <=? pos / 80 then
               s ← getS;
               _ ← set_crt (scroll_cells (pos - 80) (crt s));
               mret (pos - 80)
             else mret pos);
           _ ← set_cursor pos;
           put_cell pos (Z.lor 32 0x0700)) s1 = Done ((), s') ∧ drawn s s' ∧ uart_out s' = uart_out s).
  { intros s1 pos Hp1 Hpos Hdr Hu. rewrite (proj2 (Z.ltb_ge pos 0)), (proj2 (Z.ltb_ge (25 * 80) pos)) by lia. cbn [orb].
    destruct (cga_finish s1 pos Hp1 Hpos) as (s' & Hrun & Hd' & Hu'). exists s'. split; [exact Hrun|].
    split; [|congruence]. destruct Hdr as [Hdr| ->]; [by eapply drawn_trans|done]. }
  destruct (c =? NEWLINE).
  { apply (Hfin s); [done| |by right|done]. assert (cursor s / 80 < 24) by (apply Z.div_lt_upper_bound; lia). lia. }
  destruct (c =? BACKSPACE).
  { destruct (Z.ltb_spec 0 (cursor s)); apply (Hfin s); try done; try lia; by right. }
  apply (Hfin (Screen (panicked s) (passwd_mode s) (<[cursor s := Z.lor (Z.land c 0xff) 0x0700]> (crt s)) (cursor s) (uart_out s))
    (cursor s + 1)); [done|lia|left|done].
  split; [done|done|]. intros i Hi. cbn. apply put_cell_out. lia.
Qed.

(** Everything [consputc] can do; nothing at all in password mode. *)
Definition echoed (s s' : screen) : Prop := drawn s s' ∧ (passwd_mode s = 1 → s' = s).

Lemma consputc_char_run c s : screen_ok s →
  ∃ s', consputc_char c s = Done ((), s') ∧ echoed s s'.
Proof.
  intros H. pose proof H as [Hp Hc]. unfold consputc_char. rewrite run_getS, Hp.
  destruct (Z.eqb_spec (passwd_mode s) 1) as [E|E]; [exists s; split; [done|]; split; [by apply drawn_refl|done]|].
  assert (Hu : ∃ s1, (if c =? BACKSPACE then _ ← uartputc 8; _ ← uartputc 32; uartputc 8 else uartputc c) s = Done ((), s1) ∧
    drawn s s1).
  { destruct (c =? BACKSPACE); eexists; (split; [reflexivity|]); by split. }
  destruct Hu as (s1 & Hu & Hd). rewrite (bind_done _ _ _ _ _ Hu).
  destruct (cgaputc_run c s1 (dr_ok _ _ Hd)) as (s' & Hrun & Hd' & _). exists s'. split; [done|].
  split; [by eapply drawn_trans|done].
Qed.

Lemma consputc_run c s : screen_ok s → ∃ s', consputc c s = Done ((), s') ∧ echoed s s'.
Proof.
  intros H. pose proof H as [Hp Hc]. unfold consputc. rewrite run_getS, Hp.
  destruct (Z.eqb_spec (passwd_mode s) 1) as [E|E]; [exists s; split; [done|]; split; [by apply drawn_refl|done]|].
  destruct (c =? TAB); [|by apply consputc_char_run].
  unfold clear_screen. rewrite run_getS. unfold set_crt, set_cursor. rewrite !run_modS. cbn -[consputc_char].
  set (s1 := Screen _ _ _ _ _). assert (Hd : drawn s s1).
  { subst s1. split; [by split|done|]. intros i Hi. cbn [crt].
    assert ((0 <=? i) && (i <? 25 * 80) = false) as ->; [|done].
    destruct (Z.leb_spec 0 i), (Z.ltb_spec i (25 * 80)); cbn; try done; lia. }
  destruct (consputc_char_run 36 s1 (dr_ok _ _ Hd)) as (s' & Hrun & Hd' & _). exists s'.
  split; [exact Hrun|]. split; [by eapply drawn_trans|done].
Qed.

(** ** The line discipline *)

(** Input that readers may take, and the line that is still being edited. *)
Record disc := Disc { ready : list Z; line : list Z }.

(** The input buffer stores [d]: the indices count modulo 2^32. *)
Record stores (i : input) (d : disc) : Prop := Stores {
  ho_len : Z.of_nat (length (ready d ++ line d)) ≤ INPUT_BUF;
  ho_r : 0 ≤ in_r i < 2 ^ 32;
  ho_w : in_w i = u32 (in_r i + Z.of_nat (length (ready d)));
  ho_e : in_e i = u32 (in_r i + Z.of_nat (length (ready d ++ line d)));
  ho_data : ∀ k b, (ready d ++ line d) !! k = Some b → ibuf i ((in_r i + Z.of_nat k) mod INPUT_BUF) = b
}.

(** The line being edited has no newline yet. *)
Definition holds (i : input) (d : disc) : Prop := stores i d ∧ NEWLINE ∉ line d.

(** What a character does to the line being edited. *)
Definition typed (d : disc) (c : Z) : disc :=
  if c =? Ctl 80 then d
  else if c =? Ctl 85 then Disc (ready d) []
  else if (c =? Ctl 72) || (c =? 127) then Disc (ready d) (take (length (line d) - 1) (line d))
  else if (c =? 0) || (INPUT_BUF <=? Z.of_nat (length (ready d ++ line d))) then d
  else
    let c := if c =? 13 then NEWLINE else c in
    let l := line d ++ [s8 c] in
    if (c =? NEWLINE) || (c =? Ctl 68) || (Z.of_nat (length (ready d ++ l)) =? INPUT_BUF) then Disc (ready d ++ l) []
    else Disc (ready d) l.

Lemma index_u32 a : u32 a mod INPUT_BUF = a mod INPUT_BUF.
Proof.
  unfold u32, INPUT_BUF. rewrite <- Znumtheory.Zmod_div_mod; [done|lia|lia|]. exists (2 ^ 25). reflexivity.
Qed.

Lemma u32_eq a b : u32 a = u32 b → - 2 ^ 32 < a - b < 2 ^ 32 → a = b.
Proof.
  unfold u32. intros H Hr. pose proof (Z.div_mod a (2 ^ 32)). pose proof (Z.div_mod b (2 ^ 32)).
  assert (a / 2 ^ 32 = b / 2 ^ 32); nia.
Qed.

(** The state of the console between two steps of [consoleintr]. *)
Definition con_ok (s : con) (d : disc) : Prop := holds (inp s) d ∧ screen_ok (scr s).

(** Steps change the screen and the input buffer; in password mode the screen
    stays as it is. *)
Record con_step (s s' : con) (d' : disc) : Prop := ConStep {
  cs_input : holds (inp s') d';
  cs_screen : echoed (scr s) (scr s');
  cs_lock : conlock s' = conlock s ∧ locking s' = locking s
}.

Lemma con_step_trans s1 s2 s3 d2 d3 : con_step s1 s2 d2 → con_step s2 s3 d3 → con_step s1 s3 d3.
Proof.
  intros [H1 [H2 H2'] [H3 H3']] [H4 [H5 H5'] [H6 H6']]. split; [done| |split; congruence].
  split; [by eapply drawn_trans|]. intros E. rewrite H5', H2'; [done..|]. by rewrite (dr_mode _ _ H2).
Qed.

Lemma con_step_ok s s' d' : con_step s s' d' → con_ok s' d'.
Proof. intros [H1 [H2 _] _]. split; [done|apply H2]. Qed.

Definition with_scr (x : screen) (s : con) : con := Con (conlock s) (locking s) x (inp s) (wakes s).
Definition with_inp (i : input) (s : con) : con := Con (conlock s) (locking s) (scr s) i (wakes s).

Lemma run_get_input {B} (k : input → M con B) s : (get_input ≫= k) s = k (inp s) s.
Proof. done. Qed.

Lemma run_set_input {B} i (k : () → M con B) s : (set_input i ≫= k) s = k () (with_inp i s).
Proof. done. Qed.

Lemma run_echo {B} c x (k : () → M con B) s : consputc c (scr s) = Done ((), x) →
  (on_screen (consputc c) ≫= k) s = k () (with_scr x s).
Proof. intros H. rewrite run_bind. unfold on_screen, zoom. by rewrite H. Qed.

Lemma rub_out_run s r l b : con_ok s (Disc r (l ++ [b])) →
  ∃ s', rub_out s = Done ((), s') ∧ con_step s s' (Disc r l).
Proof.
  intros [[[H1 H2 H3 H4 H5] H6] Hs]. cbn [ready line] in *. unfold rub_out.
  destruct (consputc_run BACKSPACE (scr s) Hs) as (x & Hx & He).
  set (i' := Input (ibuf (inp s)) (in_r (inp s)) (in_w (inp s)) (u32 (in_e (inp s) - 1))).
  exists (with_scr x (with_inp i' s)). split.
  { change (on_screen (consputc BACKSPACE) (with_inp i' s) = Done ((), with_scr x (with_inp i' s))).
    unfold on_screen, zoom. cbn [scr with_inp]. by rewrite Hx. }
  rewrite !length_app in H1, H4. cbn [length] in H1, H4.
  split; [|exact He|done]. split; [|cbn; set_solver]. split; cbn [with_scr with_inp inp i' ibuf in_r in_w in_e ready line]; rewrite ?length_app; try done.
  - lia.
  - rewrite H4, u32_sub_l. f_equal. lia.
  - intros k b' Hk. apply H5. rewrite (app_assoc r l [b]). by apply lookup_app_l_Some.
Qed.

(** The indices are equal exactly when there is nothing to edit. *)
Lemma holds_editing i d : holds i d → (in_e i =? in_w i) = bool_decide (line d = []).
Proof.
  intros [[H1 H2 H3 H4 H5] _]. rewrite length_app in H1, H4. case_bool_decide as E.
  - rewrite E in H4. cbn in H4. apply Z.eqb_eq. rewrite H4, H3. f_equal. lia.
  - apply Z.eqb_neq. intros Ee. rewrite H4, H3 in Ee. apply u32_eq in Ee; unfold INPUT_BUF in *; [|lia].
    destruct (line d); [done|]. cbn in Ee. lia.
Qed.

Lemma holds_last i r l b : holds i (Disc r (l ++ [b])) → ibuf i (u32 (in_e i - 1) mod INPUT_BUF) = b.
Proof.
  intros [[H1 H2 H3 H4 H5] _]. cbn [ready line] in *. rewrite index_u32, H4.
  rewrite <- (index_u32 (_ - 1)), u32_sub_l, index_u32.
  rewrite <- (H5 (length (r ++ l)) b); [|by rewrite (app_assoc r l), list_lookup_middle].
  f_equal. f_equal. rewrite !length_app. cbn. lia.
Qed.

Lemma kill_line_run l : ∀ s r fuel, con_ok s (Disc r l) → (length l ≤ fuel)%nat →
  ∃ s', kill_line fuel s = Done ((), s') ∧ con_step s s' (Disc r []).
Proof.
  induction l as [|b l IH] using rev_ind; intros s r fuel Hok Hf.
  - exists s. pose proof Hok as [Hh Hs]. pose proof (holds_editing _ _ Hh) as He. cbn in He.
    split; [destruct fuel; cbn [kill_line]; rewrite run_get_input; by rewrite He|].
    split; [done| |done]. split; [by apply drawn_refl|done].
  - rewrite length_app in Hf. cbn in Hf. destruct fuel as [|fuel]; [lia|].
    destruct (rub_out_run s r l b Hok) as (s1 & Hr & Hc1). pose proof Hok as [Hh Hs].
    destruct (IH s1 r fuel (con_step_ok _ _ _ Hc1) ltac:(lia)) as (s' & Hk & Hc2).
    exists s'. split; [|by eapply con_step_trans].
    cbn [kill_line]. rewrite run_get_input.
    rewrite (holds_editing _ _ Hh), (holds_last _ _ _ _ Hh). cbn [line]. rewrite bool_decide_false by (by destruct l).
    assert (b ≠ NEWLINE) as ->%Z.eqb_neq by (intros ->; destruct Hh as [_ Hn]; cbn in Hn; set_solver).
    cbn [negb andb]. by rewrite (bind_done _ _ _ _ _ Hr).
Qed.

(** A byte at the end of the line. *)
Lemma stores_put i r l b : stores i (Disc r l) → Z.of_nat (length (r ++ l)) < INPUT_BUF →
  stores (Input (<[in_e i mod INPUT_BUF := b]> (ibuf i)) (in_r i) (in_w i) (u32 (in_e i + 1))) (Disc r (l ++ [b])).
Proof.
  intros [H1 H2 H3 H4 H5] Hlt. cbn [ready line] in *.
  assert (Hl : length (r ++ l ++ [b]) = S (length (r ++ l))) by (rewrite !length_app; cbn; lia).
  split; cbn [ibuf in_r in_w in_e ready line]; rewrite ?Hl; try done.
  - lia.
  - rewrite H4, u32_add_l. f_equal. lia.
  - intros k c Hk. rewrite H4, index_u32. rewrite (app_assoc r l [b]) in Hk.
    apply lookup_snoc_Some in Hk as [[Hk Hc]|[-> <-]]; [|apply fn_lookup_insert].
    rewrite fn_lookup_insert_ne; [by apply H5|]. clear -Hk Hlt. unfold INPUT_BUF in *. intros E.
    pose proof (Z.div_mod (in_r i + Z.of_nat (length (r ++ l))) 128 ltac:(lia)).
    pose proof (Z.div_mod (in_r i + Z.of_nat k) 128 ltac:(lia)). lia.
Qed.

(** [input.w = input.e] *)
Lemma stores_commit i r l : stores i (Disc r l) →
  holds (Input (ibuf i) (in_r i) (in_e i) (in_e i)) (Disc (r ++ l) []).
Proof.
  intros [H1 H2 H3 H4 H5]. cbn [ready line] in *. split; [|cbn; set_solver].
  split; cbn [ibuf in_r in_w in_e ready line]; by rewrite ?app_nil_r.
Qed.

Lemma stores_count i d : stores i d → u32 (in_e i - in_r i) = Z.of_nat (length (ready d ++ line d)) ∧
  (in_e i =? u32 (in_r i + INPUT_BUF)) = (Z.of_nat (length (ready d ++ line d)) =? INPUT_BUF).
Proof.
  intros [H1 H2 H3 H4 H5]. rewrite H4. split.
  - rewrite u32_sub_l, u32_small by (unfold INPUT_BUF in *; lia). lia.
  - destruct (Z.eqb_spec (Z.of_nat (length (ready d ++ line d))) INPUT_BUF) as [->|E]; [apply Z.eqb_refl|].
    apply Z.eqb_neq. intros E'. apply u32_eq in E'; unfold INPUT_BUF in *; lia.
Qed.

Lemma type_in_run s d c : con_ok s d → 0 ≤ c < 256 → c ≠ 0 → Z.of_nat (length (ready d ++ line d)) < INPUT_BUF →
  let c' := if c =? 13 then NEWLINE else c in
  let l := line d ++ [s8 c'] in
  ∃ s', type_in c s = Done ((), s') ∧
    con_step s s' (if (c' =? NEWLINE) || (c' =? Ctl 68) || (Z.of_nat (length (ready d ++ l)) =? INPUT_BUF)
                   then Disc (ready d ++ l) [] else Disc (ready d) l).
Proof.
  intros [[Hst Hnl] Hs] Hc Hc0 Hlt c' l. destruct d as [r l0]. cbn [ready line] in *.
  pose proof (stores_put _ _ _ (s8 c') Hst Hlt) as Hst'. fold l in Hst'. set (i' := Input _ _ _ _) in Hst'.
  destruct (consputc_run c' (scr s) Hs) as (x & Hx & He).
  assert (Hrun : type_in c s = (if (c' =? NEWLINE) || (c' =? Ctl 68) || (in_e i' =? u32 (in_r i' + INPUT_BUF)) then
      _ ← set_input (Input (ibuf i') (in_r i') (in_e i') (in_e i')); wakeup_reader else mret ()) (with_scr x (with_inp i' s))).
  { unfold type_in. rewrite run_get_input. destruct (stores_count _ _ Hst) as [-> _]. cbn [ready line].
    rewrite (proj2 (Z.eqb_neq c 0) Hc0), (proj2 (Z.ltb_lt _ _) Hlt). cbn [negb andb]. fold c'.
    by rewrite run_set_input, (run_echo c' x). }
  rewrite Hrun. clear Hrun. destruct (stores_count _ _ Hst') as [_ ->]. cbn [ready line].
  destruct ((c' =? NEWLINE) || (c' =? Ctl 68) || _) eqn:Ec; eexists; (split; [reflexivity|]).
  - split; [|exact He|done]. by apply stores_commit.
  - split; [|exact He|done]. split; [done|]. cbn [line]. subst l.
    apply orb_false_iff in Ec as [[Ec%Z.eqb_neq _]%orb_false_iff _].
    rewrite not_elem_of_app, list_elem_of_singleton. split; [done|]. intros E. apply Ec.
    unfold NEWLINE, s8 in *. pose proof (Z.div_mod (c' + 128) 256 ltac:(lia)).
    assert (0 ≤ c' < 256) by (subst c'; destruct (c =? 13); unfold NEWLINE; lia).
    change (2 ^ 7) with 128 in *. change (2 ^ 8) with 256 in *.
    assert ((c' + 128) / 256 = 0 ∨ (c' + 128) / 256 = 1) as [|] by
      (assert ((c' + 128) / 256 < 2) by (apply Z.div_lt_upper_bound; lia); pose proof (Z.div_pos (c' + 128) 256); lia); lia.
Qed.

Lemma console_char_run s d c dump : con_ok s d → 0 ≤ c < 256 →
  ∃ s', console_char c dump s = Done (dump || (c =? Ctl 80), s') ∧ con_step s s' (typed d c).
Proof.
  intros Hok Hc. pose proof Hok as [[Hst Hnl] Hs].
  assert (Hsame : con_step s s d) by (split; [done| |done]; split; [by apply drawn_refl|done]).
  unfold console_char, typed. destruct (c =? Ctl 80); [exists s; split; [by rewrite orb_true_r|done]|].
  rewrite orb_false_r. destruct (c =? Ctl 85).
  { rewrite run_get_input. destruct d as [r l]. destruct (kill_line_run l s r (Z.to_nat (u32 (in_e (inp s) - in_w (inp s)))) Hok) as (s' & Hk & Hc').
    { destruct Hst as [H1 H2 H3 H4 _]. cbn [ready line] in *. rewrite H4, H3, u32_sub_l, u32_sub_r, length_app in *.
      rewrite u32_small; unfold INPUT_BUF in *; lia. }
    exists s'. by rewrite (bind_done _ _ _ _ _ Hk). }
  destruct ((c =? Ctl 72) || (c =? 127)).
  { rewrite run_get_input, (holds_editing _ d) by done. case_bool_decide as El; cbn [negb mwhen].
    - exists s. split; [done|]. destruct d as [r l]. cbn [line] in El. by subst l.
    - destruct d as [r l]. cbn [line] in *. destruct (exists_last El) as (l' & b & ->).
      destruct (rub_out_run s r l' b Hok) as (s' & Hr & Hc'). exists s'. rewrite (bind_done _ _ _ _ _ Hr).
      split; [done|]. cbn [ready line]. rewrite length_app. cbn [length].
      replace (length l' + 1 - 1)%nat with (length l') by lia. by rewrite take_app_length. }
  destruct (Z.eqb_spec c 0) as [->|Hc0]; cbn [orb].
  { exists s. split; [|done]. unfold type_in. by rewrite run_bind, run_get_input. }
  destruct (Z.leb_spec INPUT_BUF (Z.of_nat (length (ready d ++ line d)))) as [Hfull|Hlt].
  { exists s. split; [|done]. unfold type_in. rewrite run_bind, run_get_input. destruct (stores_count _ _ Hst) as [-> _].
    by rewrite (proj2 (Z.ltb_ge _ _) Hfull), andb_false_r. }
  destruct (type_in_run s d c Hok Hc Hc0 Hlt) as (s' & Hr & Hc'). exists s'. by rewrite (bind_done _ _ _ _ _ Hr).
Qed.

Lemma console_chars_run cs : ∀ s d dump, con_ok s d → Forall (λ c, 0 ≤ c < 256) cs →
  ∃ s', console_chars cs dump s = Done (dump || bool_decide (Ctl 80 ∈ cs), s') ∧ con_step s s' (fold_left typed cs d).
Proof.
  induction cs as [|c cs IH]; intros s d dump Hok HF.
  - exists s. split; [cbn; by rewrite orb_false_r|]. destruct Hok as [Hh Hs]. cbn.
    split; [done| |done]. split; [by apply drawn_refl|done].
  - apply Forall_cons in HF as [Hc HF]. destruct (console_char_run s d c dump Hok Hc) as (s1 & H1 & C1).
    destruct (IH s1 (typed d c) (dump || (c =? Ctl 80)) (con_step_ok _ _ _ C1) HF) as (s' & H2 & C2).
    exists s'. cbn [console_chars fold_left]. rewrite (bind_done _ _ _ _ _ H1), H2. split; [|by eapply con_step_trans].
    do 2 f_equal. rewrite <- orb_assoc. f_equal. destruct (Z.eqb_spec c (Ctl 80)) as [->|Hne]; cbn [orb].
    + symmetry. apply bool_decide_true. set_solver.
    + apply bool_decide_ext. set_solver.
Qed.

Lemma consoleintr_run s d cs :
  con_ok s d → conlock s = false → Forall (λ c, 0 ≤ c < 256) cs →
  ∃ s', consoleintr cs s = Done (bool_decide (Ctl 80 ∈ cs), s') ∧ con_ok s' (fold_left typed cs d) ∧
    conlock s' = false ∧ (passwd_mode (scr s) = 1 → scr s' = scr s).
Proof.
  intros [Hh Hs] Hl HF. unfold consoleintr, acquire_cons. rewrite run_bind, run_getS, Hl. cbn -[console_chars].
  set (s1 := Con true _ _ _ _). destruct (console_chars_run cs s1 d false) as (s2 & H2 & C2); [by split|done|].
  change (console_chars cs false s1) with (console_chars cs false s1).
  rewrite run_bind, H2. cbn [orb]. pose proof (cs_lock _ _ _ C2) as [L2 _]. cbn in L2.
  exists (Con false (locking s2) (scr s2) (inp s2) (wakes s2)). unfold release_cons.
  rewrite run_bind, run_getS, L2. split; [done|]. destruct C2 as [D1 [D2 D3] _].
  split; [split; [exact D1|apply D2]|]. split; [done|]. intros E. exact (D3 E).
Qed.

(** C26: keyboard and serial input go through the line discipline.  Whatever
    characters arrive, [consoleintr] ends with the lock released and the buffer
    holding what the line discipline says: characters are added to the line
    being edited as long as the buffer has room, backspace and control-U edit
    only that line, and newline, control-D or a full buffer hand it to the
    readers.  The buffer indices may wrap around at 2^32.  In password mode the
    screen and the serial line do not change at all. *)
Theorem consoleintr_edits s d cs :
  con_ok s d → conlock s = false → Forall (λ c, 0 ≤ c < 256) cs →
  ∃ s', consoleintr cs s = Done (bool_decide (Ctl 80 ∈ cs), s') ∧ con_ok s' (fold_left typed cs d) ∧
    conlock s' = false ∧ (passwd_mode (scr s) = 1 → scr s' = scr s).
Proof. apply consoleintr_run. Qed.

(** ** Reading *)

Lemma stores_empty i d : stores i d → (in_r i =? in_w i) = bool_decide (ready d = []).
Proof.
  intros [H1 H2 H3 H4 H5]. rewrite length_app in H1. case_bool_decide as E.
  - rewrite E in H3. cbn in H3. rewrite H3, Z.add_0_r, u32_small by lia. apply Z.eqb_refl.
  - apply Z.eqb_neq. intros Ee. rewrite H3 in Ee. rewrite <- (u32_small (in_r i)) in Ee at 1 by lia.
    apply u32_eq in Ee; unfold INPUT_BUF in *; [|lia]. destruct (ready d); [done|]. cbn in Ee. lia.
Qed.

(** The first byte, and the buffer without it. *)
Lemma stores_get i c q l : stores i (Disc (c :: q) l) →
  ibuf i (in_r i mod INPUT_BUF) = c ∧
  stores (Input (ibuf i) (u32 (in_r i + 1)) (in_w i) (in_e i)) (Disc q l).
Proof.
  intros [H1 H2 H3 H4 H5]. cbn [ready line app length] in *. split.
  - rewrite <- (H5 O c eq_refl). f_equal. f_equal. lia.
  - pose proof (u32_range (in_r i + 1)) as Hr.
    split; cbn [ibuf in_r in_w in_e ready line]; try done.
    + lia.
    + rewrite H3, u32_add_l. apply (f_equal u32). lia.
    + rewrite H4, u32_add_l. apply (f_equal u32). lia.
    + intros k b Hk. rewrite <- (H5 (S k) b Hk).
      rewrite <- (index_u32 (u32 _ + _)), u32_add_l, index_u32. f_equal. f_equal. lia.
Qed.

(** A queue whose first byte was taken and put back. *)
Lemma unread r : 0 ≤ r < 2 ^ 32 → u32 (u32 (r + 1) - 1) = r.
Proof. intros H. rewrite u32_sub_l. replace (r + 1 - 1) with r by lia. by apply u32_small. Qed.

(** What a run with [n] of [target] bytes to go takes from the queue [q]: the
    bytes [bs], leaving [q']. *)
Inductive takes (killed : bool) (target : Z) : Z → list Z → list Z → list Z → rend → Prop :=
| tk_full n q : n ≤ 0 → takes killed target n q [] q (RReturns (target - n))
| tk_empty n : 0 < n → takes killed target n [] [] [] (if killed then RKilled else RSleeps n)
| tk_eof n q : 0 < n → takes killed target n (Ctl 68 :: q) [] (if n <? target then Ctl 68 :: q else q) (RReturns (target - n))
| tk_newline n q : 0 < n → takes killed target n (NEWLINE :: q) [NEWLINE] q (RReturns (target - (n - 1)))
| tk_byte n c q bs q' e : 0 < n → c ≠ Ctl 68 → c ≠ NEWLINE → takes killed target (n - 1) q bs q' e →
    takes killed target n (c :: q) (c :: bs) q' e.

Lemma consoleread_loop_run q : ∀ s l killed target n fuel, stores (inp s) (Disc q l) → (Z.to_nat n ≤ fuel)%nat →
  ∃ bs q' e s', consoleread_loop fuel killed target n s = Done ((bs, e), s') ∧
    takes killed target n q bs q' e ∧ stores (inp s') (Disc q' l) ∧ scr s' = scr s ∧ conlock s' = conlock s.
Proof.
  induction q as [|c q IH]; intros s l killed target n fuel Hst Hf.
  all: destruct (Z.leb_spec n 0) as [Hn|Hn].
  1,3: eexists [], _, _, s; split; [destruct fuel; cbn [consoleread_loop]; by rewrite (proj2 (Z.leb_le n 0) Hn)|];
    split; [by constructor|done].
  - pose proof (stores_empty _ _ Hst) as He. cbn in He.
    exists [], [], (if killed then RKilled else RSleeps n), s. split; [|split; [by constructor|done]].
    destruct fuel; cbn [consoleread_loop]; rewrite (proj2 (Z.leb_gt n 0) Hn), run_get_input, He; by destruct killed.
  - pose proof (stores_empty _ _ Hst) as He. cbn in He. destruct (stores_get _ _ _ _ Hst) as [Hc Hst'].
    destruct fuel as [|fuel]; [lia|]. cbn [consoleread_loop]. rewrite (proj2 (Z.leb_gt n 0) Hn), run_get_input, He, Hc.
    destruct (Z.eqb_spec c (Ctl 68)) as [->|Hd].
    { eexists [], _, _, _. split; [by rewrite run_set_input|]. split; [by constructor|]. cbn [with_inp inp scr conlock].
      split; [|done]. destruct (n <? target); [|done]. rewrite unread by apply Hst. by destruct (inp s). }
    rewrite run_set_input. destruct (Z.eqb_spec c NEWLINE) as [->|Hnl].
    { eexists [NEWLINE], q, _, _. split; [done|]. split; [by constructor|]. done. }
    set (s1 := with_inp _ s). destruct (IH s1 l killed target (n - 1) fuel) as (bs & q' & e & s' & Hr & Ht & H3 & H4 & H5);
      [done|lia|].
    exists (c :: bs), q', e, s'. rewrite (bind_done _ _ _ _ _ Hr). split; [done|]. by split; [constructor|].
Qed.

(** readers get the finished input in order.  Each run of [consoleread]
    takes bytes from the front of the queue until it has enough, or has taken a
    newline, or meets control-D, which is taken only if nothing was read before
    it, so that the reader gets an end of file of its own; if the queue is
    empty first it sleeps, or gives up when it was killed.  The line being
    edited is not touched. *)
Theorem consoleread_takes s q l killed target n :
  con_ok s (Disc q l) → conlock s = false →
  ∃ bs q' e s', consoleread_run killed target n s = Done ((bs, e), s') ∧
    takes killed target n q bs q' e ∧ con_ok s' (Disc q' l) ∧ scr s' = scr s ∧ conlock s' = false.
Proof.
  intros [[Hst Hnl] Hs] Hl. unfold consoleread_run, acquire_cons. rewrite run_bind, run_getS, Hl.
  cbn -[consoleread_loop]. set (s1 := Con true _ _ _ _).
  destruct (consoleread_loop_run q s1 l killed target n (Z.to_nat n)) as (bs & q' & e & s' & Hr & Ht & H3 & H4 & H5); [done|lia|].
  rewrite run_bind, Hr. unfold release_cons. rewrite run_bind, run_getS, H5.
  exists bs, q', e, (Con false (locking s') (scr s') (inp s') (wakes s')). split; [done|]. split; [done|].
  cbn [scr conlock]. split; [|by split]. split; [by split|]. cbn [scr]. by rewrite H4.
Qed.

(** the console never writes outside the screen and the cursor never leaves
    it: printing any character keeps the cursor in the first 24 rows and every
    cell outside the 25 rows unchanged, and does not panic; in password mode
    it does nothing. *)
Theorem consputc_stays c s : screen_ok s →
  ∃ s', consputc c s = Done ((), s') ∧ screen_ok s' ∧ (∀ i, ¬ (0 ≤ i < 25 * 80) → crt s' i = crt s i) ∧
    (passwd_mode s = 1 → s' = s).
Proof.
  intros H. destruct (consputc_run c s H) as (s' & Hr & [[D1 _ D3] He]). by exists s'.
Qed.

(** ** Witnesses *)

Definition blank : con := Con false true (Screen false 0 (λ _, 0) 0 []) (Input (λ _, 0) (2 ^ 32 - 2) (2 ^ 32 - 2) (2 ^ 32 - 2)) 0.

Lemma blank_ok : con_ok blank (Disc [] []).
Proof.
  split; [split; [|set_solver]; split; cbn; try done; by intros k b H|]. by split.
Qed.

(** "l", "x", backspace, "s", newline, with indices that wrap around. *)
Lemma consoleintr_edits_witness :
  ∃ s', consoleintr [108; 120; 8; 115; 13] blank = Done (false, s') ∧ con_ok s' (Disc [108; 115; 10] []).
Proof.
  destruct (consoleintr_edits blank (Disc [] []) [108; 120; 8; 115; 13]) as (s' & E & H & _);
    [exact blank_ok|reflexivity|repeat constructor; lia|].
  exists s'. split; [exact E|exact H].
Defined.

Lemma consoleread_takes_witness :
  ∃ bs q' e s', consoleread_run false 5 5 blank = Done ((bs, e), s') ∧ takes false 5 5 [] bs q' e.
Proof.
  destruct (consoleread_takes blank [] [] false 5 5) as (bs & q' & e & s' & E & H & _); [exact blank_ok|reflexivity|].
  exists bs, q', e, s'. exact (conj E H).
Defined.

Lemma consputc_stays_witness : ∃ s', consputc 65 (scr blank) = Done ((), s').
Proof. destruct (consputc_stays 65 (scr blank)) as (s' & E & _); [apply blank_ok|]. exists s'. exact E. Defined.
