(* ===== verification/Sync.v ===== *)
(** * Sleeping locks and semaphores: kernel/lock/sleeplock.c and semaphore.c

    Both are short critical sections under a spinlock, between which a process
    may sleep.  The functions are the runs from one sleep to the next; the
    interleaving of many processes is a step relation in which [wakeup] wakes
    one sleeper, as the process table does. *)
From stdpp Require Import base decidable option list functions numbers strings sets.
From Stdlib Require Import ZArith Lia.
From S2P Require Import Prelude.

Local Open Scope Z_scope.

(** How a run ends: asleep on the lock, or with a result. *)
Inductive run_end := Sleeps | Returns (r : Z).

(** ** Sleeping locks *)

Record sleeplock := Sleeplock { locked : Z; lpid : Z }.

Definition initsleeplock : sleeplock := Sleeplock 0 0.

(** One round of [acquiresleep]'s loop by the process [pid]. *)
Definition acquiresleep (pid : Z) (lk : sleeplock) : sleeplock * run_end :=
  if c_true (locked lk) then (lk, Sleeps) else (Sleeplock 1 pid, Returns 0).

(** [releasesleep]; it also calls [wakeup] on the lock. *)
Definition releasesleep (lk : sleeplock) : sleeplock := Sleeplock 0 0.

Definition holdingsleep (pid : Z) (lk : sleeplock) : bool := c_true (locked lk) && (lpid lk =? pid).

(** ** Semaphores *)

Definition EINVL : Z := 1.
Definition ECANTINSERT : Z := 2.
Definition MAX_HOLDERS : nat := 10.
Definition MAX_SEM_VAL : Z := 16.

Record semaphore := Semaphore {
  sem_value : Z;
  sem_waiting : Z;
  holding : Z;
  holder_pids : list Z;
  sem_lk : bool         (* the spinlock is held *)
}.

Definition set_holders (l : list Z) (s : semaphore) : semaphore :=
  Semaphore (sem_value s) (sem_waiting s) (holding s) l (sem_lk s).
Definition set_lk (b : bool) (s : semaphore) : semaphore :=
  Semaphore (sem_value s) (sem_waiting s) (holding s) (holder_pids s) b.

(** The first entry of [l] that is [old] becomes [new]. *)
Fixpoint replace_first (old new : Z) (l : list Z) : option (list Z) :=
  match l with
  | [] => None
  | x :: l => if x =? old then Some (new :: l) else l' ← replace_first old new l; Some (x :: l')
  end.

Definition remove_pid (pid : Z) : M semaphore Z :=
  s ← getS;
  match replace_first pid 0 (holder_pids s) with
  | Some l => _ ← putS (set_holders l s); mret 1
  | None => mret 0
  end.

Definition insert_pid (pid : Z) : M semaphore Z :=
  s ← getS;
  match replace_first 0 pid (holder_pids s) with
  | Some l => _ ← putS (set_holders l s); mret 1
  | None => mret 0
  end.

Definition init_sem (value : Z) : M semaphore Z :=
  if (value <=? 0) || (MAX_SEM_VAL <? value) then mret (- EINVL)
  else
    _ ← modS (λ s, Semaphore value 0 0 (repeat 0 MAX_HOLDERS) (sem_lk s));
    mret 1.

(** [sem_inc]; the result tells whether it calls [wakeup]. *)
Definition sem_inc (pid : Z) : M semaphore bool :=
  _ ← modS (λ s, Semaphore (s32 (sem_value s + 1)) (sem_waiting s) (s32 (holding s - 1)) (holder_pids s) (sem_lk s));
  _ ← remove_pid pid;
  s ← getS;
  mret (0 <? sem_waiting s).

(** [sem_dec] from the sleep on, with the lock held again. *)
Definition sem_dec_rest (pid : Z) : M semaphore run_end :=
  r ← insert_pid pid;
  if negb (c_true r) then mret (Returns (- ECANTINSERT))
  else
    _ ← modS (λ s, Semaphore (s32 (sem_value s - 1)) (sem_waiting s) (s32 (holding s + 1)) (holder_pids s) false);
    mret (Returns 0).

(** [sem_dec] up to its sleep, which releases the lock, or to its end.  A
    processor that finds the lock held spins. *)
Definition sem_dec (pid : Z) : M semaphore run_end :=
  s ← getS;
  if sem_lk s then hang
  else
    _ ← putS (set_lk true s);
    if sem_value s =? 0 then _ ← modS (set_lk false); mret Sleeps
    else sem_dec_rest pid.

(** ** Many processes and a sleeping lock *)

(** A process does not use the lock, is about to run the loop of
    [acquiresleep], sleeps in it, or has the lock. *)
Inductive phase := Out | Wants | Asleep | Has.

#[export] Instance phase_eq : EqDecision phase.
Proof. solve_decision. Defined.

Record slsys := Slsys { lk : sleeplock; ph : Z → phase }.

Inductive slstep : slsys → slsys → Prop :=
| sl_call s p : ph s p = Out → slstep s (Slsys (lk s) (<[p := Wants]> (ph s)))
| sl_sleep s p lk' : ph s p = Wants → acquiresleep p (lk s) = (lk', Sleeps) →
    slstep s (Slsys lk' (<[p := Asleep]> (ph s)))
| sl_get s p lk' r : ph s p = Wants → acquiresleep p (lk s) = (lk', Returns r) →
    slstep s (Slsys lk' (<[p := Has]> (ph s)))
| sl_release s p q : ph s p = Has → ph s q = Asleep →
    slstep s (Slsys (releasesleep (lk s)) (<[q := Wants]> (<[p := Out]> (ph s))))
| sl_release_none s p : ph s p = Has → (∀ q, ph s q ≠ Asleep) →
    slstep s (Slsys (releasesleep (lk s)) (<[p := Out]> (ph s))).

Inductive slreach : slsys → Prop :=
| slr_init : slreach (Slsys initsleeplock (λ _, Out))
| slr_step s s' : slreach s → slstep s s' → slreach s'.

(** The lock is held by exactly the process it names; if it is free, sleepers
    are not forgotten. *)
Record slinv (s : slsys) : Prop := Slinv {
  sv_flag : locked (lk s) = 0 ∨ locked (lk s) = 1;
  sv_holder : ∀ p, ph s p = Has ↔ locked (lk s) = 1 ∧ lpid (lk s) = p;
  sv_woken : locked (lk s) = 0 → ∀ p, ph s p = Asleep → ∃ q, ph s q = Wants
}.

Lemma acquiresleep_cases p l l' e : acquiresleep p l = (l', e) → locked l = 0 ∨ locked l = 1 →
  (locked l = 1 ∧ l' = l ∧ e = Sleeps) ∨ (locked l = 0 ∧ l' = Sleeplock 1 p ∧ e = Returns 0).
Proof. unfold acquiresleep, c_true. intros H [E|E]; rewrite E in H; injection H as <- <-; auto. Qed.

Ltac phases := repeat match goal with
  | H : context [<[?p := _]> ?f ?q] |- _ =>
      destruct (decide (p = q)) as [<-|]; [rewrite fn_lookup_insert in H|rewrite fn_lookup_insert_ne in H by done]
  | |- context [<[?p := _]> ?f ?q] =>
      destruct (decide (p = q)) as [<-|]; [rewrite fn_lookup_insert|rewrite fn_lookup_insert_ne by done]
  end.

Lemma slstep_inv s s' : slinv s → slstep s s' → slinv s'.
Proof.
  intros [H1 H2 H3] Hst.
  destruct Hst as [s p Hp|s p l' Hp Ha|s p l' r Hp Ha|s p q Hp Hq|s p Hp Hn]; cbn [lk ph] in *.
  - split; cbn [lk ph]; [done| |].
    + intros q. rewrite <- H2. phases; [split; [done|congruence]|done].
    + intros _ q _. exists p. by rewrite fn_lookup_insert.
  - destruct (acquiresleep_cases _ _ _ _ Ha H1) as [(E & -> & _)|(_ & _ & [=])].
    split; cbn [lk ph]; [done| |congruence]. intros q. rewrite <- H2. phases; [split; [done|congruence]|done].
  - destruct (acquiresleep_cases _ _ _ _ Ha H1) as [(_ & _ & [=])|(E & -> & _)].
    split; cbn [lk ph locked lpid]; [by right| |done]. intros q. phases; [done|].
    split; [intros [? _]%H2; congruence|intros [_ ?]; congruence].
  - assert (Hpq : p ≠ q) by congruence. split; cbn [lk ph releasesleep locked lpid]; [by left| |].
    + intros x. split; [|by intros [[=] _]]. intros Hx. phases; try done.
      apply H2 in Hx as [_ Hx], Hp as [_ Hp]. congruence.
    + intros _ _ _. exists q. by rewrite fn_lookup_insert.
  - split; cbn [lk ph releasesleep locked lpid]; [by left| |].
    + intros x. split; [|by intros [[=] _]]. intros Hx. phases; try done.
      apply H2 in Hx as [_ Hx], Hp as [_ Hp]. congruence.
    + intros _ x Hx. phases; [done|]. by destruct (Hn x).
Qed.

Lemma slreach_inv s : slreach s → slinv s.
Proof.
  induction 1 as [|s s' _ IH Hst]; [|by eapply slstep_inv].
  split; cbn; [by left|split; [done|by intros [[=] _]]|done].
Qed.


(** ** Many processes and a semaphore *)

Inductive sphase := SOut | SAsleep | SWoken | SHas.

Record semsys := Semsys { sm : semaphore; sph : Z → sphase }.

Inductive semstep : semsys → semsys → Prop :=
| sm_dec_sleep s p m' : sph s p = SOut → sem_dec p (sm s) = Done (Sleeps, m') →
    semstep s (Semsys m' (<[p := SAsleep]> (sph s)))
| sm_dec_ret s p r m' : sph s p = SOut → sem_dec p (sm s) = Done (Returns r, m') →
    semstep s (Semsys m' (if r =? 0 then <[p := SHas]> (sph s) else sph s))
| sm_inc s p m' : sph s p = SHas → sem_inc p (sm s) = Done (false, m') →
    semstep s (Semsys m' (<[p := SOut]> (sph s)))
| sm_inc_wake s p q m' : sph s p = SHas → sem_inc p (sm s) = Done (true, m') → sph s q = SAsleep →
    semstep s (Semsys m' (<[q := SWoken]> (<[p := SOut]> (sph s))))
| sm_rest s p r m' : sph s p = SWoken → sem_lk (sm s) = false →
    sem_dec_rest p (set_lk true (sm s)) = Done (Returns r, m') →
    semstep s (Semsys m' (if r =? 0 then <[p := SHas]> (sph s) else <[p := SOut]> (sph s))).

Inductive semreach (s0 : semsys) : semsys → Prop :=
| smr_refl : semreach s0 s0
| smr_step s s' : semreach s0 s → semstep s s' → semreach s0 s'.

(** Nothing ever changes [sem_waiting]. *)
Lemma sem_rest_waiting p s e s' : sem_dec_rest p s = Done (e, s') → sem_waiting s' = sem_waiting s ∧ e ≠ Sleeps.
Proof.
  unfold sem_dec_rest, insert_pid. rewrite run_bind, run_getS.
  destruct (replace_first 0 p (holder_pids s)) as [l|]; by intros [= <- <-].
Qed.

Lemma sem_dec_waiting p s e s' : sem_dec p s = Done (e, s') → sem_waiting s' = sem_waiting s.
Proof.
  unfold sem_dec. rewrite run_getS. destruct (sem_lk s); [done|]. rewrite run_bind. cbn [putS].
  change (putS (set_lk true s) s) with (Done ((), set_lk true s)). cbv beta iota.
  destruct (sem_value s =? 0); [by intros [= _ <-]|]. by intros [-> _]%sem_rest_waiting.
Qed.

Lemma sem_inc_waiting p s b s' : sem_inc p s = Done (b, s') → sem_waiting s' = sem_waiting s ∧ b = (0 <? sem_waiting s).
Proof.
  unfold sem_inc, remove_pid. rewrite run_modS, run_bind, run_getS. cbn [holder_pids].
  destruct (replace_first p 0 (holder_pids s)) as [l|]; by intros [= <- <-].
Qed.

Definition seminv (s : semsys) : Prop := sem_waiting (sm s) = 0 ∧ ∀ p, sph s p ≠ SWoken.

Lemma semstep_inv s s' : seminv s → semstep s s' → seminv s' ∧ ∀ p, sph s p = SAsleep → sph s' p = SAsleep.
Proof.
  intros [H1 H2] Hst. unfold seminv.
  destruct Hst as [s p m' Hp E|s p r m' Hp E|s p m' Hp E|s p q m' Hp E Hq|s p r m' Hp _ E]; cbn [sm sph] in *.
  - rewrite (sem_dec_waiting _ _ _ _ E). split; [split; [done|]; intros x; by phases|intros x Hx; by phases].
  - rewrite (sem_dec_waiting _ _ _ _ E). destruct (r =? 0); [|done].
    split; [split; [done|]; intros x; by phases|intros x Hx; phases; congruence].
  - destruct (sem_inc_waiting _ _ _ _ E) as [-> _].
    split; [split; [done|]; intros x; by phases|intros x Hx; phases; congruence].
  - destruct (sem_inc_waiting _ _ _ _ E) as [_ Hb]. by rewrite H1 in Hb.
  - by destruct (H2 p).
Qed.

Lemma semreach_inv s0 s : seminv s0 → semreach s0 s → seminv s ∧ ∀ p, sph s0 p = SAsleep → sph s p = SAsleep.
Proof.
  intros H0. induction 1 as [|s s' _ [IH1 IH2] Hst]; [done|]. destruct (semstep_inv s s' IH1 Hst) as [H3 H4].
  split; [done|]. intros p Hp. by apply H4, IH2.
Qed.

(** C40: nobody who waits for a semaphore is ever woken.  [sem_waiting] is never
    incremented, so [sem_inc] never calls [wakeup]: from the moment a process
    sleeps in [sem_dec] it sleeps in every state that can be reached. *)
Theorem semaphore_never_wakes value s0 s1 s2 p :
  (∃ m, init_sem value m = Done (1, sm s0)) → (∀ q, sph s0 q = SOut) →
  semreach s0 s1 → sph s1 p = SAsleep → semreach s1 s2 → sph s2 p = SAsleep.
Proof.
  intros (m & Hi) Hout H01 Hp H12.
  assert (H0 : seminv s0).
  { split; [|intros q; by rewrite Hout]. unfold init_sem in Hi.
    destruct ((value <=? 0) || (MAX_SEM_VAL <? value)); [discriminate Hi|]. by injection Hi as <-. }
  by apply (semreach_inv s1 s2 (proj1 (semreach_inv s0 s1 H0 H01)) H12).
Qed.

(** ** More holders than entries *)

(** Ten processes that each decrement the semaphore once. *)
Fixpoint sem_decs (pids : list Z) : M semaphore () :=
  match pids with
  | [] => mret ()
  | p :: pids => _ ← sem_dec p; sem_decs pids
  end.

Lemma replace_first_fill l p k : Forall (λ x, x ≠ 0) l →
  replace_first 0 p (l ++ repeat 0 (S k)) = Some ((l ++ [p]) ++ repeat 0 k).
Proof.
  induction 1 as [|x l Hx HF IH]; [done|]. cbn. rewrite (proj2 (Z.eqb_neq x 0) Hx). cbn in IH. by rewrite IH.
Qed.

Lemma replace_first_full l p : Forall (λ x, x ≠ 0) l → replace_first 0 p l = None.
Proof. induction 1 as [|x l Hx HF IH]; [done|]. cbn. by rewrite (proj2 (Z.eqb_neq x 0) Hx), IH. Qed.

Lemma sem_decs_run pids : ∀ l k v, Forall (λ x, x ≠ 0) l → Forall (λ x, x ≠ 0) pids → length pids = k →
  Z.of_nat k < v ≤ 16 → Z.of_nat (length l + k) ≤ 100 →
  sem_decs pids (Semaphore v 0 (Z.of_nat (length l)) (l ++ repeat 0 k) false) =
    Done ((), Semaphore (v - Z.of_nat k) 0 (Z.of_nat (length (l ++ pids))) (l ++ pids) false).
Proof.
  induction pids as [|p pids IH]; intros l k v Hl Hp Hk Hv Hb; cbn [length] in Hk; subst k.
  - cbn. by rewrite app_nil_r, Z.sub_0_r.
  - apply Forall_cons in Hp as [Hp0 Hp]. cbn [sem_decs].
    assert (E : sem_dec p (Semaphore v 0 (Z.of_nat (length l)) (l ++ repeat 0 (S (length pids))) false) =
      Done (Returns 0, Semaphore (v - 1) 0 (Z.of_nat (length (l ++ [p]))) ((l ++ [p]) ++ repeat 0 (length pids)) false)).
    { unfold sem_dec. rewrite run_getS. cbn [sem_lk sem_value]. rewrite (proj2 (Z.eqb_neq v 0)) by lia.
      rewrite run_bind. cbn [putS]. unfold sem_dec_rest, insert_pid. rewrite run_bind, run_getS. cbn [set_lk holder_pids].
      rewrite replace_first_fill by done.
      transitivity (Done (Returns 0, Semaphore (s32 (v - 1)) 0 (s32 (Z.of_nat (length l) + 1))
        ((l ++ [p]) ++ repeat 0 (length pids)) false)); [reflexivity|].
      rewrite !s32_small by lia. rewrite length_app. cbn [length]. do 3 f_equal. lia. }
    rewrite (bind_done _ _ _ _ _ E). rewrite (IH (l ++ [p]) (length pids) (v - 1)); try done.
    + rewrite <- app_assoc.
      by replace (v - 1 - Z.of_nat (length pids)) with (v - Z.of_nat (length (p :: pids))) by (cbn [length]; lia).
    + apply Forall_app. split; [done|]. by apply Forall_singleton.
    + cbn [length] in Hv. lia.
    + rewrite length_app. cbn [length] in *. lia.
Qed.

(** a semaphore may have a value its holders cannot use.  [init_sem] accepts
    values up to 16, but there are ten places for holders: after ten processes
    got in, the next [sem_dec] returns -ECANTINSERT although the value is
    positive, and returns with the spinlock held, so that every later call
    spins for ever. *)
Theorem semaphore_eleventh_wedges value pids p q m :
  Z.of_nat MAX_HOLDERS < value ≤ MAX_SEM_VAL → length pids = MAX_HOLDERS → Forall (λ x, x ≠ 0) pids → sem_lk m = false →
  ∃ s0 s1 s2, init_sem value m = Done (1, s0) ∧ sem_decs pids s0 = Done ((), s1) ∧ 0 < sem_value s1 ∧
    sem_dec p s1 = Done (Returns (- ECANTINSERT), s2) ∧ sem_lk s2 = true ∧ sem_dec q s2 = Hung.
Proof.
  intros Hv Hl HF Hm. unfold MAX_HOLDERS, MAX_SEM_VAL in *.
  exists (Semaphore value 0 0 (repeat 0 10) false), (Semaphore (value - 10) 0 10 pids false),
    (Semaphore (value - 10) 0 10 pids true).
  split.
  { unfold init_sem, MAX_SEM_VAL. rewrite (proj2 (Z.leb_gt value 0)), (proj2 (Z.ltb_ge 16 value)) by lia. cbn [orb].
    rewrite run_modS, Hm. done. }
  split.
  { pose proof (sem_decs_run pids [] 10 value (Forall_nil_2 _) HF Hl ltac:(lia) ltac:(cbn; lia)) as E.
    cbn [app] in E. rewrite Hl in E. exact E. }
  split; [cbn; lia|]. split; [|done].
  unfold sem_dec. rewrite run_getS. cbn [sem_lk sem_value]. rewrite (proj2 (Z.eqb_neq _ 0)) by lia.
  rewrite run_bind. cbn [putS]. unfold sem_dec_rest, insert_pid. rewrite run_bind, run_getS. cbn [set_lk holder_pids].
  by rewrite replace_first_full.
Qed.

(** ** Witnesses *)


Lemma semaphore_never_wakes_witness :
  ∃ s2, sph s2 2 = SAsleep.
Proof.
  set (m0 := Semaphore 1 0 0 (repeat 0 10) false). set (f0 := (λ _, SOut) : Z → sphase).
  set (m1 := Semaphore 0 0 1 (1 :: repeat 0 9) false).
  set (s1 := Semsys m1 (<[2 := SAsleep]> (<[1 := SHas]> f0))).
  exists s1. apply (semaphore_never_wakes 1 (Semsys m0 f0) s1 s1 2).
  - exists m0. reflexivity.
  - intros q. reflexivity.
  - eapply smr_step; [eapply smr_step; [apply smr_refl|]|].
    + exact (sm_dec_ret (Semsys m0 f0) 1 0 m1 eq_refl eq_refl).
    + exact (sm_dec_sleep (Semsys m1 (<[1 := SHas]> f0)) 2 m1 eq_refl eq_refl).
  - reflexivity.
  - apply smr_refl.
Defined.

Lemma semaphore_eleventh_wedges_witness :
  ∃ s2, sem_lk s2 = true ∧ sem_dec 12 s2 = Hung.
Proof.
  destruct (semaphore_eleventh_wedges 11 [1; 2; 3; 4; 5; 6; 7; 8; 9; 10] 11 12 (Semaphore 0 0 0 [] false))
    as (s0 & s1 & s2 & _ & _ & _ & _ & H1 & H2); [unfold MAX_HOLDERS, MAX_SEM_VAL; lia|reflexivity|repeat constructor; lia|reflexivity|].
  exists s2. exact (conj H1 H2).
Defined.
