(* ===== verification/Ide.v ===== *)
(** * The disk driver: kernel/drivers/ide.c

    The request queues, the commands sent to the controllers and the interrupt
    handlers.  A [struct buf *] is an index into the buffers, as in FsDefs.v;
    the field [qnext] is a table of its own.  The controllers are the class
    [Ata]: what reading and writing their ports does, with the part of the ATA
    protocol the driver relies on as laws.  Each function is one critical
    section; [iderw] is cut where it sleeps. *)
From stdpp Require Import base decidable option list functions numbers strings sets.
From Stdlib Require Import ZArith Lia.
From S2P Require Import Prelude CString FsDefs Bio.

Local Open Scope Z_scope.

(** ** Constants *)

Definition SECTOR_SIZE : Z := 512.
Definition IDE_BSY : Z := 0x80.
Definition IDE_DRDY : Z := 0x40.
Definition IDE_DF : Z := 0x20.
Definition IDE_ERR : Z := 0x01.
Definition IDE_CMD_READ : Z := 0x20.
Definition IDE_CMD_WRITE : Z := 0x30.
Definition IDE_CMD_RDMUL : Z := 0xc4.
Definition IDE_CMD_WRMUL : Z := 0xc5.
Definition DISK1 : Z := 0x1.
Definition DISK2 : Z := 0x2.
Definition DISK3 : Z := 0x4.
Definition DISK4 : Z := 0x8.
Definition DISK5 : Z := 0x10.
Definition DISK6 : Z := 0x20.
Definition DISK7 : Z := 0x40.
Definition DISK8 : Z := 0x80.
Definition BASEPORT1 : Z := 0x1f0.
Definition BASEPORT2 : Z := 0x170.
Definition BASEPORT3 : Z := 0x1e8.
Definition BASEPORT4 : Z := 0x168.
Definition CONTROLBASE1 : Z := 0x3f6.
Definition CONTROLBASE2 : Z := 0x376.
Definition CONTROLBASE3 : Z := 0x3e6.
Definition CONTROLBASE4 : Z := 0x366.

(** ** The controllers *)

(** The sector a controller is asked for, from the bytes in its registers. *)
Definition lba (b3 b4 b5 b6 : Z) : Z :=
  b3 + Z.shiftl b4 8 + Z.shiftl b5 16 + Z.shiftl (Z.land b6 0x0f) 24.

(** Bit 4 of the drive register selects the slave. *)
Definition slave (b6 : Z) : bool := Z.testbit b6 4.

Class AtaOps (D : Type) := {
  ata_outb : D → Z → Z → D;
  ata_outsl : D → Z → mem → D;
  ata_inb : D → Z → Z * D;
  ata_insl : D → Z → mem * D;
  (* the drive works until it raises its interrupt *)
  ata_finish : D → D;
  (* the contents of a sector of the master or slave at a base port *)
  sector : D → Z → bool → Z → mem
}.

(** The registers of a command for one sector, in the order the driver writes
    them. *)
Definition ata_command `{AtaOps D} (d : D) (base b3 b4 b5 b6 cmd : Z) : D :=
  let d := ata_outb d (base + 2) 1 in
  let d := ata_outb d (base + 3) b3 in
  let d := ata_outb d (base + 4) b4 in
  let d := ata_outb d (base + 5) b5 in
  let d := ata_outb d (base + 6) b6 in
  ata_outb d (base + 7) cmd.

Definition is_base (base : Z) : Prop :=
  base = BASEPORT1 ∨ base = BASEPORT2 ∨ base = BASEPORT3 ∨ base = BASEPORT4.

(** PIO transfers of one sector: a drive interrupts when the sector is ready to
    be read, or when it has been written; the command ports aside, writing a
    port changes no sector; a status register is a byte. *)
Class Ata D `{AtaOps D} : Prop := {
  ata_status : ∀ d p, 0 ≤ (ata_inb d p).1 < 256;
  ata_ready : ∀ d base b3 b4 b5 b6, is_base base →
    Z.land (ata_inb (ata_finish (ata_command d base b3 b4 b5 b6 IDE_CMD_READ)) (base + 7)).1
      (Z.lor IDE_BSY IDE_DRDY) = IDE_DRDY;
  ata_read : ∀ d base b3 b4 b5 b6, is_base base →
    (ata_insl (ata_inb (ata_finish (ata_command d base b3 b4 b5 b6 IDE_CMD_READ)) (base + 7)).2 base).1
      = sector d base (slave b6) (lba b3 b4 b5 b6);
  ata_write : ∀ d base b3 b4 b5 b6 m ba sl l, is_base base →
    sector (ata_finish (ata_outsl (ata_command d base b3 b4 b5 b6 IDE_CMD_WRITE) base m)) ba sl l =
      if bool_decide (ba = base ∧ sl = slave b6 ∧ l = lba b3 b4 b5 b6) then m else sector d ba sl l;
  ata_read_keeps : ∀ d base b3 b4 b5 b6 ba sl l, is_base base →
    sector (ata_finish (ata_command d base b3 b4 b5 b6 IDE_CMD_READ)) ba sl l = sector d ba sl l;
  ata_inb_keeps : ∀ d p ba sl l, sector (ata_inb d p).2 ba sl l = sector d ba sl l;
  ata_insl_keeps : ∀ d p ba sl l, sector (ata_insl d p).2 ba sl l = sector d ba sl l;
  ata_outb_keeps : ∀ d p v ba sl l, (∀ base, is_base base → p ≠ base + 7) →
    sector (ata_outb d p v) ba sl l = sector d ba sl l
}.

(** ** State *)

Record ide (D : Type) := Ide {
  ctl : D;                    (* the controllers *)
  ibufs : nat → buf;
  qnext : nat → option nat;
  idequeue : Z → option nat;  (* idequeue ... idequeue8, by number *)
  idelock : Z → bool;         (* idelock ... idelock8 are held *)
  startup : Z;
  disk_presence : Z;
  iwoken : list nat           (* buffers passed to wakeup *)
}.

Arguments Ide {D}.
Arguments ctl {D} _.
Arguments ibufs {D} _ _.
Arguments qnext {D} _ _.
Arguments idequeue {D} _ _.
Arguments idelock {D} _ _.
Arguments startup {D} _.
Arguments disk_presence {D} _.
Arguments iwoken {D} _.

Section driver.
Context {D : Type} `{!AtaOps D}.

Definition set_ctl (d : D) (s : ide D) : ide D :=
  Ide d (ibufs s) (qnext s) (idequeue s) (idelock s) (startup s) (disk_presence s) (iwoken s).
Definition set_ibuf (i : nat) (b : buf) (s : ide D) : ide D :=
  Ide (ctl s) (<[i := b]> (ibufs s)) (qnext s) (idequeue s) (idelock s) (startup s) (disk_presence s) (iwoken s).
Definition set_qnext (i : nat) (n : option nat) (s : ide D) : ide D :=
  Ide (ctl s) (ibufs s) (<[i := n]> (qnext s)) (idequeue s) (idelock s) (startup s) (disk_presence s) (iwoken s).
Definition set_queue (q : Z) (h : option nat) (s : ide D) : ide D :=
  Ide (ctl s) (ibufs s) (qnext s) (<[q := h]> (idequeue s)) (idelock s) (startup s) (disk_presence s) (iwoken s).
Definition set_idelock (q : Z) (b : bool) (s : ide D) : ide D :=
  Ide (ctl s) (ibufs s) (qnext s) (idequeue s) (<[q := b]> (idelock s)) (startup s) (disk_presence s) (iwoken s).
Definition set_startup (v : Z) (s : ide D) : ide D :=
  Ide (ctl s) (ibufs s) (qnext s) (idequeue s) (idelock s) v (disk_presence s) (iwoken s).
Definition set_presence (v : Z) (s : ide D) : ide D :=
  Ide (ctl s) (ibufs s) (qnext s) (idequeue s) (idelock s) (startup s) v (iwoken s).
Definition wake_buf (i : nat) (s : ide D) : ide D :=
  Ide (ctl s) (ibufs s) (qnext s) (idequeue s) (idelock s) (startup s) (disk_presence s) (iwoken s ++ [i]).

Definition outb (p v : Z) : M (ide D) () := modS (λ s, set_ctl (ata_outb (ctl s) p (u8 v)) s).
Definition inb (p : Z) : M (ide D) Z :=
  s ← getS; _ ← putS (set_ctl (ata_inb (ctl s) p).2 s); mret (ata_inb (ctl s) p).1.
Definition insl (p : Z) (i : nat) : M (ide D) () :=
  s ← getS;
  putS (set_ctl (ata_insl (ctl s) p).2 (set_ibuf i (set_b_data (ata_insl (ctl s) p).1 (ibufs s i)) s)).
Definition outsl (p : Z) (m : mem) : M (ide D) () := modS (λ s, set_ctl (ata_outsl (ctl s) p m) s).

Definition acquire_ide (q : Z) : M (ide D) () :=
  s ← getS; if idelock s q then panic "acquire" else putS (set_idelock q true s).
Definition release_ide (q : Z) : M (ide D) () :=
  s ← getS; if idelock s q then putS (set_idelock q false s) else panic "release".

Definition disk_query : M (ide D) Z := gets (λ s, s8 (disk_presence s)).

(** ** Waiting for a disk *)

(** [if (!(startup & bit)) { outb(port, v); startup |= bit; }] *)
Definition once (bit port v : Z) : M (ide D) () :=
  s ← getS;
  mwhen (Z.land (startup s) bit =? 0)
    (_ ← outb port v; modS (λ s, set_startup (Z.lor (startup s) bit) s)).

Fixpoint idewait_loop (fuel : nat) (port : Z) (checkerr : bool) : M (ide D) Z :=
  r ← inb port;
  if Z.land r (Z.lor IDE_BSY IDE_DRDY) =? IDE_DRDY then mret 0
  else if c_true (Z.land r 0xff) then mret (-1)
  else if r =? 0 then mret (-1)
  else if checkerr && c_true (Z.land r (Z.lor IDE_DF IDE_ERR)) then mret (-1)
  else match fuel with O => no_fuel | S fuel => idewait_loop fuel port checkerr end.

Definition idewait (dev : Z) (checkerr : bool) : M (ide D) Z :=
  let port := if dev =? 2 then BASEPORT2 + 7 else BASEPORT1 + 7 in
  _ ← once DISK3 (BASEPORT2 + 6) 0xe0;
  _ ← once DISK4 (BASEPORT2 + 6) 0xf0;
  _ ← once DISK5 (BASEPORT3 + 6) 0xe0;
  _ ← once DISK6 (BASEPORT3 + 6) 0xf0;
  _ ← once DISK7 (BASEPORT4 + 6) 0xe0;
  _ ← once DISK8 (BASEPORT4 + 6) 0xf0;
  idewait_loop 0 port checkerr.

(** ** Initialisation *)

(** Up to [n] looks for a drive; the third read is the status [cprintf] shows. *)
Fixpoint probe_loop (n : nat) (port bit : Z) : M (ide D) () :=
  match n with
  | O => mret ()
  | S n =>
      r1 ← inb port;
      if r1 =? 0 then probe_loop n port bit
      else
        r2 ← inb port;
        if r2 =? 0xff then probe_loop n port bit
        else
          _ ← modS (λ s, set_presence (Z.lor (disk_presence s) bit) s);
          _ ← inb port;
          mret ()
  end.

Definition probe (base drive bit : Z) : M (ide D) () :=
  _ ← outb (base + 6) (Z.lor 0xe0 (Z.shiftl drive 4));
  probe_loop 1000 (base + 7) bit.

Definition need (bit : Z) (msg : string) : M (ide D) () :=
  s ← getS; if Z.land (disk_presence s) bit =? 0 then panic msg else mret ().

(** Without the two calls of [ioapicenable].  The drive-select byte written
    last goes to the command port. *)
Definition ideinit : M (ide D) () :=
  _ ← modS (set_idelock 1 false);
  _ ← modS (set_presence 0);
  _ ← idewait 1 false;
  _ ← idewait 2 false;
  _ ← probe BASEPORT1 0 DISK1;
  _ ← probe BASEPORT1 1 DISK2;
  _ ← probe BASEPORT2 0 DISK3;
  _ ← probe BASEPORT2 1 DISK4;
  _ ← probe BASEPORT3 0 DISK5;
  _ ← probe BASEPORT3 1 DISK6;
  _ ← probe BASEPORT4 0 DISK7;
  _ ← probe BASEPORT4 1 DISK8;
  _ ← outb (BASEPORT1 + 7) 0xe0;
  _ ← need DISK1 "Missing disk 1";
  _ ← need DISK2 "Missing disk 2";
  need DISK3 "Missing disk 3".

(** ** Starting a request *)

Definition sector_per_block : Z := BSIZE / SECTOR_SIZE.
Definition read_cmd : Z := if sector_per_block =? 1 then IDE_CMD_READ else IDE_CMD_RDMUL.
Definition write_cmd : Z := if sector_per_block =? 1 then IDE_CMD_WRITE else IDE_CMD_WRMUL.

(** One case of the switch: the disk waited for, the ports and the drive bit. *)
Definition start_on (wait control base drive : Z) (b : buf) : M (ide D) () :=
  let sector := s32 (u32 (b_blockno b * sector_per_block)) in
  _ ← idewait wait false;
  _ ← outb control 0;
  _ ← outb (base + 2) sector_per_block;
  _ ← outb (base + 3) (Z.land sector 0xff);
  _ ← outb (base + 4) (Z.land (Z.shiftr sector 8) 0xff);
  _ ← outb (base + 5) (Z.land (Z.shiftr sector 16) 0xff);
  _ ← outb (base + 6) (Z.lor (Z.lor 0xe0 (u32 (Z.shiftl drive 4))) (Z.land (Z.shiftr sector 24) 0x0f));
  if has (b_flags b) B_DIRTY then _ ← outb (base + 7) write_cmd; outsl base (b_data b)
  else outb (base + 7) read_cmd.

Definition idestart (dev : Z) (i : option nat) : M (ide D) () :=
  match i with
  | None => panic "idestart"
  | Some i =>
      s ← getS;
      let b := ibufs s i in
      if FSSIZE <=? b_blockno b then panic "incorrect blockno"
      else if 7 <? sector_per_block then panic "idestart"
      else if dev =? 1 then start_on 1 CONTROLBASE1 BASEPORT1 (Z.land (b_dev b) 1) b
      else if dev =? 2 then start_on 2 CONTROLBASE2 BASEPORT2 (b_dev b) b
      else if dev =? 3 then start_on 3 CONTROLBASE2 BASEPORT2 (b_dev b) b
      else if dev =? 4 then start_on 4 CONTROLBASE3 BASEPORT3 (b_dev b) b
      else if dev =? 5 then start_on 5 CONTROLBASE3 BASEPORT3 (b_dev b) b
      else if dev =? 6 then start_on 6 CONTROLBASE4 BASEPORT4 (b_dev b) b
      else if dev =? 7 then start_on 6 CONTROLBASE4 BASEPORT4 (b_dev b) b
      else mret ()
  end.

(** ** Interrupts *)

(** The read of a finished request, its flags and its wakeup. *)
Definition complete (wait base : Z) (i : nat) : M (ide D) () :=
  s ← getS;
  _ ← mwhen (negb (has (b_flags (ibufs s i)) B_DIRTY))
        (r ← idewait wait true; mwhen (0 <=? r) (insl base i));
  _ ← modS (λ s, set_ibuf i (set_b_flags (Z.lor (b_flags (ibufs s i)) B_VALID) (ibufs s i)) s);
  _ ← modS (λ s, set_ibuf i (set_b_flags (Z.land (b_flags (ibufs s i)) (Z.lnot B_DIRTY)) (ibufs s i)) s);
  modS (wake_buf i).

Definition ideintr : M (ide D) () :=
  _ ← acquire_ide 1;
  s ← getS;
  match idequeue s 1 with
  | None => release_ide 1
  | Some i =>
      _ ← modS (set_queue 1 (qnext s i));
      _ ← complete (s32 (b_dev (ibufs s i))) BASEPORT1 i;
      s ← getS;
      _ ← match idequeue s 1 with
          | Some j =>
              _ ← idestart (b_dev (ibufs s j)) (idequeue s 1);
              _ ← modS (λ s, set_queue 1 (qnext s j) s);
              release_ide 1
          | None => mret ()
          end;
      release_ide 1
  end.

Definition ideintr2 : M (ide D) () :=
  _ ← acquire_ide 2;
  s ← getS;
  match idequeue s 2 with
  | None => release_ide 1
  | Some i =>
      _ ← modS (set_queue 2 (qnext s i));
      _ ← complete 2 BASEPORT2 i;
      s ← getS;
      _ ← match idequeue s 2 with
          | Some j =>
              _ ← idestart (b_dev (ibufs s j)) (idequeue s 2);
              modS (λ s, set_queue 2 (qnext s j) s)
          | None => mret ()
          end;
      release_ide 2
  end.

(** ** Requests *)

(** [*pp = b] for the first null [*pp] from the link of [j] on. *)
Fixpoint append_from (fuel : nat) (j i : nat) : M (ide D) () :=
  s ← getS;
  match qnext s j with
  | None => putS (set_qnext j (Some i) s)
  | Some k => match fuel with O => no_fuel | S fuel => append_from fuel k i end
  end.

Definition append (q : Z) (i : nat) : M (ide D) () :=
  s ← getS;
  match idequeue s q with
  | None => putS (set_queue q (Some i) s)
  | Some j => append_from NBUF j i
  end.

Definition served (b : buf) : bool := Z.land (b_flags b) (Z.lor B_VALID B_DIRTY) =? B_VALID.

(** The test of the wait loop, with the lock held: [true] when [iderw] returns,
    [false] when it sleeps on the buffer.  Either way the lock is let go. *)
Definition iderw_wait (i : nat) (q : Z) : M (ide D) bool :=
  s ← getS;
  _ ← release_ide q;
  mret (served (ibufs s i)).

(** [iderw] of a process with id [pid], up to its return or first sleep. *)
Definition iderw (pid : Z) (i : nat) (dev : Z) : M (ide D) bool :=
  s ← getS;
  let b := ibufs s i in
  if negb (b_locked b && (b_pid b =? pid)) then panic "iderw: buf not locked"
  else if served b then panic "iderw: nothing to do"
  else if (1 <=? dev) && (dev <=? 8) then
    _ ← acquire_ide dev;
    _ ← modS (set_qnext i None);
    _ ← append dev i;
    s ← getS;
    _ ← mwhen (bool_decide (idequeue s dev = Some i)) (idestart (b_dev (ibufs s i)) (Some i));
    iderw_wait i dev
  else mret true.

(** From a wakeup, which takes the lock back, to the return or the next sleep. *)
Definition iderw_resume (i : nat) (dev : Z) : M (ide D) bool :=
  _ ← acquire_ide dev;
  iderw_wait i dev.

End driver.

(** ** A controller that keeps its registers *)

Record ata_regs := AtaRegs { regs : Z → Z; platters : Z → bool → Z → mem }.

Definition addressed (d : ata_regs) (base : Z) : Z :=
  lba (regs d (base + 3)) (regs d (base + 4)) (regs d (base + 5)) (regs d (base + 6)).

#[export] Instance ata_regs_ops : AtaOps ata_regs := {
  ata_outb d p v := AtaRegs (<[p := v]> (regs d)) (platters d);
  ata_outsl d base m :=
    AtaRegs (regs d) (λ ba sl l,
      if bool_decide (ba = base ∧ sl = slave (regs d (base + 6)) ∧ l = addressed d base)
      then m else platters d ba sl l);
  ata_inb d p := (IDE_DRDY, d);
  ata_insl d base := (platters d base (slave (regs d (base + 6))) (addressed d base), d);
  ata_finish d := d;
  sector := platters
}.

#[export] Instance ata_regs_ata : Ata ata_regs.
Proof.
  split; cbn -[lba slave bool_decide]; try done.
  - intros d base b3 b4 b5 b6 _. unfold addressed. cbn -[lba slave].
    by repeat (rewrite fn_lookup_insert || rewrite fn_lookup_insert_ne by lia).
  - intros d base b3 b4 b5 b6 m ba sl l _. unfold addressed. cbn -[lba slave bool_decide].
    by repeat (rewrite fn_lookup_insert || rewrite fn_lookup_insert_ne by lia).
Qed.

(** ** Ports *)

(** What the driver's port accesses change: the controllers and [startup]. *)
Definition moved {D} (d : D) (st : Z) (s : ide D) : ide D := set_startup st (set_ctl d s).

Definition same_sectors `{AtaOps D} (d d' : D) : Prop :=
  ∀ ba sl l, sector d ba sl l = sector d' ba sl l.

Definition started (st : Z) : Prop :=
  Forall (λ bit, Z.land st bit ≠ 0) [DISK3; DISK4; DISK5; DISK6; DISK7; DISK8].

Definition ready (r : Z) : bool := Z.land r (Z.lor IDE_BSY IDE_DRDY) =? IDE_DRDY.

Definition wait_port (dev : Z) : Z := if dev =? 2 then BASEPORT2 + 7 else BASEPORT1 + 7.

Section ports.
Context {D : Type} `{Ata D}.

#[local] Instance same_sectors_equiv : Equivalence (same_sectors (D:=D)).
Proof. split; [by intros ????|by intros ?? E ???|intros ??? E F ???; by rewrite E]. Qed.

Lemma moved_id (s : ide D) : moved (ctl s) (startup s) s = s.
Proof. by destruct s. Qed.

(** [p] is not one of the command ports. *)
Definition harmless (p : Z) : Prop := ∀ base, is_base base → p ≠ base + 7.

Lemma outb_keeps (d : D) p v : harmless p → same_sectors (ata_outb d p v) d.
Proof. intros Hp ba sl l. by apply ata_outb_keeps. Qed.

Lemma run_inb {B} p (k : Z → M (ide D) B) s :
  (inb p ≫= k) s = k (ata_inb (ctl s) p).1 (set_ctl (ata_inb (ctl s) p).2 s).
Proof. reflexivity. Qed.

Lemma once_run bit p v (s : ide D) : harmless p → bit ≠ 0 →
  ∃ d st, once bit p v s = Done ((), moved d st s) ∧ same_sectors d (ctl s) ∧
    Z.land st bit ≠ 0 ∧
    (∀ b, Z.land (startup s) b ≠ 0 → Z.land st b ≠ 0) ∧
    (Z.land (startup s) bit ≠ 0 → d = ctl s ∧ st = startup s).
Proof.
  intros Hp Hb. unfold once. rewrite run_getS.
  destruct (Z.eqb_spec (Z.land (startup s) bit) 0) as [E|E]; cbn [mwhen].
  - exists (ata_outb (ctl s) p (u8 v)), (Z.lor (startup s) bit). split_and!.
    + by destruct s.
    + by apply outb_keeps.
    + intros F. rewrite Z.land_lor_distr_l, Z.land_diag in F.
      by apply Z.lor_eq_0_iff in F as [_ F].
    + intros b Hn F. rewrite Z.land_lor_distr_l in F. by apply Z.lor_eq_0_iff in F as [F _].
    + done.
  - exists (ctl s), (startup s). rewrite moved_id. by split_and!.
Qed.

Lemma idewait_loop_run p ce (s : ide D) :
  idewait_loop 0 p ce s =
    Done (if ready (ata_inb (ctl s) p).1 then 0 else -1, set_ctl (ata_inb (ctl s) p).2 s).
Proof.
  pose proof (ata_status (ctl s) p) as Hr. cbn [idewait_loop]. rewrite run_inb. unfold ready.
  destruct (_ =? IDE_DRDY) eqn:E; [done|].
  replace (Z.land (ata_inb (ctl s) p).1 0xff) with (ata_inb (ctl s) p).1.
  2: { change 0xff with (Z.ones 8). rewrite Z.land_ones by lia. by rewrite Z.mod_small by lia. }
  unfold c_true. by destruct (_ =? 0).
Qed.

Lemma harmless_select base : is_base base → harmless (base + 6).
Proof.
  unfold harmless, is_base, BASEPORT1, BASEPORT2, BASEPORT3, BASEPORT4. intros Hb b Hb'. lia.
Qed.

(** One of the six first-time writes of [idewait], then the rest. *)
Lemma once_step {B} bit base v (k : () → M (ide D) B) (s : ide D) d st :
  is_base base → bit ≠ 0 →
  ∃ d' st', (once bit (base + 6) v ≫= k) (moved d st s) = k () (moved d' st' s) ∧
    same_sectors d' d ∧ Z.land st' bit ≠ 0 ∧
    (∀ b, Z.land st b ≠ 0 → Z.land st' b ≠ 0) ∧
    (Z.land st bit ≠ 0 → d' = d ∧ st' = st).
Proof.
  intros Hb Hbit.
  destruct (once_run bit (base + 6) v (moved d st s)) as (d' & st' & E & Hrest);
    [by apply harmless_select|done|].
  exists d', st'. split; [|exact Hrest]. by rewrite (bind_done _ _ _ _ _ E).
Qed.

Ltac once_case d' st' S' B' K' I' :=
  let E := fresh "E" in
  match goal with
  | |- context [(once ?bit (?base + 6) ?v ≫= ?k) (moved ?d ?st ?s)] =>
      destruct (once_step bit base v k s d st) as (d' & st' & E & S' & B' & K' & I');
      [unfold is_base; by auto|done|rewrite E; clear E]
  end.

Lemma idewait_moved dev ce d0 st0 (s : ide D) :
  ∃ d st, idewait dev ce (moved d0 st0 s) =
      Done (if ready (ata_inb d (wait_port dev)).1 then 0 else -1,
            moved (ata_inb d (wait_port dev)).2 st s) ∧
    same_sectors d d0 ∧ started st ∧ (started st0 → d = d0 ∧ st = st0).
Proof.
  unfold idewait. fold (wait_port dev).
  once_case d3 t3 S3 B3 K3 I3.
  once_case d4 t4 S4 B4 K4 I4.
  once_case d5 t5 S5 B5 K5 I5.
  once_case d6 t6 S6 B6 K6 I6.
  once_case d7 t7 S7 B7 K7 I7.
  once_case d8 t8 S8 B8 K8 I8.
  exists d8, t8. rewrite idewait_loop_run. split_and!; [done| | |].
  - by rewrite S8, S7, S6, S5, S4, S3.
  - unfold started. repeat constructor; eauto 10.
  - unfold started. intros F. rewrite !Forall_cons in F. naive_solver.
Qed.

(** [idewait] answers from one status byte, whatever [checkerr] is. *)
Lemma idewait_run dev ce (s : ide D) :
  ∃ d st, idewait dev ce s =
      Done (if ready (ata_inb d (wait_port dev)).1 then 0 else -1,
            moved (ata_inb d (wait_port dev)).2 st s) ∧
    same_sectors d (ctl s) ∧ started st ∧
    (started (startup s) → d = ctl s ∧ st = startup s).
Proof. pose proof (idewait_moved dev ce (ctl s) (startup s) s) as Hm. by rewrite moved_id in Hm. Qed.

End ports.

(** ** Starting a request *)

(** The base port of a device: two drives to a controller, device 0 being the
    master of the first. *)
Definition base_of (dev : Z) : Z :=
  if dev / 2 =? 0 then BASEPORT1
  else if dev / 2 =? 1 then BASEPORT2
  else if dev / 2 =? 2 then BASEPORT3 else BASEPORT4.

(** The controllers once the request for block [blockno] of device [dev] has
    been sent: the registers hold its sector and drive, and with [m] the data
    to write has followed. *)
Inductive requested `{AtaOps D} (d0 : D) (dev blockno : Z) : option mem → D → Prop :=
  | requested_read b3 b4 b5 b6 :
      lba b3 b4 b5 b6 = blockno → slave b6 = Z.odd dev →
      requested d0 dev blockno None (ata_command d0 (base_of dev) b3 b4 b5 b6 IDE_CMD_READ)
  | requested_write b3 b4 b5 b6 m :
      lba b3 b4 b5 b6 = blockno → slave b6 = Z.odd dev →
      requested d0 dev blockno (Some m)
        (ata_outsl (ata_command d0 (base_of dev) b3 b4 b5 b6 IDE_CMD_WRITE) (base_of dev) m).

Definition to_write (b : buf) : option mem :=
  if has (b_flags b) B_DIRTY then Some (b_data b) else None.

Lemma is_base_of dev : is_base (base_of dev).
Proof. unfold is_base, base_of. repeat case_match; auto. Qed.

Section starting.
Context {D : Type} `{Ata D}.

Lemma sector_bytes n : 0 ≤ n < FSSIZE →
  u8 (Z.land n 0xff) = n mod 256 ∧ u8 (Z.land (Z.shiftr n 8) 0xff) = n / 256 ∧
  u8 (Z.land (Z.shiftr n 16) 0xff) = 0 ∧ Z.land (Z.shiftr n 24) 0x0f = 0.
Proof.
  unfold FSSIZE, u8. intros Hn. rewrite !Z.shiftr_div_pow2 by lia.
  change 0xff with (Z.ones 8). change 0x0f with (Z.ones 4). rewrite !Z.land_ones by lia.
  change (2 ^ 8) with 256. change (2 ^ 16) with 65536. change (2 ^ 24) with 16777216.
  change (2 ^ 4) with 16. split_and!; Z.to_euclidean_division_equations; lia.
Qed.

Lemma start_on_run wait control dev drive b (s : ide D) :
  0 ≤ b_blockno b < FSSIZE → harmless control →
  slave (u8 (Z.lor (Z.lor 0xe0 (u32 (Z.shiftl drive 4))) 0)) = Z.odd dev →
  Z.land (u8 (Z.lor (Z.lor 0xe0 (u32 (Z.shiftl drive 4))) 0)) 0x0f = 0 →
  ∃ d0 d st, start_on wait control (base_of dev) drive b s = Done ((), moved d st s) ∧
    same_sectors d0 (ctl s) ∧ started st ∧ requested d0 dev (b_blockno b) (to_write b) d.
Proof.
  intros Hn Hc Hs Hz. unfold start_on.
  change sector_per_block with 1. rewrite Z.mul_1_r.
  rewrite (u32_small (b_blockno b)), (s32_small (b_blockno b)) by (unfold FSSIZE in Hn; lia).
  destruct (idewait_run wait false s) as (d & st & E & HS & Hst & _).
  rewrite (bind_done _ _ _ _ _ E). clear E.
  destruct (sector_bytes _ Hn) as (E3 & E4 & E5 & E6). rewrite E6.
  set (d0 := ata_outb (ata_inb d (wait_port wait)).2 control 0).
  assert (Hd0 : same_sectors d0 (ctl s)).
  { intros ba sl l. unfold d0. rewrite ata_outb_keeps, ata_inb_keeps by done. apply HS. }
  assert (Hl : lba (b_blockno b mod 256) (b_blockno b / 256) 0
      (u8 (Z.lor (Z.lor 0xe0 (u32 (Z.shiftl drive 4))) 0)) = b_blockno b).
  { unfold lba. rewrite Hz, !Z.shiftl_mul_pow2 by lia. change (2 ^ 8) with 256.
    Z.to_euclidean_division_equations; lia. }
  unfold to_write. destruct (has (b_flags b) B_DIRTY); eexists d0, _, st;
    (split; [unfold outb, outsl; rewrite !run_modS, E3, E4, E5; reflexivity|]);
    (split_and!; [done|done|by econstructor]).
Qed.

Lemma idestart_run dev i (s : ide D) :
  1 ≤ dev ≤ 7 → b_dev (ibufs s i) = dev → 0 ≤ b_blockno (ibufs s i) < FSSIZE →
  ∃ d0 d st, idestart dev (Some i) s = Done ((), moved d st s) ∧
    same_sectors d0 (ctl s) ∧ started st ∧
    requested d0 dev (b_blockno (ibufs s i)) (to_write (ibufs s i)) d.
Proof.
  intros Hd Hb Hn. unfold idestart. rewrite run_getS.
  replace (FSSIZE <=? _) with false by (symmetry; apply Z.leb_gt; lia).
  change (7 <? sector_per_block) with false. cbv iota. rewrite Hb. clear Hb.
  assert (Hc : ∀ c, 0x200 <= c → harmless c).
  { unfold harmless, is_base, BASEPORT1, BASEPORT2, BASEPORT3, BASEPORT4. lia. }
  assert (dev = 1 ∨ dev = 2 ∨ dev = 3 ∨ dev = 4 ∨ dev = 5 ∨ dev = 6 ∨ dev = 7) as Hcase by lia.
  repeat destruct Hcase as [->|Hcase]; subst; cbn [Z.eqb Pos.eqb];
    match goal with
    | |- ∃ _ _ _, start_on ?w ?c _ ?dr ?b _ = _ ∧ _ ∧ _ ∧ requested _ ?dev _ _ _ =>
        apply (start_on_run w c dev dr b s); [exact Hn|by apply Hc|reflexivity|reflexivity]
    end.
Qed.

End starting.

(** ** Finishing a request *)

(** What the handler leaves in the controllers and in the data of a request. *)
Definition transfer `{AtaOps D} (wait base : Z) (d : D) (b : buf) : D * mem :=
  if has (b_flags b) B_DIRTY then (d, b_data b)
  else
    let d1 := (ata_inb d (wait_port wait)).2 in
    if ready (ata_inb d (wait_port wait)).1 then ((ata_insl d1 base).2, (ata_insl d1 base).1)
    else (d1, b_data b).

Definition finished (m : mem) (b : buf) : buf :=
  set_b_flags (Z.land (Z.lor (b_flags b) B_VALID) (Z.lnot B_DIRTY)) (set_b_data m b).

(** Request [i] is finished and its process woken; nothing else changes but
    the controllers. *)
Record done_with {D} (i : nat) (d : D) (m : mem) (s s' : ide D) : Prop := {
  dw_ctl : ctl s' = d;
  dw_buf : ibufs s' i = finished m (ibufs s i);
  dw_bufs : ∀ j, j ≠ i → ibufs s' j = ibufs s j;
  dw_qnext : qnext s' = qnext s;
  dw_queue : idequeue s' = idequeue s;
  dw_lock : idelock s' = idelock s;
  dw_startup : startup s' = startup s;
  dw_woken : iwoken s' = iwoken s ++ [i]
}.

Lemma served_finished m b : served (finished m b) = true.
Proof.
  unfold served, finished. cbn [b_flags set_b_flags]. apply Z.eqb_eq, Z.bits_inj'. intros n Hn.
  rewrite !Z.land_spec, !Z.lor_spec, Z.lnot_spec by lia.
  change B_VALID with (2 ^ 1). change B_DIRTY with (2 ^ 2). rewrite !Z.pow2_bits_eqb by lia.
  by destruct (Z.eqb_spec 1 n), (Z.eqb_spec 2 n), (Z.testbit (b_flags b) n); subst.
Qed.

Section finishing.
Context {D : Type} `{Ata D}.

(** The tail of [complete], from where the data is in place. *)
Lemma complete_tail i m (s t : ide D) :
  ibufs t i = set_b_data m (ibufs s i) → (∀ j, j ≠ i → ibufs t j = ibufs s j) →
  qnext t = qnext s → idequeue t = idequeue s → idelock t = idelock s →
  startup t = startup s → iwoken t = iwoken s →
  ∃ s', (_ ← modS (λ s, set_ibuf i (set_b_flags (Z.lor (b_flags (ibufs s i)) B_VALID) (ibufs s i)) s);
         _ ← modS (λ s, set_ibuf i (set_b_flags (Z.land (b_flags (ibufs s i)) (Z.lnot B_DIRTY)) (ibufs s i)) s);
         modS (wake_buf i)) t = Done ((), s') ∧
    done_with i (ctl t) m s s'.
Proof.
  intros Hb Ho Hq Hh Hl Hs Hw. rewrite !run_modS. eexists. split; [reflexivity|].
  split; cbn; rewrite ?Hw; try done.
  - by rewrite !fn_lookup_insert, Hb.
  - intros j Hj. rewrite !fn_lookup_insert_ne by done. by apply Ho.
Qed.

Lemma complete_run wait base i (s : ide D) : started (startup s) →
  ∃ s', complete wait base i s = Done ((), s') ∧
    done_with i (transfer wait base (ctl s) (ibufs s i)).1
      (transfer wait base (ctl s) (ibufs s i)).2 s s'.
Proof.
  intros Hst. unfold complete, transfer. rewrite run_getS.
  destruct (has (b_flags (ibufs s i)) B_DIRTY); cbn [negb mwhen].
  - rewrite run_ret. apply complete_tail; try done. by destruct (ibufs s i).
  - destruct (idewait_run wait true s) as (d & st & E & _ & _ & Hd).
    destruct (Hd Hst) as [-> ->].
    destruct (ready _).
    + erewrite bind_done; [|rewrite (bind_done _ _ _ _ _ E); reflexivity].
      apply (complete_tail i (ata_insl (ata_inb (ctl s) (wait_port wait)).2 base).1 s); cbn; try done.
      * by rewrite fn_lookup_insert.
      * intros j Hj. by rewrite fn_lookup_insert_ne.
    + erewrite bind_done; [|rewrite (bind_done _ _ _ _ _ E); reflexivity].
      apply (complete_tail i (b_data (ibufs s i)) s); try done. cbn. by destruct (ibufs s i).
Qed.

End finishing.

(** ** The queues *)

(** From [h] the links [next] run through [l]. *)
Fixpoint linked (next : nat → option nat) (h : option nat) (l : list nat) : Prop :=
  match l with
  | [] => h = None
  | i :: l => h = Some i ∧ linked next (next i) l
  end.

Definition queued {D} (s : ide D) (q : Z) (l : list nat) : Prop :=
  linked (qnext s) (idequeue s q) l.

(** The requests that can be queued: distinct buffers of the cache. *)
Definition requests (l : list nat) : Prop := NoDup l ∧ Forall (λ i, (i < NBUF)%nat) l.

Lemma requests_length l : requests l → (length l ≤ NBUF)%nat.
Proof.
  intros [Hnd Hlt]. transitivity (length (seq 0 NBUF)); [|by rewrite length_seq].
  apply submseteq_length, NoDup_submseteq; [done|].
  intros i Hi. apply elem_of_seq. rewrite Forall_forall in Hlt. specialize (Hlt i Hi). lia.
Qed.

Lemma linked_ext next next' h l :
  (∀ i, i ∈ l → next' i = next i) → linked next h l → linked next' h l.
Proof.
  revert h. induction l as [|i l IH]; intros h He; cbn; [done|].
  intros [-> Hl]. split; [done|]. rewrite He by set_solver. apply IH; [set_solver|done].
Qed.

Section queues.
Context {D : Type} `{!AtaOps D}.

Lemma append_from_run l : ∀ fuel j i (s : ide D),
  linked (qnext s) (qnext s j) l → NoDup (j :: l) → i ∉ j :: l → qnext s i = None →
  (length l ≤ fuel)%nat →
  ∃ k, k ∈ j :: l ∧ append_from fuel j i s = Done ((), set_qnext k (Some i) s) ∧
    linked (<[k := Some i]> (qnext s)) (Some j) (j :: l ++ [i]).
Proof.
  induction l as [|k l IH]; intros fuel j i s Hl Hnd Hi Hn Hf.
  - exists j. split; [by left|]. cbn in Hl.
    destruct fuel; cbn [append_from]; rewrite run_getS, Hl;
      (split; [done|]); cbn; rewrite fn_lookup_insert, fn_lookup_insert_ne by set_solver;
      by rewrite Hn.
  - destruct Hl as [Hk Hl]. destruct fuel as [|fuel]; cbn in Hf; [lia|].
    apply NoDup_cons in Hnd as [Hj Hnd]. apply not_elem_of_cons in Hi as [Hij Hi].
    destruct (IH fuel k i s Hl Hnd Hi Hn ltac:(lia)) as (x & Hx & E & HL).
    exists x. split; [by right|]. cbn [append_from]. rewrite run_getS, Hk. split; [done|].
    split; [done|]. rewrite fn_lookup_insert_ne, Hk by (intros ->; done). done.
Qed.

(** What the append of [iderw] leaves unchanged. *)
Record only_queues (q : Z) (s s' : ide D) : Prop := {
  oq_ctl : ctl s' = ctl s;
  oq_bufs : ibufs s' = ibufs s;
  oq_queue : ∀ q', q' ≠ q → idequeue s' q' = idequeue s q';
  oq_lock : idelock s' = idelock s;
  oq_startup : startup s' = startup s;
  oq_woken : iwoken s' = iwoken s
}.

Lemma append_run q l i (s : ide D) :
  queued s q l → requests l → i ∉ l → qnext s i = None →
  ∃ s', append q i s = Done ((), s') ∧ queued s' q (l ++ [i]) ∧ only_queues q s s'.
Proof.
  intros Hq Hl Hi Hn. unfold append, queued in *. rewrite run_getS.
  pose proof (requests_length l Hl) as Hlen. destruct Hl as [Hnd _].
  destruct l as [|j l]; cbn in Hq.
  - rewrite Hq. eexists. split; [reflexivity|]. split; cbn.
    + by rewrite fn_lookup_insert, Hn.
    + split; cbn; try done. intros q' Hq'. by rewrite fn_lookup_insert_ne.
  - destruct Hq as [Hh Hq]. rewrite Hh. cbn in Hlen.
    destruct (append_from_run l NBUF j i s Hq Hnd Hi Hn ltac:(lia)) as (k & _ & E & HL).
    eexists. split; [exact E|]. split; [|by split]. cbn [qnext idequeue set_qnext]. by rewrite Hh.
Qed.

End queues.

(** ** Requests and interrupts *)

Section service.
Context {D : Type} `{Ata D}.

Lemma acquire_ide_run q (s : ide D) :
  idelock s q = false → acquire_ide q s = Done ((), set_idelock q true s).
Proof. intros E. unfold acquire_ide. by rewrite run_getS, E. Qed.

Lemma release_ide_run q (s : ide D) :
  idelock s q = true → release_ide q s = Done ((), set_idelock q false s).
Proof. intros E. unfold release_ide. by rewrite run_getS, E. Qed.

Lemma release_unheld q (s : ide D) : idelock s q = false → release_ide q s = Panicked "release".
Proof. intros E. unfold release_ide. by rewrite run_getS, E. Qed.

Lemma iderw_wait_run i q (s : ide D) : idelock s q = true →
  iderw_wait i q s = Done (served (ibufs s i), set_idelock q false s).
Proof. intros E. unfold iderw_wait. by rewrite run_getS, (bind_done _ _ _ _ _ (release_ide_run q s E)). Qed.

(** The state when a request sleeps: queued last, and sent to the drive if it
    is the only one. *)
Record submitted (i : nat) (dev : Z) (l : list nat) (s s' : ide D) : Prop := {
  sub_queue : queued s' dev (l ++ [i]);
  sub_bufs : ibufs s' = ibufs s;
  sub_lock : ∀ q, idelock s' q = idelock s q;
  sub_others : ∀ q, q ≠ dev → idequeue s' q = idequeue s q;
  sub_sent :
    match l with
    | [] => started (startup s') ∧ ∃ d0, same_sectors d0 (ctl s) ∧
        requested d0 dev (b_blockno (ibufs s i)) (to_write (ibufs s i)) (ctl s')
    | _ :: _ => ctl s' = ctl s ∧ startup s' = startup s
    end
}.

Lemma iderw_run pid i dev l (s : ide D) :
  1 ≤ dev ≤ 7 → idelock s dev = false →
  b_locked (ibufs s i) = true → b_pid (ibufs s i) = pid → served (ibufs s i) = false →
  b_dev (ibufs s i) = dev → 0 ≤ b_blockno (ibufs s i) < FSSIZE →
  queued s dev l → requests (i :: l) →
  ∃ s', iderw pid i dev s = Done (false, s') ∧ submitted i dev l s s'.
Proof.
  intros Hdev Hlk Hh Hp Hs Hd Hn Hq [Hnd Hr]. apply NoDup_cons in Hnd as [Hi Hnd].
  unfold iderw. rewrite run_getS, Hh, Hp, Z.eqb_refl, Hs. cbn [andb negb].
  replace ((1 <=? dev) && (dev <=? 8)) with true by lia.
  rewrite (bind_done _ _ _ _ _ (acquire_ide_run dev s Hlk)), run_modS.
  set (t := set_qnext i None (set_idelock dev true s)).
  assert (Hqt : queued t dev l).
  { apply (linked_ext (qnext s)); [|done]. intros j Hj. cbn.
    rewrite fn_lookup_insert_ne; [done|]. by intros ->. }
  destruct (append_run dev l i t) as (u & E & HQ & [Hc Hb Hoq Hl Hst _]);
    [done|by inversion Hr|done|by cbn; rewrite fn_lookup_insert|].
  rewrite (bind_done _ _ _ _ _ E), run_getS. clear E.
  assert (Hul : idelock u dev = true) by (by rewrite Hl; cbn; rewrite fn_lookup_insert).
  assert (Hbs : ibufs u = ibufs s) by done.
  assert (Hlock : ∀ q, (<[dev := false]> (idelock u)) q = idelock s q).
  { intros q. rewrite Hl. cbn. destruct (decide (q = dev)) as [->|];
      [by rewrite fn_lookup_insert|by rewrite !fn_lookup_insert_ne]. }
  destruct l as [|j l].
  - destruct HQ as [Hhead Htail]. rewrite bool_decide_true by done. cbn [mwhen].
    destruct (idestart_run dev i u) as (d0 & d & st & E & HS & Hsd & Hreq); rewrite ?Hbs; try done.
    rewrite Hd, (bind_done _ _ _ _ _ E), iderw_wait_run by done. cbn. rewrite Hbs, Hs.
    eexists. split; [reflexivity|]. rewrite Hbs in Hreq.
    split; cbn; try done. split; [done|]. exists d0. by rewrite Hc in HS.
  - destruct HQ as [Hhead Htail]. rewrite bool_decide_false by (rewrite Hhead; set_solver).
    cbn [mwhen]. rewrite run_ret, iderw_wait_run by done. rewrite Hbs, Hs.
    eexists. split; [reflexivity|]. split; cbn; try done. 
Qed.

(** The state after an interrupt for the only request [i] of queue [q]. *)
Record serviced (i : nat) (q wait base : Z) (s s' : ide D) : Prop := {
  sv_ctl : ctl s' = (transfer wait base (ctl s) (ibufs s i)).1;
  sv_buf : ibufs s' i = finished (transfer wait base (ctl s) (ibufs s i)).2 (ibufs s i);
  sv_bufs : ∀ j, j ≠ i → ibufs s' j = ibufs s j;
  sv_queue : idequeue s' q = None;
  sv_others : ∀ q', q' ≠ q → idequeue s' q' = idequeue s q';
  sv_lock : ∀ q', idelock s' q' = idelock s q';
  sv_woken : iwoken s' = iwoken s ++ [i]
}.

(** The two handlers up to their second look at the queue. *)
Lemma handler_head q wait base i l (s : ide D) :
  queued s q (i :: l) → started (startup s) →
  let t := set_queue q (qnext s i) (set_idelock q true s) in
  ∃ u, complete wait base i t = Done ((), u) ∧
    done_with i (transfer wait base (ctl s) (ibufs s i)).1
      (transfer wait base (ctl s) (ibufs s i)).2 t u ∧
    queued u q l ∧ idelock u q = true.
Proof.
  intros [Hh Hq] Hst t. destruct (complete_run wait base i t) as (u & E & Hd); [done|].
  exists u. split; [done|]. split; [done|]. destruct Hd. unfold queued.
  rewrite dw_qnext0, dw_queue0, dw_lock0. cbn. by rewrite !fn_lookup_insert.
Qed.

Lemma serviced_intro i q wait base (s u : ide D) :
  idelock s q = false → idequeue u q = None →
  done_with i (transfer wait base (ctl s) (ibufs s i)).1
      (transfer wait base (ctl s) (ibufs s i)).2
      (set_queue q (qnext s i) (set_idelock q true s)) u →
  serviced i q wait base s (set_idelock q false u).
Proof.
  intros Hlk Hn []. split; cbn; try done.
  - intros q' Hq'. rewrite dw_queue0. cbn. by rewrite fn_lookup_insert_ne.
  - intros q'. rewrite dw_lock0. cbn. destruct (decide (q' = q)) as [->|];
      [by rewrite fn_lookup_insert|by rewrite !fn_lookup_insert_ne].
Qed.

Lemma ideintr_one i (s : ide D) :
  idelock s 1 = false → queued s 1 [i] → started (startup s) →
  ∃ s', ideintr s = Done ((), s') ∧ serviced i 1 (s32 (b_dev (ibufs s i))) BASEPORT1 s s'.
Proof.
  intros Hlk Hq Hst.
  destruct (handler_head 1 (s32 (b_dev (ibufs s i))) BASEPORT1 i [] s Hq Hst) as (u & E & Hd & Hqu & Hu).
  unfold ideintr. rewrite (bind_done _ _ _ _ _ (acquire_ide_run 1 s Hlk)), run_getS.
  destruct Hq as [Hh _]. cbn [idequeue set_idelock]. rewrite Hh, run_modS, (bind_done _ _ _ _ _ E), run_getS.
  cbn in Hqu. rewrite Hqu, run_ret, release_ide_run by done.
  eexists. split; [reflexivity|]. by apply serviced_intro.
Qed.

Lemma ideintr2_one i (s : ide D) :
  idelock s 2 = false → queued s 2 [i] → started (startup s) →
  ∃ s', ideintr2 s = Done ((), s') ∧ serviced i 2 2 BASEPORT2 s s'.
Proof.
  intros Hlk Hq Hst.
  destruct (handler_head 2 2 BASEPORT2 i [] s Hq Hst) as (u & E & Hd & Hqu & Hu).
  unfold ideintr2. rewrite (bind_done _ _ _ _ _ (acquire_ide_run 2 s Hlk)), run_getS.
  destruct Hq as [Hh _]. cbn [idequeue set_idelock]. rewrite Hh, run_modS, (bind_done _ _ _ _ _ E), run_getS.
  cbn in Hqu. rewrite Hqu, run_ret, release_ide_run by done.
  eexists. split; [reflexivity|]. by apply serviced_intro.
Qed.

End service.

(** ** The driver implements [Bio.disk_rw] *)

Section refinement.
Context {D : Type} `{Ata D}.

(** [IRQ_IDE2] is the interrupt of the second controller. *)
Definition interrupt (dev : Z) : M (ide D) () := if dev =? 2 then ideintr2 else ideintr.

(** A whole request of the process [pid] on devices 1 and 2: up to the sleep,
    the work of the drive, the interrupt, and from the wakeup on. *)
Definition request (pid : Z) (i : nat) (dev : Z) : M (ide D) bool :=
  r ← iderw pid i dev;
  if (r : bool) then mret true
  else
    _ ← modS (λ s, set_ctl (ata_finish (ctl s)) s);
    _ ← interrupt dev;
    iderw_resume i dev.

(** The buffers agree, and so do the blocks of devices 1 and 2 with the sectors
    of their drives. *)
Record mirrors (f : fsys) (s : ide D) : Prop := {
  mi_bufs : ∀ j, ibufs s j = bufs f j;
  mi_disk : ∀ dev n, 1 ≤ dev ≤ 2 → sector (ctl s) (base_of dev) (Z.odd dev) n = disk f dev n
}.

Definition idle (dev : Z) (s : ide D) : Prop := idequeue s dev = None ∧ idelock s dev = false.

Lemma transfer_requested dev n w (b : buf) (d0 d : D) :
  requested d0 dev n (to_write b) d → wait_port w = base_of dev + 7 →
  let t := transfer w (base_of dev) (ata_finish d) b in
  t.2 = (if has (b_flags b) B_DIRTY then b_data b else sector d0 (base_of dev) (Z.odd dev) n) ∧
  ∀ ba sl l, sector t.1 ba sl l =
    if has (b_flags b) B_DIRTY && bool_decide (ba = base_of dev ∧ sl = Z.odd dev ∧ l = n)
    then b_data b else sector d0 ba sl l.
Proof.
  unfold transfer, to_write. intros Hr Hw. destruct (has (b_flags b) B_DIRTY).
  - inversion Hr as [|b3 b4 b5 b6 m Hl Hs E1 E2]; subst. split; [done|]. intros ba sl l. cbn [fst andb].
    rewrite ata_write by apply is_base_of. by rewrite Hs.
  - inversion Hr as [b3 b4 b5 b6 Hl Hs E1 E2|]; subst. rewrite Hw. unfold ready.
    rewrite ata_ready by apply is_base_of. cbn -[ata_inb ata_insl ata_command]. split.
    + rewrite ata_read by apply is_base_of. by rewrite Hs.
    + intros ba sl l. rewrite ata_insl_keeps, ata_inb_keeps. apply ata_read_keeps, is_base_of.
Qed.

Lemma device_apart dev dev' : 1 ≤ dev ≤ 2 → 1 ≤ dev' ≤ 2 → base_of dev = base_of dev' → dev = dev'.
Proof.
  intros Hd Hd'. assert (dev = 1 ∨ dev = 2) as [->| ->] by lia;
    assert (dev' = 1 ∨ dev' = 2) as [->| ->] by lia; done.
Qed.

Lemma interrupt_one dev i (s : ide D) :
  1 ≤ dev ≤ 2 → b_dev (ibufs s i) = dev → idelock s dev = false → queued s dev [i] →
  started (startup s) →
  ∃ w s', wait_port w = base_of dev + 7 ∧ interrupt dev s = Done ((), s') ∧
    serviced i dev w (base_of dev) s s'.
Proof.
  intros Hd Hb Hl Hq Hst. assert (dev = 1 ∨ dev = 2) as [->| ->] by lia.
  - destruct (ideintr_one i s) as (s' & E & Hs); [done..|]. rewrite Hb in Hs. by exists 1, s'.
  - destruct (ideintr2_one i s) as (s' & E & Hs); [done..|]. by exists 2, s'.
Qed.

(** The panics of a request. *)
Lemma request_unheld pid i dev (s : ide D) :
  b_locked (ibufs s i) && (b_pid (ibufs s i) =? pid) = false →
  request pid i dev s = Panicked "iderw: buf not locked".
Proof. intros E. apply bind_panicked. unfold iderw. by rewrite run_getS, E. Qed.

Lemma request_served pid i dev (s : ide D) :
  b_locked (ibufs s i) && (b_pid (ibufs s i) =? pid) = true → served (ibufs s i) = true →
  request pid i dev s = Panicked "iderw: nothing to do".
Proof. intros E Hs. apply bind_panicked. unfold iderw. by rewrite run_getS, E, Hs. Qed.

Lemma request_far pid i dev (s : ide D) :
  1 ≤ dev ≤ 2 → idle dev s →
  b_locked (ibufs s i) && (b_pid (ibufs s i) =? pid) = true → served (ibufs s i) = false →
  FSSIZE ≤ b_blockno (ibufs s i) →
  request pid i dev s = Panicked "incorrect blockno".
Proof.
  intros Hd [Hq Hl] E Hs Hn. apply bind_panicked. unfold iderw.
  rewrite run_getS, E, Hs. cbn [negb]. replace ((1 <=? dev) && (dev <=? 8)) with true by lia.
  rewrite (bind_done _ _ _ _ _ (acquire_ide_run dev s Hl)), run_modS.
  unfold append. rewrite run_bind, run_getS. cbn [idequeue set_qnext set_idelock]. rewrite Hq.
  cbn [putS]. rewrite run_getS. cbn [idequeue set_queue]. rewrite fn_lookup_insert.
  rewrite bool_decide_true by done. apply bind_panicked. unfold mwhen, idestart.
  rewrite run_getS. cbn [ibufs set_queue set_qnext set_idelock].
  by replace (FSSIZE <=? _) with true by (symmetry; by apply Z.leb_le).
Qed.

(** What a request does to a buffer and to the sectors. *)
Lemma request_run pid i dev (s : ide D) :
  1 ≤ dev ≤ 2 → idle dev s → (i < NBUF)%nat →
  b_locked (ibufs s i) = true → b_pid (ibufs s i) = pid → served (ibufs s i) = false →
  b_dev (ibufs s i) = dev → 0 ≤ b_blockno (ibufs s i) < FSSIZE →
  let b := ibufs s i in let dirty := has (b_flags b) B_DIRTY in
  let there := sector (ctl s) (base_of dev) (Z.odd dev) (b_blockno b) in
  ∃ s', request pid i dev s = Done (true, s') ∧ idle dev s' ∧
    ibufs s' i = finished (if dirty then b_data b else there) b ∧
    (∀ j, j ≠ i → ibufs s' j = ibufs s j) ∧
    ∀ ba sl l, sector (ctl s') ba sl l =
      if dirty && bool_decide (ba = base_of dev ∧ sl = Z.odd dev ∧ l = b_blockno b)
      then b_data b else sector (ctl s) ba sl l.
Proof.
  intros Hdev [Hq Hlk] Hi Hh Hp Hs Hd Hn b dirty there.
  destruct (iderw_run pid i dev [] s) as (t & E & Ht); try done; [lia| |].
  { split; [apply NoDup_singleton|by apply Forall_singleton]. }
  unfold request. rewrite (bind_done _ _ _ _ _ E). cbv iota. clear E.
  destruct Ht as [Htq Htb Htl _ (Hst & d0 & HS & Hreq)].
  rewrite run_modS. set (u := set_ctl (ata_finish (ctl t)) t).
  assert (Hub : ibufs u i = b) by (cbn; by rewrite Htb).
  destruct (interrupt_one dev i u) as (w & s' & Hw & E & Hsv); try done;
    [by rewrite Hub|by cbn; rewrite Htl|].
  rewrite (bind_done _ _ _ _ _ E). clear E. destruct Hsv as [Hc Hbi Hbo Hqe _ Hls _].
  rewrite Hub in Hc, Hbi.
  assert (Hl' : idelock s' dev = false) by (rewrite Hls; cbn; by rewrite Htl).
  unfold iderw_resume. rewrite (bind_done _ _ _ _ _ (acquire_ide_run dev s' Hl')).
  rewrite iderw_wait_run by (cbn; by rewrite fn_lookup_insert). cbn [ibufs set_idelock].
  rewrite Hbi, served_finished.
  destruct (transfer_requested dev _ w b d0 (ctl t) Hreq Hw) as [Hm Hsec].
  eexists. split; [reflexivity|]. split; [|split_and!]; cbn.
  - split; cbn; [done|by rewrite fn_lookup_insert].
  - rewrite Hbi. cbn in Hm |- *. rewrite Hm, HS. done.
  - intros j Hj. rewrite Hbo by done. cbn. by rewrite Htb.
  - intros ba sl l. rewrite Hc. cbn in Hsec |- *. rewrite Hsec, HS. done.
Qed.

End refinement.

(** ** Theorems *)

Section theorems.
Context {D : Type} `{Ata D}.


(** For each of the devices 1 to 7, [idestart] of a dirty buffer makes the drive
    write exactly its block: the registers name the controller, the drive and
    the sector of the buffer, and no other sector of any drive changes. *)
Theorem idestart_writes_block dev i (s : ide D) :
  1 ≤ dev ≤ 7 → b_dev (ibufs s i) = dev → 0 ≤ b_blockno (ibufs s i) < FSSIZE →
  has (b_flags (ibufs s i)) B_DIRTY = true →
  ∃ d st, idestart dev (Some i) s = Done ((), moved d st s) ∧
    ∀ ba sl l, sector (ata_finish d) ba sl l =
      if bool_decide (ba = base_of dev ∧ sl = Z.odd dev ∧ l = b_blockno (ibufs s i))
      then b_data (ibufs s i) else sector (ctl s) ba sl l.
Proof.
  intros Hd Hb Hn Hf. destruct (idestart_run dev i s Hd Hb Hn) as (d0 & d & st & E & HS & _ & Hr).
  exists d, st. split; [done|]. intros ba sl l.
  unfold to_write in Hr. rewrite Hf in Hr. inversion Hr as [|b3 b4 b5 b6 m Hl Hs]; subst.
  rewrite ata_write by apply is_base_of. by rewrite Hs, Hl, HS.
Qed.

(** A request made while others are queued goes to the end of its queue, sends
    nothing to the controller and sleeps; on an empty queue it is sent first. *)
Theorem iderw_queues pid i dev l (s : ide D) :
  1 ≤ dev ≤ 7 → idelock s dev = false →
  b_locked (ibufs s i) = true → b_pid (ibufs s i) = pid → served (ibufs s i) = false →
  b_dev (ibufs s i) = dev → 0 ≤ b_blockno (ibufs s i) < FSSIZE →
  queued s dev l → requests (i :: l) →
  ∃ s', iderw pid i dev s = Done (false, s') ∧ submitted i dev l s s'.
Proof. apply iderw_run. Qed.

(** The first interrupt with a second request waiting stops the kernel:
    [ideintr] starts the second request, releases [idelock], and releases it
    again. *)
Theorem ideintr_two_panics i j l (s : ide D) :
  idelock s 1 = false → queued s 1 (i :: j :: l) → i ≠ j → started (startup s) →
  1 ≤ b_dev (ibufs s j) ≤ 7 → 0 ≤ b_blockno (ibufs s j) < FSSIZE →
  ideintr s = Panicked "release".
Proof.
  intros Hlk Hq Hij Hst Hd Hn.
  destruct (handler_head 1 (s32 (b_dev (ibufs s i))) BASEPORT1 i (j :: l) s Hq Hst)
    as (u & E & Hdw & [Hqu _] & Hu).
  assert (Hbj : ibufs u j = ibufs s j) by (by apply (dw_bufs _ _ _ _ _ Hdw)).
  unfold ideintr. rewrite (bind_done _ _ _ _ _ (acquire_ide_run 1 s Hlk)), run_getS.
  destruct Hq as [Hh _]. cbn [idequeue set_idelock]. rewrite Hh, run_modS, (bind_done _ _ _ _ _ E), run_getS.
  rewrite Hqu. destruct (idestart_run (b_dev (ibufs u j)) j u) as (d0 & d & st & E' & _);
    rewrite ?Hbj; try done. rewrite Hbj in E'.
  erewrite bind_done by (rewrite (bind_done _ _ _ _ _ E'), run_modS; by apply release_ide_run).
  apply release_unheld. cbn. by rewrite fn_lookup_insert.
Qed.

(** On the second controller a second request is lost: [ideintr2] starts it and
    takes it off the queue at once, so that when its own interrupt comes the
    queue is empty, the request is still not served, and the handler panics on
    releasing [idelock], which it does not hold. *)
Theorem ideintr2_second_lost i j (s : ide D) :
  idelock s 1 = false → idelock s 2 = false → queued s 2 [i; j] → i ≠ j → started (startup s) →
  1 ≤ b_dev (ibufs s j) ≤ 7 → 0 ≤ b_blockno (ibufs s j) < FSSIZE →
  ∃ s', ideintr2 s = Done ((), s') ∧ served (ibufs s' i) = true ∧ ibufs s' j = ibufs s j ∧
    ∀ d, ideintr2 (set_ctl d s') = Panicked "release".
Proof.
  intros Hlk1 Hlk Hq Hij Hst Hd Hn.
  destruct (handler_head 2 2 BASEPORT2 i [j] s Hq Hst) as (u & E & Hdw & [Hqu Hqn] & Hu).
  assert (Hbj : ibufs u j = ibufs s j) by (by apply (dw_bufs _ _ _ _ _ Hdw)).
  unfold ideintr2 at 1. rewrite (bind_done _ _ _ _ _ (acquire_ide_run 2 s Hlk)), run_getS.
  destruct Hq as [Hh _]. cbn [idequeue set_idelock]. rewrite Hh, run_modS, (bind_done _ _ _ _ _ E), run_getS.
  rewrite Hqu. destruct (idestart_run (b_dev (ibufs u j)) j u) as (d0 & d & st & E' & _);
    rewrite ?Hbj; try done. rewrite Hbj in E'.
  rewrite run_bind, (bind_done _ _ _ _ _ E'). cbn [modS]. rewrite release_ide_run by done.
  eexists. split; [reflexivity|]. cbn. split_and!; [|done|].
  - by rewrite (dw_buf _ _ _ _ _ Hdw), served_finished.
  - intros d'. unfold ideintr2. erewrite bind_done by (apply acquire_ide_run; cbn; by rewrite fn_lookup_insert).
    rewrite run_getS. cbn. rewrite fn_lookup_insert, Hqn. apply release_unheld. cbn.
    rewrite !fn_lookup_insert_ne, (dw_lock _ _ _ _ _ Hdw) by done. cbn.
    by rewrite fn_lookup_insert_ne.
Qed.

(** [idewait] does not wait and does not see errors: it reads the status
    register once, and its answer is the same with and without [checkerr]. *)
Theorem idewait_never_waits dev (s : ide D) :
  started (startup s) →
  ∀ ce, idewait dev ce s =
    Done (if ready (ata_inb (ctl s) (wait_port dev)).1 then 0 else -1,
          set_ctl (ata_inb (ctl s) (wait_port dev)).2 s).
Proof.
  intros Hst ce. destruct (idewait_run dev ce s) as (d & st & -> & _ & _ & Hd).
  destruct (Hd Hst) as [-> ->]. by destruct s.
Qed.

(** When the drive is not ready at the interrupt, a read is still reported as
    done: the buffer becomes valid with the data it had before. *)
Theorem ideintr_valid_unread i (s : ide D) :
  idelock s 1 = false → queued s 1 [i] → started (startup s) → b_dev (ibufs s i) = 1 →
  has (b_flags (ibufs s i)) B_DIRTY = false →
  ready (ata_inb (ctl s) (BASEPORT1 + 7)).1 = false →
  ∃ s', ideintr s = Done ((), s') ∧ served (ibufs s' i) = true ∧
    b_data (ibufs s' i) = b_data (ibufs s i).
Proof.
  intros Hlk Hq Hst Hb Hf Hr. destruct (ideintr_one i s Hlk Hq Hst) as (s' & E & Hs).
  exists s'. split; [done|]. rewrite (sv_buf _ _ _ _ _ _ Hs), Hb. split; [apply served_finished|].
  unfold transfer. rewrite Hf. change (wait_port (s32 1)) with (BASEPORT1 + 7). by rewrite Hr.
Qed.

Lemma probe_loop_run n p bit (s : ide D) :
  ∃ d pr, probe_loop n p bit s = Done ((), set_presence pr (set_ctl d s)).
Proof.
  revert s. induction n as [|n IH]; intros s.
  { exists (ctl s), (disk_presence s). by destruct s. }
  cbn [probe_loop]. rewrite run_inb. destruct (_ =? 0).
  { destruct (IH (set_ctl (ata_inb (ctl s) p).2 s)) as (d & pr & ->). by exists d, pr. }
  rewrite run_inb. destruct (_ =? 0xff).
  { edestruct IH as (d & pr & ->). by exists d, pr. }
  rewrite run_modS, run_inb. by eexists _, _.
Qed.

Lemma probe_run {B} base dr bit (k : () → M (ide D) B) (s : ide D) :
  ∃ d pr, (probe base dr bit ≫= k) s = k () (set_presence pr (set_ctl d s)).
Proof.
  destruct (probe_loop_run 1000 (base + 7) bit
    (set_ctl (ata_outb (ctl s) (base + 6) (u8 (Z.lor 0xe0 (Z.shiftl dr 4)))) s)) as (d & pr & E).
  exists d, pr. erewrite bind_done; [reflexivity|]. exact E.
Qed.

Lemma need_run bit msg (s : ide D) :
  need bit msg s = if Z.land (disk_presence s) bit =? 0 then Panicked msg else Done ((), s).
Proof. unfold need. rewrite run_getS. by destruct (_ =? 0). Qed.

Lemma bind_need {B} bit msg (k : () → M (ide D) B) (s : ide D) :
  (need bit msg ≫= k) s =
    if Z.land (disk_presence s) bit =? 0 then Panicked msg else k () s.
Proof. rewrite run_bind, need_run. by destruct (_ =? 0). Qed.

Ltac probe_case :=
  match goal with
  | |- context [(probe ?ba ?dr ?bit ≫= ?k) ?s] =>
      let d := fresh "d" in let pr := fresh "pr" in let E := fresh "E" in
      destruct (probe_run ba dr bit k s) as (d & pr & E); rewrite E; clear E
  end.

(** [ideinit] returns only with the first three disks found, [idelock] free and
    every first-time write behind it; otherwise it panics naming a disk. *)
Theorem ideinit_finds_disks (s : ide D) :
  match ideinit s with
  | Done (_, s') => started (startup s') ∧ idelock s' 1 = false ∧
      Forall (λ bit, Z.land (disk_presence s') bit ≠ 0) [DISK1; DISK2; DISK3]
  | Panicked msg => msg ∈ ["Missing disk 1"; "Missing disk 2"; "Missing disk 3"]%string
  | _ => False
  end.
Proof.
  unfold ideinit. rewrite !run_modS.
  destruct (idewait_run 1 false (set_presence 0 (set_idelock 1 false s))) as (d1 & t1 & E & _).
  rewrite (bind_done _ _ _ _ _ E). clear E.
  match goal with |- context [(idewait 2 false ≫= ?k) ?t] =>
    destruct (idewait_run 2 false t) as (d2 & t2 & E & _ & Hst & _) end.
  rewrite (bind_done _ _ _ _ _ E). clear E. do 8 probe_case.
  unfold outb. rewrite run_modS.
  set (t := set_ctl _ _).
  assert (Ht : startup t = t2 ∧ idelock t 1 = false) by (cbn; by rewrite fn_lookup_insert).
  generalize t Ht. clear -Hst. intros t [<- Hl].
  rewrite !(bind_need _ _ _ t), need_run.
  destruct (Z.eqb_spec (Z.land (disk_presence t) DISK1) 0); [set_solver|].
  destruct (Z.eqb_spec (Z.land (disk_presence t) DISK2) 0); [set_solver|].
  destruct (Z.eqb_spec (Z.land (disk_presence t) DISK3) 0); [set_solver|].
  split_and!; [done|done|by rewrite !Forall_cons, Forall_nil].
Qed.

End theorems.

(** ** Witnesses *)

(** Two sleeping processes' buffers and drives that answer at once. *)
Definition a_buf (flags dev n : Z) : buf := Buf flags dev n true 1 1 (λ _, 7).

Definition at_rest (dev : Z) (queue : list nat) : ide ata_regs :=
  Ide (AtaRegs (λ _, 0) (λ _ _ _ _, 0))
    (λ i, a_buf (if (i =? 0)%nat then B_DIRTY else 0) dev (300 + Z.of_nat i))
    (λ i, match queue with [j; k] => if (i =? j)%nat then Some k else None | _ => None end)
    (λ q, if q =? dev then head queue else None) (λ _, false) 0xfc 7 [].

Definition at_rest_fs (dev : Z) : fsys :=
  set_bufs (ibufs (at_rest dev [])) cold_fs.


Lemma idestart_writes_block_witness :
  ∃ d st, idestart 5 (Some 0%nat) (at_rest 5 []) = Done ((), moved d st (at_rest 5 [])) ∧
    ∀ ba sl l, sector (ata_finish d) ba sl l =
      if bool_decide (ba = base_of 5 ∧ sl = Z.odd 5 ∧ l = b_blockno (ibufs (at_rest 5 []) 0%nat))
      then b_data (ibufs (at_rest 5 []) 0%nat) else sector (ctl (at_rest 5 [])) ba sl l.
Proof. apply (idestart_writes_block 5 0 (at_rest 5 [])); done. Defined.

Lemma iderw_queues_witness :
  ∃ s', iderw 1 1 1 (at_rest 1 [0%nat]) = Done (false, s') ∧ submitted 1 1 [0%nat] (at_rest 1 [0%nat]) s'.
Proof.
  apply (iderw_queues 1 1 1 [0%nat] (at_rest 1 [0%nat])); try done.
  split; [by repeat constructor; set_solver|]. unfold NBUF. repeat constructor; lia.
Defined.

Lemma ideintr_two_panics_witness : ideintr (at_rest 1 [0; 1]%nat) = Panicked "release".
Proof.
  apply (ideintr_two_panics 0 1 [] (at_rest 1 [0; 1]%nat)); try done. by repeat constructor.
Defined.

Lemma ideintr2_second_lost_witness :
  ∃ s', ideintr2 (at_rest 2 [0; 1]%nat) = Done ((), s') ∧ served (ibufs s' 0%nat) = true ∧
    ibufs s' 1%nat = a_buf 0 2 301 ∧ ∀ d, ideintr2 (set_ctl d s') = Panicked "release".
Proof.
  apply (ideintr2_second_lost 0 1 (at_rest 2 [0; 1]%nat)); try done. by repeat constructor.
Defined.
