(* ===== verification/Kbd.v ===== *)
(** * The keyboard: kernel/drivers/kbd.c and kbd.h

    [kbdgetc] turns the scan codes of the keyboard controller into characters,
    with the modifier keys in a static word.  The specification is a keyboard
    whose keys are pressed and released; the theorems say that the decoder
    follows it byte by byte, and that what is typed reaches the line being
    edited (Console.v). *)
From stdpp Require Import base decidable option list functions numbers strings sets.
From Stdlib Require Import ZArith Lia Ascii String.
From S2P Require Import Prelude CString Console.

Local Open Scope Z_scope.

(** ** Constants and tables *)

Definition KBS_DIB : Z := 0x01.
Definition NO : Z := 0.
Definition SHIFT : Z := Z.shiftl 1 0.
Definition CTL : Z := Z.shiftl 1 1.
Definition ALT : Z := Z.shiftl 1 2.
Definition CAPSLOCK : Z := Z.shiftl 1 3.
Definition NUMLOCK : Z := Z.shiftl 1 4.
Definition SCROLLLOCK : Z := Z.shiftl 1 5.
Definition E0ESC : Z := Z.shiftl 1 6.
Definition KEY_HOME : Z := 0xE0.
Definition KEY_END : Z := 0xE1.
Definition KEY_UP : Z := 0xE2.
Definition KEY_DN : Z := 0xE3.
Definition KEY_LF : Z := 0xE4.
Definition KEY_RT : Z := 0xE5.
Definition KEY_PGUP : Z := 0xE6.
Definition KEY_PGDN : Z := 0xE7.
Definition KEY_INS : Z := 0xE8.
Definition KEY_DEL : Z := 0xE9.

(** A character constant. *)
Definition ch (c : ascii) : Z := Z.of_nat (nat_of_ascii c).

(** The macro [C(x)] on a character constant. *)
Definition C (c : ascii) : Z := ch c - ch "@".

(** A [uint8] table of 256 entries: its first rows, then designated entries;
    the rest is zero. *)
Definition kbd_table (rows : list Z) (designated : list (Z * Z)) (i : Z) : Z :=
  match List.find (λ e, fst e =? i) designated with
  | Some (_, v) => v
  | None => nth (Z.to_nat i) rows 0
  end.

Definition shiftcode : Z → Z :=
  kbd_table [] [(0x1D, CTL); (0x2A, SHIFT); (0x36, SHIFT); (0x38, ALT); (0x9D, CTL); (0xB8, ALT)].

Definition togglecode : Z → Z :=
  kbd_table [] [(0x3A, CAPSLOCK); (0x45, NUMLOCK); (0x46, SCROLLLOCK)].

(** The designated entries the three character maps share. *)
Definition arrows : list (Z * Z) :=
  [(0xC8, KEY_UP); (0xD0, KEY_DN); (0xC9, KEY_PGUP); (0xD1, KEY_PGDN);
   (0xCB, KEY_LF); (0xCD, KEY_RT); (0x97, KEY_HOME); (0xCF, KEY_END);
   (0xD2, KEY_INS); (0xD3, KEY_DEL)].

Section maps.
Local Open Scope char_scope.

Definition normalmap : Z → Z :=
  kbd_table
    [NO; 0x1B%Z; ch "1"; ch "2"; ch "3"; ch "4"; ch "5"; ch "6";
     ch "7"; ch "8"; ch "9"; ch "0"; ch "-"; ch "="; 8%Z; 9%Z;
     ch "q"; ch "w"; ch "e"; ch "r"; ch "t"; ch "y"; ch "u"; ch "i";
     ch "o"; ch "p"; ch "["; ch "]"; 10%Z; NO; ch "a"; ch "s";
     ch "d"; ch "f"; ch "g"; ch "h"; ch "j"; ch "k"; ch "l"; ch ";";
     ch "'"; ch "`"; NO; ch "\"; ch "z"; ch "x"; ch "c"; ch "v";
     ch "b"; ch "n"; ch "m"; ch ","; ch "."; ch "/"; NO; ch "*";
     NO; ch " "; NO; NO; NO; NO; NO; NO;
     NO; NO; NO; NO; NO; NO; NO; ch "7";
     ch "8"; ch "9"; ch "-"; ch "4"; ch "5"; ch "6"; ch "+"; ch "1";
     ch "2"; ch "3"; ch "0"; ch "."; NO; NO; NO; NO]
    ((0x9C%Z, 10%Z) :: (0xB5%Z, ch "/") :: arrows).

Definition shiftmap : Z → Z :=
  kbd_table
    [NO; 27%Z; ch "!"; ch "@"; ch "#"; ch "$"; ch "%"; ch "^";
     ch "&"; ch "*"; ch "("; ch ")"; ch "_"; ch "+"; 8%Z; 9%Z;
     ch "Q"; ch "W"; ch "E"; ch "R"; ch "T"; ch "Y"; ch "U"; ch "I";
     ch "O"; ch "P"; ch "{"; ch "}"; 10%Z; NO; ch "A"; ch "S";
     ch "D"; ch "F"; ch "G"; ch "H"; ch "J"; ch "K"; ch "L"; ch ":";
     34%Z; ch "~"; NO; ch "|"; ch "Z"; ch "X"; ch "C"; ch "V";
     ch "B"; ch "N"; ch "M"; ch "<"; ch ">"; ch "?"; NO; ch "*";
     NO; ch " "; NO; NO; NO; NO; NO; NO;
     NO; NO; NO; NO; NO; NO; NO; ch "7";
     ch "8"; ch "9"; ch "-"; ch "4"; ch "5"; ch "6"; ch "+"; ch "1";
     ch "2"; ch "3"; ch "0"; ch "."; NO; NO; NO; NO]
    ((0x9C%Z, 10%Z) :: (0xB5%Z, ch "/") :: arrows).

Definition ctlmap : Z → Z :=
  kbd_table
    [NO; NO; NO; NO; NO; NO; NO; NO;
     NO; NO; NO; NO; NO; NO; NO; NO;
     C "Q"; C "W"; C "E"; C "R"; C "T"; C "Y"; C "U"; C "I";
     C "O"; C "P"; NO; NO; 13%Z; NO; C "A"; C "S";
     C "D"; C "F"; C "G"; C "H"; C "J"; C "K"; C "L"; NO;
     NO; NO; NO; C "\"; C "Z"; C "X"; C "C"; C "V";
     C "B"; C "N"; C "M"; NO; NO; u8 (C "/"); NO; NO]
    ((0x9C%Z, 13%Z) :: (0xB5%Z, u8 (C "/")) :: arrows).

End maps.

Definition charcode (i : Z) : Z → Z :=
  if i =? 0 then normalmap else if i =? 1 then shiftmap else ctlmap.

(** ** The decoder *)

(** [kbdgetc] with the bytes the two ports answer; the new value of [shift]
    comes with the result. *)
Definition kbdgetc (st data shift : Z) : Z * Z :=
  if Z.land st KBS_DIB =? 0 then (-1, shift)
  else if data =? 0xE0 then (0, Z.lor shift E0ESC)
  else if c_true (Z.land data 0x80) then
    let data := if c_true (Z.land shift E0ESC) then data else Z.land data 0x7F in
    (0, Z.land shift (Z.lnot (Z.lor (shiftcode data) E0ESC)))
  else
    let '(data, shift) :=
      if c_true (Z.land shift E0ESC) then (Z.lor data 0x80, Z.land shift (Z.lnot E0ESC))
      else (data, shift) in
    let shift := Z.lor shift (shiftcode data) in
    let shift := Z.lxor shift (togglecode data) in
    let c := charcode (Z.land shift (Z.lor CTL SHIFT)) data in
    let c :=
      if c_true (Z.land shift CAPSLOCK) then
        if (97 <=? c) && (c <=? 122) then u32 (c + (65 - 97))
        else if (65 <=? c) && (c <=? 90) then u32 (c + (97 - 65))
        else c
      else c in
    (s32 c, shift).

(** The characters [consoleintr] takes while the keyboard has [codes], and the
    last value of [shift]. *)
Fixpoint kbd_chars (codes : list Z) (shift : Z) : list Z * Z :=
  match codes with
  | [] => ([], (kbdgetc 0 0 shift).2)
  | data :: codes =>
      let '(c, shift) := kbdgetc KBS_DIB data shift in
      let '(cs, shift) := kbd_chars codes shift in
      (c :: cs, shift)
  end.

(** [kbdintr]; with the new [shift], whether [procdump] is called. *)
Definition kbdintr (codes : list Z) (shift : Z) : M con (bool * Z) :=
  dump ← consoleintr (kbd_chars codes shift).1;
  mret (dump, (kbd_chars codes shift).2).

(** ** A keyboard *)

(** Which modifier keys are down and which locks are on. *)
Record mods := Mods { shift_ : bool; ctl : bool; alt : bool; caps : bool; num : bool; scroll : bool }.

Inductive event := Press (k : Z) | Release (k : Z).

(** The key of an event: extended keys are numbered from 0x80 on. *)
Definition key (e : event) : Z := match e with Press k | Release k => k end.

(** The keys of a keyboard; the release of key 0x60 would look like an escape. *)
Definition real_key (k : Z) : bool := (0 <=? k) && (k <? 256) && negb (Z.land k 0x7F =? 0x60).

(** The scan codes the keyboard sends. *)
Definition codes (e : event) : list Z :=
  let c := Z.land (key e) 0x7F in
  (if Z.testbit (key e) 7 then [0xE0] else []) ++
  [match e with Press _ => c | Release _ => c + 0x80 end].

Definition is_shift (k : Z) : bool := (k =? 0x2A) || (k =? 0x36).
Definition is_ctl (k : Z) : bool := (k =? 0x1D) || (k =? 0x9D).
Definition is_alt (k : Z) : bool := (k =? 0x38) || (k =? 0xB8).

(** Modifiers are down from a press to the next release; locks toggle. *)
Definition turn (m : mods) (e : event) : mods :=
  match e with
  | Press k =>
      Mods (shift_ m || is_shift k) (ctl m || is_ctl k) (alt m || is_alt k)
        (xorb (caps m) (k =? 0x3A)) (xorb (num m) (k =? 0x45)) (xorb (scroll m) (k =? 0x46))
  | Release k =>
      Mods (shift_ m && negb (is_shift k)) (ctl m && negb (is_ctl k)) (alt m && negb (is_alt k))
        (caps m) (num m) (scroll m)
  end.

(** Caps lock exchanges the cases of letters. *)
Definition swap_case (c : Z) : Z :=
  if (97 <=? c) && (c <=? 122) then c - 32 else if (65 <=? c) && (c <=? 90) then c + 32 else c.

(** The character of a key. *)
Definition char_of (m : mods) (k : Z) : Z :=
  let c := if ctl m then ctlmap k else if shift_ m then shiftmap k else normalmap k in
  if caps m then swap_case c else c.

(** What a press types. *)
Definition types (m : mods) (e : event) : list Z :=
  match e with Press k => [char_of (turn m e) k] | Release _ => [] end.

Fixpoint typed_by (m : mods) (es : list event) : list Z :=
  match es with [] => [] | e :: es => types m e ++ typed_by (turn m e) es end.

(** ** The decoder follows the keyboard *)

Definition bit (b : bool) (v : Z) : Z := if b then v else 0.

(** The word [shift] of the decoder between two events. *)
Definition shift_word (m : mods) : Z :=
  bit (shift_ m) SHIFT + bit (ctl m) CTL + bit (alt m) ALT + bit (caps m) CAPSLOCK
    + bit (num m) NUMLOCK + bit (scroll m) SCROLLLOCK.

Definition all_mods : list mods :=
  let bs := [true; false] in
  a ← bs; b ← bs; c ← bs; d ← bs; e ← bs; f ← bs; [Mods a b c d e f].

Definition all_keys : list Z := seqZ 0 256.

(** Characters of one event, without the zeros the console ignores. *)
Definition follows (m : mods) (e : event) : bool :=
  let '(cs, s) := kbd_chars (codes e) (shift_word m) in
  bool_decide (List.filter (λ c, negb (c =? 0)) cs = List.filter (λ c, negb (c =? 0)) (types m e)) &&
  forallb (λ c, (0 <=? c) && (c <? 256)) cs && (s =? shift_word (turn m e)).

Lemma follows_all :
  forallb (λ m, forallb (λ k, negb (real_key k) || (follows m (Press k) && follows m (Release k))) all_keys)
    all_mods = true.
Proof. vm_compute. reflexivity. Qed.

Definition nonzero (cs : list Z) : list Z := List.filter (λ c, negb (c =? 0)) cs.

Lemma all_mods_spec m : m ∈ all_mods.
Proof. destruct m as [[] [] [] [] [] []]; vm_compute; set_solver. Qed.

Lemma event_follows m e : real_key (key e) = true →
  ∃ cs, kbd_chars (codes e) (shift_word m) = (cs, shift_word (turn m e)) ∧
    nonzero cs = nonzero (types m e) ∧ Forall (λ c, 0 ≤ c < 256) cs.
Proof.
  intros Hk. pose proof follows_all as Ha. rewrite forallb_forall in Ha.
  specialize (Ha m). rewrite <- list_elem_of_In in Ha. specialize (Ha (all_mods_spec m)).
  rewrite forallb_forall in Ha. specialize (Ha (key e)).
  assert (Hin : key e ∈ all_keys) by (apply elem_of_seqZ; unfold real_key in Hk; lia).
  rewrite <- list_elem_of_In in Ha. specialize (Ha Hin). rewrite Hk in Ha. cbn [negb orb] in Ha.
  assert (Hf : follows m e = true) by (apply andb_true_iff in Ha; destruct e; apply Ha).
  unfold follows in Hf. destruct (kbd_chars _ _) as [cs s]. exists cs.
  rewrite !andb_true_iff in Hf. destruct Hf as [[Hc%bool_decide_eq_true Hr] ->%Z.eqb_eq].
  split_and!; [done|done|]. apply Forall_forall. intros c Hc'.
  rewrite forallb_forall in Hr. specialize (Hr c). rewrite <- list_elem_of_In in Hr.
  specialize (Hr Hc'). lia.
Qed.

Lemma kbd_chars_app a b s :
  kbd_chars (a ++ b) s =
    let '(cs, s1) := kbd_chars a s in let '(cs', s2) := kbd_chars b s1 in (cs ++ cs', s2).
Proof.
  revert s. induction a as [|x a IH]; intros s; cbn [kbd_chars app].
  - change (kbdgetc 0 0 s).2 with s. by destruct (kbd_chars b s).
  - destruct (kbdgetc KBS_DIB x s) as [c s1]. rewrite IH.
    destruct (kbd_chars a s1) as [cs s2]. by destruct (kbd_chars b s2).
Qed.

(** The decoder follows the keyboard through any sequence of events. *)
Lemma kbd_follows es m : Forall (λ e, real_key (key e) = true) es →
  ∃ cs, kbd_chars (mjoin (codes <$> es)) (shift_word m) = (cs, shift_word (fold_left turn es m)) ∧
    nonzero cs = nonzero (typed_by m es) ∧ Forall (λ c, 0 ≤ c < 256) cs.
Proof.
  revert m. induction es as [|e es IH]; intros m He; [by exists []|].
  apply Forall_cons in He as [He Hes]. rewrite fmap_cons. cbn [typed_by fold_left].
  destruct (event_follows m e He) as (c1 & E1 & N1 & F1).
  destruct (IH (turn m e) Hes) as (c2 & E2 & N2 & F2).
  exists (c1 ++ c2). change (mjoin (codes e :: (codes <$> es))) with (codes e ++ mjoin (codes <$> es)).
  rewrite kbd_chars_app, E1, E2.
  split_and!; [done| |by apply Forall_app].
  unfold nonzero in *. by rewrite !List.filter_app, N1, N2.
Qed.

(** The console ignores zeros. *)
Lemma typed_nonzero cs d : fold_left typed cs d = fold_left typed (nonzero cs) d.
Proof.
  revert d. induction cs as [|c cs IH]; intros d; cbn; [done|].
  destruct (Z.eqb_spec c 0) as [->|]; cbn; [|apply IH]. rewrite <- IH. done.
Qed.

Lemma dump_nonzero cs : bool_decide (Ctl 80 ∈ cs) = bool_decide (Ctl 80 ∈ nonzero cs).
Proof.
  apply bool_decide_ext. unfold nonzero. rewrite !list_elem_of_In, List.filter_In. naive_solver.
Qed.

(** C27: The keyboard interrupt, from the keys to the line being edited: whatever
    keys are pressed and released, in any order and with any modifiers down or
    locks on, the scan codes they send leave the console as if the characters
    of the pressed keys had been typed, and [shift] as the keys now stand. *)
Theorem kbdintr_types s d m es :
  con_ok s d → conlock s = false → Forall (λ e, real_key (key e) = true) es →
  ∃ s', kbdintr (mjoin (codes <$> es)) (shift_word m) s =
      Done ((bool_decide (Ctl 80 ∈ typed_by m es), shift_word (fold_left turn es m)), s') ∧
    con_ok s' (fold_left typed (typed_by m es) d) ∧ conlock s' = false.
Proof.
  intros Hok Hl He. destruct (kbd_follows es m He) as (cs & E & N & F).
  destruct (consoleintr_run s d cs Hok Hl F) as (s' & Er & Hok' & Hl' & _).
  exists s'. unfold kbdintr. rewrite E. cbn [fst snd]. rewrite (bind_done _ _ _ _ _ Er).
  rewrite dump_nonzero, N, <- dump_nonzero. split_and!; [done| |done].
  by rewrite typed_nonzero, <- N, <- typed_nonzero.
Qed.

(** The letters of the three rows, as scan codes and lower-case characters. *)
Definition letter_keys : list (Z * Z) :=
  zip (seqZ 0x10 10) (map ch (String.list_ascii_of_string "qwertyuiop")) ++
  zip (seqZ 0x1E 9) (map ch (String.list_ascii_of_string "asdfghjkl")) ++
  zip (seqZ 0x2C 7) (map ch (String.list_ascii_of_string "zxcvbnm")).

(** A letter key types its letter: in lower case, in upper case when exactly
    one of shift and caps lock is on, and as a control character under control. *)
Theorem letters_typed m k c : (k, c) ∈ letter_keys →
  char_of m k = if ctl m then c - 96 else if xorb (shift_ m) (caps m) then c - 32 else c.
Proof.
  intros Hk. assert (Hall : forallb (λ '(k, c), forallb (λ m, char_of m k =?
    if ctl m then c - 96 else if xorb (shift_ m) (caps m) then c - 32 else c) all_mods) letter_keys = true)
    by (vm_compute; reflexivity).
  rewrite forallb_forall in Hall. specialize (Hall (k, c)). rewrite <- list_elem_of_In in Hall.
  specialize (Hall Hk). cbn beta iota in Hall. rewrite forallb_forall in Hall.
  specialize (Hall m). rewrite <- list_elem_of_In in Hall. by apply Z.eqb_eq, Hall, all_mods_spec.
Qed.

(** ** Witnesses *)

(** Shift down, "l", shift up, "s", enter. *)
Lemma kbdintr_types_witness :
  ∃ s', kbdintr [0x2A; 0x26; 0xA6; 0xAA; 0x1F; 0x9F; 0xE0; 0x1C] 0 blank = Done ((false, 0), s') ∧
    con_ok s' (Disc [76; 115; 10] []).
Proof.
  destruct (kbdintr_types blank (Disc [] []) (Mods false false false false false false)
    [Press 0x2A; Press 0x26; Release 0x26; Release 0x2A; Press 0x1F; Release 0x1F; Press 0x9C])
    as (s' & E & H & _); [exact blank_ok|reflexivity|repeat constructor|].
  exists s'. split; [exact E|exact H].
Defined.

Lemma letters_typed_witness : char_of (Mods true false false false false false) 0x26 = 76.
Proof. apply (letters_typed (Mods true false false false false false) 0x26 108). vm_compute. set_solver. Defined.
