(* ===== verification/Mkfs.v ===== *)
(** * Making a file system: user/mkfs.c

    The image is the file [fsfd], as its sectors; the host's [read], [write]
    and [lseek] on it succeed inside the file, and a failing check or [exit(1)]
    is [Panicked].  The host is little-endian, as [balloc] and [IBLOCK], which
    use the super block unconverted, need it to be.  The theorems say that the
    image is a well-formed file system with the given files in it, and that the
    kernel of Fs.v and Inodes.v, started on it, reads them back. *)
From stdpp Require Import base decidable option list functions numbers strings sets gmap.
From Stdlib Require Import ZArith Lia.
From S2P Require Import Prelude CString FsDefs Bio Log Fs FileDefs File Inodes Reboot.

Local Open Scope Z_scope.

(** ** Constants *)

Definition NINODES : Z := 200.
Definition nbitmap : Z := FSSIZE / (BSIZE * 8) + 1.
Definition ninodeblocks : Z := NINODES / IPB + 1.
Definition nlog : Z := LOGSIZE.
Definition nmeta : Z := 2 + nlog + ninodeblocks + nbitmap.
Definition nblocks : Z := FSSIZE - nmeta.

(** [a[i] = x >> 8 * i], read back as a word of the host *)
Definition xshort (x : Z) : Z := load16 (store8 (store8 zero_mem 0 x) 1 (x ≫ 8)) 0.
Definition xint (x : Z) : Z :=
  load32 (store8 (store8 (store8 (store8 zero_mem 0 x) 1 (x ≫ 8)) 2 (x ≫ 16)) 3 (x ≫ 24)) 0.

(** ** State *)

Record mk := Mk {
  img : Z → mem;  (* the sectors of the image *)
  nsect : Z;  (* how many it has *)
  msb : superblock;
  freeinode : Z;
  freeblock : Z
}.

Definition set_img (f : Z → mem) (n : Z) (s : mk) : mk := Mk f n (msb s) (freeinode s) (freeblock s).
Definition set_msb (x : superblock) (s : mk) : mk := Mk (img s) (nsect s) x (freeinode s) (freeblock s).
Definition set_freeinode (v : Z) (s : mk) : mk := Mk (img s) (nsect s) (msb s) v (freeblock s).
Definition set_freeblock (v : Z) (s : mk) : mk := Mk (img s) (nsect s) (msb s) (freeinode s) v.

Definition massert (b : bool) : M mk () := if b then mret () else panic "assert".

(** ** Sectors *)

(** A write past the end extends the file; a read there is short. *)
Definition wsect (sec : Z) (buf : mem) : M mk () :=
  let sec := u32 (sec * BSIZE) / BSIZE in
  modS (λ s, set_img (<[sec := buf]> (img s)) (nsect s `max` (sec + 1)) s).

Definition rsect (sec : Z) : M mk mem :=
  let sec := u32 (sec * BSIZE) / BSIZE in
  s ← getS;
  if sec <? nsect s then mret (img s sec) else panic "read".

(** ** Inodes *)

(** [bzero(&din, sizeof(din))] *)
Definition no_inode : inode := Inode 0 0 0 false 0 0 0 0 0 0 0 0 (repeat 0 13).

Definition winode (inum : Z) (ip : inode) : M mk () :=
  s ← getS;
  let bn := IBLOCK inum (msb s) in
  buf ← rsect bn;
  wsect bn (put_dinode buf inum ip).

Definition rinode (inum : Z) : M mk inode :=
  s ← getS;
  let bn := IBLOCK inum (msb s) in
  buf ← rsect bn;
  mret (get_dinode buf inum no_inode).

Definition ialloc (type : Z) : M mk Z :=
  inum ← gets freeinode;
  _ ← modS (λ s, set_freeinode (u32 (freeinode s + 1)) s);
  let din := no_inode in
  let din := set_i_type (s16 (xshort type)) din in
  let din := set_i_nlink (s16 (xshort 1)) din in
  let din := set_i_size (xint 0) din in
  _ ← winode inum din;
  mret inum.

(** ** The bitmap *)

(** [buf[i/8] = buf[i/8] | (0x1 << (i%8))] for the first [n] blocks. *)
Fixpoint mark (n : nat) (buf : mem) : mem :=
  match n with
  | O => buf
  | S n => bit_set (mark n buf) (Z.of_nat n)
  end.

Definition balloc (used : Z) : M mk () :=
  _ ← massert (used <? BSIZE * 8);
  s ← getS;
  wsect (sb_bmapstart (msb s)) (mark (Z.to_nat used) zero_mem).

(** ** Appending to a file *)

(** [xint(freeblock++)] *)
Definition next_block : M mk Z :=
  b ← gets freeblock;
  _ ← modS (λ s, set_freeblock (u32 (freeblock s + 1)) s);
  mret (xint b).

(** The indirect block, allocated if there is none. *)
Definition need_indirect (din : inode) : M mk inode :=
  if xint (nth (Z.to_nat NDIRECT) (i_addrs din) 0) =? 0 then
    b ← next_block;
    mret (set_i_addrs (<[Z.to_nat NDIRECT := b]> (i_addrs din)) din)
  else mret din.

(** The word for [fbn] of the indirect block [ind]. *)
Definition need_word (ind fbn : Z) : M mk Z :=
  let a := 4 * (fbn - NDIRECT) in
  indirect ← rsect ind;
  indirect ←
    (if load32 indirect a =? 0 then
       b ← next_block;
       let indirect := store32 indirect a b in
       _ ← wsect ind indirect;
       mret indirect
     else mret indirect);
  mret (xint (load32 indirect a)).

(** The block for [fbn], allocated if there is none, with the inode. *)
Definition block_for (din : inode) (fbn : Z) : M mk (inode * Z) :=
  if fbn <? NDIRECT then
    din ← (if xint (nth (Z.to_nat fbn) (i_addrs din) 0) =? 0 then
             b ← next_block;
             mret (set_i_addrs (<[Z.to_nat fbn := b]> (i_addrs din)) din)
           else mret din);
    mret (din, xint (nth (Z.to_nat fbn) (i_addrs din) 0))
  else
    din ← need_indirect din;
    x ← need_word (xint (nth (Z.to_nat NDIRECT) (i_addrs din) 0)) fbn;
    mret (din, x).

(** The loop; [p] holds the [n] bytes that are left. *)
Fixpoint iappend_loop (fuel : nat) (din : inode) (off : Z) (p : list Z) : M mk (inode * Z) :=
  match p with
  | [] => mret (din, off)
  | _ :: _ =>
      match fuel with
      | O => no_fuel
      | S fuel =>
          let fbn := off / BSIZE in
          _ ← massert (fbn <? MAXFILE);
          '(din, x) ← block_for din fbn;
          let n1 := Z.of_nat (length p) `min` u32 ((fbn + 1) * BSIZE - off) in
          buf ← rsect x;
          _ ← wsect x (put_bytes buf (off - fbn * BSIZE) (take (Z.to_nat n1) p));
          iappend_loop fuel din (u32 (off + n1)) (drop (Z.to_nat n1) p)
      end
  end.

Definition iappend (inum : Z) (xp : list Z) : M mk () :=
  din ← rinode inum;
  let off := xint (i_size din) in
  '(din, off) ← iappend_loop (length xp) din off xp;
  winode inum (set_i_size (xint off) din).

(** ** The program *)

(** [struct dirent]: the number, then the name in [DIRSIZ] bytes, padded with
    zeros or cut. *)
Definition dirent (inum : Z) (name : list Z) : list Z :=
  let n := xshort inum in
  [u8 n; u8 (n ≫ 8)] ++ take (Z.to_nat DIRSIZ) (name ++ repeat 0 (Z.to_nat DIRSIZ)).

Definition DOTS (n : nat) : list Z := repeat DOT n.

(** An argument: the name, and what successive reads of the file return, if it
    can be opened. *)
Definition arg : Type := list Z * option (list (list Z)).

(** [if(argv[i][0] == '_') ++argv[i];] *)
Definition UNDERSCORE : Z := 95.
Definition strip (name : list Z) : list Z :=
  match name with c :: r => if c =? UNDERSCORE then r else name | [] => [] end.

Definition add_file (rootino : Z) (a : arg) : M mk () :=
  let '(name, file) := a in
  _ ← massert (bool_decide (SLASH ∉ name));
  match file with
  | None => panic "open"
  | Some reads =>
      let name := strip name in
      inum ← ialloc T_FILE;
      _ ← iappend rootino (dirent inum name);
      mfor reads (λ buf, iappend inum buf)
  end.

Definition write_sb (x : superblock) : mem :=
  put_words zero_mem 0
    [sb_size x; sb_nblocks x; sb_ninodes x; sb_nlog x; sb_logstart x; sb_inodestart x; sb_bmapstart x].

(** The end of [main]: the size of the root directory, and the bitmap. *)
Definition finish (rootino : Z) : M mk () :=
  din ← rinode rootino;
  let off := xint (i_size din) in
  let off := u32 ((off / BSIZE + 1) * BSIZE) in
  _ ← winode rootino (set_i_size (xint off) din);
  s ← getS;
  balloc (s32 (freeblock s)).

(** [main], from the open image on; [args] are [argv[2]] onwards. *)
Definition main (args : list arg) : M mk () :=
  _ ← modS (set_msb (Sb (xint FSSIZE) (xint nblocks) (xint NINODES) (xint nlog) (xint 2)
                        (xint (2 + nlog)) (xint (2 + nlog + ninodeblocks))));
  _ ← modS (set_freeblock nmeta);
  _ ← mfor (seq 0 (Z.to_nat FSSIZE)) (λ i, wsect (Z.of_nat i) zero_mem);
  s ← getS;
  _ ← wsect 1 (write_sb (msb s));
  rootino ← ialloc T_DIR;
  _ ← massert (rootino =? ROOTINO);
  _ ← iappend rootino (dirent rootino (DOTS 1));
  _ ← iappend rootino (dirent rootino (DOTS 2));
  _ ← mfor args (add_file rootino);
  finish rootino.

(** The image file after [open] with [O_TRUNC]. *)
Definition start : mk := Mk (λ _, zero_mem) 0 (Sb 0 0 0 0 0 0 0) 1 0.

Lemma xint_u32 x : xint x = u32 x.
Proof. apply (load32_store32 zero_mem 0 x). Qed.

Lemma xshort_u16 x : xshort x = u16 x.
Proof. apply (load16_store16 zero_mem 0 x). Qed.

(** ** Files in an image *)

(** A file while it is built: the words [addrs] of its inode, the slots of its
    block map that are in use (slot [-1] is the indirect block, as in
    Inodes.v), and its bytes. *)
Record mfile := MFile { m_addrs : list Z; m_has : Z → bool; m_data : list Z }.

Definition mblk (C : Z → mem) (f : mfile) (x : Z) : Z := map_block (m_addrs f) C x.

Record stored (C : Z → mem) (f : mfile) : Prop := Stored {
  st_len : length (m_addrs f) = 13%nat;
  st_map : ∀ x, slot x → mblk C f x ≠ 0 ↔ m_has f x = true;
  st_ind : ∀ x, NDIRECT ≤ x < MAXFILE → m_has f x = true → m_has f (-1) = true;
  st_cover : ∀ o, 0 ≤ o < Z.of_nat (length (m_data f)) → m_has f (o / BSIZE) = true;
  st_max : Z.of_nat (length (m_data f)) ≤ MAXFILE * BSIZE;
  st_bytes : ∀ x a, 0 ≤ x < MAXFILE → 0 ≤ a < BSIZE → m_has f x = true →
    C (mblk C f x) a = nth (Z.to_nat (x * BSIZE + a)) (m_data f) 0
}.

(** The blocks of the files are distinct blocks between the metadata and [hi],
    and those from [hi] on are still zero. *)
Record blocks_ok (C : Z → mem) (hi : Z) (fs : list mfile) : Prop := BlocksOk {
  bo_hi : nmeta ≤ hi ≤ FSSIZE;
  bo_stored : ∀ k f, fs !! k = Some f → stored C f;
  bo_range : ∀ k f x, fs !! k = Some f → slot x → m_has f x = true → nmeta ≤ mblk C f x < hi;
  bo_inj : ∀ k f x l g y, fs !! k = Some f → fs !! l = Some g → slot x → slot y →
    m_has f x = true → m_has g y = true → mblk C f x = mblk C g y → k = l ∧ x = y;
  bo_fresh : ∀ b a, hi ≤ b < FSSIZE → 0 ≤ a < BSIZE → C b a = 0
}.

(** A block map depends on the inode and on the indirect block. *)
Lemma mblk_frame C C' f x :
  (m_has f (-1) = true → ∀ a, 0 ≤ a < BSIZE → C' (mblk C f (-1)) a = C (mblk C f (-1)) a) →
  stored C f → slot x → mblk C' f x = mblk C f x.
Proof.
  intros He Hs Hx. unfold mblk, map_block in *. change (-1 =? -1) with true in He. cbv iota in He.
  destruct (Z.eqb_spec x (-1)); [done|]. destruct (Z.ltb_spec x NDIRECT); [done|].
  destruct (Z.eqb_spec (nth (Z.to_nat NDIRECT) (m_addrs f) 0) 0) as [|Hi]; [done|].
  apply load32_ext. intros a Ha. apply He.
  - apply (st_map _ _ Hs (-1)); [unfold slot, MAXFILE, NDIRECT, NINDIRECT; lia|done].
  - unfold slot, MAXFILE, NDIRECT, NINDIRECT, BSIZE in *. lia.
Qed.

(** A file is unaffected by writes to other blocks. *)
Lemma stored_frame C C' f :
  (∀ x a, slot x → m_has f x = true → 0 ≤ a < BSIZE → C' (mblk C f x) a = C (mblk C f x) a) →
  stored C f → stored C' f ∧ ∀ x, slot x → mblk C' f x = mblk C f x.
Proof.
  intros He Hs.
  assert (Hm : ∀ x, slot x → mblk C' f x = mblk C f x).
  { intros x Hx. apply mblk_frame; [|done..]. intros Hi a Ha.
    apply He; [unfold slot, MAXFILE, NDIRECT, NINDIRECT; lia|done..]. }
  split; [|done]. destruct Hs as [H1 H2 H3 H4 H5 H6]. split; try done.
  - intros x Hx. rewrite Hm by done. by apply H2.
  - intros x a Hx Ha Hh. assert (slot x) by (unfold slot; lia). rewrite Hm by done.
    rewrite He by done. by apply H6.
Qed.

Definition gain (y : Z) (f : mfile) (addrs : list Z) : mfile :=
  MFile addrs (λ x, (x =? y) || m_has f x) (m_data f).

Section grow.
Context (C C' : Z → mem) (hi : Z) (fs : list mfile) (k : nat) (f : mfile) (y : Z) (addrs : list Z).
Hypothesis HB : blocks_ok C hi fs.
Hypothesis Hk : fs !! k = Some f.
Hypothesis Hroom : hi < FSSIZE.
Hypothesis Hy : slot y.
Hypothesis Hfree : m_has f y = false.
Hypothesis Hind : NDIRECT ≤ y → m_has f (-1) = true.
Hypothesis Hlen : length addrs = 13%nat.
Hypothesis Hat : mblk C' (gain y f addrs) y = hi.
Hypothesis Helse : ∀ x, slot x → x ≠ y → mblk C' (gain y f addrs) x = mblk C f x.
Hypothesis Hframe : ∀ b, (m_has f (-1) = true → b ≠ mblk C f (-1)) → C' b = C b.

Lemma grow_has x : m_has (gain y f addrs) x = (x =? y) || m_has f x.
Proof. done. Qed.

(** The indirect block belongs to [f] alone. *)
Lemma grow_other l g x : fs !! l = Some g → slot x → m_has g x = true →
  l ≠ k ∨ x ≠ -1 → C' (mblk C g x) = C (mblk C g x).
Proof.
  intros Hl Hx Hg Hne. apply Hframe. intros Hi E.
  destruct (bo_inj _ _ _ HB l g x k f (-1) Hl Hk Hx slot_ind Hg Hi E). by destruct Hne.
Qed.

Lemma grow_stored : stored C' (gain y f addrs).
Proof.
  pose proof (bo_stored _ _ _ HB k f Hk) as [H1 H2 H3 H4 H5 H6].
  pose proof (bo_hi _ _ _ HB) as Hhi. assert (0 < nmeta) by (vm_compute; done).
  split; cbn [m_data gain m_addrs]; try done.
  - intros x Hx. rewrite grow_has. destruct (Z.eqb_spec x y) as [->|Hne]; cbn [orb].
    + rewrite Hat. split; [done|lia].
    + rewrite Helse by done. by apply H2.
  - intros x Hx. rewrite !grow_has. destruct (Z.eqb_spec x y) as [->|Hne]; cbn [orb].
    + intros _. rewrite Hind by lia. by rewrite orb_true_r.
    + intros Hh. rewrite (H3 x) by done. by rewrite orb_true_r.
  - intros o Ho. rewrite grow_has, H4 by done. by rewrite orb_true_r.
  - intros x a Hx Ha. assert (Hsx : slot x) by (unfold slot; lia).
    rewrite grow_has. destruct (Z.eqb_spec x y) as [->|Hne]; cbn [orb].
    + intros _. rewrite Hat, Hframe.
      * rewrite (bo_fresh _ _ _ HB) by lia. rewrite nth_overflow; [done|].
        destruct (Nat.le_gt_cases (length (m_data f)) (Z.to_nat (y * BSIZE + a))) as [|Hlt]; [done|].
        unfold BSIZE in *. specialize (H4 (y * 512 + a) ltac:(lia)).
        rewrite Z.div_add_l, Z.div_small, Z.add_0_r in H4 by lia. congruence.
      * intros Hi ->. pose proof (bo_range _ _ _ HB k f (-1) Hk slot_ind Hi). lia.
    + intros Hh. rewrite Helse by done. rewrite (grow_other k f x) by (done || lia). by apply H6.
Qed.

Lemma grow_blocks : blocks_ok C' (hi + 1) (<[k := gain y f addrs]> fs).
Proof.
  pose proof (bo_hi _ _ _ HB) as Hhi. pose proof (lookup_lt_Some _ _ _ Hk) as Hkl.
  assert (Hf : ∀ l g, l ≠ k → fs !! l = Some g → stored C' g ∧ ∀ x, slot x → mblk C' g x = mblk C g x).
  { intros l g Hl Hg. apply stored_frame; [|by apply (bo_stored _ _ _ HB l)].
    intros x a Hx Hh Ha. rewrite (grow_other l) by auto. done. }
  assert (Hl : ∀ l g, <[k := gain y f addrs]> fs !! l = Some g →
    (l = k ∧ g = gain y f addrs) ∨ (l ≠ k ∧ fs !! l = Some g)).
  { intros l g E. destruct (decide (l = k)) as [->|]; [left|right].
    - rewrite list_lookup_insert_eq in E by done. by injection E as <-.
    - by rewrite list_lookup_insert_ne in E by done. }
  (* where the block of a slot was before, or that it is the new one *)
  assert (Hold : ∀ l g x, <[k := gain y f addrs]> fs !! l = Some g → slot x → m_has g x = true →
    (l = k ∧ x = y ∧ mblk C' g x = hi) ∨
    (∃ g', fs !! l = Some g' ∧ m_has g' x = true ∧ mblk C' g x = mblk C g' x ∧ nmeta ≤ mblk C' g x < hi)).
  { intros l g x Hg Hx Hh. destruct (Hl l g Hg) as [[-> ->]|[Hne Hg']].
    - rewrite grow_has in Hh. destruct (Z.eqb_spec x y) as [->|Hxy]; [by left|right].
      exists f. rewrite Helse by done. pose proof (bo_range _ _ _ HB k f x Hk Hx Hh). done.
    - right. exists g. destruct (Hf l g Hne Hg') as [_ ->]; [|done].
      pose proof (bo_range _ _ _ HB l g x Hg' Hx Hh). done. }
  split.
  - lia.
  - intros l g Hg. destruct (Hl l g Hg) as [[-> ->]|[Hne Hg']]; [apply grow_stored|by eapply Hf].
  - intros l g x Hg Hx Hh. destruct (Hold l g x Hg Hx Hh) as [(_ & _ & ->)|(_ & _ & _ & _ & ?)]; lia.
  - intros l g x l' g' x' Hg Hg' Hx Hx' Hh Hh' E.
    destruct (Hold l g x Hg Hx Hh) as [(-> & -> & E1)|(g1 & ? & ? & E1 & ?)],
      (Hold l' g' x' Hg' Hx' Hh') as [(-> & -> & E2)|(g2 & ? & ? & E2 & ?)]; try (done || lia).
    apply (bo_inj _ _ _ HB l g1 x l' g2 x'); try done. congruence.
  - intros b a Hb Ha. rewrite Hframe; [by apply (bo_fresh _ _ _ HB); lia|].
    intros Hi ->. pose proof (bo_range _ _ _ HB k f (-1) Hk slot_ind Hi). lia.
Qed.

End grow.

Definition extend (f : mfile) (l : list Z) : mfile := MFile (m_addrs f) (m_has f) (m_data f ++ l).

Section write.
Context (C : Z → mem) (hi : Z) (fs : list mfile) (k : nat) (f : mfile) (l : list Z).
Notation off := (Z.of_nat (length (m_data f))).
Notation x := (off / BSIZE).
Notation b := (mblk C f x).
Notation C' := (<[b := put_bytes (C b) (off mod BSIZE) l]> C).
Hypothesis HB : blocks_ok C hi fs.
Hypothesis Hk : fs !! k = Some f.
Hypothesis Hhas : m_has f x = true.
Hypothesis Hfit : off mod BSIZE + Z.of_nat (length l) ≤ BSIZE.
Hypothesis Hpos : l ≠ [].
Hypothesis Hmax : off + Z.of_nat (length l) ≤ MAXFILE * BSIZE.

Lemma write_slot : 0 ≤ x < MAXFILE ∧ slot x.
Proof.
  clear Hfit. assert (0 < Z.of_nat (length l)) by (destruct l; [done|cbn; lia]).
  unfold slot, MAXFILE, NDIRECT, NINDIRECT, BSIZE in *. Z.to_euclidean_division_equations. lia.
Qed.

(** Only the block of slot [x] of file [k] changes. *)
Lemma write_other m g y : fs !! m = Some g → slot y → m_has g y = true →
  m ≠ k ∨ y ≠ x → C' (mblk C g y) = C (mblk C g y).
Proof.
  intros Hm Hy Hg Hne. apply fn_lookup_insert_ne. intros E. destruct write_slot as [_ Hx].
  destruct (bo_inj _ _ _ HB k f x m g y Hk Hm Hx Hy Hhas Hg E). subst. by destruct Hne.
Qed.

Lemma write_maps m g y : fs !! m = Some g → slot y → mblk C' g y = mblk C g y.
Proof.
  intros Hm Hy. apply mblk_frame; [|by apply (bo_stored _ _ _ HB m)|done].
  intros Hi a Ha. rewrite (write_other m g (-1)); [done..|apply slot_ind|done|].
  right. destruct write_slot. lia.
Qed.

Lemma write_stored : stored C' (extend f l).
Proof.
  pose proof (bo_stored _ _ _ HB k f Hk) as [H1 H2 H3 H4 H5 H6]. destruct write_slot as [Hx Hsx].
  assert (Hm : ∀ y, slot y → mblk C' (extend f l) y = mblk C f y) by (intros y; by apply (write_maps k f)).
  split; cbn [m_addrs m_has m_data extend]; rewrite ?length_app, ?Nat2Z.inj_add; try done.
  - intros y Hy. rewrite Hm by done. by apply H2.
  - intros o Ho. destruct (Z.lt_ge_cases o off) as [Hlt|Hge]; [apply H4; lia|].
    replace (o / BSIZE) with x; [done|].
    unfold BSIZE in *. clear -Hfit Ho Hge. Z.to_euclidean_division_equations. lia.
  - intros y a Hy Ha Hh. assert (Hsy : slot y) by (unfold slot; lia). rewrite Hm by done.
    destruct (decide (y = x)) as [->|Hne].
    + rewrite fn_lookup_insert, put_bytes_at. case_decide as Hin.
      * rewrite app_nth2 by (unfold BSIZE in *; clear -Hin Ha; Z.to_euclidean_division_equations; lia).
        f_equal. unfold BSIZE in *. clear -Hin Ha. Z.to_euclidean_division_equations. lia.
      * rewrite H6 by done. destruct (Z.lt_ge_cases (x * BSIZE + a) off) as [Hlt|Hge].
        -- rewrite app_nth1; [done|]. unfold BSIZE in *. lia.
        -- rewrite !nth_overflow; [done|rewrite length_app|];
             unfold BSIZE in *; clear -Hin Hge Ha Hfit; Z.to_euclidean_division_equations; lia.
    + rewrite (write_other k f y) by auto. rewrite H6 by done.
      destruct (Z.lt_ge_cases (y * BSIZE + a) off) as [Hlt|Hge].
      * rewrite app_nth1; [done|]. unfold BSIZE in *. lia.
      * rewrite !nth_overflow; [done|rewrite length_app|];
          unfold BSIZE in *; clear -Hne Hge Ha Hfit; Z.to_euclidean_division_equations; lia.
Qed.

Lemma write_blocks : blocks_ok C' hi (<[k := extend f l]> fs).
Proof.
  pose proof (lookup_lt_Some _ _ _ Hk) as Hkl.
  (* the block of a slot is where it was *)
  assert (Hold : ∀ m g, <[k := extend f l]> fs !! m = Some g →
    ∃ g', fs !! m = Some g' ∧ m_has g = m_has g' ∧ ∀ y, slot y → mblk C' g y = mblk C g' y).
  { intros m g Hg. destruct (decide (m = k)) as [->|Hne].
    - rewrite list_lookup_insert_eq in Hg by done. injection Hg as <-. exists f.
      split; [done|]. split; [done|]. intros y. by apply (write_maps k f).
    - rewrite list_lookup_insert_ne in Hg by done. exists g. split; [done|]. split; [done|].
      intros y. by apply (write_maps m). }
  split.
  - apply HB.
  - intros m g Hg. destruct (decide (m = k)) as [->|Hne].
    + rewrite list_lookup_insert_eq in Hg by done. injection Hg as <-. apply write_stored.
    + rewrite list_lookup_insert_ne in Hg by done.
      apply (stored_frame C); [|by apply (bo_stored _ _ _ HB m)].
      intros y a Hy Hh _. rewrite (write_other m) by auto. done.
  - intros m g y Hg Hy Hh. destruct (Hold m g Hg) as (g' & Hg' & Hhs & Hm).
    rewrite Hm by done. rewrite Hhs in Hh. by apply (bo_range _ _ _ HB m g').
  - intros m g y m' g' y' Hg Hg' Hy Hy' Hh Hh' E.
    destruct (Hold m g Hg) as (g1 & H1 & E1 & M1), (Hold m' g' Hg') as (g2 & H2 & E2 & M2).
    rewrite E1 in Hh. rewrite E2 in Hh'. rewrite M1, M2 in E by done.
    by apply (bo_inj _ _ _ HB m g1 y m' g2 y').
  - intros c a Hc Ha. rewrite fn_lookup_insert_ne; [by apply (bo_fresh _ _ _ HB)|].
    intros <-. destruct write_slot as [_ Hx]. pose proof (bo_range _ _ _ HB k f x Hk Hx Hhas). lia.
Qed.

End write.

Section allocate.
Context (C : Z → mem) (hi : Z) (fs : list mfile) (k : nat) (f : mfile).
Hypothesis HB : blocks_ok C hi fs.
Hypothesis Hk : fs !! k = Some f.
Hypothesis Hroom : hi < FSSIZE.

Lemma unmapped y : slot y → m_has f y = false → mblk C f y = 0.
Proof.
  intros Hy Hf. destruct (decide (mblk C f y = 0)) as [|Hn]; [done|].
  apply (st_map _ _ (bo_stored _ _ _ HB k f Hk)) in Hn; [congruence|done].
Qed.

(** A block for a word of the inode. *)
Lemma grow_addr y : -1 ≤ y < NDIRECT → m_has f y = false →
  let f' := gain y f (<[addr_index y := hi]> (m_addrs f)) in
  blocks_ok C (hi + 1) (<[k := f']> fs) ∧ mblk C f' y = hi.
Proof.
  intros Hy Hf f'. pose proof (bo_stored _ _ _ HB k f Hk) as Hs. pose proof (bo_hi _ _ _ HB).
  assert (Hsy : slot y) by (unfold slot, MAXFILE, NDIRECT, NINDIRECT in *; lia).
  assert (0 < nmeta) by (vm_compute; done).
  assert (Hm : ∀ x, slot x → mblk C f' x = if decide (x = y) then hi else mblk C f x).
  { intros x Hx. apply map_block_insert; try done; [apply Hs|lia|by apply unmapped|].
    intros o Ho. apply (bo_fresh _ _ _ HB); [lia|done]. }
  assert (Hat : mblk C f' y = hi) by (by rewrite Hm, decide_True).
  split; [|done]. apply (grow_blocks C C hi fs k f y); try done; [lia| |].
  - rewrite length_insert. apply Hs.
  - intros x Hx Hne. fold f'. by rewrite Hm, decide_False.
Qed.

(** A block for a word of the indirect block. *)
Lemma grow_far y : NDIRECT ≤ y < MAXFILE → m_has f y = false → m_has f (-1) = true →
  let ind := mblk C f (-1) in
  let C' := <[ind := store32 (C ind) (4 * (y - NDIRECT)) hi]> C in
  let f' := gain y f (m_addrs f) in
  blocks_ok C' (hi + 1) (<[k := f']> fs) ∧ mblk C' f' y = hi ∧ mblk C' f' (-1) = ind.
Proof.
  intros Hy Hf Hi ind C' f'. pose proof (bo_stored _ _ _ HB k f Hk) as Hs. pose proof (bo_hi _ _ _ HB).
  assert (Hsy : slot y) by (unfold slot, MAXFILE, NDIRECT, NINDIRECT in *; lia).
  pose proof (bo_range _ _ _ HB k f (-1) Hk slot_ind Hi) as Hr. fold ind in Hr.
  assert (0 < nmeta) by (vm_compute; done).
  assert (Hlow : ∀ x, x < NDIRECT → mblk C' f' x = mblk C f x).
  { intros x Hx. unfold mblk, map_block. by rewrite (proj2 (Z.ltb_lt x NDIRECT)). }
  assert (Hm : ∀ x, NDIRECT ≤ x → mblk C' f' x = load32 (C' ind) (4 * (x - NDIRECT)) ∧
    mblk C f x = load32 (C ind) (4 * (x - NDIRECT))).
  { intros x Hx. unfold mblk, map_block. cbn [m_addrs f' gain]. change (nth (Z.to_nat NDIRECT) (m_addrs f) 0) with ind.
    rewrite (proj2 (Z.eqb_neq x (-1))), (proj2 (Z.ltb_ge x NDIRECT)), (proj2 (Z.eqb_neq ind 0))
      by (unfold NDIRECT in *; lia). done. }
  assert (HC : C' ind = store32 (C ind) (4 * (y - NDIRECT)) hi) by apply fn_lookup_insert.
  assert (Hat : mblk C' f' y = hi).
  { destruct (Hm y) as [-> _]; [lia|]. rewrite HC, load32_store32. apply u32_small. unfold FSSIZE in *. lia. }
  split; [|split; [done|by apply Hlow]]. apply (grow_blocks C C' hi fs k f y); try done.
  - apply Hs.
  - intros x Hx Hne. fold f'. destruct (Z.lt_ge_cases x NDIRECT) as [Hlt|Hge]; [by apply Hlow|].
    destruct (Hm x Hge) as [-> ->]. rewrite HC. apply load32_ext. intros o Ho. apply store32_out. lia.
  - intros b Hb. apply fn_lookup_insert_ne. intros <-. by apply Hb.
Qed.

End allocate.

(** ** Running the functions *)

(** The super block [main] computes. *)
Definition super : superblock :=
  Sb FSSIZE nblocks NINODES nlog 2 (2 + nlog) (2 + nlog + ninodeblocks).

(** A state of the program once the image has been cleared. *)
Definition running (C : Z → mem) (n hi : Z) : mk := Mk C FSSIZE super n hi.

Lemma sect_small b : 0 ≤ b < FSSIZE → u32 (b * BSIZE) / BSIZE = b.
Proof. unfold FSSIZE, BSIZE. intros Hb. rewrite u32_small by lia. apply Z.div_mul. lia. Qed.

Lemma rsect_run b C n hi : 0 ≤ b < FSSIZE → rsect b (running C n hi) = Done (C b, running C n hi).
Proof.
  intros Hb. unfold rsect. rewrite sect_small, run_getS by done. cbn [nsect running].
  by rewrite (proj2 (Z.ltb_lt b FSSIZE)) by lia.
Qed.

Lemma wsect_run b m C n hi : 0 ≤ b < FSSIZE → wsect b m (running C n hi) = Done ((), running (<[b := m]> C) n hi).
Proof.
  intros Hb. unfold wsect. rewrite sect_small by done. unfold modS, set_img, running. cbn.
  by rewrite Z.max_l by lia.
Qed.

Lemma next_block_run C n hi : nmeta ≤ hi < FSSIZE →
  next_block (running C n hi) = Done (hi, running C n (hi + 1)).
Proof.
  intros Hh. assert (0 < nmeta) by (vm_compute; done). unfold FSSIZE in Hh.
  unfold next_block. rewrite run_gets, run_modS, xint_u32. cbn [freeblock running].
  unfold set_freeblock, running. cbn. by rewrite !u32_small by lia.
Qed.

(** Blocks [block_for] takes. *)
Definition more (f : mfile) (fbn : Z) : Z :=
  (if m_has f fbn then 0 else 1) + (if (NDIRECT <=? fbn) && negb (m_has f (-1)) then 1 else 0).

(** File [f] with a block for [fbn]. *)
Record given (C C' : Z → mem) (f f' : mfile) (fbn : Z) : Prop := Given {
  gi_data : m_data f' = m_data f;
  gi_has : ∀ x, m_has f' x = (x =? fbn) || ((NDIRECT <=? fbn) && (x =? -1)) || m_has f x;
  gi_meta : ∀ b, b < nmeta → C' b = C b
}.

Section block_for.
Context (C : Z → mem) (n hi : Z) (fs : list mfile) (k : nat) (f : mfile) (din : inode).
Hypothesis HB : blocks_ok C hi fs.
Hypothesis Hk : fs !! k = Some f.
Hypothesis Hdin : i_addrs din = m_addrs f.

Lemma mapped_word x : slot x → m_has f x = true → mblk C f x ≠ 0 ∧ xint (mblk C f x) = mblk C f x.
Proof.
  intros Hx Hh. pose proof (bo_range _ _ _ HB k f x Hk Hx Hh). pose proof (bo_hi _ _ _ HB).
  assert (0 < nmeta) by (vm_compute; done). rewrite xint_u32. unfold FSSIZE in *.
  rewrite u32_small by lia. lia.
Qed.

Lemma same_din : set_i_addrs (m_addrs f) din = din.
Proof. rewrite <- Hdin. by destruct din. Qed.

Lemma block_for_direct fbn : 0 ≤ fbn < NDIRECT → hi + more f fbn ≤ FSSIZE →
  ∃ f', block_for din fbn (running C n hi) =
      Done ((set_i_addrs (m_addrs f') din, mblk C f' fbn), running C n (hi + more f fbn)) ∧
    blocks_ok C (hi + more f fbn) (<[k := f']> fs) ∧ given C C f f' fbn.
Proof.
  intros Hf Hroom. pose proof (bo_hi _ _ _ HB) as Hhi. pose proof (bo_stored _ _ _ HB k f Hk) as Hs.
  assert (Hslot : slot fbn) by (unfold slot, MAXFILE, NINDIRECT, NDIRECT in *; lia).
  assert (Hat : ∀ g, nth (Z.to_nat fbn) (m_addrs g) 0 = mblk C g fbn).
  { intros g. unfold mblk, map_block. by rewrite (proj2 (Z.eqb_neq fbn (-1))), (proj2 (Z.ltb_lt fbn NDIRECT)) by lia. }
  unfold block_for, more in *. rewrite (proj2 (Z.ltb_lt fbn NDIRECT)), Hdin, Hat by lia.
  rewrite (proj2 (Z.leb_gt NDIRECT fbn)) in * by lia. cbn [andb] in *.
  destruct (m_has f fbn) eqn:Hh.
  - destruct (mapped_word fbn Hslot Hh) as [Hn0 Hx]. rewrite Hx, (proj2 (Z.eqb_neq _ 0)), run_ret, Hdin, Hat by done.
    exists f. rewrite Hx, same_din, list_insert_id by done.
    replace (hi + (0 + 0)) with hi by lia. split_and!; [done..|]. split; [done| |done].
    intros x. rewrite (proj2 (Z.leb_gt NDIRECT fbn)) by lia. cbn [andb]. destruct (Z.eqb_spec x fbn); by subst.
  - rewrite (unmapped C hi fs k f) by done. change (xint 0 =? 0) with true. cbv iota.
    destruct (grow_addr C hi fs k f HB Hk ltac:(lia) fbn ltac:(lia) Hh) as [HB' Hm].
    set (f' := gain _ _ _) in *. exists f'.
    rewrite (bind_done _ _ _ (set_i_addrs (m_addrs f') din) (running C n (hi + 1))).
    2: { rewrite (bind_done _ _ _ _ _ (next_block_run C n hi ltac:(lia))). cbn [m_addrs f' gain].
      unfold addr_index. by rewrite decide_False by lia. }
    cbn [i_addrs set_i_addrs]. rewrite Hat, Hm, xint_u32. unfold FSSIZE in *.
    assert (0 < nmeta) by (vm_compute; done). rewrite u32_small by lia.
    replace (hi + (1 + 0)) with (hi + 1) by lia. split_and!; [done..|]. split; [done| |done].
    intros x. rewrite (proj2 (Z.leb_gt NDIRECT fbn)) by lia. cbn [andb]. by rewrite orb_false_r.
Qed.

Lemma need_indirect_run : hi + (if m_has f (-1) then 0 else 1) ≤ FSSIZE →
  ∃ f1, let hi1 := hi + (if m_has f (-1) then 0 else 1) in
    need_indirect din (running C n hi) = Done (set_i_addrs (m_addrs f1) din, running C n hi1) ∧
    blocks_ok C hi1 (<[k := f1]> fs) ∧ m_data f1 = m_data f ∧ ∀ x, m_has f1 x = (x =? -1) || m_has f x.
Proof.
  intros Hroom. pose proof (bo_hi _ _ _ HB) as Hhi. unfold need_indirect.
  rewrite Hdin. change (nth (Z.to_nat NDIRECT) (m_addrs f) 0) with (mblk C f (-1)).
  destruct (m_has f (-1)) eqn:Hh.
  - destruct (mapped_word (-1) slot_ind Hh) as [Hn0 Hx]. rewrite Hx, (proj2 (Z.eqb_neq _ 0)) by done.
    exists f. cbv zeta. rewrite same_din, Z.add_0_r, list_insert_id by done. split_and!; [done..|].
    intros x. destruct (Z.eqb_spec x (-1)); by subst.
  - rewrite (unmapped C hi fs k f) by (done || apply slot_ind). change (xint 0 =? 0) with true. cbv iota.
    destruct (grow_addr C hi fs k f HB Hk ltac:(lia) (-1) ltac:(unfold NDIRECT; lia) Hh) as [HB' _].
    eexists. cbv zeta. split; [|split; [exact HB'|by split]].
    by rewrite (bind_done _ _ _ _ _ (next_block_run C n hi ltac:(lia))).
Qed.

Lemma need_word_run fbn : NDIRECT ≤ fbn < MAXFILE → m_has f (-1) = true →
  hi + (if m_has f fbn then 0 else 1) ≤ FSSIZE →
  ∃ C' f1, let hi1 := hi + (if m_has f fbn then 0 else 1) in
    need_word (mblk C f (-1)) fbn (running C n hi) = Done (mblk C' f1 fbn, running C' n hi1) ∧
    blocks_ok C' hi1 (<[k := f1]> fs) ∧ m_addrs f1 = m_addrs f ∧ m_data f1 = m_data f ∧
    (∀ x, m_has f1 x = (x =? fbn) || m_has f x) ∧ (∀ b, b < nmeta → C' b = C b).
Proof.
  intros Hf Hi Hroom. pose proof (bo_hi _ _ _ HB) as Hhi. assert (0 < nmeta) by (vm_compute; done).
  assert (Hslot : slot fbn) by (unfold slot, NDIRECT in *; lia).
  pose proof (bo_range _ _ _ HB k f (-1) Hk slot_ind Hi) as Hr.
  assert (Hat : load32 (C (mblk C f (-1))) (4 * (fbn - NDIRECT)) = mblk C f fbn).
  { unfold mblk at 2, map_block. change (nth (Z.to_nat NDIRECT) (m_addrs f) 0) with (mblk C f (-1)).
    by rewrite (proj2 (Z.eqb_neq fbn (-1))), (proj2 (Z.ltb_ge fbn NDIRECT)),
      (proj2 (Z.eqb_neq (mblk C f (-1)) 0)) by (unfold NDIRECT in *; lia). }
  unfold need_word. rewrite (bind_done _ _ _ _ _ (rsect_run (mblk C f (-1)) C n hi ltac:(lia))), Hat.
  destruct (m_has f fbn) eqn:Hh.
  - destruct (mapped_word fbn Hslot Hh) as [Hn0 Hx]. rewrite (proj2 (Z.eqb_neq _ 0)), run_ret, Hat by done.
    exists C, f. cbv zeta. rewrite Hx, Z.add_0_r, list_insert_id by done. split_and!; try done.
    intros x. destruct (Z.eqb_spec x fbn); by subst.
  - rewrite (unmapped C hi fs k f) by done. change (0 =? 0) with true. cbv iota.
    destruct (grow_far C hi fs k f HB Hk ltac:(lia) fbn Hf Hh Hi) as (HB' & Hm & _).
    erewrite bind_done.
    2: { rewrite (bind_done _ _ _ _ _ (next_block_run C n hi ltac:(lia))).
      rewrite (bind_done _ _ _ _ _ (wsect_run (mblk C f (-1)) _ C n _ ltac:(lia))). reflexivity. }
    eexists _, _. cbv zeta. split; [|split; [exact HB'|]].
    + rewrite Hm, load32_store32, xint_u32, u32_u32, u32_small by (unfold FSSIZE in *; lia). done.
    + split_and!; try done. intros b Hb. apply fn_lookup_insert_ne. lia.
Qed.

End block_for.

Lemma block_for_run C n hi fs k f din fbn :
  blocks_ok C hi fs → fs !! k = Some f → i_addrs din = m_addrs f →
  0 ≤ fbn < MAXFILE → hi + more f fbn ≤ FSSIZE →
  ∃ C' f', block_for din fbn (running C n hi) =
      Done ((set_i_addrs (m_addrs f') din, mblk C' f' fbn), running C' n (hi + more f fbn)) ∧
    blocks_ok C' (hi + more f fbn) (<[k := f']> fs) ∧ given C C' f f' fbn.
Proof.
  intros HB Hk Hdin Hf Hroom. destruct (Z.lt_ge_cases fbn NDIRECT) as [Hlt|Hge].
  { destruct (block_for_direct C n hi fs k f din HB Hk Hdin fbn) as (f' & H); [lia|done|]. by exists C, f'. }
  pose proof (lookup_lt_Some _ _ _ Hk) as Hkl.
  unfold block_for, more in *. rewrite (proj2 (Z.ltb_ge fbn NDIRECT)) by lia.
  rewrite (proj2 (Z.leb_le NDIRECT fbn)) in * by lia. cbn [andb] in *.
  destruct (need_indirect_run C n hi fs k f din HB Hk Hdin) as (f1 & E1 & HB1 & Hd1 & Hh1).
  { destruct (m_has f (-1)), (m_has f fbn); cbn [negb] in *; lia. }
  rewrite (bind_done _ _ _ _ _ E1). clear E1. cbn [i_addrs set_i_addrs].
  set (hi1 := hi + (if m_has f (-1) then 0 else 1)) in *.
  assert (Hk1 : <[k := f1]> fs !! k = Some f1) by (by apply list_lookup_insert_eq).
  assert (Hi1 : m_has f1 (-1) = true) by (by rewrite Hh1).
  assert (Hf1 : m_has f1 fbn = m_has f fbn).
  { rewrite Hh1. by rewrite (proj2 (Z.eqb_neq fbn (-1))) by lia. }
  destruct (mapped_word C hi1 _ k f1 HB1 Hk1 (-1) slot_ind Hi1) as [_ Hx].
  change (nth (Z.to_nat NDIRECT) (m_addrs f1) 0) with (mblk C f1 (-1)). rewrite Hx.
  destruct (need_word_run C n hi1 _ k f1 HB1 Hk1 fbn) as (C' & f2 & E2 & HB2 & Ha2 & Hd2 & Hh2 & Hm2);
    [lia|done| |].
  { rewrite Hf1. unfold hi1. destruct (m_has f (-1)), (m_has f fbn); cbn [negb] in *; lia. }
  rewrite (bind_done _ _ _ _ _ E2), <- Ha2. rewrite list_insert_insert_eq in HB2.
  replace (hi + _) with (hi1 + (if m_has f1 fbn then 0 else 1)).
  2: { rewrite Hf1. unfold hi1. destruct (m_has f (-1)), (m_has f fbn); cbn [negb] in *; lia. }
  exists C', f2. split; [done|]. split; [done|]. split; [congruence| |done].
  intros x. rewrite Hh2, Hh1, (proj2 (Z.leb_le NDIRECT fbn)) by lia. cbn [andb]. by rewrite orb_assoc.
Qed.

(** ** Appending *)

(** The slots a file of [n] bytes uses, and how many they are. *)
Definition needed (n x : Z) : bool := if x =? -1 then NDIRECT * BSIZE <? n else x * BSIZE <? n.

Definition cost (n : Z) : Z := (n + BSIZE - 1) / BSIZE + (if NDIRECT * BSIZE <? n then 1 else 0).

Definition size (f : mfile) : Z := Z.of_nat (length (m_data f)).

(** The slots in use are those the size asks for. *)
Definition full (f : mfile) : Prop := ∀ x, slot x → m_has f x = needed (size f) x.

(** What fits in the block of offset [off]. *)
Definition piece (off : Z) (p : list Z) : Z := Z.of_nat (length p) `min` (BSIZE - off mod BSIZE).

Lemma piece_bounds off p : 0 ≤ off → p ≠ [] →
  0 < piece off p ≤ Z.of_nat (length p) ∧ off mod BSIZE + piece off p ≤ BSIZE.
Proof.
  intros Ho Hp. assert (0 < Z.of_nat (length p)) by (destruct p; [done|cbn; lia]).
  unfold piece, BSIZE in *. Z.to_euclidean_division_equations. lia.
Qed.

Lemma needed_more n c x : 0 ≤ n → 0 < c → n mod BSIZE + c ≤ BSIZE → slot x →
  needed (n + c) x = (x =? n / BSIZE) || ((NDIRECT <=? n / BSIZE) && (x =? -1)) || needed n x.
Proof.
  intros Hn Hc Hf Hx. unfold needed, slot, NDIRECT, BSIZE in *.
  destruct (Z.eqb_spec x (-1)) as [->|Hne].
  - apply eq_true_iff_eq. rewrite !orb_true_iff, andb_true_iff, !Z.ltb_lt, Z.eqb_eq, Z.leb_le.
    Z.to_euclidean_division_equations. lia.
  - rewrite andb_false_r, orb_false_r.
    apply eq_true_iff_eq. rewrite orb_true_iff, !Z.ltb_lt, Z.eqb_eq.
    Z.to_euclidean_division_equations. lia.
Qed.

Lemma cost_more f c : full f → 0 < c → size f mod BSIZE + c ≤ BSIZE → size f + c ≤ MAXFILE * BSIZE →
  cost (size f + c) = cost (size f) + more f (size f / BSIZE).
Proof.
  intros Hf Hc Hfit Hmax. assert (0 ≤ size f) by (unfold size; lia). unfold more.
  assert (slot (size f / BSIZE)).
  { unfold slot, MAXFILE, NDIRECT, NINDIRECT, BSIZE in *. Z.to_euclidean_division_equations. lia. }
  rewrite !Hf by (done || apply slot_ind). unfold cost, needed, BSIZE, NDIRECT in *. change (-1 =? -1) with true. cbv iota.
  rewrite (proj2 (Z.eqb_neq (size f / 512) (-1))) by (Z.to_euclidean_division_equations; lia).
  destruct (Z.ltb_spec (12 * 512) (size f + c)), (Z.ltb_spec (12 * 512) (size f)),
    (Z.ltb_spec (size f / 512 * 512) (size f)), (Z.leb_spec 12 (size f / 512)); cbn [andb negb];
    Z.to_euclidean_division_equations; lia.
Qed.

(** One round of the loop of [iappend]. *)
Lemma append_round C n hi fs k f din p :
  blocks_ok C hi fs → fs !! k = Some f → i_addrs din = m_addrs f → full f → p ≠ [] →
  let c := piece (size f) p in let hi' := hi + more f (size f / BSIZE) in
  size f + c ≤ MAXFILE * BSIZE → hi' ≤ FSSIZE →
  ∃ C' f', blocks_ok C' hi' (<[k := f']> fs) ∧ m_data f' = m_data f ++ take (Z.to_nat c) p ∧ full f' ∧
    (∀ b, b < nmeta → C' b = C b) ∧
    ∀ fuel, iappend_loop (S fuel) din (size f) p (running C n hi) =
      iappend_loop fuel (set_i_addrs (m_addrs f') din) (size f + c) (drop (Z.to_nat c) p) (running C' n hi').
Proof.
  intros HB Hk Hdin Hf Hp c hi' Hmax Hroom. assert (Hs0 : 0 ≤ size f) by (unfold size; lia).
  destruct (piece_bounds (size f) p Hs0 Hp) as [Hc Hfit]. fold c in Hc, Hfit.
  pose proof (lookup_lt_Some _ _ _ Hk) as Hkl.
  assert (Hfbn : 0 ≤ size f / BSIZE < MAXFILE).
  { unfold MAXFILE, NDIRECT, NINDIRECT, BSIZE in *. Z.to_euclidean_division_equations. lia. }
  destruct (block_for_run C n hi fs k f din _ HB Hk Hdin Hfbn Hroom) as (C1 & f1 & E1 & HB1 & [Hd1 Hh1 Hm1]).
  fold hi' in E1, HB1.
  assert (Hk1 : <[k := f1]> fs !! k = Some f1) by (by apply list_lookup_insert_eq).
  assert (Hs1 : Z.of_nat (length (m_data f1)) = size f) by (by rewrite Hd1).
  assert (Hh : m_has f1 (size f / BSIZE) = true) by (by rewrite Hh1, Z.eqb_refl).
  set (l := take (Z.to_nat c) p) in *. assert (Hl : Z.of_nat (length l) = c) by (unfold l; rewrite length_take; lia).
  assert (Hslot : slot (size f / BSIZE)) by (unfold slot; lia).
  pose proof (bo_range _ _ _ HB1 k f1 _ Hk1 Hslot Hh) as Hr. assert (0 < nmeta) by (vm_compute; done).
  pose proof (write_blocks C1 hi' _ k f1 l HB1 Hk1) as HB2. rewrite Hs1, Hl, list_insert_insert_eq in HB2.
  set (b := mblk C1 f1 (size f / BSIZE)) in *.
  exists (<[b := put_bytes (C1 b) (size f mod BSIZE) l]> C1), (extend f1 l). split_and!.
  - apply HB2; [done|lia| |lia]. intros E. rewrite E in Hl. cbn in Hl. lia.
  - cbn. by rewrite Hd1.
  - intros x Hx. unfold size at 1. cbn [m_has m_data extend]. rewrite length_app, Nat2Z.inj_add, Hs1, Hl.
    rewrite needed_more by (done || lia). by rewrite Hh1, Hf.
  - intros x Hx. rewrite fn_lookup_insert_ne by lia. by apply Hm1.
  - intros fuel. cbn [iappend_loop]. destruct p as [|p0 p']; [done|]. set (p := p0 :: p') in *.
    rewrite (proj2 (Z.ltb_lt _ MAXFILE)) by lia. unfold massert at 1. rewrite run_ret, (bind_done _ _ _ _ _ E1).
    fold b.
    assert (En : Z.of_nat (length p) `min` u32 ((size f / BSIZE + 1) * BSIZE - size f) = c).
    { unfold c, piece. rewrite u32_small; unfold BSIZE, MAXFILE, NDIRECT, NINDIRECT in *;
        Z.to_euclidean_division_equations; lia. }
    rewrite En. fold l.
    pose proof (bo_hi _ _ _ HB1). rewrite (bind_done _ _ _ _ _ (rsect_run b C1 n hi' ltac:(lia))).
    rewrite (bind_done _ _ _ _ _ (wsect_run b _ C1 n hi' ltac:(lia))).
    replace (size f - size f / BSIZE * BSIZE) with (size f mod BSIZE)
      by (unfold BSIZE; Z.to_euclidean_division_equations; lia).
    rewrite u32_small by (unfold MAXFILE, NDIRECT, NINDIRECT, BSIZE in *; lia). done.
Qed.

Lemma cost_mono a b : 0 ≤ a ≤ b → cost a ≤ cost b.
Proof.
  intros H. unfold cost, NDIRECT, BSIZE.
  destruct (Z.ltb_spec (12 * 512) a), (Z.ltb_spec (12 * 512) b); Z.to_euclidean_division_equations; lia.
Qed.

Lemma append_loop_run n k fuel : ∀ C hi fs f din p,
  (length p ≤ fuel)%nat →
  blocks_ok C hi fs → fs !! k = Some f → i_addrs din = m_addrs f → full f →
  let len := size f + Z.of_nat (length p) in
  len ≤ MAXFILE * BSIZE → hi + (cost len - cost (size f)) ≤ FSSIZE →
  ∃ C' f', let hi' := hi + (cost len - cost (size f)) in
    iappend_loop fuel din (size f) p (running C n hi) = Done ((set_i_addrs (m_addrs f') din, len), running C' n hi') ∧
    blocks_ok C' hi' (<[k := f']> fs) ∧ m_data f' = m_data f ++ p ∧ full f' ∧
    (∀ b, b < nmeta → C' b = C b).
Proof.
  induction fuel as [|fuel IH]; intros C hi fs f din p Hfuel HB Hk Hdin Hf len Hmax Hroom.
  all: destruct (decide (p = [])) as [->|Hp].
  1, 3: exists C, f; cbv zeta; unfold len in *; cbn [length] in *; rewrite Z.add_0_r, Z.sub_diag, Z.add_0_r, app_nil_r;
    rewrite <- Hdin; rewrite list_insert_id by done; split_and!; try done; by destruct din.
  { destruct p; [done|]. cbn in Hfuel. lia. }
  assert (Hs0 : 0 ≤ size f) by (unfold size; lia).
  destruct (piece_bounds (size f) p Hs0 Hp) as [Hc Hfit]. set (c := piece (size f) p) in *.
  pose proof (lookup_lt_Some _ _ _ Hk) as Hkl.
  assert (Hcost : cost (size f + c) = cost (size f) + more f (size f / BSIZE)) by (apply cost_more; [done|lia..]).
  pose proof (cost_mono (size f + c) len) as Hmono.
  destruct (append_round C n hi fs k f din p HB Hk Hdin Hf Hp) as (C1 & f1 & HB1 & Hd1 & Hf1 & Hm1 & Hrun);
    [fold c; lia|lia|]. fold c in Hd1, Hrun. rewrite Hrun.
  assert (Hs1 : size f1 = size f + c).
  { unfold size at 1. rewrite Hd1, length_app, length_take, Nat2Z.inj_add. fold (size f). lia. }
  assert (Hrest : size f1 + Z.of_nat (length (drop (Z.to_nat c) p)) = len).
  { rewrite Hs1, length_drop. unfold len. lia. }
  destruct (IH C1 (hi + more f (size f / BSIZE)) (<[k := f1]> fs) f1 (set_i_addrs (m_addrs f1) din) (drop (Z.to_nat c) p))
    as (C2 & f2 & E2 & HB2 & Hd2 & Hf2 & Hm2); try done;
    [rewrite length_drop; lia|by apply list_lookup_insert_eq|lia|rewrite Hrest, Hs1; lia|].
  rewrite Hrest, Hs1 in E2, HB2.
  replace (hi + more f (size f / BSIZE) + (cost len - cost (size f + c))) with (hi + (cost len - cost (size f))) in * by lia.
  rewrite list_insert_insert_eq in HB2.
  exists C2, f2. cbv zeta. split_and!; [by rewrite E2|done| |done|].
  - by rewrite Hd2, Hd1, <- app_assoc, take_drop.
  - intros b Hb. by rewrite Hm2, Hm1.
Qed.

(** ** Images with inodes *)

Definition iblock (inum : Z) : Z := 2 + nlog + inum / IPB.

(** An inode as [rinode] returns it. *)
Definition din_of (type sz : Z) (addrs : list Z) : inode := Inode 0 0 0 false 0 0 type 0 0 1 sz 0 addrs.

Definition rinum (k : nat) : Z := 1 + Z.of_nat k.

Definition on_image (C : Z → mem) (inum : Z) : inode := get_dinode (C (iblock inum)) inum no_inode.

(** The files of an image with their types; file [k] has inode [rinum k]. *)
Record image (C : Z → mem) (n hi : Z) (fs : list (Z * mfile)) : Prop := Image {
  im_blocks : blocks_ok C hi (fs.*2);
  im_full : ∀ k ty f, fs !! k = Some (ty, f) → full f;
  im_next : n = rinum (length fs) ∧ n ≤ NINODES;
  im_type : ∀ k ty f, fs !! k = Some (ty, f) → ty = T_DIR ∨ ty = T_FILE;
  im_inode : ∀ k ty f, fs !! k = Some (ty, f) → on_image C (rinum k) = din_of ty (size f) (m_addrs f);
  im_sb : C 1 = write_sb super
}.

Lemma iblock_range inum : 0 < inum < NINODES →
  IBLOCK inum super = iblock inum ∧ 1 < iblock inum < nmeta - 1 ∧ 0 ≤ iblock inum < FSSIZE.
Proof.
  unfold IBLOCK, iblock, nmeta, ninodeblocks, nbitmap, nlog, NINODES, LOGSIZE, IPB, FSSIZE, BSIZE. cbn [sb_inodestart super].
  unfold nlog, LOGSIZE. intros Hi. change (200 / 8 + 1) with 26. change (1000 / (512 * 8) + 1) with 1.
  rewrite u32_small by (Z.to_euclidean_division_equations; lia). Z.to_euclidean_division_equations. lia.
Qed.

Lemma row_inum C n hi fs k row : image C n hi fs → fs !! k = Some row → 0 < rinum k < NINODES.
Proof.
  intros HI Hk. apply lookup_lt_Some in Hk. destruct (im_next _ _ _ _ HI). unfold rinum in *. lia.
Qed.

Lemma row_file (fs : list (Z * mfile)) k ty f : fs !! k = Some (ty, f) → fs.*2 !! k = Some f.
Proof. intros Hk. by rewrite list_lookup_fmap, Hk. Qed.

(** The blocks of files are untouched by writes to the metadata. *)
Lemma blocks_ext C C' hi fs : (∀ b, nmeta ≤ b → C' b = C b) → blocks_ok C hi fs → blocks_ok C' hi fs.
Proof.
  intros He HB.
  assert (Hf : ∀ k f, fs !! k = Some f → stored C' f ∧ ∀ x, slot x → mblk C' f x = mblk C f x).
  { intros k f Hk. apply stored_frame; [|by apply (bo_stored _ _ _ HB k)].
    intros x a Hx Hh _. rewrite He; [done|]. by apply (bo_range _ _ _ HB k f). }
  split.
  - apply HB.
  - intros k f Hk. by apply (Hf k).
  - intros k f x Hk Hx Hh. rewrite (proj2 (Hf k f Hk)) by done. by apply (bo_range _ _ _ HB k f).
  - intros k f x l g y Hk Hl Hx Hy Hh Hg. rewrite (proj2 (Hf k f Hk)), (proj2 (Hf l g Hl)) by done.
    by apply (bo_inj _ _ _ HB k f x l g y).
  - intros b a Hb Ha. pose proof (bo_hi _ _ _ HB). rewrite He by lia. by apply (bo_fresh _ _ _ HB).
Qed.

(** The words of an inode are zero or block numbers. *)
Lemma addrs_words C hi fs k f : blocks_ok C hi fs → fs !! k = Some f →
  Forall (λ a, 0 ≤ a < 2 ^ 32) (m_addrs f).
Proof.
  intros HB Hk. pose proof (bo_stored _ _ _ HB k f Hk) as Hs. pose proof (bo_hi _ _ _ HB).
  apply Forall_lookup_2. intros i a Hi. pose proof (lookup_lt_Some _ _ _ Hi) as Hl. rewrite (st_len _ _ Hs) in Hl.
  assert (Ha : ∃ x, slot x ∧ mblk C f x = a).
  { apply nth_lookup_Some with (d := 0) in Hi. unfold slot, mblk, map_block, MAXFILE, NDIRECT, NINDIRECT.
    destruct (decide (i = 12%nat)) as [->|]; [by exists (-1)|]. exists (Z.of_nat i). split; [lia|].
    rewrite (proj2 (Z.eqb_neq (Z.of_nat i) (-1))), (proj2 (Z.ltb_lt (Z.of_nat i) 12)), Nat2Z.id by lia. done. }
  destruct Ha as (x & Hx & <-). destruct (m_has f x) eqn:Hh.
  - pose proof (bo_range _ _ _ HB k f x Hk Hx Hh). assert (0 < nmeta) by (vm_compute; done). unfold FSSIZE in *. lia.
  - rewrite (unmapped C hi fs k f) by done. lia.
Qed.

Lemma din_wf ty sz addrs : ty = T_DIR ∨ ty = T_FILE → 0 ≤ sz < 2 ^ 32 → length addrs = 13%nat →
  Forall (λ a, 0 ≤ a < 2 ^ 32) addrs → dinode_wf (din_of ty sz addrs).
Proof. intros Ht Hs Hl Ha. split; cbn; try done; unfold T_DIR, T_FILE in *; lia. Qed.

(** The image with another inode [k]. *)
Definition with_inode (C : Z → mem) (inum : Z) (i : inode) : Z → mem :=
  <[iblock inum := put_dinode (C (iblock inum)) inum i]> C.

Lemma on_image_same C inum ty sz addrs : dinode_wf (din_of ty sz addrs) →
  on_image (with_inode C inum (din_of ty sz addrs)) inum = din_of ty sz addrs.
Proof.
  intros Hw. unfold on_image, with_inode. rewrite fn_lookup_insert.
  pose proof (get_put_dinode (C (iblock inum)) inum _ no_inode Hw) as E.
  assert (Hj : ∀ j, dinode_of j = dinode_of (din_of ty sz addrs) → i_dev j = 0 → i_inum j = 0 → i_ref j = 0 →
    i_locked j = false → i_pid j = 0 → i_valid j = 0 → i_mount j = 0 → j = din_of ty sz addrs).
  { intros [] Hd. unfold dinode_of, din_of in *. cbn in *. intros. simplify_eq. done. }
  by apply Hj.
Qed.

Lemma on_image_other C k l i : k ≠ l → length (i_addrs i) = 13%nat →
  on_image (with_inode C (rinum k) i) (rinum l) = on_image C (rinum l).
Proof.
  intros Hne Hl. unfold on_image, with_inode.
  destruct (decide (iblock (rinum k) = iblock (rinum l))) as [E|]; [|by rewrite fn_lookup_insert_ne].
  rewrite E, fn_lookup_insert. apply get_dinode_ext. intros x Hx. apply put_dinode_out; [done|].
  unfold dip, iblock, rinum, IPB in *. Z.to_euclidean_division_equations. lia.
Qed.

Lemma with_inode_out C inum i b : b ≠ iblock inum → with_inode C inum i b = C b.
Proof. intros Hb. by apply fn_lookup_insert_ne. Qed.

Lemma rinode_run C n hi fs k ty f : image C n hi fs → fs !! k = Some (ty, f) →
  rinode (rinum k) (running C n hi) = Done (din_of ty (size f) (m_addrs f), running C n hi).
Proof.
  intros HI Hk. destruct (iblock_range (rinum k)) as (E & _ & Hr); [by eapply row_inum|].
  unfold rinode. rewrite run_getS. cbn [msb running]. rewrite E, (bind_done _ _ _ _ _ (rsect_run _ C n hi Hr)).
  by rewrite <- (im_inode _ _ _ _ HI k).
Qed.

Lemma winode_run C n hi inum i : 0 < inum < NINODES →
  winode inum i (running C n hi) = Done ((), running (with_inode C inum i) n hi).
Proof.
  intros Hn. destruct (iblock_range inum Hn) as (E & _ & Hr).
  unfold winode. rewrite run_getS. cbn [msb running]. rewrite E, (bind_done _ _ _ _ _ (rsect_run _ C n hi Hr)).
  by apply wsect_run.
Qed.

Lemma size_range C hi fs k f : blocks_ok C hi fs → fs !! k = Some f → 0 ≤ size f < 2 ^ 32.
Proof.
  intros HB Hk. pose proof (st_max _ _ (bo_stored _ _ _ HB k f Hk)). unfold size, MAXFILE, NDIRECT, NINDIRECT, BSIZE in *. lia.
Qed.

(** [iappend]: the file has the new bytes, the other files are as they were. *)
Lemma iappend_run C n hi fs k ty f p : image C n hi fs → fs !! k = Some (ty, f) →
  let len := size f + Z.of_nat (length p) in let hi' := hi + (cost len - cost (size f)) in
  len ≤ MAXFILE * BSIZE → hi' ≤ FSSIZE →
  ∃ C' f', iappend (rinum k) p (running C n hi) = Done ((), running C' n hi') ∧ m_data f' = m_data f ++ p ∧
    image C' n hi' (<[k := (ty, f')]> fs).
Proof.
  intros HI Hk len hi' Hmax Hroom. pose proof (row_file _ _ _ _ Hk) as Hkf. pose proof HI as [HB Hfull Hnext Hty Hino Hsb].
  pose proof (lookup_lt_Some _ _ _ Hk) as Hkl. pose proof (row_inum _ _ _ _ _ _ HI Hk) as Hin.
  unfold iappend. rewrite (bind_done _ _ _ _ _ (rinode_run _ _ _ _ _ _ _ HI Hk)). cbn [i_size din_of].
  rewrite xint_u32, u32_small by (by eapply size_range).
  destruct (append_loop_run n k (length p) C hi (fs.*2) f (din_of ty (size f) (m_addrs f)) p)
    as (C1 & f' & E & HB1 & Hd & Hf & Hm); try done; [by eapply Hfull|].
  fold len hi' in E, HB1. rewrite (bind_done _ _ _ _ _ E). clear E.
  assert (Hkf' : <[k := f']> (fs.*2) !! k = Some f') by (apply list_lookup_insert_eq; by rewrite length_fmap).
  assert (Hsz : size f' = len) by (unfold size; rewrite Hd, length_app, Nat2Z.inj_add; done).
  pose proof (size_range _ _ _ _ _ HB1 Hkf') as Hr. rewrite Hsz in Hr.
  rewrite xint_u32, u32_small, winode_run by done.
  change (set_i_size len (set_i_addrs (m_addrs f') (din_of ty (size f) (m_addrs f)))) with (din_of ty len (m_addrs f')).
  assert (Hlen : length (m_addrs f') = 13%nat) by (apply (st_len C1), (bo_stored _ _ _ HB1 k f' Hkf')).
  assert (Hw : dinode_wf (din_of ty len (m_addrs f')))
    by (apply din_wf; [by eapply Hty|done|done|by eapply addrs_words]).
  destruct (iblock_range (rinum k) Hin) as (_ & Hib & _).
  eexists _, f'. split; [done|]. split; [done|]. split.
  - rewrite list_fmap_insert. apply (blocks_ext C1); [|done]. intros b Hb. apply with_inode_out. lia.
  - intros l ty' g Hl. apply list_lookup_insert_Some in Hl as [(<- & E & _)|[Hne Hl]]; [|by eapply Hfull].
    by injection E as <- <-.
  - by rewrite length_insert.
  - intros l ty' g Hl. apply list_lookup_insert_Some in Hl as [(<- & E & _)|[Hne Hl]]; [|by eapply Hty].
    injection E as <- <-. by eapply Hty.
  - intros l ty' g Hl. apply list_lookup_insert_Some in Hl as [(<- & E & _)|[Hne Hl]].
    + injection E as <- <-. by rewrite on_image_same, Hsz.
    + rewrite on_image_other by done. rewrite <- (Hino l) by done.
      destruct (iblock_range (rinum l)) as (_ & Hib' & _); [by eapply row_inum|].
      unfold on_image. by rewrite Hm by lia.
  - rewrite with_inode_out by lia. by rewrite Hm by (vm_compute; done).
Qed.

Definition empty : mfile := MFile (repeat 0 13) (λ _, false) [].

Lemma mblk_empty C x : slot x → mblk C empty x = 0.
Proof.
  intros Hx. unfold mblk, map_block. cbn [m_addrs empty]. rewrite !nth_repeat. by repeat case_match.
Qed.

Lemma stored_empty C : stored C empty.
Proof.
  split; cbn; try done; [|lia].
  intros x Hx. rewrite mblk_empty by done. done.
Qed.

Lemma blocks_new C hi fs : blocks_ok C hi fs → blocks_ok C hi (fs ++ [empty]).
Proof.
  intros [H1 H2 H3 H4 H5].
  assert (Hl : ∀ k f x, (fs ++ [empty]) !! k = Some f → m_has f x = true → fs !! k = Some f).
  { intros k f x Hk Hh. apply lookup_app_Some in Hk as [|[_ Hk]]; [done|].
    apply list_lookup_singleton_Some in Hk as [_ <-]. done. }
  split; [done| | | |done].
  - intros k f Hk. apply lookup_app_Some in Hk as [Hk|[_ Hk]]; [by apply (H2 k)|].
    apply list_lookup_singleton_Some in Hk as [_ <-]. apply stored_empty.
  - intros k f x Hk Hx Hh. by apply (H3 k f x); [eapply Hl|..].
  - intros k f x l g y Hk Hg Hx Hy Hh Hh'. apply H4; try done; by eapply Hl.
Qed.

Lemma full_empty : full empty.
Proof.
  intros x Hx. cbn. unfold needed, slot, size, NDIRECT, BSIZE in *. cbn.
  destruct (Z.eqb_spec x (-1)); [done|]. symmetry. apply Z.ltb_ge. lia.
Qed.

Lemma ialloc_run C n hi fs ty : image C n hi fs → n < NINODES → ty = T_DIR ∨ ty = T_FILE →
  ∃ C', ialloc ty (running C n hi) = Done (n, running C' (n + 1) hi) ∧ image C' (n + 1) hi (fs ++ [(ty, empty)]).
Proof.
  intros HI Hn Ht. pose proof HI as [HB Hfull [Hnext Hmax] Hty Hino Hsb].
  assert (Hin : 0 < n < NINODES) by (unfold rinum in *; lia).
  destruct (iblock_range n Hin) as (_ & Hib & _).
  unfold ialloc. rewrite run_gets, run_modS.
  change (set_freeinode _ (running C n hi)) with (running C (u32 (n + 1)) hi).
  rewrite u32_small by (unfold NINODES in *; lia).
  assert (Hdin : set_i_size (xint 0) (set_i_nlink (s16 (xshort 1)) (set_i_type (s16 (xshort ty)) no_inode)) =
    din_of ty 0 (repeat 0 13)) by (by destruct Ht as [-> | ->]).
  cbv zeta. cbn [freeinode running]. rewrite Hdin, (bind_done _ _ _ _ _ (winode_run C (n + 1) hi n _ Hin)).
  assert (Hw : dinode_wf (din_of ty 0 (repeat 0 13))) by (apply din_wf; [done|lia|done|by repeat constructor]).
  eexists. split; [done|].
  assert (Hrow : ∀ k ty' f, (fs ++ [(ty, empty)]) !! k = Some (ty', f) →
    fs !! k = Some (ty', f) ∨ (k = length fs ∧ ty' = ty ∧ f = empty)).
  { intros k ty' f Hk. apply lookup_app_Some in Hk as [|[Hge Hk]]; [by left|right].
    apply list_lookup_singleton_Some in Hk as [Hk E]. injection E as -> ->. split; [lia|done]. }
  split.
  - rewrite fmap_app. apply (blocks_ext C); [|by apply blocks_new]. intros b Hb. apply with_inode_out. lia.
  - intros k ty' f Hk. destruct (Hrow k ty' f Hk) as [|(_ & _ & ->)]; [by eapply Hfull|apply full_empty].
  - rewrite length_app. cbn. unfold rinum in *. lia.
  - intros k ty' f Hk. destruct (Hrow k ty' f Hk) as [|(_ & -> & _)]; [by eapply Hty|done].
  - intros k ty' f Hk. rewrite Hnext. destruct (Hrow k ty' f Hk) as [Hk'|(-> & -> & ->)].
    + rewrite on_image_other; [by apply Hino| |done]. apply lookup_lt_Some in Hk'. lia.
    + by rewrite on_image_same.
  - by rewrite with_inode_out by lia.
Qed.

(** ** What the image holds *)

Definition total (cs : list (Z * list Z)) : Z := foldr (λ c t, cost (Z.of_nat (length (c.2))) + t) 0 cs.

(** The image at [C] has the files [cs], types and bytes. *)
Definition holds (C : Z → mem) (n hi : Z) (cs : list (Z * list Z)) : Prop :=
  ∃ fs, image C n hi fs ∧ prod_map id m_data <$> fs = cs ∧ hi = nmeta + total cs.

Lemma total_insert cs k ty d ty' d' : cs !! k = Some (ty, d) →
  total (<[k := (ty', d')]> cs) = total cs + (cost (Z.of_nat (length d')) - cost (Z.of_nat (length d))).
Proof.
  revert k. induction cs as [|c cs IH]; intros k Hk; [done|]. destruct k as [|k].
  - injection Hk as ->. cbn. lia.
  - change (total (<[S k := (ty', d')]> (c :: cs)))
      with (cost (Z.of_nat (length (c.2))) + total (<[k := (ty', d')]> cs)).
    rewrite (IH k Hk). change (total (c :: cs)) with (cost (Z.of_nat (length (c.2))) + total cs). lia.
Qed.

Lemma total_app cs cs' : total (cs ++ cs') = total cs + total cs'.
Proof.
  induction cs as [|c cs IH]; [done|]. unfold total in *. cbn [app foldr]. rewrite IH. lia.
Qed.

Lemma iappend_holds C n hi cs k ty d p : holds C n hi cs → cs !! k = Some (ty, d) →
  Z.of_nat (length (d ++ p)) ≤ MAXFILE * BSIZE → nmeta + total (<[k := (ty, d ++ p)]> cs) ≤ FSSIZE →
  ∃ C' hi', iappend (rinum k) p (running C n hi) = Done ((), running C' n hi') ∧ holds C' n hi' (<[k := (ty, d ++ p)]> cs).
Proof.
  intros (fs & HI & <- & Hhi) Hk Hmax Hroom.
  rewrite list_lookup_fmap in Hk. destruct (fs !! k) as [[ty' f]|] eqn:Hf; [|done]. cbn in Hk. injection Hk as -> <-.
  assert (Hrow : (prod_map id m_data <$> fs) !! k = Some (ty, m_data f)) by (by rewrite list_lookup_fmap, Hf).
  rewrite (total_insert _ _ _ _ _ _ Hrow) in Hroom. rewrite length_app, Nat2Z.inj_add in Hmax, Hroom.
  destruct (iappend_run C n hi fs k ty f p HI Hf) as (C' & f' & E & Hd & HI'); [done|unfold size; lia|].
  exists C', (hi + (cost (size f + Z.of_nat (length p)) - cost (size f))). split; [done|].
  exists (<[k := (ty, f')]> fs). split; [done|]. split.
  - rewrite list_fmap_insert. cbn. by rewrite Hd.
  - rewrite (total_insert _ _ _ _ _ _ Hrow), length_app, Nat2Z.inj_add. unfold size. lia.
Qed.

Lemma ialloc_holds C n hi cs ty : holds C n hi cs → n < NINODES → ty = T_DIR ∨ ty = T_FILE →
  ∃ C', ialloc ty (running C n hi) = Done (n, running C' (n + 1) hi) ∧ holds C' (n + 1) hi (cs ++ [(ty, [])]).
Proof.
  intros (fs & HI & <- & Hhi) Hn Ht. destruct (ialloc_run C n hi fs ty HI Hn Ht) as (C' & E & HI').
  exists C'. split; [done|]. exists (fs ++ [(ty, empty)]). split; [done|]. split; [by rewrite fmap_app|].
  rewrite total_app, Hhi. change (total [(ty, [])]) with 0. lia.
Qed.

Lemma holds_next C n hi cs : holds C n hi cs → n = rinum (length cs) ∧ n ≤ NINODES.
Proof. intros (fs & HI & <- & _). rewrite length_fmap. apply HI. Qed.

(** ** The files of the command line *)

Definition bytes_of (a : arg) : list Z := mjoin (default [] (a.2)).

(** The root directory: itself, its parent, and the files in order. *)
Definition root_data (args : list arg) : list Z :=
  dirent ROOTINO (DOTS 1) ++ dirent ROOTINO (DOTS 2) ++
  mjoin (imap (λ i a, dirent (rinum (S i)) (strip (a.1))) args).

Definition contents (args : list arg) : list (Z * list Z) :=
  (T_DIR, root_data args) :: ((λ a, (T_FILE, bytes_of a)) <$> args).

Definition ok_arg (a : arg) : Prop :=
  SLASH ∉ a.1 ∧ is_Some (a.2) ∧ Z.of_nat (length (bytes_of a)) ≤ MAXFILE * BSIZE.

(** The files can be opened and are not too long, there are inodes for them,
    and enough blocks. *)
Record fits (args : list arg) : Prop := Fits {
  ft_args : Forall ok_arg args;
  ft_inodes : Z.of_nat (length args) + 2 ≤ NINODES;
  ft_root : Z.of_nat (length (root_data args)) ≤ MAXFILE * BSIZE;
  ft_blocks : nmeta + total (contents args) ≤ FSSIZE
}.

Lemma mfor_append ty k reads : ∀ d C n hi cs,
  holds C n hi cs → cs !! k = Some (ty, d) →
  Z.of_nat (length (d ++ mjoin reads)) ≤ MAXFILE * BSIZE →
  nmeta + total (<[k := (ty, d ++ mjoin reads)]> cs) ≤ FSSIZE →
  ∃ C' hi', mfor reads (λ buf, iappend (rinum k) buf) (running C n hi) = Done ((), running C' n hi') ∧
    holds C' n hi' (<[k := (ty, d ++ mjoin reads)]> cs).
Proof.
  induction reads as [|p reads IH]; intros d C n hi cs HH Hk Hmax Hroom.
  - exists C, hi. cbn. by rewrite app_nil_r, list_insert_id.
  - change (mjoin (p :: reads)) with (p ++ mjoin reads) in *.
    pose proof (lookup_lt_Some _ _ _ Hk) as Hkl.
    assert (Hle : cost (Z.of_nat (length (d ++ p))) ≤ cost (Z.of_nat (length (d ++ p ++ mjoin reads)))).
    { apply cost_mono. rewrite !length_app in *. lia. }
    destruct (iappend_holds C n hi cs k ty d p HH Hk) as (C1 & hi1 & E1 & H1).
    { rewrite !length_app in *. lia. }
    { rewrite (total_insert _ _ _ _ _ _ Hk) in Hroom. rewrite (total_insert _ _ _ _ _ _ Hk). lia. }
    destruct (IH (d ++ p) C1 n hi1 (<[k := (ty, d ++ p)]> cs)) as (C2 & hi2 & E2 & H2).
    { done. } { by apply list_lookup_insert_eq. } { by rewrite <- app_assoc. }
    { by rewrite list_insert_insert_eq, <- app_assoc. }
    exists C2, hi2. cbn [mfor]. rewrite (bind_done _ _ _ _ _ E1). split; [done|].
    by rewrite list_insert_insert_eq, <- app_assoc in H2.
Qed.

Lemma root_data_snoc args a :
  root_data (args ++ [a]) = root_data args ++ dirent (rinum (S (length args))) (strip (a.1)).
Proof.
  unfold root_data. rewrite imap_app, !app_assoc. cbn [imap].
  rewrite join_app. cbn. by rewrite app_nil_r, Nat.add_0_r.
Qed.

Lemma total_cons c cs : total (c :: cs) = cost (Z.of_nat (length (c.2))) + total cs.
Proof. done. Qed.

(** One file more. *)
Lemma add_file_run C n hi args a : holds C n hi (contents args) → fits (args ++ [a]) →
  ∃ C' hi', add_file ROOTINO a (running C n hi) = Done ((), running C' (n + 1) hi') ∧
    holds C' (n + 1) hi' (contents (args ++ [a])).
Proof.
  intros HH [Hargs Hino Hroot Hblocks]. rewrite Forall_app, Forall_singleton in Hargs. destruct Hargs as [_ Ha].
  destruct Ha as (Hsl & [reads Hr] & Hlen).
  assert (Hb : bytes_of a = mjoin reads) by (unfold bytes_of; by rewrite Hr). rewrite Hb in Hlen.
  set (name := a.1) in *. assert (Ea : add_file ROOTINO a = add_file ROOTINO (name, Some reads)).
  { unfold name. rewrite <- Hr. by destruct a. }
  destruct (holds_next _ _ _ _ HH) as [Hn _]. unfold contents in Hn. cbn [length] in Hn. rewrite length_fmap in Hn.
  rewrite length_app in Hino. cbn [length] in Hino.
  rewrite Ea. clear Ea. unfold add_file. rewrite bool_decide_true by done. unfold massert at 1. rewrite run_ret.
  destruct (ialloc_holds C n hi _ T_FILE HH) as (C1 & E1 & H1); [unfold rinum in *; lia|by right|].
  rewrite (bind_done _ _ _ _ _ E1). clear E1.
  set (de := dirent n (strip name)) in *. set (k := S (length args)).
  assert (Hrd : root_data (args ++ [a]) = root_data args ++ de).
  { rewrite root_data_snoc. unfold de. by rewrite Hn. }
  assert (Htot : total (contents (args ++ [a])) =
    cost (Z.of_nat (length (root_data args ++ de))) + (total ((λ a, (T_FILE, bytes_of a)) <$> args) +
      cost (Z.of_nat (length (mjoin reads))))).
  { unfold contents. rewrite total_cons, Hrd, fmap_app, total_app. cbn [snd fmap list_fmap].
    rewrite total_cons. cbn [snd]. rewrite Hb. cbn [total foldr]. lia. }
  rewrite Htot in Hblocks. rewrite Hrd in Hroot.
  assert (Hc0 : cost 0 = 0) by done.
  assert (Hcr : cost 0 ≤ cost (Z.of_nat (length (mjoin reads)))) by (apply cost_mono; lia).
  destruct (iappend_holds C1 (n + 1) hi _ 0 T_DIR (root_data args) de H1) as (C2 & hi2 & E2 & H2); [done|done| |].
  { cbn [contents app]. change (<[0%nat := ?x]> (?c :: ?l)) with (x :: l). rewrite total_cons, total_app.
    cbn [snd]. change (total [(T_FILE, [])]) with 0. lia. }
  cbn [contents app] in H2. change (<[0%nat := ?x]> (?c :: ?l)) with (x :: l) in H2.
  change (rinum 0) with ROOTINO in E2. rewrite (bind_done _ _ _ _ _ E2). clear E2.
  set (cs := (T_DIR, root_data args ++ de) :: (((λ a, (T_FILE, bytes_of a)) <$> args) ++ [(T_FILE, [])])) in *.
  assert (Hk : cs !! k = Some (T_FILE, [])).
  { unfold cs, k. change ((?c :: ?l) !! S ?i) with (l !! i). rewrite lookup_app_r by (by rewrite length_fmap). by rewrite length_fmap, Nat.sub_diag. }
  destruct (mfor_append T_FILE k reads [] C2 (n + 1) hi2 cs H2 Hk Hlen) as (C3 & hi3 & E3 & H3).
  { rewrite (total_insert _ _ _ _ _ _ Hk). unfold cs. rewrite total_cons, total_app. cbn [snd app length].
    change (total [(T_FILE, [])]) with 0. change (Z.of_nat 0) with 0. lia. }
  exists C3, hi3. split.
  - rewrite <- E3. by rewrite Hn.
  - replace (contents _) with (<[k := (T_FILE, [] ++ mjoin reads)]> cs); [done|].
    unfold contents, cs, k. rewrite Hrd, fmap_app. change (<[S ?i := ?x]> (?c :: ?l)) with (c :: <[i := x]> l).
    cbn [fmap list_fmap app]. rewrite Hb. f_equal.
    rewrite insert_app_r_alt by (by rewrite length_fmap). by rewrite length_fmap, Nat.sub_diag.
Qed.

Lemma cost_pos n : 0 ≤ n → 0 ≤ cost n.
Proof. intros Hn. transitivity (cost 0); [done|]. apply cost_mono. lia. Qed.

Lemma total_pos cs : 0 ≤ total cs.
Proof.
  induction cs as [|c cs IH]; [done|]. rewrite total_cons.
  pose proof (cost_pos (Z.of_nat (length (c.2))) ltac:(lia)). lia.
Qed.

Lemma root_data_app l1 l2 : ∃ d, root_data (l1 ++ l2) = root_data l1 ++ d.
Proof.
  unfold root_data. rewrite imap_app, join_app. eexists. by rewrite <- !app_assoc.
Qed.

Lemma fits_app l1 l2 : fits (l1 ++ l2) → fits l1.
Proof.
  intros [Ha Hi Hr Hb]. destruct (root_data_app l1 l2) as [d Hd]. rewrite Forall_app in Ha.
  rewrite Hd, length_app in Hr. rewrite length_app in Hi. unfold contents in Hb.
  rewrite total_cons, Hd, fmap_app, total_app in Hb. cbn [snd] in Hb. rewrite length_app, Nat2Z.inj_add in Hb.
  pose proof (total_pos ((λ a, (T_FILE, bytes_of a)) <$> l2)).
  pose proof (cost_mono (Z.of_nat (length (root_data l1))) (Z.of_nat (length (root_data l1)) + Z.of_nat (length d)) ltac:(lia)).
  split; [by destruct Ha|lia|lia|]. unfold contents. rewrite total_cons. cbn [snd]. lia.
Qed.

Lemma mfor_files post : ∀ pre C n hi, holds C n hi (contents pre) → fits (pre ++ post) →
  ∃ C' n' hi', mfor post (add_file ROOTINO) (running C n hi) = Done ((), running C' n' hi') ∧
    holds C' n' hi' (contents (pre ++ post)).
Proof.
  induction post as [|a post IH]; intros pre C n hi HH Hf.
  - exists C, n, hi. by rewrite app_nil_r.
  - replace (pre ++ a :: post) with ((pre ++ [a]) ++ post) in * by (by rewrite <- app_assoc).
    destruct (add_file_run C n hi pre a HH) as (C1 & hi1 & E1 & H1); [by eapply fits_app|].
    destruct (IH (pre ++ [a]) C1 (n + 1) hi1 H1 Hf) as (C2 & n2 & hi2 & E2 & H2).
    exists C2, n2, hi2. cbn [mfor]. by rewrite (bind_done _ _ _ _ _ E1).
Qed.

(** Clearing the image. *)
Lemma clear_run m : ∀ i C n x, (∀ b, C b = zero_mem) → n = Z.of_nat i → Z.of_nat (i + m) ≤ FSSIZE →
  ∃ C', mfor (seq i m) (λ i, wsect (Z.of_nat i) zero_mem) (Mk C n x 1 nmeta) =
      Done ((), Mk C' (Z.of_nat (i + m)) x 1 nmeta) ∧ ∀ b, C' b = zero_mem.
Proof.
  induction m as [|m IH]; intros i C n x HC -> Hm; cbn [seq mfor].
  - exists C. rewrite Nat.add_0_r. done.
  - destruct (IH (S i) (<[Z.of_nat i := zero_mem]> C) (Z.of_nat (S i)) x) as (C' & E & HC'); [|done|lia|].
    { intros b. destruct (decide (b = Z.of_nat i)) as [->|]; [apply fn_lookup_insert|by rewrite fn_lookup_insert_ne]. }
    exists C'. split; [|done]. replace (i + S m)%nat with (S i + m)%nat by lia. rewrite <- E.
    unfold wsect. rewrite sect_small, run_modS by lia. unfold set_img. cbn [img nsect msb freeinode freeblock].
    do 2 f_equal. lia.
Qed.

(** The image with a super block and no files. *)
Lemma holds_nothing C : (∀ b, C b = zero_mem) → holds (<[1 := write_sb super]> C) 1 nmeta [].
Proof.
  intros HC. exists []. split; [|done]. split; try done.
  - split; try done. intros b a Hb Ha. rewrite fn_lookup_insert_ne, HC; [done|].
    assert (1 < nmeta) by (vm_compute; done). lia.
Qed.

Lemma bit_used_mark n b : 0 ≤ b → bit_used (mark n zero_mem) b = (b <? Z.of_nat n).
Proof.
  intros Hb. induction n as [|n IH]; cbn [mark].
  - transitivity false; [|symmetry; apply Z.ltb_ge; lia]. unfold bit_used, zero_mem. by rewrite Z.land_0_l.
  - rewrite bit_used_set, IH by lia. apply eq_true_iff_eq.
    rewrite orb_true_iff, bool_decide_eq_true, !Z.ltb_lt. lia.
Qed.

(** The size [main] gives the root directory. *)
Definition rounded (n : Z) : Z := (n / BSIZE + 1) * BSIZE.

Definition bmap_sect : Z := 2 + nlog + ninodeblocks.

(** What the finished image [C] is: the super block; the bitmap, with exactly
    the blocks below the first free one in use; the inodes; and the blocks of
    the files, which are distinct and hold their bytes. *)
Record made (C : Z → mem) (args : list arg) : Prop := Made {
  ma_super : get_sb (C 1) = super;
  ma_map : ∀ b, 0 ≤ b < FSSIZE → bit_used (C bmap_sect) b = (b <? nmeta + total (contents args));
  ma_files : ∃ fs, blocks_ok C (nmeta + total (contents args)) (fs.*2) ∧ prod_map id m_data <$> fs = contents args ∧
    ∀ k ty f, fs !! k = Some (ty, f) → full f ∧
      on_image C (rinum k) = din_of ty (if (k =? 0)%nat then rounded (size f) else size f) (m_addrs f)
}.

Lemma super_written : get_sb (write_sb super) = super.
Proof. vm_compute. reflexivity. Qed.

Lemma finish_run C n hi args : holds C n hi (contents args) →
  ∃ s, finish ROOTINO (running C n hi) = Done ((), s) ∧ made (img s) args.
Proof.
  intros (fs & HI & Hcs & Hhi). pose proof HI as [HB Hfull Hnext Hty Hino Hsb].
  destruct fs as [|[ty f] fs]; [done|]. assert (Hk : ((ty, f) :: fs) !! 0%nat = Some (ty, f)) by done.
  pose proof (row_file _ _ _ _ Hk) as Hkf. pose proof (size_range _ _ _ _ _ HB Hkf) as Hsz.
  pose proof (st_max _ _ (bo_stored _ _ _ HB _ _ Hkf)) as Hmax. fold (size f) in Hmax.
  assert (Hr : 0 ≤ rounded (size f) < 2 ^ 32).
  { unfold rounded, MAXFILE, NDIRECT, NINDIRECT, BSIZE in *. Z.to_euclidean_division_equations. lia. }
  unfold finish. change ROOTINO with (rinum 0).
  rewrite (bind_done _ _ _ _ _ (rinode_run _ _ _ _ _ _ _ HI Hk)). cbn [i_size din_of]. cbv zeta.
  rewrite !xint_u32, (u32_small (size f)) by done. fold (rounded (size f)). rewrite !(u32_small (rounded (size f))) by done.
  rewrite (bind_done _ _ _ _ _ (winode_run C n hi (rinum 0) _ ltac:(done))), run_getS.
  change (set_i_size (rounded (size f)) (din_of ty (size f) (m_addrs f))) with (din_of ty (rounded (size f)) (m_addrs f)).
  set (C1 := with_inode _ _ _). pose proof (bo_hi _ _ _ HB) as Hh. assert (0 < nmeta) by (vm_compute; done).
  cbn [freeblock running]. rewrite s32_small by (unfold FSSIZE in *; lia). unfold balloc.
  rewrite (proj2 (Z.ltb_lt hi (BSIZE * 8))) by (unfold FSSIZE, BSIZE in *; lia). unfold massert. rewrite run_ret, run_getS.
  cbn [msb running sb_bmapstart super]. rewrite wsect_run by done. eexists. split; [done|]. cbn [img running].
  change (2 + nlog + ninodeblocks) with bmap_sect.
  assert (Hw : dinode_wf (din_of ty (rounded (size f)) (m_addrs f))).
  { apply din_wf; [by eapply Hty|done|by apply (st_len C), (bo_stored _ _ _ HB 0 f)|by eapply addrs_words]. }
  destruct (iblock_range (rinum 0) ltac:(done)) as (_ & Hib & _).
  assert (Hbm : bmap_sect = nmeta - 1) by done. split.
  - rewrite fn_lookup_insert_ne by (vm_compute; done). unfold C1. rewrite with_inode_out, Hsb by lia. apply super_written.
  - intros b Hb. rewrite fn_lookup_insert, bit_used_mark by lia. by rewrite Z2Nat.id, Hhi by lia.
  - exists ((ty, f) :: fs). rewrite <- Hhi. split_and!; [|done|].
    + apply (blocks_ext C); [|done]. intros b Hb. rewrite fn_lookup_insert_ne by lia. apply with_inode_out. lia.
    + intros k ty' g Hg. split; [by eapply Hfull|].
      destruct (iblock_range (rinum k)) as (_ & Hib' & _); [by eapply row_inum|].
      unfold on_image at 1. rewrite fn_lookup_insert_ne by lia. fold (on_image C1 (rinum k)).
      destruct k as [|k].
      * injection Hg as <- <-. by apply on_image_same.
      * unfold C1. rewrite on_image_other; [by apply Hino|done|apply Hw].
Qed.

Lemma main_run args : fits args → ∃ s, main args start = Done ((), s) ∧ made (img s) args.
Proof.
  intros Hf. unfold main. rewrite !run_modS. assert (Hz : 0 ≤ FSSIZE) by done.
  destruct (clear_run (Z.to_nat FSSIZE) 0 (λ _, zero_mem) 0 super) as (C0 & E0 & HC0); [done..| |]; [lia|].
  change (set_freeblock nmeta _) with (Mk (λ _, zero_mem) 0 super 1 nmeta).
  rewrite (bind_done _ _ _ _ _ E0), run_getS, Nat.add_0_l, Z2Nat.id by done. clear E0.
  cbn [msb]. fold (running C0 1 nmeta). rewrite (bind_done _ _ _ _ _ (wsect_run 1 _ C0 1 nmeta ltac:(done))).
  pose proof (holds_nothing C0 HC0) as H0. clear HC0.
  destruct (ialloc_holds _ 1 nmeta [] T_DIR H0) as (C1 & E1 & H1); [done|by left|].
  rewrite (bind_done _ _ _ _ _ E1). clear E1 H0. change (1 =? ROOTINO) with true. unfold massert at 1. rewrite run_ret.
  cbn [app] in H1.
  destruct (iappend_holds C1 _ nmeta _ 0 T_DIR [] (dirent 1 (DOTS 1)) H1) as (C2 & hi2 & E2 & H2); [done..|].
  change (rinum 0) with 1 in E2. rewrite (bind_done _ _ _ _ _ E2). clear E2.
  destruct (iappend_holds C2 _ hi2 _ 0 T_DIR ([] ++ dirent 1 (DOTS 1)) (dirent 1 (DOTS 2)) H2)
    as (C3 & hi3 & E3 & H3); [done..|].
  change (rinum 0) with 1 in E3. rewrite (bind_done _ _ _ _ _ E3). clear E3.
  change (<[0%nat := _]> _) with (contents []) in H3.
  destruct (mfor_files args [] C3 _ hi3 H3 Hf) as (C4 & n4 & hi4 & E4 & H4).
  change ROOTINO with 1 in E4. rewrite (bind_done _ _ _ _ _ E4). by apply (finish_run C4 n4 hi4).
Qed.

(** [mkfs] makes the image it is asked for: for any files that can be opened
    and fit, it ends with a super block that describes the disk, a bitmap that
    marks exactly the blocks in use, and for the root directory and every file
    an inode whose distinct data blocks hold its bytes, however the reads of the
    file were cut. *)
Theorem mkfs_makes_image args : fits args → ∃ s, main args start = Done ((), s) ∧ made (img s) args.
Proof. apply main_run. Qed.

(** ** The kernel on the image *)

(** What the kernel sees of file [k]: the root directory is padded with zeros,
    which are free entries. *)
Definition seen (k : nat) (d : list Z) : list Z :=
  if (k =? 0)%nat then d ++ replicate (Z.to_nat (rounded (Z.of_nat (length d))) - length d) 0 else d.

Lemma seen_lookup k d j :
  seen k d !! j = let n := Z.of_nat (length d) in
    if decide (j < Z.to_nat (if (k =? 0)%nat then rounded n else n))%nat then Some (nth j d 0) else None.
Proof.
  assert (Hd : ∀ i, (i < length d)%nat → d !! i = Some (nth i d 0)).
  { intros i Hi. destruct (lookup_lt_is_Some_2 d i Hi) as [x Hx]. by rewrite (nth_lookup_Some _ _ _ _ Hx), Hx. }
  unfold seen. cbv zeta. destruct (k =? 0)%nat.
  - set (n := Z.to_nat (rounded (Z.of_nat (length d)))).
    assert (length d ≤ n)%nat by (unfold n, rounded, BSIZE; Z.to_euclidean_division_equations; lia).
    destruct (decide (j < length d)%nat) as [Hj|Hj].
    + rewrite lookup_app_l, decide_True by lia. by apply Hd.
    + rewrite lookup_app_r, nth_overflow by lia. case_decide.
      * apply lookup_replicate_2. lia.
      * apply lookup_ge_None_2. rewrite length_replicate. lia.
  - rewrite Nat2Z.id. case_decide; [by apply Hd|]. apply lookup_ge_None_2. lia.
Qed.

(** The root directory ends inside a block. *)
Definition inside (k : nat) (d : list Z) : Prop := k = O → Z.of_nat (length d) mod BSIZE ≠ 0.

Lemma map_block_ext a C C' x : (∀ b, C' b = C b) → map_block a C' x = map_block a C x.
Proof. intros HC. unfold map_block. by repeat case_match; rewrite ?HC. Qed.

Lemma booted_layout C s args : made C args → booted 1 C s → fsb s = super → layout s 1 nmeta.
Proof.
  intros [_ Hmap _] Hb Hsb.
  assert (Hs : the_sb 1 s = super) by exact Hsb. pose proof (total_pos (contents args)).
  split; rewrite ?Hs; try done; [by left|].
  intros b Hlt. unfold bitmap. rewrite Hs, (bt_content _ _ _ Hb). change (sb_bmapstart super) with bmap_sect.
  rewrite Hmap; [apply Z.ltb_lt; lia|]. assert (nmeta < FSSIZE) by (vm_compute; done). lia.
Qed.

Section booted_file.
Context (C : Z → mem) (s : fsys) (args : list arg) (fs : list (Z * mfile)) (k : nat) (ty : Z) (f : mfile).
Notation sz := (if (k =? 0)%nat then rounded (size f) else size f).
Hypothesis HM : made C args.
Hypothesis Hboot : booted 1 C s.
Hypothesis Hsb : fsb s = super.
Hypothesis HB : blocks_ok C (nmeta + total (contents args)) (fs.*2).
Hypothesis Hk : fs !! k = Some (ty, f).
Hypothesis Hfull : full f.
Hypothesis Hdev : i_dev (inodes s 0%nat) = 1.
Hypothesis Hino : dinode_of (inodes s 0%nat) = dinode_of (din_of ty sz (m_addrs f)).
Hypothesis Hin : inside k (m_data f).

Lemma booted_fields : i_type (inodes s 0%nat) = ty ∧ i_size (inodes s 0%nat) = sz ∧ i_addrs (inodes s 0%nat) = m_addrs f.
Proof using Hino. pose proof Hino as E. unfold dinode_of in E. cbn in E. by injection E as -> _ _ _ -> ->. Qed.

Lemma booted_blk x : blk s 0 x = mblk C f x.
Proof.
  unfold blk, mblk. destruct booted_fields as (_ & _ & ->). rewrite Hdev. apply map_block_ext, Hboot.
Qed.

Lemma booted_size : size f ≤ sz ≤ MAXFILE * BSIZE ∧
  ∀ x, 0 ≤ x → x * BSIZE < sz → x * BSIZE < size f.
Proof.
  pose proof (st_max _ _ (bo_stored _ _ _ HB _ _ (row_file _ _ _ _ Hk))) as Hmax. fold (size f) in Hmax.
  unfold inside in Hin. fold (size f) in Hin. unfold rounded, MAXFILE, NDIRECT, NINDIRECT, BSIZE in *.
  destruct (Nat.eqb_spec k 0) as [E|E]; [specialize (Hin E)|split; [lia|auto]].
  assert (0 ≤ size f) by (unfold size; lia). Z.to_euclidean_division_equations. split; [lia|]. intros x. nia.
Qed.

Lemma booted_ok : file_ok s 1 nmeta 0.
Proof.
  pose proof (row_file _ _ _ _ Hk) as Hkf. pose proof (bo_stored _ _ _ HB _ _ Hkf) as Hst.
  destruct booted_fields as (_ & Hs & Ha), booted_size as [Hsz Hlt]. pose proof (bo_hi _ _ _ HB) as Hhi.
  assert (Hthe : the_sb 1 s = super) by exact Hsb.
  split; rewrite ?Ha, ?Hs; try done; [apply Hst|unfold size in *; lia|..].
  - intros x Hx Hxs. rewrite booted_blk. specialize (Hlt x Hx Hxs). assert (slot x) by (unfold slot, BSIZE in *; lia).
    apply (st_map _ _ Hst); [done|]. rewrite Hfull by done. unfold needed.
    rewrite (proj2 (Z.eqb_neq x (-1))) by lia. by apply Z.ltb_lt.
  - intros x Hx. rewrite booted_blk, (st_map _ _ Hst), Hthe by done. intros Hh.
    pose proof (bo_range _ _ _ HB _ _ x Hkf Hx Hh) as Hr. assert (0 < nmeta) by (vm_compute; done).
    cbn [sb_size super]. split; [lia|].
    unfold bitmap. rewrite Hthe, (bt_content _ _ _ Hboot). change (sb_bmapstart super) with bmap_sect.
    rewrite (ma_map _ _ HM) by lia. apply Z.ltb_lt. lia.
  - intros x y Hx Hy. rewrite !booted_blk. intros E Hn. pose proof Hn as Hn'. rewrite E in Hn'.
    apply (st_map _ _ Hst) in Hn, Hn'; [|done..]. by apply (bo_inj _ _ _ HB k f x k f y).
Qed.

Lemma booted_data : file_data s 0 = seen k (m_data f).
Proof.
  pose proof (row_file _ _ _ _ Hk) as Hkf. pose proof (bo_stored _ _ _ HB _ _ Hkf) as Hst.
  destruct booted_fields as (_ & Hs & Ha), booted_size as [Hsz Hlt].
  assert (Hb : ∀ o, 0 ≤ o < sz → fbyte s 0 o = nth (Z.to_nat o) (m_data f) 0).
  { intros o Ho. destruct (byte_slot o ltac:(lia)) as (Hx & Hx0 & Hm). unfold fbyte. rewrite booted_blk, Hdev.
    assert (Hh : m_has f (o / BSIZE) = true).
    { rewrite Hfull by done. unfold needed. rewrite (proj2 (Z.eqb_neq _ (-1))) by lia. apply Z.ltb_lt, Hlt; [done|].
      unfold BSIZE in *. Z.to_euclidean_division_equations. lia. }
    rewrite (proj2 (Z.eqb_neq _ 0)) by (by apply (st_map _ _ Hst)).
    rewrite (bt_content _ _ _ Hboot), (st_bytes _ _ Hst) by (done || unfold slot in *; lia).
    f_equal. f_equal. unfold BSIZE. Z.to_euclidean_division_equations. lia. }
  unfold file_data. rewrite Hs. apply list_eq. intros j. rewrite lookup_map_seq, (seen_lookup k (m_data f)).
  cbv zeta. fold (size f). destruct (decide _); [|done]. rewrite Hb by lia. by rewrite Nat2Z.id.
Qed.

End booted_file.

(** The machine at power on, with the image as device 1. *)
Definition power_on (C : Z → mem) : fsys :=
  set_disk (λ d, if d =? 1 then C else λ _, zero_mem) (set_fsb (Sb 0 0 0 0 0 0 0) cold_fs).

Lemma power_on_booted C : booted 1 C (power_on C) ∧ no_inodes (power_on C).
Proof.
  split; [|done]. split; [|done|done].
  split; [split|by intros i Hi%elem_of_nil|]; try done; intros; by left.
Qed.

(** [iinit] of the root device, and inode [inum] locked. *)
Definition boot_inode (inum : Z) : M fsys nat :=
  _ ← iinit 1 1;
  ip ← iget 1 inum;
  _ ← ilock (Some ip);
  mret ip.

Lemma contents_type args k ty d : contents args !! k = Some (ty, d) → ty = T_DIR ∨ ty = T_FILE.
Proof.
  destruct k as [|k]; [intros E; injection E as <- _; by left|].
  change (contents args !! S k) with (((λ a, (T_FILE, bytes_of a)) <$> args) !! k).
  rewrite list_lookup_fmap. destruct (args !! k); [|done]. intros E. injection E as <- _. by right.
Qed.

Lemma contents_inum args k c : fits args → contents args !! k = Some c → 0 < rinum k < NINODES.
Proof.
  intros [_ Hi _ _] Hk. apply lookup_lt_Some in Hk. cbn in Hk. rewrite length_fmap in Hk. unfold rinum. lia.
Qed.

(** The kernel finds file [k] in the image. *)
Lemma open_run C args k ty d : made C args → fits args → contents args !! k = Some (ty, d) → inside k d →
  ∃ s, boot_inode (rinum k) (power_on C) = Done (0%nat, s) ∧ calm s 1 nmeta ∧ file_ok s 1 nmeta 0 ∧
    file_data s 0 = seen k d ∧ i_type (inodes s 0%nat) ≠ T_DEV.
Proof.
  intros HM Hf Hk Hin. pose proof (contents_type _ _ _ _ Hk) as Hty. pose proof (contents_inum _ _ _ Hf Hk) as Hnum.
  destruct (power_on_booted C) as [Hb Hfr]. pose proof HM as [Hsup _ (fs & HB & Hcs & Hfs)].
  rewrite <- Hcs, list_lookup_fmap in Hk. destruct (fs !! k) as [[ty' f]|] eqn:Hrow; [|done].
  cbn in Hk. injection Hk as -> <-. destruct (Hfs k ty f Hrow) as [Hfull Hino]. unfold boot_inode.
  assert (H1 : 1 = 1 ∨ 1 = 2) by (by left). destruct (iblock_range (rinum k) Hnum) as (Eb & _ & Hr).
  destruct (iinit_run 1 H1 C _ 1 Hb Hfr) as (s1 & E1 & Hb1 & Hfr1 & Hsb1 & _). rewrite (bind_done _ _ _ _ _ E1). clear E1.
  destruct (iget_run 1 C s1 (rinum k) Hb1 Hfr1) as (s2 & E2 & Hb2 & Hsb2 & Hi2). rewrite (bind_done _ _ _ _ _ E2). clear E2.
  assert (Hsb : the_sb 1 s2 = super) by congruence.
  destruct (ilock_run 1 H1 C s2 (icache 1) (rinum k) _ Hb2 Hi2 (proj2 (Hfr1 0%nat))) as (s3 & E3 & Hb3 & Hsb3 & Hi3).
  { by rewrite Hsb, Eb. }
  { rewrite Hsb. unfold on_disk_inode. rewrite Eb. change (i_type (on_image C (rinum k)) ≠ 0). rewrite Hino.
    cbn. destruct Hty as [-> | ->]; done. }
  rewrite (bind_done _ _ _ _ _ E3). clear E3. rewrite Hsb in Hsb3, Hi3. unfold on_disk_inode in Hi3. rewrite Eb in Hi3.
  assert (Hd3 : dinode_of (inodes s3 0%nat) = dinode_of (on_image C (rinum k))) by (by change (inodes s3 0%nat) with (inodes s3 (icache 1)); rewrite Hi3).
  assert (Hdev : i_dev (inodes s3 0%nat) = 1) by (by change (inodes s3 0%nat) with (inodes s3 (icache 1)); rewrite Hi3).
  rewrite Hino in Hd3. exists s3. split; [done|]. split_and!.
  - split; [apply Hb3|by eapply booted_layout|]. rewrite (bt_dirty _ _ _ Hb3). cbn. unfold NBUF. lia.
  - by eapply booted_ok.
  - by eapply booted_data.
  - destruct (booted_fields s3 k ty f Hd3) as (-> & _). by destruct Hty as [-> | ->].
Qed.

Section theorems.
Context (dev_read : Z → option (nat → mem → Z → Z → M fsys (Z * mem))).

(** C6: From [mkfs] to the kernel: on the image made from any files that fit, the
    kernel started from power on reads the super block and the inode from the
    disk, and its [readi] returns the bytes the file was made from, whatever
    range is asked for.  The root directory reads as its entries followed by
    zeros, provided that they do not end on a block boundary. *)
Theorem mkfs_read_back args k ty d m dst off n :
  fits args → contents args !! k = Some (ty, d) → inside k d →
  0 ≤ off ≤ Z.of_nat (length (seen k d)) → 0 ≤ n → off + n < 2 ^ 32 →
  let n' := n `min` (Z.of_nat (length (seen k d)) - off) in
  ∃ s, main args start = Done ((), s) ∧ ∃ m' s',
    (ip ← boot_inode (rinum k); readi dev_read ip m dst off n) (power_on (img s)) = Done ((n', m'), s') ∧
    bytes_from m' dst n' = take (Z.to_nat n) (drop (Z.to_nat off) (seen k d)) ∧
    ∀ a, ¬ (dst ≤ a < dst + n) → m' a = m a.
Proof.
  intros Hf Hk Hin Hoff Hn Hov n'. destruct (main_run args Hf) as (s & E & HM). exists s. split; [done|]. clear E.
  destruct (open_run (img s) args k ty d HM Hf Hk Hin) as (s3 & E3 & Hcalm & Hok & Hdata & Hty).
  rewrite (bind_done _ _ _ _ _ E3).
  assert (Hsz : i_size (inodes s3 0%nat) = Z.of_nat (length (seen k d))).
  { rewrite <- Hdata. unfold file_data. rewrite length_map, length_seq, Z2Nat.id; [done|]. apply Hok. }
  destruct (readi_data dev_read s3 1 nmeta 0 m dst off n) as (s' & m' & E & Hby & Hfrm & _); try done; [by rewrite Hsz|].
  rewrite Hsz, Hdata in *. fold n' in E, Hby. by exists m', s'.
Qed.

End theorems.

(** ** Witnesses *)

(** One file, named "_ls", of three bytes in two reads. *)
Definition one_file : list arg := [([UNDERSCORE; 108; 115], Some [[7; 8]; [9]])].

Lemma one_file_fits : fits one_file.
Proof.
  split; [|vm_compute; done..]. apply Forall_singleton. split; [|split; [by eexists|vm_compute; done]].
  vm_compute. set_solver.
Qed.

Lemma mkfs_makes_image_witness : ∃ s, main one_file start = Done ((), s) ∧ made (img s) one_file.
Proof. apply (mkfs_makes_image one_file). exact one_file_fits. Defined.

Lemma mkfs_read_back_witness :
  ∃ s, main one_file start = Done ((), s) ∧ ∃ m' s',
    (ip ← boot_inode 2; readi (λ _, None) ip zero_mem 100 1 5) (power_on (img s)) = Done ((2, m'), s') ∧
    bytes_from m' 100 2 = [8; 9].
Proof.
  destruct (mkfs_read_back (λ _, None) one_file 1 T_FILE [7; 8; 9] zero_mem 100 1 5)
    as (s & E & m' & s' & E' & Hb & _); [exact one_file_fits|reflexivity|discriminate|cbn; lia|lia|lia|].
  exists s. split; [exact E|]. exists m', s'. split; [exact E'|exact Hb].
Defined.
