(* ===== verification/Login.v ===== *)
(** * The login program: gets of user/ulib.c and user/login.c

    The strings and arrays are in one byte-addressed memory; an index outside
    of an array is [None], and so is a string without an end.  What [read]
    delivers is an argument.  The theorem says exactly which input the password
    check accepts. *)
From stdpp Require Import base decidable option list functions numbers strings sets.
From Stdlib Require Import ZArith Lia.
From Stdlib Require Ascii String.
From S2P Require Import Prelude CString.

Local Open Scope Z_scope.

Definition MAX_USER_LEN : Z := 40.
Definition MAX_PASSWD_LEN : Z := 40.
Definition LF : Z := 10.
Definition CR : Z := 13.
Definition SPACE : Z := 32.

(** The size of [entry] and of [buf]. *)
Definition ENTRY : Z := MAX_USER_LEN + MAX_PASSWD_LEN + 1.

(** ** Reading a line *)

(** The loop of [gets]; [chars] are the characters [read] returns one by one,
    until it returns less than one. *)
Fixpoint gets_loop (m : mem) (buf i : Z) (fuel : nat) (chars : list Z) : mem * Z * list Z :=
  match fuel, chars with
  | S fuel, c :: chars =>
      let m := <[buf + i := c]> m in
      if (c =? LF) || (c =? CR) then (m, i + 1, chars) else gets_loop m buf (i + 1) fuel chars
  | _, _ => (m, i, chars)
  end.

(** [gets]; the characters that are left are for the next reader. *)
Definition gets (m : mem) (buf max : Z) (chars : list Z) : mem * list Z :=
  let '(m, i, rest) := gets_loop m buf 0 (Z.to_nat (max - 1)) chars in
  (<[buf + i := 0]> m, rest).

Definition getcmd (m : mem) (buf nbuf : Z) (chars : list Z) : mem * list Z * Z :=
  let m := Ulib.umemset m buf 0 (Z.to_nat nbuf) in
  let '(m, rest) := gets m buf nbuf chars in
  (m, rest, if m buf =? 0 then -1 else 0).

(** ** The check *)

Definition newline (c : Z) : bool := (c =? LF) || (c =? CR).

(** [a[i] = v] for an array of [n] bytes. *)
Definition put (n a i v : Z) (m : mem) : option mem :=
  if (0 <=? i) && (i <? n) then Some (<[a + i := v]> m) else None.

(** [for(i = 0; i < strlen(s); i++)], or [<=] with [upto]: line ends become
    spaces. *)
Fixpoint blank (fuel : nat) (upto : bool) (s i : Z) (m : mem) : option mem :=
  match fuel with
  | O => None
  | S fuel =>
      n ← strlen (Z.to_nat ENTRY) m s;
      if if upto then i <=? n else i <? n then
        blank fuel upto s (i + 1) (if newline (m (s + i)) then <[s + i := SPACE]> m else m)
      else Some m
  end.

(** [n] bytes from a list at [a]. *)
Definition file_into (m : mem) (a : Z) (l : list Z) : mem := λ x,
  if (a <=? x) && (x <? a + Z.of_nat (length l)) then nth (Z.to_nat (x - a)) l 0 else m x.

Section verify.
(** Where [entry] and [buf] are. *)
Context (entry buf : Z).

(** [verify_credentials]; [file] is what [read] returns of /passwd, [None] if it
    fails, and [opened] whether the file could be opened. *)
Definition verify_credentials (opened : bool) (file : option (list Z)) (username password : Z) (m : mem) : option (Z * mem) :=
  if negb opened then Some (-1, m)
  else
    len_username ← strlen (Z.to_nat ENTRY) m username;
    len_password ← strlen (Z.to_nat ENTRY) m password;
    if (MAX_USER_LEN <=? len_username) || (MAX_PASSWD_LEN <=? len_password) then Some (-1, m)
    else
      let m := Ulib.umemmove m entry username (Z.to_nat len_username) in
      let m := Ulib.umemmove m (entry + len_username) password (Z.to_nat len_password) in
      m ← put ENTRY entry (len_username + 1 + len_password) 0 m;
      m ← blank (S (Z.to_nat ENTRY)) false entry 0 m;
      let bytes_read := match file with Some l => Z.of_nat (length l) | None => -1 end in
      let m := file_into m buf (default [] file) in
      m ← put ENTRY buf bytes_read 0 m;
      m ← put ENTRY entry bytes_read 0 m;
      m ← blank (S (Z.to_nat ENTRY)) true buf 0 m;
      r ← Ulib.strcmp (Z.to_nat ENTRY) m buf entry;
      Some (if r =? 0 then 0 else -1, m).

(** One round of [main] from the label [start]: the two lines are read and
    copied over the static arrays. *)
Definition attempt (line username password : Z) (file : option (list Z)) (m : mem) (chars : list Z) : option (Z * mem * list Z) :=
  let '(m, chars, _) := getcmd m line MAX_USER_LEN chars in
  n ← strlen (Z.to_nat ENTRY) m line;
  let m := Ulib.umemmove m username line (Z.to_nat n) in
  let '(m, chars, _) := getcmd m line MAX_PASSWD_LEN chars in
  n ← strlen (Z.to_nat ENTRY) m line;
  let m := Ulib.umemmove m password line (Z.to_nat n) in
  '(r, m) ← verify_credentials true file username password m;
  Some (r, m, chars).

(** [main]: up to four attempts. *)
Fixpoint login (attempts : nat) (line username password : Z) (file : option (list Z)) (m : mem) (chars : list Z) : option bool :=
  match attempts with
  | O => Some false
  | S attempts =>
      '(r, m, chars) ← attempt line username password file m chars;
      if r =? 0 then Some true else login attempts line username password file m chars
  end.
End verify.

(** ** Strings *)

Lemma strcmp_run l1 : ∀ fuel m p q l2, cstr m p l1 → cstr m q l2 → (length l1 < fuel)%nat →
  ∃ r, Ulib.strcmp fuel m p q = Some r ∧ (r = 0 ↔ l1 = l2).
Proof.
  induction l1 as [|c l1 IH]; intros [|fuel] m p q l2 H1 H2 Hf; cbn in Hf; try lia; cbn [Ulib.strcmp].
  - cbn in H1. rewrite H1. cbn. destruct l2 as [|d l2]; cbn in H2.
    + rewrite H2. by eexists.
    + destruct H2 as (-> & Hd & _). eexists. split; [done|]. unfold u8. rewrite (Z.mod_small d), Z.mod_0_l by lia. split; [lia|done].
  - destruct H1 as (E1 & Hc & H1). rewrite E1. unfold c_true. rewrite (proj2 (Z.eqb_neq c 0)) by lia. cbn [negb andb].
    destruct l2 as [|d l2]; cbn in H2.
    + rewrite H2, (proj2 (Z.eqb_neq c 0)) by lia. eexists. split; [done|]. unfold u8.
      rewrite (Z.mod_small c), Z.mod_0_l by lia. split; [lia|done].
    + destruct H2 as (E2 & Hd & H2). rewrite E2. destruct (Z.eqb_spec c d) as [->|Hne].
      * destruct (IH fuel m (p + 1) (q + 1) l2 H1 H2 ltac:(lia)) as (r & E & Hr). exists r. split; [done|].
        rewrite Hr. naive_solver.
      * eexists. split; [done|]. unfold u8. rewrite !Z.mod_small by lia. split; [lia|naive_solver].
Qed.

(** ** Line ends become spaces *)

Definition norm (c : Z) : Z := if newline c then SPACE else c.

Lemma norm_range c : 0 < c < 2 ^ 8 → 0 < norm c < 2 ^ 8.
Proof. unfold norm, SPACE. destruct (newline c); lia. Qed.

Lemma blank_run upto s (l : list Z) : (length l < Z.to_nat ENTRY)%nat → ∀ k fuel i l0 m,
  length l0 = length l → (i ≤ length l)%nat → k = (length l - i)%nat → (k + 1 < fuel)%nat →
  cstr m s l0 →
  ∃ m', blank fuel upto s (Z.of_nat i) m = Some m' ∧
    cstr m' s (take i l0 ++ (norm <$> drop i l0)) ∧
    (∀ x, ¬ (s ≤ x < s + Z.of_nat (length l)) → m' x = m x).
Proof.
  intros Hlen k. induction k as [|k IH]; intros [|fuel] i l0 m Hl0 Hi Hk Hf Hc; try lia; cbn [blank];
    rewrite (strlen_spec _ _ _ _ Hc) by lia; cbn [mbind option_bind].
  - assert (Hi' : i = length l) by lia. rewrite Hl0, drop_ge, take_ge, app_nil_r by lia.
    destruct upto; [|rewrite (proj2 (Z.ltb_ge _ _)) by lia; by exists m].
    rewrite (proj2 (Z.leb_le _ _)) by lia. apply cstr_at in Hc as Hc'. destruct Hc' as (_ & _ & He).
    rewrite Hl0, <- Hi' in He. rewrite He. change (newline 0) with false. cbv iota.
    destruct fuel as [|fuel]; [lia|]. cbn [blank]. rewrite (strlen_spec _ _ _ _ Hc) by lia. cbn [mbind option_bind].
    rewrite (proj2 (Z.leb_gt _ _)) by lia. by exists m.
  - assert (Hlt : (i < length l0)%nat) by lia. destruct (lookup_lt_is_Some_2 l0 i Hlt) as [c Hci].
    apply cstr_at in Hc as Hc'. destruct Hc' as (HF & Hat & He). rewrite (Hat i c Hci).
    pose proof (Forall_lookup_1 _ _ _ _ HF Hci) as Hcr. cbn in Hcr.
    assert (Hgo : (if upto then Z.of_nat i <=? Z.of_nat (length l0) else Z.of_nat i <? Z.of_nat (length l0)) = true)
      by (destruct upto; [apply Z.leb_le|apply Z.ltb_lt]; lia).
    rewrite Hgo. replace (Z.of_nat i + 1) with (Z.of_nat (S i)) by lia.
    set (m1 := if newline c then _ else _).
    assert (Hm1 : ∀ x, m1 x = if decide (x = s + Z.of_nat i) then norm c else m x).
    { intros x. unfold m1, norm. destruct (newline c); case_decide; subst.
      - by rewrite fn_lookup_insert. - by rewrite fn_lookup_insert_ne. - by apply Hat. - done. }
    destruct (IH fuel (S i) (<[i := norm c]> l0) m1) as (m' & E & Hc1 & Ho); try lia.
    { by rewrite length_insert. }
    { apply cstr_at. rewrite length_insert. split_and!.
      - apply Forall_insert; [done|]. by apply norm_range.
      - intros j d Hj. rewrite Hm1. apply list_lookup_insert_Some in Hj as [(<- & <- & _)|[Hne Hj]].
        + by rewrite decide_True. + rewrite decide_False by lia. by apply Hat.
      - rewrite Hm1, decide_False by lia. done. }
    exists m'. split; [done|]. split.
    + rewrite (drop_S _ c i), fmap_cons by done. rewrite (take_S_r _ i (norm c)) in Hc1 by (by apply list_lookup_insert_eq).
      rewrite take_insert_ge, drop_insert_lt in Hc1 by lia. by rewrite <- app_assoc in Hc1.
    + intros x Hx. rewrite Ho, Hm1, decide_False by lia. done.
Qed.

(** ** The check *)

(** The arrays of [verify_credentials] and its arguments do not overlap. *)
Record apart (entry buf username password : Z) : Prop := Apart {
  ap_entry : entry + ENTRY ≤ buf;
  ap_user : username + 50 ≤ entry ∨ buf + ENTRY ≤ username;
  ap_pass : password + 50 ≤ entry ∨ buf + ENTRY ≤ password
}.

(** The string a zero at [r] leaves. *)
Lemma cstr_cut m p l r : cstr m p l → (r ≤ length l)%nat → cstr (<[p + Z.of_nat r := 0]> m) p (take r l).
Proof.
  rewrite !cstr_at, length_take. intros (Hf & Hi & He) Hr. rewrite Nat.min_l by done. split_and!.
  - by apply Forall_take.
  - intros i c Hc. apply lookup_take_Some in Hc as [Hc Hlt]. rewrite fn_lookup_insert_ne by lia. by apply Hi.
  - apply fn_lookup_insert.
Qed.

(** The string in [entry]: the name, the password and, as the terminator is
    written one byte too far, whatever byte followed them. *)
Definition joined (u p : list Z) (g : Z) : list Z := u ++ p ++ (if g =? 0 then [] else [g]).

Section verify_run.
Context (entry buf username password : Z) (m : mem) (u p f : list Z).
Hypothesis Hap : apart entry buf username password.
Hypothesis Hu : cstr m username u.
Hypothesis Hp : cstr m password p.
Hypothesis Hlu : Z.of_nat (length u) < MAX_USER_LEN.
Hypothesis Hlp : Z.of_nat (length p) < MAX_PASSWD_LEN.
Hypothesis Hbytes : ∀ x, 0 ≤ m x < 2 ^ 8.
Notation lu := (Z.of_nat (length u)).
Notation lp := (Z.of_nat (length p)).
Notation g := (m (entry + lu + lp)).

(** The memory once [entry] is filled in and terminated. *)
Lemma fill_entry :
  let m1 := Ulib.umemmove m entry username (length u) in
  let m2 := Ulib.umemmove m1 (entry + lu) password (length p) in
  ∃ m3, put ENTRY entry (lu + 1 + lp) 0 m2 = Some m3 ∧ cstr m3 entry (joined u p g).
Proof.
  intros m1 m2. destruct Hap as [H1 H2 H3]. unfold ENTRY, MAX_USER_LEN, MAX_PASSWD_LEN in *.
  unfold put. rewrite (proj2 (Z.leb_le 0 _)), (proj2 (Z.ltb_lt _ _)) by lia. cbn [andb]. eexists. split; [done|].
  apply cstr_at in Hu as (Fu & Au & _). apply cstr_at in Hp as (Fp & Ap & _).
  assert (E1 : ∀ x, m1 x = if decide (entry ≤ x < entry + lu) then m (username + (x - entry)) else m x)
    by (intros x; apply copy_fwd_spec; lia).
  assert (E2 : ∀ x, m2 x = if decide (entry + lu ≤ x < entry + lu + lp) then m (password + (x - (entry + lu))) else m1 x).
  { intros x. unfold m2, Ulib.umemmove. rewrite copy_fwd_spec by lia. case_decide; [|done]. rewrite E1, decide_False by lia. done. }
  assert (Eu : ∀ i c, u !! i = Some c → m2 (entry + Z.of_nat i) = c).
  { intros i c Hc. pose proof (lookup_lt_Some _ _ _ Hc). rewrite E2, decide_False, E1, decide_True by lia.
    rewrite <- (Au i c Hc). f_equal. lia. }
  assert (Ep : ∀ i c, p !! i = Some c → m2 (entry + lu + Z.of_nat i) = c).
  { intros i c Hc. pose proof (lookup_lt_Some _ _ _ Hc). rewrite E2, decide_True by lia.
    rewrite <- (Ap i c Hc). f_equal. lia. }
  assert (Eg : m2 (entry + lu + lp) = g) by (rewrite E2, decide_False, E1, decide_False by lia; done).
  apply cstr_at. unfold joined. rewrite !length_app. split_and!.
  - rewrite !Forall_app. split_and!; [done..|]. destruct (Z.eqb_spec g 0); [constructor|].
    apply Forall_singleton. specialize (Hbytes (entry + lu + lp)). lia.
  - intros i c Hc. assert (Hb : (i < length u + length p + 1)%nat).
    { apply lookup_lt_Some in Hc. rewrite !length_app in Hc. destruct (g =? 0); cbn in Hc; lia. }
    rewrite fn_lookup_insert_ne by lia.
    apply lookup_app_Some in Hc as [Hc|[Hge Hc]]; [by apply Eu|].
    apply lookup_app_Some in Hc as [Hc|[Hge' Hc]].
    + rewrite <- (Ep _ _ Hc). f_equal. lia.
    + destruct (g =? 0); [done|]. apply list_lookup_singleton_Some in Hc as [Hz <-]. rewrite <- Eg. f_equal. lia.
  - destruct (Z.eqb_spec g 0) as [Hg|]; cbn [length].
    + rewrite fn_lookup_insert_ne by lia. transitivity (m (entry + lu + lp)); [rewrite <- Eg; f_equal; lia|done].
    + replace (entry + Z.of_nat _) with (entry + (lu + 1 + lp)) by lia. apply fn_lookup_insert.
Qed.

(** The whole check, when [read] returned [f], of no more bytes than were typed. *)
Lemma verify_run : Forall (λ c, 0 < c < 2 ^ 8) f → (length f ≤ length u + length p)%nat →
  ∃ r m', verify_credentials entry buf true (Some f) username password m = Some (r, m') ∧
    (r = 0 ↔ norm <$> f = take (length f) (norm <$> u ++ p)) ∧ (r = 0 ∨ r = -1).
Proof.
  intros Hf Hlen. destruct fill_entry as (m3 & E3 & C3). pose proof Hap as [H1 H2 H3].
  assert (HE : ENTRY = 81) by done. unfold MAX_USER_LEN, MAX_PASSWD_LEN in *.
  unfold verify_credentials. cbn [negb].
  rewrite (strlen_spec _ _ _ _ Hu), (strlen_spec _ _ _ _ Hp) by lia.
  cbn [mbind option_bind]. unfold MAX_USER_LEN at 1, MAX_PASSWD_LEN at 1.
  rewrite (proj2 (Z.leb_gt 40 lu)), (proj2 (Z.leb_gt 40 lp)), !Nat2Z.id by lia. cbn [orb].
  rewrite E3. cbn [mbind option_bind].
  set (e := joined u p g) in *.
  assert (Hle : (length u + length p ≤ length e ≤ length u + length p + 1)%nat).
  { unfold e, joined. rewrite !length_app. destruct (g =? 0); cbn; lia. }
  destruct (blank_run false entry e ltac:(lia) (length e) (S (Z.to_nat ENTRY)) 0 e m3)
    as (m4 & E4 & C4 & _); [done|lia|lia|lia|done|]. change (Z.of_nat 0) with 0 in E4. rewrite E4. cbn [mbind option_bind default id from_option].
  rewrite take_0, drop_0 in C4. cbn [app] in C4.
  change (id f) with f. set (m5 := file_into m4 buf f). unfold put. rewrite (proj2 (Z.leb_le 0 _)), (proj2 (Z.ltb_lt _ ENTRY)) by lia.
  cbn [andb mbind option_bind].
  set (m6 := <[entry + Z.of_nat (length f) := 0]> (<[buf + Z.of_nat (length f) := 0]> m5)).
  assert (Cb : cstr m6 buf f).
  { apply cstr_at. split; [done|]. unfold m6. split.
    - intros i c Hc. pose proof (lookup_lt_Some _ _ _ Hc). rewrite !fn_lookup_insert_ne by lia.
      unfold m5, file_into. rewrite (proj2 (Z.leb_le buf _)), (proj2 (Z.ltb_lt _ (buf + _))) by lia. cbn [andb].
      replace (Z.to_nat (buf + Z.of_nat i - buf)) with i by lia. by apply nth_lookup_Some.
    - rewrite fn_lookup_insert_ne by lia. apply fn_lookup_insert. }
  assert (Ce : cstr m6 entry (take (length f) (norm <$> e))).
  { unfold m6. apply cstr_cut; [|rewrite length_fmap; lia]. apply (cstr_ext m4); [|done].
    rewrite length_fmap. intros x Hx. rewrite fn_lookup_insert_ne by lia.
    unfold m5, file_into. by rewrite (proj2 (Z.leb_gt buf x)) by lia. }
  destruct (blank_run true buf f ltac:(lia) (length f) (S (Z.to_nat ENTRY)) 0 f m6)
    as (m7 & E7 & C7 & O7); [done|lia|lia|lia|done|]. change (Z.of_nat 0) with 0 in E7. rewrite E7. cbn [mbind option_bind].
  rewrite take_0, drop_0 in C7. cbn [app] in C7.
  assert (Ce7 : cstr m7 entry (take (length f) (norm <$> e))).
  { apply (cstr_ext m6); [|done]. rewrite length_take, length_fmap. intros x Hx. apply O7. lia. }
  destruct (strcmp_run _ (Z.to_nat ENTRY) m7 buf entry _ C7 Ce7) as (r & Er & Hr); [rewrite length_fmap; lia|].
  rewrite Er. cbn [mbind option_bind]. eexists _, _. split; [done|].
  assert (Htake : take (length f) (norm <$> e) = take (length f) (norm <$> u ++ p)).
  { unfold e, joined. rewrite app_assoc, fmap_app, take_app_le; [done|]. rewrite length_fmap, length_app. lia. }
  rewrite Htake in Hr. destruct (Z.eqb_spec r 0) as [Hz|Hn]; (split; [|by auto]).
  - split; [intros _; by apply Hr|done].
  - split; [lia|]. intros Hx. exfalso. by apply Hn, Hr.
Qed.
End verify_run.

(** ** Theorems *)

(** Which input the password check accepts: the one that starts with the bytes
    of the password file, line ends counting as spaces.  Where the name ends and
    the password begins does not matter, and neither does anything typed after
    the last byte of the file. *)
Theorem login_accepts entry buf username password m u p f :
  apart entry buf username password → cstr m username u → cstr m password p →
  Z.of_nat (length u) < MAX_USER_LEN → Z.of_nat (length p) < MAX_PASSWD_LEN →
  (∀ x, 0 ≤ m x < 2 ^ 8) → Forall (λ c, 0 < c < 2 ^ 8) f → (length f ≤ length u + length p)%nat →
  ∃ r m', verify_credentials entry buf true (Some f) username password m = Some (r, m') ∧
    (r = 0 ↔ norm <$> f `prefix_of` norm <$> u ++ p).
Proof.
  intros. destruct (verify_run entry buf username password m u p f) as (r & m' & E & Hr & _); [done..|].
  exists r, m'. split; [done|]. rewrite Hr. split.
  - intros ->. exists (drop (length f) (norm <$> u ++ p)). by rewrite take_drop.
  - intros [k ->]. rewrite take_app_length'; [done|]. by rewrite length_fmap.
Qed.

(** A long line is cut: [gets] stores at most [max - 1] characters, up to and
    including a line end, terminates them, and leaves the rest to be read. *)
Lemma gets_loop_run chars : ∀ fuel m buf i, 0 ≤ i →
  let l := take fuel chars in
  let n := match list_find (λ c, newline c = true) l with Some (k, _) => S k | None => length l end in
  ∃ m', gets_loop m buf i fuel chars = (m', i + Z.of_nat n, drop n chars) ∧
    ∀ x, m' x = if decide (buf + i ≤ x < buf + i + Z.of_nat n) then nth (Z.to_nat (x - (buf + i))) chars 0 else m x.
Proof.
  induction chars as [|c chars IH]; intros [|fuel] m buf i Hi; cbn [take gets_loop].
  1-3: exists m; cbn; rewrite Z.add_0_r; split; [done|]; intros x; by rewrite decide_False by lia.
  cbn [list_find]. fold (newline c). destruct (newline c) eqn:Hc.
  - rewrite decide_True by done. eexists. split; [done|]. intros x. cbn [drop].
    destruct (decide (x = buf + i)) as [->|Hne].
    + rewrite fn_lookup_insert, decide_True by lia. by rewrite Z.sub_diag.
    + rewrite fn_lookup_insert_ne, decide_False by lia. done.
  - rewrite decide_False by done.
    destruct (IH fuel (<[buf + i := c]> m) buf (i + 1) ltac:(lia)) as (m' & E & Hm).
    set (n := match list_find _ (take fuel chars) with Some _ => _ | None => _ end) in *.
    exists m'. replace (match prod_map S id <$> list_find _ (take fuel chars) with Some _ => _ | None => _ end) with (S n).
    2: { unfold n. by destruct (list_find _ (take fuel chars)) as [[]|]. }
    rewrite E. split; [f_equal; f_equal; lia|]. intros x. rewrite Hm.
    destruct (decide (x = buf + i)) as [->|Hne].
    + rewrite decide_False, fn_lookup_insert, decide_True by lia. by rewrite Z.sub_diag.
    + rewrite fn_lookup_insert_ne by done. destruct (decide (buf + (i + 1) ≤ x < _)).
      * rewrite decide_True by lia. replace (Z.to_nat (x - (buf + i))) with (S (Z.to_nat (x - (buf + (i + 1))))) by lia. done.
      * by rewrite decide_False by lia.
Qed.

(** Where the line being read ends: after the first line end, if there is one. *)
Definition line_length (l : list Z) : nat :=
  match list_find (λ c, newline c = true) l with Some (k, _) => S k | None => length l end.

(** [gets] stores the characters up to and including the first line end, at
    most [max - 1] of them, with a zero after them; the others are left for the
    next read, and nothing outside of the [max] bytes is written. *)
Theorem gets_line m buf max chars : 0 < max →
  let n := line_length (take (Z.to_nat (max - 1)) chars) in
  ∃ m', gets m buf max chars = (m', drop n chars) ∧
    (∀ k, (k < n)%nat → m' (buf + Z.of_nat k) = nth k chars 0) ∧ m' (buf + Z.of_nat n) = 0 ∧
    (∀ x, ¬ (buf ≤ x < buf + max) → m' x = m x).
Proof.
  intros Hmax n. destruct (gets_loop_run chars (Z.to_nat (max - 1)) m buf 0 ltac:(lia)) as (m1 & E & Hm).
  fold (line_length (take (Z.to_nat (max - 1)) chars)) in E, Hm. fold n in E, Hm.
  assert (Hn : (n ≤ Z.to_nat (max - 1))%nat).
  { unfold n, line_length. destruct (list_find _ _) as [[k c]|] eqn:Hf; [|rewrite length_take; lia].
    apply list_find_Some in Hf as (Hk & _). apply lookup_lt_Some in Hk. rewrite length_take in Hk. lia. }
  unfold gets. rewrite E. eexists. split; [done|]. rewrite Z.add_0_l. rewrite Z.add_0_r in Hm. split_and!.
  - intros k Hk. rewrite fn_lookup_insert_ne, Hm, decide_True by lia. f_equal. lia.
  - apply fn_lookup_insert.
  - intros x Hx. rewrite fn_lookup_insert_ne, Hm, decide_False by lia. done.
Qed.

(** The bytes of a line typed at the console, and those of /passwd. *)
Definition bytes (l : string) : list Z := map (λ a, Z.of_nat (Ascii.nat_of_ascii a)) (String.list_ascii_of_string l).
Definition typed_line (l : string) : list Z := bytes l ++ [LF].
Definition passwd : option (list Z) := Some (bytes "dustyn password").

Definition log_in (chars : list Z) : option bool := login 400 500 4 0 200 300 passwd (λ _, 0) chars.

(** The static arrays keep what was typed before: the right name and password
    are accepted, and refused after an attempt with a longer name. *)
Theorem login_keeps_old_name :
  log_in (typed_line "dustyn" ++ typed_line "password") = Some true ∧
  log_in (typed_line "administrator" ++ typed_line "x" ++ typed_line "dustyn" ++ typed_line "password") = Some false.
Proof. split; vm_compute; reflexivity. Qed.

(** ** Witnesses *)

Definition typed_at : mem := file_into (file_into (λ _, 0) 200 (typed_line "dustyn")) 300 (typed_line "password1").

Lemma login_accepts_witness :
  ∃ r m', verify_credentials 400 500 true passwd 200 300 typed_at = Some (r, m') ∧ r = 0.
Proof.
  destruct (login_accepts 400 500 200 300 typed_at (typed_line "dustyn") (typed_line "password1") (bytes "dustyn password"))
    as (r & m' & E & Hr).
  - split; [vm_compute; discriminate|left; vm_compute; discriminate|left; vm_compute; discriminate].
  - vm_compute. repeat split; reflexivity.
  - vm_compute. repeat split; reflexivity.
  - vm_compute. reflexivity.
  - vm_compute. reflexivity.
  - intros x. unfold typed_at, file_into.
    repeat match goal with |- context [if ?b then _ else _] => destruct b end; try lia.
    all: match goal with |- context [nth ?n ?l 0] =>
      assert (Hf : Forall (λ c, 0 ≤ c < 2 ^ 8) l) by (vm_compute; repeat constructor; discriminate);
      destruct (nth_in_or_default n l 0) as [Hin| ->]; [|lia]; rewrite Forall_forall in Hf;
      apply Hf, list_elem_of_In, Hin end.
  - vm_compute. repeat constructor.
  - vm_compute. lia.
  - exists r, m'. split; [exact E|]. apply Hr. exists [49; SPACE]. vm_compute. reflexivity.
Defined.

Lemma gets_line_witness : ∃ m', gets (λ _, 7) 10 3 [65; 66; 67] = (m', [67]) ∧ m' 12 = 0.
Proof.
  destruct (gets_line (λ _, 7) 10 3 [65; 66; 67]) as (m' & E & _ & Hz & _); [lia|].
  exists m'. split; [exact E|exact Hz].
Defined.
