(* ===== verification/Coreutils.v ===== *)
(** * Small user programs: user/wc.c, user/cat.c and fmtname of user/ls.c

    What [read] and [write] return is an argument: the pieces a file is read in,
    and how the last read ends.  The theorems say that the programs do not
    depend on how a file is cut into pieces, and what they print. *)
From stdpp Require Import base decidable option list functions numbers strings sets.
From Stdlib Require Import ZArith Lia.
From Stdlib Require Ascii String.
From S2P Require Import Prelude CString Printf.

Local Open Scope Z_scope.

(** The bytes of a string literal. *)
Definition text_of (s : string) : list Z := map (λ a, Z.of_nat (Ascii.nat_of_ascii a)) (String.list_ascii_of_string s).

(** ** wc *)

(** [" \r\t\n\v"] *)
Definition separators : list Z := [32; 13; 9; 10; 11].

(** [strchr] of a character in the string of separators. *)
Definition separator (c : Z) : bool := existsb (Z.eqb c) separators.

Record counts := Counts { n_l : Z; n_w : Z; n_c : Z; inword : bool }.

(** One round of the inner loop. *)
Definition wc_char (s : counts) (c : Z) : counts :=
  let n := s32 (n_c s + 1) in
  let l := if c =? 10 then s32 (n_l s + 1) else n_l s in
  if separator c then Counts l (n_w s) n false
  else if negb (inword s) then Counts l (s32 (n_w s + 1)) n true
  else Counts l (n_w s) n (inword s).

(** The loop over the reads. *)
Fixpoint wc_loop (s : counts) (reads : list (list Z)) : counts :=
  match reads with
  | [] => s
  | buf :: reads => wc_loop (fold_left wc_char buf s) reads
  end.

Inductive wc_result := Printed (l w c : Z) | ReadError.

(** [wc]: [last] is what the read that ends the loop returned. *)
Definition wc (reads : list (list Z)) (last : Z) : wc_result :=
  let s := wc_loop (Counts 0 0 0 false) reads in
  if last <? 0 then ReadError else Printed (n_l s) (n_w s) (n_c s).

(** ["%d %d %d %s\n"], ["wc: read error\n"] and ["wc: cannot open %s\n"] *)
Definition wc_format : list Z := [37; 100; 32; 37; 100; 32; 37; 100; 32; 37; 115; 10].
Definition wc_read_error : list Z := text_of "wc: read error" ++ [10].
Definition wc_no_open : list Z := text_of "wc: cannot open %s" ++ [10].

(** How a file given on the command line answers: [open] fails, or the reads
    return the pieces and then [last]. *)
Inductive answer := CannotOpen | Reads (pieces : list (list Z)) (last : Z).

Section wc.
Context (cstring : Z → list Z).

(** The loop of [main] over the names; a failing [open] or [read] prints and exits. *)
Fixpoint wc_main (args : list (Z * answer)) : option (list Z) :=
  match args with
  | [] => Some []
  | (name, CannotOpen) :: _ => printf cstring (λ k, nth k [name] 0) wc_no_open
  | (name, Reads pieces last) :: args =>
      match wc pieces last with
      | ReadError => printf cstring (λ _, 0) wc_read_error
      | Printed l w c =>
          line ← printf cstring (λ k, nth k [l; w; c; name] 0) wc_format;
          out ← wc_main args;
          Some (line ++ out)
      end
  end.

End wc.

(** ** cat *)

Inductive cat_end := Copied | WriteError | CatReadError.

(** [cat]: [took out n] is what [write] returns for [n] bytes after [out] has
    been written; the bytes written come with how it ends. *)
Fixpoint cat (took : list Z → Z → Z) (out : list Z) (reads : list (list Z)) (last : Z) : list Z * cat_end :=
  match reads with
  | [] => (out, if last <? 0 then CatReadError else Copied)
  | buf :: reads =>
      let n := Z.of_nat (length buf) in
      let w := took out n in
      if negb (w =? n) then (out ++ take (Z.to_nat w) buf, WriteError)
      else cat took (out ++ buf) reads last
  end.

(** ** fmtname *)

Definition DIRSIZ : Z := 14.
Definition SLASH : Z := 47.
Definition BLANK : Z := 32.

(** [for(p=path+strlen(path); p >= path && *p != '/'; p--);] from [p] down. *)
Fixpoint last_slash (fuel : nat) (m : mem) (path p : Z) : option Z :=
  match fuel with
  | O => None
  | S fuel => if (path <=? p) && negb (m p =? SLASH) then last_slash fuel m path (p - 1) else Some p
  end.

(** [fmtname]: the address of the name, and the memory with the static buffer. *)
Definition fmtname (fuel : nat) (buf path : Z) (m : mem) : option (Z * mem) :=
  n ← strlen fuel m path;
  p ← last_slash (S fuel) m path (path + n);
  let p := p + 1 in
  k ← strlen fuel m p;
  if DIRSIZ <=? k then Some (p, m)
  else
    let m := Ulib.umemmove m buf p (Z.to_nat k) in
    k ← strlen fuel m p;
    let m := Ulib.umemset m (buf + k) BLANK (Z.to_nat (DIRSIZ - k)) in
    Some (buf, m).

(** ** Counting *)

(** The words of a text: the runs of other characters between separators. *)
Fixpoint words_from (inside : bool) (l : list Z) : nat :=
  match l with
  | [] => O
  | c :: l => if separator c then words_from false l else ((if inside then 0 else 1) + words_from true l)%nat
  end.

(** A text is cut at its separators; what is left between them and is not
    empty is a word. *)
Fixpoint cut_at (l : list Z) : list (list Z) :=
  match l with
  | [] => [[]]
  | c :: l =>
      if separator c then [] :: cut_at l
      else match cut_at l with w :: ws => (c :: w) :: ws | [] => [[c]] end
  end.

Definition words (l : list Z) : list (list Z) := filter (λ w, w ≠ []) (cut_at l).

Lemma cut_at_ne l : cut_at l ≠ [].
Proof. destruct l as [|c l]; cbn [cut_at]; [done|]. destruct (separator c); [done|]. by destruct (cut_at l). Qed.

Lemma words_from_spec l : words_from false l = length (words l) ∧
  words_from true l = length (filter (λ w, w ≠ []) (tail (cut_at l))).
Proof.
  unfold words. induction l as [|c l [IH1 IH2]]; [done|]. cbn [words_from cut_at].
  destruct (separator c).
  - split; [rewrite filter_cons_False by (intros []; done); exact IH1|cbn [tail]; exact IH1].
  - pose proof (cut_at_ne l). destruct (cut_at l) as [|w ws]; [done|]. cbn [tail] in *.
    split; [rewrite filter_cons_True by done; cbn; by rewrite IH2|exact IH2].
Qed.

Lemma words_le b l : (words_from b l ≤ length l)%nat.
Proof.
  revert b. induction l as [|c l IH]; intros b; cbn [words_from length]; [lia|].
  destruct (separator c); [specialize (IH false)|specialize (IH true); destruct b]; lia.
Qed.

Definition lines (l : list Z) : nat := length (filter (λ c, c = 10) l).

Lemma wc_chars l : ∀ s, 0 ≤ n_l s → 0 ≤ n_w s → 0 ≤ n_c s →
  n_l s + Z.of_nat (length l) < 2 ^ 31 → n_w s + Z.of_nat (length l) < 2 ^ 31 → n_c s + Z.of_nat (length l) < 2 ^ 31 →
  ∃ b, fold_left wc_char l s =
    Counts (n_l s + Z.of_nat (lines l)) (n_w s + Z.of_nat (words_from (inword s) l)) (n_c s + Z.of_nat (length l)) b.
Proof.
  induction l as [|c l IH]; intros s H1 H2 H3 H4 H5 H6.
  - exists (inword s). cbn. rewrite !Z.add_0_r. by destruct s.
  - cbn [length] in *. cbn [fold_left].
    assert (El : lines (c :: l) = ((if Z.eqb c 10 then 1 else 0) + lines l)%nat).
    { unfold lines. rewrite filter_cons. destruct (Z.eqb_spec c 10); [by rewrite decide_True|by rewrite decide_False]. }
    destruct (IH (wc_char s c)) as (b & E);
      try (unfold wc_char; rewrite ?s32_small by lia; destruct (separator c), (inword s), (c =? 10); cbn; lia).
    exists b. rewrite E, El. unfold wc_char. rewrite !s32_small by lia.
    cbn [words_from]. destruct (separator c), (inword s), (c =? 10); cbn [n_l n_w n_c inword negb]; f_equal; lia.
Qed.

Lemma wc_loop_join reads s : wc_loop s reads = fold_left wc_char (mjoin reads) s.
Proof.
  revert s. induction reads as [|b reads IH]; intros s; [done|].
  change (mjoin (b :: reads)) with (b ++ mjoin reads). rewrite fold_left_app. apply IH.
Qed.

Lemma wc_run reads last : 0 ≤ last → Z.of_nat (length (mjoin reads)) < 2 ^ 31 →
  wc reads last = Printed (Z.of_nat (lines (mjoin reads))) (Z.of_nat (length (words (mjoin reads))))
    (Z.of_nat (length (mjoin reads))).
Proof.
  intros Hl Hn. unfold wc. rewrite (proj2 (Z.ltb_ge last 0)), wc_loop_join by lia.
  destruct (wc_chars (mjoin reads) (Counts 0 0 0 false)) as (b & E); cbn; try lia.
  rewrite E. cbn [n_l n_w n_c inword]. by rewrite (proj1 (words_from_spec _)).
Qed.

(** The line for one file: three decimal numbers and the name. *)
Definition wc_line (cstring : Z → list Z) (file : Z * list Z) (out : list Z) : Prop :=
  ∃ l w c, printed digits 10 (Z.of_nat (lines file.2)) true l ∧
    printed digits 10 (Z.of_nat (length (words file.2))) true w ∧
    printed digits 10 (Z.of_nat (length file.2)) true c ∧
    out = l ++ [32] ++ w ++ [32] ++ c ++ [32] ++ string_arg cstring file.1 ++ [10].

Lemma words_length l : (length (words l) ≤ length l)%nat.
Proof. rewrite <- (proj1 (words_from_spec l)). apply words_le. Qed.

Lemma lines_length l : (lines l ≤ length l)%nat.
Proof. apply length_filter. Qed.

Lemma wc_line_run cstring name text : Z.of_nat (length text) < 2 ^ 31 →
  ∃ out, printf cstring (λ k, nth k [Z.of_nat (lines text); Z.of_nat (length (words text)); Z.of_nat (length text); name] 0)
    wc_format = Some out ∧ wc_line cstring (name, text) out.
Proof.
  intros Hn. pose proof (words_length text). pose proof (lines_length text).
  set (ap := λ k : nat, _). destruct (printf_loop_renders cstring ap (length wc_format) wc_format 0) as (out & E & R); [done|].
  exists out. split; [exact E|]. cbn in R.
  repeat match goal with H : renders _ _ (_ :: _) _ _ |- _ => inversion H; clear H; subst end.
  match goal with H : renders _ _ [] _ _ |- _ => inversion H; subst end.
  unfold ap in *. cbn [nth] in *. rewrite s32_small in * by lia.
  do 3 eexists. cbn [fst snd]. split_and!; [eassumption..|]. cbn. by rewrite <- ?app_assoc.
Qed.

(** Given readable files shorter than 2^31 bytes, [wc] prints for each of them,
    in the order of the command line, the number of its lines, words and bytes,
    however the reads cut the files: a word that spans two reads is counted once. *)
Theorem wc_prints cstring args :
  Forall (λ a, 0 ≤ a.2.2 ∧ Z.of_nat (length (mjoin a.2.1)) < 2 ^ 31) args →
  ∃ out, wc_main cstring (map (λ a, (a.1, Reads a.2.1 a.2.2)) args) = Some (mjoin out) ∧
    Forall2 (wc_line cstring) (map (λ a, (a.1, mjoin a.2.1)) args) out.
Proof.
  induction 1 as [|[name [pieces last]] args [Hl Hn] _ (out & E & IH)]; [by exists []|].
  cbn [fst snd map] in *. destruct (wc_line_run cstring name _ Hn) as (line & El & Hline).
  exists (line :: out). split; [|by constructor]. cbn [wc_main]. rewrite wc_run, El, E by done. done.
Qed.

Lemma wc_prints_witness :
  wc_main (λ _, text_of "a b") [(1, Reads [text_of "one tw"; text_of "o" ++ [10]; text_of "three"] 0)] =
    Some (text_of "1 3 13 a b" ++ [10]) ∧
  ∃ out, wc_main (λ _, text_of "a b") [(1, Reads [text_of "one tw"; text_of "o" ++ [10]; text_of "three"] 0)] = Some (mjoin out) ∧
    Forall2 (wc_line (λ _, text_of "a b")) [(1, text_of "one two" ++ [10] ++ text_of "three")] out.
Proof.
  split; [vm_compute; reflexivity|].
  apply (wc_prints (λ _, text_of "a b") [(1, ([text_of "one tw"; text_of "o" ++ [10]; text_of "three"], 0))]).
  repeat constructor; cbn; lia.
Defined.

(** Whatever [write] returns, what [cat] has written is a prefix of its input,
    and it ends without an error only with all of it written and the end of the
    file reached; it does so when every byte is taken. *)
Theorem cat_copies took reads last :
  let '(out, e) := cat took [] reads last in
  out `prefix_of` mjoin reads ∧ (e = Copied → out = mjoin reads ∧ 0 ≤ last) ∧
  ((∀ o n, took o n = n) → out = mjoin reads ∧ (0 ≤ last → e = Copied)).
Proof.
  assert (H : ∀ out, let '(o, e) := cat took out reads last in
    ∃ k, o = out ++ k ∧ k `prefix_of` mjoin reads ∧ (e = Copied → k = mjoin reads ∧ 0 ≤ last) ∧
      ((∀ o n, took o n = n) → k = mjoin reads ∧ (0 ≤ last → e = Copied))).
  { induction reads as [|b reads IH]; intros out; cbn [cat].
    - exists []. rewrite app_nil_r. destruct (Z.ltb_spec last 0); split_and!; try done; intros _; split; done || lia.
    - change (mjoin (b :: reads)) with (b ++ mjoin reads).
      destruct (Z.eqb_spec (took out (Z.of_nat (length b))) (Z.of_nat (length b))) as [_|Hw]; cbn [negb].
      + specialize (IH (out ++ b)). destruct (cat took (out ++ b) reads last) as [o e].
        destruct IH as (k & -> & Hp & He & Ht). exists (b ++ k). rewrite app_assoc.
        split_and!; [done|by apply prefix_app|intros E; destruct (He E); by subst|].
        intros E. destruct (Ht E). by subst.
      + exists (take (Z.to_nat (took out (Z.of_nat (length b)))) b).
        split_and!; [done| |done|intros E; by rewrite E in Hw]. apply prefix_app_r, prefix_take. }
  specialize (H []). destruct (cat took [] reads last) as [o e]. destruct H as (k & -> & H). exact H.
Qed.

(** ** Names *)

Lemma last_slash_run m path k : ∀ n fuel, (∀ j, k < j ≤ n → m (path + j) ≠ SLASH) → -1 ≤ k ≤ n →
  (k = -1 ∨ m (path + k) = SLASH) → n - k < Z.of_nat fuel →
  last_slash fuel m path (path + n) = Some (path + k).
Proof.
  intros n fuel. revert n. induction fuel as [|fuel IH]; intros n Hj Hk Hs Hf; [lia|]. cbn [last_slash].
  destruct (decide (n = k)) as [->|Hne].
  - destruct Hs as [->|Hs].
    + by rewrite (proj2 (Z.leb_gt _ _)) by lia.
    + rewrite Hs, Z.eqb_refl. by rewrite andb_false_r.
  - rewrite (proj2 (Z.leb_le _ _)), (proj2 (Z.eqb_neq _ _)) by (try apply Hj; lia). cbn [andb negb].
    replace (path + n - 1) with (path + (n - 1)) by lia. apply IH; [intros j Hj'; apply Hj|..]; lia || done.
Qed.

(** A name of at most [DIRSIZ] bytes in a directory listing: filled up with
    blanks, longer ones as they are. *)
Definition listed (name : list Z) : list Z := name ++ replicate (Z.to_nat DIRSIZ - length name) BLANK.

Lemma cstr_suffix m p l k : cstr m p (l ++ k) → cstr m (p + Z.of_nat (length l)) k.
Proof.
  intros (Hr & Hi & He)%cstr_at. rewrite length_app in He. apply Forall_app in Hr as [_ Hr].
  apply cstr_at. split; [done|]. split; [|rewrite <- He; f_equal; lia].
  intros i c E. rewrite <- (Hi (length l + i)%nat c); [f_equal; lia|by rewrite lookup_app_r, Nat.add_sub' by lia].
Qed.

Lemma last_slash_base fuel m path dir name :
  (dir = [] ∨ ∃ d, dir = d ++ [SLASH]) → SLASH ∉ name → cstr m path (dir ++ name) → (length (dir ++ name) < fuel)%nat →
  last_slash (S fuel) m path (path + Z.of_nat (length (dir ++ name))) = Some (path + (Z.of_nat (length dir) - 1)).
Proof.
  intros Hd Hs (_ & Hi & He)%cstr_at Hf. rewrite length_app in *. apply last_slash_run; [|lia| |lia].
  - intros j Hj E. destruct (decide (j = Z.of_nat (length dir + length name))) as [->|Hne]; [by rewrite He in E|].
    destruct (lookup_lt_is_Some_2 name (Z.to_nat j - length dir)) as [c Hc]; [lia|]. apply Hs.
    replace j with (Z.of_nat (Z.to_nat j)) in E by lia. rewrite (Hi (Z.to_nat j) c) in E by (by rewrite lookup_app_r by lia).
    rewrite <- E. by eapply list_elem_of_lookup_2.
  - destruct Hd as [->|(d & ->)]; [left; cbn; lia|right]. rewrite length_app. cbn [length].
    replace (Z.of_nat (length d + 1) - 1) with (Z.of_nat (length d)) by lia. apply Hi.
    by rewrite <- app_assoc, lookup_app_r, Nat.sub_diag by lia.
Qed.

(** Copying a short name to the buffer and filling it up. *)
Lemma padded m buf p name : cstr m p name → Z.of_nat (length name) < DIRSIZ →
  buf + DIRSIZ < p ∨ p + Z.of_nat (length name) < buf → m (buf + DIRSIZ) = 0 →
  cstr (Ulib.umemset (Ulib.umemmove m buf p (length name)) (buf + Z.of_nat (length name)) BLANK
    (Z.to_nat (DIRSIZ - Z.of_nat (length name)))) buf (listed name).
Proof.
  intros (Hr & Hi & He)%cstr_at Hl Hap Hb. unfold listed, DIRSIZ in *. apply cstr_at.
  assert (At : ∀ x, Ulib.umemset (Ulib.umemmove m buf p (length name)) (buf + Z.of_nat (length name)) BLANK
    (Z.to_nat (14 - Z.of_nat (length name))) x =
    if decide (buf + Z.of_nat (length name) ≤ x < buf + 14) then BLANK
    else if decide (buf ≤ x < buf + Z.of_nat (length name)) then m (p + (x - buf)) else m x).
  { intros x. unfold Ulib.umemset, Ulib.umemmove. rewrite stosb_spec, copy_fwd_spec by lia.
    repeat case_decide; try lia; reflexivity || (f_equal; lia). }
  split; [|split].
  - apply Forall_app. split; [done|]. by apply Forall_replicate.
  - intros i c E. rewrite At. destruct (decide (i < length name)%nat).
    + rewrite lookup_app_l in E by lia. rewrite decide_False, decide_True by lia.
      rewrite <- (Hi i c E). f_equal. lia.
    + rewrite lookup_app_r in E by lia. apply lookup_replicate in E as [-> E]. by rewrite decide_True by lia.
  - rewrite At, length_app, length_replicate. rewrite !decide_False by lia. rewrite <- Hb. f_equal. lia.
Qed.

(** For a path that is a C string apart from the static buffer, whose last byte
    is never written, [fmtname] ends and returns the component after the last
    slash, or the whole path when it has none, filled up with blanks to
    [DIRSIZ]; the path is as it was. *)
Theorem fmtname_lists fuel buf path m dir name :
  (dir = [] ∨ ∃ d, dir = d ++ [SLASH]) → SLASH ∉ name → cstr m path (dir ++ name) →
  m (buf + DIRSIZ) = 0 → buf + DIRSIZ < path ∨ path + Z.of_nat (length (dir ++ name)) < buf →
  (length (dir ++ name) < fuel)%nat →
  ∃ a m', fmtname fuel buf path m = Some (a, m') ∧ cstr m' a (listed name) ∧ cstr m' path (dir ++ name).
Proof.
  intros Hd Hs Hc Hb Hap Hf. pose proof (cstr_suffix _ _ _ _ Hc) as Hn. pose proof (length_app dir name) as Hlen.
  unfold fmtname, strlen. rewrite (strlen_from_cstr (dir ++ name)) by (rewrite ?Z.add_0_r; done).
  cbn [mbind option_bind]. rewrite Z.add_0_l, (last_slash_base _ _ _ _ _ Hd Hs Hc Hf). cbn [mbind option_bind].
  replace (path + (Z.of_nat (length dir) - 1) + 1) with (path + Z.of_nat (length dir)) by lia.
  rewrite (strlen_from_cstr name) by (rewrite ?Z.add_0_r; done || lia). cbn [mbind option_bind]. rewrite Z.add_0_l.
  destruct (Z.leb_spec DIRSIZ (Z.of_nat (length name))) as [Hl|Hl].
  { do 2 eexists. split; [done|]. unfold listed, DIRSIZ in *. replace (Z.to_nat 14 - length name)%nat with O by lia. by rewrite app_nil_r. }
  rewrite Nat2Z.id. assert (Hm1 : ∀ x, path ≤ x ≤ path + Z.of_nat (length (dir ++ name)) →
    Ulib.umemmove m buf (path + Z.of_nat (length dir)) (length name) x = m x).
  { intros x Hx. unfold Ulib.umemmove. rewrite copy_fwd_spec by (unfold DIRSIZ in *; lia). rewrite decide_False by (unfold DIRSIZ in *; lia). done. }
  rewrite (strlen_from_cstr name);
    [|rewrite Z.add_0_r; apply (cstr_ext m); [intros x Hx; apply Hm1; lia|done]|lia].
  cbn [mbind option_bind]. rewrite Z.add_0_l. do 2 eexists. split; [done|]. split.
  - apply padded; [done..| |done]. lia.
  - apply (cstr_ext m); [|done]. intros x Hx. unfold Ulib.umemset. rewrite stosb_spec, decide_False by (unfold DIRSIZ in *; lia). by apply Hm1.
Qed.

Lemma fmtname_lists_witness :
  ∃ a m', fmtname 9 100 10 (<[10 := 47]> (<[11 := 97]> (λ _, 0))) = Some (a, m') ∧
    cstr m' a (97 :: replicate 13 BLANK) ∧ cstr m' 10 [47; 97].
Proof.
  apply (fmtname_lists 9 100 10 _ [47] [97]); [right; by exists []| |by vm_compute|done|cbn; lia|cbn; lia].
  intros H%list_elem_of_singleton. discriminate H.
Defined.
