(* ===== verification/Trap.v ===== *)
(** * Traps and the process system calls: kernel/trap/trap.c and
    kernel/syscall/sysproc.c

    [trap] as a thread of the process code runs it: what the other interrupt
    handlers do, the remaining system calls and the memory of the current
    process are the interface [TrapEnv].  [ticks] is a global of [sys]. *)
From stdpp Require Import base decidable option list functions numbers strings sets.
From Stdlib Require Import ZArith Lia.
From S2P Require Import Prelude CString Traps Locks FileDefs File Syscall ProcDefs Queue Sched Proc.

Local Open Scope Z_scope.

(** ** The interrupt table *)

Definition SEG_KCODE : Z := 1.
Definition STS_IG32 : Z := 14.
Definition STS_TG32 : Z := 15.

Record gatedesc := Gate {
  off_15_0 : Z; gcs : Z; args : Z; rsv1 : Z; type : Z; gs : Z; dpl : Z; present : Z; off_31_16 : Z
}.

(** [SETGATE], each field cut to its width. *)
Definition SETGATE (istrap : bool) (sel off d : Z) : gatedesc :=
  Gate (u16 (Z.land (u32 off) 65535)) (u16 sel) 0 0 (if istrap then STS_TG32 else STS_IG32) 0 (d mod 4) 1
    (u16 (Z.shiftr (u32 off) 16)).

(** [tvinit]: the interrupt table and the lock of [ticks]. *)
Definition TicksLock : lockid := OtherLock 1.

Definition tvinit (vectors : nat → Z) : M ks (nat → gatedesc) :=
  let idt := λ i, if bool_decide (i < 256)%nat then SETGATE false (Z.shiftl SEG_KCODE 3) (vectors i) 0
                  else Gate 0 0 0 0 0 0 0 0 0 in
  let idt := <[Z.to_nat T_SYSCALL := SETGATE true (Z.shiftl SEG_KCODE 3) (vectors (Z.to_nat T_SYSCALL)) DPL_USER]> idt in
  _ ← initlock TicksLock;
  mret idt.

(** [&ticks] *)
Definition ticks_chan : wchan := AddrChan 1.

(** The offset of [head] in [struct pqueue], after its spinlock. *)
Definition HEAD_OFFSET : Z := 52.

(** ** The rest of the kernel *)

Class TrapEnv (W : Type) := {
  ideintr : M (pst W) ();
  ideintr2 : M (pst W) ();
  kbdintr : M (pst W) ();
  uartintr : M (pst W) ();
  eoi : W → W;                              (* the write to the local APIC *)
  user : W → usys;                          (* files and memory of the current process *)
  proc_ptr : nat → Z;                       (* &ptable.proc[i] *)
  other_calls : Z → option (M (pst W) Z);   (* the handlers of sysfile.c *)
  user_eoi : ∀ w, umem (user (eoi w)) = umem (user w)
}.

Section trap.
Context {W : Type} `{ENV : !ProcEnv W} `{TENV : !TrapEnv W} (swtch : option nat → M ks ()).

Definition lapiceoi : M (pst W) () := modS (λ s, Pst (pk s) (eoi (pw s)) (pfirst s)).

(** [myproc()->f] *)
Definition my {A} (f : proc → A) : M (pst W) A := p ← onk curproc; field p f.

(** [myproc() != 0] *)
Definition have_proc : M (pst W) bool := p ← onk myproc; mret (bool_decide (p ≠ None)).

(** What [argint] and its like see of the current process. *)
Definition arg_view (x : proc) (w : W) : usys := set_usz (sz x) (set_uesp (tf_esp (tf x)) (user w)).

Definition user_arg {A} (f : usys → option A) : M (pst W) (option A) :=
  x ← my id;
  gets (λ s, f (arg_view x (pw s))).

(** ** kernel/syscall/sysproc.c *)

Definition sys_fork : M (pst W) Z := fork.

Definition sys_exit : M (pst W) Z := _ ← exit swtch; mret 0.

Definition sys_wait (fuel : nat) : M (pst W) Z := wait swtch fuel.

Definition sys_kill : M (pst W) Z :=
  a ← user_arg (argint 0);
  match a with
  | None => mret (-1)
  | Some k => onk (kill k)
  end.

Definition sys_getpid : M (pst W) Z := my pid.

Definition sys_sbrk : M (pst W) Z :=
  a ← user_arg (argint 0);
  match a with
  | None => mret (-1)
  | Some n =>
      addr ← my sz;
      r ← growproc n;
      if r <? 0 then mret (-1) else mret (s32 addr)
  end.

Definition sys_freemem : M (pst W) Z := freemem.

Definition sys_sig : M (pst W) Z :=
  a ← user_arg (argint 0);
  match a with
  | None => mret (-1)
  | Some signal =>
      b ← user_arg (argint 1);
      match b with
      | None => mret (-1)
      | Some k => onk (sig signal k)
      end
  end.

Definition sys_sighandler : M (pst W) Z :=
  a ← user_arg (argptr 1 4);
  match a with
  | None => mret (-1)
  | Some p =>
      h ← gets (λ s, load32 (umem (user (pw s))) p);
      _ ← onk (sighandler h);
      mret 0
  end.

Definition sys_sigignore : M (pst W) Z :=
  a ← user_arg (argint 0);
  match a with
  | None => mret (-1)
  | Some m =>
      b ← user_arg (argint 1);
      match b with
      | None => mret (-1)
      | Some action => _ ← onk (sigignore m action); mret 0
      end
  end.

(** The loop of [sys_sleep]; [fuel] bounds the number of times it sleeps.
    [ticks - ticks0 < n] compares unsigned. *)
Fixpoint sys_sleep_loop (fuel : nat) (ticks0 n : Z) : M (pst W) Z :=
  match fuel with
  | O => no_fuel
  | S fuel =>
      now ← onk (gets (λ s, ticks (kcore s)));
      if u32 (now - ticks0) <? u32 n then
        k ← my killed;
        if c_true k then _ ← onk (release TicksLock); mret (-1)
        else
          _ ← onk (sleep swtch ticks_chan (Some TicksLock));
          sys_sleep_loop fuel ticks0 n
      else
        _ ← onk (release TicksLock);
        mret 0
  end.

Definition sys_sleep (fuel : nat) : M (pst W) Z :=
  a ← user_arg (argint 0);
  match a with
  | None => mret (-1)
  | Some n =>
      _ ← onk (acquire TicksLock);
      ticks0 ← onk (gets (λ s, ticks (kcore s)));
      sys_sleep_loop fuel ticks0 n
  end.

Definition sys_uptime : M (pst W) Z :=
  _ ← onk (acquire TicksLock);
  xticks ← onk (gets (λ s, ticks (kcore s)));
  _ ← onk (release TicksLock);
  mret (s32 xticks).

(** ** The table and the dispatcher *)

Definition NSYSCALLS : Z := 29.

Definition syscalls (fuel : nat) (num : Z) : option (M (pst W) Z) :=
  if num =? 1 then Some sys_fork
  else if num =? 2 then Some sys_exit
  else if num =? 3 then Some (sys_wait fuel)
  else if num =? 6 then Some sys_kill
  else if num =? 11 then Some sys_getpid
  else if num =? 12 then Some sys_sbrk
  else if num =? 13 then Some (sys_sleep fuel)
  else if num =? 14 then Some sys_uptime
  else if num =? 22 then Some sys_freemem
  else if num =? 23 then Some sys_sig
  else if num =? 24 then Some sys_sighandler
  else if num =? 25 then Some sys_sigignore
  else other_calls num.

Definition kernel_syscall (fuel : nat) : M (pst W) () :=
  p ← onk curproc;
  syscall (λ s, s32 (tf_eax (tf (procs (kcore (pk s)) p))))
    (λ r s, Pst (set_core (updp p (λ x, set_tf (set_eax (u32 r) (tf x)) x) (kcore (pk s))) (pk s)) (pw s) (pfirst s))
    (onk (change_process_space KERNEL_PROC)) (onk (change_process_space USER_PROC)) (onk (yield swtch))
    (λ s, Pst (set_core (updp p (λ x, set_p_sig (Z.lor (p_sig x) SIGSYS) x) (kcore (pk s))) (pk s)) (pw s) (pfirst s))
    (syscalls fuel) NSYSCALLS.

(** ** trap *)

Definition from_user (f : trapframe) : bool := Z.land (tf_cs f) 3 =? DPL_USER.

(** [ticks++] *)
Definition tick (c : sys) : sys := with_ticks (u32 (ticks c + 1)) c.

(** The timer interrupt's own work, on the first processor. *)
Definition clock : M (pst W) () :=
  i ← onk cpuid;
  if bool_decide (i = O) then
    _ ← onk (acquire TicksLock);
    _ ← onk (liftc (modS tick));
    _ ← onk (wakeup ticks_chan);
    onk (release TicksLock)
  else mret ().

(** The switch on the trap number. *)
Definition handle (f : trapframe) : M (pst W) () :=
  let n := tf_trapno f in
  if n =? T_PGFLT then panic "PAGE FAULT"
  else if n =? T_DBLFLT then panic "DOUBLE FAULT OCCURRED"
  else if n =? T_FPERR then panic "FPU ERROR"
  else if n =? T_GPFLT then panic "GENERAL PROTECTION FAULT"
  else if n =? T_IRQ0 + IRQ_TIMER then _ ← clock; lapiceoi
  else if n =? T_IRQ0 + IRQ_IDE then _ ← ideintr; lapiceoi
  else if n =? T_IRQ0 + IRQ_IDE2 then _ ← ideintr2; lapiceoi
  else if n =? T_IRQ0 + IRQ_KBD then _ ← kbdintr; lapiceoi
  else if n =? T_IRQ0 + IRQ_COM1 then _ ← uartintr; lapiceoi
  else if (n =? T_IRQ0 + 7) || (n =? T_IRQ0 + IRQ_SPURIOUS) then _ ← onk cpuid; lapiceoi
  else
    h ← have_proc;
    if negb h || (Z.land (tf_cs f) 3 =? 0) then panic "trap"
    else
      p ← onk curproc;
      assign p (set_killed 1).

(** [if (myproc() && myproc()->killed && (tf->cs & 3) == DPL_USER) exit();] *)
Definition exit_if_killed (f : trapframe) : M (pst W) () :=
  h ← have_proc;
  if (h : bool) then
    k ← my killed;
    if c_true k && from_user f then exit swtch else mret ()
  else mret ().

(** [if (myproc() && myproc()->state == RUNNING && ...) myproc()->p_cpu_usage++] *)
Definition account (f : trapframe) : M (pst W) () :=
  h ← have_proc;
  if (h : bool) then
    st ← my state;
    if bool_decide (st = RUNNING) && (tf_trapno f =? T_IRQ0 + IRQ_TIMER) then
      p ← onk curproc;
      assign p (λ x, set_p_cpu_usage (s32 (p_cpu_usage x + 1)) x)
    else mret ()
  else mret ().

(** [is_proc_alone_in_queue(p, curr_cpu)]: the number of the processor is taken
    as the address of the queue, so its head is read from user memory. *)
Definition alone_at (p : nat) (cpu : Z) : M (pst W) bool :=
  x ← field p id;
  if sz x <? cpu + HEAD_OFFSET + 4 then panic "PAGE FAULT"
  else
    h ← gets (λ s, load32 (umem (user (pw s))) (cpu + HEAD_OFFSET));
    mret ((h =? proc_ptr p) && bool_decide (next x = None)).

Definition check_quantum : M (pst W) () :=
  h ← have_proc;
  if (h : bool) then
    st ← my state;
    if bool_decide (st = RUNNING) then
      used ← my p_cpu_usage;
      quantum ← my p_time_quantum;
      if quantum <? used then
        p ← onk curproc;
        cpu ← my curr_cpu;
        alone ← alone_at p cpu;
        if negb (alone : bool) then onk (preempt swtch) else mret ()
      else mret ()
    else mret ()
  else mret ().

Definition trap (fuel : nat) (f : trapframe) : M (pst W) () :=
  if tf_trapno f =? T_SYSCALL then
    k ← my killed;
    _ ← (if c_true k then exit swtch else mret ());
    p ← onk curproc;
    _ ← assign p (set_tf f);
    _ ← kernel_syscall fuel;
    k ← my killed;
    if c_true k then exit swtch else mret ()
  else
    _ ← handle f;
    _ ← exit_if_killed f;
    _ ← account f;
    _ ← check_quantum;
    exit_if_killed f.
End trap.

(** ** The interrupt table *)

(** A user program can raise by itself only the system call vector, the only
    gate that leaves interrupts on; every gate enters the kernel's code segment
    at its vector. *)
Theorem tvinit_gates vectors s i : (i < 256)%nat → (∀ j, 0 ≤ vectors j < 2 ^ 32) →
  ∃ idt s', tvinit vectors s = Done (idt, s') ∧
    off_15_0 (idt i) + 65536 * off_31_16 (idt i) = vectors i ∧ gcs (idt i) = 8 ∧
    (dpl (idt i) = DPL_USER ↔ Z.of_nat i = T_SYSCALL) ∧ (type (idt i) = STS_TG32 ↔ Z.of_nat i = T_SYSCALL) ∧
    klocks s' TicksLock = lock_free.
Proof.
  intros Hi Hv. do 2 eexists. split; [done|].
  assert (E : ∀ b d, off_15_0 (SETGATE b 8 (vectors i) d) + 65536 * off_31_16 (SETGATE b 8 (vectors i) d) = vectors i).
  { intros b d. cbn. rewrite u32_small by apply Hv. change 65535 with (Z.ones 16).
    rewrite Z.land_ones, Z.shiftr_div_pow2 by lia. unfold u16. specialize (Hv i).
    rewrite Z.mod_mod, (Z.mod_small (_ / _)) by (try apply Z.mod_pos_bound; try split; try apply Z.div_pos; try apply Z.div_lt_upper_bound; lia).
    pose proof (Z.div_mod (vectors i) (2 ^ 16) ltac:(lia)). lia. }
  destruct (decide (i = Z.to_nat T_SYSCALL)) as [->|Hne].
  - rewrite fn_lookup_insert. split_and!; [apply E|done|by split..|]. cbn. apply fn_lookup_insert.
  - rewrite fn_lookup_insert_ne, bool_decide_eq_true_2 by (done || congruence).
    assert (Z.of_nat i ≠ T_SYSCALL) by (unfold T_SYSCALL in *; lia).
    split_and!; [apply E|done|by split..|]. cbn. apply fn_lookup_insert.
Qed.

(** ** Running inside a trap *)

Section proofs.
Context {W : Type} `{ENV : !ProcEnv W} `{TENV : !TrapEnv W} (swtch : option nat → M ks ()).

Lemma my_run {A B} i n b e hs s p (f : proc → A) (K : A → M (pst W) B) :
  thread i n b e hs (pk s) → shallow n b → cpu_proc (kcore (pk s)) i = Some p →
  ∃ k, (my f ≫= K) s = K (f (procs (kcore (pk s)) p)) (Pst k (pw s) (pfirst s)) ∧
    kcore k = kcore (pk s) ∧ thread i n b (sav n b e) hs k.
Proof.
  intros Ht Hs Hp. destruct (curproc_thread i n b e hs (pk s) p Ht Hs Hp) as (k & E & Hc & Hk).
  exists k. split; [|done]. unfold my. rewrite run_bind, (run_onk curproc _ s p k E).
  cbn. by rewrite Hc.
Qed.

Lemma have_proc_run {B} i n b e hs s p (K : bool → M (pst W) B) :
  thread i n b e hs (pk s) → shallow n b → cpu_proc (kcore (pk s)) i = Some p →
  ∃ k, (have_proc ≫= K) s = K true (Pst k (pw s) (pfirst s)) ∧
    kcore k = kcore (pk s) ∧ thread i n b (sav n b e) hs k.
Proof.
  intros Ht Hs Hp. destruct (myproc_thread i n b e hs (pk s) Ht Hs) as (k & E & Hc & Hk).
  exists k. split; [|done]. unfold have_proc. rewrite run_bind, (run_onk myproc _ s _ k E), Hp. done.
Qed.

Lemma curproc_run {B} i n b e hs s p (K : nat → M (pst W) B) :
  thread i n b e hs (pk s) → shallow n b → cpu_proc (kcore (pk s)) i = Some p →
  ∃ k, (onk curproc ≫= K) s = K p (Pst k (pw s) (pfirst s)) ∧
    kcore k = kcore (pk s) ∧ thread i n b (sav n b e) hs k.
Proof.
  intros Ht Hs Hp. destruct (curproc_thread i n b e hs (pk s) p Ht Hs Hp) as (k & E & Hc & Hk).
  exists k. split; [|done]. by rewrite (run_onk curproc _ s p k E).
Qed.

(** ** The clock *)

(** The first of [l] that sleeps on the channel. *)
Definition first_on (ch : wchan) (c : sys) (l : list nat) : option nat :=
  List.find (λ p, bool_decide (chan (procs c p) = ch)) l.

Lemma first_on_split ch c l p : first_on ch c l = Some p →
  ∃ l1 l2, l = l1 ++ p :: l2 ∧ chan (procs c p) = ch ∧ ∀ x, x ∈ l1 → chan (procs c x) ≠ ch.
Proof.
  induction l as [|q l IH]; [done|]. cbn. case_bool_decide as Hq.
  - intros [= <-]. exists [], l. split_and!; [done..|]. intros x Hx. by apply elem_of_nil in Hx.
  - intros H. destruct (IH H) as (l1 & l2 & -> & Hc & Hl1). exists (q :: l1), l2. split_and!; [done..|].
    intros x [->|Hx]%elem_of_cons; [done|by apply Hl1].
Qed.

Lemma first_on_none ch c l : first_on ch c l = None → ∀ x, x ∈ l → chan (procs c x) ≠ ch.
Proof.
  intros H x Hx. apply list_elem_of_In in Hx. pose proof (List.find_none _ _ H x Hx) as E. by apply bool_decide_eq_false in E.
Qed.

(** The sleep queue holds sleeping, unclaimed processes, and no process that is
    ready still waits for the clock. *)
Definition sleepers_ok (ch : wchan) (c : sys) (L : qid → list nat) : Prop :=
  (∀ x, x ∈ L SleepQ → state (procs c x) = SLEEPING ∧ is_claimed (procs c x) = false) ∧
  (∀ x, x ∈ L ReadyQ → chan (procs c x) ≠ ch).

(** What a wakeup on [ch] makes of the processes and the queues. *)
Definition wake_first (ch : wchan) (c : sys) (L : qid → list nat) : sys :=
  match first_on ch c (L SleepQ) with Some p => woken c p | None => c end.

Definition wake_lists (ch : wchan) (c : sys) (L : qid → list nat) : qid → list nat :=
  match first_on ch c (L SleepQ) with
  | Some p => <[ReadyQ := spec_insert (updp p (set_state RUNNABLE) c) p (L ReadyQ)]>
                (<[SleepQ := spec_remove p (L SleepQ)]> L)
  | None => L
  end.

Lemma wakeup_none i e hs s L ch :
  thread i 1 false e hs s → PtableLock ∉ hs → qrep (kcore s) L →
  (∀ x, x ∈ L SleepQ → chan (procs (kcore s) x) ≠ ch) →
  ∃ s', wakeup ch s = Done ((), s') ∧ kcore s' = kcore s ∧ thread i 1 false e hs s'.
Proof.
  intros Ht Hp HL Hch. destruct (acquire_thread i 1 false e hs PtableLock s Ht sh1 Hp) as (s1 & Ha & Hc1 & Ht1).
  rewrite sav_pos in Ht1 by lia.
  destruct (release_thread i 1 e hs PtableLock s1 Ht1) as (s2 & Hr & Hc2 & Ht2); [lia|done|].
  exists s2. split; [|split; [congruence|done]]. unfold wakeup. rewrite (bind_done _ _ _ _ _ Ha).
  pose proof (HL SleepQ) as HQ. rewrite <- Hc1 in HQ, Hch.
  assert (Hlen : (length (L SleepQ) ≤ NPROC)%nat).
  { apply nodup_le_nproc; [apply HQ|]. intros x Hx. by apply (qrep_lt _ _ _ _ HL Hx). }
  rewrite run_bind. unfold wakeup1. rewrite run_gets, (qr_head _ _ _ HQ).
  replace FUEL with (length (L SleepQ) + S (NPROC - length (L SleepQ)))%nat by (unfold FUEL; lia).
  rewrite (wakeup_skip ch (L SleepQ) _ s1 None None (qr_links _ _ _ HQ) Hch). exact Hr.
Qed.

(** [wakeup] under another lock moves the first sleeper on the channel, if there
    is one. *)
Lemma wakeup_spec i e lk s L ch :
  thread i 1 false e [lk] s → other_lock lk = true → queues_unlocked [lk] →
  qrep (kcore s) L → sleepers_ok ch (kcore s) L →
  ∃ s', wakeup ch s = Done ((), s') ∧ thread i 1 false e [lk] s' ∧
    same (wake_first ch (kcore s) L) (kcore s') ∧ qrep (kcore s') (wake_lists ch (kcore s) L).
Proof.
  intros Ht Hlk Hq HL [Hs Hr]. unfold wake_first, wake_lists.
  assert (Hp : PtableLock ∉ [lk]).
  { rewrite list_elem_of_singleton. intros <-. discriminate Hlk. }
  destruct (first_on ch (kcore s) (L SleepQ)) as [p|] eqn:E.
  - destruct (first_on_split _ _ _ _ E) as (l1 & l2 & El & Hc & Hl1).
    assert (Hin : p ∈ L SleepQ) by (rewrite El; clear; set_solver). destruct (Hs p Hin) as [H1 H2].
    destruct (wakeup_run i 1 false e [lk] s L ch l1 p l2) as (s' & Hw & HS & HL' & Ht'); try done.
    rewrite sav_pos in Ht' by lia. exists s'. split_and!; [done..|].
    pose proof (qr_nodup _ _ _ (HL SleepQ)) as Hnd. rewrite El in Hnd. by rewrite El, spec_remove_split.
  - destruct (wakeup_none i e [lk] s L ch Ht Hp HL (first_on_none _ _ _ E)) as (s' & Hw & Hc & Ht').
    exists s'. rewrite Hc. by split_and!.
Qed.

(** What the timer interrupt on processor [i] does to the clock. *)
Definition clocked (i : nat) (c : sys) (L : qid → list nat) : sys :=
  if bool_decide (i = O) then wake_first ticks_chan (tick c) L else c.

Definition clocked_lists (i : nat) (c : sys) (L : qid → list nat) : qid → list nat :=
  if bool_decide (i = O) then wake_lists ticks_chan (tick c) L else L.

Lemma clock_run {B} i e s L (K : () → M (pst W) B) :
  thread i 0 false e [] (pk s) → qrep (kcore (pk s)) L → sleepers_ok ticks_chan (kcore (pk s)) L →
  ∃ k e', (clock ≫= K) s = K () (Pst k (pw s) (pfirst s)) ∧ thread i 0 false e' [] k ∧
    same (clocked i (kcore (pk s)) L) (kcore k) ∧ qrep (kcore k) (clocked_lists i (kcore (pk s)) L).
Proof.
  intros Ht HL HS. rewrite run_bind. unfold clock, clocked, clocked_lists.
  rewrite (run_onk cpuid _ s i (pk s) (mycpu_thread _ _ _ _ _ Ht)).
  case_bool_decide as Hi; [|exists (pk s), e; by destruct s].
  destruct (acquire_thread i 0 false e [] TicksLock (pk s) Ht (sh0 _)) as (k1 & Ha & Hc1 & Ht1); [notin|].
  change (sav 0 false e) with false in Ht1.
  set (k2 := set_core (tick (kcore k1)) k1).
  destruct (wakeup_spec i false TicksLock k2 L ticks_chan) as (k3 & Hw & Ht3 & HS3 & HL3); try done.
  { split; [notin|intros q; notin]. }
  { subst k2. cbn [kcore set_core]. rewrite Hc1. apply (qrep_ext (kcore (pk s))); done. }
  { subst k2. cbn [kcore set_core]. by rewrite Hc1. }
  destruct (release_thread i 0 false [] TicksLock k3 Ht3) as (k4 & Hr & Hc4 & Ht4); [lia|notin|].
  subst k2. cbn [kcore set_core] in *. rewrite Hc1 in *. exists k4, false. rewrite Hc4. split_and!; try done.
  rewrite (run_onk (acquire TicksLock) _ (Pst (pk s) (pw s) (pfirst s)) () k1 Ha).
  rewrite <- Hc1 in Hw.
  rewrite (run_onk (liftc (modS tick)) _ (Pst k1 (pw s) (pfirst s)) () (set_core (tick (kcore k1)) k1) eq_refl).
  rewrite (run_onk (wakeup ticks_chan) _ (Pst (set_core (tick (kcore k1)) k1) (pw s) (pfirst s)) () k3 Hw).
  unfold onk. cbn [pk pw pfirst]. by rewrite Hr.
Qed.

(** ** The rest of [trap] *)

(** The thread of a trap, on processor [i], with [p] its current process and
    interrupts on or off. *)
Definition in_trap (i p : nat) (b : bool) (s : pst W) : Prop :=
  (∃ e, thread i 0 b e [] (pk s)) ∧ cpu_proc (kcore (pk s)) i = Some p.

(** Another state that differs in the bookkeeping of [pushcli] only. *)
Definition alike (i p : nat) (b : bool) (s s' : pst W) : Prop :=
  in_trap i p b s' ∧ kcore (pk s') = kcore (pk s) ∧ pw s' = pw s ∧ pfirst s' = pfirst s.

Lemma my_alike {A B} {i p b} (f : proc → A) (K : A → M (pst W) B) s :
  in_trap i p b s → ∃ s', (my f ≫= K) s = K (f (procs (kcore (pk s)) p)) s' ∧ alike i p b s s'.
Proof.
  intros [[e Ht] Hp]. destruct (my_run i 0 b e [] s p f K Ht (sh0 _) Hp) as (k & E & Hc & Hk).
  eexists. split; [exact E|]. split; [|done]. split; [by eexists|cbn [pk]; by rewrite Hc].
Qed.

Lemma have_alike {B} {i p b} (K : bool → M (pst W) B) s :
  in_trap i p b s → ∃ s', (have_proc ≫= K) s = K true s' ∧ alike i p b s s'.
Proof.
  intros [[e Ht] Hp]. destruct (have_proc_run i 0 b e [] s p K Ht (sh0 _) Hp) as (k & E & Hc & Hk).
  eexists. split; [exact E|]. split; [|done]. split; [by eexists|cbn [pk]; by rewrite Hc].
Qed.

Lemma cur_alike {B} {i p b} (K : nat → M (pst W) B) s :
  in_trap i p b s → ∃ s', (onk curproc ≫= K) s = K p s' ∧ alike i p b s s'.
Proof.
  intros [[e Ht] Hp]. destruct (curproc_run i 0 b e [] s p K Ht (sh0 _) Hp) as (k & E & Hc & Hk).
  eexists. split; [exact E|]. split; [|done]. split; [by eexists|cbn [pk]; by rewrite Hc].
Qed.

Lemma alike_trans {i p b} s1 s2 s3 : alike i p b s1 s2 → alike i p b s2 s3 → alike i p b s1 s3.
Proof. intros (_ & H1 & H2 & H3) (H4 & H5 & H6 & H7). split; [done|]. split_and!; congruence. Qed.

(** Run the next [myproc()], [myproc()->f] or test of [myproc()]. *)
Ltac run_have s H s1 A :=
  match goal with |- context [(have_proc ≫= ?K) s] => destruct (have_alike K s H) as (s1 & -> & A) end; cbv beta iota.
Ltac run_my f s H s1 A :=
  match goal with |- context [(my f ≫= ?K) s] => destruct (my_alike f K s H) as (s1 & -> & A) end; cbv beta.
Ltac run_cur s H s1 A :=
  match goal with |- context [(onk curproc ≫= ?K) s] => destruct (cur_alike K s H) as (s1 & -> & A) end; cbv beta.

Lemma exit_if_killed_run i p b f s : in_trap i p b s →
  ∃ s', alike i p b s s' ∧
    exit_if_killed swtch f s =
      if c_true (killed (procs (kcore (pk s)) p)) && from_user f then exit swtch s' else Done ((), s').
Proof.
  intros H. unfold exit_if_killed.
  run_have s H s1 A1.
  run_my killed s1 (proj1 A1) s2 A2.
  exists s2. split; [by eapply alike_trans|]. rewrite (proj1 (proj2 A1)). by case_match.
Qed.

(** One more tick of processor time. *)
Definition charged (x : proc) : proc := set_p_cpu_usage (s32 (p_cpu_usage x + 1)) x.

Lemma account_run i p b f s : in_trap i p b s → tf_trapno f = T_IRQ0 + IRQ_TIMER → state (procs (kcore (pk s)) p) = RUNNING →
  ∃ s', account f s = Done ((), s') ∧ in_trap i p b s' ∧ kcore (pk s') = updp p charged (kcore (pk s)) ∧
    pw s' = pw s ∧ pfirst s' = pfirst s.
Proof.
  intros H Hf Hst. unfold account.
  run_have s H s1 A1.
  run_my state s1 (proj1 A1) s2 A2.
  rewrite (proj1 (proj2 A1)), Hst, Hf, Z.eqb_refl, bool_decide_eq_true_2 by done. cbn [andb].
  run_cur s2 (proj1 A2) s3 A3.
  destruct (alike_trans _ _ _ (alike_trans _ _ _ A1 A2) A3) as ([[e Ht] Hp] & Hc & Hw & Hf').
  eexists. split; [reflexivity|]. cbn [pk pw pfirst kcore set_core]. rewrite Hc. split_and!; try done.
  split; [by exists e|]. cbn. by rewrite <- Hc.
Qed.

Lemma quantum_kept i p b s : in_trap i p b s →
  p_cpu_usage (procs (kcore (pk s)) p) ≤ p_time_quantum (procs (kcore (pk s)) p) →
  ∃ s', check_quantum swtch s = Done ((), s') ∧ alike i p b s s'.
Proof.
  intros H Hq. unfold check_quantum.
  run_have s H s1 A1.
  run_my state s1 (proj1 A1) s2 A2.
  case_bool_decide; [|exists s2; by split; [|eapply alike_trans]].
  run_my p_cpu_usage s2 (proj1 A2) s3 A3.
  run_my p_time_quantum s3 (proj1 A3) s4 A4.
  pose proof (alike_trans _ _ _ A1 A2) as A12. pose proof (alike_trans _ _ _ A12 A3) as A13.
  rewrite (proj1 (proj2 A13)), (proj1 (proj2 A12)), (proj2 (Z.ltb_ge _ _)) by done.
  exists s4. split; [done|by eapply alike_trans].
Qed.

(** Where a wild queue pointer finds its head. *)
Definition wild_head (p : nat) (s : pst W) : Z :=
  load32 (umem (user (pw s))) (curr_cpu (procs (kcore (pk s)) p) + HEAD_OFFSET).

Lemma quantum_over i p b s : in_trap i p b s → state (procs (kcore (pk s)) p) = RUNNING →
  p_time_quantum (procs (kcore (pk s)) p) < p_cpu_usage (procs (kcore (pk s)) p) →
  curr_cpu (procs (kcore (pk s)) p) + HEAD_OFFSET + 4 ≤ sz (procs (kcore (pk s)) p) →
  wild_head p s ≠ proc_ptr p →
  ∃ s', check_quantum swtch s = onk (preempt swtch) s' ∧ alike i p b s s'.
Proof.
  intros H Hst Hq Hsz Hw. unfold check_quantum, wild_head in *.
  run_have s H s1 A1.
  run_my state s1 (proj1 A1) s2 A2.
  pose proof (alike_trans _ _ _ A1 A2) as A12. rewrite (proj1 (proj2 A1)), bool_decide_eq_true_2 by done.
  run_my p_cpu_usage s2 (proj1 A2) s3 A3.
  run_my p_time_quantum s3 (proj1 A3) s4 A4.
  pose proof (alike_trans _ _ _ A12 A3) as A13. pose proof (alike_trans _ _ _ A13 A4) as A14.
  rewrite (proj1 (proj2 A13)), (proj1 (proj2 A12)), (proj2 (Z.ltb_lt _ _)) by done.
  run_cur s4 (proj1 A4) s5 A5.
  run_my curr_cpu s5 (proj1 A5) s6 A6.
  pose proof (alike_trans _ _ _ A14 A5) as A15. pose proof (alike_trans _ _ _ A15 A6) as A16.
  exists s6. split; [|done]. destruct A16 as (_ & Hc & Hpw & _). rewrite run_bind. unfold alone_at. rewrite run_field.
  rewrite Hc, (proj1 (proj2 A15)). cbn [id]. rewrite (proj2 (Z.ltb_ge _ _)), run_gets, Hpw by done.
  rewrite (proj2 (Z.eqb_neq _ _) Hw). done.
Qed.

Lemma clocked_keeps i c L p : p ∉ L SleepQ →
  procs (clocked i c L) p = procs c p ∧ cpu_proc (clocked i c L) = cpu_proc c.
Proof.
  intros Hp. unfold clocked, wake_first. case_bool_decide; [|done].
  destruct (first_on _ _ _) as [q|] eqn:E; [|done].
  destruct (first_on_split _ _ _ _ E) as (l1 & l2 & El & _).
  assert (p ≠ q) by (intros ->; apply Hp; rewrite El; set_solver).
  unfold woken. by rewrite !procs_updp_ne.
Qed.

Lemma clocked_lists_run i c L j : clocked_lists i c L (RunQ j) = L (RunQ j).
Proof. unfold clocked_lists, wake_lists. case_bool_decide; [|done]. destruct (first_on _ _ _); [|done]. by rewrite !upd_list, !decide_False. Qed.

(** The state of the running process is what the trap and its theorems start
    from: on processor [i], alone in its run queue, unclaimed. *)
Definition running_on (i : nat) (c : sys) (L : qid → list nat) (p : nat) : Prop :=
  cpu_proc c i = Some p ∧ L (RunQ i) = [p] ∧ state (procs c p) = RUNNING ∧
  curr_cpu (procs c p) = NOCPU ∧ is_claimed (procs c p) = false ∧ killed (procs c p) = 0.

(** From the interrupt to the check of the quantum. *)
Lemma timer_to_quantum i e s L p f fuel :
  thread i 0 false e [] (pk s) → qrep (kcore (pk s)) L → sleepers_ok ticks_chan (kcore (pk s)) L →
  running_on i (kcore (pk s)) L p → tf_trapno f = T_IRQ0 + IRQ_TIMER →
  ∃ s', trap swtch fuel f s = (_ ← check_quantum swtch; exit_if_killed swtch f) s' ∧ in_trap i p false s' ∧
    same (updp p charged (clocked i (kcore (pk s)) L)) (kcore (pk s')) ∧
    qrep (kcore (pk s')) (clocked_lists i (kcore (pk s)) L) ∧ pw s' = eoi (pw s) ∧ pfirst s' = pfirst s.
Proof.
  intros Ht HL HS (Hp & Hl & Hst & Hcpu & Hcl & Hk) Hf.
  assert (Hn : p ∉ L SleepQ).
  { eapply (qrep_other _ _ (RunQ i)); [done|rewrite Hl; by constructor|done]. }
  destruct (clocked_keeps i (kcore (pk s)) L p Hn) as [Hcp Hcc].
  destruct (clock_run i e s L (λ _, lapiceoi) Ht HL HS) as (k & e' & Hck & Htk & HSk & HLk).
  set (s1 := Pst k (eoi (pw s)) (pfirst s)).
  assert (T1 : in_trap i p false s1).
  { split; [by exists e'|]. subst s1. cbn [pk]. destruct HSk as [_ (_ & _ & _ & -> & _)]. by rewrite Hcc. }
  assert (Hx : ∀ A (g : proc → A), (∀ x, g (unlinked x) = g x) → g (procs (kcore (pk s1)) p) = g (procs (kcore (pk s)) p)).
  { intros A g Hg. subst s1. cbn [pk]. by rewrite (same_field g _ _ p Hg HSk), Hcp. }
  destruct (exit_if_killed_run i p false f s1 T1) as (s2 & A2 & E2).
  rewrite (Hx _ killed), Hk in E2 by done. cbn in E2. destruct A2 as (T2 & Hc2 & Hw2 & Hf2).
  destruct (account_run i p false f s2 T2 Hf) as (s3 & E3 & T3 & Hc3 & Hw3 & Hf3).
  { rewrite Hc2. by rewrite (Hx _ state). }
  exists s3. rewrite Hc3, Hc2, Hw3, Hw2, Hf3, Hf2. split_and!; try done.
  - unfold trap. rewrite Hf. change (T_IRQ0 + IRQ_TIMER =? T_SYSCALL) with false. cbv iota.
    assert (EH : handle f s = Done ((), s1)).
    { unfold handle. rewrite Hf. cbn [T_IRQ0 IRQ_TIMER Z.add Z.eqb]. exact Hck. }
    rewrite (bind_done _ _ _ _ _ EH), (bind_done _ _ _ _ _ E2), (bind_done _ _ _ _ _ E3). done.
  - apply same_updp; done.
  - by apply qrep_updp.
Qed.

(** A process that has used up its quantum: lowest user priority, RUNNABLE. *)
Definition demoted (p : nat) (c : sys) : sys := updp p (set_p_pri LOW_USER_PRIORITY) (updp p (set_state RUNNABLE) c).

(** C20: A timer interrupt, on a processor that runs [p]: the first processor advances
    the clock and wakes the first process that sleeps on it, every processor
    charges the tick to [p].  Within its quantum [p] goes on, and nothing else has
    changed.  Beyond it, [p] is demoted and queued again and control passes to
    the scheduler, even though [p] is alone in its run queue: the test that is to
    spare it takes the number of a processor for a queue and compares [p] with a
    word of user memory. *)
Theorem timer_interrupt i e s L p f fuel :
  thread i 0 false e [] (pk s) → (i < NCPU)%nat → qrep (kcore (pk s)) L → sleepers_ok ticks_chan (kcore (pk s)) L →
  running_on i (kcore (pk s)) L p → tf_trapno f = T_IRQ0 + IRQ_TIMER →
  let c := updp p charged (clocked i (kcore (pk s)) L) in
  let L' := clocked_lists i (kcore (pk s)) L in
  let x := charged (procs (kcore (pk s)) p) in
  (p_cpu_usage x ≤ p_time_quantum x →
   ∃ s', trap swtch fuel f s = Done ((), s') ∧ in_trap i p false s' ∧ same c (kcore (pk s')) ∧ qrep (kcore (pk s')) L' ∧
     pw s' = eoi (pw s) ∧ pfirst s' = pfirst s) ∧
  (p_time_quantum x < p_cpu_usage x → NOCPU + HEAD_OFFSET + 4 ≤ sz x →
   load32 (umem (user (pw s))) (NOCPU + HEAD_OFFSET) ≠ proc_ptr p →
   ∃ s', trap swtch fuel f s =
       (_ ← onk (_ ← (_ ← swtch None; restore_intena false); release PtableLock); exit_if_killed swtch f) s' ∧
     thread i 1 false false [PtableLock] (pk s') ∧ same (demoted p c) (kcore (pk s')) ∧
     qrep (kcore (pk s')) (<[ReadyQ := spec_insert (demoted p c) p (L' ReadyQ)]> (<[RunQ i := []]> L')) ∧
     pw s' = eoi (pw s)).
Proof.
  intros Ht Hi HL HS HR Hf c L' x. pose proof HR as (Hp & Hl & Hst & Hcpu & Hcl & Hk).
  destruct (timer_to_quantum i e s L p f fuel Ht HL HS HR Hf) as (s1 & E1 & T1 & HS1 & HL1 & Hw1 & Hf1).
  fold c in HS1. fold L' in HL1.
  assert (Hx : ∀ A (g : proc → A), (∀ x, g (unlinked x) = g x) → g (procs (kcore (pk s1)) p) = g x).
  { intros A g Hg. rewrite (same_field g _ _ p Hg HS1). subst c x. rewrite procs_updp_eq.
    rewrite (proj1 (clocked_keeps i (kcore (pk s)) L p ltac:(eapply (qrep_other _ _ (RunQ i)); [done|rewrite Hl; by constructor|done]))). done. }
  split.
  - intros Hq. destruct (quantum_kept i p false s1 T1) as (s2 & E2 & A2); [by rewrite (Hx _ p_cpu_usage), (Hx _ p_time_quantum)|].
    destruct (exit_if_killed_run i p false f s2 (proj1 A2)) as (s3 & A3 & E3).
    destruct (alike_trans _ _ _ A2 A3) as (T3 & Hc3 & Hw3 & Hf3).
    exists s3. rewrite Hc3, Hw3, Hf3, Hw1, Hf1. split_and!; try done.
    rewrite E1, (bind_done _ _ _ _ _ E2), E3. destruct A2 as (_ & -> & _). rewrite (Hx _ killed) by done. subst x.
    cbn [charged killed set_p_cpu_usage]. by rewrite Hk.
  - intros Hq Hsz Hw. destruct (quantum_over i p false s1 T1) as (s2 & E2 & [[[e2 T2] Hp2] (Hc2 & Hw2 & Hf2)]).
    { by rewrite (Hx _ state). } { by rewrite (Hx _ p_cpu_usage), (Hx _ p_time_quantum). }
    { rewrite (Hx _ curr_cpu), (Hx _ sz) by done. by replace (curr_cpu x) with NOCPU. }
    { unfold wild_head. rewrite (Hx _ curr_cpu), Hw1, user_eoi by done. by replace (curr_cpu x) with NOCPU. }
    destruct (preempt_refines swtch i false e2 (pk s2) L' p) as (k & E & Tk & HLk & HSk); rewrite ?Hc2; try done.
    { unfold L'. by rewrite clocked_lists_run. } { by rewrite <- Hc2. }
    { by rewrite (Hx _ curr_cpu). } { by rewrite (Hx _ is_claimed). }
    assert (HD : same (demoted p c) (updp p (set_p_pri LOW_USER_PRIORITY) (updp p (set_state RUNNABLE) (kcore (pk s1))))).
    { unfold demoted. by do 2 (apply same_updp; [done|]). }
    rewrite Hc2 in HSk, HLk. rewrite (spec_insert_same _ _ _ _ HD) in HLk.
    exists (Pst k (pw s2) (pfirst s2)). cbn [pk pw]. rewrite Hw2, Hw1. split_and!; try done; [|by eapply same_trans].
    rewrite E1, run_bind, E2, run_bind. unfold onk. cbn [pk pw pfirst]. rewrite E, Hw2, Hw1. done.
Qed.

(** ** Exceptions *)

Definition never {S A} (m : M S A) : Prop := ∀ s r, m s ≠ Done r.

Lemma never_bind_r {S A B} (m : M S A) (k : A → M S B) : (∀ a, never (k a)) → never (m ≫= k).
Proof. intros Hk s r. rewrite run_bind. destruct (m s) as [[a s']| | | |]; try done. apply Hk. Qed.

(** What follows a call that never returns is not run. *)
Lemma never_then {S} (m : M S ()) (k : () → M S ()) s : (∀ r, m s ≠ Done r) → (m ≫= k) s = m s.
Proof. intros Hm. rewrite run_bind. destruct (m s) as [[[] s']| | | |] eqn:E; try done. by destruct (Hm _ eq_refl). Qed.

Lemma never_onk {A} (m : M ks A) : never m → never (onk (W := W) m).
Proof. intros Hm s r. unfold onk. destruct (m (pk s)) as [[a k]| | | |] eqn:E; try done. by destruct (Hm _ _ E). Qed.

(** [exit] does not return. *)
Lemma exit_never : never (exit swtch).
Proof.
  unfold exit. apply never_bind_r. intros cur. apply never_bind_r. intros c.
  case_bool_decide; [by intros s r|]. repeat (apply never_bind_r; intros).
  apply never_onk. unfold exit_core, exit_park. repeat (apply never_bind_r; intros). by intros s r.
Qed.

(** C38: An exception of a user program kills it: it runs [exit] with its [killed]
    flag set, and nothing after.  An exception in the kernel is a panic. But a
    page fault, a general protection fault, a floating-point error or a double
    fault is a panic even when a user program caused it. *)
Theorem exceptions_handled i p b s f fuel :
  in_trap i p b s → 0 ≤ tf_trapno f < 32 →
  if bool_decide (tf_trapno f ∈ [T_PGFLT; T_DBLFLT; T_FPERR; T_GPFLT]) then ∃ msg, trap swtch fuel f s = Panicked msg
  else if Z.land (tf_cs f) 3 =? 0 then trap swtch fuel f s = Panicked "trap"
  else if from_user f then
    ∃ s', trap swtch fuel f s = exit swtch s' ∧ in_trap i p b s' ∧
      kcore (pk s') = updp p (set_killed 1) (kcore (pk s)) ∧ pw s' = pw s
  else True.
Proof.
  intros T Hn. case_bool_decide as Hin.
  { unfold trap. rewrite (proj2 (Z.eqb_neq _ _)) by (unfold T_SYSCALL; lia).
    rewrite !elem_of_cons in Hin. destruct Hin as [E|[E|[E|[E|[]%elem_of_nil]]]];
      eexists; rewrite run_bind; unfold handle; rewrite E; reflexivity. }
  assert (Hne : ∀ n, n ∈ [T_PGFLT; T_DBLFLT; T_FPERR; T_GPFLT] ∨ 32 ≤ n → (tf_trapno f =? n) = false).
  { intros n [Hm|Hm]; apply Z.eqb_neq; [intros E; by rewrite E in Hin|lia]. }
  assert (EH : ∃ s1, alike i p b s s1 ∧ handle f s =
    if Z.land (tf_cs f) 3 =? 0 then Panicked "trap" else assign p (set_killed 1) s1).
  { unfold handle. rewrite !Hne by first [right; by vm_compute|left; set_solver]. cbn [orb].
    run_have s T s1 A1. cbn [negb orb]. destruct (Z.land (tf_cs f) 3 =? 0); [by exists s1|].
    run_cur s1 (proj1 A1) s2 A2. exists s2. split; [by eapply alike_trans|done]. }
  destruct EH as (s1 & A1 & EH). unfold trap. rewrite (Hne T_SYSCALL) by (by right).
  destruct (Z.land (tf_cs f) 3 =? 0) eqn:Ecs; [by rewrite run_bind, EH|]. destruct (from_user f) eqn:Eu; [|done].
  destruct A1 as ([[e1 T1] Hp1] & Hc1 & Hw1 & Hf1).
  set (s2 := Pst (set_core (updp p (set_killed 1) (kcore (pk s1))) (pk s1)) (pw s1) (pfirst s1)).
  assert (T2 : in_trap i p b s2) by (split; [by exists e1|done]).
  destruct (exit_if_killed_run i p b f s2 T2) as (s3 & (T3 & Hc3 & Hw3 & _) & E3).
  subst s2. cbn [pk pw kcore set_core] in E3, Hc3, Hw3. rewrite procs_updp_eq, Eu in E3. cbn in E3.
  exists s3. rewrite Hc3, Hw3, Hw1, Hc1. split_and!; try done.
  rewrite (bind_done _ _ _ _ _ EH), <- E3. apply never_then. intros r. rewrite E3. apply exit_never.
Qed.

(** ** Sleeping *)

(** One round of [sys_sleep], [d] ticks after it began, the counter having
    wrapped around or not: the process returns once [n] ticks have passed, with -1
    when it was killed before, and otherwise reaches the switch asleep on the
    clock, to look again when it has been woken.  A negative [n] is a long time:
    the comparison is unsigned. *)
Theorem sys_sleep_waits i e (s : pst W) L p n ticks0 d fuel :
  thread i 1 false e [TicksLock] (pk s) → qrep (kcore (pk s)) L →
  cpu_proc (kcore (pk s)) i = Some p → L (RunQ i) = [p] →
  curr_cpu (procs (kcore (pk s)) p) = NOCPU → is_claimed (procs (kcore (pk s)) p) = false →
  ticks (kcore (pk s)) = u32 (ticks0 + d) → 0 ≤ d < 2 ^ 32 →
  let c := updp p (set_state SLEEPING) (updp p (set_chan ticks_chan) (kcore (pk s))) in
  if u32 n <=? d then
    ∃ k, sys_sleep_loop swtch (S fuel) ticks0 n s = Done (0, Pst k (pw s) (pfirst s)) ∧
      thread i 0 e e [] k ∧ kcore k = kcore (pk s)
  else if c_true (killed (procs (kcore (pk s)) p)) then
    ∃ k, sys_sleep_loop swtch (S fuel) ticks0 n s = Done (-1, Pst k (pw s) (pfirst s)) ∧
      thread i 0 e e [] k ∧ kcore k = kcore (pk s)
  else
    ∃ k, sys_sleep_loop swtch (S fuel) ticks0 n s =
        (_ ← onk (_ ← (_ ← swtch None; restore_intena e); after_sleep p TicksLock);
         sys_sleep_loop swtch fuel ticks0 n) (Pst k (pw s) (pfirst s)) ∧
      thread i 1 false e [PtableLock] k ∧ same c (kcore k) ∧
      qrep (kcore k) (<[SleepQ := spec_insert c p (L SleepQ)]> (<[RunQ i := []]> L)).
Proof.
  intros Ht HL Hp Hl Hcpu Hcl Hti Hd c. cbn [sys_sleep_loop].
  rewrite (run_onk (gets _) _ s _ (pk s) eq_refl).
  assert (Hu : u32 (ticks (kcore (pk s)) - ticks0) = d).
  { rewrite Hti. unfold u32. rewrite Zminus_mod_idemp_l. replace (ticks0 + d - ticks0) with d by lia. by apply Z.mod_small. }
  rewrite Hu, Z.ltb_antisym. destruct (u32 n <=? d); cbn [negb].
  { destruct (release_thread i 0 e [] TicksLock (pk s) Ht) as (k & Hr & Hc & Htk); [lia|notin|].
    exists k. split; [|done]. by rewrite (run_onk (release TicksLock) _ (Pst (pk s) (pw s) (pfirst s)) () k Hr). }
  match goal with |- context [my killed ≫= ?K] =>
    destruct (my_run i 1 false e [TicksLock] (Pst (pk s) (pw s) (pfirst s)) p killed K Ht sh1 Hp) as (k1 & -> & Hc1 & Ht1) end.
  cbn [pk pw pfirst] in *. rewrite sav_pos in Ht1 by lia. destruct (c_true _).
  { destruct (release_thread i 0 e [] TicksLock k1 Ht1) as (k & Hr & Hc & Htk); [lia|notin|].
    exists k. split; [by rewrite (run_onk (release TicksLock) _ (Pst k1 (pw s) (pfirst s)) () k Hr)|]. split; [done|congruence]. }
  destruct (sleep_run swtch i e k1 L p ticks_chan TicksLock) as (k & E & Htk & HLk & HSk); rewrite ?Hc1; try done.
  exists k. rewrite Hc1 in HLk, HSk. split_and!; [|done..].
  rewrite !run_bind. unfold onk. cbn [pk pw pfirst]. by rewrite E.
Qed.

(** ** System calls *)

Lemma space_run {B} i p b s flag (K : () → M (pst W) B) : in_trap i p b s →
  ∃ s', (onk (change_process_space flag) ≫= K) s = K () s' ∧ in_trap i p b s' ∧
    kcore (pk s') = updp p (set_space_flag (if flag =? 1 then KERNEL_PROC else USER_PROC)) (kcore (pk s)) ∧
    pw s' = pw s ∧ pfirst s' = pfirst s.
Proof.
  intros [[e Ht] Hp]. destruct (curproc_thread i 0 b e [] (pk s) p Ht (sh0 _) Hp) as (k & E & Hc & Hk).
  eexists. split; [apply (run_onk (change_process_space flag) K s () (set_core (updp p (set_space_flag (if flag =? 1 then KERNEL_PROC else USER_PROC)) (kcore k)) k))|].
  - unfold change_process_space. by rewrite (bind_done _ _ _ _ _ E).
  - cbn [pk pw pfirst kcore set_core]. rewrite Hc. split_and!; try done. split; [by eexists|]. cbn. by rewrite ?Hc, ?Hp.
Qed.

(** Into a system call: the handler starts with the caller's frame saved and the
    process marked as running in the kernel. *)
Lemma syscall_enters i p b s f fuel h :
  in_trap i p b s → killed (procs (kcore (pk s)) p) = 0 → tf_trapno f = T_SYSCALL →
  0 < s32 (tf_eax f) < NSYSCALLS → syscalls swtch fuel (s32 (tf_eax f)) = Some h →
  ∃ s', in_trap i p b s' ∧
    kcore (pk s') = updp p (set_space_flag KERNEL_PROC) (updp p (set_tf f) (kcore (pk s))) ∧
    pw s' = pw s ∧ pfirst s' = pfirst s ∧
    trap swtch fuel f s =
      (_ ← (r ← h;
            _ ← modS (λ s, Pst (set_core (updp p (λ x, set_tf (set_eax (u32 r) (tf x)) x) (kcore (pk s))) (pk s)) (pw s) (pfirst s));
            onk (change_process_space USER_PROC));
       k ← my killed; if c_true k then exit swtch else mret ()) s'.
Proof.
  intros T Hk Hf Hn Hh. unfold trap. rewrite Hf, Z.eqb_refl.
  run_my killed s T s1 A1. rewrite Hk. cbn [c_true Z.eqb negb]. rewrite run_ret.
  run_cur s1 (proj1 A1) s2 A2. rewrite run_set.
  destruct (alike_trans _ _ _ A1 A2) as ([[e Ht] Hp] & Hc & Hw & Hf2). rewrite Hc, Hw, Hf2.
  set (s3 := Pst _ (pw s) (pfirst s)). assert (T3 : in_trap i p b s3).
  { split; [by exists e|]. cbn. by rewrite <- Hc. }
  rewrite run_bind. unfold kernel_syscall.
  run_cur s3 T3 s4 A4. destruct A4 as (T4 & Hc4 & Hw4 & Hf4).
  unfold syscall. rewrite run_gets. rewrite Hc4. subst s3. cbn [pk kcore set_core]. rewrite procs_updp_eq. cbn [tf set_tf].
  match goal with |- context [(onk (change_process_space KERNEL_PROC) ≫= ?K) s4] =>
    destruct (space_run i p b s4 KERNEL_PROC K T4) as (s5 & -> & T5 & Hc5 & Hw5 & Hf5) end.
  rewrite (proj2 (Z.ltb_lt 0 _)), (proj2 (Z.ltb_lt _ NSYSCALLS)), Hh by lia. cbn [andb].
  exists s5. rewrite Hc5, Hc4, Hw5, Hw4, Hf5, Hf4. cbn [pk kcore set_core pw pfirst]. split_and!; try done.
Qed.

(** A system call through [trap]: when its handler, started with the caller's
    frame saved and the process in kernel mode, returns [r] and leaves the process
    alive, the trap returns to the user with [r] in the frame's [eax], the process
    back in user mode, and nothing else changed since.  A process killed meanwhile
    exits instead. *)
Theorem trap_syscall_returns i p b s f fuel h :
  in_trap i p b s → killed (procs (kcore (pk s)) p) = 0 → tf_trapno f = T_SYSCALL →
  0 < s32 (tf_eax f) < NSYSCALLS → syscalls swtch fuel (s32 (tf_eax f)) = Some h →
  ∃ s1, in_trap i p b s1 ∧ pw s1 = pw s ∧
    kcore (pk s1) = updp p (set_space_flag KERNEL_PROC) (updp p (set_tf f) (kcore (pk s))) ∧
    ∀ r s2, h s1 = Done (r, s2) → in_trap i p b s2 →
      let c := updp p (set_space_flag USER_PROC)
                 (updp p (λ x, set_tf (set_eax (u32 r) (tf x)) x) (kcore (pk s2))) in
      ∃ s3, in_trap i p b s3 ∧ kcore (pk s3) = c ∧ pw s3 = pw s2 ∧
        trap swtch fuel f s = if c_true (killed (procs (kcore (pk s2)) p)) then exit swtch s3 else Done ((), s3).
Proof.
  intros T Hk Hf Hn Hh. destruct (syscall_enters i p b s f fuel h T Hk Hf Hn Hh) as (s1 & T1 & Hc1 & Hw1 & Hf1 & ->).
  exists s1. split_and!; [done..|]. intros r s2 E [[e Ht] Hp].
  rewrite run_bind, (bind_done _ _ _ _ _ E), run_modS.
  set (s3 := Pst _ (pw s2) (pfirst s2)). assert (T3 : in_trap i p b s3) by (split; [by exists e|done]).
  destruct (space_run i p b s3 USER_PROC (λ _, mret ()) T3) as (s4 & E4 & T4 & Hc4 & Hw4 & Hf4).
  assert (E4' : onk (change_process_space USER_PROC) s3 = Done ((), s4)).
  { rewrite run_bind in E4. destruct (onk _ s3) as [[[] s5]| | | |]; try done. }
  rewrite E4'. match goal with |- context [(my killed ≫= ?K) s4] => destruct (my_alike killed K s4 T4) as (s5 & -> & T5 & Hc5 & Hw5 & _) end.
  exists s5. rewrite Hc5, Hw5, Hw4, Hc4. subst s3. cbn [pk pw kcore set_core]. split_and!; try done.
  rewrite !procs_updp_eq. cbn [killed set_space_flag set_tf]. by destruct (c_true _).
Qed.
End proofs.

(** ** Witnesses *)

#[local] Existing Instance unit_env.

#[local] Instance quiet_env : TrapEnv () := {|
  ideintr := mret (); ideintr2 := mret (); kbdintr := mret (); uartintr := mret (); eoi := id;
  user := λ _, cold_usys; proc_ptr := λ i, 2148532224 + 256 * Z.of_nat i; other_calls := λ _, None;
  user_eoi := λ _, eq_refl
|}.

(** A process in the middle of its quantum, or at its end, when the clock ticks. *)
Definition user_frame (n eax : Z) : trapframe := Tf eax n 0 27 0 0 512 4096 35.

Definition at_usage (used : Z) : pst () :=
  Pst (idle_thread false (one_queued (RunQ 0) 3 (set_sz 4096 (set_p_time_quantum 45 (set_p_cpu_usage used (set_pid 7 running_proc)))))) () false.

Lemma one_running_qrep used : qrep (kcore (pk (at_usage used))) (<[RunQ 0 := [3%nat]]> (λ _, [])).
Proof. apply one_queued_qrep; [unfold NPROC; lia|done..]. Qed.

Lemma timer_interrupt_witness :
  (∃ s', trap (λ _, mret ()) 0 (user_frame 32 0) (at_usage 3) = Done ((), s') ∧
    ticks (kcore (pk s')) = 1 ∧ p_cpu_usage (procs (kcore (pk s')) 3) = 4) ∧
  (∃ s', trap (λ _, mret ()) 0 (user_frame 32 0) (at_usage 45) =
      (_ ← onk (_ ← (_ ← mret (); restore_intena false); release PtableLock); exit_if_killed (λ _, mret ()) (user_frame 32 0)) s' ∧
    qrepr (kcore (pk s')) ReadyQ [3%nat]).
Proof.
  split.
  - destruct (timer_interrupt (λ _, mret ()) 0 false (at_usage 3) (<[RunQ 0 := [3%nat]]> (λ _, [])) 3 (user_frame 32 0) 0)
      as [H _]; [apply idle_thread_ok|unfold NCPU; lia|apply one_running_qrep| |by split_and!|done|].
    { split; intros x Hx; by apply elem_of_nil in Hx. }
    destruct H as (s' & E & _ & HS & _); [by vm_compute|]. exists s'. split; [exact E|].
    rewrite (same_field p_cpu_usage _ _ 3%nat (λ _, eq_refl) HS). destruct HS as [_ (_ & _ & _ & _ & ->)]. clear E. split; reflexivity.
  - destruct (timer_interrupt (λ _, mret ()) 0 false (at_usage 45) (<[RunQ 0 := [3%nat]]> (λ _, [])) 3 (user_frame 32 0) 0)
      as [_ H]; [apply idle_thread_ok|unfold NCPU; lia|apply one_running_qrep| |by split_and!|done|].
    { split; intros x Hx; by apply elem_of_nil in Hx. }
    destruct H as (s' & E & _ & _ & HL & _); [by vm_compute..|]. exists s'. split; [exact E|]. exact (HL ReadyQ).
Defined.

Lemma at_usage_in_trap used : in_trap 0 3 false (at_usage used).
Proof. split; [|done]. exists false. apply idle_thread_ok. Qed.

(** A division by zero in a user program. *)
Lemma exceptions_handled_witness :
  ∃ s', trap (λ _, mret ()) 0 (user_frame T_DIVIDE 0) (at_usage 3) = exit (λ _, mret ()) s' ∧
    killed (procs (kcore (pk s')) 3) = 1.
Proof.
  assert (H : ∃ s', trap (λ _, mret ()) 0 (user_frame T_DIVIDE 0) (at_usage 3) = exit (λ _, mret ()) s' ∧ in_trap 0 3 false s' ∧
    kcore (pk s') = updp 3 (set_killed 1) (kcore (pk (at_usage 3))) ∧ pw s' = ()).
  { exact (exceptions_handled (λ _, mret ()) 0 3 false (at_usage 3) (user_frame T_DIVIDE 0) 0 (at_usage_in_trap 3)
      (conj (Z.le_refl 0) eq_refl)). }
  destruct H as (s' & E & _ & Hc & _).
  exists s'. split; [exact E|]. by rewrite Hc.
Defined.

(** [getpid], system call 11. *)
Lemma trap_syscall_returns_witness :
  ∃ s', trap (λ _, mret ()) 0 (user_frame T_SYSCALL 11) (at_usage 3) = Done ((), s') ∧
    tf_eax (tf (procs (kcore (pk s')) 3)) = 7.
Proof.
  destruct (trap_syscall_returns (λ _, mret ()) 0 3 false (at_usage 3) (user_frame T_SYSCALL 11) 0 sys_getpid
    (at_usage_in_trap 3) eq_refl eq_refl) as (s1 & T1 & _ & Hc1 & H); [by vm_compute|done|].
  destruct (my_alike pid mret s1 T1) as (s2 & E & A). 
  destruct (H (pid (procs (kcore (pk s1)) 3)) s2) as (s3 & _ & Hc3 & _ & Ht).
  { unfold sys_getpid. rewrite run_bind in E. destruct (my pid s1) as [[v s5]| | | |]; done. }
  { exact (proj1 A). }
  exists s3. destruct A as (_ & Hc2 & _). rewrite Hc2, Hc1 in Ht. split; [exact Ht|]. rewrite Hc3, Hc2, Hc1. by vm_compute.
Defined.

(** A process in [sys_sleep], the counter having wrapped around. *)
Definition sleeping_for : pst () :=
  Pst (Kst (Mach (λ _, Cpu 0 1 true) 1 0 false) (<[TicksLock := lock_held 0]> (λ _, lock_free))
    (with_ticks 2 (one_queued (RunQ 0) 3 running_proc))) () false.

Lemma sleeping_for_thread : thread 0 1 false true [TicksLock] (pk sleeping_for).
Proof.
  split; [done|]. intros k. cbn. destruct (decide (TicksLock = k)) as [<-|Hne].
  - by rewrite fn_lookup_insert.
  - rewrite fn_lookup_insert_ne, decide_False; [done| |done]. by intros ->%list_elem_of_singleton.
Qed.

Lemma sleeping_for_qrep : qrep (kcore (pk sleeping_for)) (<[RunQ 0 := [3%nat]]> (λ _, [])).
Proof.
  apply (qrep_ext (one_queued (RunQ 0) 3 running_proc)); [done..|].
  apply one_queued_qrep; [unfold NPROC; lia|done..].
Qed.

Lemma sys_sleep_waits_witness :
  (∃ k, sys_sleep_loop (λ _, mret ()) 1 4294967290 8 sleeping_for = Done (0, Pst k () false)) ∧
  ∃ k, sys_sleep_loop (λ _, mret ()) 1 4294967290 9 sleeping_for =
      (_ ← onk (_ ← (_ ← mret (); restore_intena true); after_sleep 3 TicksLock);
       sys_sleep_loop (λ _, mret ()) 0 4294967290 9) (Pst k () false) ∧ qrepr (kcore k) SleepQ [3%nat].
Proof.
  split.
  - destruct (sys_sleep_waits (λ _, mret ()) 0 true sleeping_for (<[RunQ 0 := [3%nat]]> (λ _, [])) 3 8 4294967290 8 0
      sleeping_for_thread sleeping_for_qrep) as (k & E & _); [reflexivity..|lia|]. by exists k.
  - destruct (sys_sleep_waits (λ _, mret ()) 0 true sleeping_for (<[RunQ 0 := [3%nat]]> (λ _, [])) 3 9 4294967290 8 0
      sleeping_for_thread sleeping_for_qrep) as (k & E & _ & _ & HL); [reflexivity..|lia|].
    exists k. split; [exact E|exact (HL SleepQ)].
Defined.

Lemma tvinit_gates_witness :
  ∃ idt s', tvinit (λ i, 2148532224 + Z.of_nat (i mod 256)) (idle_thread false boot_sys) = Done (idt, s') ∧ dpl (idt 64%nat) = 3.
Proof.
  destruct (tvinit_gates (λ i, 2148532224 + Z.of_nat (i mod 256)) (idle_thread false boot_sys) 64)
    as (idt & s' & E & _ & _ & Hd & _); [lia|intros j; pose proof (Nat.mod_upper_bound j 256); lia|].
  exists idt, s'. split; [exact E|]. by apply Hd.
Defined.
