(* ===== verification/Sbrk.v ===== *)
(** * [sbrk] over the page tables

    Proc.v uses memory through the class [ProcEnv]; here its memory operations are
    those of Vm.v and Kalloc.v, beside any implementation of the file operations.
    Over that instance [growproc] (kernel/sched/proc.c) and [sys_sbrk]
    (kernel/syscall/sysproc.c) resize the memory the process really has. *)
From stdpp Require Import base decidable option list functions numbers strings sets.
From Stdlib Require Import ZArith Lia.
From S2P Require Import Prelude CString Locks ProcDefs Queue Sched Kalloc Vm Uvm Umem FileDefs File Syscall Proc Trap.

Local Open Scope Z_scope.

Section services.
Context {F : Type} {FENV : ProcEnv F}.
Context (end_ data_ : Z) (initcode : mem) (initsize : Z).

Definition on_mem {A} (m : M kmem A) : M (kmem * F) A := zoom fst (λ k w, (k, w.2)) m.
Definition on_files {A} (m : M F A) : M (kmem * F) A := zoom snd (λ x w, (w.1, x)) m.

#[local] Instance vm_env : ProcEnv (kmem * F) := {|
  kalloc := on_mem Kalloc.kalloc;
  kfree p := on_mem (Kalloc.kfree end_ p);
  setupkvm := on_mem (Vm.setupkvm end_ data_);
  inituvm d := on_mem (Vm.inituvm d initcode initsize);
  copyuvm d n := on_mem (Vm.copyuvm end_ data_ d n);
  allocuvm d o n down := on_mem (Vm.allocuvm end_ d o n (c_true down));
  deallocuvm d o n := on_mem (Vm.deallocuvm end_ d o n);
  freevm d := on_mem (Vm.freevm end_ d);
  tally_page_directory d := on_mem (gets (Vm.tally_page_directory d));
  filedup x := on_files (filedup x);
  fileclose x := on_files (fileclose x);
  namei_root := on_files namei_root;
  idup x := on_files (idup x);
  iput x := on_files (iput x);
  begin_op := on_files begin_op;
  end_op := on_files end_op;
  iinit a b := on_files (iinit a b);
  initlog a := on_files (initlog a)
|}.

(** What [sbrk] of [n] does to a process of [sz] bytes that hold [f]: the value it
    returns, the size it records, the size of the memory that is mapped, and what that
    memory holds. *)
Inductive sbrk_outcome (n sz : Z) (f : Z → Z) : Z → Z → Z → (Z → Z) → Prop :=
| sb_zero : n = 0 → sbrk_outcome n sz f sz sz sz f
| sb_grow : 0 < n → sz + n < KERNBASE → sbrk_outcome n sz f sz (sz + n) (sz + n) (zero_from (PGSIZE * npages sz) f)
| sb_full : 0 < n → sbrk_outcome n sz f (-1) sz sz f
| sb_shrink : n < 0 → 0 < sz + n → sbrk_outcome n sz f sz (sz + n) (sz + n) f
| sb_all : n < 0 → sz + n = 0 → sbrk_outcome n sz f (-1) sz 0 f
| sb_below : sz + n < 0 → 0 < sz → sbrk_outcome n sz f sz sz sz f
| sb_none : n < 0 → sz = 0 → sbrk_outcome n sz f (-1) sz sz f.

Section sbrk.
Hypothesis Hend : KERNBASE < end_.

(** The memory part of [growproc]. *)
Definition resize (d sz n : Z) : M kmem Z :=
  if 0 <? n then Vm.allocuvm end_ d sz (u32 (sz + n)) false
  else if n <? 0 then Vm.deallocuvm end_ d sz (u32 (sz + n))
  else mret sz.

Lemma resize_run k d l sz f n : proc_mem end_ k d l sz f → - 2 ^ 31 ≤ n < 2 ^ 31 →
  ∃ r k' l' sz' msz g, resize d sz n k = Done (r, k') ∧
    sbrk_outcome n sz f (if negb (n =? 0) && (r =? 0) then -1 else sz) sz' msz g ∧
    sz' = (if negb (n =? 0) && (r =? 0) then sz else r) ∧
    proc_mem end_ k' d l' msz g ∧ accounted k d l sz k' l' msz.
Proof.
  intros HM Hn. pose proof (pm_size _ _ _ _ _ _ HM) as Hs. unfold KERNBASE in Hs. unfold resize.
  destruct (Z.ltb_spec 0 n) as [Hpos|Hle]; [|destruct (Z.ltb_spec n 0) as [Hneg|H0]].
  - rewrite u32_small by lia. rewrite (proj2 (Z.eqb_neq n 0)) by lia. cbn [negb andb].
    destruct (decide (sz + n < KERNBASE)) as [Hk|Hk].
    + destruct (allocuvm_total end_ Hend k d l sz f (sz + n) HM ltac:(lia)) as (r & k' & l' & R & [(-> & HM' & HA)|(-> & HM' & HA)]).
      * exists (sz + n), k', l', (sz + n), (sz + n). eexists. rewrite (proj2 (Z.eqb_neq (sz + n) 0)) by lia.
        split_and!; [exact R|by apply sb_grow|done|exact HM'|exact HA].
      * exists 0, k', l', sz, sz, f. split_and!; [exact R|by apply sb_full|done|exact HM'|exact HA].
    + exists 0, k, l, sz, sz, f. split_and!; [|by apply sb_full|done|done|done].
      unfold Vm.allocuvm. by rewrite (proj2 (Z.leb_le KERNBASE (sz + n))) by lia.
  - rewrite (proj2 (Z.eqb_neq n 0)) by lia. cbn [negb andb]. destruct (decide (sz + n < 0)) as [Hb|Hb].
    + assert (Hu : sz ≤ u32 (sz + n)).
      { unfold u32. rewrite <- (Z.mod_add _ 1) by lia. rewrite Z.mod_small by lia. lia. }
      exists sz, k, l, sz, sz, f.
      split_and!; [|destruct (Z.eqb_spec sz 0); [by apply sb_none|apply sb_below; lia]|by destruct (sz =? 0)|done|done].
      unfold Vm.deallocuvm. by rewrite (proj2 (Z.leb_le sz _)).
    + rewrite u32_small by lia.
      destruct (deallocuvm_total end_ Hend k d l sz f (sz + n) HM ltac:(lia)) as (k' & l' & R & HM' & HA).
      destruct (decide (sz + n = 0)) as [E|E].
      * exists (sz + n), k', l', sz, 0, f. rewrite E in *. cbn [Z.eqb]. split_and!; [exact R|by apply sb_all|done|exact HM'|exact HA].
      * exists (sz + n), k', l', (sz + n), (sz + n), f. rewrite (proj2 (Z.eqb_neq _ _) E).
        split_and!; [exact R|by apply sb_shrink; lia|done|exact HM'|exact HA].
  - assert (n = 0) as -> by lia. exists sz, k, l, sz, sz, f. split_and!; [done|by apply sb_zero|done|done|done].
Qed.

Context {TENV : TrapEnv (kmem * F)}.

Lemma growproc_run i p b (s : pst (kmem * F)) l f n :
  let x := procs (kcore (pk s)) p in
  in_trap i p b s → kstack x ≠ 0 → pgdir x ≠ 0 → proc_mem end_ (pw s).1 (pgdir x) l (sz x) f → - 2 ^ 31 ≤ n < 2 ^ 31 →
  ∃ r s' k' l' sz' msz g, growproc n s = Done (if r =? -1 then -1 else 0, s') ∧ in_trap i p b s' ∧
    pw s' = (k', (pw s).2) ∧ pfirst s' = pfirst s ∧
    sbrk_outcome n (sz x) f r sz' msz g ∧ proc_mem end_ k' (pgdir x) l' msz g ∧ accounted (pw s).1 (pgdir x) l (sz x) k' l' msz ∧
    (kcore (pk s') = kcore (pk s) ∨ kcore (pk s') = updp p (set_sz sz') (kcore (pk s))) ∧ sz (procs (kcore (pk s')) p) = sz'.
Proof.
  intros x T Hks Hpg HM Hn. destruct (resize_run _ _ _ _ _ n HM Hn) as (r & k' & l' & sz' & msz & g & R & HO & Hsz & HM' & HA).
  pose proof (pm_size _ _ _ _ _ _ HM) as Hs. unfold growproc.
  destruct T as [[e Ht] Hp].
  match goal with |- context [(onk curproc ≫= ?K) s] =>
    destruct (curproc_run i 0 b e [] s p K Ht (sh0 _) Hp) as (k1 & -> & Hc1 & Ht1) end.
  set (s1 := Pst k1 (pw s) (pfirst s)).
  rewrite (run_onk (gets _) _ s1 (procs (kcore k1) p) k1 eq_refl). rewrite Hc1. fold x.
  set (s2 := Pst k1 (pw s1) (pfirst s1)).
  match goal with |- context [(?m ≫= ?K) s2] => assert (E : (m ≫= K) s2 = K r (Pst k1 (k', (pw s).2) (pfirst s))) end.
  { unfold resize in R. rewrite run_bind. destruct (0 <? n); [|destruct (n <? 0)].
    - cbn. unfold onw, on_mem, zoom. cbn. by rewrite R.
    - cbn. unfold onw, on_mem, zoom. cbn. by rewrite R.
    - injection R as <- <-. cbn. by destruct (pw s). }
  rewrite E. destruct (negb (n =? 0) && (r =? 0)).
  - eexists (-1), _, k', l', sz', msz, g. split; [reflexivity|]. split; [split; [by exists (sav 0 b e)|cbn; by rewrite Hc1]|].
    split_and!; [done|done|exact HO|exact HM'|exact HA|left; exact Hc1|cbn; rewrite Hc1; done].
  - rewrite run_set. cbn [pk pw pfirst]. set (s3 := set_core _ k1).
    destruct (switchuvm_run i 0 b (sav 0 b e) [] p s3) as (s4 & R4 & Hc4 & Ht4); [exact Ht1|apply sh0| | |].
    { unfold s3. cbn. rewrite Hc1, procs_updp_eq. exact Hks. }
    { unfold s3. cbn. rewrite Hc1, procs_updp_eq. exact Hpg. }
    eexists (sz x), _, k', l', sz', msz, g. split.
    { erewrite (run_onk (switchuvm (Some p))); [|exact R4]. rewrite (proj2 (Z.eqb_neq (sz x) (-1))) by lia. reflexivity. }
    split; [split; [eexists; exact Ht4|cbn; rewrite Hc4; cbn; rewrite Hc1; exact Hp]|].
    split_and!; [done|done|exact HO|exact HM'|exact HA| |].
    + right. cbn. rewrite Hc4. cbn. by rewrite Hc1, Hsz.
    + cbn. rewrite Hc4. cbn. by rewrite procs_updp_eq, Hsz.
Qed.

End sbrk.
End services.

(** ** Witness *)

#[local] Existing Instance unit_env.

(** A trap environment in which the argument of the call is [n]. *)
Definition calls_with (n : Z) : TrapEnv (kmem * ()) := {|
  ideintr := mret (); ideintr2 := mret (); kbdintr := mret (); uartintr := mret (); eoi := id;
  user := λ _, set_umem (store32 (λ _, 0) 4 n) cold_usys; proc_ptr := λ i, 2148532224 + 256 * Z.of_nat i; other_calls := λ _, None;
  user_eoi := λ _, eq_refl
|}.

Definition two_page_proc (d : Z) : proc :=
  set_kstack 4096 (set_pgdir d (set_sz 8192 running_proc)).

Definition two_page_state (k : kmem) (d : Z) : pst (kmem * ()) :=
  Pst (idle_thread false (one_queued (RunQ 0) 3 (two_page_proc d))) (k, ()) false.

