(* ===== verification/Boot.v ===== *)
(** * The boot loader: kernel/boot/bootmain.c

    The loader reads an ELF image off the first disk by polling the controller; the
    disk is the class [Pio], which says what polling a drive brings. *)
From stdpp Require Import base decidable option list functions numbers strings sets.
From Stdlib Require Import ZArith Lia.
From S2P Require Import Prelude CString ProcDefs Kalloc Vm FsDefs Exec.

Local Open Scope Z_scope.

(** ** The disk, polled *)

Class PioOps (D : Type) := {
  pio_outb : D → Z → Z → D;
  pio_inb : D → Z → Z * D;
  pio_insl : D → Z → mem * D;
  pio_sector : D → Z → mem
}.

Definition SECTSIZE : Z := 512.

(** The state of the boot loader. *)
Record bst (D : Type) := Bst { bdisk : D; bmem : mem }.
Arguments Bst {D}.
Arguments bdisk {D} _.
Arguments bmem {D} _.

Section boot.
Context {D : Type} `{!PioOps D}.

Definition boutb (p v : Z) : M (bst D) () := modS (λ s, Bst (pio_outb (bdisk s) p (u8 v)) (bmem s)).

(** [while((inb(0x1F7) & 0xC0) != 0x40);] *)
Fixpoint waitdisk (fuel : nat) : M (bst D) () :=
  match fuel with
  | O => no_fuel
  | S fuel =>
      r ← gets (λ s, (pio_inb (bdisk s) 0x1F7).1);
      _ ← modS (λ s, Bst (pio_inb (bdisk s) 0x1F7).2 (bmem s));
      if Z.land r 0xC0 =? 0x40 then mret () else waitdisk fuel
  end.

(** [insl(0x1F0, dst, SECTSIZE/4)] *)
Definition binsl (dst : Z) : M (bst D) () :=
  modS (λ s, Bst (pio_insl (bdisk s) 0x1F0).2
    (λ a, if (dst <=? a) && (a <? dst + SECTSIZE) then (pio_insl (bdisk s) 0x1F0).1 (a - dst) else bmem s a)).

Definition readsect (fuel : nat) (dst offset : Z) : M (bst D) () :=
  _ ← waitdisk fuel;
  _ ← boutb 0x1F2 1;
  _ ← boutb 0x1F3 offset;
  _ ← boutb 0x1F4 (Z.shiftr offset 8);
  _ ← boutb 0x1F5 (Z.shiftr offset 16);
  _ ← boutb 0x1F6 (Z.lor (Z.shiftr offset 24) 0xE0);
  _ ← boutb 0x1F7 0x20;
  _ ← waitdisk fuel;
  binsl dst.

(** The loop of [readseg]; [n] bounds its rounds. *)
Fixpoint readseg_loop (n fuel : nat) (pa epa offset : Z) : M (bst D) () :=
  if pa <? epa then
    match n with
    | O => no_fuel
    | S n =>
        _ ← readsect fuel pa offset;
        readseg_loop n fuel (u32 (pa + SECTSIZE)) epa (u32 (offset + 1))
    end
  else mret ().

Definition readseg (fuel : nat) (pa count offset : Z) : M (bst D) () :=
  let epa := u32 (pa + count) in
  let pa := u32 (pa - offset mod SECTSIZE) in
  let offset := offset / SECTSIZE + 1 in
  readseg_loop (Z.to_nat (count / SECTSIZE + 2)) fuel pa epa offset.

(** [struct elfhdr] and [struct proghdr] at an address. *)
Definition struct_at (m : mem) (a : Z) : mem := λ x, m (a + x).
Definition ph_paddr (m : mem) : Z := load32 m 12.

Definition ELF_SCRATCH : Z := 0x10000.

(** One round of the loop over the program headers. *)
Definition boot_segment (fuel : nat) (ph : Z) : M (bst D) () :=
  pa ← gets (λ s, ph_paddr (struct_at (bmem s) ph));
  h ← gets (λ s, struct_at (bmem s) ph);
  _ ← readseg fuel pa (ph_filesz h) (ph_off h);
  h ← gets (λ s, struct_at (bmem s) ph);
  mwhen (ph_filesz h <? ph_memsz h)
    (modS (λ s, Bst (bdisk s)
       (stosb (bmem s) (u32 (pa + ph_filesz h)) 0 (Z.to_nat (ph_memsz h - ph_filesz h))))).

(** The loop; [n] bounds its rounds. *)
Fixpoint boot_segments (n fuel : nat) (ph eph : Z) : M (bst D) () :=
  if ph <? eph then
    match n with
    | O => no_fuel
    | S n => _ ← boot_segment fuel ph; boot_segments n fuel (u32 (ph + PHSIZE)) eph
    end
  else mret ().

(** [bootmain]: [Some entry] is the jump to the kernel, [None] the return to
    bootasm.S. *)
Definition bootmain (fuel : nat) : M (bst D) (option Z) :=
  _ ← readseg fuel ELF_SCRATCH 4096 0;
  elf ← gets (λ s, struct_at (bmem s) ELF_SCRATCH);
  if negb (elf_magic elf =? ELF_MAGIC) then mret None
  else
    let ph := u32 (ELF_SCRATCH + elf_phoff elf) in
    _ ← boot_segments (Z.to_nat (elf_phnum elf)) fuel ph (u32 (ph + elf_phnum elf * PHSIZE));
    entry ← gets (λ s, elf_entry (struct_at (bmem s) ELF_SCRATCH));
    mret (Some entry).
End boot.

(** ** What a polled disk promises

    An idle drive answers ready.  A drive given the command to read one sector stays
    busy for some number of polls, then is ready, and the 512 bytes read from the data
    port are the sector's; the drive is idle again and nothing on it has changed. *)
Definition pio_status {D} `{!PioOps D} (d : D) : Z := (pio_inb d 0x1F7).1.
Definition pio_poll {D} `{!PioOps D} (d : D) : D := (pio_inb d 0x1F7).2.
Definition pio_ready {D} `{!PioOps D} (d : D) : bool := Z.land (pio_status d) 0xC0 =? 0x40.

Definition read_command {D} `{!PioOps D} (d : D) (n : Z) : D :=
  let d := pio_outb d 0x1F2 1 in
  let d := pio_outb d 0x1F3 (u8 n) in
  let d := pio_outb d 0x1F4 (u8 (n ≫ 8)) in
  let d := pio_outb d 0x1F5 (u8 (n ≫ 16)) in
  let d := pio_outb d 0x1F6 (u8 (Z.lor (n ≫ 24) 0xE0)) in
  pio_outb d 0x1F7 0x20.

Class Pio (D : Type) `{!PioOps D} := {
  pio_idle : D → Prop;
  pio_idle_ready d : pio_idle d →
    pio_ready d = true ∧ pio_idle (pio_poll d) ∧ pio_sector (pio_poll d) = pio_sector d;
  pio_reads d n : pio_idle d → 0 ≤ n < 2 ^ 28 →
    ∃ k, (∀ j, (j < k)%nat → pio_ready (Nat.iter j pio_poll (read_command d n)) = false) ∧
      pio_ready (Nat.iter k pio_poll (read_command d n)) = true ∧
      let d' := Nat.iter (S k) pio_poll (read_command d n) in
      (∀ x, 0 ≤ x < SECTSIZE → (pio_insl d' 0x1F0).1 x = pio_sector d n x) ∧
      pio_idle (pio_insl d' 0x1F0).2 ∧ pio_sector (pio_insl d' 0x1F0).2 = pio_sector d
}.

(** Byte [o] of the kernel image, which starts at sector 1. *)
Definition image {D} `{!PioOps D} (d : D) (o : Z) : Z := pio_sector d (o / SECTSIZE + 1) (o mod SECTSIZE).

(** Runs that end whatever the bound on polling is, once it is large enough. *)
Definition polled {D A} (f : nat → M (bst D) A) (s : bst D) (r : A) (s' : bst D) : Prop :=
  ∃ k, ∀ fuel, (k < fuel)%nat → f fuel s = Done (r, s').

Lemma polled_bind {D A B} (f : nat → M (bst D) A) (g : nat → A → M (bst D) B) s r s' r' s'' :
  polled f s r s' → polled (λ fuel, g fuel r) s' r' s'' → polled (λ fuel, x ← f fuel; g fuel x) s r' s''.
Proof.
  intros [k1 H1] [k2 H2]. exists (k1 `max` k2)%nat. intros fuel Hf.
  rewrite (bind_done _ _ s r s') by (apply H1; lia). apply H2; lia.
Qed.

Lemma polled_ret {D A} (m : M (bst D) A) s r s' : m s = Done (r, s') → polled (λ _, m) s r s'.
Proof. intros H. exists O. done. Qed.

Section load.
Context {D : Type} `{!PioOps D, !Pio D}.
Implicit Types (d : D) (m : mem).

Lemma waitdisk_polls k d m :
  (∀ j, (j < k)%nat → pio_ready (Nat.iter j pio_poll d) = false) → pio_ready (Nat.iter k pio_poll d) = true →
  polled waitdisk (Bst d m) () (Bst (Nat.iter (S k) pio_poll d) m).
Proof.
  intros Hb Hr. exists k. intros fuel. revert d fuel Hb Hr. induction k as [|k IH]; intros d fuel Hb Hr Hf.
  all: destruct fuel as [|fuel]; [lia|]; cbn [waitdisk].
  all: rewrite run_gets, run_modS; cbn [bdisk bmem].
  all: change (Z.land _ 192 =? 64) with (pio_ready d).
  - cbn in Hr. by rewrite Hr.
  - rewrite (Hb 0%nat ltac:(lia) : pio_ready d = false). change (pio_inb d 503).2 with (pio_poll d).
    rewrite IH; [by rewrite <- !Nat.iter_succ_r|intros j Hj; rewrite <- Nat.iter_succ_r; apply Hb; lia| |lia].
    by rewrite <- Nat.iter_succ_r.
Qed.

(** Memory with the bytes from [s] to [e] replaced. *)
Definition over (m : mem) (s e : Z) (f : Z → Z) (a : Z) : Z := if decide (s ≤ a < e) then f a else m a.

Lemma readsect_run d m dst n : pio_idle d → 0 ≤ n < 2 ^ 28 →
  ∃ d' m', polled (λ fuel, readsect fuel dst n) (Bst d m) () (Bst d' m') ∧
    pio_idle d' ∧ pio_sector d' = pio_sector d ∧
    ∀ a, m' a = over m dst (dst + SECTSIZE) (λ a, pio_sector d n (a - dst)) a.
Proof.
  intros Hi Hn. destruct (pio_idle_ready d Hi) as (R1 & R2 & R3).
  destruct (pio_reads _ n R2 Hn) as (k & K1 & K2 & K3 & K4 & K5).
  eexists _, _. split_and!; [|exact K4|by rewrite K5|].
  - eapply polled_bind; [apply (waitdisk_polls 0); [lia|done]|].
    do 6 (eapply polled_bind; [apply polled_ret; reflexivity|]).
    eapply polled_bind; [apply (waitdisk_polls k); done|apply polled_ret; reflexivity].
  - intros a. unfold over. cbn [bmem bdisk]. destruct (decide _) as [Ha|Ha].
    + rewrite (proj2 (andb_true_iff _ _)) by (split; [apply Z.leb_le|apply Z.ltb_lt]; lia).
      rewrite <- R3. apply K3. unfold SECTSIZE in *. lia.
    + destruct (_ && _) eqn:E; [|done]. apply andb_true_iff in E. lia.
Qed.

Lemma readseg_loop_run r n d m pa epa off :
  pio_idle d → 0 ≤ pa → pa + SECTSIZE * Z.of_nat r < 2 ^ 32 → 0 ≤ off → off + Z.of_nat r < 2 ^ 28 →
  pa + SECTSIZE * Z.of_nat r - SECTSIZE < epa ≤ pa + SECTSIZE * Z.of_nat r → (r ≤ n)%nat →
  ∃ d' m', polled (λ fuel, readseg_loop n fuel pa epa off) (Bst d m) () (Bst d' m') ∧
    pio_idle d' ∧ pio_sector d' = pio_sector d ∧
    ∀ a, m' a = over m pa (pa + SECTSIZE * Z.of_nat r)
      (λ a, pio_sector d (off + (a - pa) / SECTSIZE) ((a - pa) mod SECTSIZE)) a.
Proof.
  unfold SECTSIZE. revert n d m pa off.
  induction r as [|r IH]; intros n d m pa off Hi Hp Hp2 Ho Ho2 He Hn.
  - exists d, m. split_and!; [|done..|].
    + exists O. intros fuel _. destruct n; cbn [readseg_loop]; by rewrite (proj2 (Z.ltb_ge pa epa)) by lia.
    + intros a. unfold over. by rewrite decide_False by lia.
  - destruct n as [|n]; [lia|].
    destruct (readsect_run d m pa off Hi ltac:(lia)) as (d1 & m1 & P1 & I1 & E1 & M1).
    destruct (IH n d1 m1 (pa + 512) (off + 1) I1) as (d2 & m2 & P2 & I2 & E2 & M2); [lia..|].
    exists d2, m2. split_and!; [|done|by rewrite E2|].
    + destruct (polled_bind _ (λ fuel _, readseg_loop n fuel (pa + 512) epa (off + 1)) _ _ _ _ _ P1 P2) as [k K].
      exists k. intros fuel Hf. cbn [readseg_loop]. rewrite (proj2 (Z.ltb_lt pa epa)) by lia.
      unfold SECTSIZE. rewrite !u32_small by lia. by apply K.
    + intros a. rewrite M2. unfold over at 1 2. rewrite E1. destruct (decide _) as [Ha|Ha].
      * rewrite decide_True by lia. replace (a - pa) with (a - (pa + 512) + 1 * 512) by lia.
        rewrite Z.div_add, Z.mod_add by lia. f_equal. lia.
      * rewrite M1. unfold over, SECTSIZE. destruct (decide (pa ≤ a < pa + 512)) as [Hb|Hb].
        -- rewrite decide_True by lia. by rewrite Z.div_small, Z.mod_small, Z.add_0_r by lia.
        -- by rewrite decide_False by lia.
Qed.

(** Where [readseg] starts and stops writing. *)
Definition seg_start (pa off : Z) : Z := pa - off mod SECTSIZE.
Definition seg_stop (pa count off : Z) : Z :=
  seg_start pa off + SECTSIZE * ((pa + count - seg_start pa off + (SECTSIZE - 1)) / SECTSIZE).

Lemma seg_extent pa count off : 0 ≤ count →
  seg_start pa off ≤ pa ∧ pa + count ≤ seg_stop pa count off < pa + count + SECTSIZE.
Proof.
  intros Hc. unfold seg_stop, seg_start, SECTSIZE in *. pose proof (Z.mod_pos_bound off 512 ltac:(lia)).
  pose proof (Z.div_mod (pa + count - (pa - off mod 512) + (512 - 1)) 512 ltac:(lia)).
  pose proof (Z.mod_pos_bound (pa + count - (pa - off mod 512) + (512 - 1)) 512 ltac:(lia)). lia.
Qed.

Lemma readseg_run d m pa count off :
  pio_idle d → 0 ≤ off < 2 ^ 32 → 0 ≤ count < 2 ^ 32 → 0 ≤ seg_start pa off →
  seg_stop pa count off < 2 ^ 32 →
  ∃ d' m', polled (λ fuel, readseg fuel pa count off) (Bst d m) () (Bst d' m') ∧
    pio_idle d' ∧ pio_sector d' = pio_sector d ∧
    ∀ a, m' a = over m (seg_start pa off) (seg_stop pa count off) (λ a, image d (off + (a - pa))) a.
Proof.
  intros Hi Ho Hc Hs Ht. destruct (seg_extent pa count off ltac:(lia)) as [X1 X2].
  set (q := (pa + count - seg_start pa off + (SECTSIZE - 1)) / SECTSIZE).
  assert (Hq : seg_stop pa count off = seg_start pa off + SECTSIZE * q) by done.
  assert (Hm := Z.mod_pos_bound off SECTSIZE ltac:(done)). assert (Hd := Z.div_mod off SECTSIZE ltac:(done)).
  assert (Hcd := Z.div_mod count SECTSIZE ltac:(done)). assert (Hcm := Z.mod_pos_bound count SECTSIZE ltac:(done)).
  assert (Hs' : seg_start pa off = pa - off mod SECTSIZE) by done.
  unfold SECTSIZE in *. assert (Hrq : Z.of_nat (Z.to_nat q) = q) by lia.
  destruct (readseg_loop_run (Z.to_nat q) (Z.to_nat (count / 512 + 2)) d m (seg_start pa off) (pa + count)
    (off / 512 + 1) Hi) as (d' & m' & [k K] & I1 & E1 & M1); unfold SECTSIZE in *; rewrite ?Hrq; try lia.
  exists d', m'. split_and!; [|done..|].
  - exists k. intros fuel Hf. unfold readseg, SECTSIZE. rewrite !u32_small by lia. rewrite <- Hs'. by apply K.
  - intros a. rewrite M1, Hrq, <- Hq. unfold over. destruct (decide _) as [Ha|]; [|done].
    unfold image, SECTSIZE. rewrite Hs'.
    replace (off + (a - pa)) with (a - (pa - off mod 512) + off / 512 * 512) by lia.
    rewrite Z.div_add, Z.mod_add by lia. f_equal. lia.
Qed.

(** ** Loading a kernel *)

(** Program header [i] of the image, and its segment in memory. *)
Definition hdr (img : mem) (i : Z) : mem := struct_at img (elf_phoff img + PHSIZE * i).
Definition seg_size (h : mem) : Z := ph_filesz h `max` ph_memsz h.

Definition seg_loaded (img h m : mem) : Prop :=
  (∀ a, ph_paddr h ≤ a < ph_paddr h + ph_filesz h → m a = img (ph_off h + (a - ph_paddr h))) ∧
  (∀ a, ph_paddr h + ph_filesz h ≤ a < ph_paddr h + ph_memsz h → m a = 0).

(** A segment fits below 4GB, sector padding included, and keeps off the scratch page. *)
Definition seg_ok (h : mem) : Prop :=
  0 ≤ seg_start (ph_paddr h) (ph_off h) ∧
  seg_stop (ph_paddr h) (ph_filesz h) (ph_off h) < 2 ^ 32 ∧ ph_paddr h + seg_size h < 2 ^ 32 ∧
  (ELF_SCRATCH + 4096 ≤ seg_start (ph_paddr h) (ph_off h) ∨
   seg_stop (ph_paddr h) (ph_filesz h) (ph_off h) ≤ ELF_SCRATCH ∧ ph_paddr h + seg_size h ≤ ELF_SCRATCH).

(** A kernel image the loader can load: bytes, a header and a program header table in
    the first page, and segments in increasing order, each clear of the sector that
    holds the next one's first byte. *)
Record kernel_image (img : mem) : Prop := {
  ki_bytes x : 0 ≤ img x < 256;
  ki_magic : elf_magic img = ELF_MAGIC;
  ki_table : elf_phoff img + PHSIZE * elf_phnum img ≤ 4096;
  ki_segs i : 0 ≤ i < elf_phnum img → seg_ok (hdr img i);
  ki_order i j : 0 ≤ i < j → j < elf_phnum img →
    ph_paddr (hdr img i) + seg_size (hdr img i) ≤ seg_start (ph_paddr (hdr img j)) (ph_off (hdr img j))
}.

Lemma load32_range (m : mem) a : (∀ x, 0 ≤ m x < 256) → 0 ≤ load32 m a < 2 ^ 32.
Proof.
  intros H. unfold load32. rewrite ?Z.shiftl_mul_pow2 by lia.
  pose proof (H a). pose proof (H (a + 1)). pose proof (H (a + 2)). pose proof (H (a + 3)). lia.
Qed.

Definition in_scratch (img m : mem) : Prop := ∀ x, 0 ≤ x < 4096 → m (ELF_SCRATCH + x) = img x.

Lemma scratch_hdr img m i x : kernel_image img → in_scratch img m → 0 ≤ i < elf_phnum img →
  0 ≤ x ≤ 28 → load32 (struct_at m (ELF_SCRATCH + (elf_phoff img + PHSIZE * i))) x = load32 (hdr img i) x.
Proof.
  intros Hk Hs Hi Hx. apply load32_ext. intros y Hy. unfold hdr, struct_at.
  replace (ELF_SCRATCH + (elf_phoff img + PHSIZE * i) + y) with (ELF_SCRATCH + (elf_phoff img + PHSIZE * i + y)) by lia.
  pose proof (ki_table _ Hk). pose proof (load32_range img 28 (ki_bytes _ Hk)).
  unfold elf_phoff, PHSIZE in *. apply Hs. lia.
Qed.

Definition hdr_addr (img : mem) (i : Z) : Z := ELF_SCRATCH + (elf_phoff img + PHSIZE * i).

Lemma boot_segment_run d0 d m i :
  let img := image d0 in let h := hdr img i in
  kernel_image img → pio_idle d → pio_sector d = pio_sector d0 → in_scratch img m → 0 ≤ i < elf_phnum img →
  ∃ d' m', polled (λ fuel, boot_segment fuel (hdr_addr img i)) (Bst d m) () (Bst d' m') ∧
    pio_idle d' ∧ pio_sector d' = pio_sector d0 ∧ in_scratch img m' ∧ seg_loaded img h m' ∧
    ∀ a, a < seg_start (ph_paddr h) (ph_off h) → m' a = m a.
Proof.
  intros img h Hk Hid Hd Hs Hi. destruct (ki_segs _ Hk i Hi) as (S1 & S2 & S3 & S4).
  fold h in S1, S2, S3, S4. unfold seg_size in *.
  assert (R : ∀ x, 0 ≤ load32 h x < 2 ^ 32) by (intros x; apply load32_range; intros y; apply (ki_bytes _ Hk)).
  pose proof (R 4) as R1. pose proof (R 12) as R2. pose proof (R 16) as R3. pose proof (R 20) as R4. clear R.
  change (load32 h 4) with (ph_off h) in R1. change (load32 h 12) with (ph_paddr h) in R2.
  change (load32 h 16) with (ph_filesz h) in R3. change (load32 h 20) with (ph_memsz h) in R4.
  destruct (seg_extent (ph_paddr h) (ph_filesz h) (ph_off h) ltac:(lia)) as [X1 X2].
  destruct (readseg_run d m (ph_paddr h) (ph_filesz h) (ph_off h)) as (d1 & m1 & P1 & I1 & E1 & M1); [done..|].
  assert (Hs1 : in_scratch img m1).
  { intros x Hx. rewrite M1. unfold over. rewrite decide_False by (unfold ELF_SCRATCH in *; lia). by apply Hs. }
  set (m2 := stosb m1 (ph_paddr h + ph_filesz h) 0 (Z.to_nat (ph_memsz h - ph_filesz h))).
  assert (M2 : ∀ a, m2 a = over m1 (ph_paddr h + ph_filesz h) (ph_paddr h + ph_memsz h) (λ _, 0) a).
  { intros a. unfold m2, over. rewrite stosb_spec. by repeat case_decide; try lia. }
  exists d1, m2. split_and!; [|done|by rewrite E1|..].
  - destruct P1 as [k K]. exists k. intros fuel Hf. unfold boot_segment. rewrite !run_gets. cbn [bmem].
    assert (A : ∀ m', in_scratch img m' → let g := struct_at m' (hdr_addr img i) in
      ph_paddr g = ph_paddr h ∧ ph_filesz g = ph_filesz h ∧ ph_off g = ph_off h ∧ ph_memsz g = ph_memsz h)
      by (intros m' Hm'; split_and!; apply scratch_hdr; done).
    destruct (A _ Hs) as (-> & -> & -> & _). erewrite bind_done by (by apply K). rewrite run_gets. cbn [bmem].
    destruct (A _ Hs1) as (_ & -> & _ & ->). unfold mwhen, m2. destruct (Z.ltb_spec (ph_filesz h) (ph_memsz h)).
    + rewrite u32_small by lia. done.
    + by replace (Z.to_nat (ph_memsz h - ph_filesz h)) with O by lia.
  - intros x Hx. rewrite M2. unfold over. rewrite decide_False by (unfold ELF_SCRATCH in *; lia). by apply Hs1.
  - split; intros a Ha; rewrite M2; unfold over; [rewrite decide_False by lia|by rewrite decide_True by lia].
    rewrite M1. unfold over. rewrite decide_True by lia. unfold img, image. by rewrite Hd.
  - intros a Ha. rewrite M2. unfold over. rewrite decide_False, M1 by lia. unfold over. by rewrite decide_False by lia.
Qed.

Lemma boot_segments_run n d0 i d m :
  let img := image d0 in
  kernel_image img → pio_idle d → pio_sector d = pio_sector d0 → in_scratch img m →
  0 ≤ i → i + Z.of_nat n = elf_phnum img →
  ∃ d' m', polled (λ fuel, boot_segments n fuel (hdr_addr img i) (hdr_addr img (elf_phnum img))) (Bst d m) () (Bst d' m') ∧
    in_scratch img m' ∧ (∀ j, i ≤ j < elf_phnum img → seg_loaded img (hdr img j) m') ∧
    ∀ a, (∀ j, i ≤ j < elf_phnum img → a < seg_start (ph_paddr (hdr img j)) (ph_off (hdr img j))) → m' a = m a.
Proof.
  intros img Hk. revert i d m. induction n as [|n IH]; intros i d m Hid Hd Hs H0 Hi.
  - exists d, m. split_and!; [|done|intros; lia|done].
    exists O. intros fuel _. cbn [boot_segments]. replace i with (elf_phnum img) by lia. by rewrite Z.ltb_irrefl.
  - assert (Hlt : 0 ≤ i < elf_phnum img) by lia.
    destruct (boot_segment_run d0 d m i Hk Hid Hd Hs Hlt) as (d1 & m1 & P1 & I1 & E1 & S1 & L1 & F1).
    destruct (IH (i + 1) d1 m1 I1 E1 S1) as (d2 & m2 & P2 & S2 & L2 & F2); [lia..|].
    exists d2, m2. fold img in F1, L1. split_and!; [|done|..].
    + destruct (polled_bind _ (λ fuel _, boot_segments n fuel (hdr_addr img (i + 1)) (hdr_addr img (elf_phnum img)))
        _ _ _ _ _ P1 P2) as [k K].
      exists k. intros fuel Hf. cbn [boot_segments].
      pose proof (ki_table _ Hk). pose proof (load32_range img 28 (ki_bytes _ Hk)).
      change (load32 img 28) with (elf_phoff img) in *.
      rewrite (proj2 (Z.ltb_lt (hdr_addr img i) (hdr_addr img (elf_phnum img)))) by (unfold hdr_addr, PHSIZE; lia).
      replace (u32 (hdr_addr img i + PHSIZE)) with (hdr_addr img (i + 1)); [by apply K|].
      unfold hdr_addr, ELF_SCRATCH, PHSIZE in *. rewrite u32_small; lia.
    + intros j Hj. destruct (decide (j = i)) as [->|]; [|apply L2; lia].
      pose proof (λ j, ki_order _ Hk i j) as Ho. unfold seg_size in Ho. destruct L1 as [L1 L1'].
      split; intros a Ha; rewrite F2; [by apply L1| |by apply L1'|];
        intros j Hij; specialize (Ho j ltac:(lia) ltac:(lia)); fold img in Ho; lia.
    + intros a Ha. rewrite F2 by (intros; apply Ha; lia). apply F1, Ha. lia.
Qed.

End load.

(** A drive that is busy for two polls after a command. *)
Record drive := Drive { dr_sectors : Z → mem; dr_regs : Z → Z; dr_busy : nat }.

Definition dr_lba (r : Z → Z) : Z := r 0x1F3 + r 0x1F4 ≪ 8 + r 0x1F5 ≪ 16 + Z.land (r 0x1F6) 0xF ≪ 24.

#[local] Instance drive_ops : PioOps drive := {
  pio_outb d p v := if p =? 0x1F7 then Drive (dr_sectors d) (dr_regs d) 2 else Drive (dr_sectors d) (<[p := v]> (dr_regs d)) (dr_busy d);
  pio_inb d _ := (match dr_busy d with O => 0x40 | S _ => 0x80 end, Drive (dr_sectors d) (dr_regs d) (pred (dr_busy d)));
  pio_insl d _ := (dr_sectors d (dr_lba (dr_regs d)), d);
  pio_sector := dr_sectors
}.

Lemma dr_lba_command d n : 0 ≤ n < 2 ^ 28 → dr_lba (dr_regs (read_command d n)) = n.
Proof.
  intros Hn. unfold dr_lba.
  change (u8 n + u8 (n ≫ 8) ≪ 8 + u8 (n ≫ 16) ≪ 16 + Z.land (u8 (Z.lor (n ≫ 24) 0xE0)) 0xF ≪ 24 = n).
  assert (H4 : 0 ≤ n ≫ 24 < 16) by (rewrite Z.shiftr_div_pow2 by lia; change (2 ^ 24) with 16777216; Z.to_euclidean_division_equations; lia).
  assert (Z.land (u8 (Z.lor (n ≫ 24) 0xE0)) 0xF = n ≫ 24) as ->.
  { generalize dependent (n ≫ 24). intros q Hq. assert (q ∈ seqZ 0 16) as Hin by (apply elem_of_seqZ; lia).
    revert q Hin Hq. clear. assert (Forall (λ q, Z.land (u8 (Z.lor q 0xE0)) 0xF = q) (seqZ 0 16)) as HF by (vm_compute; repeat constructor).
    intros q Hin _. by eapply Forall_forall in HF. }
  unfold u8. rewrite !Z.shiftl_mul_pow2, !Z.shiftr_div_pow2 by lia. change (2 ^ 24) with (2 ^ 16 * 2 ^ 8).
  change (2 ^ 16) with (2 ^ 8 * 2 ^ 8). rewrite <- !Z.div_div by lia.
  change (2 ^ 8) with 256. clear H4. Z.to_euclidean_division_equations. lia.
Qed.

#[local, refine] Instance drive_pio : Pio drive := {
  pio_idle d := dr_busy d = O
}.
Proof.
  - intros [c r b] H. cbn in H. subst. by split_and!.
  - intros d n H Hn. exists 2%nat. cbv zeta. split_and!; [|done| |done..].
    + intros [|[|j]] Hj; [done..|lia].
    + intros x Hx. change (dr_sectors d (dr_lba (dr_regs (read_command d n))) x = dr_sectors d n x).
      by rewrite dr_lba_command.
Defined.

(** A kernel of one segment: 768 bytes in the image, 1280 in memory. *)
Definition small_kernel : mem :=
  foldr (λ '(a, w) m, store32 m a w) (λ x, if 0x1000 <=? x then 7 else 0)
    [(0, ELF_MAGIC); (24, 0x10000C); (28, 52); (44, 1); (56, 0x1000); (64, 0x100000); (68, 768); (72, 1280)].

Definition boot_drive : drive := Drive (λ s x, small_kernel ((s - 1) * 512 + x)) (λ _, 0) 0.

Lemma store32_bytes (m : mem) a w : (∀ x, 0 ≤ m x < 256) → ∀ x, 0 ≤ store32 m a w x < 256.
Proof.
  intros H x. assert (U : ∀ z, 0 ≤ u8 z < 256) by (intros z; apply Z.mod_pos_bound; lia).
  unfold store32, store8. mem_cases; done.
Qed.

Lemma boot_drive_kernel : kernel_image (image boot_drive).
Proof.
  split; [|reflexivity|by vm_compute| |].
  - intros x. unfold image, boot_drive. cbn [pio_sector drive_ops dr_sectors]. unfold small_kernel. cbn [foldr].
    do 8 apply store32_bytes. intros y. destruct (_ <=? _); lia.
  - change (elf_phnum (image boot_drive)) with 1. intros i Hi. replace i with 0 by lia.
    unfold seg_ok. split_and!; [by vm_compute..|left; by vm_compute].
  - change (elf_phnum (image boot_drive)) with 1. intros i j Hi Hj. lia.
Qed.

