(* ===== verification/Mp.v ===== *)
(** * Finding the processors: kernel/arch/x86_32/mp/mp.c

    The firmware leaves a floating pointer structure and a configuration table in
    memory; [mpinit] finds them and records the processors' local APIC ids and the
    I/O APIC's id.  The memory [m] is only read; [imcr] is what port 0x23 answers. *)
From stdpp Require Import base decidable option list functions numbers strings sets.
From Stdlib Require Import ZArith Lia.
From S2P Require Import Prelude CString ProcDefs Kalloc Vm FsDefs.

Local Open Scope Z_scope.

(** ** The structures of mp.h *)

Definition MP_SIZE : Z := 16.
Definition mp_physaddr (m : mem) (p : Z) : Z := load32 m (p + 4).
Definition mp_imcrp (m : mem) (p : Z) : Z := m (p + 12).

Definition MPCONF_SIZE : Z := 44.
Definition conf_length (m : mem) (p : Z) : Z := load16 m (p + 4).
Definition conf_version (m : mem) (p : Z) : Z := m (p + 6).
Definition conf_lapicaddr (m : mem) (p : Z) : Z := load32 m (p + 36).

Definition MPPROC_SIZE : Z := 20.
Definition proc_apicid (m : mem) (p : Z) : Z := m (p + 1).
Definition MPIOAPIC_SIZE : Z := 8.
Definition ioapic_apicno (m : mem) (p : Z) : Z := m (p + 1).

Definition MPPROC : Z := 0.
Definition MPBUS : Z := 1.
Definition MPIOAPIC : Z := 2.
Definition MPIOINTR : Z := 3.
Definition MPLINTR : Z := 4.

(** The globals of the file, and the writes to ports. *)
Record mpst := Mpst { ncpu : Z; apicid : Z → Z; ioapicid : Z; lapic : Z; outs : list (Z * Z) }.

Section mp.
Variables (m : mem) (imcr : Z).

Fixpoint sum_loop (p : Z) (n : nat) (acc : Z) : Z :=
  match n with
  | O => acc
  | S n => sum_loop (p + 1) n (s32 (acc + m p))
  end.

Definition sum (addr len : Z) : Z := u8 (sum_loop addr (Z.to_nat len) 0).

(** [memcmp] against a literal. *)
Fixpoint memcmp_lit (p : Z) (l : list Z) : Z :=
  match l with
  | [] => 0
  | c :: l => if m p =? c then memcmp_lit (p + 1) l else m p - c
  end.

(** "_MP_" and "PCMP" *)
Definition MP_SIG : list Z := [0x5F; 0x4D; 0x50; 0x5F].
Definition CONF_SIG : list Z := [0x50; 0x43; 0x4D; 0x50].

Definition is_mp (p : Z) : bool := (memcmp_lit p MP_SIG =? 0) && (sum p MP_SIZE =? 0).

(** The loop of [mpsearch1]; 0 is the null pointer and [n] bounds the rounds. *)
Fixpoint mpsearch1_loop (n : nat) (p e : Z) : Z :=
  match n with
  | O => 0
  | S n => if p <? e then if is_mp p then p else mpsearch1_loop n (u32 (p + MP_SIZE)) e else 0
  end.

Definition mpsearch1 (a len : Z) : Z :=
  let addr := P2V a in
  mpsearch1_loop (Z.to_nat (len / MP_SIZE + 1)) addr (u32 (addr + len)).

Definition mpsearch : Z :=
  let bda := P2V 0x400 in
  let p := u32 (Z.lor (m (bda + 0x0F) ≪ 8) (m (bda + 0x0E)) ≪ 4) in
  let mp :=
    if negb (p =? 0) then mpsearch1 p 1024
    else mpsearch1 (u32 (u32 (Z.lor (m (bda + 0x14) ≪ 8) (m (bda + 0x13)) * 1024) - 1024)) 1024 in
  if negb (mp =? 0) then mp else mpsearch1 0xF0000 0x10000.

(** The floating pointer and the table, when both are good. *)
Definition mpconfig : option (Z * Z) :=
  let mp := mpsearch in
  if (mp =? 0) || (mp_physaddr m mp =? 0) then None
  else
    let conf := P2V (mp_physaddr m mp) in
    if negb (memcmp_lit conf CONF_SIG =? 0) then None
    else if negb (conf_version m conf =? 1) && negb (conf_version m conf =? 4) then None
    else if negb (sum conf (conf_length m conf) =? 0) then None
    else Some (mp, conf).

(** The loop of [mpinit], which ends with [ismp].  The [default] case leaves the
    [switch] and not the loop. *)
Fixpoint mpinit_loop (fuel : nat) (p e : Z) (ismp : bool) : M mpst bool :=
  match fuel with
  | O => no_fuel
  | S fuel =>
      if p <? e then
        if m p =? MPPROC then
          s ← getS;
          _ ← mwhen (ncpu s <? Z.of_nat NCPU)
                (putS (Mpst (ncpu s + 1) (<[ncpu s := proc_apicid m p]> (apicid s)) (ioapicid s) (lapic s) (outs s)));
          mpinit_loop fuel (u32 (p + MPPROC_SIZE)) e ismp
        else if m p =? MPIOAPIC then
          _ ← modS (λ s, Mpst (ncpu s) (apicid s) (ioapic_apicno m p) (lapic s) (outs s));
          mpinit_loop fuel (u32 (p + MPIOAPIC_SIZE)) e ismp
        else if (m p =? MPBUS) || (m p =? MPIOINTR) || (m p =? MPLINTR) then
          mpinit_loop fuel (u32 (p + 8)) e ismp
        else mpinit_loop fuel p e false
      else mret ismp
  end.

Definition mp_outb (p v : Z) : M mpst () :=
  modS (λ s, Mpst (ncpu s) (apicid s) (ioapicid s) (lapic s) (outs s ++ [(p, u8 v)])).

Definition mpinit (fuel : nat) : M mpst () :=
  match mpconfig with
  | None => panic "Expect to run on an SMP"
  | Some (mp, conf) =>
      _ ← modS (λ s, Mpst (ncpu s) (apicid s) (ioapicid s) (conf_lapicaddr m conf) (outs s));
      ismp ← mpinit_loop fuel (u32 (conf + MPCONF_SIZE)) (u32 (conf + conf_length m conf)) true;
      if negb ismp then panic "Didn't find a suitable machine"
      else
        mwhen (negb (mp_imcrp m mp =? 0))
          (_ ← mp_outb 0x22 0x70;
           mp_outb 0x23 (Z.lor imcr 1))
  end.
End mp.

(** ** The search *)

(** The addresses [mpsearch] tries, in order. *)
Definition area (a len : Z) : list Z := (λ i, P2V a + MP_SIZE * i) <$> seqZ 0 (len / MP_SIZE).
Definition ebda (m : mem) : Z := Z.lor (m (P2V 0x400 + 0x0F) ≪ 8) (m (P2V 0x400 + 0x0E)) ≪ 4.
Definition base_top (m : mem) : Z := Z.lor (m (P2V 0x400 + 0x14) ≪ 8) (m (P2V 0x400 + 0x13)) * 1024.
Definition candidates (m : mem) : list Z :=
  area (if decide (ebda m = 0) then u32 (base_top m - 1024) else ebda m) 1024 ++ area 0xF0000 0x10000.

Lemma mpsearch1_loop_find m n k a e : 0 < a → e = a + MP_SIZE * Z.of_nat n → e < 2 ^ 32 → (n < k)%nat →
  mpsearch1_loop m k a e = List.hd 0 (filter (is_mp m) ((λ i, a + MP_SIZE * i) <$> seqZ 0 (Z.of_nat n))).
Proof.
  unfold MP_SIZE. revert k a. induction n as [|n IH]; intros k a Ha He He2 Hk; (destruct k as [|k]; [lia|]); cbn [mpsearch1_loop].
  - by rewrite (proj2 (Z.ltb_ge a e)) by lia.
  - rewrite (proj2 (Z.ltb_lt a e)) by lia. rewrite seqZ_cons by lia. rewrite fmap_cons, filter_cons.
    rewrite Z.mul_0_r, Z.add_0_r. destruct (is_mp m a) eqn:E.
    + by rewrite decide_True.
    + rewrite decide_False by auto. unfold MP_SIZE. rewrite u32_small by lia.
      rewrite IH by lia. do 2 f_equal. replace (Z.pred (Z.of_nat (S n))) with (Z.of_nat n) by lia.
      apply list_eq. intros i. rewrite !list_lookup_fmap.
      destruct (decide (Z.of_nat i < Z.of_nat n)).
      * rewrite !lookup_seqZ_lt by lia. cbn. f_equal. lia.
      * by rewrite !lookup_seqZ_ge by lia.
Qed.

Lemma mpsearch1_find m a q : 0 ≤ a < 2 ^ 32 → 0 ≤ q → 0 < P2V a → P2V a + MP_SIZE * q < 2 ^ 32 →
  mpsearch1 m a (MP_SIZE * q) = List.hd 0 (filter (is_mp m) (area a (MP_SIZE * q))).
Proof.
  intros Ha Hq Hp He. unfold mpsearch1, area. replace (MP_SIZE * q / MP_SIZE) with q by (unfold MP_SIZE; rewrite Z.mul_comm, Z.div_mul; lia).
  rewrite u32_small by (unfold MP_SIZE in *; lia).
  rewrite (mpsearch1_loop_find m (Z.to_nat q)) by (unfold MP_SIZE in *; lia). by rewrite Z2Nat.id.
Qed.

Lemma lor_bound n a b : 0 ≤ n → 0 ≤ a < 2 ^ n → 0 ≤ b < 2 ^ n → 0 ≤ Z.lor a b < 2 ^ n.
Proof.
  intros Hn Ha Hb. assert (H0 : 0 ≤ Z.lor a b) by (apply Z.lor_nonneg; lia). split; [done|].
  destruct (decide (Z.lor a b = 0)) as [->|]; [lia|].
  apply Z.log2_lt_pow2; [lia|]. rewrite Z.log2_lor by lia.
  assert (H : ∀ c, 0 ≤ c < 2 ^ n → 0 < n → Z.log2 c < n).
  { intros c Hc Hn'. destruct (decide (c = 0)) as [->|]; [done|]. apply Z.log2_lt_pow2; lia. }
  destruct (decide (n = 0)) as [->|]; [|apply Z.max_lub_lt; apply H; lia].
  assert (a = 0 ∧ b = 0) as [-> ->] by (change (2 ^ 0) with 1 in *; lia). done.
Qed.

Lemma hd_app_find (l k : list Z) : 0 ∉ l →
  List.hd 0 (l ++ k) = if negb (List.hd 0 l =? 0) then List.hd 0 l else List.hd 0 k.
Proof.
  intros Hl. destruct l as [|x l]; [done|]. cbn. destruct (Z.eqb_spec x 0) as [->|]; [|done].
  exfalso. apply Hl. left.
Qed.

(** [mpsearch] returns the first of the candidate addresses that holds the signature
    and whose sixteen bytes sum to 0, or null when none does. *)
Theorem mpsearch_finds m : (∀ x, 0 ≤ m x < 256) →
  mpsearch m = List.hd 0 (filter (is_mp m) (candidates m)).
Proof.
  intros Hb.
  assert (Hw : ∀ x y, 0 ≤ Z.lor (m x ≪ 8) (m y) < 2 ^ 16).
  { intros x y. apply lor_bound; [lia| |pose proof (Hb y); lia].
    rewrite Z.shiftl_mul_pow2 by lia. pose proof (Hb x). lia. }
  assert (He : 0 ≤ ebda m < 2 ^ 20).
  { unfold ebda. rewrite Z.shiftl_mul_pow2 by lia. pose proof (Hw (P2V 0x400 + 0x0F) (P2V 0x400 + 0x0E)). lia. }
  assert (Ht : base_top m = 0 ∨ 1024 ≤ base_top m < 2 ^ 26)
    by (unfold base_top; pose proof (Hw (P2V 0x400 + 0x14) (P2V 0x400 + 0x13)); lia).
  unfold mpsearch, candidates. fold (ebda m) (base_top m). cbv zeta.
  set (A := if decide (ebda m = 0) then u32 (base_top m - 1024) else ebda m).
  assert (HA : 0 ≤ A < 2 ^ 32 ∧ 0 < P2V A ∧ P2V A + 1024 < 2 ^ 32).
  { unfold A, P2V, KERNBASE. destruct (decide _); [destruct Ht as [->|]; [done|]|]; rewrite !u32_small; lia. }
  destruct HA as (A1 & A2 & A3).
  rewrite (u32_small (ebda m)), (u32_small (base_top m)) by lia.
  replace (if negb (ebda m =? 0) then _ else _) with (mpsearch1 m A 1024)
    by (unfold A; destruct (Z.eqb_spec (ebda m) 0), (decide (ebda m = 0)); [reflexivity|lia|lia|reflexivity]).
  clearbody A. assert (F1 := mpsearch1_find m A 64 A1 ltac:(lia) A2 A3).
  assert (F2 := mpsearch1_find m 0xF0000 4096 ltac:(done) ltac:(done) ltac:(done) ltac:(done)).
  change (MP_SIZE * 64) with 1024 in F1. change (MP_SIZE * 4096) with 0x10000 in F2.
  rewrite F1, F2, filter_app, hd_app_find; [reflexivity|].
  rewrite list_elem_of_filter. intros [_ Hin]. apply list_elem_of_fmap in Hin as (i & Hi & Hin).
  apply elem_of_seqZ in Hin. unfold MP_SIZE in Hi. lia.
Qed.

(** ** The table *)

(** The entries of a configuration table. *)
Inductive entry := Eproc (id : Z) | Eioapic (id : Z) | Eother (type : Z).

Definition esize (x : entry) : Z := match x with Eproc _ => 20 | _ => 8 end.

(** Entries laid out one after the other from [p], ending at [e]. *)
Fixpoint entries_at (m : mem) (p : Z) (es : list entry) (e : Z) : Prop :=
  match es with
  | [] => p = e
  | x :: es =>
      match x with
      | Eproc id => m p = MPPROC ∧ m (p + 1) = id
      | Eioapic id => m p = MPIOAPIC ∧ m (p + 1) = id
      | Eother t => m p = t ∧ (t = MPBUS ∨ t = MPIOINTR ∨ t = MPLINTR)
      end ∧ entries_at m (p + esize x) es e
  end.

Definition procs_of (es : list entry) : list Z := omap (λ x, match x with Eproc id => Some id | _ => None end) es.
Definition ioapics_of (es : list entry) : list Z := omap (λ x, match x with Eioapic id => Some id | _ => None end) es.

(** What the processors found add to the globals: those that fit are appended. *)
Definition add_cpus (ids : list Z) (s s' : mpst) : Prop :=
  ncpu s' = (ncpu s + Z.of_nat (length ids)) `min` Z.of_nat NCPU ∧
  (∀ k id, ids !! k = Some id → ncpu s + Z.of_nat k < Z.of_nat NCPU → apicid s' (ncpu s + Z.of_nat k) = id) ∧
  (∀ k, k < ncpu s → apicid s' k = apicid s k).

Lemma entries_extent m p es e : entries_at m p es e → p ≤ e ∧ Z.of_nat (length es) * 8 ≤ e - p.
Proof.
  revert p. induction es as [|x es IH]; intros p H; [cbn in *; lia|].
  destruct H as [_ H]. apply IH in H. cbn [length]. destruct x; cbn [esize] in *; lia.
Qed.

Lemma last_default (y : Z) l a b : List.last (y :: l) a = List.last (y :: l) b.
Proof. revert y. induction l as [|z l IH]; intros y; [done|]. apply (IH z). Qed.

Lemma mpinit_loop_run m es p e s fuel : entries_at m p es e → 0 ≤ p → e < 2 ^ 32 → 0 ≤ ncpu s ≤ Z.of_nat NCPU →
  (length es < fuel)%nat →
  ∃ s', mpinit_loop m fuel p e true s = Done (true, s') ∧ add_cpus (procs_of es) s s' ∧
    ioapicid s' = List.last (ioapics_of es) (ioapicid s) ∧ lapic s' = lapic s ∧ outs s' = outs s.
Proof.
  revert p s fuel. induction es as [|x es IH]; intros p s fuel Hes Hp He Hc Hf; (destruct fuel as [|fuel]; [cbn in Hf; lia|]).
  - cbn in Hes. subst. exists s. cbn [mpinit_loop]. rewrite Z.ltb_irrefl. split_and!; try done.
    unfold add_cpus. cbn. split_and!; [lia|done|done].
  - destruct (entries_extent _ _ _ _ Hes) as [_ Hx]. destruct Hes as [Hh Hes].
    destruct (entries_extent _ _ _ _ Hes) as [Hx2 _]. cbn [length] in Hf, Hx. cbn [mpinit_loop].
    rewrite (proj2 (Z.ltb_lt p e)) by lia. destruct x as [id|id|t]; cbn [esize] in *.
    + destruct Hh as [-> Hid]. change (MPPROC =? MPPROC) with true. cbn [procs_of ioapics_of omap list_omap].
      fold (procs_of es) (ioapics_of es). rewrite run_getS. unfold mwhen, MPPROC_SIZE. rewrite u32_small by lia.
      destruct (Z.ltb_spec (ncpu s) (Z.of_nat NCPU)) as [Hn|Hn].
      * set (s1 := Mpst _ _ _ _ _).
        destruct (IH (p + 20) s1 fuel Hes) as (s' & R & (C1 & C2 & C3) & I & L & O);
          [lia|lia|unfold s1; cbn [ncpu]; lia|lia|].
        exists s'. cbn [s1 ncpu apicid ioapicid lapic outs] in *. split_and!; [exact R| |exact I|exact L|exact O].
        split_and!.
        -- rewrite C1. cbn [length]. lia.
        -- intros [|k] id' Hk Hlt; cbn in Hk.
           ++ injection Hk as <-. rewrite Z.add_0_r, C3 by lia. rewrite upd_get. by rewrite decide_True.
           ++ replace (ncpu s + Z.of_nat (S k)) with (ncpu s + 1 + Z.of_nat k) by lia. apply C2; [done|lia].
        -- intros k Hk. rewrite C3 by lia. rewrite upd_get. by rewrite decide_False by lia.
      * destruct (IH (p + 20) s fuel Hes) as (s' & R & (C1 & C2 & C3) & I & L & O); [lia..|].
        exists s'. split_and!; [exact R| |exact I|exact L|exact O]. split_and!; [rewrite C1; cbn [length]; lia| |exact C3].
        intros k id' _ Hlt. lia.
    + destruct Hh as [-> Hid]. change (MPIOAPIC =? MPPROC) with false. change (MPIOAPIC =? MPIOAPIC) with true. cbv iota.
      rewrite run_modS. unfold MPIOAPIC_SIZE. rewrite u32_small by lia.
      destruct (IH (p + 8) (Mpst (ncpu s) (apicid s) (ioapic_apicno m p) (lapic s) (outs s)) fuel Hes)
        as (s' & R & C & I & L & O); [lia|lia|done|lia|]. exists s'. split_and!; [exact R|exact C| |exact L|exact O].
      rewrite I. unfold ioapic_apicno. rewrite Hid. cbn [ioapicid ioapics_of omap list_omap]. fold (ioapics_of es).
      destruct (ioapics_of es) as [|y l]; [done|]. apply (last_default y l).
    + destruct Hh as [-> Ht]. replace (t =? MPPROC) with false by (destruct Ht as [-> | [-> | ->]]; done).
      replace (t =? MPIOAPIC) with false by (destruct Ht as [-> | [-> | ->]]; done).
      replace ((t =? MPBUS) || (t =? MPIOINTR) || (t =? MPLINTR)) with true by (destruct Ht as [-> | [-> | ->]]; done).
      rewrite u32_small by lia. destruct (IH (p + 8) s fuel Hes) as (s' & R & C & I & L & O); [lia..|]. by exists s'.
Qed.

(** An entry of unknown type stops the loop from advancing. *)
Lemma mpinit_loop_stuck m fuel p e b s : p < e → 4 < m p → mpinit_loop m fuel p e b s = OutOfFuel.
Proof.
  intros Hp Hm. revert b. induction fuel as [|fuel IH]; intros b; [done|]. cbn [mpinit_loop].
  rewrite (proj2 (Z.ltb_lt p e)) by done. unfold MPPROC, MPIOAPIC, MPBUS, MPIOINTR, MPLINTR.
  rewrite !(λ c, proj2 (Z.eqb_neq (m p) c)) by lia. apply IH.
Qed.

Lemma mpinit_loop_reaches m es p q e s fuel : entries_at m p es q → 0 ≤ p → q < e → e < 2 ^ 32 → 4 < m q →
  mpinit_loop m fuel p e true s = OutOfFuel.
Proof.
  revert p s fuel. induction es as [|x es IH]; intros p s fuel Hes Hp Hq He Hm.
  - cbn in Hes. subst. by apply mpinit_loop_stuck.
  - destruct fuel as [|fuel]; [done|]. destruct Hes as [Hh Hes]. destruct (entries_extent _ _ _ _ Hes) as [Hx _].
    cbn [mpinit_loop]. destruct x as [id|id|t]; cbn [esize] in *; rewrite (proj2 (Z.ltb_lt p e)) by lia.
    + destruct Hh as [-> _]. change (MPPROC =? MPPROC) with true. cbv iota. rewrite run_getS.
      unfold MPPROC_SIZE. rewrite u32_small by lia. unfold mwhen. by destruct (_ <? _); apply IH; try lia.
    + destruct Hh as [-> _]. change (MPIOAPIC =? MPPROC) with false. change (MPIOAPIC =? MPIOAPIC) with true. cbv iota.
      rewrite run_modS. unfold MPIOAPIC_SIZE. rewrite u32_small by lia. by apply IH; try lia.
    + destruct Hh as [-> Ht]. rewrite (u32_small (p + 8)) by lia. by destruct Ht as [-> | [-> | ->]]; apply IH; try lia.
Qed.

(** The table of a configuration: the entries [es] and, when [bad] is set, an entry of
    a type above [MPLINTR] after them. *)
Definition table_ok (m : mem) (conf : Z) (es : list entry) (bad : bool) : Prop :=
  0 ≤ conf ∧ conf + conf_length m conf < 2 ^ 32 ∧
  if bad then ∃ q, entries_at m (conf + MPCONF_SIZE) es q ∧ q < conf + conf_length m conf ∧ 4 < m q
  else entries_at m (conf + MPCONF_SIZE) es (conf + conf_length m conf).

(** C33: [mpinit] records the table's processors in order, the first eight of them, the last
    I/O APIC and the local APIC's address, and writes the IMCR exactly when the floating
    pointer asks for it; it panics without a table.  An entry of unknown type makes it
    loop for ever: the panic "Didn't find a suitable machine" is never reached. *)
Theorem mpinit_enumerates m imcr es s fuel : ncpu s = 0 → (length es < fuel)%nat →
  match mpconfig m with
  | None => mpinit m imcr fuel s = Panicked "Expect to run on an SMP"
  | Some (mp, conf) =>
      (table_ok m conf es false → ∃ s', mpinit m imcr fuel s = Done ((), s') ∧
         add_cpus (procs_of es) s s' ∧ ioapicid s' = List.last (ioapics_of es) (ioapicid s) ∧
         lapic s' = conf_lapicaddr m conf ∧
         outs s' = outs s ++ (if decide (mp_imcrp m mp = 0) then [] else [(0x22, 0x70); (0x23, u8 (Z.lor imcr 1))])) ∧
      (table_ok m conf es true → ∀ fuel, mpinit m imcr fuel s = OutOfFuel)
  end.
Proof.
  intros Hn Hf. unfold mpinit. destruct (mpconfig m) as [[mp conf]|]; [|done]. split.
  - intros (H0 & H1 & Hes). destruct (entries_extent _ _ _ _ Hes) as [Hx _]. unfold MPCONF_SIZE in *.
    rewrite run_modS, !u32_small by lia. set (s1 := Mpst _ _ _ _ _).
    destruct (mpinit_loop_run m es (conf + 44) _ s1 fuel Hes) as (s' & R & C & I & L & O);
      [lia|lia|unfold s1; cbn [ncpu]; rewrite Hn; done|lia|].
    rewrite (bind_done _ _ _ _ _ R). cbn [negb]. unfold mwhen. change (ioapicid s1) with (ioapicid s) in I.
    change (outs s1) with (outs s) in O. change (add_cpus (procs_of es) s s') in C.
    destruct (Z.eqb_spec (mp_imcrp m mp) 0) as [E|E]; cbn [negb].
    + exists s'. rewrite decide_True by done. rewrite app_nil_r. by split_and!.
    + eexists. rewrite decide_False by done. split; [reflexivity|]. cbn [ncpu apicid ioapicid lapic outs].
      split_and!; [exact C|exact I|exact L|]. rewrite O, <- app_assoc. done.
  - intros (H0 & H1 & q & Hes & Hq & Hm) fuel'. destruct (entries_extent _ _ _ _ Hes) as [Hx _]. unfold MPCONF_SIZE in *.
    rewrite run_modS, !u32_small by lia.
    rewrite run_bind, (mpinit_loop_reaches m es (conf + 44) q) by (done || lia). done.
Qed.

(** A machine with two processors and one I/O APIC; and the same with an entry of an
    unknown type at the end of the table. *)
Definition poke (base : Z) (l : list (Z * Z)) (m : mem) : mem := foldr (λ '(a, v) m, <[base + a := v]> m) m l.
Definition firmware (l : list (Z * Z)) : mem :=
  poke (P2V 0x400) [(0x0E, 0xC0); (0x0F, 0x9F)]
    (poke (P2V 0x9FC10) [(0, 95); (1, 77); (2, 80); (3, 95); (5, 253); (6, 9); (8, 1); (9, 4); (10, 26); (12, 128)]
      (poke (P2V 0x9FD00) l (λ _, 0))).
Definition good_table : list (Z * Z) :=
  [(0, 80); (1, 67); (2, 77); (3, 80); (4, 100); (6, 4); (7, 110); (34, 4); (38, 224); (39, 254); (45, 5); (65, 7); (84, 2); (85, 9); (92, 1)].
Definition bad_table : list (Z * Z) :=
  [(0, 80); (1, 67); (2, 77); (3, 80); (4, 108); (6, 4); (7, 93); (34, 4); (38, 224); (39, 254); (45, 5); (65, 7); (84, 2); (85, 9); (92, 1); (100, 9)].
Definition two_cpus : list entry := [Eproc 5; Eproc 7; Eioapic 9; Eother MPBUS].

Lemma mpsearch_finds_witness : mpsearch (firmware good_table) = P2V 0x9FC10.
Proof.
  rewrite mpsearch_finds; [by vm_compute|]. intros x. unfold firmware, poke, good_table. cbn [foldr].
  repeat (rewrite upd_get; destruct (decide _); [lia|]). lia.
Defined.

Lemma mpinit_enumerates_witness :
  (∃ s', mpinit (firmware good_table) 0 5 (Mpst 0 (λ _, 0) 0 0 []) = Done ((), s') ∧
     ncpu s' = 2 ∧ apicid s' 1 = 7 ∧ ioapicid s' = 9 ∧ outs s' = [(0x22, 0x70); (0x23, 1)]) ∧
  (∀ fuel, mpinit (firmware bad_table) 0 fuel (Mpst 0 (λ _, 0) 0 0 []) = OutOfFuel) ∧
  mpinit (λ _, 0) 0 5 (Mpst 0 (λ _, 0) 0 0 []) = Panicked "Expect to run on an SMP".
Proof.
  split_and!.
  - pose proof (mpinit_enumerates (firmware good_table) 0 two_cpus (Mpst 0 (λ _, 0) 0 0 []) 5 eq_refl ltac:(cbn; lia)) as H.
    assert (E : mpconfig (firmware good_table) = Some (P2V 0x9FC10, P2V 0x9FD00)) by (vm_compute; reflexivity).
    rewrite E in H. destruct H as [H _]. destruct H as (s' & R & (C1 & C2 & _) & I & _ & O).
    { split_and!; [by vm_compute..|]. vm_compute. tauto. }
    exists s'. split_and!; [exact R|by rewrite C1|by apply (C2 1%nat)|by rewrite I|by rewrite O].
  - pose proof (mpinit_enumerates (firmware bad_table) 0 two_cpus (Mpst 0 (λ _, 0) 0 0 []) 5 eq_refl ltac:(cbn; lia)) as H.
    assert (E : mpconfig (firmware bad_table) = Some (P2V 0x9FC10, P2V 0x9FD00)) by (vm_compute; reflexivity).
    rewrite E in H. apply H. split_and!; [by vm_compute..|]. exists (P2V 0x9FD00 + 100).
    split_and!; [|by vm_compute..]. vm_compute. tauto.
  - pose proof (mpinit_enumerates (λ _, 0) 0 two_cpus (Mpst 0 (λ _, 0) 0 0 []) 5 eq_refl ltac:(cbn; lia)) as H.
    assert (E : mpconfig (λ _, 0) = None) by (vm_compute; reflexivity). by rewrite E in H.
Defined.
