(* ===== verification/Uart.v ===== *)
(** * Serial line and interrupt routing: kernel/drivers/uart.c,
    x86_32/cpu/ioapic.c and x86_32/cpu/picirq.c

    The I/O APIC is its register file behind the select register.  The serial port is
    the class [Serial]: bytes wait in its receiver and leave through its transmitter.
    [uartintr] hands the waiting bytes to the console of Console.v. *)
From stdpp Require Import base decidable option list functions numbers strings sets.
From Stdlib Require Import ZArith Lia.
From S2P Require Import Prelude CString Traps Console.

Local Open Scope Z_scope.

(** ** The I/O APIC *)

Definition REG_ID : Z := 0x00.
Definition REG_VER : Z := 0x01.
Definition REG_TABLE : Z := 0x10.
Definition INT_DISABLED : Z := 0x00010000.

(** [struct ioapic]: the selected register, and what each register holds. *)
Record ioapic := Ioapic { io_reg : Z; io_data : Z → Z }.

Definition ioapicread (reg : Z) : M ioapic Z :=
  _ ← modS (λ s, Ioapic reg (io_data s));
  gets (λ s, io_data s (io_reg s)).

Definition ioapicwrite (reg data : Z) : M ioapic () :=
  _ ← modS (λ s, Ioapic reg (io_data s));
  modS (λ s, Ioapic (io_reg s) (<[io_reg s := u32 data]> (io_data s))).

(** The body of the loop of [ioapicinit]. *)
Definition ioapic_mask (i : Z) : M ioapic () :=
  _ ← ioapicwrite (REG_TABLE + 2 * i) (Z.lor INT_DISABLED (T_IRQ0 + i));
  ioapicwrite (REG_TABLE + 2 * i + 1) 0.

(** [ioapicinit]; the result is whether the id was not the expected one. *)
Definition ioapicinit (ioapicid : Z) : M ioapic bool :=
  v ← ioapicread REG_VER;
  let maxintr := Z.land (Z.shiftr v 16) 0xFF in
  v ← ioapicread REG_ID;
  let id := Z.shiftr v 24 in
  _ ← mfor (seqZ 0 (maxintr + 1)) ioapic_mask;
  mret (negb (id =? ioapicid)).

Definition ioapicenable (irq cpunum : Z) : M ioapic () :=
  _ ← ioapicwrite (REG_TABLE + 2 * irq) (T_IRQ0 + irq);
  ioapicwrite (REG_TABLE + 2 * irq + 1) (Z.shiftl cpunum 24).

(** [picinit]: the two writes that mask the older controllers. *)
Definition IO_PIC1 : Z := 0x20.
Definition IO_PIC2 : Z := 0xA0.
Definition picinit : list (Z * Z) := [(IO_PIC1 + 1, 0xFF); (IO_PIC2 + 1, 0xFF)].

(** Where interrupt line [i] goes: nowhere, or to a vector of a processor. *)
Definition route (s : ioapic) (i : Z) : option (Z * Z) :=
  if Z.testbit (io_data s (REG_TABLE + 2 * i)) 16 then None
  else Some (Z.land (io_data s (REG_TABLE + 2 * i)) 0xFF, Z.shiftr (io_data s (REG_TABLE + 2 * i + 1)) 24).

(** The calls of [ioapicenable] the drivers make, in order. *)
Definition enable_all (calls : list (Z * Z)) : M ioapic () := mfor calls (λ c, ioapicenable c.1 c.2).

(** The last of the calls for line [i]. *)
Definition wanted (calls : list (Z * Z)) (i : Z) : option Z :=
  fold_left (λ w c, if decide (c.1 = i) then Some c.2 else w) calls None.

(** A property of the numbers below [n], checked by evaluation. *)
Lemma below_forallb (P : Z → bool) n i : forallb P (seqZ 0 n) = true → 0 ≤ i < n → P i = true.
Proof. intros H Hi. rewrite forallb_forall in H. apply H, list_elem_of_In, elem_of_seqZ. lia. Qed.

Lemma ioapic_mask_run s i : 0 ≤ i < 240 →
  ∃ s', ioapic_mask i s = Done ((), s') ∧ route s' i = None ∧
    (∀ j, j ≠ i → route s' j = route s j) ∧ (∀ r, r < REG_TABLE → io_data s' r = io_data s r).
Proof.
  intros Hi. eexists. split; [reflexivity|]. unfold route, REG_TABLE. cbn [io_data io_reg]. split_and!.
  - rewrite fn_lookup_insert_ne, fn_lookup_insert by lia.
    by rewrite (below_forallb (λ i, Z.testbit (u32 (Z.lor INT_DISABLED (T_IRQ0 + i))) 16) 240 i eq_refl Hi).
  - intros j Hj. by rewrite !fn_lookup_insert_ne by lia.
  - intros r Hr. by rewrite !fn_lookup_insert_ne by lia.
Qed.

Lemma ioapic_mask_all n : ∀ s a, 0 ≤ a → a + Z.of_nat n ≤ 240 →
  ∃ s', mfor (seqZ a (Z.of_nat n)) ioapic_mask s = Done ((), s') ∧
    (∀ i, a ≤ i < a + Z.of_nat n → route s' i = None) ∧ (∀ i, ¬ a ≤ i < a + Z.of_nat n → route s' i = route s i).
Proof.
  induction n as [|n IH]; intros s a Ha Hn.
  - exists s. split; [done|]. split; [intros; lia|done].
  - rewrite seqZ_cons by lia. cbn [mfor]. destruct (ioapic_mask_run s a ltac:(lia)) as (s1 & R & H1 & H2 & _).
    rewrite (bind_done _ _ _ _ _ R). replace (Z.pred (Z.of_nat (S n))) with (Z.of_nat n) by lia.
    destruct (IH s1 (Z.succ a) ltac:(lia) ltac:(lia)) as (s' & R' & H1' & H2'). exists s'. split; [exact R'|]. split.
    + intros i Hi. destruct (decide (i = a)) as [->|]; [rewrite H2' by lia; done|apply H1'; lia].
    + intros i Hi. rewrite H2' by lia. apply H2. lia.
Qed.

Lemma ioapicenable_run s irq cpu : 0 ≤ irq < 224 → 0 ≤ cpu < 256 →
  ∃ s', ioapicenable irq cpu s = Done ((), s') ∧ route s' irq = Some (T_IRQ0 + irq, cpu) ∧ ∀ j, j ≠ irq → route s' j = route s j.
Proof.
  intros Hi Hc. eexists. split; [reflexivity|]. unfold route, REG_TABLE. cbn [io_data io_reg]. split.
  - rewrite fn_lookup_insert_ne, fn_lookup_insert, fn_lookup_insert by lia.
    rewrite (u32_small (T_IRQ0 + irq)) by (unfold T_IRQ0; lia).
    pose proof (below_forallb (λ i, negb (Z.testbit (T_IRQ0 + i) 16) && (Z.land (T_IRQ0 + i) 0xFF =? T_IRQ0 + i)) 224 irq eq_refl Hi) as HF.
    cbv beta in HF. apply andb_true_iff in HF as [->%negb_true_iff ->%Z.eqb_eq]. do 2 f_equal.
    rewrite Z.shiftl_mul_pow2, u32_small, Z.shiftr_div_pow2 by lia. by apply Z.div_mul.
  - intros j Hj. by rewrite !fn_lookup_insert_ne by lia.
Qed.

Lemma enable_all_run calls : ∀ s, Forall (λ c, 0 ≤ c.1 < 224 ∧ 0 ≤ c.2 < 256) calls →
  ∃ s', enable_all calls s = Done ((), s') ∧
    ∀ i, route s' i = fold_left (λ w c, if decide (c.1 = i) then Some (T_IRQ0 + i, c.2) else w) calls (route s i).
Proof.
  induction calls as [|[irq cpu] calls IH]; intros s Hc; [by exists s|]. apply Forall_cons in Hc as [[H1 H2] Hc]. cbn [fst snd] in *.
  destruct (ioapicenable_run s irq cpu H1 H2) as (s1 & R & E1 & E2). destruct (IH s1 Hc) as (s' & R' & E').
  exists s'. split.
  - unfold enable_all in *. cbn [mfor fst snd]. by rewrite (bind_done _ _ _ _ _ R).
  - intros i. rewrite E'. cbn [fold_left fst snd]. f_equal. case_decide as Hd; [by subst|]. apply E2. by intros ->.
Qed.

(** After [ioapicinit] and the drivers' calls of [ioapicenable], an interrupt line of the
    chip is delivered exactly when a driver asked for it: to vector [T_IRQ0] plus its
    number, at the processor named last.  Every other line is masked. *)
Theorem ioapic_routes id s calls : 0 ≤ io_data s REG_VER < 2 ^ 32 → Forall (λ c, 0 ≤ c.1 < 224 ∧ 0 ≤ c.2 < 256) calls →
  Z.land (io_data s REG_VER ≫ 16) 0xFF < 240 →
  ∃ b s1 s2, ioapicinit id s = Done (b, s1) ∧ enable_all calls s1 = Done ((), s2) ∧
    ∀ i, 0 ≤ i ≤ Z.land (io_data s REG_VER ≫ 16) 0xFF → route s2 i = (λ cpu, (T_IRQ0 + i, cpu)) <$> wanted calls i.
Proof.
  intros Hv Hc Hm. set (n := Z.land (io_data s REG_VER ≫ 16) 0xFF) in *.
  assert (Hn0 : 0 ≤ n) by (apply Z.land_nonneg; right; lia).
  destruct (ioapic_mask_all (Z.to_nat (n + 1)) (Ioapic REG_ID (io_data s)) 0 ltac:(lia) ltac:(lia)) as (s1 & R & H1 & _).
  rewrite Z2Nat.id in R, H1 by lia. destruct (enable_all_run calls s1 Hc) as (s2 & R2 & H2).
  eexists _, s1, s2. split; [|split; [exact R2|]].
  - unfold ioapicinit. rewrite (bind_done (ioapicread REG_VER) _ s (io_data s REG_VER) (Ioapic REG_VER (io_data s)) eq_refl).
    cbv zeta. fold n. rewrite (bind_done (ioapicread REG_ID) _ (Ioapic REG_VER (io_data s)) (io_data s REG_ID) (Ioapic REG_ID (io_data s)) eq_refl).
    by rewrite (bind_done _ _ _ _ _ R).
  - intros i Hi. rewrite H2, H1 by lia. unfold wanted. clear.
    assert (G : ∀ w, fold_left (λ w c, if decide (c.1 = i) then Some (T_IRQ0 + i, c.2) else w) calls ((λ cpu, (T_IRQ0 + i, cpu)) <$> w) =
      (λ cpu, (T_IRQ0 + i, cpu)) <$> fold_left (λ w c, if decide (c.1 = i) then Some c.2 else w) calls w).
    { induction calls as [|c calls IH]; intros w; [done|]. cbn [fold_left]. rewrite <- IH. by case_decide. }
    exact (G None).
Qed.

(** ** The serial port *)

Class SerialOps (D : Type) := {
  ser_outb : D → Z → Z → D;
  ser_inb : D → Z → Z * D;
  ser_waiting : D → list Z;  (* received and not yet read *)
  ser_sent : D → list Z      (* put on the line *)
}.

Definition COM1 : Z := 0x3f8.

(** The port, the static flag [uart], and the interrupt controller. *)
Record ust (D : Type) := Ust { udev : D; uart : bool; uapic : ioapic }.
Arguments Ust {D}.
Arguments udev {D} _.
Arguments uart {D} _.
Arguments uapic {D} _.

Section uart.
Context {D : Type} `{!SerialOps D}.

Definition outb (p v : Z) : M (ust D) () := modS (λ s, Ust (ser_outb (udev s) p (u8 v)) (uart s) (uapic s)).
Definition inb (p : Z) : M (ust D) Z := λ s,
  Done ((ser_inb (udev s) p).1, Ust (ser_inb (udev s) p).2 (uart s) (uapic s)).

(** The loop of [uartputc], [n] rounds left. *)
Fixpoint uart_wait (n : nat) : M (ust D) () :=
  match n with
  | O => mret ()
  | S n =>
      v ← inb (COM1 + 5);
      if negb (Z.land v 0x20 =? 0) then mret () else uart_wait n
  end.

Definition uartputc (c : Z) : M (ust D) () :=
  u ← gets uart;
  if negb u then mret ()
  else
    _ ← uart_wait 128;
    outb (COM1 + 0) c.

Definition uartgetc : M (ust D) Z :=
  u ← gets uart;
  if negb u then mret (-1)
  else
    v ← inb (COM1 + 5);
    if Z.land v 0x01 =? 0 then mret (-1)
    else inb (COM1 + 0).

(** "xv6...\n" *)
Definition greeting : list Z := [120; 118; 54; 46; 46; 46; 10].

Definition uartinit : M (ust D) () :=
  _ ← outb (COM1 + 2) 0;
  _ ← outb (COM1 + 3) 0x80;
  _ ← outb (COM1 + 0) (115200 / 9600);
  _ ← outb (COM1 + 1) 0;
  _ ← outb (COM1 + 3) 0x03;
  _ ← outb (COM1 + 4) 0;
  _ ← outb (COM1 + 1) 0x01;
  v ← inb (COM1 + 5);
  if v =? 0xFF then mret ()
  else
    _ ← modS (λ s, Ust (udev s) true (uapic s));
    _ ← inb (COM1 + 2);
    _ ← inb (COM1 + 0);
    _ ← zoom uapic (λ a s, Ust (udev s) (uart s) a) (ioapicenable IRQ_COM1 0);
    mfor greeting uartputc.

(** The calls of [getc] that [consoleintr] makes: characters until one is negative. *)
Fixpoint uart_chars (fuel : nat) : M (ust D) (list Z) :=
  match fuel with
  | O => no_fuel
  | S fuel =>
      c ← uartgetc;
      if c <? 0 then mret [] else cs ← uart_chars fuel; mret (c :: cs)
  end.

(** [uartintr]: [consoleintr(uartgetc)]. *)
Definition uartintr (fuel : nat) : M (ust D * con) bool :=
  cs ← zoom fst (λ u w, (u, w.2)) (uart_chars fuel);
  zoom snd (λ c w, (w.1, c)) (consoleintr cs).
End uart.

(** What the chip promises: bit 0 of the line status says that a byte waits and bit 5
    that the transmitter is empty; the data port gives the waiting bytes in order and
    sends what is written to it while the transmitter is empty.  A transmitter that was
    given a byte is empty again within 128 looks at the status. *)
Definition ser_status {D} `{!SerialOps D} (d : D) : Z := (ser_inb d (COM1 + 5)).1.
Definition ser_look {D} `{!SerialOps D} (d : D) : D := (ser_inb d (COM1 + 5)).2.
Definition ser_idle {D} `{!SerialOps D} (d : D) : bool := Z.testbit (ser_status d) 5.

Class Serial (D : Type) `{!SerialOps D} := {
  ser_on : D → Prop;
  ser_bytes d : Forall (λ c, 0 ≤ c < 256) (ser_waiting d);
  ser_status_bit d : ser_on d → Z.testbit (ser_status d) 0 = bool_decide (ser_waiting d ≠ []);
  ser_look_same d : ser_on d → ser_on (ser_look d) ∧ ser_waiting (ser_look d) = ser_waiting d ∧ ser_sent (ser_look d) = ser_sent d;
  ser_drains d : ser_on d → ∃ k, (k < 128)%nat ∧ ser_idle (Nat.iter k ser_look d) = true ∧
    ∀ j, (j < k)%nat → ser_idle (Nat.iter j ser_look d) = false;
  ser_takes d c w : ser_on d → ser_waiting d = c :: w →
    (ser_inb d COM1).1 = c ∧ ser_on (ser_inb d COM1).2 ∧ ser_waiting (ser_inb d COM1).2 = w ∧ ser_sent (ser_inb d COM1).2 = ser_sent d;
  ser_sends d c : ser_on d → ser_on (ser_outb (ser_look d) COM1 c) ∧
    (ser_idle d = true → ser_sent (ser_outb (ser_look d) COM1 c) = ser_sent d ++ [c]) ∧
    ser_waiting (ser_outb (ser_look d) COM1 c) = ser_waiting d
}.

Section serial.
Context {D : Type} `{!SerialOps D, !Serial D}.
Implicit Types (d : D).

Lemma bit_test v n : 0 ≤ n → (Z.land v (2 ^ n) =? 0) = negb (Z.testbit v n).
Proof.
  intros Hn. destruct (Z.testbit v n) eqn:E; cbn [negb].
  - apply Z.eqb_neq. intros H. assert (Z.testbit (Z.land v (2 ^ n)) n = false) by (by rewrite H, Z.bits_0).
    rewrite Z.land_spec, E, Z.pow2_bits_true in H0 by done. done.
  - apply Z.eqb_eq, Z.bits_inj'. intros m Hm. rewrite Z.land_spec, Z.bits_0, Z.pow2_bits_eqb by done.
    destruct (Z.eqb_spec n m) as [<-|]; [by rewrite E|apply andb_false_r].
Qed.

Lemma looks_same k d : ser_on d → let d' := Nat.iter k ser_look d in
  ser_on d' ∧ ser_waiting d' = ser_waiting d ∧ ser_sent d' = ser_sent d.
Proof.
  intros H. cbv zeta. induction k as [|k (H1 & H2 & H3)]; [done|].
  change (Nat.iter (S k) ser_look d) with (ser_look (Nat.iter k ser_look d)).
  destruct (ser_look_same _ H1) as (G1 & G2 & G3). by rewrite G2, G3.
Qed.

Lemma uart_wait_run k : ∀ n d a, (k < n)%nat → ser_idle (Nat.iter k ser_look d) = true →
  (∀ j, (j < k)%nat → ser_idle (Nat.iter j ser_look d) = false) →
  uart_wait n (Ust d true a) = Done ((), Ust (Nat.iter (S k) ser_look d) true a).
Proof.
  induction k as [|k IH]; intros [|n] d a Hn Hi Hb; try lia; cbn [uart_wait]; rewrite run_bind; unfold inb; cbn [udev uart uapic].
  all: fold (ser_status d); change (0x20) with (2 ^ 5); rewrite bit_test, negb_involutive by done; fold (ser_idle d).
  - change (ser_idle d = true) in Hi. by rewrite Hi.
  - rewrite (Hb 0%nat ltac:(lia) : ser_idle d = false). fold (ser_look d).
    rewrite IH; [by rewrite <- !Nat.iter_succ_r|lia|by rewrite <- Nat.iter_succ_r|].
    intros j Hj. rewrite <- Nat.iter_succ_r. apply Hb. lia.
Qed.

Lemma uartputc_run d a c : ser_on d →
  ∃ d', uartputc c (Ust d true a) = Done ((), Ust d' true a) ∧ ser_on d' ∧
    ser_sent d' = ser_sent d ++ [u8 c] ∧ ser_waiting d' = ser_waiting d.
Proof.
  intros Hd. destruct (ser_drains d Hd) as (k & Hk & Hi & Hb). destruct (looks_same k d Hd) as (L1 & L2 & L3).
  destruct (ser_sends _ (u8 c) L1) as (S1 & S2 & S3).
  eexists. split; [unfold uartputc; rewrite run_gets; cbn [uart negb]; rewrite (bind_done _ _ _ _ _ (uart_wait_run k 128 d a Hk Hi Hb)); reflexivity|].
  cbn [udev]. change (Nat.iter (S k) ser_look d) with (ser_look (Nat.iter k ser_look d)). change (COM1 + 0) with COM1.
  rewrite S2, S3, L2, L3 by done. done.
Qed.

Lemma uart_chars_run d a fuel : ser_on d → (length (ser_waiting d) < fuel)%nat →
  ∃ d', uart_chars fuel (Ust d true a) = Done (ser_waiting d, Ust d' true a) ∧ ser_on d' ∧
    ser_waiting d' = [] ∧ ser_sent d' = ser_sent d.
Proof.
  remember (ser_waiting d) as w eqn:Hw. revert d fuel Hw. induction w as [|c w IH]; intros d fuel Hw Hd Hf;
    (destruct fuel as [|fuel]; [cbn in Hf; lia|]); cbn [uart_chars]; unfold uartgetc; rewrite run_bind, run_gets; cbn [uart negb];
    rewrite run_bind; unfold inb at 1; cbn [udev uart uapic]; fold (ser_status d); fold (ser_look d);
    change (0x01) with (2 ^ 0); rewrite bit_test, (ser_status_bit d Hd), <- Hw by done;
    destruct (ser_look_same d Hd) as (L1 & L2 & L3).
  - exists (ser_look d). by rewrite L2, L3.
  - rewrite bool_decide_true by done. cbn [negb]. rewrite <- Hw in L2.
    destruct (ser_takes _ c w L1 L2) as (T1 & T2 & T3 & T4). unfold inb. cbn [udev uart uapic]. change (COM1 + 0) with COM1. rewrite T1.
    assert (Hc : 0 ≤ c < 256) by (pose proof (ser_bytes d) as HF; rewrite <- Hw in HF; by apply Forall_cons in HF as [? _]).
    rewrite (proj2 (Z.ltb_ge c 0)) by lia.
    destruct (IH (ser_inb (ser_look d) COM1).2 fuel (eq_sym T3) T2 ltac:(cbn in Hf; lia)) as (d' & R & H1 & H2 & H3).
    exists d'. rewrite (bind_done _ _ _ _ _ R). by rewrite H3, T4, L3.
Qed.

(** A serial interrupt hands every byte that waits in the receiver to the console, in
    the order received, and leaves the receiver empty: the console's line is what the
    line discipline makes of those bytes. *)
Theorem uartintr_delivers d a s disc fuel :
  ser_on d → con_ok s disc → conlock s = false → (length (ser_waiting d) < fuel)%nat →
  ∃ d' s', uartintr fuel (Ust d true a, s) = Done (bool_decide (Ctl 80 ∈ ser_waiting d), (Ust d' true a, s')) ∧
    ser_on d' ∧ ser_waiting d' = [] ∧ ser_sent d' = ser_sent d ∧
    con_ok s' (fold_left typed (ser_waiting d) disc) ∧ conlock s' = false.
Proof.
  intros Hd Hc Hl Hf. destruct (uart_chars_run d a fuel Hd Hf) as (d' & R & H1 & H2 & H3).
  destruct (consoleintr_run s disc (ser_waiting d) Hc Hl (ser_bytes d)) as (s' & R' & C1 & C2 & _).
  exists d', s'. split; [|done]. unfold uartintr. rewrite run_bind. unfold zoom at 1. cbn [fst snd]. rewrite R.
  unfold zoom. cbn [fst snd]. by rewrite R'.
Qed.

Lemma uart_sends_run cs : ∀ d a, ser_on d → ∃ d', mfor cs uartputc (Ust d true a) = Done ((), Ust d' true a) ∧ ser_on d' ∧
  ser_sent d' = ser_sent d ++ (u8 <$> cs) ∧ ser_waiting d' = ser_waiting d.
Proof.
  induction cs as [|c cs IH]; intros d a Hd; [exists d; by rewrite app_nil_r|].
  destruct (uartputc_run d a c Hd) as (d1 & R1 & O1 & S1 & W1). destruct (IH d1 a O1) as (d' & R & O & S & W).
  exists d'. cbn [mfor]. rewrite (bind_done _ _ _ _ _ R1). split_and!; [done|done| |by rewrite W].
  rewrite S, S1, fmap_cons, <- app_assoc. done.
Qed.

(** Characters given to [uartputc] one after the other leave the port in that order, one
    byte each, waiting for the transmitter every time; none is lost or repeated and
    nothing received is touched.  Without a port nothing happens. *)
Theorem uart_sends_all d a b cs : ser_on d →
  ∃ d', mfor cs uartputc (Ust d b a) = Done ((), Ust d' b a) ∧ ser_waiting d' = ser_waiting d ∧
    ser_sent d' = ser_sent d ++ (if (b : bool) then u8 <$> cs else []).
Proof.
  intros Hd. destruct b.
  - destruct (uart_sends_run cs d a Hd) as (d' & R & _ & S & W). by exists d'.
  - exists d. rewrite app_nil_r. split; [|done]. induction cs as [|c cs IH]; [done|]. cbn [mfor].
    by rewrite (bind_done (uartputc c) _ (Ust d false a) () (Ust d false a) eq_refl).
Qed.
End serial.

(** ** Witnesses *)

(** A port that is busy for [busy] looks after each byte sent. *)
Record port := Port { rx : list Z; tx : list Z; busy : nat }.

#[local] Instance port_ops : SerialOps port := {
  ser_outb d p v := if p =? COM1 then Port (rx d) (tx d ++ [v]) 2 else d;
  ser_inb d p :=
    if p =? COM1 + 5 then
      (Z.lor (if bool_decide (rx d = []) then 0 else 1) (match busy d with O => 0x20 | S _ => 0 end), Port (rx d) (tx d) (pred (busy d)))
    else (u8 (List.hd 0 (rx d)), Port (List.tl (rx d)) (tx d) (busy d));
  ser_waiting d := u8 <$> rx d;
  ser_sent := tx
}.

Lemma port_status d : ser_status d = Z.lor (if bool_decide (rx d = []) then 0 else 1) (match busy d with O => 0x20 | S _ => 0 end).
Proof. done. Qed.

#[local, refine] Instance port_serial : Serial port := {
  ser_on d := (busy d ≤ 2)%nat
}.
Proof.
  - intros d. apply Forall_fmap, Forall_forall. intros x _. cbn. apply Z.mod_pos_bound. lia.
  - intros [r t b] H. rewrite port_status. cbn [rx busy]. destruct r, b; done.
  - intros [r t b] H. change (b ≤ 2)%nat in H. split; [change (pred b ≤ 2)%nat; lia|done].
  - intros [r t b] H. cbn in H. exists b. split; [lia|].
    assert (E : ∀ k, Nat.iter k ser_look (Port r t b) = Port r t (b - k)).
    { induction k as [|k IH]; [by rewrite Nat.sub_0_r|]. change (Nat.iter (S k) ser_look (Port r t b)) with (ser_look (Nat.iter k ser_look (Port r t b))).
      rewrite IH. change (Port r t (pred (b - k)) = Port r t (b - S k)). f_equal. lia. }
    assert (I : ∀ n, ser_idle (Port r t n) = bool_decide (n = 0%nat)).
    { intros n. unfold ser_idle. rewrite port_status. cbn [rx busy]. by destruct r, n. }
    split; [rewrite E, I; by apply bool_decide_true; lia|]. intros j Hj. rewrite E, I. apply bool_decide_false. lia.
  - intros [r t b] c w H E. cbn in *. destruct r as [|x r]; [done|]. cbn in E. injection E as <- <-. done.
  - intros [r t b] c H. cbn in *. split_and!; [lia|done|done].
Defined.

Lemma uartintr_delivers_witness :
  ∃ d' s', uartintr 4 (Ust (Port [104; 105; 10] [] 0) true (Ioapic 0 (λ _, 0)), blank) = Done (false, (d', s')) ∧
    con_ok s' (fold_left typed [104; 105; 10] (Disc [] [])).
Proof.
  destruct (uartintr_delivers (Port [104; 105; 10] [] 0) (Ioapic 0 (λ _, 0)) blank (Disc [] []) 4) as (d' & s' & R & _ & _ & _ & C & _).
  { cbn. lia. } { apply blank_ok. } { done. } { cbn. lia. }
  exists (Ust d' true (Ioapic 0 (λ _, 0))), s'. split; [exact R|exact C].
Defined.

Lemma uart_sends_all_witness : ∃ d', mfor greeting uartputc (Ust (Port [] [] 1) true (Ioapic 0 (λ _, 0))) = Done ((), d') ∧
  ser_sent (udev d') = greeting.
Proof.
  destruct (uart_sends_all (Port [] [] 1) (Ioapic 0 (λ _, 0)) true greeting) as (d' & R & _ & S); [cbn; lia|].
  eexists. split; [exact R|exact S].
Defined.

Lemma ioapic_routes_witness : ∃ b s1 s2, ioapicinit 0 (Ioapic 0 (<[1 := 0x170011]> (λ _, 0))) = Done (b, s1) ∧
  enable_all [(4, 0); (1, 0); (14, 1)] s1 = Done ((), s2) ∧ route s2 14 = Some (46, 1) ∧ route s2 5 = None.
Proof.
  destruct (ioapic_routes 0 (Ioapic 0 (<[1 := 0x170011]> (λ _, 0))) [(4, 0); (1, 0); (14, 1)]) as (b & s1 & s2 & R1 & R2 & H).
  { by vm_compute. } { repeat constructor; done. } { by vm_compute. }
  exists b, s1, s2. split; [exact R1|]. split; [exact R2|]. rewrite !H by (by vm_compute). done.
Defined.
