(* ===== verification/Smp.v ===== *)
(** * Starting the other processors, and the clock: x86_32/cpu/lapic.c and the
    [startothers] of kernel/main.c

    The local APIC is the list of the writes to its registers; what it answers is a
    parameter.  A processor that receives the startup interrupt runs entryother.S,
    which takes its stack, entry point and page directory from the words before the
    code: [booted] records them as they are in memory at that moment. *)
From stdpp Require Import base decidable option list functions numbers strings sets.
From Stdlib Require Import ZArith Lia.
From S2P Require Import Prelude CString Traps ProcDefs Kalloc Vm FsDefs.

Local Open Scope Z_scope.

(** ** The registers of lapic.c *)

Definition TPR : Z := 0x80 / 4.
Definition EOI : Z := 0xB0 / 4.
Definition SVR : Z := 0xF0 / 4.
Definition ENABLE : Z := 0x100.
Definition ESR : Z := 0x280 / 4.
Definition ICRLO : Z := 0x300 / 4.
Definition INIT : Z := 0x500.
Definition STARTUP : Z := 0x600.
Definition ASSERT : Z := 0x4000.
Definition LEVEL : Z := 0x8000.
Definition BCAST : Z := 0x80000.
Definition ICRHI : Z := 0x310 / 4.
Definition TIMER : Z := 0x320 / 4.
Definition X1 : Z := 0xB.
Definition PERIODIC : Z := 0x20000.
Definition PCINT : Z := 0x340 / 4.
Definition LINT0 : Z := 0x350 / 4.
Definition LINT1 : Z := 0x360 / 4.
Definition ERROR : Z := 0x370 / 4.
Definition MASKED : Z := 0x10000.
Definition TICR : Z := 0x380 / 4.
Definition TDCR : Z := 0x3E0 / 4.
Definition CMOS_PORT : Z := 0x70.

(** A processor that has been started: its APIC id and the words it found. *)
Record boot_args := BootArgs { ba_id : Z; ba_stack : Z; ba_entry : Z; ba_pgdir : Z }.

(** Memory, the writes to the local APIC, those to ports, and the processors started. *)
Record smp := Smp { skm : kmem; swrites : list (Z * Z); sports : list (Z * Z); booted : list boot_args }.

Section smp.
(** Whether [lapic] is set, what its version and id registers answer, and whether the
    interrupt sent by the last of some writes is delivered at some time. *)
Context (lapic : bool) (lapic_ver lapic_id : Z) (delivered : list (Z * Z) → bool).

Definition lapicw (index value : Z) : M smp () :=
  modS (λ s, Smp (skm s) (swrites s ++ [(index, u32 value)]) (sports s) (booted s)).

(** [while (lapic[ICRLO] & DELIVS);] *)
Definition wait_delivered : M smp () :=
  d ← gets (λ s, delivered (swrites s));
  if (d : bool) then mret () else hang.

Definition lapicinit : M smp () :=
  if negb lapic then mret ()
  else
    _ ← lapicw SVR (Z.lor ENABLE (T_IRQ0 + IRQ_SPURIOUS));
    _ ← lapicw TDCR X1;
    _ ← lapicw TIMER (Z.lor PERIODIC (T_IRQ0 + IRQ_TIMER));
    _ ← lapicw TICR 10000000;
    _ ← lapicw LINT0 MASKED;
    _ ← lapicw LINT1 MASKED;
    _ ← mwhen (4 <=? Z.land (Z.shiftr lapic_ver 16) 0xFF) (lapicw PCINT MASKED);
    _ ← lapicw ERROR (T_IRQ0 + IRQ_ERROR);
    _ ← lapicw ESR 0;
    _ ← lapicw ESR 0;
    _ ← lapicw EOI 0;
    _ ← lapicw ICRHI 0;
    _ ← lapicw ICRLO (Z.lor (Z.lor BCAST INIT) LEVEL);
    _ ← wait_delivered;
    lapicw TPR 0.

Definition lapicid : Z := if negb lapic then 0 else Z.shiftr lapic_id 24.

Definition smp_outb (p v : Z) : M smp () :=
  modS (λ s, Smp (skm s) (swrites s) (sports s ++ [(p, u8 v)]) (booted s)).

Definition smp_mem (f : mem → mem) : M smp () := modS (λ s, Smp (put_mem f (skm s)) (swrites s) (sports s) (booted s)).

(** The warm reset vector, 40:67. *)
Definition WRV : Z := P2V (Z.lor (Z.shiftl 0x40 4) 0x67).

(** The startup interrupt: the processor [id] begins at [addr], and reads the words
    before it.  It ignores a second one. *)
Definition startup_ipi (id addr : Z) : M smp () :=
  _ ← lapicw ICRHI (Z.shiftl id 24);
  _ ← lapicw ICRLO (Z.lor STARTUP (Z.shiftr addr 12));
  modS (λ s,
    if existsb (λ b, ba_id b =? id) (booted s) then s
    else
      let m := pmem (skm s) in let code := P2V addr in
      Smp (skm s) (swrites s) (sports s)
        (booted s ++ [BootArgs id (load32 m (code - 4)) (load32 m (code - 8)) (load32 m (code - 12))])).

Definition lapicstartap (id addr : Z) : M smp () :=
  _ ← smp_outb CMOS_PORT 0xF;
  _ ← smp_outb (CMOS_PORT + 1) 0x0A;
  _ ← smp_mem (λ m, store16 m WRV 0);
  _ ← smp_mem (λ m, store16 m (WRV + 2) (Z.shiftr addr 4));
  _ ← lapicw ICRHI (Z.shiftl id 24);
  _ ← lapicw ICRLO (Z.lor (Z.lor INIT LEVEL) ASSERT);
  _ ← lapicw ICRLO (Z.lor INIT LEVEL);
  mfor [0; 1] (λ _, startup_ipi id addr).

(** ** [startothers] *)

(** entryother.S as linked in, [mpenter], [entrypgdir], and whether the processor that
    began with some words gets as far as setting [started]. *)
Context (other : list Z) (mpenter entrypgdir : Z) (comes_up : boot_args → bool).

Definition code : Z := P2V 0x7000.

(** [memmove] of the image, which lies elsewhere. *)
Definition copy_code (m : mem) : mem := λ a,
  if (code <=? a) && (a <? code + Z.of_nat (length other)) then nth (Z.to_nat (a - code)) other 0 else m a.

Definition on_pages {A} (m : M kmem A) : M smp A := zoom skm (λ k s, Smp k (swrites s) (sports s) (booted s)) m.

(** The wait for [c->started]. *)
Definition wait_started (id : Z) : M smp () :=
  b ← gets booted;
  match List.find (λ x, ba_id x =? id) b with
  | Some x => if comes_up x then mret () else hang
  | None => hang
  end.

(** The loop's body for a processor other than the one running. *)
Definition start_one (id : Z) : M smp () :=
  stack ← on_pages kalloc;
  _ ← smp_mem (λ m, store32 m (code - 4) (stack + KSTACKSIZE));
  _ ← smp_mem (λ m, store32 m (code - 8) mpenter);
  _ ← smp_mem (λ m, store32 m (code - 12) (V2P entrypgdir));
  _ ← lapicstartap id (V2P code);
  wait_started id.

(** [cpus] are the APIC ids found by [mpinit], [me] the index of the running one. *)
Definition startothers (cpus : list Z) (me : nat) : M smp () :=
  _ ← smp_mem copy_code;
  mfor (imap pair cpus) (λ c, if bool_decide (c.1 = me) then mret () else start_one c.2).
End smp.

(** ** Every processor gets its own stack *)

Section starts.
Context (other : list Z) (mpenter entrypgdir : Z) (comes_up : boot_args → bool) (end_ : Z).

(** The words a processor with its stack in page [p] finds. *)
Definition args_for (id p : Z) : boot_args := BootArgs id (u32 (p + KSTACKSIZE)) (u32 mpenter) (u32 (V2P entrypgdir)).

Hypothesis Hcode : code + Z.of_nat (length other) ≤ end_.
Hypothesis Hup : ∀ id p, page_ok end_ p → comes_up (args_for id p) = true.

Lemma below_free k l f : free_pages end_ k l → (∀ m a, end_ ≤ a → f m a = m a) → free_pages end_ (put_mem f k) l.
Proof.
  intros [Hc Hn Ho] Hf. split; [|done|done]. cbn [pmem put_mem freelist]. clear Hn.
  revert Ho Hc. generalize (freelist k). induction l as [|p l IH]; intros a Ho; cbn [chain]; [done|].
  intros [-> Hc]. split; [done|].
  assert (E : load32 (f (pmem k)) p = load32 (pmem k) p).
  { apply load32_ext. intros x Hx. apply Hf. destruct (Ho p ltac:(by constructor)) as (_ & ? & _). lia. }
  rewrite E. apply IH; [|done]. intros q Hq. apply Ho. by constructor.
Qed.

Lemma low_consts : code = KERNBASE + 0x7000 ∧ WRV = KERNBASE + 0x467.
Proof. done. Qed.

(** The words and the warm reset vector are written, nothing else. *)
Definition low_words (a : Z) : Prop := code - 12 ≤ a < code ∨ WRV ≤ a < WRV + 4.

Lemma find_new {A} (l : list A) P x : existsb P l = false → P x = true → List.find P (l ++ [x]) = Some x.
Proof.
  intros Hl Hx. induction l as [|y l IH]; cbn; [by rewrite Hx|]. cbn in Hl. apply orb_false_iff in Hl as [-> Hl]. by apply IH.
Qed.

(** One startup interrupt, and a second one to the same processor. *)
Lemma startup_ipi_run id addr s :
  ∃ w, startup_ipi id addr s = Done ((), Smp (skm s) w (sports s)
    (if existsb (λ b, ba_id b =? id) (booted s) then booted s
     else booted s ++ [BootArgs id (load32 (pmem (skm s)) (P2V addr - 4)) (load32 (pmem (skm s)) (P2V addr - 8)) (load32 (pmem (skm s)) (P2V addr - 12))])).
Proof.
  unfold startup_ipi, lapicw. rewrite !run_modS. unfold modS. cbn [skm swrites sports booted].
  destruct (existsb _ (booted s)); eexists; reflexivity.
Qed.

Lemma lapicstartap_run id addr s : existsb (λ b, ba_id b =? id) (booted s) = false →
  let k := put_mem (λ m, store16 (store16 m WRV 0) (WRV + 2) (addr ≫ 4)) (skm s) in
  ∃ w q, lapicstartap id addr s = Done ((), Smp k w q (booted s ++ [BootArgs id (load32 (pmem k) (P2V addr - 4))
    (load32 (pmem k) (P2V addr - 8)) (load32 (pmem k) (P2V addr - 12))])).
Proof.
  intros Hn k. unfold lapicstartap, smp_outb, smp_mem, lapicw. rewrite !run_modS. cbn [mfor skm swrites sports booted].
  match goal with |- context [(startup_ipi id addr ≫= _) ?t] => destruct (startup_ipi_run id addr t) as [w R] end.
  rewrite (bind_done _ _ _ _ _ R). cbn [skm swrites sports booted]. rewrite Hn.
  match goal with |- context [(startup_ipi id addr ≫= _) ?t] => destruct (startup_ipi_run id addr t) as [w' R'] end.
  rewrite (bind_done _ _ _ _ _ R'). cbn [skm swrites sports booted]. rewrite existsb_app. cbn [existsb ba_id].
  rewrite Z.eqb_refl, orb_true_r. eexists _, _. reflexivity.
Qed.

Lemma start_one_run id p l s :
  free_pages end_ (skm s) (p :: l) → existsb (λ b, ba_id b =? id) (booted s) = false →
  ∃ s', start_one mpenter entrypgdir comes_up id s = Done ((), s') ∧ free_pages end_ (skm s') l ∧
    booted s' = booted s ++ [args_for id p] ∧ ∀ a, ¬ low_words a → pmem (skm s') a = pmem (skm s) a.
Proof.
  intros Hf Hnew. destruct low_consts as [Ec Ew]. unfold low_words.
  pose proof (fp_ok _ _ _ Hf p ltac:(by constructor)) as Hp.
  destruct (kalloc_run end_ (skm s) (p :: l) Hf) as (k1 & Ra & Hf1 & _ & Hm). cbn [drop] in Hf1.
  set (g := λ m, store16 (store16 (store32 (store32 (store32 m (code - 4) (p + KSTACKSIZE)) (code - 8) mpenter) (code - 12) (V2P entrypgdir)) WRV 0)
    (WRV + 2) (V2P code ≫ 4)).
  assert (Hg : ∀ m a, ¬ (code - 12 ≤ a < code ∨ WRV ≤ a < WRV + 4) → g m a = m a).
  { intros m a Ha. unfold g. by rewrite !store16_out, !store32_out by lia. }
  assert (Hl : ∀ m, load32 (g m) (code - 4) = u32 (p + KSTACKSIZE) ∧ load32 (g m) (code - 8) = u32 mpenter ∧
    load32 (g m) (code - 12) = u32 (V2P entrypgdir)).
  { intros m. unfold g. assert (E16 : ∀ m' a v b, a + 2 ≤ b → load32 (store16 m' a v) b = load32 m' b)
      by (intros m' a v b Hb; apply load32_ext; intros x Hx; apply store16_out; lia).
    assert (E32 : ∀ m' a v b, a + 4 ≤ b → load32 (store32 m' a v) b = load32 m' b)
      by (intros m' a v b Hb; apply load32_ext; intros x Hx; apply store32_out; lia).
    rewrite !E16 by (rewrite ?Ew, ?Ec; lia).
    split_and!; [rewrite (E32 _ (code - 12)), (E32 _ (code - 8)) by lia|rewrite (E32 _ (code - 12)) by lia|]; apply load32_store32. }
  unfold start_one. rewrite run_bind. unfold on_pages, zoom. rewrite Ra. unfold smp_mem. rewrite !run_modS. cbn [skm swrites sports booted].
  match goal with |- context [(lapicstartap id (V2P code) ≫= _) ?t] => destruct (lapicstartap_run id (V2P code) t Hnew) as (w & q & R) end.
  cbn [skm booted] in R. change (P2V (V2P code)) with code in R.
  change (put_mem _ (put_mem _ (put_mem _ (put_mem _ k1)))) with (put_mem g k1) in R. cbn [pmem put_mem] in R.
  destruct (Hl (pmem k1)) as (L1 & L2 & L3). rewrite L1, L2, L3 in R. fold (args_for id p) in R.
  rewrite (bind_done _ _ _ _ _ R). eexists. split.
  { unfold wait_started. rewrite run_gets. cbn [booted].
    rewrite (find_new (booted s) (λ x, ba_id x =? id) (args_for id p) Hnew (Z.eqb_refl id)). by rewrite Hup. }
  split_and!; [|done|].
  - apply (below_free k1 l g Hf1). intros m a Ha. apply Hg. rewrite Ec, Ew in *. lia.
  - intros a Ha. change (g (pmem k1) a = pmem (skm s) a). rewrite Hg by done. by rewrite Hm.
Qed.

Lemma start_all_run (cs : list (nat * Z)) : ∀ (me : nat) s l,
  free_pages end_ (skm s) l → (length (filter (λ c, c.1 ≠ me) cs) ≤ length l)%nat → NoDup (cs.*2) →
  (∀ c, c ∈ cs → existsb (λ b, ba_id b =? c.2) (booted s) = false) →
  let ids := (filter (λ c, c.1 ≠ me) cs).*2 in
  ∃ s', mfor cs (λ c, if bool_decide (c.1 = me) then mret () else start_one mpenter entrypgdir comes_up c.2) s = Done ((), s') ∧
    free_pages end_ (skm s') (drop (length ids) l) ∧ booted s' = booted s ++ zip_with args_for ids l ∧
    ∀ a, ¬ low_words a → pmem (skm s') a = pmem (skm s) a.
Proof.
  induction cs as [|[i id] cs IH]; intros me s l Hf Hl Hnd Hb; cbn [mfor].
  - exists s. cbn. rewrite app_nil_r. done.
  - cbn [fmap list_fmap] in Hnd. apply NoDup_cons in Hnd as [Hid Hnd].
    assert (Hb' : ∀ c, c ∈ cs → existsb (λ b, ba_id b =? c.2) (booted s) = false) by (intros c Hc; apply Hb; by constructor).
    rewrite filter_cons in *. cbn [fst snd] in *. case_decide as Hne.
    + rewrite bool_decide_false by done. destruct l as [|p l]; [cbn in Hl; lia|].
      destruct (start_one_run id p l s Hf) as (s1 & R1 & F1 & B1 & M1); [by apply (Hb (i, id)); constructor|].
      rewrite (bind_done _ _ _ _ _ R1). destruct (IH me s1 l F1) as (s' & R & F & B & M'); [cbn in Hl; lia|done| |].
      { intros c Hc. rewrite B1, existsb_app, (Hb' c Hc). cbn. rewrite orb_false_r. apply Z.eqb_neq.
        intros ->. apply Hid, list_elem_of_fmap. by exists c. }
      exists s'. split; [exact R|]. cbn [fmap list_fmap length drop zip_with snd]. split; [exact F|]. split.
      * rewrite B, B1, <- app_assoc. done.
      * intros a Ha. by rewrite M', M1.
    + rewrite bool_decide_true by done. rewrite run_ret. by apply IH.
Qed.

End starts.

(** ** The real-time clock: [cmostime] *)

Record rtcdate := Rtc { second : Z; minute : Z; hour : Z; day : Z; month : Z; year : Z }.

#[global] Instance rtcdate_eq_dec : EqDecision rtcdate.
Proof. solve_decision. Defined.

Definition SECS : Z := 0x00.
Definition MINS : Z := 0x02.
Definition HOURS : Z := 0x04.
Definition DAY : Z := 0x07.
Definition MONTH : Z := 0x08.
Definition YEAR : Z := 0x09.
Definition CMOS_STATA : Z := 0x0a.
Definition CMOS_STATB : Z := 0x0b.
Definition CMOS_UIP : Z := Z.shiftl 1 7.

Section rtc.
(** What the clock chip answers for a register at the [n]th read. *)
Context (cmos : nat → Z → Z).

(** [cmos_read]: the state counts the reads. *)
Definition cmos_read (reg : Z) : M nat Z := λ n, Done (cmos n reg, S n).

Definition fill_rtcdate : M nat rtcdate :=
  s ← cmos_read SECS;
  mi ← cmos_read MINS;
  h ← cmos_read HOURS;
  d ← cmos_read DAY;
  mo ← cmos_read MONTH;
  y ← cmos_read YEAR;
  mret (Rtc s mi h d mo y).

(** The loop that reads the date until two readings agree. *)
Fixpoint cmos_loop (fuel : nat) : M nat rtcdate :=
  match fuel with
  | O => no_fuel
  | S fuel =>
      t1 ← fill_rtcdate;
      a ← cmos_read CMOS_STATA;
      if negb (Z.land a CMOS_UIP =? 0) then cmos_loop fuel
      else
        t2 ← fill_rtcdate;
        if bool_decide (t1 = t2) then mret t1 else cmos_loop fuel
  end.

(** [CONV] *)
Definition conv (x : Z) : Z := Z.shiftr x 4 * 10 + Z.land x 0xf.
Definition conv_date (t : rtcdate) : rtcdate :=
  Rtc (conv (second t)) (conv (minute t)) (conv (hour t)) (conv (day t)) (conv (month t)) (conv (year t)).

Definition cmostime (fuel : nat) : M nat rtcdate :=
  sb ← cmos_read CMOS_STATB;
  let bcd := Z.land sb (Z.shiftl 1 2) =? 0 in
  t1 ← cmos_loop fuel;
  let t1 := if bcd then conv_date t1 else t1 in
  mret (Rtc (second t1) (minute t1) (hour t1) (day t1) (month t1) (year t1 + 2000)).
End rtc.

Section clock.
(** The date the clock shows at the [n]th read, how its registers hold it, and the time
    of each update: [bcd] is the setting of status register B. *)
Context (cmos : nat → Z → Z) (date : nat → rtcdate) (bcd : bool).

Definition enc (x : Z) : Z := if bcd then x / 10 * 16 + x mod 10 else x.
Definition enc_date (t : rtcdate) : rtcdate :=
  Rtc (enc (second t)) (enc (minute t)) (enc (hour t)) (enc (day t)) (enc (month t)) (enc (year t)).

Hypothesis Hdigits : ∀ n, let t := date n in
  0 ≤ second t < 100 ∧ 0 ≤ minute t < 100 ∧ 0 ≤ hour t < 100 ∧ 0 ≤ day t < 100 ∧ 0 ≤ month t < 100 ∧ 0 ≤ year t < 100.
Hypothesis Hregs : ∀ n, let t := date n in
  cmos n SECS = enc (second t) ∧ cmos n MINS = enc (minute t) ∧ cmos n HOURS = enc (hour t) ∧
  cmos n DAY = enc (day t) ∧ cmos n MONTH = enc (month t) ∧ cmos n YEAR = enc (year t).
Hypothesis Hstatb : ∀ n, (Z.land (cmos n CMOS_STATB) (1 ≪ 2) =? 0) = bcd.

(** Seven reads take less than a minute: when the second is the same before and after
    them, the date did not change. *)
Hypothesis Hslow : ∀ i j, (i ≤ j ≤ i + 7)%nat → second (date i) = second (date j) → ∀ m, (i ≤ m ≤ j)%nat → date m = date i.

(** At some time the clock rests for as long as two rounds of the loop. *)
Context (N : nat).
Hypothesis Hrest : ∀ n, (N ≤ n ≤ N + 25)%nat → date n = date N ∧ Z.land (cmos n CMOS_STATA) CMOS_UIP = 0.

Lemma conv_bcd x : 0 ≤ x < 100 → conv (x / 10 * 16 + x mod 10) = x.
Proof.
  intros Hx. pose proof (Z.mod_pos_bound x 10 ltac:(lia)). unfold conv. change 0xf with (Z.ones 4).
  rewrite Z.land_ones, Z.shiftr_div_pow2 by lia. change (2 ^ 4) with 16.
  rewrite !(Z.add_comm (x / 10 * 16)), Z.div_add, Z.mod_add by lia. rewrite Z.div_small, Z.mod_small by lia. pose proof (Z.div_mod x 10). lia.
Qed.

Lemma enc_inj x y : 0 ≤ x < 100 → 0 ≤ y < 100 → enc x = enc y → x = y.
Proof. unfold enc. destruct bcd; [|done]. intros Hx Hy E. rewrite <- (conv_bcd x), <- (conv_bcd y) by done. by rewrite E. Qed.

(** What one filling reads. *)
Definition reading (n : nat) : rtcdate :=
  Rtc (enc (second (date n))) (enc (minute (date (n + 1)))) (enc (hour (date (n + 2)))) (enc (day (date (n + 3))))
    (enc (month (date (n + 4)))) (enc (year (date (n + 5)))).

Lemma fill_run n : fill_rtcdate cmos n = Done (reading n, (n + 6)%nat).
Proof.
  unfold fill_rtcdate. do 6 (rewrite run_bind; unfold cmos_read at 1).
  destruct (Hregs n) as (-> & _), (Hregs (S n)) as (_ & -> & _), (Hregs (S (S n))) as (_ & _ & -> & _),
    (Hregs (S (S (S n)))) as (_ & _ & _ & -> & _), (Hregs (S (S (S (S n))))) as (_ & _ & _ & _ & -> & _),
    (Hregs (S (S (S (S (S n)))))) as (_ & _ & _ & _ & _ & ->).
  unfold reading, mret, M_ret. repeat f_equal; lia.
Qed.

Lemma reading_steady n t : (∀ m, (n ≤ m ≤ n + 5)%nat → date m = t) → reading n = enc_date t.
Proof. intros H. unfold reading, enc_date. by rewrite !H by lia. Qed.

Lemma agree_date n : reading n = reading (n + 7) → reading n = enc_date (date n).
Proof.
  intros E. apply reading_steady. intros m Hm. apply (Hslow n (n + 7)); [lia| |lia].
  destruct (Hdigits n) as (D1 & _), (Hdigits (n + 7)) as (D2 & _). injection E as E _. by apply enc_inj.
Qed.

Lemma cmos_loop_run fuel : ∀ n, (n ≤ N + 12)%nat → (N + 12 < fuel + n)%nat →
  ∃ m n', cmos_loop cmos fuel n = Done (enc_date (date m), n').
Proof.
  induction fuel as [|fuel IH]; intros n Hn Hf; [lia|]. cbn [cmos_loop].
  rewrite (bind_done _ _ _ _ _ (fill_run n)), run_bind. unfold cmos_read at 1.
  destruct (Z.eqb_spec (Z.land (cmos (n + 6) CMOS_STATA) CMOS_UIP) 0) as [Hu|Hu]; cbn [negb].
  - replace (S (n + 6)) with (n + 7)%nat by lia. rewrite (bind_done _ _ _ _ _ (fill_run (n + 7))).
    case_bool_decide as E.
    + exists n, (n + 7 + 6)%nat. by rewrite (agree_date n E).
    + apply IH; [|lia]. destruct (decide (n < N)%nat); [lia|]. exfalso. apply E.
      rewrite !(reading_steady _ (date N)); [done|..]; intros m Hm; apply Hrest; lia.
  - apply IH; [|lia]. destruct (decide (n < N)%nat); [lia|]. exfalso. apply Hu, Hrest. lia.
Qed.

(** [cmostime] ends, and returns a date the clock really showed, decoded and in this
    century: never a mixture of the registers before and after a tick, even though it
    reads them one by one while the clock runs. *)
Theorem cmostime_reads_a_date fuel : (N + 12 < fuel)%nat →
  ∃ m n', cmostime cmos fuel 0%nat = Done (Rtc (second (date m)) (minute (date m)) (hour (date m)) (day (date m)) (month (date m))
    (year (date m) + 2000), n').
Proof.
  intros Hf. unfold cmostime. rewrite run_bind. unfold cmos_read at 1. cbv zeta. rewrite Hstatb.
  destruct (cmos_loop_run fuel 1) as (m & n' & R); [lia|lia|]. rewrite (bind_done _ _ _ _ _ R).
  exists m, n'. destruct (Hdigits m) as (D1 & D2 & D3 & D4 & D5 & D6). unfold mret, M_ret, enc_date, enc, conv_date.
  destruct bcd; cbn [second minute hour day month year]; [|done]. by rewrite !conv_bcd.
Qed.
End clock.

(** ** Witnesses *)


(** A clock in BCD that ticks from 09:59:59 to 10:00:00 at its fifth read. *)
Definition ticking (n : nat) : rtcdate := if bool_decide (n < 5)%nat then Rtc 59 59 9 4 7 24 else Rtc 0 0 10 4 7 24.
Definition bcd_cmos (n : nat) (reg : Z) : Z :=
  let t := ticking n in
  if reg =? SECS then enc true (second t) else if reg =? MINS then enc true (minute t) else if reg =? HOURS then enc true (hour t)
  else if reg =? DAY then enc true (day t) else if reg =? MONTH then enc true (month t) else if reg =? YEAR then enc true (year t) else 0.

Lemma cmostime_reads_a_date_witness :
  ∃ m n', cmostime bcd_cmos 18 0%nat = Done (Rtc (second (ticking m)) (minute (ticking m)) (hour (ticking m)) (day (ticking m)) (month (ticking m))
    (year (ticking m) + 2000), n').
Proof.
  apply (cmostime_reads_a_date bcd_cmos ticking true) with (N := 5%nat).
  - intros n. unfold ticking. case_bool_decide; cbn; lia.
  - intros n. done.
  - intros n. done.
  - intros i j Hij E m Hm. unfold ticking in *. repeat case_bool_decide; done || lia.
  - intros n Hn. unfold ticking. rewrite !bool_decide_false by lia. done.
  - lia.
Defined.
